(* ===== verification/_CoqProject ===== *)
-Q . S2P
Prelude.v
Table.v
Session.v
PyStr.v
Redis.v
RateLimit.v
Otp.v
Rbac.v
Access.v
RbacService.v
Tenancy.v
Voucher.v
VoucherRequests.v
Credits.v
CampaignCredits.v
Auth.v
AuthRequests.v
Digits.v
Ip.v
Calendar.v
Money.v
Billing.v
Renewal.v
BillingRequests.v
Invoice.v
InvoiceRequests.v
Policy.v
PolicyRequests.v
Guest.v
GuestSession.v
GuestQuota.v
GuestAccess.v
GuestLogin.v
GuestOnline.v
GuestRequests.v
GuestMeter.v
GuestTeams.v
Router.v
Provisioning.v
ProvisioningJobs.v
