(* ===== verification/Prelude.v ===== *)
(** * CloudGuest: a verified model of the back end's core

    CloudGuest (the FastAPI application under [src/backend/app]) sells guest
    Wi-Fi to venues: guests log in with one-time codes or vouchers and get a
    session with limits and quotas, set by policies; staff log
    in with passwords and act under a role-based permission system over
    organizations, locations and routers, organizations subscribe to plans,
    are invoiced for them and prepay the messages their marketing campaigns
    send; the routers of a venue are registered, watched and configured.  This development translates the services that decide who may do
    what, which code is honoured and who is charged, and proves what they
    promise.

    ** How the program is modelled

    A service method is a computation [M S E A := S → outcome E A * S] (this
    file): it reads and writes a state and returns or raises, and writes made
    before a raise stay in the state.  Whether they survive is decided by the
    request's session: [Session.get_db_session] commits when the handler returns and restores
    the database, but nothing outside of it, when the handler raises.  A table is the list of
    its rows ([Table.v]); [SELECT], [INSERT], [UPDATE ... WHERE] with its
    rowcount are functions on that list.  Time is an argument: microseconds
    since the epoch.  Integers are unbounded, as in Python; bounds the code
    imposes (entry amounts, batch sizes, code lengths) are explicit checks.
    Randomness (new identifiers, code bodies) is an argument of the operation
    that draws it.  Code outside of the repository is an interface with the
    documented behaviour it relies on as laws, each with an instance that
    satisfies them: Redis ([Redis.v], a finite-map store), the Unicode case
    tables and the UUID parser ([PyStr.v]), IPv6 ([Ip.v]), the device a
    configuration is pushed to ([ProvisioningJobs.v]).

    ** The files, and what each models

    - [Prelude.v]: the monad, preservation and Hoare lemmas, tactics.
    - [Table.v]: [database/repositories/generic.py], rows and statements.
    - [Session.v]: [database/session.py]; histories of requests, each in a
      transaction of its own.
    - [PyStr.v]: Python strings, [str(uuid)] and its inverse.
    - [Redis.v]: [INCR]/[EXPIRE]/[TTL], connections that may fail, and the fixed-window
      counter the limiters of OTP and vouchers share.
    - [RateLimit.v]: [middleware/rate_limit.py].  Buckets of a request, the
      counting loop, fail-open dispatch.
    - [Otp.v]: [domains/otp].  [request_otp], delivery with its fallback
      channels, [verify_otp] and their audit rows.
    - [Rbac.v]: [domains/rbac/{enums,context,models,repository,authorization}.py].
      Scopes and their order, role inheritance, [resolve_role_permission_keys],
      the decision on a set of grants.
    - [Access.v]: [AccessValidator] and the permission cache, the out-of-band
      record of a denial.
    - [RbacService.v]: [domains/rbac/service.py].  Assigning and revoking
      roles, overrides, the guards against escalation and ownerless tenants.
    - [Tenancy.v]: [domains/rbac/dependencies.py], [organization_scope.py],
      [location_scope.py], [database/utils/filters.py].  The scope a request
      is checked at, and the rows a confined caller sees.
    - [Voucher.v]: [domains/voucher].  Batches, vouchers, redemption as a read
      followed by one conditional update, and a system of concurrent requests
      as a step relation.
    - [VoucherRequests.v]: the same operations as transactions, and their
      histories.
    - [Credits.v]: [domains/billing/credits_service.py],
      [credits_repository.py], [credits_notifications.py].  Wallets, the
      append-only ledger, its constraints and the low-balance alert.
    - [CampaignCredits.v]: [domains/marketing/credits.py].  What a campaign
      reserves, pays and gives back.
    - [Auth.v]: [domains/auth].  Log-in with its rate limit, lock and second
      factor, token rotation, passwords, resets, MFA enrolment.
    - [AuthRequests.v]: the same as transactions of requests, histories of
      them, and racing refreshes as a step relation that refines a register.
    - [Digits.v]: decimal notation, read back.
    - [Calendar.v]: Python's proleptic Gregorian dates, and the billing periods
      of [billing/validators.py].
    - [Money.v]: [billing/validators.py].  Decimal rounding, discounts, GST.
    - [Billing.v]: [billing/service.py] and [repository.py]: [PlanService],
      [LicenseService], [CouponService], [SubscriptionService], over all the
      tables of the domain.
    - [Renewal.v]: [billing/renewal_service.py].  The hourly sweep, and its
      abstract view as a function on a subscription and its license.
    - [BillingRequests.v]: both as transactions and their histories.
    - [Invoice.v]: [InvoiceService], [TaxRateService], [BillingProfileService]
      and [number_generator.py].
    - [InvoiceRequests.v]: histories of requests over all of billing.
    - [Policy.v]: [domains/policy].  Policies, their versions and assignments,
      the resolution of the policy in force, access tiers.
    - [PolicyRequests.v]: the same as transactions and their histories.
    - [Guest.v]: [domains/guest/{constants,exceptions,models,repository}.py].
      The rows of guests, devices, sessions and quota counters.
    - [GuestSession.v]: [guest/validators.py] and [service.py].  What ends,
      pauses and extends a session: operators, guests, and five sweeps.
    - [GuestQuota.v]: [guest/service.py].  Quota periods, traffic reports, the
      quota gate, accrual of connected time, the reset sweep.
    - [GuestAccess.v]: [domains/guest_access], [domains/mac_authorization].
      Rules, how identifiers match, the decision, the gate.
    - [GuestLogin.v]: [guest/service.py], [captive_portal/validators.py].  The
      sign-ins with all their gates, reconnecting, blocking.
    - [GuestOnline.v]: [guest/service.py].  RADIUS accounting, and the sweep
      of the venues that are open to their list only.
    - [GuestRequests.v]: histories of the operations of these files, under
      environments that change from request to request.
    - [GuestMeter.v]: those histories, and what each does to the counters of
      a user.
    - [GuestTeams.v]: [domains/guest_teams].  Teams, their seats and the limit
      the members share, with histories of both domains.
    - [Ip.v]: [ipaddress] for version 4, and addresses of any version.
    - [Router.v]: [domains/router].  Registering, moving, decommissioning and
      replacing routers, their provisioning tokens, heartbeats and secrets,
      the reachability sweeps.
    - [Provisioning.v]: [domains/router_provisioning].  Templates and the
      variables they are filled with, versions of a router's configuration,
      their push, rollback, backup and reset, enrollment requests.
    - [ProvisioningJobs.v]: [domains/provisioning_engine].  Jobs that
      configure a router in seven steps, and the task that drains their queue.

    The middleware and the OTP and voucher services call [Redis.fixed_window];
    voucher operations confine callers with [Tenancy]'s location check;
    [Tenancy] and [RbacService] decide with [Access.check], which reads
    [Rbac]'s resolution through the cache; [CampaignCredits] moves money only
    through [Credits.apply]; the log-in limiter of [Auth] is a Redis counter
    of its own.  [Renewal] ends licenses through [Billing]'s license service
    and [Invoice] reads [Billing]'s subscriptions, plans and coupon uses.
    [GuestLogin] asks [GuestAccess] whether a guest may enter, [Policy]
    (through [GuestQuota.effective_rules]) what limits hold, and [GuestQuota]
    whether the quota is spent; [GuestQuota] ends sessions through
    [GuestSession]'s live disconnect.  [GuestOnline] reports the traffic of
    accounting packets to [GuestQuota] and asks [GuestAccess] whom a venue
    still admits.  [GuestTeams] ends sessions with the
    operations of [GuestSession] and answers the quota gate of [GuestQuota],
    which takes it as a parameter.  [Provisioning] finds, vets and
    enrolls routers through [Router], whose tables its state contains;
    [ProvisioningJobs] calls both, and keeps a state around [Provisioning]'s
    and a queue beside the device.

    ** What is proved

    - Money: every wallet balance is the sum of its ledger entries and never
      negative over any history; a retry returns the original entry; nothing
      but campaign movements reaches reserved credits; dispatch holds the
      price of every recipient it allows; settling releases the rest once.
    - Vouchers: no interleaving redeems a voucher beyond its cap; exact
      acceptance; a batch moves only along its transition table; a revoked batch
      is dead; creation, import and statistics to the last code.
    - One-time codes: exact acceptance, single use, bounded delivery, the
      attempt cap and how the rollback of a failed request defeats it.
    - Access: the meaning of a permission check with inheritance, expiry and
      DENY; what the check of a request reaches; assignment within the
      actor's authority; the cache's window of staleness; listing confinement.
    - Authentication: exact acceptance of a log-in; a bound on password
      guessing; a refresh token is exchanged once, also under races (a
      refinement of an abstract register); a changed password ends sessions.
    - Billing: a sweep acts on each subscription as its abstract step says,
      whatever fails beside it; licenses and subscriptions move along their
      tables; the grace period is exact; coupon uses are counted and capped;
      tax is the one the law prescribes, a billing period the calendar's;
      documents are numbered without gaps, issued invoices are final, add up
      and grant a coupon once.
    - Policies: resolution answers with an applicable assignment that nothing
      outranks; a guest has one group per owner; a rollback restores the rules.
    - Guests: a sign-in succeeds exactly when every gate allows it, and leaves
      the guest within their limits; the access decision; a session ends
      exactly when a cap is reached, is never lost, moves along its table and
      is final once ended, over any history, but for the bytes a RADIUS stop
      writes over ([stop_lowers_the_counts]); stale sessions end and no others;
      a counter of data moves by exactly what the sessions carried, less what
      those stops put on them ([last_bytes_are_not_charged]);
      quota periods start at the last boundary, and the reset sweep is
      invisible to readers.
    - Teams: over any history no team outgrows its cap and a stint that has
      ended is final; a shared limit closes the gate exactly when the members'
      active sessions have carried it; a revoked team is offline, but for the
      members it reports.
    - Routers: over any history no router is lost, its identities stay unique
      among the live and its status moves along the table; a token provisions
      once; a router that falls silent is declared unreachable within a
      pass of two minutes and not before a minute and a half; a site is
      declared dark exactly when all of its routers are.
    - Configuration: versions of a router are numbered without gaps and never
      change content; applying one settles it before it returns; rolling back
      restores the content; a draft takes the most specific values.
    - The engine: a chain of retries is bounded, the queue is drained, and no
      job succeeds, since the push starts a job that is finished already (the
      unit tests, which see jobs succeed, run against a fake of the
      configuration service).
    - Rate limits: rotation of venue identifiers is bounded by the ceiling of
      the address; buckets never collide; the limiter fails open.

    Where the code does not do what its documentation says, the theorem states
    what it does (for example [lowercase_prefix_cannot_be_redeemed],
    [http_guessing_is_never_locked_out], [racing_resets_both_apply],
    [unbillable_subscriptions_never_end], [resumed_past_due_loses_grace],
    [late_failure_expires_a_cancelled_license],
    [termination_does_not_keep_out], [formatted_name_is_lost],
    [unlimited_unreported_never_times_out], [restored_version_cannot_be_pushed],
    [no_provisioning_job_succeeds], [last_bytes_are_not_charged], [one_job_is_retried_again_and_again],
    [racing_joins_exceed_the_cap], [revoked_team_still_closes_the_gate]).

    ** Bounds and fuel

    Inheritance is walked to [max_depth] (a setting) by a structural recursion
    on it; the cycle check of the assignment service uses the code's own cap
    of 50.  Code generation runs the code's [CODE_GENERATION_MAX_ROUNDS] = 10
    rounds and raises when they do not suffice, as the code does, so no fuel
    is added.  A year is found by one division per cycle of 400, 100, 4 and 1
    years; a decimal numeral has one digit of fuel per bit.  A tick of the
    engine's task takes the code's batch of 50 jobs at most.  All other loops are structural on the list they traverse; every
    definition is total and executable, and each theorem with hypotheses has a
    witness evaluated on a concrete state (Modules [examples]).

    ** What is left out, and why

    Columns that no modelled decision reads (names, notes, timestamps of the
    base model, audit descriptions of vouchers) are dropped.  Listings with
    paging, exports, PDF and e-mail rendering, routers and schemas are glue.
    A Redis outage inside the permission cache, and the masking note of the
    request context, are not modelled.  The database's isolation is not: an
    operation runs on one state, except redemption, modelled as read and
    write halves that interleave, and the revocation race of the cache;
    credit transactions follow each other because they hold the wallet's row
    lock from their first statement, save for the unlocked read that opens
    [adjust_at_dispatch].

    Of billing, audit rows, plan features with their entitlement cache, usage
    metrics, dashboards and the [Payment] rows are left out; the payment
    gateway is a function of the subscription and the amount.  A sweep or
    request reads the clock once.  Where a query has no order, the model takes
    the first row of the table.

    Of guests, the tables of other domains are what a request finds: access
    rules, policies, portals and routers are read, not written, by a sign-in
    (each is written in its own file).  A time zone is a pair of conversions;
    what verifying a code or password answers, the parser of clock times and
    what a router reports are parameters.  The sign-ins by voucher and by PIN
    and the enforcement of a new blocklist rule, which write sessions too, are
    in no history here (they open or reuse and end it as the modelled sign-ins
    and disconnections do), nor is the device noted on a session later.  RADIUS authorization and registration,
    the queues and hotspot gates opened on routers, broadcasts, consent,
    profiles and review prompts are left out, as are the names of teams and the
    administrators' listings of them, which expire teams the way a look at one
    does.

    Of routers, SNMP polls, local administrators, certificates and the
    choice of a device's password are left out.  What a router answers to a
    push, a rotation or a probe is a parameter or a state of its own, as is
    whether the RADIUS server takes it as a client.  Of the engine, logs, the
    policy snapshot, the console and the health polls are left out.

    Not modelled are queue trees on devices, payments and their
    webhooks, the editing of role definitions, WireGuard tunnels and the rest
    of device configuration (VLANs, DHCP, DNS, firewalls, hotspots), which
    renders vendor commands and converses with devices, provider transports,
    and analytics and monitoring, which is SQL and reporting. *)

From stdpp Require Export base tactics numbers list gmap strings sets.
From Stdlib Require Export Lia.

#[global] Open Scope Z_scope.

Declare Scope cg_scope.
Delimit Scope cg_scope with cg.
#[global] Open Scope cg_scope.

(** ** Identifiers and time

    A [uuid.UUID] is only ever compared for equality by the code, so any
    countable type will do.  A [datetime] is the number of microseconds since
    the epoch, which is the resolution of Python's [datetime]. *)
Abbreviation uuid := positive (only parsing).
Abbreviation datetime := Z (only parsing).

(** [timedelta(minutes=n)] and [timedelta(seconds=n)] in microseconds. *)
Definition minutes (n : Z) : Z := n * 60 * 1000000.
Definition seconds (n : Z) : Z := n * 1000000.

(** ** Results of a call: a value, or a raised exception *)
Inductive outcome (E A : Type) : Type :=
| Ok (a : A)
| Raise (e : E).
Arguments Ok {E A} a.
Arguments Raise {E A} e.

#[global] Instance outcome_eq_dec {E A} `{EqDecision E, EqDecision A} :
  EqDecision (outcome E A).
Proof. solve_decision. Defined.

Definition is_ok {E A} (o : outcome E A) : bool :=
  match o with Ok _ => true | Raise _ => false end.

(** ** Stateful, fallible computations

    A method of a service reads and writes the session's state [S] and
    either returns or raises.  A raised exception keeps the writes made
    before it: whether they survive is decided by whoever owns the
    transaction (see [Session.v]), not by the method. *)
Definition M (S E A : Type) : Type := S → outcome E A * S.

#[global] Instance M_ret {S E} : MRet (M S E) := λ A a s, (Ok a, s).
#[global] Instance M_bind {S E} : MBind (M S E) := λ A B f m s,
  match m s with
  | (Ok a, s') => f a s'
  | (Raise e, s') => (Raise e, s')
  end.

Definition raise {S E A} (e : E) : M S E A := λ s, (Raise e, s).
Definition get {S E} : M S E S := λ s, (Ok s, s).
Definition gets {S E A} (f : S → A) : M S E A := λ s, (Ok (f s), s).
Definition modify {S E} (f : S → S) : M S E unit := λ s, (Ok tt, f s).

(** [if b: raise e] and [if x is None: raise e]. *)
Definition raise_if {S E} (b : bool) (e : E) : M S E unit :=
  if b then raise e else mret tt.
Definition of_option {S E A} (o : option A) (e : E) : M S E A :=
  match o with Some a => mret a | None => raise e end.

(** A computation on a component of the state, run on the whole. *)
Definition zoom {S T E A} (proj : S → T) (put : T → S → S) (m : M T E A) : M S E A :=
  λ s, let '(o, t) := m (proj s) in (o, put t s).

(** ** Inversion and weakest-precondition style lemmas *)
Section monad.
Context {S E : Type}.

Lemma bind_Ok {A B} (m : M S E A) (f : A → M S E B) s b s' :
  (m ≫= f) s = (Ok b, s') ↔ ∃ a s1, m s = (Ok a, s1) ∧ f a s1 = (Ok b, s').
Proof.
  unfold mbind, M_bind. destruct (m s) as [[a|e] s1]; split.
  - eauto.
  - intros (? & ? & [= <- <-] & ?); done.
  - done.
  - intros (? & ? & ? & ?); done.
Qed.

Lemma bind_Raise {A B} (m : M S E A) (f : A → M S E B) s e s' :
  (m ≫= f) s = (Raise e, s') ↔
  m s = (Raise e, s') ∨ ∃ a s1, m s = (Ok a, s1) ∧ f a s1 = (Raise e, s').
Proof.
  unfold mbind, M_bind. destruct (m s) as [[a|e'] s1]; split.
  - eauto.
  - intros [?|(? & ? & [= <- <-] & ?)]; done.
  - intros [= <- <-]; by left.
  - intros [[= <- <-]|(? & ? & ? & ?)]; done.
Qed.

(** One step of a run whose head is known. *)
Lemma bind_step {A B} (m : M S E A) (f : A → M S E B) s a s1 :
  m s = (Ok a, s1) → (m ≫= f) s = f a s1.
Proof. unfold mbind, M_bind. by intros ->. Qed.
Lemma bind_stop {A B} (m : M S E A) (f : A → M S E B) s e s1 :
  m s = (Raise e, s1) → (m ≫= f) s = (Raise e, s1).
Proof. unfold mbind, M_bind. by intros ->. Qed.

Lemma ret_bind {A B} (a : A) (f : A → M S E B) s : (mret a ≫= f) s = f a s.
Proof. done. Qed.
Lemma raise_bind {A B} e (f : A → M S E B) s : (raise e ≫= f) s = (Raise e, s).
Proof. done. Qed.
Lemma raise_if_bind {B} b e (f : unit → M S E B) s :
  (raise_if b e ≫= f) s = if b then (Raise e, s) else f tt s.
Proof. by destruct b. Qed.
Lemma of_option_bind {A B} o e (f : A → M S E B) s :
  (of_option o e ≫= f) s = match o with Some a => f a s | None => (Raise e, s) end.
Proof. by destruct o. Qed.

Lemma bind_assoc {A B C} (m : M S E A) (f : A → M S E B) (g : B → M S E C) s :
  ((m ≫= f) ≫= g) s = (m ≫= λ a, f a ≫= g) s.
Proof. unfold mbind, M_bind. by destruct (m s) as [[a|e] s1]. Qed.

(** [preserves I m]: whether it returns or raises, [m] keeps [I]. *)
Definition preserves (I : S → Prop) {A} (m : M S E A) : Prop :=
  ∀ s, I s → I (m s).2.

Lemma preserves_ret (I : S → Prop) {A} (a : A) : preserves I (mret a).
Proof. by intros s. Qed.
Lemma preserves_raise (I : S → Prop) {A} e : preserves (A:=A) I (raise e).
Proof. by intros s. Qed.
Lemma preserves_get (I : S → Prop) : preserves I get.
Proof. by intros s. Qed.
Lemma preserves_gets (I : S → Prop) {A} (f : S → A) : preserves I (gets f).
Proof. by intros s. Qed.
Lemma preserves_raise_if (I : S → Prop) b e : preserves I (raise_if b e).
Proof. by destruct b; intros s. Qed.
Lemma preserves_of_option (I : S → Prop) {A} (o : option A) e :
  preserves I (of_option o e).
Proof. by destruct o; intros s. Qed.
Lemma preserves_modify (I : S → Prop) f :
  (∀ s, I s → I (f s)) → preserves I (modify f).
Proof. intros H s. apply H. Qed.
Lemma preserves_bind (I : S → Prop) {A B} (m : M S E A) (f : A → M S E B) :
  preserves I m → (∀ a, preserves I (f a)) → preserves I (m ≫= f).
Proof.
  intros Hm Hf s Hs. specialize (Hm s Hs). unfold mbind, M_bind.
  destruct (m s) as [[a|e] s1]; simpl in *; [by apply Hf|done].
Qed.
Lemma preserves_bind_val (I : S → Prop) {A B} (Post : A → Prop) (m : M S E A) (f : A → M S E B) :
  preserves I m → (∀ s a s', m s = (Ok a, s') → Post a) → (∀ a, Post a → preserves I (f a)) →
  preserves I (m ≫= f).
Proof.
  intros Hm Hp Hf s Hs. specialize (Hm s Hs). unfold mbind, M_bind.
  destruct (m s) as [[a|e] s1] eqn:Hrun; simpl in *; [by apply Hf; eauto|done].
Qed.
Lemma preserves_if (I : S → Prop) {A} (b : bool) (m1 m2 : M S E A) :
  preserves I m1 → preserves I m2 → preserves I (if b then m1 else m2).
Proof. by destruct b. Qed.
End monad.

Create HintDb pres.
#[export] Hint Resolve preserves_ret preserves_raise preserves_get preserves_gets
  preserves_raise_if preserves_of_option preserves_bind preserves_if
  preserves_modify : pres.

(** [respects R m]: the state after [m], returned or raised, is [R]-related to
    the state before it.  Closed under the monad's operations when [R] is a
    preorder. *)
Section respects.
Context {S E : Type} (R : S → S → Prop) `{!PreOrder R}.

Definition respects {A} (m : M S E A) : Prop := ∀ s, R s (m s).2.

Lemma respects_pure {A} (m : M S E A) : (∀ s, (m s).2 = s) → respects m.
Proof. intros H s. by rewrite H. Qed.
Lemma respects_ret {A} (a : A) : respects (mret a).
Proof. by apply respects_pure. Qed.
Lemma respects_raise {A} e : respects (A:=A) (raise e).
Proof. by apply respects_pure. Qed.
Lemma respects_gets {A} (f : S → A) : respects (gets f).
Proof. by apply respects_pure. Qed.
Lemma respects_raise_if b e : respects (raise_if b e).
Proof. by apply respects_pure; destruct b. Qed.
Lemma respects_of_option {A} (o : option A) e : respects (of_option o e).
Proof. by apply respects_pure; destruct o. Qed.
Lemma respects_bind {A B} (m : M S E A) (f : A → M S E B) :
  respects m → (∀ a, respects (f a)) → respects (m ≫= f).
Proof.
  intros Hm Hf s. specialize (Hm s). unfold mbind, M_bind.
  destruct (m s) as [[a|e] s1]; simpl in *; [etrans; [exact Hm|apply Hf]|done].
Qed.
Lemma respects_if {A} (b : bool) (m1 m2 : M S E A) :
  respects m1 → respects m2 → respects (if b then m1 else m2).
Proof. by destruct b. Qed.
End respects.

#[export] Hint Resolve respects_ret respects_raise respects_gets respects_raise_if
  respects_of_option respects_bind respects_if : pres.
#[export] Hint Extern 1 (PreOrder _) => typeclasses eauto : pres.

(** [triple P m Q X]: from a state in [P], [m] returns [a] in a state in [Q a]
    or raises in a state in [X]. *)
Section triple.
Context {S E : Type}.
Implicit Types (P X : S → Prop).

Definition triple {A} P (m : M S E A) (Q : A → S → Prop) X : Prop :=
  ∀ s, P s → match m s with (Ok a, s') => Q a s' | (Raise _, s') => X s' end.

Lemma triple_bind {A B} P (m : M S E A) (Q : A → S → Prop) (f : A → M S E B) Q' X :
  triple P m Q X → (∀ a, triple (Q a) (f a) Q' X) → triple P (m ≫= f) Q' X.
Proof.
  intros Hm Hf s Hs. specialize (Hm s Hs). unfold mbind, M_bind.
  destruct (m s) as [[a|e] s1]; [by apply Hf|done].
Qed.

Lemma triple_post {A} P (m : M S E A) (Q Q' : A → S → Prop) X :
  triple P m Q X → (∀ a s, Q a s → Q' a s) → triple P m Q' X.
Proof.
  intros Hm HQ s Hs. specialize (Hm s Hs). destruct (m s) as [[a|e] s1]; [by apply HQ|done].
Qed.

(** A step that reads: the state after it is the state before it. *)
Definition reads {A} (m : M S E A) : Prop := ∀ s, (m s).2 = s.
Lemma triple_reads {A} P (m : M S E A) X :
  reads m → (∀ s, P s → X s) → triple P m (λ _, P) X.
Proof.
  intros Hr HX s Hs. specialize (Hr s). destruct (m s) as [[a|e] s1]; simpl in *; subst; auto.
Qed.
Lemma reads_bind {A B} (m : M S E A) (f : A → M S E B) :
  reads m → (∀ a, reads (f a)) → reads (m ≫= f).
Proof.
  intros Hm Hf s. specialize (Hm s). unfold mbind, M_bind.
  destruct (m s) as [[a|e] s1]; simpl in *; subst; [apply Hf|done].
Qed.
Lemma reads_ret {A} (a : A) : reads (mret a).
Proof. by intros s. Qed.
Lemma reads_raise {A} e : reads (A:=A) (raise e).
Proof. by intros s. Qed.
Lemma reads_gets {A} (f : S → A) : reads (gets f).
Proof. by intros s. Qed.
Lemma reads_raise_if b e : reads (raise_if b e).
Proof. by destruct b; intros s. Qed.
Lemma reads_of_option {A} (o : option A) e : reads (of_option o e).
Proof. by destruct o; intros s. Qed.
Lemma reads_Ok {A} (m : M S E A) s a s' : m s = (Ok a, s') → reads m → s' = s.
Proof. intros H Hr. specialize (Hr s). by rewrite H in Hr. Qed.
Lemma triple_respects {A} (R : S → S → Prop) P (m : M S E A) X :
  respects R m → (∀ s s', P s → R s s' → X s') → triple P m (λ _, X) X.
Proof.
  intros Hr HX s Hs. specialize (Hr s). destruct (m s) as [[a|e] s1]; simpl in *; eauto.
Qed.
End triple.
#[export] Hint Resolve reads_ret reads_raise reads_gets reads_raise_if reads_of_option
  reads_bind : pres.

(** A key that does not repeat determines the row. *)
Lemma NoDup_map_eq {A B} (f : A → B) (l : list A) x y :
  NoDup (map f l) → x ∈ l → y ∈ l → f x = f y → x = y.
Proof.
  induction l as [|z l IH]; intros Hnd Hx Hy Hf; [by apply not_elem_of_nil in Hx|].
  apply NoDup_cons in Hnd as [Hnin Hnd]. apply elem_of_cons in Hx as [->|Hx], Hy as [->|Hy].
  - done.
  - destruct Hnin. rewrite Hf. apply list_elem_of_In, in_map, list_elem_of_In, Hy.
  - destruct Hnin. rewrite <- Hf. apply list_elem_of_In, in_map, list_elem_of_In, Hx.
  - by apply IH.
Qed.

(** Run a computation whose head is known: reduce the monad's plumbing. *)
Ltac mstep :=
  cbv beta iota delta [mbind M_bind mret M_ret raise get gets modify raise_if of_option zoom
                       fst snd] in *.

(** Rewrite the head of a run with the equation (or its proof) [L]. *)
Tactic Notation "run" uconstr(L) := erewrite bind_step by (apply L || exact L).
Tactic Notation "stop" uconstr(L) := erewrite bind_stop by (apply L || exact L).

(** Split conjunctions, existentials and injective equations. *)
Ltac inv_all :=
  repeat match goal with
  | H : _ ∧ _ |- _ => destruct H
  | H : ∃ _, _ |- _ => destruct H
  | H : (_, _) = (_, _) |- _ => injection H; clear H; intros
  | H : Ok _ = Ok _ |- _ => injection H; clear H; intros
  | H : Raise _ = Raise _ |- _ => injection H; clear H; intros
  | H : Ok _ = Raise _ |- _ => discriminate H
  | H : Raise _ = Ok _ |- _ => discriminate H
  | H : Some _ = Some _ |- _ => injection H; clear H; intros
  | H : Some _ = None |- _ => discriminate H
  | H : None = Some _ |- _ => discriminate H
  end; subst.

(** Boolean reflection for hypotheses over [&&], [||], comparisons. *)
Ltac bools :=
  repeat match goal with
  | H : (_ && _) = true |- _ => apply andb_true_iff in H as [??]
  | H : (_ || _) = false |- _ => apply orb_false_iff in H as [??]
  | H : (_ && _) = false |- _ => apply andb_false_iff in H
  | H : (_ || _) = true |- _ => apply orb_true_iff in H
  | H : negb _ = true |- _ => apply negb_true_iff in H
  | H : negb _ = false |- _ => apply negb_false_iff in H
  | H : (_ <? _) = true |- _ => apply Z.ltb_lt in H
  | H : (_ <? _) = false |- _ => apply Z.ltb_ge in H
  | H : (_ <=? _) = true |- _ => apply Z.leb_le in H
  | H : (_ <=? _) = false |- _ => apply Z.leb_gt in H
  | H : (_ =? _) = true |- _ => apply Z.eqb_eq in H
  | H : (_ =? _) = false |- _ => apply Z.eqb_neq in H
  | H : bool_decide _ = true |- _ => apply bool_decide_eq_true in H
  | H : bool_decide _ = false |- _ => apply bool_decide_eq_false in H
  end.

(** An equation between closed terms, decided by evaluation in the kernel. *)
Ltac by_vm :=
  match goal with
  | |- ?l = ?r => first [has_evar r; let v := eval vm_compute in l in unify r v | idtac];
                  vm_cast_no_check (eq_refl l)
  end.

(** Follow a run that returned: one equation per step, discarding the branches
    that raise. *)
Ltac ok_inv H :=
  lazymatch type of H with
  | (_ ≫= _) _ = (Ok _, _) =>
      let a := fresh "a" in let s := fresh "s" in let Hr := fresh "Hrun" in
      apply bind_Ok in H as (a & s & Hr & H); ok_inv Hr; ok_inv H
  | gets _ _ = _ => unfold gets in H; injection H; clear H; intros; subst
  | modify _ _ = _ => unfold modify in H; injection H; clear H; intros; subst
  | mret _ _ = _ => unfold mret, M_ret in H; injection H; clear H; intros; subst
  | raise _ _ = _ => discriminate H
  | raise_if ?b _ _ = _ =>
      let E := fresh "Htest" in
      destruct b eqn:E; [discriminate H|]; unfold raise_if in H; ok_inv H
  | of_option ?o _ _ = _ =>
      let E := fresh "Hsome" in
      destruct o eqn:E; [|discriminate H]; unfold of_option in H; ok_inv H
  | (if ?b then _ else _) _ = _ => let E := fresh "Hif" in destruct b eqn:E; ok_inv H
  | _ => idtac
  end.
