(* ===== verification/Table.v ===== *)
(** Tables of rows and the statements the repositories issue on them.

    The repositories under [src/backend/app/domains/*/repository.py] are thin
    wrappers of [src/backend/app/database/repositories/generic.py]: a row is
    selected by a filter, inserted, or changed by an [UPDATE ... WHERE] whose
    [rowcount] the caller may read.  A table is the list of its rows in
    insertion order; the four statements are [select], [insert], [update] and
    [count] below. *)

From S2P Require Import Prelude.

Section table.
Context {R : Type}.
Implicit Types (t : list R) (p : R → bool) (f : R → R).

(** [SELECT * FROM t WHERE p]. *)
Definition select p t : list R := List.filter p t.

(** [get_all(filters, limit=1)], first row or [None]. *)
Definition select_one p t : option R := head (select p t).

(** [UPDATE t SET f WHERE p]: the new table and the statement's rowcount. *)
Definition update p f t : list R := map (λ r, if p r then f r else r) t.
Definition rowcount p t : Z := Z.of_nat (length (select p t)).

(** [session.add] followed by a flush. *)
Definition insert_row (r : R) t : list R := t ++ [r].
Definition insert_rows (rs : list R) t : list R := t ++ rs.

(** [ORDER BY key LIMIT 1]; of equal keys the row that comes first. *)
Fixpoint least (key : R → Z) t : option R :=
  match t with
  | [] => None
  | r :: t =>
      match least key t with
      | Some s => Some (if key r <=? key s then r else s)
      | None => Some r
      end
  end.

Lemma elem_of_select p t r : r ∈ select p t ↔ r ∈ t ∧ p r = true.
Proof. by rewrite !list_elem_of_In, filter_In. Qed.

Lemma select_one_Some p t r : select_one p t = Some r → r ∈ t ∧ p r = true.
Proof.
  unfold select_one. intros H. apply elem_of_select.
  destruct (select p t) eqn:E; simplify_eq/=. apply list_elem_of_here.
Qed.

Lemma select_one_None p t : select_one p t = None ↔ ∀ r, r ∈ t → p r = false.
Proof.
  unfold select_one. split.
  - intros H r Hr. destruct (p r) eqn:E; [|done].
    assert (r ∈ select p t) as Hin by by apply elem_of_select.
    destruct (select p t); [by apply not_elem_of_nil in Hin|done].
  - intros H. destruct (select p t) as [|r l] eqn:E; [done|].
    assert (r ∈ select p t) as Hin by (rewrite E; apply list_elem_of_here).
    apply elem_of_select in Hin as [Hin Hp]. by rewrite H in Hp.
Qed.

Lemma length_update p f t : length (update p f t) = length t.
Proof. apply length_map. Qed.

Lemma elem_of_update p f t r :
  r ∈ update p f t ↔ ∃ r0, r0 ∈ t ∧ r = if p r0 then f r0 else r0.
Proof.
  unfold update. rewrite list_elem_of_In, in_map_iff.
  split; intros (r0 & ? & ?); exists r0; rewrite ?list_elem_of_In in *; auto.
Qed.

(** A statement that matches no row changes nothing. *)
Lemma update_nomatch p f t : rowcount p t = 0 → update p f t = t.
Proof.
  unfold rowcount, update, select. induction t as [|r t IH]; [done|]. simpl.
  destruct (p r); simpl; [lia|]. intros. by rewrite IH.
Qed.

Lemma least_Some key t r : least key t = Some r → r ∈ t ∧ ∀ s, s ∈ t → key r ≤ key s.
Proof.
  revert r. induction t as [|x t IH]; intros r; [done|]. cbn [least].
  destruct (least key t) as [y|] eqn:E.
  - specialize (IH y eq_refl) as [Hy Hmin]. destruct (Z.leb_spec (key x) (key y)); intros [= <-].
    + split; [left|]. intros s [->|Hs]%elem_of_cons; [lia|]. specialize (Hmin s Hs). lia.
    + split; [by right|]. intros s [->|Hs]%elem_of_cons; [lia|]. by apply Hmin.
  - intros [= <-]. split; [left|]. intros s [->|Hs]%elem_of_cons; [done|].
    destruct t as [|z t]; [by apply not_elem_of_nil in Hs|]. cbn [least] in E.
    by destruct (least key t).
Qed.

Lemma least_None key t : least key t = None → t = [].
Proof. destruct t as [|x t]; [done|]. cbn [least]. by destruct (least key t). Qed.

Lemma rowcount_nonneg p t : 0 ≤ rowcount p t.
Proof. unfold rowcount. lia. Qed.

Lemma rowcount_pos p t r : r ∈ t → p r = true → 0 < rowcount p t.
Proof.
  intros Hin Hp. assert (r ∈ select p t) as H by by apply elem_of_select.
  unfold rowcount. destruct (select p t); [by apply not_elem_of_nil in H|].
  simpl; lia.
Qed.

Lemma rowcount_zero p t r : rowcount p t = 0 → r ∈ t → p r = false.
Proof.
  intros H0 Hin. destruct (p r) eqn:E; [|done].
  pose proof (rowcount_pos p t r Hin E). lia.
Qed.

Lemma rowcount_none p t : (∀ r, r ∈ t → p r = false) → rowcount p t = 0.
Proof.
  intros H. unfold rowcount. destruct (select p t) as [|r rs] eqn:E; [done|]. exfalso.
  assert (r ∈ select p t) as Hr by (rewrite E; left).
  apply elem_of_select in Hr as [Hr Hp]. by rewrite H in Hp.
Qed.
Lemma select_app p t1 t2 : select p (t1 ++ t2) = select p t1 ++ select p t2.
Proof. unfold select. apply List.filter_app. Qed.

Lemma rowcount_app p t1 t2 : rowcount p (t1 ++ t2) = rowcount p t1 + rowcount p t2.
Proof. unfold rowcount. rewrite select_app, length_app. lia. Qed.

Lemma select_one_insert p t r :
  (∀ r', r' ∈ t → p r' = false) → p r = true → select_one p (insert_row r t) = Some r.
Proof.
  intros Hno Hr. unfold select_one, insert_row. rewrite select_app.
  assert (select p t = []) as ->; [|unfold select; simpl; by rewrite Hr].
  unfold select. apply select_one_None in Hno. unfold select_one, select in Hno.
  by destruct (List.filter p t).
Qed.

Lemma select_one_insert_other p t r : p r = false → select_one p (insert_row r t) = select_one p t.
Proof.
  intros Hr. unfold select_one, insert_row. rewrite select_app. unfold select. simpl. rewrite Hr.
  by rewrite app_nil_r.
Qed.
(** A query that an update does not see. *)
Lemma select_one_update p q f t : (∀ r, p (f r) = p r) →
  select_one p (update q f t) = (λ r, if q r then f r else r) <$> select_one p t.
Proof.
  intros Hf. unfold select_one, select, update. induction t as [|r t IH]; [done|]. simpl.
  assert (p (if q r then f r else r) = p r) as -> by by destruct (q r).
  by destruct (p r).
Qed.

Lemma rowcount_update_le p q f t : (∀ r, r ∈ t → p r = true → q (f r) = true → q r = true) →
  rowcount q (update p f t) ≤ rowcount q t.
Proof.
  unfold rowcount, select, update. induction t as [|r t IH]; intros H; [done|]. simpl.
  specialize (IH (λ r Hr, H r ltac:(by right))). pose proof (H r ltac:(left)) as Hr.
  destruct (p r); [destruct (q (f r)) eqn:E; [rewrite Hr by done|destruct (q r)]|destruct (q r)];
    simpl; lia.
Qed.

(** Updating preserves any row property that [f] preserves. *)
Lemma Forall_update (P : R → Prop) p f t :
  Forall P t → (∀ r, P r → p r = true → P (f r)) → Forall P (update p f t).
Proof.
  intros H Hf. unfold update. apply Forall_map.
  eapply Forall_impl; [exact H|]. intros r Hr. simpl. destruct (p r) eqn:E; auto.
Qed.

Lemma map_update {K} (k : R → K) p f t :
  (∀ r, k (f r) = k r) → map k (update p f t) = map k t.
Proof.
  intros Hk. unfold update. rewrite map_map. apply map_ext.
  intros r. destruct (p r); auto.
Qed.
End table.

Lemma NoDup_map_select {R K} (k : R → K) p (t : list R) :
  NoDup (map k t) → NoDup (map k (select p t)).
Proof.
  unfold select. induction t as [|r t IH]; [done|]. cbn [map]. intros [Hnin Hnd]%NoDup_cons. cbn.
  destruct (p r); [|by apply IH]. cbn [map]. apply NoDup_cons. split; [|by apply IH].
  intros Hin. apply Hnin. apply list_elem_of_In, in_map_iff in Hin as (r' & <- & Hr').
  apply list_elem_of_In, in_map. by apply filter_In in Hr' as [? _].
Qed.

(** ** Rows with a primary key *)
Class HasId (R : Type) := row_id : R → uuid.
#[global] Hint Mode HasId ! : typeclass_instances.

Section keyed.
Context {R : Type} `{HasId R}.
Implicit Types (t : list R) (k : uuid).

Definition has_id k (r : R) : bool := bool_decide (row_id r = k).

(** [get_by_id]. *)
Definition by_id k t : option R := select_one (has_id k) t.

(** The write of one ORM instance: [GenericRepository.update]. *)
Definition set_row (f : R → R) k t : list R := update (has_id k) f t.

(** The primary-key constraint. *)
Definition keyed t : Prop := NoDup (map row_id t).

Lemma by_id_Some k t r : by_id k t = Some r → r ∈ t ∧ row_id r = k.
Proof.
  intros [? Hk]%select_one_Some. split; [done|]. by apply bool_decide_eq_true in Hk.
Qed.

Lemma by_id_unique k t r : keyed t → r ∈ t → row_id r = k → by_id k t = Some r.
Proof.
  unfold keyed, by_id, select_one, select. intros Hnd Hin <-.
  induction t as [|r' t IH]; [by apply not_elem_of_nil in Hin|].
  simpl in *. apply NoDup_cons in Hnd as [Hnin Hnd].
  apply elem_of_cons in Hin as [->|Hin].
  - unfold has_id. by rewrite bool_decide_true.
  - destruct (has_id (row_id r) r') eqn:E; [|by apply IH].
    apply bool_decide_eq_true in E. destruct Hnin. rewrite E.
    apply list_elem_of_In, in_map, list_elem_of_In, Hin.
Qed.

Lemma by_id_set_row f k k' t :
  (∀ r, row_id (f r) = row_id r) →
  by_id k' (set_row f k t) =
    if decide (k = k') then f <$> by_id k t else by_id k' t.
Proof.
  intros Hf. unfold by_id, select_one, set_row, select, update.
  induction t as [|r t IH]; simpl; [by case_decide|].
  unfold has_id in *. destruct (bool_decide (row_id r = k)) eqn:E; simpl.
  - rewrite Hf. apply bool_decide_eq_true in E. case_decide as Hk.
    + subst. by rewrite bool_decide_true.
    + rewrite bool_decide_false by congruence. by rewrite IH.
  - apply bool_decide_eq_false in E. case_decide as Hk.
    + subst. rewrite bool_decide_false by done. by rewrite IH.
    + destruct (bool_decide (row_id r = k')) eqn:E'; [done|]. by rewrite IH.
Qed.

Lemma keyed_set_row f k t :
  (∀ r, row_id (f r) = row_id r) → keyed t → keyed (set_row f k t).
Proof. unfold keyed, set_row. intros Hf. by rewrite map_update. Qed.

(** An [UPDATE] guarded by the key and a test of the row. *)
Lemma update_guarded f k (q : R → bool) t :
  update (λ r, has_id k r && q r) f t = set_row (λ r, if q r then f r else r) k t.
Proof.
  unfold set_row, update. apply map_ext. intros r. by destruct (has_id k r), (q r).
Qed.

Lemma rowcount_guarded k (q : R → bool) t : keyed t →
  0 < rowcount (λ r, has_id k r && q r) t ↔ ∃ r, by_id k t = Some r ∧ q r = true.
Proof.
  intros Hkey. split.
  - intros Hpos. unfold rowcount in Hpos.
    destruct (select (λ r, has_id k r && q r) t) as [|r l] eqn:E; [simpl in Hpos; lia|].
    assert (r ∈ select (λ r, has_id k r && q r) t) as Hin by (rewrite E; apply list_elem_of_here).
    apply elem_of_select in Hin as [Hin [Hk Hq]%andb_true_iff].
    apply bool_decide_eq_true in Hk. exists r. split; [|done]. by apply by_id_unique.
  - intros (r & [Hin Hk]%by_id_Some & Hq). apply (rowcount_pos _ _ r Hin).
    rewrite Hq, andb_true_r. by apply bool_decide_eq_true.
Qed.

Lemma keyed_insert r t : keyed t → by_id (row_id r) t = None → keyed (insert_row r t).
Proof.
  unfold keyed, insert_row. rewrite map_app. intros Hkey Hno. apply NoDup_app.
  split; [done|]. split; [|apply NoDup_singleton].
  intros k Hk Hr. apply list_elem_of_singleton in Hr. subst k.
  apply list_elem_of_In, in_map_iff in Hk as (r' & Hr' & Hin).
  apply list_elem_of_In in Hin. unfold by_id in Hno. rewrite select_one_None in Hno.
  specialize (Hno _ Hin). unfold has_id in Hno. by rewrite bool_decide_true in Hno.
Qed.

Lemma by_id_insert k r t :
  by_id k (insert_row r t) =
    match by_id k t with
    | Some r' => Some r'
    | None => if decide (row_id r = k) then Some r else None
    end.
Proof.
  unfold by_id, select_one, insert_row. rewrite select_app.
  destruct (select (has_id k) t); [|done]. simpl. unfold has_id.
  by destruct (decide (row_id r = k)); [rewrite bool_decide_true|rewrite bool_decide_false].
Qed.

Lemma by_id_insert_rows k t rs :
  by_id k (insert_rows rs t) =
    match by_id k t with Some r => Some r | None => by_id k rs end.
Proof.
  unfold by_id, select_one, insert_rows. rewrite select_app.
  by destruct (select _ t).
Qed.
End keyed.

Lemma set_row_id {R} `{HasId R} k (t : list R) : set_row (λ r, r) k t = t.
Proof. unfold set_row, update. rewrite <-(map_id t) at 2. apply map_ext. intros r. by destruct (has_id k r). Qed.
Lemma update_false {R} (p : R → bool) f t : (∀ r, r ∈ t → p r = false) → update p f t = t.
Proof. intros Hp. by apply update_nomatch, rowcount_none. Qed.

Lemma update_ext {R} (p q : R → bool) f g t :
  (∀ r, r ∈ t → (if p r then f r else r) = (if q r then g r else r)) → update p f t = update q g t.
Proof. intros Heq. apply map_ext_in. intros r Hr. by apply Heq, list_elem_of_In. Qed.

Lemma select_ext {R} (p q : R → bool) t : (∀ r, p r = q r) → select p t = select q t.
Proof. intros Hpq. unfold select. by apply List.filter_ext. Qed.

Lemma select_select {R} (p q : R → bool) t : select p (select q t) = select (λ r, q r && p r) t.
Proof.
  unfold select. induction t as [|r t IH]; [done|]. cbn.
  destruct (q r); cbn; [destruct (p r); cbn|]; by rewrite IH.
Qed.

(** ** Loops over the rows of a query

    [for row in rows: ...; result.append(...)], where one turn of the loop may
    write the row it is at. *)
Fixpoint collect {S E A B} (body : A → M S E (option B)) (l : list A) : M S E (list B) :=
  match l with
  | [] => mret []
  | x :: l =>
      r ← body x;
      rs ← collect body l;
      mret (match r with Some b => b :: rs | None => rs end)
  end.

(** When a turn writes only its own row, the loop is one [UPDATE]. *)
Section loop.
Context {D E R K F : Type} `{!EqDecision K}.
Variable key : R → K.
Variable rows_of : D → list R.
Variable set_rows : (list R → list R) → D → D.
Variable rest : D → F.
Hypothesis rows_set : ∀ f d, rows_of (set_rows f d) = f (rows_of d).
Hypothesis rest_set : ∀ f d, rest (set_rows f d) = rest d.
Hypothesis set_set : ∀ f g d, set_rows f (set_rows g d) = set_rows (λ t, f (g t)) d.
Hypothesis set_ext : ∀ f g d, f (rows_of d) = g (rows_of d) → set_rows f d = set_rows g d.
Hypothesis set_id : ∀ d, set_rows (λ t, t) d = d.

Definition same_key (x r : R) : bool := bool_decide (key r = key x).
Definition among (l : list R) (r : R) : bool := bool_decide (key r ∈ map key l).

Lemma key_inj t x y : NoDup (map key t) → x ∈ t → y ∈ t → key x = key y → x = y.
Proof. apply NoDup_map_eq. Qed.

Lemma among_cons x l r : among (x :: l) r = same_key x r || among l r.
Proof.
  unfold among, same_key. cbn [map]. rewrite <-bool_decide_or. apply bool_decide_ext.
  by rewrite elem_of_cons.
Qed.

Context (body : R → M D E (option R)) (p : R → bool) (g : R → R).
Hypothesis key_g : ∀ x, key (g x) = key x.

Lemma collect_writes l : ∀ d,
  (∀ x d', x ∈ l → rest d' = rest d → x ∈ rows_of d' → NoDup (map key (rows_of d')) →
     body x d' = (Ok (if p x then Some (g x) else None),
                  if p x then set_rows (update (same_key x) (λ _, g x)) d' else d')) →
  NoDup (map key l) → NoDup (map key (rows_of d)) → (∀ x, x ∈ l → x ∈ rows_of d) →
  collect body l d = (Ok (map g (select p l)), set_rows (update (λ r, among l r && p r) g) d).
Proof.
  induction l as [|x l IH]; intros d Hbody Hl Hd Hin.
  { cbn. f_equal. rewrite <-(set_id d) at 1. apply set_ext. symmetry. by apply update_false. }
  cbn [map] in Hl. apply NoDup_cons in Hl as [Hx Hl].
  pose proof (Hin x ltac:(left)) as Hxd.
  set (d1 := if p x then set_rows (update (same_key x) (λ _, g x)) d else d).
  assert (NoDup (map key (rows_of d1))) as Hd1.
  { subst d1. destruct (p x); [|done]. rewrite rows_set. unfold update. rewrite map_map.
    erewrite map_ext; [exact Hd|]. intros r. unfold same_key. case_bool_decide; [|done].
    by rewrite key_g. }
  assert (rest d1 = rest d) as Hrest by (subst d1; destruct (p x); by rewrite ?rest_set).
  assert (∀ y, y ∈ l → y ∈ rows_of d1) as Hin1.
  { intros y Hy. subst d1. pose proof (Hin y ltac:(by right)) as Hyd. destruct (p x); [|done].
    rewrite rows_set. apply elem_of_update. exists y. split; [done|]. unfold same_key.
    rewrite bool_decide_false; [done|]. intros Heq. apply Hx. rewrite <-Heq.
    by apply list_elem_of_In, in_map, list_elem_of_In. }
  cbn [collect]. rewrite (bind_step _ _ _ _ _ (Hbody x d ltac:(left) eq_refl Hxd Hd)).
  fold d1. erewrite bind_step.
  2: { apply IH; [|done..]. intros y d' Hy Hr. apply Hbody; [by right|by rewrite Hr]. }
  cbn. apply (f_equal2 pair); [by destruct (p x)|].
  assert (∀ r, r ∈ rows_of d → same_key x r = true → r = x) as Huniq.
  { intros r Hr Hk. apply bool_decide_eq_true in Hk. by apply (key_inj (rows_of d)). }
  assert (among l x = false) as Hxl by by apply bool_decide_eq_false.
  subst d1. destruct (p x) eqn:Hp.
  - rewrite set_set. apply set_ext. unfold update at 1. unfold update at 1.
    rewrite map_map. apply map_ext_in. intros r Hr%list_elem_of_In. rewrite among_cons.
    destruct (same_key x r) eqn:Hk; [|done]. rewrite (Huniq r Hr Hk), Hp. cbn.
    assert (among l (g x) = false) as ->; [|done]. unfold among in *. by rewrite key_g.
  - apply set_ext. apply update_ext. intros r Hr. rewrite among_cons.
    destruct (same_key x r) eqn:Hk; [|done]. rewrite (Huniq r Hr Hk), Hp. by rewrite !andb_false_r.
Qed.

Lemma loop_is_update q d :
  (∀ x d', q x = true → rest d' = rest d → x ∈ rows_of d' → NoDup (map key (rows_of d')) →
     body x d' = (Ok (if p x then Some (g x) else None),
                  if p x then set_rows (update (same_key x) (λ _, g x)) d' else d')) →
  NoDup (map key (rows_of d)) →
  collect body (select q (rows_of d)) d
    = (Ok (map g (select (λ x, q x && p x) (rows_of d))),
       set_rows (update (λ x, q x && p x) g) d).
Proof.
  intros Hbody Hd. rewrite collect_writes; [|..|done|].
  - f_equal.
    + f_equal. f_equal. clear. induction (rows_of d) as [|r t IH]; [done|]. unfold select in *. cbn.
      destruct (q r); cbn; [destruct (p r); cbn|]; by rewrite IH.
    + apply set_ext, update_ext. intros r Hr. assert (among (select q (rows_of d)) r = q r) as ->; [|done].
      unfold among. destruct (q r) eqn:Hq.
      * apply bool_decide_eq_true. apply list_elem_of_In, in_map, list_elem_of_In.
        by apply elem_of_select.
      * apply bool_decide_eq_false. intros Hk.
        apply list_elem_of_In, in_map_iff in Hk as (y & Hky & Hy). apply list_elem_of_In in Hy.
        apply elem_of_select in Hy as [Hy Hqy].
        by rewrite (key_inj _ _ _ Hd Hy Hr Hky), Hq in Hqy.
  - intros x d' [_ Hx]%elem_of_select. by apply Hbody.
  - by apply NoDup_map_select.
  - intros x [Hx _]%elem_of_select. done.
Qed.
End loop.

Lemma by_id_update {R} `{HasId R} (p : R → bool) f k t : (∀ r, row_id (f r) = row_id r) →
  by_id k (update p f t) = (λ r, if p r then f r else r) <$> by_id k t.
Proof. intros Hf. apply select_one_update. intros r. unfold has_id. by rewrite Hf. Qed.

(** Writing the row of an object that is in the table. *)
Lemma set_row_const {R} `{HasId R} f (x : R) t : keyed t → x ∈ t →
  set_row f (row_id x) t = update (same_key row_id x) (λ _, f x) t.
Proof.
  intros Ht Hx. apply update_ext. intros r Hr. unfold has_id, same_key.
  case_bool_decide as Hk; [|done]. f_equal. by apply (NoDup_map_eq row_id t).
Qed.

Create HintDb table.
#[export] Hint Resolve elem_of_select rowcount_nonneg keyed_set_row Forall_update : table.
