(* ===== verification/Session.v ===== *)
(** The request's unit of work: [src/backend/app/database/session.py].

    Every request handler runs with a session from [get_db_session]: it
    commits when the handler returns and rolls back when the handler raises.
    Redis, and the connections some code opens for itself, are outside of that
    transaction. *)

From S2P Require Import Prelude.

(** What a request can change: the transactional database and the rest. *)
Record world (D X : Type) := World { db : D; ext : X }.
Arguments World {D X} db ext.
Arguments db {D X} w.
Arguments ext {D X} w.

Section session.
Context {D X E : Type}.

(** A statement on the session; an access to a service outside of it. *)
Definition on_db {A} (m : M D E A) : M (world D X) E A :=
  zoom db (λ d w, World d (ext w)) m.
Definition on_ext {A} (m : M X E A) : M (world D X) E A :=
  zoom ext (λ x w, World (db w) x) m.

(** [get_db_session] around a handler: [commit] after a return, [rollback]
    and re-raise after an exception. *)
Definition get_db_session {A} (handler : M (world D X) E A) : M (world D X) E A :=
  λ w, match handler w with
       | (Ok a, w') => (Ok a, w')
       | (Raise e, w') => (Raise e, World (db w) (ext w'))
       end.

Lemma session_outcome {A} (h : M (world D X) E A) w :
  (get_db_session h w).1 = (h w).1.
Proof. unfold get_db_session. by destruct (h w) as [[]]. Qed.

Lemma session_rollback {A} (h : M (world D X) E A) w e :
  (h w).1 = Raise e → db (get_db_session h w).2 = db w.
Proof. unfold get_db_session. destruct (h w) as [[]]; simpl; by intros. Qed.

Lemma session_commit {A} (h : M (world D X) E A) w a :
  (h w).1 = Ok a → (get_db_session h w).2 = (h w).2.
Proof. unfold get_db_session. destruct (h w) as [[]]; simpl; by intros. Qed.

Lemma session_ext {A} (h : M (world D X) E A) w :
  ext (get_db_session h w).2 = ext (h w).2.
Proof. unfold get_db_session. by destruct (h w) as [[]]. Qed.

(** Statements, one after the other. *)
Lemma on_db_Ok {A} (m : M D E A) (w : world D X) a w' :
  on_db m w = (Ok a, w') ↔ ∃ d, m (db w) = (Ok a, d) ∧ w' = World d (ext w).
Proof.
  unfold on_db, zoom. destruct (m (db w)) as [o d]. split; [intros [= -> <-]; by exists d|by intros (d' & [= -> ->] & ->)].
Qed.
Lemma on_db_step {A B} (m : M D E A) (f : A → M (world D X) E B) w a d :
  m (db w) = (Ok a, d) → (on_db m ≫= f) w = f a (World d (ext w)).
Proof. unfold on_db, zoom, mbind, M_bind. by intros ->. Qed.
Lemma on_db_stop {A B} (m : M D E A) (f : A → M (world D X) E B) w e d :
  m (db w) = (Raise e, d) → (on_db m ≫= f) w = (Raise e, World d (ext w)).
Proof. unfold on_db, zoom, mbind, M_bind. by intros ->. Qed.
Lemma on_db_gets {A B} (g : D → A) (f : A → M (world D X) E B) w : (on_db (gets g) ≫= f) w = f (g (db w)) w.
Proof. by destruct w. Qed.
Lemma on_db_guard {B} b e (f : unit → M (world D X) E B) w :
  (on_db (raise_if b e) ≫= f) w = if b then (Raise e, w) else f tt w.
Proof. destruct w. by destruct b. Qed.

(** An invariant of the database that handlers keep on success is kept by
    every request, whatever they do before raising. *)
Lemma session_preserves (I : D → Prop) {A} (h : M (world D X) E A) :
  (∀ w a w', I (db w) → h w = (Ok a, w') → I (db w')) →
  preserves (λ w, I (db w)) (get_db_session h).
Proof.
  intros Hh w Hw. unfold get_db_session.
  destruct (h w) as [[a|e] w'] eqn:Hrun; simpl; eauto.
Qed.
End session.

#[export] Hint Resolve session_preserves : pres.

(** ** Histories

    Requests one after the other, each in a transaction of its own: what a
    handler wrote is committed when it returns and undone when it raises. *)
Section transactions.
Context {D E C : Type} (handler : C → M D E unit).

Definition transact (c : C) (d : D) : D :=
  db (get_db_session (X:=unit) (on_db (handler c)) (World d tt)).2.
Fixpoint transactions (cs : list C) (d : D) : D :=
  match cs with
  | [] => d
  | c :: cs => transactions cs (transact c d)
  end.

Lemma transact_cases c d :
  transact c d = d ∨ handler c d = (Ok tt, transact c d).
Proof.
  unfold transact, get_db_session, on_db, zoom. cbn.
  destruct (handler c d) as [[[]|e] d']; cbn; auto.
Qed.

(** A property every returning handler keeps is kept by histories. *)
Lemma transactions_induct (R : D → D → Prop) `{!PreOrder R} (P : C → Prop) cs d :
  (∀ c d d', P c → handler c d = (Ok tt, d') → R d d') → Forall P cs → R d (transactions cs d).
Proof.
  intros Hstep. revert d. induction cs as [|c cs IH]; intros d Hcs; [done|].
  apply Forall_cons in Hcs as [Hc Hcs]. cbn [transactions]. etrans; [|by apply IH].
  destruct (transact_cases c d) as [->|Hrun]; [done|by eapply Hstep].
Qed.

Lemma transactions_app cs1 cs2 d :
  transactions (cs1 ++ cs2) d = transactions cs2 (transactions cs1 d).
Proof. revert d. induction cs1 as [|c cs1 IH]; intros d; [done|]. cbn. by rewrite IH. Qed.
End transactions.

(** ** Handlers that commit on the way

    A handler may call [session.commit()] before it returns or raises
    ([AuthRepository.record_login_attempt] does, so that an attempt survives
    the exception that follows).  Such a handler runs on the session's pending
    state together with the last committed one. *)
Record txn (D : Type) := Txn { live : D; saved : D }.
Arguments Txn {D} live saved.
Arguments live {D} t.
Arguments saved {D} t.

Section committing.
Context {D X E : Type}.

Definition on_live {A} (m : M D E A) : M (world (txn D) X) E A :=
  on_db (zoom live (λ d t, Txn d (saved t)) m).
Definition commit : M (world (txn D) X) E unit :=
  on_db (modify (λ t, Txn (live t) (live t))).
(** [session.rollback()], as [GenericRepository._flush_or_raise] calls it. *)
Definition rollback : M (world (txn D) X) E unit :=
  on_db (modify (λ t, Txn (saved t) (saved t))).

(** [get_db_session] around such a handler. *)
Definition run_request {A} (h : M (world (txn D) X) E A) : M (world D X) E A := λ w,
  match h (World (Txn (db w) (db w)) (ext w)) with
  | (Ok a, w') => (Ok a, World (live (db w')) (ext w'))
  | (Raise e, w') => (Raise e, World (saved (db w')) (ext w'))
  end.

(** A property of the database that both the pending and the committed rows
    have. *)
Definition holds (I : D → Prop) (w : world (txn D) X) : Prop :=
  I (live (db w)) ∧ I (saved (db w)).

Lemma holds_on_live (I : D → Prop) {A} (m : M D E A) :
  preserves I m → preserves (holds I) (on_live m).
Proof.
  intros Hm w [Hl Hs]. specialize (Hm _ Hl). unfold on_live, on_db, zoom.
  destruct (m (live (db w))). by split.
Qed.
Lemma holds_on_ext (I : D → Prop) {A} (m : M X E A) : preserves (holds I) (on_ext m).
Proof. intros w Hw. unfold on_ext, zoom. by destruct (m (ext w)). Qed.
Lemma holds_commit (I : D → Prop) : preserves (holds I) commit.
Proof. intros w [Hl Hs]. by split. Qed.
Lemma holds_rollback (I : D → Prop) : preserves (holds I) rollback.
Proof. intros w [Hl Hs]. by split. Qed.

Lemma run_request_holds (I : D → Prop) {A} (h : M (world (txn D) X) E A) w :
  preserves (holds I) h → I (db w) → I (db (run_request h w).2).
Proof.
  intros Hh Hw. unfold run_request.
  pose proof (Hh (World (Txn (db w) (db w)) (ext w)) (conj Hw Hw)) as [Hl Hs].
  by destruct (h _) as [[a|e] w'].
Qed.
End committing.

#[export] Hint Resolve holds_on_live holds_on_ext holds_commit holds_rollback : pres.
