(* ===== verification/PyStr.v ===== *)
(** Python's [str] as the code uses it: a sequence of code points.

    [strip], [startswith], [in] and [translate] are defined as Python does.
    Case conversion of non-ASCII text is a table of the Unicode database; it
    is the [PyUnicode] interface, of which the library relies only on the
    ASCII part. *)

From S2P Require Import Prelude.
From stdpp Require Import pretty.
From Stdlib Require Ascii String.

Abbreviation pystr := (list N) (only parsing).

(** ASCII literals. *)
Fixpoint u (s : string) : pystr :=
  match s with
  | String.EmptyString => []
  | String.String c s' => Ascii.N_of_ascii c :: u s'
  end.

(** [str.isspace] of one code point, which is also [re]'s [\s]. *)
Definition is_space (c : N) : bool :=
  ((9 <=? c) && (c <=? 13) || (28 <=? c) && (c <=? 32) || (c =? 133) || (c =? 160)
   || (c =? 5760) || (8192 <=? c) && (c <=? 8202) || (c =? 8232) || (c =? 8233)
   || (c =? 8239) || (c =? 8287) || (c =? 12288))%N.

Fixpoint lstrip (s : pystr) : pystr :=
  match s with
  | [] => []
  | c :: s' => if is_space c then lstrip s' else s
  end.
Definition rstrip (s : pystr) : pystr := rev (lstrip (rev s)).
(** [s.strip()]. *)
Definition strip (s : pystr) : pystr := rstrip (lstrip s).

(** [s.startswith(p)]. *)
Fixpoint startswith (p s : pystr) : bool :=
  match p, s with
  | [], _ => true
  | _, [] => false
  | c :: p', d :: s' => (c =? d)%N && startswith p' s'
  end.

Definition contains (c : N) (s : pystr) : bool := existsb (N.eqb c) s.

Definition is_ascii (c : N) : bool := (c <? 128)%N.
Definition ascii_upper (c : N) : N :=
  if ((97 <=? c) && (c <=? 122))%N then (c - 32)%N else c.
Definition ascii_lower (c : N) : N :=
  if ((65 <=? c) && (c <=? 90))%N then (c + 32)%N else c.
Definition ascii_digit (c : N) : bool := ((48 <=? c) && (c <=? 57))%N.

(** The Unicode database: [str.upper], [str.lower], [str.casefold] and the
    decimal digits [re]'s [\d] accepts. *)
Class PyUnicode := {
  upper : pystr → pystr;
  lower : pystr → pystr;
  casefold : pystr → pystr;
  is_decimal : N → bool;
  upper_ascii : ∀ s, forallb is_ascii s = true → upper s = map ascii_upper s;
  lower_ascii : ∀ s, forallb is_ascii s = true → lower s = map ascii_lower s;
  casefold_ascii : ∀ s, forallb is_ascii s = true → casefold s = map ascii_lower s;
  is_decimal_ascii : ∀ c, is_ascii c = true → is_decimal c = ascii_digit c;
}.

(** The smallest instance: only ASCII letters have case. *)
Program Definition ascii_only : PyUnicode := {|
  upper := map ascii_upper; lower := map ascii_lower; casefold := map ascii_lower;
  is_decimal := ascii_digit |}.
Solve Obligations with done.

(** ** Facts about [strip] *)
Lemma lstrip_suffix s : ∃ p, s = p ++ lstrip s ∧ forallb is_space p = true.
Proof.
  induction s as [|c s [p [IH Hp]]]; [by exists []|]. simpl.
  destruct (is_space c) eqn:E; [|by exists []].
  exists (c :: p). split; [simpl; congruence|]. simpl. by rewrite E.
Qed.

Lemma lstrip_head s c s' : lstrip s = c :: s' → is_space c = false.
Proof.
  induction s as [|d s IH]; [done|]. simpl.
  destruct (is_space d) eqn:E; [done|]. intros [= -> ->]. done.
Qed.

Lemma lstrip_fix s : (∀ c s', s = c :: s' → is_space c = false) → lstrip s = s.
Proof. destruct s as [|c s]; [done|]. intros H. simpl. by rewrite (H c s). Qed.

Lemma lstrip_idemp s : lstrip (lstrip s) = lstrip s.
Proof. apply lstrip_fix. intros c s'. apply lstrip_head. Qed.

Lemma rstrip_prefix s : ∃ q, s = rstrip s ++ q.
Proof.
  unfold rstrip. destruct (lstrip_suffix (rev s)) as [p [Hp _]].
  exists (rev p). rewrite <- rev_app_distr, <- Hp. by rewrite rev_involutive.
Qed.

Lemma rstrip_idemp s : rstrip (rstrip s) = rstrip s.
Proof. unfold rstrip. by rewrite rev_involutive, lstrip_idemp. Qed.

Lemma lstrip_rstrip s : lstrip s = s → lstrip (rstrip s) = rstrip s.
Proof.
  intros Hs. apply lstrip_fix. intros c s' Hc.
  destruct (rstrip_prefix s) as [q Hq]. rewrite Hc in Hq. simpl in Hq.
  eapply lstrip_head. rewrite Hs. exact Hq.
Qed.

Lemma strip_idemp s : strip (strip s) = strip s.
Proof.
  unfold strip. rewrite (lstrip_rstrip (lstrip s)) by apply lstrip_idemp.
  apply rstrip_idemp.
Qed.

(** The last code point of a stripped string is not a space, so [re]'s [$]
    anchor sees the real end of the string. *)
Lemma strip_last s c s' : strip s = s' ++ [c] → is_space c = false.
Proof.
  unfold strip, rstrip. intros H.
  assert (lstrip (rev (lstrip s)) = c :: rev s') as H'.
  { apply (f_equal (@rev N)) in H. rewrite rev_involutive, rev_app_distr in H. done. }
  by apply lstrip_head in H'.
Qed.

Lemma startswith_spec p s : startswith p s = true ↔ ∃ q, s = p ++ q.
Proof.
  revert s. induction p as [|c p IH]; intros [|d s]; simpl.
  - split; [by exists []|done].
  - split; [by exists (d :: s)|done].
  - split; [done|]. intros [q ?]; done.
  - rewrite andb_true_iff, N.eqb_eq, IH. split.
    + intros [-> [q ->]]. by exists q.
    + intros [q [= -> ->]]. eauto.
Qed.

Lemma contains_elem c s : contains c s = true ↔ c ∈ s.
Proof.
  unfold contains. rewrite existsb_exists, list_elem_of_In. split.
  - intros (d & Hd & ->%N.eqb_eq). done.
  - intros H. exists c. by rewrite N.eqb_refl.
Qed.

(** ** [str(uuid.UUID)]: the hexadecimal digits of the 128-bit integer,
    grouped 8-4-4-4-12. *)
Definition hex_char (d : N) : N := if (d <? 10)%N then (48 + d)%N else (87 + d)%N.
Definition hex_digit (k : uuid) (i : nat) : N :=
  hex_char ((Npos k / 16 ^ N.of_nat i) mod 16)%N.
Definition hex_group (k : uuid) (hi len : nat) : pystr :=
  map (λ j, hex_digit k (hi - j)%nat) (seq 0 len).
Definition uuid_str (k : uuid) : pystr :=
  hex_group k 31 8 ++ [45%N] ++ hex_group k 23 4 ++ [45%N] ++ hex_group k 19 4
    ++ [45%N] ++ hex_group k 15 4 ++ [45%N] ++ hex_group k 11 12.

Lemma uuid_str_length k : length (uuid_str k) = 36%nat.
Proof. done. Qed.

Lemma hex_char_range d :
  (d < 16)%N → (48 ≤ hex_char d ≤ 57)%N ∨ (97 ≤ hex_char d ≤ 102)%N.
Proof. intros ?. unfold hex_char. destruct (N.ltb_spec d 10); lia. Qed.

Lemma contains_app c s t : contains c (s ++ t) = contains c s || contains c t.
Proof. unfold contains. apply existsb_app. Qed.

(** The separators of Redis keys and paths do not occur in a rendered UUID. *)
Definition separator (c : N) : Prop :=
  c ≠ 45%N ∧ ¬ (48 ≤ c ≤ 57)%N ∧ ¬ (97 ≤ c ≤ 102)%N.

Lemma hex_group_lacks c k hi len : separator c → contains c (hex_group k hi len) = false.
Proof.
  intros (_ & H1 & H2). unfold contains, hex_group. apply not_true_is_false.
  rewrite existsb_exists. intros (x & Hx & ->%N.eqb_eq).
  apply in_map_iff in Hx as (j & <- & _).
  destruct (hex_char_range ((Npos k / 16 ^ N.of_nat (hi - j)) mod 16)) as [?|?]; [|tauto..].
  by apply N.mod_lt.
Qed.

Lemma uuid_str_lacks c k : separator c → contains c (uuid_str k) = false.
Proof.
  intros Hc. unfold uuid_str. rewrite !contains_app, !hex_group_lacks by done.
  destruct Hc as [Hc _]. unfold contains. simpl.
  by rewrite (proj2 (N.eqb_neq c 45)).
Qed.

(** [uuid.UUID(str)]: all the development needs of the parser is that it
    reads back what [str] wrote.  [None] stands for its [ValueError]. *)
Definition is_uuid (k : uuid) : Prop := (Npos k < 2 ^ 128)%N.
Class PyUuid := {
  parse_uuid : pystr → option uuid;
  parse_uuid_str : ∀ k, is_uuid k → parse_uuid (uuid_str k) = Some k;
}.

Definition hex_value (c : N) : option N :=
  if ((48 <=? c) && (c <=? 57))%N then Some (c - 48)%N
  else if ((97 <=? c) && (c <=? 102))%N then Some (c - 87)%N
  else None.
Fixpoint hex_number (acc : N) (s : pystr) : option N :=
  match s with
  | [] => Some acc
  | c :: s => d ← hex_value c; hex_number (16 * acc + d)%N s
  end.

(** The smallest instance: the canonical rendering is accepted, nothing else. *)
Definition read_canonical (s : pystr) : option uuid :=
  match hex_number 0 (List.filter (λ c, negb (c =? 45)%N) s) with
  | Some (Npos k) => if bool_decide (uuid_str k = s) then Some k else None
  | _ => None
  end.

Lemma hex_value_char d : (d < 16)%N → hex_value (hex_char d) = Some d.
Proof.
  intros Hd. unfold hex_value, hex_char. destruct (N.ltb_spec d 10).
  - rewrite (proj2 (N.leb_le 48 (48 + d))), (proj2 (N.leb_le (48 + d) 57)) by lia.
    simpl. f_equal. lia.
  - rewrite (proj2 (N.leb_gt (87 + d) 57)), andb_false_r by lia.
    rewrite (proj2 (N.leb_le 97 (87 + d))), (proj2 (N.leb_le (87 + d) 102)) by lia.
    simpl. f_equal. lia.
Qed.

(** Reading the digits from position [hi] down to [hi - len + 1]. *)
Lemma hex_number_group k hi len rest :
  (len ≤ S hi)%nat →
  hex_number (Npos k / 16 ^ N.of_nat (S hi)) (hex_group k hi len ++ rest) =
  hex_number (Npos k / 16 ^ N.of_nat (S hi - len)) rest.
Proof.
  revert hi. induction len as [|len IH]; intros hi Hlen; [by rewrite Nat.sub_0_r|].
  unfold hex_group. rewrite <- cons_seq. simpl map. rewrite Nat.sub_0_r.
  cbn [hex_number map app]. unfold hex_digit. rewrite hex_value_char by by apply N.mod_lt.
  cbn [mbind option_bind].
  replace (16 * (Npos k / 16 ^ N.of_nat (S hi)) + (Npos k / 16 ^ N.of_nat hi) mod 16)%N
    with (Npos k / 16 ^ N.of_nat hi)%N.
  2:{ rewrite Nat2N.inj_succ, N.pow_succ_r', (N.mul_comm 16 (16 ^ _)), <- N.Div0.div_div.
      apply N.div_mod'. }
  destruct hi as [|hi]; [assert (len = 0%nat) as -> by lia; done|].
  rewrite <- seq_shift, map_map. replace (S (S hi) - S len)%nat with (S hi - len)%nat by lia.
  by rewrite <- IH by lia.
Qed.

Lemma filter_hex_group k hi len rest :
  List.filter (λ c, negb (c =? 45)%N) (hex_group k hi len ++ rest) =
  hex_group k hi len ++ List.filter (λ c, negb (c =? 45)%N) rest.
Proof.
  rewrite List.filter_app. f_equal. unfold hex_group.
  induction (seq 0 len) as [|j l IH]; [done|]. simpl. rewrite IH.
  destruct (hex_char_range ((Npos k / 16 ^ N.of_nat (hi - j)) mod 16)) as [?|?];
    [by apply N.mod_lt|unfold hex_digit; rewrite (proj2 (N.eqb_neq _ 45)) by lia; done..].
Qed.

Lemma filter_hex_dash k hi len rest :
  List.filter (λ c, negb (c =? 45)%N) (hex_group k hi len ++ [45%N] ++ rest) =
  hex_group k hi len ++ List.filter (λ c, negb (c =? 45)%N) rest.
Proof. by rewrite filter_hex_group. Qed.

Lemma hex_number_next k hi len n m rest :
  n = S hi → (m + len)%nat = n →
  hex_number (Npos k / 16 ^ N.of_nat n) (hex_group k hi len ++ rest) =
  hex_number (Npos k / 16 ^ N.of_nat m) rest.
Proof.
  intros -> Hm. rewrite hex_number_group by lia. by replace (S hi - len)%nat with m by lia.
Qed.

Lemma hex_number_uuid k :
  is_uuid k →
  hex_number 0 (List.filter (λ c, negb (c =? 45)%N) (uuid_str k)) = Some (Npos k).
Proof.
  intros Hk. unfold uuid_str. rewrite !filter_hex_dash.
  rewrite <- (app_nil_r (hex_group k 11 12)), filter_hex_group.
  rewrite <- (N.div_small _ _ Hk).
  change (2 ^ 128)%N with (16 ^ N.of_nat 32)%N.
  rewrite (hex_number_next k 31 8 32 24), (hex_number_next k 23 4 24 20),
    (hex_number_next k 19 4 20 16), (hex_number_next k 15 4 16 12),
    (hex_number_next k 11 12 12 0) by reflexivity.
  cbn [List.filter hex_number]. f_equal. apply N.div_1_r.
Qed.

Lemma read_canonical_str k : is_uuid k → read_canonical (uuid_str k) = Some k.
Proof.
  intros Hk. unfold read_canonical. rewrite hex_number_uuid by done.
  by rewrite bool_decide_true.
Qed.

Definition canonical_uuid : PyUuid :=
  {| parse_uuid := read_canonical; parse_uuid_str := read_canonical_str |}.

(** [str(n)] of a natural number. *)
Definition nat_str (n : nat) : pystr := u (pretty (N.of_nat n)).

Lemma u_inj s t : u s = u t → s = t.
Proof.
  revert t. induction s as [|a s IH]; intros [|b t]; simpl; try done.
  intros [= Hab Hst]. f_equal; [|by apply IH].
  by rewrite <- (Ascii.ascii_N_embedding a), Hab, Ascii.ascii_N_embedding.
Qed.
#[export] Instance nat_str_inj : Inj (=) (=) nat_str.
Proof.
  intros n m H. apply u_inj in H. apply (inj pretty) in H. by apply Nat2N.inj in H.
Qed.

(** Literals and prefix tests stay folded under [simpl]. *)
#[global] Arguments u : simpl never.
#[global] Arguments startswith : simpl never.
#[global] Arguments uuid_str : simpl never.
#[global] Arguments nat_str : simpl never.
#[global] Arguments strip : simpl never.
