(* ===== verification/Redis.v ===== *)
(** The Redis counters the rate limiters rely on.

    Redis is a service outside of the repository: it is the interface [Redis]
    below, with the documented behaviour of [INCR], [EXPIRE] and [TTL] as the
    laws [RedisLaws].  A finite-map implementation shows the laws are
    satisfiable.  The fixed-window limiter that
    [src/backend/app/domains/otp/service.py],
    [src/backend/app/domains/voucher/service.py] and
    [src/backend/app/middleware/rate_limit.py] share is defined and analysed
    here once. *)

From S2P Require Import Prelude PyStr.

(** [r_entry now k r] is what a client can observe of key [k] at time [now]:
    its counter and the instant it expires at, if it has one. *)
Class Redis (R : Type) := {
  r_incr : datetime → pystr → R → R * Z;
  r_expire : datetime → pystr → Z → R → R;
  r_ttl : datetime → pystr → R → Z;
  r_entry : datetime → pystr → R → option (Z * option datetime);
}.
#[global] Hint Mode Redis ! : typeclass_instances.

Definition r_count `{Redis R} (now : datetime) (k : pystr) (r : R) : Z :=
  match r_entry now k r with Some (n, _) => n | None => 0 end.
Definition r_deadline `{Redis R} (now : datetime) (k : pystr) (r : R) : option datetime :=
  match r_entry now k r with Some (_, d) => d | None => None end.

Class RedisLaws (R : Type) `{Redis R} := {
  incr_result now k (r : R) : (r_incr now k r).2 = r_count now k r + 1;
  incr_entry now k (r : R) :
    r_entry now k (r_incr now k r).1 = Some (r_count now k r + 1, r_deadline now k r);
  incr_other now k k' (r : R) : k ≠ k' →
    r_entry now k' (r_incr now k r).1 = r_entry now k' r;
  expire_entry now k s (r : R) n d : 0 < s → r_entry now k r = Some (n, d) →
    r_entry now k (r_expire now k s r) = Some (n, Some (now + seconds s));
  expire_other now k k' s (r : R) : k ≠ k' →
    r_entry now k' (r_expire now k s r) = r_entry now k' r;
  entry_later now now' k (r : R) : now ≤ now' →
    r_entry now' k r =
      match r_entry now k r with
      | Some (n, Some d) => if now' <? d then Some (n, Some d) else None
      | o => o
      end;
  entry_live now k (r : R) n d : r_entry now k r = Some (n, Some d) → now < d;
  ttl_live now k (r : R) n d : r_entry now k r = Some (n, Some d) →
    0 ≤ r_ttl now k r ∧ (r_ttl now k r - 1) * 1000000 < d - now;
  ttl_persistent now k (r : R) n : r_entry now k r = Some (n, None) → r_ttl now k r = -1;
  ttl_missing now k (r : R) : r_entry now k r = None → r_ttl now k r = -2;
}.

(** ** A finite-map implementation of the interface *)
Module MapRedis.
Abbreviation store := (gmap (list N) (Z * option Z)).

Definition live (now : datetime) (e : Z * option datetime) : bool :=
  match e.2 with Some d => now <? d | None => true end.
Definition entry (now : datetime) (k : pystr) (r : store) : option (Z * option datetime) :=
  match r !! k with
  | Some e => if live now e then Some e else None
  | None => None
  end.
Definition incr (now : datetime) (k : pystr) (r : store) : store * Z :=
  match entry now k r with
  | Some (n, d) => (<[k := (n + 1, d)]> r, n + 1)
  | None => (<[k := (1, None)]> r, 1)
  end.
Definition expire (now : datetime) (k : pystr) (s : Z) (r : store) : store :=
  match entry now k r with
  | Some (n, _) => <[k := (n, Some (now + seconds s))]> r
  | None => r
  end.
(** [TTL] rounds the remaining time to the nearest second. *)
Definition ttl (now : datetime) (k : pystr) (r : store) : Z :=
  match entry now k r with
  | Some (_, Some d) => (d - now + 500000) / 1000000
  | Some (_, None) => -1
  | None => -2
  end.
End MapRedis.

#[export] Instance map_redis : Redis MapRedis.store := {|
  r_incr := MapRedis.incr; r_expire := MapRedis.expire;
  r_ttl := MapRedis.ttl; r_entry := MapRedis.entry |}.

#[export] Instance map_redis_laws : RedisLaws MapRedis.store.
Proof.
  split; intros *; unfold r_count, r_deadline; cbn [r_incr r_expire r_ttl r_entry map_redis];
    unfold MapRedis.incr, MapRedis.expire, MapRedis.ttl.
  - by destruct (MapRedis.entry now k r) as [[]|].
  - destruct (MapRedis.entry now k r) as [[n d]|] eqn:E; simpl;
      unfold MapRedis.entry in *; rewrite lookup_insert_eq; [|done].
    unfold MapRedis.live in *. simpl. repeat case_match; simplify_eq/=; congruence.
  - intros Hk. destruct (MapRedis.entry now k r) as [[n d]|]; simpl;
      unfold MapRedis.entry; by rewrite lookup_insert_ne.
  - intros Hs ->. unfold MapRedis.entry. rewrite lookup_insert_eq.
    unfold MapRedis.live, seconds; simpl. rewrite (proj2 (Z.ltb_lt _ _)); [done|lia].
  - intros Hk. destruct (MapRedis.entry now k r) as [[n d']|]; [|done].
    unfold MapRedis.entry. by rewrite lookup_insert_ne.
  - intros Hle. unfold MapRedis.entry.
    destruct (r !! k) as [[n [d|]]|] eqn:E; [|done..]. unfold MapRedis.live; simpl.
    destruct (now <? d) eqn:E1, (now' <? d) eqn:E2; simpl; rewrite ?E2; try done.
    bools; lia.
  - unfold MapRedis.entry, MapRedis.live. intros H. repeat case_match; simplify_eq/=.
    by bools.
  - intros H. assert (now < d) as Hlt.
    { unfold MapRedis.entry, MapRedis.live in H. repeat case_match; simplify_eq/=. by bools. }
    rewrite H.
    pose proof (Z.div_mod (d - now + 500000) 1000000 ltac:(lia)).
    pose proof (Z.mod_pos_bound (d - now + 500000) 1000000 ltac:(lia)). lia.
  - by intros ->.
  - by intros ->.
Qed.

(** ** Deleting a counter, and keys that hold strings

    [DEL] on the counters above; and [GET], [SET ... EX] and [DEL] on keys
    whose values are strings, which the code keeps under other prefixes. *)
Class RedisDelete (R : Type) `{Redis R} := {
  r_delete : datetime → pystr → R → R;
  delete_entry now k (r : R) : r_entry now k (r_delete now k r) = None;
  delete_other now k k' (r : R) : k ≠ k' →
    r_entry now k' (r_delete now k r) = r_entry now k' r;
}.

Class RedisStrings (T : Type) := {
  s_get : datetime → pystr → T → option pystr;
  s_set : datetime → pystr → pystr → Z → T → T;
  s_delete : datetime → pystr → T → T;
  get_set now now' k v ex t : 0 < ex → now ≤ now' →
    s_get now' k (s_set now k v ex t) = if now' <? now + seconds ex then Some v else None;
  get_set_other now now' k k' v ex t : k ≠ k' →
    s_get now' k' (s_set now k v ex t) = s_get now' k' t;
  get_delete now now' k t : now ≤ now' → s_get now' k (s_delete now k t) = None;
  get_delete_other now now' k k' t : k ≠ k' →
    s_get now' k' (s_delete now k t) = s_get now' k' t;
  get_earlier now now' k t v : now ≤ now' → s_get now' k t = Some v → s_get now k t = Some v;
}.
#[global] Hint Mode RedisStrings ! : typeclass_instances.

Module MapStrings.
Abbreviation store := (gmap (list N) (list N * Z)).

Definition get (now : datetime) (k : pystr) (t : store) : option pystr :=
  match t !! k with
  | Some (v, d) => if now <? d then Some v else None
  | None => None
  end.
Definition set (now : datetime) (k v : pystr) (ex : Z) (t : store) : store :=
  <[k := (v, now + seconds ex)]> t.
End MapStrings.

#[export] Instance map_redis_delete : RedisDelete MapRedis.store.
Proof.
  refine {| r_delete := λ _ k r, delete k r |}; cbn [r_entry map_redis];
    unfold MapRedis.entry.
  - intros now k r. by rewrite (lookup_delete_eq r k).
  - intros now k k' r Hk. by rewrite (lookup_delete_ne r k k').
Defined.

#[export] Instance map_strings : RedisStrings MapStrings.store.
Proof.
  refine {| s_get := MapStrings.get; s_set := MapStrings.set;
            s_delete := λ _ k t, delete k t |}; unfold MapStrings.get, MapStrings.set.
  - intros now now' k v ex t _ _. by rewrite lookup_insert_eq.
  - intros now now' k k' v ex t Hk. by rewrite lookup_insert_ne.
  - intros now now' k t _. by rewrite (lookup_delete_eq t k).
  - intros now now' k k' t Hk. by rewrite (lookup_delete_ne t k k').
  - intros now now' k t v Hle. destruct (t !! k) as [[x d]|]; [|done].
    destruct (Z.ltb_spec now' d); [|done]. by rewrite (proj2 (Z.ltb_lt now d)) by lia.
Defined.

(** ** A connection: a store, and which of the coming calls fail *)
Record conn (R : Type) := Conn { store : R; faults : list bool }.
Arguments Conn {R} store faults.
Arguments store {R} c.
Arguments faults {R} c.

Section calls.
Context {R E : Type} `{Redis R}.

(** One awaited Redis command.  The environment decides which commands fail
    (connection lost, timeout); a failed command has no effect and raises. *)
Definition redis_call {A} (fault : E) (f : R → R * A) : M (conn R) E A := λ c,
  match faults c with
  | true :: fs => (Raise fault, Conn (store c) fs)
  | fs => let '(r, a) := f (store c) in (Ok a, Conn r (tail fs))
  end.

Definition redis_incr (fault : E) now k : M (conn R) E Z := redis_call fault (r_incr now k).
Definition redis_expire (fault : E) now k s : M (conn R) E unit :=
  redis_call fault (λ r, (r_expire now k s r, tt)).
Definition redis_ttl (fault : E) now k : M (conn R) E Z :=
  redis_call fault (λ r, (r, r_ttl now k r)).

(** [ttl if ttl and ttl > 0 else window]. *)
Definition retry_hint (ttl window : Z) : Z := if 0 <? ttl then ttl else window.

(** [INCR; if current == 1: EXPIRE; if current > max: raise(retry_after)]:
    the body of [OtpRateLimiter.check_and_increment]. *)
Definition fixed_window (fault : E) (limited : Z → E) (now : datetime)
    (key : pystr) (max_requests window_seconds : Z) : M (conn R) E unit :=
  current ← redis_incr fault now key;
  _ ← (if current =? 1 then redis_expire fault now key window_seconds else mret tt);
  if max_requests <? current then
    ttl ← redis_ttl fault now key;
    raise (limited (retry_hint ttl window_seconds))
  else mret tt.
End calls.

(** ** Analysis of the window, in terms of the laws alone *)
Section window.
Context {R E : Type} `{RedisLaws R}.
Implicit Types (r : R) (now : datetime) (k : pystr).

(** One [INCR], and the [EXPIRE] that starts a window. *)
Definition bump now k (window : Z) r : R :=
  let r1 := (r_incr now k r).1 in
  if r_count now k r =? 0 then r_expire now k window r1 else r1.

Lemma bump_entry now k w r :
  0 < w → r_entry now k r = None ∨ 0 < r_count now k r →
  r_entry now k (bump now k w r) =
    Some (r_count now k r + 1,
          if r_count now k r =? 0 then Some (now + seconds w) else r_deadline now k r).
Proof.
  intros Hw Hor. unfold bump. destruct (r_count now k r =? 0) eqn:E0.
  - erewrite expire_entry; [done|done|]. by rewrite incr_entry.
  - by rewrite incr_entry.
Qed.

Lemma bump_other now k k' w r : k ≠ k' → r_entry now k' (bump now k w r) = r_entry now k' r.
Proof.
  intros Hk. unfold bump. case_match; rewrite ?expire_other by done; by apply incr_other.
Qed.

Lemma fixed_window_run (fault : E) limited now k mx w r :
  fixed_window fault limited now k mx w (Conn r []) =
    (if mx <? r_count now k r + 1
     then Raise (limited (retry_hint (r_ttl now k (bump now k w r)) w)) else Ok tt,
     Conn (bump now k w r) []).
Proof.
  unfold fixed_window, redis_incr, redis_expire, redis_ttl, redis_call, bump.
  mstep. simpl. pose proof (incr_result now k r) as Hres.
  destruct (r_incr now k r) as [r1 cur]. simpl in *. subst cur.
  replace (r_count now k r + 1 =? 1) with (r_count now k r =? 0)
    by (destruct (Z.eqb_spec (r_count now k r) 0);
        destruct (Z.eqb_spec (r_count now k r + 1) 1); lia).
  destruct (r_count now k r =? 0); simpl; by destruct (mx <? r_count now k r + 1).
Qed.

(** The key is in a window that closes at [d], with [n] calls counted. *)
Definition in_window now k n d r : Prop := r_entry now k r = Some (n, Some d).

Lemma in_window_later now now' k n d r :
  in_window now k n d r → now ≤ now' < d → in_window now' k n d r.
Proof.
  unfold in_window. intros He [Hle Hlt]. rewrite (entry_later now) by done.
  rewrite He. by rewrite (proj2 (Z.ltb_lt _ _)).
Qed.

Lemma in_window_bump now k n d w r :
  0 < w → 0 < n → in_window now k n d r → in_window now k (n + 1) d (bump now k w r).
Proof.
  unfold in_window. intros Hw Hn He. assert (r_count now k r = n) as Hc.
  { unfold r_count. by rewrite He. }
  rewrite bump_entry by (auto; right; lia). rewrite Hc.
  rewrite (proj2 (Z.eqb_neq n 0)) by lia. unfold r_deadline. by rewrite He.
Qed.

Lemma fresh_bump now k w r :
  0 < w → r_entry now k r = None →
  in_window now k 1 (now + seconds w) (bump now k w r).
Proof.
  unfold in_window. intros Hw He. assert (r_count now k r = 0) as Hc.
  { unfold r_count. by rewrite He. }
  rewrite bump_entry by auto. by rewrite Hc.
Qed.

(** A key with no deadline never expires. *)
Lemma persistent_later now now' k n r :
  r_entry now k r = Some (n, None) → now ≤ now' → r_entry now' k r = Some (n, None).
Proof. intros He Hle. rewrite (entry_later now) by done. by rewrite He. Qed.

Lemma persistent_bump now k n w r :
  0 < w → 0 < n → r_entry now k r = Some (n, None) →
  r_entry now k (bump now k w r) = Some (n + 1, None).
Proof.
  intros Hw Hn He. assert (r_count now k r = n) as Hc.
  { unfold r_count. by rewrite He. }
  rewrite bump_entry by (auto; right; lia). rewrite Hc.
  rewrite (proj2 (Z.eqb_neq n 0)) by lia. unfold r_deadline. by rewrite He.
Qed.

(** ** Runs of the limiter *)
Variables (fault : E) (limited : Z → E) (k : pystr) (mx w : Z).

(** The calls at the given instants, and which of them were let through. *)
Fixpoint run_window (ts : list datetime) (c : conn R) : list bool * conn R :=
  match ts with
  | [] => ([], c)
  | t :: ts' =>
      let '(o, c1) := fixed_window fault limited t k mx w c in
      let '(os, c2) := run_window ts' c1 in (is_ok o :: os, c2)
  end.

(** [n], [n+1], ... compared with the cap. *)
Definition verdicts (n : Z) (len : nat) : list bool :=
  map (λ i, n + Z.of_nat i <=? mx) (seq 0 len).

Lemma verdicts_cons n len :
  verdicts n (S len) = (n <=? mx) :: verdicts (n + 1) len.
Proof.
  unfold verdicts. simpl. rewrite Z.add_0_r. f_equal.
  rewrite <- seq_shift, map_map. apply map_ext. intros i. f_equal. lia.
Qed.

Inductive nondecreasing (lo hi : datetime) : list datetime → Prop :=
| nd_nil : nondecreasing lo hi []
| nd_cons t ts : lo ≤ t < hi → nondecreasing t hi ts → nondecreasing lo hi (t :: ts).

Lemma run_in_window ts now n d r :
  0 < w → 0 < n → in_window now k n d r → nondecreasing now d ts →
  (run_window ts (Conn r [])).1 = verdicts (n + 1) (length ts).
Proof.
  intros Hw. revert now n r. induction ts as [|t ts IH]; intros now n r Hn Hin Hnd; [done|].
  inversion Hnd as [|? ? Ht Hnd']; subst.
  pose proof (in_window_later _ t _ _ _ _ Hin Ht) as Hin'.
  simpl run_window. rewrite fixed_window_run.
  assert (r_count t k r = n) as ->. { unfold r_count. by rewrite Hin'. }
  pose proof (IH t (n + 1) _ ltac:(lia) (in_window_bump _ _ _ _ w _ Hw Hn Hin') Hnd') as IHr.
  destruct (run_window ts _) as [os c2]. simpl in *. subst os.
  rewrite verdicts_cons. f_equal.
  destruct (Z.ltb_spec mx (n + 1)), (Z.leb_spec (n + 1) mx); done || lia.
Qed.

Lemma run_persistent ts now n r hi :
  0 < w → 0 < n → r_entry now k r = Some (n, None) → nondecreasing now hi ts →
  (run_window ts (Conn r [])).1 = verdicts (n + 1) (length ts).
Proof.
  intros Hw. revert now n r. induction ts as [|t ts IH]; intros now n r Hn Hin Hnd; [done|].
  inversion Hnd as [|? ? Ht Hnd']; subst.
  pose proof (persistent_later _ t _ _ _ Hin ltac:(lia)) as Hin'.
  simpl run_window. rewrite fixed_window_run.
  assert (r_count t k r = n) as ->. { unfold r_count. by rewrite Hin'. }
  pose proof (IH t (n + 1) _ ltac:(lia) (persistent_bump _ _ _ w _ Hw Hn Hin') Hnd') as IHr.
  destruct (run_window ts _) as [os c2]. simpl in *. subst os.
  rewrite verdicts_cons. f_equal.
  destruct (Z.ltb_spec mx (n + 1)), (Z.leb_spec (n + 1) mx); done || lia.
Qed.
End window.
