(* ===== verification/RateLimit.v ===== *)
(** The global rate-limit middleware:
    [src/backend/app/middleware/rate_limit.py].

    Module [Middleware] has one definition per function of the file, over the
    [Redis] interface and a connection whose commands may fail.  The theorems
    are about what a stream of requests can obtain from it. *)

From S2P Require Import Prelude PyStr Redis.

Module Middleware.

(** The parts of a Starlette [Request] the middleware reads. *)
Record request := Request {
  path : pystr;
  client_host : option pystr;
  param_location_id : option pystr;
  param_organization_id : option pystr;
}.

(** What [dispatch] does with the request. *)
Inductive response :=
| CallNext
| TooManyRequests (retry_after : Z).

Inductive error := RedisUnavailable.

Definition RATE_LIMITED_PATH_PREFIXES : list pystr := map u
  [ "/api/v1/auth/login"; "/api/v1/auth/register"; "/api/v1/auth/forgot-password";
    "/api/v1/auth/reset-password"; "/api/v1/auth/resend-verification";
    "/api/v1/auth/verify-email"; "/api/v1/otp/request"; "/api/v1/otp/verify";
    "/api/v1/vouchers/validate"; "/api/v1/vouchers/redeem";
    "/api/v1/captive-portal/resolve"; "/api/v1/guest/"; "/api/v1/demo-requests";
    "/api/v1/demo-bookings"; "/api/v1/network-integrations/portal/authorize" ]%string.

Definition CAPTIVE_PORTAL_RESOLVE_PATH : pystr := u "/api/v1/captive-portal/resolve".
Definition RESOLVE_IP_CEILING_MULTIPLIER : Z := 4.

Section middleware.
Context {R : Type} `{Redis R}.
(** [uuid.UUID(raw)], [None] where it raises [ValueError]. *)
Variable parse_uuid : pystr → option uuid.
(** The constructor's arguments. *)
Variables (max_requests window_seconds : Z) (resolve_max : option Z).

(** [resolve_max_requests or max_requests]. *)
Definition resolve_max_requests : Z :=
  match resolve_max with
  | Some n => if n =? 0 then max_requests else n
  | None => max_requests
  end.

(** One turn of [_venue_scope]'s loop: a missing, empty or unparseable
    parameter is skipped. *)
Definition scope_of (prefix : pystr) (raw : option pystr) : option pystr :=
  match raw with
  | None | Some [] => None
  | Some raw => (λ k, prefix ++ u ":" ++ uuid_str k) <$> parse_uuid raw
  end.

Definition venue_scope (r : request) : option pystr :=
  match scope_of (u "loc") (param_location_id r) with
  | Some s => Some s
  | None => scope_of (u "org") (param_organization_id r)
  end.

Definition client_ip (r : request) : pystr :=
  match client_host r with Some h => h | None => u "unknown" end.

Definition rate_limit_key (ip path : pystr) : pystr :=
  u "rate_limit:" ++ ip ++ u ":" ++ path.
Definition resolve_venue_key (scope : pystr) : pystr :=
  u "rate_limit:portal_resolve:venue:" ++ scope.
Definition resolve_ip_key (ip : pystr) : pystr :=
  u "rate_limit:portal_resolve:ip:" ++ ip.

(** [_resolve_buckets]: the venue bucket, when there is one, goes first. *)
Definition resolve_buckets (r : request) : list (pystr * Z) :=
  let buckets := [(resolve_ip_key (client_ip r),
                   resolve_max_requests * RESOLVE_IP_CEILING_MULTIPLIER)] in
  match venue_scope r with
  | Some scope => (resolve_venue_key scope, resolve_max_requests) :: buckets
  | None => buckets
  end.

Definition buckets_for (r : request) : list (pystr * Z) :=
  if startswith CAPTIVE_PORTAL_RESOLVE_PATH (path r) then resolve_buckets r
  else [(rate_limit_key (client_ip r) (path r), max_requests)].

(** [_first_exceeded]: every bucket is incremented, the first one over its
    cap is returned. *)
Fixpoint first_exceeded_loop (now : datetime) (exceeded : option pystr)
    (buckets : list (pystr * Z)) : M (conn R) error (option pystr) :=
  match buckets with
  | [] => mret exceeded
  | (key, cap) :: rest =>
      current ← redis_incr RedisUnavailable now key;
      _ ← (if current =? 1
           then redis_expire RedisUnavailable now key window_seconds else mret tt);
      let exceeded :=
        if (cap <? current) && bool_decide (exceeded = None) then Some key else exceeded in
      first_exceeded_loop now exceeded rest
  end.
Definition first_exceeded now (buckets : list (pystr * Z)) : M (conn R) error (option pystr) :=
  first_exceeded_loop now None buckets.

(** [_retry_after]: a failing [TTL] only loses the hint. *)
Definition retry_after now (key : pystr) : M (conn R) error Z := λ c,
  match redis_ttl RedisUnavailable now key c with
  | (Raise _, c') => (Ok window_seconds, c')
  | (Ok ttl, c') => (Ok (retry_hint ttl window_seconds), c')
  end.

Definition limited_path (r : request) : bool :=
  existsb (λ p, startswith p (path r)) RATE_LIMITED_PATH_PREFIXES.

(** [dispatch]: a failure of the limiter itself fails open. *)
Definition dispatch (now : datetime) (r : request) : M (conn R) error response := λ c,
  if negb (limited_path r) then (Ok CallNext, c)
  else match first_exceeded now (buckets_for r) c with
       | (Raise _, c') => (Ok CallNext, c')
       | (Ok None, c') => (Ok CallNext, c')
       | (Ok (Some key), c') =>
           (hint ← retry_after now key; mret (TooManyRequests hint)) c'
       end.

Definition admitted (o : outcome error response) : bool :=
  match o with Ok CallNext => true | _ => false end.

(** A stream of requests, each with its arrival time. *)
Fixpoint serve (reqs : list (datetime * request)) (c : conn R) : list bool * conn R :=
  match reqs with
  | [] => ([], c)
  | (t, r) :: reqs' =>
      let '(o, c1) := dispatch t r c in
      let '(os, c2) := serve reqs' c1 in (admitted o :: os, c2)
  end.

(** *** The loop without failures *)
Fixpoint bump_all (now : datetime) (buckets : list (pystr * Z)) (r : R) : R :=
  match buckets with
  | [] => r
  | (key, _) :: rest => bump_all now rest (bump now key window_seconds r)
  end.

Fixpoint first_over (now : datetime) (buckets : list (pystr * Z)) (r : R) : option pystr :=
  match buckets with
  | [] => None
  | (key, cap) :: rest =>
      if cap <? r_count now key r + 1 then Some key
      else first_over now rest (bump now key window_seconds r)
  end.

Context `{!RedisLaws R}.

Lemma first_exceeded_loop_run now ex buckets r :
  first_exceeded_loop now ex buckets (Conn r []) =
    (Ok (match ex with Some k => Some k | None => first_over now buckets r end),
     Conn (bump_all now buckets r) []).
Proof.
  revert ex r. induction buckets as [|[key cap] rest IH]; intros ex r.
  { by destruct ex. }
  simpl. unfold redis_incr, redis_expire, redis_call, bump. mstep. simpl.
  pose proof (incr_result now key r) as Hres.
  destruct (r_incr now key r) as [r1 cur] eqn:Hincr. simpl in *. subst cur.
  replace (r_count now key r + 1 =? 1) with (r_count now key r =? 0)
    by (destruct (Z.eqb_spec (r_count now key r) 0);
        destruct (Z.eqb_spec (r_count now key r + 1) 1); lia).
  destruct (r_count now key r =? 0); simpl; rewrite IH; do 2 f_equal;
    destruct ex; simpl; rewrite ?andb_false_r, ?andb_true_r;
    by destruct (cap <? r_count now key r + 1).
Qed.

Lemma first_exceeded_run now buckets r :
  first_exceeded now buckets (Conn r []) =
    (Ok (first_over now buckets r), Conn (bump_all now buckets r) []).
Proof. apply first_exceeded_loop_run. Qed.

Lemma dispatch_run now q r :
  limited_path q = true →
  (dispatch now q (Conn r [])).2 = Conn (bump_all now (buckets_for q) r) [] ∧
  admitted (dispatch now q (Conn r [])).1 =
    bool_decide (first_over now (buckets_for q) r = None).
Proof.
  intros Hl. unfold dispatch. rewrite Hl. simpl. rewrite first_exceeded_run.
  destruct (first_over now (buckets_for q) r) as [key|] eqn:E; [|by simpl].
  by unfold retry_after, redis_ttl, redis_call, mbind, M_bind.
Qed.
(** *** One key among the buckets of a request *)
Lemma bump_all_other now k buckets r :
  Forall (λ b, b.1 ≠ k) buckets → r_entry now k (bump_all now buckets r) = r_entry now k r.
Proof.
  revert r. induction buckets as [|[key cap] rest IH]; intros r Hall; [done|].
  inversion Hall; subst; simpl in *. rewrite IH by done. by apply bump_other.
Qed.

Lemma first_over_None_last now bs k cap r :
  Forall (λ b, b.1 ≠ k) bs → first_over now (bs ++ [(k, cap)]) r = None →
  r_count now k r + 1 ≤ cap.
Proof.
  revert r. induction bs as [|[key cap'] rest IH]; intros r Hall; simpl.
  - destruct (Z.ltb_spec cap (r_count now k r + 1)); [done|lia].
  - inversion Hall; subst; simpl in *. case_match; [done|]. intros Hf.
    apply IH in Hf; [|done]. unfold r_count in *. by rewrite bump_other in Hf.
Qed.

Lemma bump_all_app now bs bs' r : bump_all now (bs ++ bs') r = bump_all now bs' (bump_all now bs r).
Proof. revert r. induction bs as [|[k c] bs IH]; intros r; simpl; auto. Qed.

Lemma venue_key_ne_ip_key scope ip : resolve_venue_key scope ≠ resolve_ip_key ip.
Proof. intros Heq. vm_compute in Heq. discriminate Heq. Qed.

Definition on_resolve (ip : pystr) (q : request) : Prop :=
  client_ip q = ip ∧ startswith CAPTIVE_PORTAL_RESOLVE_PATH (path q) = true.

Lemma on_resolve_limited ip q : on_resolve ip q → limited_path q = true.
Proof.
  intros [_ Hp]. unfold limited_path. apply existsb_exists.
  exists CAPTIVE_PORTAL_RESOLVE_PATH. split; [|done]. simpl; tauto.
Qed.

(** The buckets of a resolve call: venue buckets, then the caller's IP. *)
Lemma on_resolve_buckets ip q : on_resolve ip q → ∃ bs,
  buckets_for q = bs ++ [(resolve_ip_key ip, resolve_max_requests * RESOLVE_IP_CEILING_MULTIPLIER)]
  ∧ Forall (λ b, b.1 ≠ resolve_ip_key ip) bs.
Proof.
  intros [<- Hp]. unfold buckets_for, resolve_buckets. rewrite Hp.
  destruct (venue_scope q) as [sc|].
  - eexists [_]. split; [done|]. apply Forall_singleton, venue_key_ne_ip_key.
  - by exists [].
Qed.

Definition count_true (l : list bool) : Z := Z.of_nat (length (List.filter id l)).

Hypothesis window_pos : 0 < window_seconds.

Lemma serve_resolve_bounded ip now d reqs n r :
  0 < n → in_window now (resolve_ip_key ip) n d r →
  Forall (λ q, on_resolve ip q.2) reqs → nondecreasing now d (map fst reqs) →
  count_true (serve reqs (Conn r [])).1
    ≤ Z.max 0 (resolve_max_requests * RESOLVE_IP_CEILING_MULTIPLIER - n).
Proof.
  revert now n r. induction reqs as [|[t q] reqs IH]; intros now n r Hn Hin Hall Hnd.
  { unfold count_true. simpl. lia. }
  inversion Hall as [|? ? Hq Hall']; inversion Hnd as [|? ? Ht Hnd']; subst. simpl in Hq.
  pose proof (in_window_later _ t _ _ _ _ Hin Ht) as Hin'.
  destruct (on_resolve_buckets _ _ Hq) as (bs & Hb & Hbs).
  destruct (dispatch_run t q r (on_resolve_limited _ _ Hq)) as [Hc Ha].
  simpl serve. destruct (dispatch t q (Conn r [])) as [o c1]. simpl in Hc, Ha. subst c1.
  rewrite Hb, bump_all_app in *. simpl bump_all.
  set (r' := bump_all t bs r) in *.
  assert (in_window t (resolve_ip_key ip) n d r') as Hin2.
  { unfold in_window, r'. by rewrite bump_all_other. }
  specialize (IH t (n + 1) _ ltac:(lia) (in_window_bump _ _ _ _ window_seconds _ window_pos Hn Hin2) Hall' Hnd').
  destruct (serve reqs _) as [os c2]. unfold count_true in *. simpl in *.
  rewrite Ha. case_bool_decide as Hov; simpl; [|lia].
  apply first_over_None_last in Hov; [|done].
  assert (r_count t (resolve_ip_key ip) r = n) as Hcnt by (unfold r_count; by rewrite Hin').
  lia.
Qed.

(** A client behind one IP that calls [/captive-portal/resolve] as often
    as it likes, naming a different venue every time, is let through at most
    four times the venue cap in one window: rotating the client-controlled
    venue id does not escape the per-IP bucket. *)
Theorem resolve_rotation_bounded ip t q reqs r :
  r_entry t (resolve_ip_key ip) r = None →
  Forall (λ q, on_resolve ip q.2) ((t, q) :: reqs) →
  nondecreasing t (t + seconds window_seconds) (map fst reqs) →
  0 < resolve_max_requests →
  count_true (serve ((t, q) :: reqs) (Conn r [])).1
    ≤ resolve_max_requests * RESOLVE_IP_CEILING_MULTIPLIER.
Proof.
  intros Hnone Hall Hnd Hpos. inversion Hall as [|? ? Hq Hall']; subst. simpl in Hq.
  destruct (on_resolve_buckets _ _ Hq) as (bs & Hb & Hbs).
  destruct (dispatch_run t q r (on_resolve_limited _ _ Hq)) as [Hc _].
  simpl serve. destruct (dispatch t q (Conn r [])) as [o c1]. simpl in Hc. subst c1.
  rewrite Hb, bump_all_app. simpl bump_all.
  assert (in_window t (resolve_ip_key ip) 1 (t + seconds window_seconds)
            (bump t (resolve_ip_key ip) window_seconds (bump_all t bs r))) as Hin.
  { apply fresh_bump; [done|]. by rewrite bump_all_other. }
  pose proof (serve_resolve_bounded ip t _ reqs 1 _ ltac:(lia) Hin Hall' Hnd) as IH.
  destruct (serve reqs _) as [os c2]. unfold count_true, RESOLVE_IP_CEILING_MULTIPLIER in *. simpl in *.
  destruct (admitted o); simpl in *; lia.
Qed.

(** *** Keys of different kinds never meet *)
Lemma venue_scope_no_slash q sc : venue_scope q = Some sc → contains 47 sc = false.
Proof.
  assert (∀ k, contains 47 (uuid_str k) = false) as Hu.
  { intros k. apply uuid_str_lacks. unfold separator. lia. }
  assert (∀ p raw sc', contains 47 p = false → scope_of p raw = Some sc' →
            contains 47 sc' = false) as Hs.
  { intros p raw sc' Hp. unfold scope_of. destruct raw as [[|c raw]|]; [done| |done].
    destruct (parse_uuid (c :: raw)) as [k|]; [|done]. intros Heq; apply Some_inj in Heq as <-.
    rewrite contains_app, Hp, contains_app, Hu. done. }
  unfold venue_scope. destruct (scope_of (u "loc") _) eqn:E.
  - intros [= <-]. by eapply Hs, E.
  - intros E'. by eapply Hs, E'.
Qed.

(** *** A key that lost its EXPIRE *)
Lemma serve_persistent now n q hi reqs r :
  0 < n → r_entry now (rate_limit_key (client_ip q) (path q)) r = Some (n, None) →
  limited_path q = true → startswith CAPTIVE_PORTAL_RESOLVE_PATH (path q) = false →
  Forall (λ x, x.2 = q) reqs → nondecreasing now hi (map fst reqs) →
  (serve reqs (Conn r [])).1 =
    map (λ i, n + 1 + Z.of_nat i <=? max_requests) (seq 0 (length reqs)).
Proof.
  intros Hn Hin Hl Hs Hall. revert now n r Hn Hin.
  induction reqs as [|[t q'] reqs IH]; intros now n r Hn Hin Hnd; [done|].
  apply Forall_cons in Hall as [Hq Hall']. simpl in Hq. subst q'.
  inversion Hnd as [|? ? Ht Hnd']; subst. simpl in *.
  pose proof (persistent_later _ t _ _ _ Hin ltac:(lia)) as Hin'.
  destruct (dispatch_run t q r Hl) as [Hc Ha].
  unfold buckets_for in Hc, Ha. rewrite Hs in Hc, Ha. simpl in Hc, Ha. simpl serve.
  destruct (dispatch t q (Conn r [])) as [o c1]. simpl in Hc, Ha. subst c1.
  specialize (IH Hall' t (n + 1) _ ltac:(lia) (persistent_bump _ _ _ window_seconds _ window_pos Hn Hin') Hnd').
  destruct (serve reqs _) as [os c2]. simpl in *. subst os.
  assert (r_count t (rate_limit_key (client_ip q) (path q)) r = n) as Hcnt
    by (unfold r_count; by rewrite Hin').
  rewrite Hcnt in Ha. f_equal.
  - rewrite Ha, Z.add_0_r. destruct (Z.ltb_spec max_requests (n + 1)), (Z.leb_spec (n + 1) max_requests);
      simpl; done || lia.
  - rewrite <- seq_shift, map_map. apply map_ext. intros i. f_equal. lia.
Qed.
(** *** The middleware's guarantees *)
Lemma bump_all_count now bs key cap r :
  (key, cap) ∈ bs → NoDup (map fst bs) →
  (∀ k, r_entry now k r = None ∨ 0 < r_count now k r) →
  r_count now key (bump_all now bs r) = r_count now key r + 1.
Proof.
  revert r. induction bs as [|[k c] bs IH]; intros r Hin Hnd Hr;
    [by apply not_elem_of_nil in Hin|].
  simpl in *. apply NoDup_cons in Hnd as [Hk Hnd].
  pose proof (bump_entry now k window_seconds r window_pos (Hr k)) as He.
  apply elem_of_cons in Hin as [Heq|Hin].
  - injection Heq as -> ->. unfold r_count at 1. rewrite bump_all_other, He; [done|].
    apply Forall_forall. intros b Hb <-. destruct Hk.
    apply list_elem_of_In, in_map, list_elem_of_In, Hb.
  - assert (k ≠ key) as Hne.
    { intros ->. destruct Hk. apply list_elem_of_In, in_map_iff. exists (key, cap).
      split; [done|]. by apply list_elem_of_In. }
    rewrite IH; [unfold r_count; by rewrite bump_other|done|done|].
    intros k'. destruct (decide (k = k')) as [<-|Hk'].
    + right. unfold r_count. rewrite He. fold (r_count now k r).
      destruct (Hr k) as [E|?]; [unfold r_count; rewrite E|]; lia.
    + unfold r_count. rewrite bump_other by done. apply Hr.
Qed.

Lemma buckets_NoDup q : NoDup (map fst (buckets_for q)).
Proof.
  unfold buckets_for, resolve_buckets. case_match; [|apply NoDup_singleton].
  destruct (venue_scope q); [|apply NoDup_singleton].
  simpl. apply NoDup_cons. split; [|apply NoDup_singleton].
  rewrite list_elem_of_singleton. apply venue_key_ne_ip_key.
Qed.

(** a request counts against every one of its buckets, whether or not
    it is let through and whichever bucket rejects it. *)
Theorem every_bucket_counted now q key cap r :
  limited_path q = true → (key, cap) ∈ buckets_for q →
  (∀ k, r_entry now k r = None ∨ 0 < r_count now k r) →
  r_count now key (store (dispatch now q (Conn r [])).2) = r_count now key r + 1.
Proof.
  intros Hl Hin Hr. destruct (dispatch_run now q r Hl) as [-> _].
  by eapply bump_all_count, Hr; [|apply buckets_NoDup].
Qed.

(** the limiter never turns its own failure into a refusal.  Whatever
    commands fail, [dispatch] does not raise; it refuses a request only when
    every increment succeeded and a bucket was over its cap; and if an
    increment or an [EXPIRE] fails, the request goes through. *)
Theorem dispatch_fails_open now q (c : conn R) :
  match (dispatch now q c).1 with
  | Ok CallNext => True
  | Ok (TooManyRequests _) =>
      limited_path q = true ∧ ∃ key, (first_exceeded now (buckets_for q) c).1 = Ok (Some key)
  | Raise _ => False
  end ∧
  (is_ok (first_exceeded now (buckets_for q) c).1 = false → (dispatch now q c).1 = Ok CallNext).
Proof.
  unfold dispatch. destruct (limited_path q) eqn:El; simpl; [|done].
  destruct (first_exceeded now (buckets_for q) c) as [[[key|]|e] c'] eqn:Ef; simpl; [|done..].
  split; [|done]. unfold retry_after, mbind, M_bind.
  destruct (redis_ttl _ _ _ _) as [[ttl|e] c'']; simpl; eauto.
Qed.

(** whatever a client puts in the query string, the venue bucket it
    names is neither some client's resolve bucket nor the per-path bucket of
    any client, so it cannot be used to forge or to burn another limit. *)
Theorem venue_bucket_is_separate q sc ip p :
  venue_scope q = Some sc → startswith (u "/") p = true →
  resolve_venue_key sc ≠ resolve_ip_key ip ∧
  resolve_venue_key sc ≠ rate_limit_key ip p.
Proof.
  intros Hsc Hp. split; [apply venue_key_ne_ip_key|]. intros Heq.
  apply venue_scope_no_slash in Hsc.
  assert (contains 47 (resolve_venue_key sc) = false) as H1
    by (unfold resolve_venue_key; by rewrite contains_app, Hsc).
  rewrite Heq in H1. apply startswith_spec in Hp as [p' ->].
  unfold rate_limit_key in H1. rewrite !contains_app, !orb_false_iff in H1.
  destruct H1 as (_ & _ & _ & H1 & _). by vm_compute in H1.
Qed.

(** [INCR] and [EXPIRE] are two commands.  If the [EXPIRE] that should
    start a window is lost, that request is let through, but the key never
    expires again: of all later requests of that client to that path, at
    whatever times, only [max_requests - 1] are ever let through. *)
Theorem lost_expire_locks_out t q reqs hi r :
  limited_path q = true → startswith CAPTIVE_PORTAL_RESOLVE_PATH (path q) = false →
  r_entry t (rate_limit_key (client_ip q) (path q)) r = None →
  Forall (λ x, x.2 = q) reqs → nondecreasing t hi (map fst reqs) →
  ∃ r', dispatch t q (Conn r [false; true]) = (Ok CallNext, Conn r' []) ∧
    (serve reqs (Conn r' [])).1 =
      map (λ i, 2 + Z.of_nat i <=? max_requests) (seq 0 (length reqs)).
Proof.
  intros Hl Hs Hnone Hall Hnd.
  set (k := rate_limit_key (client_ip q) (path q)) in *.
  exists (r_incr t k r).1.
  assert (r_count t k r = 0) as Hc by (unfold r_count; by rewrite Hnone).
  split.
  - unfold dispatch, buckets_for. rewrite Hl, Hs.
    unfold first_exceeded. simpl. fold k. mstep.
    unfold redis_incr, redis_expire, redis_call. simpl. pose proof (incr_result t k r) as Hres.
    destruct (r_incr t k r) as [r1 cur]. simpl in *. rewrite Hc in Hres. by subst cur.
  - apply (serve_persistent t 1 q hi); try done. fold k.
    rewrite incr_entry, Hc. unfold r_deadline. by rewrite Hnone.
Qed.
End middleware.

(** ** The hypotheses hold at concrete inputs *)
Module examples.
(** Reads a parameter's first code point as an id. *)
Definition parse (raw : pystr) : option uuid :=
  match raw with c :: _ => Some (N.succ_pos c) | [] => None end.
Definition resolve (loc : string) : request :=
  Request CAPTIVE_PORTAL_RESOLVE_PATH (Some (u "203.0.113.7")) (Some (u loc)) None.
Definition login : request :=
  Request (u "/api/v1/auth/login") (Some (u "203.0.113.7")) None None.
Definition empty : conn MapRedis.store := Conn ∅ [].
Definition rotating : list (datetime * request) :=
  [(1, resolve "b"); (2, resolve "c"); (3, resolve "d"); (4, resolve "e"); (5, resolve "f")].

(** Six calls, six venues, venue cap 1: four get through. *)
Lemma resolve_rotation_bounded_witness :
  count_true (serve parse 60 60 (Some 1) ((0, resolve "a") :: rotating) empty).1 = 4 ∧
  count_true (serve parse 60 60 (Some 1) ((0, resolve "a") :: rotating) empty).1 ≤ 4.
Proof.
  split; [vm_compute; reflexivity|].
  apply (resolve_rotation_bounded parse 60 60 (Some 1) eq_refl (u "203.0.113.7") 0
           (resolve "a") rotating ∅).
  - vm_compute; reflexivity.
  - repeat (apply Forall_cons; split; [split; vm_compute; reflexivity|]).
    apply Forall_nil. exact I.
  - repeat (apply nd_cons; [split; vm_compute; congruence|]). apply nd_nil.
  - vm_compute; reflexivity.
Defined.

Lemma every_bucket_counted_witness :
  (resolve_venue_key (u "loc:" ++ uuid_str 98), 1) ∈ buckets_for parse 60 (Some 1) (resolve "a") ∧
  r_count 7 (resolve_venue_key (u "loc:" ++ uuid_str 98))
    (store (dispatch parse 60 60 (Some 1) 7 (resolve "a") empty).2) =
  r_count (R:=MapRedis.store) 7 (resolve_venue_key (u "loc:" ++ uuid_str 98)) ∅ + 1.
Proof.
  assert ((resolve_venue_key (u "loc:" ++ uuid_str 98), 1) ∈
            buckets_for parse 60 (Some 1) (resolve "a")) as Hin.
  { vm_compute. left. }
  split; [exact Hin|].
  apply (every_bucket_counted parse 60 60 (Some 1) eq_refl 7 (resolve "a") _ 1 ∅).
  - vm_compute; reflexivity.
  - exact Hin.
  - intros k. left. reflexivity.
Defined.

Lemma venue_bucket_is_separate_witness :
  resolve_venue_key (u "loc:" ++ uuid_str 98) ≠ resolve_ip_key (u "203.0.113.7") ∧
  resolve_venue_key (u "loc:" ++ uuid_str 98)
    ≠ rate_limit_key (u "203.0.113.7") (u "/api/v1/auth/login").
Proof.
  apply (venue_bucket_is_separate parse (resolve "a")); vm_compute; reflexivity.
Defined.

(** Cap 2, one lost EXPIRE: one year later the client is still refused. *)
Lemma lost_expire_locks_out_witness :
  ∃ r' : MapRedis.store,
    dispatch parse 2 60 None 0 login (Conn ∅ [false; true]) = (Ok CallNext, Conn r' []) ∧
    (serve parse 2 60 None [(1, login); (2, login); (seconds 31536000, login)]
       (Conn r' [])).1 = [true; false; false].
Proof.
  apply (lost_expire_locks_out parse 2 60 None eq_refl 0 login
           [(1, login); (2, login); (seconds 31536000, login)] (seconds 31536001) ∅).
  - vm_compute; reflexivity.
  - vm_compute; reflexivity.
  - vm_compute; reflexivity.
  - repeat (apply Forall_cons; split; [reflexivity|]). apply Forall_nil. exact I.
  - repeat (apply nd_cons; [split; vm_compute; congruence|]). apply nd_nil.
Defined.
End examples.
End Middleware.
