(* ===== verification/Otp.v ===== *)
(** One-time passwords: [src/backend/app/domains/otp/service.py] with its
    [validators.py], [models.py] and [repository.py].

    Module [Otp] holds the [OtpRequest] row, the service's two operations
    [request_otp] and [verify_otp] over the database and Redis, and the HTTP
    handlers around them, which run inside [get_db_session]. *)

From stdpp Require Import pretty.
From S2P Require Import Prelude Table Session PyStr Redis.

Module Otp.

Inductive OtpChannel := SMS | EMAIL | WHATSAPP.
Inductive OtpPurpose := GUEST_LOGIN | ACCOUNT_DATA_MASKING.
#[export] Instance channel_eq_dec : EqDecision OtpChannel.
Proof. solve_decision. Defined.
#[export] Instance purpose_eq_dec : EqDecision OtpPurpose.
Proof. solve_decision. Defined.

(** [OTP_PROVIDER_ACCEPTED], [..._REJECTED], [..._NOT_ATTEMPTED]. *)
Inductive provider_outcome := Accepted | Rejected | NotAttempted.

Inductive failure_reason :=
| not_found | already_consumed | attempts_exceeded | expired | code_mismatch.
#[export] Instance reason_eq_dec : EqDecision failure_reason.
Proof. solve_decision. Defined.

(** [_AUDITED_FAILURE_REASONS]. *)
Definition audited_reason (r : failure_reason) : bool :=
  match r with code_mismatch | attempts_exceeded => true | _ => false end.

Inductive error :=
| InvalidOtpIdentifierError
| OtpRequestRateLimitExceededError (retry_after : Z)
| OtpNotFoundError
| OtpAlreadyConsumedError
| OtpAttemptsExceededError
| OtpExpiredError
| OtpCodeMismatchError (attempts_remaining : Z)
| RedisUnavailable
| ProviderError.

(** The persisted row.  [digest] is the type of [code_hash]. *)
Record OtpRequest (digest : Type) := mk_request {
  id : uuid;
  identifier : pystr;
  channel : OtpChannel;
  purpose : OtpPurpose;
  code_hash : digest;
  created_at : datetime;
  expires_at : datetime;
  verified_at : option datetime;
  attempt_count : Z;
  max_attempts : Z;
  is_consumed : bool;
  organization_id : option uuid;
  location_id : option uuid;
  outcome_of_send : option provider_outcome;
  is_deleted : bool;
}.
Arguments mk_request {digest}.
Arguments id {digest}. Arguments identifier {digest}. Arguments channel {digest}.
Arguments purpose {digest}. Arguments code_hash {digest}. Arguments created_at {digest}.
Arguments expires_at {digest}. Arguments verified_at {digest}.
Arguments attempt_count {digest}. Arguments max_attempts {digest}.
Arguments is_consumed {digest}. Arguments organization_id {digest}.
Arguments location_id {digest}. Arguments outcome_of_send {digest}.
Arguments is_deleted {digest}.

#[export] Instance request_has_id {digest} : HasId (OtpRequest digest) := id.

(** The rows [RBACRepository.create_audit_log_entry] receives from here. *)
Inductive audit_entry :=
| OTP_VERIFIED (entity_id : uuid) (p : OtpPurpose)
| OTP_VERIFICATION_FAILED (entity_id : option uuid) (p : OtpPurpose) (r : failure_reason).

Record database (digest : Type) := Database {
  otp_requests : list (OtpRequest digest);
  audit_log : list audit_entry;
}.
Arguments Database {digest}.
Arguments otp_requests {digest}.
Arguments audit_log {digest}.

(** ** [validators.py] *)
Section validators.
Context `{PyUnicode}.

Definition normalize_otp_identifier (s : pystr) : pystr :=
  let stripped := strip s in
  if contains 64 stripped then lower stripped else stripped.

(** [$] also matches before one trailing newline. *)
Definition before_dollar (s : pystr) : list pystr :=
  match rev s with
  | 10%N :: s' => [s; rev s']
  | _ => [s]
  end.

(** [\d{7,14}] up to the end of the string. *)
Definition digits_7_14 (s : pystr) : bool :=
  forallb is_decimal s && (7 <=? length s)%nat && (length s <=? 14)%nat.
(** [^\+?[1-9]\d{7,14}$]. *)
Definition phone_body (s : pystr) : bool :=
  match s with
  | c :: s' => ((49 <=? c) && (c <=? 57))%N && digits_7_14 s'
  | [] => false
  end.
Definition phone_re (s : pystr) : bool :=
  existsb (λ s, phone_body s || match s with 43%N :: s' => phone_body s' | _ => false end)
    (before_dollar s).

(** [^[^@\s]+@[^@\s]+\.[^@\s]+$]: one [@], no white space, and a dot inside
    the domain. *)
Definition local_char (c : N) : bool := negb (c =? 64)%N && negb (is_space c).
Fixpoint split_at (s : pystr) : option (pystr * pystr) :=
  match s with
  | [] => None
  | c :: s' => if (c =? 64)%N then Some ([], s')
               else (λ p, (c :: p.1, p.2)) <$> split_at s'
  end.
Fixpoint inner_dot (s : pystr) : bool :=
  match s with
  | 46%N :: _ :: _ => true
  | _ :: s' => inner_dot s'
  | [] => false
  end.
Definition email_body (s : pystr) : bool :=
  match split_at s with
  | Some (l, d) =>
      negb (bool_decide (l = [])) && forallb local_char l && forallb local_char d
        && inner_dot (tail d)
  | None => false
  end.
Definition email_re (s : pystr) : bool := existsb email_body (before_dollar s).

Definition validate_identifier (s : pystr) (ch : OtpChannel) : bool :=
  match ch with
  | SMS | WHATSAPP => phone_re s
  | EMAIL => email_re s
  end.
End validators.

(** ** [models.py] *)
Definition is_expired {digest} (r : OtpRequest digest) (now : datetime) : bool :=
  expires_at r <? now.
Definition is_locked_out {digest} (r : OtpRequest digest) : bool :=
  max_attempts r <=? attempt_count r.

(** ** [repository.py] *)
Section repository.
Context {digest : Type}.
Implicit Types (t : list (OtpRequest digest)).

(** The rows a query for one identifier and purpose sees. *)
Definition for_identifier (i : pystr) (p : OtpPurpose) (r : OtpRequest digest) : bool :=
  bool_decide (identifier r = i) && bool_decide (purpose r = p) && negb (is_deleted r).

(** [ORDER BY created_at DESC LIMIT 1]. *)
Definition later (r1 r2 : OtpRequest digest) : OtpRequest digest :=
  if created_at r1 <=? created_at r2 then r2 else r1.
Definition newest (rs : list (OtpRequest digest)) : option (OtpRequest digest) :=
  match rs with [] => None | r :: rs' => Some (fold_left later rs' r) end.
Definition get_latest_for_identifier (i : pystr) (p : OtpPurpose) t : option (OtpRequest digest) :=
  newest (select (for_identifier i p) t).

(** [update_otp_request(otp_request, {...})]. *)
Definition set_attempts (n : Z) (r : OtpRequest digest) : OtpRequest digest :=
  mk_request (id r) (identifier r) (channel r) (purpose r) (code_hash r) (created_at r)
    (expires_at r) (verified_at r) n (max_attempts r) (is_consumed r)
    (organization_id r) (location_id r) (outcome_of_send r) (is_deleted r).
Definition set_verified (now : datetime) (r : OtpRequest digest) : OtpRequest digest :=
  mk_request (id r) (identifier r) (channel r) (purpose r) (code_hash r) (created_at r)
    (expires_at r) (Some now) (attempt_count r) (max_attempts r) true
    (organization_id r) (location_id r) (outcome_of_send r) (is_deleted r).
Definition set_outcome (o : provider_outcome) (r : OtpRequest digest) : OtpRequest digest :=
  mk_request (id r) (identifier r) (channel r) (purpose r) (code_hash r) (created_at r)
    (expires_at r) (verified_at r) (attempt_count r) (max_attempts r) (is_consumed r)
    (organization_id r) (location_id r) (Some o) (is_deleted r).

(** *** What the latest row is *)
Lemma fold_later_spec rs r0 :
  let r := fold_left later rs r0 in
  (r = r0 ∨ r ∈ rs) ∧ created_at r0 ≤ created_at r ∧ ∀ r', r' ∈ rs → created_at r' ≤ created_at r.
Proof.
  revert r0. induction rs as [|r1 rs IH]; intros r0; simpl.
  { split; [by left|]. split; [lia|]. intros r' Hin. by apply not_elem_of_nil in Hin. }
  destruct (IH (later r0 r1)) as (Hin & Hge & Hall).
  assert (created_at r0 ≤ created_at (later r0 r1) ∧ created_at r1 ≤ created_at (later r0 r1)
          ∧ (later r0 r1 = r0 ∨ later r0 r1 = r1)) as (H0 & H1 & Hor).
  { unfold later. destruct (Z.leb_spec (created_at r0) (created_at r1)); auto with lia. }
  split; [|split; [lia|]].
  - destruct Hin as [->|?]; [|right; by right].
    destruct Hor as [->| ->]; [by left|right; by left].
  - intros r' [->|Hr']%elem_of_cons; [lia|]. by apply Hall.
Qed.

Lemma latest_Some i p t r :
  get_latest_for_identifier i p t = Some r →
  r ∈ t ∧ for_identifier i p r = true ∧
  ∀ r', r' ∈ t → for_identifier i p r' = true → created_at r' ≤ created_at r.
Proof.
  unfold get_latest_for_identifier, newest.
  destruct (select _ t) as [|r0 rs] eqn:E; [done|]. intros Heq; apply Some_inj in Heq as <-.
  destruct (fold_later_spec rs r0) as (Hin & Hge & Hall).
  assert (fold_left later rs r0 ∈ select (for_identifier i p) t) as Hsel.
  { rewrite E. destruct Hin as [->|?]; [by left|by right]. }
  apply elem_of_select in Hsel as [Ht Hp]. split; [done|]. split; [done|].
  intros r' Hr' Hp'. assert (r' ∈ r0 :: rs) as [->|?]%elem_of_cons; [|done|by apply Hall].
  rewrite <- E. by apply elem_of_select.
Qed.

(** A write that keeps the columns the query looks at moves no row. *)
Definition keeps_key (f : OtpRequest digest → OtpRequest digest) : Prop :=
  ∀ r, identifier (f r) = identifier r ∧ purpose (f r) = purpose r ∧
       is_deleted (f r) = is_deleted r ∧ created_at (f r) = created_at r.

Lemma newest_map g rs :
  (∀ r, created_at (g r) = created_at r) → newest (map g rs) = g <$> newest rs.
Proof.
  intros Hg. destruct rs as [|r0 rs]; [done|]. unfold newest. simpl. f_equal.
  revert r0. induction rs as [|r1 rs IH]; intros r0; [done|]. simpl. rewrite <- IH.
  f_equal. unfold later. rewrite !Hg. by case_match.
Qed.

Lemma latest_set_row f k i p t :
  keeps_key f →
  get_latest_for_identifier i p (set_row f k t) =
    (λ r, if has_id k r then f r else r) <$> get_latest_for_identifier i p t.
Proof.
  intros Hf. unfold get_latest_for_identifier, set_row, update.
  rewrite <- newest_map.
  - f_equal. unfold select. induction t as [|r t IH]; [done|]. simpl.
    assert (for_identifier i p (if has_id k r then f r else r) = for_identifier i p r) as ->.
    { destruct (has_id k r); [|done]. unfold for_identifier.
      by destruct (Hf r) as (-> & -> & -> & _). }
    destruct (for_identifier i p r); simpl; by rewrite IH.
  - intros r. destruct (has_id k r); [|done]. apply Hf.
Qed.

(** A row newer than all of its kind is the latest one. *)
Lemma latest_insert i p t r :
  for_identifier i p r = true →
  (∀ r', r' ∈ t → for_identifier i p r' = true → created_at r' ≤ created_at r) →
  get_latest_for_identifier i p (insert_row r t) = Some r.
Proof.
  intros Hp Hall. unfold get_latest_for_identifier, insert_row. rewrite select_app.
  unfold select at 2. simpl. rewrite Hp.
  destruct (select (for_identifier i p) t) as [|r0 rs] eqn:E; [done|]. simpl. f_equal.
  rewrite fold_left_app. simpl. unfold later at 1.
  assert (fold_left later rs r0 ∈ select (for_identifier i p) t) as [Hin Hp']%elem_of_select.
  { rewrite E. destruct (fold_later_spec rs r0) as ([->|?] & _); [by left|by right]. }
  specialize (Hall _ Hin Hp'). by rewrite (proj2 (Z.leb_le _ _)).
Qed.

Lemma keeps_key_attempts n : keeps_key (set_attempts n).
Proof. done. Qed.
Lemma keeps_key_verified now : keeps_key (set_verified now).
Proof. done. Qed.
Lemma keeps_key_outcome o : keeps_key (set_outcome o).
Proof. done. Qed.
End repository.

Create HintDb otp.
#[export] Hint Resolve keeps_key_attempts keeps_key_verified keeps_key_outcome : otp.

(** ** [service.py] *)

(** [str.replace]: leftmost, non-overlapping occurrences. *)
Fixpoint replace_fuel (fuel : nat) (old new s : pystr) : pystr :=
  match fuel with
  | O => s
  | S fuel' =>
      match s with
      | [] => []
      | c :: s' =>
          if startswith old s then new ++ replace_fuel fuel' old new (drop (length old) s)
          else c :: replace_fuel fuel' old new s'
      end
  end.
Definition replace (old new s : pystr) : pystr := replace_fuel (S (length s)) old new s.

(** The constructor's arguments of [OtpService]. *)
Record config := Config {
  expiry_seconds : Z;
  max_verification_attempts : Z;
  max_requests_per_window : Z;
  request_window_minutes : Z;
  sms_message_template : pystr;
  has_audit_writer : bool;
  (** [type(provider).__name__.startswith("Logging")], per channel *)
  logging_provider : OtpChannel → bool;
}.

(** A message a provider accepted. *)
Record sent := Sent { sent_channel : OtpChannel; sent_to : pystr; sent_body : pystr }.

Record services (R : Type) := Services { redis : conn R; outbox : list sent }.
Arguments Services {R}. Arguments redis {R}. Arguments outbox {R}.

Section service.
Context {digest R : Type} `{EqDecision digest, PyUnicode, Redis R}.
(** [hashlib.sha256(code.encode()).hexdigest()] and the e-mail layout. *)
Variable hash_otp_code : pystr → digest.
Variable render_otp_email : pystr → pystr → Z → pystr.
Variable cfg : config.

Abbreviation state := (world (database digest) (services R)).
Implicit Types (w : state) (r : OtpRequest digest).

Definition on_redis {A} (m : M (conn R) error A) : M state error A :=
  on_ext (zoom redis (λ c x, Services c (outbox x)) m).
Definition on_requests (f : list (OtpRequest digest) → list (OtpRequest digest)) : M state error unit :=
  on_db (modify (λ d, Database (f (otp_requests d)) (audit_log d))).
Definition create_audit_log_entry (e : audit_entry) : M state error unit :=
  on_db (modify (λ d, Database (otp_requests d) (audit_log d ++ [e]))).

Definition rate_limit_key (i : pystr) : pystr := u "otp:request_count:" ++ i.

(** [OtpRateLimiter.check_and_increment]. *)
Definition check_and_increment (now : datetime) (i : pystr) (max_requests window_minutes : Z)
    : M (conn R) error unit :=
  fixed_window RedisUnavailable OtpRequestRateLimitExceededError now (rate_limit_key i)
    max_requests (window_minutes * 60).

(** [_dispatch]: the text each provider is handed. *)
Definition validity_minutes : Z := Z.max (expiry_seconds cfg / 60) 1.
Definition message_text (code : pystr) (p : OtpPurpose) : pystr :=
  match p with
  | ACCOUNT_DATA_MASKING =>
      u "Your Wyfy Guest verification code to change your dashboard's guest-data masking setting is "
        ++ code ++ u ". It expires in " ++ u (pretty validity_minutes)
        ++ u " minute(s). Ignore this if you didn't request it."
  | GUEST_LOGIN =>
      u "Your Wyfy Guest verification code is " ++ code ++ u ". It expires in "
        ++ u (pretty validity_minutes) ++ u " minute(s)."
  end.
Definition intro_text (p : OtpPurpose) : pystr :=
  match p with
  | ACCOUNT_DATA_MASKING =>
      u "Use this code to change your dashboard's guest-data masking setting. Ignore this message if you didn't request it."
  | GUEST_LOGIN => u "Use this code to finish signing in."
  end.
Definition body_text (code : pystr) (ch : OtpChannel) (p : OtpPurpose) : pystr :=
  match ch with
  | SMS =>
      if negb (bool_decide (sms_message_template cfg = [])) && bool_decide (p = GUEST_LOGIN)
      then replace (u "{#num#}") code (sms_message_template cfg)
      else message_text code p
  | WHATSAPP => message_text code p
  | EMAIL => render_otp_email (intro_text p) code validity_minutes
  end.

(** [_send_recorded]: the provider is awaited; what it did is noted on the
    row in the [finally] clause; its error is re-raised. *)
Definition send_recorded (row : OtpRequest digest) (ch : OtpChannel) (body : pystr)
    (provider_ok : bool) : M state error (OtpRequest digest) :=
  _ ← (if provider_ok
       then on_ext (modify (λ x, Services (redis x) (outbox x ++ [Sent ch (identifier row) body])))
       else mret tt);
  let o := if logging_provider cfg ch then NotAttempted
           else if provider_ok then Accepted else Rejected in
  _ ← on_requests (set_row (set_outcome o) (id row));
  if provider_ok then mret (set_outcome o row) else raise ProviderError.

(** [request_otp].  [new_id], [code] and [now] are what [uuid4], [secrets]
    and the clock yield; [provider_ok] is whether the provider accepts. *)
Definition request_otp (now : datetime) (new_id : uuid) (code : pystr) (provider_ok : bool)
    (raw_identifier : pystr) (ch : OtpChannel) (p : OtpPurpose) (org loc : option uuid)
    : M state error (OtpRequest digest) :=
  let i := normalize_otp_identifier raw_identifier in
  _ ← raise_if (negb (validate_identifier i ch)) InvalidOtpIdentifierError;
  _ ← on_redis (check_and_increment now i (max_requests_per_window cfg)
                  (request_window_minutes cfg));
  let row := mk_request new_id i ch p (hash_otp_code code) now
               (now + seconds (expiry_seconds cfg)) None 0 (max_verification_attempts cfg)
               false org loc None false in
  _ ← on_requests (insert_row row);
  send_recorded row ch (body_text code ch p) provider_ok.

(** [_record_failure]. *)
Definition record_failure (row : option (OtpRequest digest)) (p : OtpPurpose)
    (reason : failure_reason) : M state error unit :=
  if negb (audited_reason reason) || negb (has_audit_writer cfg) then mret tt
  else create_audit_log_entry (OTP_VERIFICATION_FAILED (id <$> row) p reason).

(** [verify_otp]. *)
Definition verify_otp (now : datetime) (raw_identifier code : pystr) (p : OtpPurpose)
    : M state error (OtpRequest digest) :=
  let i := normalize_otp_identifier raw_identifier in
  latest ← gets (λ w, get_latest_for_identifier i p (otp_requests (db w)));
  match latest with
  | None => _ ← record_failure None p not_found; raise OtpNotFoundError
  | Some row =>
      if is_consumed row then
        _ ← record_failure (Some row) p already_consumed; raise OtpAlreadyConsumedError
      else if is_locked_out row then
        _ ← record_failure (Some row) p attempts_exceeded; raise OtpAttemptsExceededError
      else if is_expired row now then
        _ ← record_failure (Some row) p expired; raise OtpExpiredError
      else if negb (bool_decide (hash_otp_code code = code_hash row)) then
        let updated := set_attempts (attempt_count row + 1) row in
        _ ← on_requests (set_row (set_attempts (attempt_count row + 1)) (id row));
        _ ← record_failure (Some updated) p code_mismatch;
        raise (OtpCodeMismatchError (Z.max (max_attempts updated - attempt_count updated) 0))
      else
        _ ← on_requests (set_row (set_verified now) (id row));
        _ ← (if has_audit_writer cfg
             then create_audit_log_entry (OTP_VERIFIED (id row) p) else mret tt);
        mret (set_verified now row)
  end.

(** [POST /otp/verify] in [router.py]: the call, inside the request's
    session. *)
Definition post_verify (now : datetime) (raw_identifier code : pystr) (p : OtpPurpose)
    : M state error (OtpRequest digest) :=
  get_db_session (verify_otp now raw_identifier code p).

(** *** Running [verify_otp] *)
Definition latest (raw : pystr) (p : OtpPurpose) w : option (OtpRequest digest) :=
  get_latest_for_identifier (normalize_otp_identifier raw) p (otp_requests (db w)).

(** A code that [verify_otp] accepts now. *)
Definition live (now : datetime) (code : pystr) r : Prop :=
  is_consumed r = false ∧ attempt_count r < max_attempts r ∧ now ≤ expires_at r ∧
  hash_otp_code code = code_hash r.

Definition audit (es : list audit_entry) (d : database digest) : database digest :=
  Database (otp_requests d) (audit_log d ++ (if has_audit_writer cfg then es else [])).
Definition write (f : OtpRequest digest → OtpRequest digest) (k : uuid)
    (d : database digest) : database digest :=
  Database (set_row f k (otp_requests d)) (audit_log d).

Lemma audit_nil d : audit [] d = d.
Proof. destruct d. unfold audit. simpl. case_match; by rewrite app_nil_r. Qed.

Lemma verify_run now raw code p w :
  verify_otp now raw code p w =
    match latest raw p w with
    | None => (Raise OtpNotFoundError, w)
    | Some r =>
        if is_consumed r then (Raise OtpAlreadyConsumedError, w)
        else if is_locked_out r then
          (Raise OtpAttemptsExceededError,
           World (audit [OTP_VERIFICATION_FAILED (Some (id r)) p attempts_exceeded] (db w)) (ext w))
        else if is_expired r now then (Raise OtpExpiredError, w)
        else if negb (bool_decide (hash_otp_code code = code_hash r)) then
          (Raise (OtpCodeMismatchError (Z.max (max_attempts r - (attempt_count r + 1)) 0)),
           World (audit [OTP_VERIFICATION_FAILED (Some (id r)) p code_mismatch]
                    (write (set_attempts (attempt_count r + 1)) (id r) (db w))) (ext w))
        else
          (Ok (set_verified now r),
           World (audit [OTP_VERIFIED (id r) p] (write (set_verified now) (id r) (db w))) (ext w))
    end.
Proof.
  unfold verify_otp, latest, record_failure, create_audit_log_entry, on_requests, on_db, audit, write.
  destruct w as [[rows log] x]. mstep. simpl.
  destruct (get_latest_for_identifier _ _ _) as [r|]; [|done].
  destruct (is_consumed r); [done|].
  destruct (is_locked_out r); [destruct (has_audit_writer cfg); simpl; by rewrite ?app_nil_r|].
  destruct (is_expired r now); [done|].
  destruct (bool_decide _); simpl; destruct (has_audit_writer cfg); simpl; by rewrite ?app_nil_r.
Qed.

Lemma latest_write f k raw p w x :
  keeps_key f →
  latest raw p (World (write f k (db w)) x) =
    (λ r, if has_id k r then f r else r) <$> latest raw p w.
Proof. intros Hf. unfold latest, write. simpl. by apply latest_set_row. Qed.

Lemma latest_audit es raw p d x : latest raw p (World (audit es d) x) = latest raw p (World d x).
Proof. done. Qed.

Lemma latest_write_self f raw p w x r :
  keeps_key f → latest raw p w = Some r →
  latest raw p (World (write f (id r) (db w)) x) = Some (f r).
Proof.
  intros Hf Hl. rewrite latest_write by done. rewrite Hl. simpl.
  unfold has_id, row_id, request_has_id. by rewrite bool_decide_true.
Qed.

Ltac live_cases :=
  unfold live, is_locked_out, is_expired in *;
  repeat match goal with
  | |- context [if is_consumed ?r then _ else _] => destruct (is_consumed r) eqn:?
  | |- context [max_attempts ?r <=? ?n] => destruct (Z.leb_spec (max_attempts r) n)
  | |- context [expires_at ?r <? ?n] => destruct (Z.ltb_spec (expires_at r) n)
  | |- context [bool_decide (?a = ?b)] => destruct (bool_decide_reflect (a = b))
  end; simpl.

(** C29: [verify_otp] accepts a code exactly when the latest request of that
    identifier and purpose is unconsumed, under its attempt cap, not past
    its expiry, and the code's hash is the stored one; it then returns that
    request, marked verified. *)
Theorem verify_accepts_iff now raw code p w r' :
  (verify_otp now raw code p w).1 = Ok r' ↔
  ∃ r, latest raw p w = Some r ∧ live now code r ∧ r' = set_verified now r.
Proof.
  rewrite verify_run. destruct (latest raw p w) as [r|]; [|split; [done|by intros (? & ? & _)]].
  live_cases; split; try done; try (intros (? & [= <-] & (? & ? & ? & ?) & ?); lia || congruence).
  intros [= <-]. exists r. auto 6 with lia.
Qed.

Lemma verify_Ok now raw code p w r' w' :
  verify_otp now raw code p w = (Ok r', w') →
  ∃ r, latest raw p w = Some r ∧ live now code r ∧
    w' = World (audit [OTP_VERIFIED (id r) p] (write (set_verified now) (id r) (db w))) (ext w).
Proof.
  rewrite verify_run. destruct (latest raw p w) as [r|]; [|done].
  live_cases; try done. intros [= <- <-]. exists r. auto 6 with lia.
Qed.

(** A code is good for one verification.  After a success, whatever is
    presented for the same identifier and purpose, at whatever time, is
    refused as already consumed and changes nothing, until a new code is
    requested. *)
Theorem code_is_single_use now raw code p w r' w' now2 raw2 code2 :
  verify_otp now raw code p w = (Ok r', w') →
  normalize_otp_identifier raw2 = normalize_otp_identifier raw →
  verify_otp now2 raw2 code2 p w' = (Raise OtpAlreadyConsumedError, w').
Proof.
  intros (r & Hl & _ & ->)%verify_Ok Hn. rewrite verify_run.
  assert (latest raw2 p w = Some r) as Hl2 by (unfold latest; by rewrite Hn).
  rewrite latest_audit.
  by rewrite (latest_write_self _ _ _ _ _ _ (keeps_key_verified now) Hl2).
Qed.

(** *** The attempt cap *)

(** Guesses made one after the other, in one transaction. *)
Fixpoint guess_all (raw : pystr) (p : OtpPurpose) (gs : list (datetime * pystr)) w : state :=
  match gs with
  | [] => w
  | (t, g) :: gs' => guess_all raw p gs' (verify_otp t raw g p w).2
  end.

Definition wrong (r : OtpRequest digest) (g : datetime * pystr) : Prop :=
  hash_otp_code g.2 ≠ code_hash r ∧ g.1 ≤ expires_at r.

Lemma wrong_guess t g raw p w r :
  latest raw p w = Some r → is_consumed r = false → wrong r (t, g) →
  latest raw p (verify_otp t raw g p w).2 =
    Some (set_attempts (if max_attempts r <=? attempt_count r then attempt_count r
                        else attempt_count r + 1) r).
Proof.
  intros Hl Hc [Hw He]. rewrite verify_run, Hl, Hc. simpl in *. live_cases; try lia; try done.
  - by destruct r.
  - rewrite latest_audit. by apply latest_write_self; auto with otp.
Qed.

(** As long as the writes of a failed call are kept, an issued code
    survives at most [max_attempts] wrong guesses: after that many, the
    right code too is refused. *)
Theorem attempt_cap_locks_out gs raw p w r now code :
  latest raw p w = Some r → is_consumed r = false → 0 ≤ attempt_count r →
  Forall (wrong r) gs → max_attempts r ≤ attempt_count r + Z.of_nat (length gs) →
  (verify_otp now raw code p (guess_all raw p gs w)).1 = Raise OtpAttemptsExceededError.
Proof.
  revert w r. induction gs as [|[t g] gs IH]; intros w r Hl Hc Hge Hall Hlen; simpl in *.
  - rewrite verify_run, Hl, Hc. unfold is_locked_out. by rewrite (proj2 (Z.leb_le _ _)) by lia.
  - apply Forall_cons in Hall as [Hw Hall].
    pose proof (wrong_guess t g raw p w r Hl Hc Hw) as Hl'.
    eapply IH; [exact Hl'|done| | |]; simpl.
    + case_match; lia.
    + exact Hall.
    + case_match; bools; lia.
Qed.

(** The same guesses as separate requests to [POST /otp/verify]. *)
Fixpoint post_all (raw : pystr) (p : OtpPurpose) (gs : list (datetime * pystr)) w : state :=
  match gs with
  | [] => w
  | (t, g) :: gs' => post_all raw p gs' (post_verify t raw g p w).2
  end.

Lemma verify_ext now raw code p w : ext (verify_otp now raw code p w).2 = ext w.
Proof. rewrite verify_run. by repeat case_match. Qed.

Lemma post_failure_unchanged now raw code p w e :
  (post_verify now raw code p w).1 = Raise e → (post_verify now raw code p w).2 = w.
Proof.
  unfold post_verify. rewrite session_outcome. intros He.
  pose proof (session_rollback _ _ _ He) as Hdb.
  pose proof (session_ext (verify_otp now raw code p) w) as Hext. rewrite verify_ext in Hext.
  destruct (get_db_session (verify_otp now raw code p) w).2, w. simpl in *. congruence.
Qed.

(** Over HTTP the attempt cap never engages.  The wrong-code branch of
    [verify_otp] counts the attempt and then raises, and the request's
    session rolls back everything written before an exception; so however
    many wrong codes are posted, no attempt is recorded, and the right code
    is still accepted until it expires. *)
Theorem http_guessing_is_never_locked_out gs raw p w r now code :
  latest raw p w = Some r → live now code r →
  Forall (λ g, hash_otp_code g.2 ≠ code_hash r) gs →
  post_all raw p gs w = w ∧
  (post_verify now raw code p (post_all raw p gs w)).1 = Ok (set_verified now r).
Proof.
  intros Hl Hlive Hall.
  assert (post_all raw p gs w = w) as ->.
  { induction gs as [|[t g] gs IH]; [done|]. apply Forall_cons in Hall as [Hg Hall]. simpl in *.
    assert (∃ e, (post_verify t raw g p w).1 = Raise e) as [e He].
    { unfold post_verify. rewrite session_outcome.
      destruct (verify_otp t raw g p w).1 as [r'|e] eqn:E; [|eauto].
      apply verify_accepts_iff in E as (r1 & Hl1 & (_ & _ & _ & Hh) & _). congruence. }
    rewrite (post_failure_unchanged _ _ _ _ _ _ He). by apply IH. }
  split; [done|]. unfold post_verify. rewrite session_outcome.
  apply verify_accepts_iff. eauto.
Qed.

(** *** Requests *)
Definition window_seconds : Z := request_window_minutes cfg * 60.
Definition limiter_step (t : datetime) (i : pystr) (c : R) : R :=
  bump t (rate_limit_key i) window_seconds c.
Definition refused (t : datetime) (i : pystr) (c : R) : bool :=
  max_requests_per_window cfg <? r_count t (rate_limit_key i) c + 1.

Context `{!RedisLaws R}.

(** The row a request creates, with what its delivery did noted on it. *)
Definition new_row (now : datetime) (new_id : uuid) (code : pystr) (provider_ok : bool)
    (i : pystr) (ch : OtpChannel) (p : OtpPurpose) (org loc : option uuid) : OtpRequest digest :=
  mk_request new_id i ch p (hash_otp_code code) now (now + seconds (expiry_seconds cfg)) None 0
    (max_verification_attempts cfg) false org loc
    (Some (if logging_provider cfg ch then NotAttempted
           else if provider_ok then Accepted else Rejected)) false.

Lemma request_run now new_id code ok raw ch p org loc (d : database digest) c out :
  let i := normalize_otp_identifier raw in
  request_otp now new_id code ok raw ch p org loc (World d (Services (Conn c []) out)) =
    if negb (validate_identifier i ch) then
      (Raise InvalidOtpIdentifierError, World d (Services (Conn c []) out))
    else if refused now i c then
      (Raise (OtpRequestRateLimitExceededError
                (retry_hint (r_ttl now (rate_limit_key i) (limiter_step now i c)) window_seconds)),
       World d (Services (Conn (limiter_step now i c) []) out))
    else
      let row := new_row now new_id code ok i ch p org loc in
      let d' := write (set_outcome (if logging_provider cfg ch then NotAttempted
                  else if ok then Accepted else Rejected)) new_id
                (Database (otp_requests d ++ [mk_request new_id i ch p (hash_otp_code code) now
                   (now + seconds (expiry_seconds cfg)) None 0 (max_verification_attempts cfg)
                   false org loc None false]) (audit_log d)) in
      (if ok then Ok row else Raise ProviderError,
       World d' (Services (Conn (limiter_step now i c) [])
         (if ok then out ++ [Sent ch i (body_text code ch p)] else out))).
Proof.
  simpl. unfold request_otp, check_and_increment, on_redis, on_ext, on_requests, send_recorded.
  unfold refused, limiter_step, window_seconds. mstep.
  destruct (validate_identifier _ ch); simpl; [|done].
  rewrite fixed_window_run. destruct (_ <? _); [done|]. simpl.
  by destruct ok.
Qed.

(** One call of [request_otp], and a stream of them. *)
Record request_call := Call {
  at_time : datetime; fresh_id : uuid; drawn_code : pystr; accepted : bool;
  raw_identifier : pystr; by_channel : OtpChannel; for_purpose : OtpPurpose;
  for_org : option uuid; for_loc : option uuid }.
Definition run_call (q : request_call) w : outcome error (OtpRequest digest) * state :=
  request_otp (at_time q) (fresh_id q) (drawn_code q) (accepted q) (raw_identifier q)
    (by_channel q) (for_purpose q) (for_org q) (for_loc q) w.
Fixpoint run_calls (qs : list request_call) w : state :=
  match qs with [] => w | q :: qs' => run_calls qs' (run_call q w).2 end.

Definition deliveries (i : pystr) (out : list sent) : Z :=
  Z.of_nat (length (List.filter (λ m, bool_decide (sent_to m = i)) out)).

Lemma deliveries_app i out m :
  deliveries i (out ++ [m]) = deliveries i out + (if bool_decide (sent_to m = i) then 1 else 0).
Proof.
  unfold deliveries. rewrite List.filter_app, length_app. simpl.
  case_bool_decide; simpl; lia.
Qed.

Definition targets (i : pystr) (q : request_call) : Prop :=
  normalize_otp_identifier (raw_identifier q) = i.

Lemma run_calls_bounded qs i d c out now n dl :
  0 < window_seconds → 0 < n → in_window now (rate_limit_key i) n dl c →
  Forall (targets i) qs → nondecreasing now dl (map at_time qs) →
  deliveries i (outbox (ext (run_calls qs (World d (Services (Conn c []) out))))) ≤
    deliveries i out + Z.max 0 (max_requests_per_window cfg - n).
Proof.
  intros Hw. revert d c out now n. induction qs as [|q qs IH]; intros d c out now n Hn Hin Hall Hnd.
  { simpl. lia. }
  apply Forall_cons in Hall as [Hq Hall]. inversion Hnd as [|? ? Ht Hnd']; subst.
  pose proof (in_window_later _ (at_time q) _ _ _ _ Hin Ht) as Hin'.
  pose proof (in_window_bump _ _ _ _ window_seconds _ Hw Hn Hin') as Hin2.
  assert (r_count (at_time q) (rate_limit_key i) c = n) as Hcnt by (unfold r_count; by rewrite Hin').
  simpl run_calls. unfold run_call at 1. rewrite request_run. unfold targets in Hq. cbv zeta. rewrite !Hq.
  destruct (validate_identifier i (by_channel q)); cbn [negb].
  2:{ apply (IH _ _ _ (at_time q)); done. }
  destruct (refused (at_time q) i c) eqn:Hr; unfold refused in Hr; rewrite Hcnt in Hr; bools; cbn [snd].
  - etransitivity; [eapply (IH _ _ _ (at_time q) (n + 1)); try done; lia|]. lia.
  - etransitivity; [eapply (IH _ _ _ (at_time q) (n + 1)); try done; lia|].
    destruct (accepted q); [|lia]. rewrite deliveries_app. simpl.
    rewrite bool_decide_true by done. lia.
Qed.

(** Within one window, however many codes are requested for one contact
    address (in any spelling that normalises to it, over any channel, for
    any purpose or tenant), at most [max_requests_per_window] messages are
    delivered to it. *)
Theorem deliveries_bounded_per_window q qs i d c out :
  0 < window_seconds → 0 < max_requests_per_window cfg →
  r_entry (at_time q) (rate_limit_key i) c = None → Forall (targets i) (q :: qs) →
  validate_identifier i (by_channel q) = true →
  nondecreasing (at_time q) (at_time q + seconds window_seconds) (map at_time qs) →
  deliveries i (outbox (ext (run_calls (q :: qs) (World d (Services (Conn c []) out))))) ≤
    deliveries i out + max_requests_per_window cfg.
Proof.
  intros Hw Hmax Hnone Hall Hv Hnd. apply Forall_cons in Hall as [Hq Hall].
  pose proof (fresh_bump (at_time q) (rate_limit_key i) window_seconds c Hw Hnone) as Hin.
  simpl run_calls. unfold run_call at 1. rewrite request_run. unfold targets in Hq. cbv zeta.
  rewrite !Hq, Hv. cbn [negb].
  destruct (refused (at_time q) i c); cbn [snd].
  - etransitivity; [eapply (run_calls_bounded _ _ _ _ _ (at_time q) 1); try done; lia|]. lia.
  - etransitivity; [eapply (run_calls_bounded _ _ _ _ _ (at_time q) 1); try done; lia|].
    destruct (accepted q); [|lia]. rewrite deliveries_app. simpl.
    rewrite bool_decide_true by done. lia.
Qed.

(** a refused or undeliverable request leaves no code behind.  When
    [request_otp] raises inside a request's session, the database is as
    before: an earlier, still valid code remains the latest one. *)
Theorem failed_request_keeps_previous_code now new_id code ok raw ch p org loc w e raw2 p2 :
  (get_db_session (request_otp now new_id code ok raw ch p org loc) w).1 = Raise e →
  latest raw2 p2 (get_db_session (request_otp now new_id code ok raw ch p org loc) w).2 =
    latest raw2 p2 w.
Proof.
  rewrite session_outcome. intros He. unfold latest. by rewrite (session_rollback _ _ _ He).
Qed.

(** Round trip.  The code a successful [request_otp] sent is accepted
    by [verify_otp] until it expires, under any spelling of the identifier
    that normalises to the same address, and only that code is. *)
Theorem requested_code_verifies now new_id code ok raw ch p org loc d c out r w' now2 raw2 code2 :
  request_otp now new_id code ok raw ch p org loc (World d (Services (Conn c []) out)) = (Ok r, w') →
  (∀ r', r' ∈ otp_requests d → created_at r' ≤ now) →
  0 < max_verification_attempts cfg →
  normalize_otp_identifier raw2 = normalize_otp_identifier raw →
  (is_ok (verify_otp now2 raw2 code2 p w').1 = true ↔
     hash_otp_code code2 = hash_otp_code code ∧ now2 ≤ now + seconds (expiry_seconds cfg)).
Proof.
  rewrite request_run. intros Hrun Hnew Hmax Hn.
  destruct (validate_identifier _ _); [|done]. cbn [negb] in Hrun.
  destruct (refused _ _ _); [done|]. destruct ok; [|done]. injection Hrun as <- <-.
  set (row := mk_request new_id _ ch p _ _ _ _ _ _ _ _ _ None _).
  assert (latest raw2 p (World (Database (otp_requests d ++ [row]) (audit_log d)) (Services (Conn c []) out))
          = Some row) as Hl.
  { unfold latest. simpl. apply latest_insert.
    - unfold for_identifier. simpl. by rewrite !bool_decide_true by congruence.
    - intros r' Hr' _. simpl. auto. }
  rewrite verify_run.
  rewrite (latest_write_self _ _ _ (World (Database (otp_requests d ++ [row]) (audit_log d))
             (Services (Conn c []) out)) _ _ (keeps_key_outcome _) Hl).
  simpl. unfold is_locked_out, is_expired. simpl. rewrite (proj2 (Z.leb_gt _ _)) by lia.
  destruct (Z.ltb_spec (now + seconds (expiry_seconds cfg)) now2); simpl;
    [split; [done|lia]|].
  case_bool_decide; simpl; split; try done; intros [? _]; congruence.
Qed.
End service.

(** ** The hypotheses hold at concrete inputs *)
Module examples.
#[local] Existing Instance ascii_only.

Definition cfg : config := Config 300 5 5 60 [] true (λ _, true).
Definition hash (code : pystr) : pystr := code.
Definition render (intro code : pystr) (_ : Z) : pystr := intro ++ code.
Definition guest : pystr := u "guest@gmail.com".
Definition row : OtpRequest pystr :=
  mk_request 1 guest EMAIL GUEST_LOGIN (u "042817") 0 (seconds 300) None 0 5 false None None
    (Some Accepted) false.
Definition w0 : world (database pystr) (services MapRedis.store) :=
  World (Database [row] []) (Services (Conn ∅ []) []).
Definition empty_db : database pystr := Database [] [].
(** Six wrong codes, one more than the cap. *)
Definition guesses : list (datetime * pystr) :=
  [(1, u "000000"); (2, u "000001"); (3, u "000002"); (4, u "000003"); (5, u "000004");
   (6, u "000005")].

Lemma row_live : live hash 7 (u "042817") row.
Proof. repeat split; vm_compute; congruence. Qed.

Lemma code_is_single_use_witness : ∃ r' w',
  verify_otp hash cfg 7 (u "Guest@Gmail.com") (u "042817") GUEST_LOGIN w0 = (Ok r', w') ∧
  verify_otp hash cfg 8 guest (u "042817") GUEST_LOGIN w' = (Raise OtpAlreadyConsumedError, w').
Proof.
  eexists _, _. split; [vm_compute; reflexivity|].
  eapply (code_is_single_use hash cfg 7 (u "Guest@Gmail.com") (u "042817") GUEST_LOGIN w0);
    vm_compute; reflexivity.
Defined.

Lemma attempt_cap_locks_out_witness :
  (verify_otp hash cfg 7 guest (u "042817") GUEST_LOGIN
     (guess_all hash cfg guest GUEST_LOGIN guesses w0)).1 = Raise OtpAttemptsExceededError.
Proof.
  apply (attempt_cap_locks_out hash cfg guesses guest GUEST_LOGIN w0 row).
  - vm_compute; reflexivity.
  - reflexivity.
  - vm_compute; congruence.
  - repeat (apply Forall_cons; split; [split; vm_compute; congruence|]). apply Forall_nil. exact I.
  - vm_compute; congruence.
Defined.

Lemma http_guessing_is_never_locked_out_witness :
  post_all hash cfg guest GUEST_LOGIN guesses w0 = w0 ∧
  (post_verify hash cfg 7 guest (u "042817") GUEST_LOGIN
     (post_all hash cfg guest GUEST_LOGIN guesses w0)).1 = Ok (set_verified 7 row).
Proof.
  apply (http_guessing_is_never_locked_out hash cfg guesses guest GUEST_LOGIN w0 row).
  - vm_compute; reflexivity.
  - exact row_live.
  - repeat (apply Forall_cons; split; [vm_compute; congruence|]). apply Forall_nil. exact I.
Defined.

Definition ask (t : datetime) (k : uuid) (raw : string) : request_call :=
  Call t k (u "123456") true (u raw) EMAIL GUEST_LOGIN None None.
Definition calls : list request_call :=
  [ask 2 2 "GUEST@gmail.com"; ask 3 3 " guest@gmail.com"; ask 4 4 "Guest@Gmail.com";
   ask 5 5 "guest@gmail.com"; ask 6 6 "guest@GMAIL.com"; ask 7 7 "guest@gmail.com"].

(** Seven requests, five e-mails. *)
Lemma deliveries_bounded_per_window_witness :
  deliveries guest (outbox (ext (run_calls hash render cfg (ask 1 1 "guest@gmail.com" :: calls)
    (World empty_db (Services (Conn (∅ : MapRedis.store) []) []))))) = 5 ∧
  deliveries guest (outbox (ext (run_calls hash render cfg (ask 1 1 "guest@gmail.com" :: calls)
    (World empty_db (Services (Conn (∅ : MapRedis.store) []) []))))) ≤
    deliveries guest [] + 5.
Proof.
  split; [vm_compute; reflexivity|].
  apply (deliveries_bounded_per_window hash render cfg (ask 1 1 "guest@gmail.com") calls guest
           empty_db ∅ []).
  - vm_compute; reflexivity.
  - vm_compute; reflexivity.
  - vm_compute; reflexivity.
  - repeat (apply Forall_cons; split; [vm_compute; reflexivity|]). apply Forall_nil. exact I.
  - vm_compute; reflexivity.
  - repeat (apply nd_cons; [split; vm_compute; congruence|]). apply nd_nil.
Defined.

(** The e-mail provider is down: the previous code is still the latest. *)
Lemma failed_request_keeps_previous_code_witness :
  latest guest GUEST_LOGIN
    (get_db_session (request_otp hash render cfg 9 2 (u "999999") false guest EMAIL
       GUEST_LOGIN None None) w0).2 = Some row.
Proof.
  rewrite (failed_request_keeps_previous_code hash render cfg 9 2 (u "999999") false guest EMAIL
    GUEST_LOGIN None None w0 ProviderError); vm_compute; reflexivity.
Defined.

Lemma requested_code_verifies_witness :
  let w' := (request_otp hash render cfg 10 2 (u "777777") true (u "Guest@Gmail.com") EMAIL
               GUEST_LOGIN None None w0).2 in
  is_ok (verify_otp hash cfg 11 guest (u "777777") GUEST_LOGIN w').1 = true.
Proof.
  intros w'.
  eapply (requested_code_verifies hash render cfg 10 2 (u "777777") true (u "Guest@Gmail.com")
    EMAIL GUEST_LOGIN None None (Database [row] []) ∅ []).
  - vm_compute; reflexivity.
  - intros r' Hr'. apply list_elem_of_singleton in Hr' as ->. vm_compute; congruence.
  - vm_compute; reflexivity.
  - vm_compute; reflexivity.
  - split; vm_compute; congruence.
Defined.
End examples.
End Otp.
