(* ===== verification/Rbac.v ===== *)
(** Roles, permissions and scopes: [src/backend/app/domains/rbac].

    [Scope] is [context.py], [enums.py] and [ScopeResolver]; [Rbac] holds the
    rows, the repository's queries and the three resolvers of
    [authorization.py].  The service that changes the rows is in
    [RbacService.v], the request dependencies in [Tenancy.v]. *)

From S2P Require Import Prelude Table Session PyStr.

Module Scope.

Inductive ScopeType := GLOBAL | ORGANIZATION | LOCATION | ROUTER | DEVICE.
#[export] Instance scope_type_eq_dec : EqDecision ScopeType.
Proof. solve_decision. Defined.

Definition value (s : ScopeType) : pystr :=
  match s with
  | GLOBAL => u "global" | ORGANIZATION => u "organization" | LOCATION => u "location"
  | ROUTER => u "router" | DEVICE => u "device"
  end.

(** [ScopeType(raw)], [None] where it raises [ValueError]. *)
Definition of_value (raw : pystr) : option ScopeType :=
  List.find (λ s, bool_decide (value s = raw)) [GLOBAL; ORGANIZATION; LOCATION; ROUTER; DEVICE].

Lemma of_value_value s : of_value (value s) = Some s.
Proof. by destruct s. Qed.
#[global] Arguments value : simpl never.
#[global] Arguments of_value : simpl never.

Definition SCOPE_HIERARCHY_ORDER (s : ScopeType) : Z :=
  match s with GLOBAL => 0 | ORGANIZATION => 1 | LOCATION => 2 | ROUTER => 3 | DEVICE => 4 end.

Record ScopeContext := mk_context {
  organization_id : option uuid;
  location_id : option uuid;
  router_id : option uuid;
  msp_id : option uuid;
}.
#[export] Instance context_eq_dec : EqDecision ScopeContext.
Proof. solve_decision. Defined.

Definition global_scope : ScopeContext := mk_context None None None None.

Record GrantScope := mk_grant {
  scope_type : ScopeType;
  grant_organization_id : option uuid;
  grant_location_id : option uuid;
  grant_router_id : option uuid;
  grant_msp_id : option uuid;
}.
#[export] Instance grant_eq_dec : EqDecision GrantScope.
Proof. solve_decision. Defined.

(** [a is not None and b is not None and a == b]. *)
Definition same_id (a b : option uuid) : bool :=
  match a, b with Some x, Some y => bool_decide (x = y) | _, _ => false end.

(** [ScopeResolver.satisfies]. *)
Definition satisfies (g : GrantScope) (requested_scope_type : ScopeType)
    (requested : ScopeContext) : bool :=
  if bool_decide (scope_type g = GLOBAL) then true
  else if SCOPE_HIERARCHY_ORDER requested_scope_type <? SCOPE_HIERARCHY_ORDER (scope_type g)
  then false
  else match scope_type g with
       | ORGANIZATION => same_id (grant_organization_id g) (organization_id requested)
       | LOCATION => same_id (grant_location_id g) (location_id requested)
       | ROUTER => same_id (grant_router_id g) (router_id requested)
       | _ => false
       end.

(** [a or b or c] on identifiers: a UUID is never falsy. *)
Definition first_id (ids : list (option uuid)) : option uuid :=
  head (omap (λ o, o) ids).

(** [_describe_scope]. *)
Definition describe_scope (s : ScopeType) (c : ScopeContext) : pystr :=
  match first_id [organization_id c; location_id c; router_id c] with
  | Some k => if bool_decide (s = GLOBAL) then u "global scope"
              else value s ++ u " scope (" ++ uuid_str k ++ u ")"
  | None => u "global scope"
  end.

(** [_infer_scope_type]. *)
Definition infer_scope_type (c : ScopeContext) : ScopeType :=
  match router_id c, location_id c, organization_id c with
  | Some _, _, _ => ROUTER
  | None, Some _, _ => LOCATION
  | None, None, Some _ => ORGANIZATION
  | None, None, None => GLOBAL
  end.

Lemma same_id_spec a b : same_id a b = true ↔ ∃ k, a = Some k ∧ b = Some k.
Proof.
  destruct a as [x|], b as [y|]; simpl; try (split; [done|by intros (?&?&?)]).
  rewrite bool_decide_eq_true. split; [intros ->; eauto|by intros (?&[= ->]&[= ->])].
Qed.

(** What a grant must name for a request to be satisfied. *)
Definition grant_matches (g : GrantScope) (c : ScopeContext) : Prop :=
  match scope_type g with
  | GLOBAL => True
  | ORGANIZATION => ∃ k, grant_organization_id g = Some k ∧ organization_id c = Some k
  | LOCATION => ∃ k, grant_location_id g = Some k ∧ location_id c = Some k
  | ROUTER => ∃ k, grant_router_id g = Some k ∧ router_id c = Some k
  | DEVICE => False
  end.

Lemma satisfies_spec g s c :
  satisfies g s c = true ↔
  (scope_type g = GLOBAL ∨ SCOPE_HIERARCHY_ORDER (scope_type g) ≤ SCOPE_HIERARCHY_ORDER s)
  ∧ grant_matches g c.
Proof.
  unfold satisfies, grant_matches. case_bool_decide as Eg.
  { rewrite Eg. split; [intros _; by split; [left|]|done]. }
  destruct (Z.ltb_spec (SCOPE_HIERARCHY_ORDER s) (SCOPE_HIERARCHY_ORDER (scope_type g))).
  { split; [done|intros [[?|?] _]; [done|lia]]. }
  destruct (scope_type g) eqn:E; rewrite ?same_id_spec;
    split; try done; try (intros ?; split; [by right|done]); by intros [_ ?].
Qed.

End Scope.

Module Rbac.
Import Scope.

(** ** Rows of [models.py] *)
Record Role := mk_role {
  role_id : uuid;
  name : pystr;
  slug : pystr;
  is_system_role : bool;
  is_template : bool;
  role_is_active : bool;
  role_scope_type : ScopeType;
  role_organization_id : option uuid;
  parent_role_id : option uuid;
  role_is_deleted : bool;
}.
#[export] Instance role_has_id : HasId Role := role_id.

Record UserRole := mk_user_role {
  ur_id : uuid;
  ur_user_id : uuid;
  ur_role_id : uuid;
  ur_scope_type : ScopeType;
  ur_msp_id : option uuid;
  ur_organization_id : option uuid;
  ur_location_id : option uuid;
  ur_router_id : option uuid;
  ur_granted_at : datetime;
  ur_granted_by : option uuid;
  ur_expires_at : option datetime;
  ur_is_active : bool;
  ur_is_deleted : bool;
}.
#[export] Instance user_role_has_id : HasId UserRole := ur_id.

Record Permission := mk_permission {
  perm_id : uuid;
  key : pystr;
  perm_is_active : bool;
  perm_is_deleted : bool;
}.
#[export] Instance permission_has_id : HasId Permission := perm_id.

Record RolePermission := mk_role_permission {
  rp_id : uuid;
  rp_role_id : uuid;
  rp_permission_id : uuid;
  rp_is_deleted : bool;
}.

Inductive OverrideEffect := ALLOW | DENY.
#[export] Instance effect_eq_dec : EqDecision OverrideEffect.
Proof. solve_decision. Defined.
Definition effect_value (e : OverrideEffect) : pystr :=
  match e with ALLOW => u "allow" | DENY => u "deny" end.

Record PermissionOverride := mk_override {
  po_id : uuid;
  po_user_id : uuid;
  po_permission_id : uuid;
  po_effect : OverrideEffect;
  po_scope_type : ScopeType;
  po_organization_id : option uuid;
  po_location_id : option uuid;
  po_router_id : option uuid;
  po_granted_at : datetime;
  po_granted_by : option uuid;
  po_expires_at : option datetime;
  po_is_active : bool;
  po_is_deleted : bool;
}.
#[export] Instance override_has_id : HasId PermissionOverride := po_id.

(** [role_scopes] and [permission_scopes]: the live rows of each. *)
Record ScopeRow := mk_scope_row { sr_owner : uuid; sr_scope_type : ScopeType }.

(** [OrganizationRole]. *)
Record OrganizationRole := mk_org_role {
  or_organization_id : uuid;
  or_role_id : uuid;
  or_is_enabled : bool;
  or_is_default_for_new_members : bool;
}.

Inductive AuditAction :=
| PERMISSION_DENIED | ROLE_ASSIGNED | ROLE_REVOKED
| PERMISSION_OVERRIDE_GRANTED | PERMISSION_OVERRIDE_REVOKED.

Record AuditLogEntry := mk_audit {
  actor_user_id : uuid;
  action : AuditAction;
  entity_id : option uuid;
  description : pystr;
  event_metadata : list (pystr * pystr);
  audit_organization_id : option uuid;
  audit_location_id : option uuid;
}.

Record database := Database {
  roles : list Role;
  user_roles : list UserRole;
  permissions : list Permission;
  role_permissions : list RolePermission;
  role_scopes : list ScopeRow;
  permission_scopes : list ScopeRow;
  permission_overrides : list PermissionOverride;
  organization_roles : list OrganizationRole;
  audit_log_entries : list AuditLogEntry;
}.

(** ** Repository queries *)
Section repository.
Implicit Types (d : database) (now : datetime).

(** [expires_at IS NULL OR expires_at > now]. *)
Definition unexpired (now : datetime) (e : option datetime) : bool :=
  match e with None => true | Some t => now <? t end.

Definition role_row (k : uuid) d : option Role := by_id k (roles d).
Definition permission_row (k : uuid) d : option Permission := by_id k (permissions d).

(** [GenericRepository.get_by_id] skips soft-deleted rows. *)
Definition get_role_by_id (k : uuid) d : option Role :=
  select_one (λ r, has_id k r && negb (role_is_deleted r)) (roles d).
Definition get_user_role_assignment (k : uuid) d : option UserRole :=
  select_one (λ r, has_id k r && negb (ur_is_deleted r)) (user_roles d).
Definition get_permission_by_key (k : pystr) d : option Permission :=
  select_one (λ p, bool_decide (key p = k) && negb (perm_is_deleted p)) (permissions d).
Definition get_permission_override_by_id (k : uuid) d : option PermissionOverride :=
  select_one (λ r, has_id k r && negb (po_is_deleted r)) (permission_overrides d).

Definition active_user_role now (user : uuid) (r : UserRole) : bool :=
  bool_decide (ur_user_id r = user) && ur_is_active r && negb (ur_is_deleted r)
  && unexpired now (ur_expires_at r).
Definition get_active_user_roles now (user : uuid) d : list UserRole :=
  select (active_user_role now user) (user_roles d).

Definition active_override now (user : uuid) (o : PermissionOverride) : bool :=
  bool_decide (po_user_id o = user) && po_is_active o && negb (po_is_deleted o)
  && unexpired now (po_expires_at o).
Definition get_active_overrides_for_user now (user : uuid) d : list PermissionOverride :=
  select (active_override now user) (permission_overrides d).

Definition get_role_permissions (k : uuid) d : list RolePermission :=
  select (λ rp, bool_decide (rp_role_id rp = k) && negb (rp_is_deleted rp)) (role_permissions d).

Definition get_role_scope_types (k : uuid) d : list ScopeType :=
  sr_scope_type <$> select (λ s, bool_decide (sr_owner s = k)) (role_scopes d).
Definition get_permission_scope_types (k : uuid) d : list ScopeType :=
  sr_scope_type <$> select (λ s, bool_decide (sr_owner s = k)) (permission_scopes d).

Definition list_organization_roles (org : uuid) d : list OrganizationRole :=
  select (λ o, bool_decide (or_organization_id o = org)) (organization_roles d).

(** [get_parent_chain]: [fuel] is [max_depth - depth]. *)
Fixpoint parent_chain_from (fuel : nat) (seen : list uuid) (current : Role) d : list Role :=
  match fuel with
  | O => []
  | S fuel =>
      match parent_role_id current with
      | None => []
      | Some p =>
          match get_role_by_id p d with
          | None => []
          | Some parent =>
              if bool_decide (role_id parent ∈ seen) then []
              else parent :: parent_chain_from fuel (role_id parent :: seen) parent d
          end
      end
  end.
Definition get_parent_chain (k : uuid) (max_depth : nat) d : list Role :=
  match get_role_by_id k d with
  | None => []
  | Some r => parent_chain_from max_depth [k] r d
  end.

(** The two counts behind the "last holder" guards. *)
Definition counted_in_organization (role org : uuid) (r : UserRole) : bool :=
  bool_decide (ur_role_id r = role) && bool_decide (ur_organization_id r = Some org)
  && ur_is_active r && negb (ur_is_deleted r).
Definition count_active_role_assignments_in_organization (role org exclude : uuid) d : Z :=
  rowcount (λ r, counted_in_organization role org r && negb (has_id exclude r)) (user_roles d).

Definition counted_global (role : uuid) (r : UserRole) : bool :=
  bool_decide (ur_role_id r = role) && bool_decide (ur_scope_type r = GLOBAL)
  && bool_decide (ur_organization_id r = None) && ur_is_active r && negb (ur_is_deleted r).
Definition count_active_global_role_assignments (role exclude : uuid) d : Z :=
  rowcount (λ r, counted_global role r && negb (has_id exclude r)) (user_roles d).
End repository.

(** ** [RoleResolver] *)
Record ActiveRoleAssignment := mk_active { assignment : UserRole; role : Role }.

Definition grant_scope (a : ActiveRoleAssignment) : GrantScope :=
  let r := assignment a in
  mk_grant (ur_scope_type r) (ur_organization_id r) (ur_location_id r) (ur_router_id r)
    (ur_msp_id r).

(** A row whose role is missing, inactive or deleted grants nothing. *)
Definition pair_with_role (d : database) (r : UserRole) : option ActiveRoleAssignment :=
  match role_row (ur_role_id r) d with
  | Some ro => if role_is_active ro && negb (role_is_deleted ro)
               then Some (mk_active r ro) else None
  | None => None
  end.
Definition get_active_assignments (now : datetime) (user : uuid) (d : database)
    : list ActiveRoleAssignment :=
  omap (pair_with_role d) (get_active_user_roles now user d).

(** [_assignment_matches_context]. *)
Definition assignment_matches_context (r : UserRole) (c : ScopeContext) : bool :=
  match ur_scope_type r with
  | GLOBAL => true
  | ORGANIZATION => same_id (ur_organization_id r) (organization_id c)
  | LOCATION => same_id (ur_location_id r) (location_id c)
  | ROUTER => same_id (ur_router_id r) (router_id c)
  | DEVICE => false
  end.

Fixpoint distinct_roles (seen : list uuid) (l : list ActiveRoleAssignment) : list Role :=
  match l with
  | [] => []
  | a :: l =>
      if bool_decide (role_id (role a) ∈ seen) then distinct_roles seen l
      else role a :: distinct_roles (role_id (role a) :: seen) l
  end.
Definition get_active_roles (now : datetime) (user : uuid) (ctx : option ScopeContext)
    (d : database) : list Role :=
  let l := get_active_assignments now user d in
  distinct_roles []
    (match ctx with
     | None => l
     | Some c => List.filter (λ a, assignment_matches_context (assignment a) c) l
     end).

(** ** [PermissionResolver] *)
Record EffectiveGrant := mk_effective {
  permission_key : pystr;
  effect : pystr;
  scope : GrantScope;
  source : pystr;
}.
#[export] Instance effective_eq_dec : EqDecision EffectiveGrant.
Proof. solve_decision. Defined.
Record EffectiveGrants := mk_grants { allow : list EffectiveGrant; deny : list EffectiveGrant }.

Definition usable_permission (d : database) (rp : RolePermission) : option pystr :=
  match permission_row (rp_permission_id rp) d with
  | Some p => if perm_is_active p && negb (perm_is_deleted p) then Some (key p) else None
  | None => None
  end.
Definition own_permission_keys (k : uuid) (d : database) : list pystr :=
  omap (usable_permission d) (get_role_permissions k d).

(** [resolve_role_permission_keys]: a set, here as a duplicate-free list. *)
Definition resolve_role_permission_keys (max_depth : nat) (k : uuid) (d : database) : list pystr :=
  remove_dups (own_permission_keys k d ++
    (get_parent_chain k max_depth d ≫= λ parent, own_permission_keys (role_id parent) d)).

Definition role_grants (max_depth : nat) (d : database) (a : ActiveRoleAssignment)
    : list EffectiveGrant :=
  (λ k, mk_effective k (u "allow") (grant_scope a) (u "role:" ++ uuid_str (role_id (role a))))
    <$> resolve_role_permission_keys max_depth (role_id (role a)) d.

Definition override_grant (d : database) (o : PermissionOverride) : option EffectiveGrant :=
  match permission_row (po_permission_id o) d with
  | Some p =>
      if perm_is_deleted p then None
      else Some (mk_effective (key p) (effect_value (po_effect o))
             (mk_grant (po_scope_type o) (po_organization_id o) (po_location_id o)
                (po_router_id o) None) (u "override"))
  | None => None
  end.

Definition is_deny (g : EffectiveGrant) : bool := bool_decide (effect g = u "deny").

Definition resolve (max_depth : nat) (now : datetime) (user : uuid) (d : database)
    : EffectiveGrants :=
  let from_roles := get_active_assignments now user d ≫= role_grants max_depth d in
  let overrides := omap (override_grant d) (get_active_overrides_for_user now user d) in
  mk_grants (from_roles ++ List.filter (λ g, negb (is_deny g)) overrides)
            (List.filter is_deny overrides).

Definition permission_keys (g : EffectiveGrants) : list pystr :=
  remove_dups (permission_key <$> allow g).

(** [AccessValidator.has_permission] once the grants are known. *)
Definition grant_applies (k : pystr) (s : ScopeType) (c : ScopeContext) (g : EffectiveGrant) : bool :=
  bool_decide (permission_key g = k) && satisfies (scope g) s c.
Definition decide_permission (gs : EffectiveGrants) (k : pystr) (s : ScopeType)
    (c : ScopeContext) : bool :=
  if existsb (grant_applies k s c) (deny gs) then false
  else existsb (grant_applies k s c) (allow gs).

(** ** Inheritance *)

(** [ancestor d n k a]: following [parent_role_id] [n] times over live rows
    leads from role [k] to role [a]. *)
Inductive ancestor (d : database) : nat → uuid → uuid → Prop :=
| ancestor_self k : ancestor d 0 k k
| ancestor_up n k r p pr a :
    get_role_by_id k d = Some r → parent_role_id r = Some p →
    get_role_by_id p d = Some pr → ancestor d n p a → ancestor d (S n) k a.

Section chain.
Implicit Types (d : database) (r : Role) (seen : list uuid).

Lemma get_role_by_id_id k d r : get_role_by_id k d = Some r → role_id r = k.
Proof.
  intros [_ Hk]%select_one_Some. apply andb_true_iff in Hk as [Hk _].
  by apply bool_decide_eq_true in Hk.
Qed.

Lemma chain_length fuel seen r d : (length (parent_chain_from fuel seen r d) ≤ fuel)%nat.
Proof.
  revert seen r. induction fuel as [|fuel IH]; intros seen r; simpl; [lia|].
  destruct (parent_role_id r) as [p|]; simpl; [|lia].
  destruct (get_role_by_id p d) as [pr|]; simpl; [|lia].
  case_bool_decide; simpl; [lia|]. specialize (IH (role_id pr :: seen) pr). lia.
Qed.

Lemma chain_fresh fuel seen r d :
  NoDup (role_id <$> parent_chain_from fuel seen r d) ∧
  ∀ k, k ∈ role_id <$> parent_chain_from fuel seen r d → k ∉ seen.
Proof.
  revert seen r. induction fuel as [|fuel IH]; intros seen r; simpl;
    [by split; [constructor|intros ? ?%not_elem_of_nil]|].
  destruct (parent_role_id r) as [p|]; [|by split; [constructor|intros ? ?%not_elem_of_nil]].
  destruct (get_role_by_id p d) as [pr|]; [|by split; [constructor|intros ? ?%not_elem_of_nil]].
  case_bool_decide as Hs; [by split; [constructor|intros ? ?%not_elem_of_nil]|].
  destruct (IH (role_id pr :: seen) pr) as [Hnd Hout]. rewrite fmap_cons. split.
  - constructor; [|done]. intros Hin. apply (Hout _ Hin). apply list_elem_of_here.
  - intros k [->|Hin]%elem_of_cons; [done|]. specialize (Hout _ Hin). set_solver.
Qed.

Lemma chain_ancestor fuel seen r d k :
  get_role_by_id (role_id r) d = Some r →
  k ∈ role_id <$> parent_chain_from fuel seen r d →
  ∃ n, (n ≤ fuel)%nat ∧ ancestor d n (role_id r) k.
Proof.
  revert seen r. induction fuel as [|fuel IH]; intros seen r Hr; simpl;
    [by intros ?%not_elem_of_nil|].
  destruct (parent_role_id r) as [p|] eqn:Ep; [|by intros ?%not_elem_of_nil].
  destruct (get_role_by_id p d) as [pr|] eqn:Epr; [|by intros ?%not_elem_of_nil].
  pose proof (get_role_by_id_id _ _ _ Epr) as <-.
  case_bool_decide; [by intros ?%not_elem_of_nil|]. rewrite fmap_cons.
  intros [->|Hin]%elem_of_cons.
  - exists 1%nat. split; [lia|]. econstructor; eauto. constructor.
  - destruct (IH _ _ Epr Hin) as (n & Hn & Ha). exists (S n). split; [lia|].
    econstructor; eauto.
Qed.

(** The rows already visited, all but the current one, have their parents
    among the visited. *)
Definition closed_but d seen (k : uuid) : Prop :=
  k ∈ seen ∧ ∀ x rx p pr, x ∈ seen → x ≠ k → get_role_by_id x d = Some rx →
    parent_role_id rx = Some p → get_role_by_id p d = Some pr → p ∈ seen.

Lemma closed_ancestor d seen n k a :
  (∀ x rx p pr, x ∈ seen → get_role_by_id x d = Some rx →
    parent_role_id rx = Some p → get_role_by_id p d = Some pr → p ∈ seen) →
  ancestor d n k a → k ∈ seen → a ∈ seen.
Proof. intros Hc. induction 1; [done|]. eauto. Qed.

Lemma ancestor_chain fuel seen r d n a :
  get_role_by_id (role_id r) d = Some r → closed_but d seen (role_id r) →
  (n ≤ fuel)%nat → ancestor d n (role_id r) a →
  a ∈ seen ∨ a ∈ role_id <$> parent_chain_from fuel seen r d.
Proof.
  revert seen r n. induction fuel as [|fuel IH]; intros seen r n Hr Hc Hn Ha.
  { assert (n = 0%nat) as -> by lia. inversion Ha; subst. left. apply Hc. }
  inversion Ha as [|m ? r0 p pr ? E1 E2 E3 Ha']; subst; [left; apply Hc|].
  rewrite Hr in E1. apply Some_inj in E1 as <-. simpl. rewrite E2, E3.
  pose proof (get_role_by_id_id _ _ _ E3) as <-. destruct Hc as [Hk Hc].
  case_bool_decide as Hs.
  - left. eapply closed_ancestor; [|exact Ha'|done].
    intros x rx p' pr' Hx Ex Ep Epr. destruct (decide (x = role_id r)) as [->|Hne]; [|eauto].
    rewrite Hr in Ex. apply Some_inj in Ex as <-. rewrite E2 in Ep.
    by apply Some_inj in Ep as <-.
  - destruct (IH (role_id pr :: seen) pr m E3) as [Hin|Hin]; [|lia|done|..].
    + split; [apply list_elem_of_here|]. intros x rx p' pr' Hx Hne Ex Ep Epr.
      apply elem_of_cons in Hx as [->|Hx]; [done|].
      destruct (decide (x = role_id r)) as [->|Hne'].
      * rewrite Hr in Ex. apply Some_inj in Ex as <-. rewrite E2 in Ep.
        apply Some_inj in Ep as <-. apply list_elem_of_here.
      * apply elem_of_cons. right. eauto.
    + rewrite fmap_cons. apply elem_of_cons in Hin as [->|Hin]; [right; apply list_elem_of_here|].
      by left.
    + right. rewrite fmap_cons. by apply elem_of_cons; right.
Qed.

(** A role and its chain are exactly its ancestors up to [n] hops. *)
Lemma parent_chain_spec n k d a :
  a = k ∨ a ∈ role_id <$> get_parent_chain k n d ↔ ∃ m, (m ≤ n)%nat ∧ ancestor d m k a.
Proof.
  unfold get_parent_chain. destruct (get_role_by_id k d) as [r|] eqn:Er.
  - pose proof (get_role_by_id_id _ _ _ Er) as <-. split.
    + intros [->|Hin]; [exists 0%nat; split; [lia|constructor]|]. by eapply chain_ancestor.
    + intros (m & Hm & Ha).
      destruct (ancestor_chain n [role_id r] r d m a) as [Hin|Hin]; try done.
      * split; [apply list_elem_of_here|]. intros x rx p pr Hx Hne _ _ _.
        by apply list_elem_of_singleton in Hx.
      * left. by apply list_elem_of_singleton in Hin.
      * by right.
  - split.
    + intros [->|Hin]; [exists 0%nat; split; [lia|constructor]|by apply not_elem_of_nil in Hin].
    + intros (m & _ & Ha). inversion Ha; subst; [by left|congruence].
Qed.

Lemma role_keys_spec n k d key :
  key ∈ resolve_role_permission_keys n k d ↔
  ∃ m a, (m ≤ n)%nat ∧ ancestor d m k a ∧ key ∈ own_permission_keys a d.
Proof.
  unfold resolve_role_permission_keys. rewrite elem_of_remove_dups, elem_of_app.
  rewrite list_elem_of_bind. split.
  - intros [Hk|(pr & Hk & Hin)].
    + exists 0%nat, k. repeat split; [lia|constructor|done].
    + destruct (proj1 (parent_chain_spec n k d (role_id pr))) as (m & Hm & Ha).
      { right. by apply list_elem_of_fmap_2. }
      by exists m, (role_id pr).
  - intros (m & a & Hm & Ha & Hk).
    destruct (proj2 (parent_chain_spec n k d a)) as [->|Hin]; [by exists m|by left|].
    apply list_elem_of_fmap in Hin as (pr & -> & Hpr). right. by exists pr.
Qed.
End chain.
End Rbac.
