(* ===== verification/Access.v ===== *)
(** The permission check: [AccessValidator] of
    [src/backend/app/domains/rbac/authorization.py] and the cache of
    [cache.py].

    A check reads the caller's effective grants (from the cache when it has
    them), lets one matching deny win over any allow, and on a refusal writes
    an audit row on a connection of its own before it raises. *)

From S2P Require Import Prelude Table Session PyStr Rbac.
Import Scope Rbac.

Module Access.

Inductive error :=
| PermissionDeniedError (k scope_description : pystr)
| CorruptCachePayload
| RoleNotFoundError (k : uuid)
| PermissionNotFoundError (identifier : pystr + uuid)
| UserRoleAssignmentNotFoundError (k : uuid)
| CrossTenantAccessError
| RoleInactiveError (name : pystr)
| InvalidScopeAssignmentError
| RoleEscalationError (k : pystr)
| OverrideEscalationError (k : pystr)
| LastOrganizationOwnerError (org : uuid)
| LastGlobalAdminError
| CircularRoleHierarchyError (role parent : uuid).

(** ** The cached payload

    [json.dumps] followed by [json.loads] is the identity on the values
    below, so the cache holds the values. *)
Inductive json :=
| JNull
| JStr (s : pystr)
| JList (l : list json)
| JDict (fields : list (pystr * json)).

(** [payload[key]] ([KeyError] is [None]) and [payload.get(key)]. *)
Definition field (k : pystr) (j : json) : option json :=
  match j with
  | JDict fs => snd <$> List.find (λ f, bool_decide (fst f = k)) fs
  | _ => None
  end.
Definition as_str (j : json) : option pystr := match j with JStr s => Some s | _ => None end.
Definition str_field (k : pystr) (j : json) : option pystr :=
  match field k j with Some v => as_str v | None => None end.
Definition as_list (j : json) : option (list json) :=
  match j with JList l => Some l | _ => None end.

Definition id_json (o : option uuid) : json :=
  match o with Some k => JStr (uuid_str k) | None => JNull end.

Definition grant_to_json (g : EffectiveGrant) : json :=
  JDict [(u "permission_key", JStr (permission_key g)); (u "effect", JStr (effect g));
         (u "scope_type", JStr (value (scope_type (scope g))));
         (u "organization_id", id_json (grant_organization_id (scope g)));
         (u "location_id", id_json (grant_location_id (scope g)));
         (u "router_id", id_json (grant_router_id (scope g)));
         (u "msp_id", id_json (grant_msp_id (scope g)));
         (u "source", JStr (source g))].

Definition to_json (gs : EffectiveGrants) : json :=
  JDict [(u "allow", JList (map grant_to_json (allow gs)));
         (u "deny", JList (map grant_to_json (deny gs)))].

Section json.
Context `{PyUuid}.

(** [_maybe_uuid]: [None] and [""] give [None]; a bad string raises. *)
Definition maybe_uuid (j : option json) : option (option uuid) :=
  match j with
  | None | Some JNull | Some (JStr []) => Some None
  | Some (JStr s) => Some <$> parse_uuid s
  | Some _ => None
  end.

Definition grant_from_json (j : json) : option EffectiveGrant :=
  k ← str_field (u "permission_key") j;
  e ← str_field (u "effect") j;
  raw ← str_field (u "scope_type") j;
  s ← of_value raw;
  o ← maybe_uuid (field (u "organization_id") j);
  l ← maybe_uuid (field (u "location_id") j);
  r ← maybe_uuid (field (u "router_id") j);
  m ← maybe_uuid (field (u "msp_id") j);
  src ← str_field (u "source") j;
  Some (mk_effective k e (mk_grant s o l r m) src).

Definition items (k : pystr) (j : json) : option (list json) :=
  match field k j with None => Some [] | Some l => as_list l end.

Definition from_json (j : json) : option EffectiveGrants :=
  la ← items (u "allow") j;
  ld ← items (u "deny") j;
  a ← mapM grant_from_json la;
  d ← mapM grant_from_json ld;
  Some (mk_grants a d).

Definition uuids_ok (g : EffectiveGrant) : Prop :=
  ∀ o k, o ∈ [grant_organization_id (scope g); grant_location_id (scope g);
              grant_router_id (scope g); grant_msp_id (scope g)] → o = Some k → is_uuid k.

Lemma maybe_uuid_json o :
  (∀ k, o = Some k → is_uuid k) → maybe_uuid (Some (id_json o)) = Some o.
Proof.
  destruct o as [k|]; [|done]. intros Hk. simpl.
  destruct (uuid_str k) as [|c s] eqn:E.
  { pose proof (uuid_str_length k) as Hl. by rewrite E in Hl. }
  by rewrite <- E, parse_uuid_str by auto.
Qed.

Lemma grant_json_roundtrip g : uuids_ok g → grant_from_json (grant_to_json g) = Some g.
Proof.
  intros Hok. destruct g as [k e [s o l r m] src]. unfold uuids_ok in Hok. simpl in Hok.
  unfold grant_from_json.
  change (field (u "organization_id") (grant_to_json _)) with (Some (id_json o)).
  change (field (u "location_id") (grant_to_json _)) with (Some (id_json l)).
  change (field (u "router_id") (grant_to_json _)) with (Some (id_json r)).
  change (field (u "msp_id") (grant_to_json _)) with (Some (id_json m)).
  rewrite !maybe_uuid_json by (intros ? ->; eapply Hok; [|done]; set_solver).
  change (str_field (u "permission_key") (grant_to_json _)) with (Some k).
  change (str_field (u "effect") (grant_to_json _)) with (Some e).
  change (str_field (u "scope_type") (grant_to_json _)) with (Some (value s)).
  change (str_field (u "source") (grant_to_json _)) with (Some src).
  cbn [mbind option_bind]. by rewrite of_value_value.
Qed.

Lemma grants_json_roundtrip gs :
  Forall uuids_ok (allow gs) → Forall uuids_ok (deny gs) → from_json (to_json gs) = Some gs.
Proof.
  assert (∀ l, Forall uuids_ok l → mapM grant_from_json (map grant_to_json l) = Some l) as Hl.
  { induction 1 as [|g l Hg _ IH]; [done|]. simpl map. cbn [mapM].
      rewrite grant_json_roundtrip by done. cbn [mbind option_bind]. by rewrite IH. }
  intros Ha Hd. unfold from_json.
  change (items (u "allow") _) with (Some (map grant_to_json (allow gs))).
  change (items (u "deny") _) with (Some (map grant_to_json (deny gs))).
  cbn [mbind option_bind]. rewrite !Hl by done. by destruct gs.
Qed.
End json.

(** ** The validator *)

(** Outside of the request's transaction: the Redis cache with each entry's
    expiry, the rows the second connection has committed, and whether that
    connection can be opened. *)
Record services := Services {
  cache : gmap uuid (json * datetime);
  denials : list AuditLogEntry;
  audit_up : bool;
}.
Abbreviation state := (world database services).

Section validator.
Context `{PyUuid}.
(** [PermissionCache(ttl_seconds)], [None] when the service has no cache, and
    [Settings.rbac_max_parent_role_depth]. *)
Variable cache_ttl : option Z.
Variable max_depth : nat.
Implicit Types (w : state) (now : datetime) (user : uuid).

Definition cache_get now user (x : services) : option json :=
  match cache x !! user with
  | Some (payload, deadline) => if now <? deadline then Some payload else None
  | None => None
  end.
Definition cache_set now user (ttl : Z) (payload : json) (x : services) : services :=
  Services (<[user := (payload, now + seconds ttl)]> (cache x)) (denials x) (audit_up x).
Definition cache_delete user (x : services) : services :=
  Services (delete user (cache x)) (denials x) (audit_up x).

(** [_invalidate_users]. *)
Definition invalidate_users (users : list uuid) : M state error unit :=
  match cache_ttl with
  | None => mret tt
  | Some _ => on_ext (modify (λ x, fold_right cache_delete x users))
  end.

Definition get_effective_grants now user : M state error EffectiveGrants :=
  match cache_ttl with
  | None => gets (λ w, resolve max_depth now user (db w))
  | Some ttl =>
      cached ← on_ext (gets (cache_get now user));
      match cached with
      | Some payload => of_option (from_json payload) CorruptCachePayload
      | None =>
          grants ← gets (λ w, resolve max_depth now user (db w));
          _ ← on_ext (modify (cache_set now user ttl (to_json grants)));
          mret grants
      end
  end.

Definition has_permission now user (k : pystr) (s : ScopeType) (c : ScopeContext)
    : M state error bool :=
  grants ← get_effective_grants now user;
  mret (decide_permission grants k s c).

Definition denial user (k : pystr) (desc : pystr) (c : ScopeContext) : AuditLogEntry :=
  mk_audit user PERMISSION_DENIED None
    (u "Permission '" ++ k ++ u "' denied at " ++ desc)
    [(u "permission_key", k); (u "scope", desc)] (organization_id c) (location_id c).

(** [_record_denial_out_of_band]: its own transaction; a failure to open or
    commit it is swallowed. *)
Definition record_denial_out_of_band user (k desc : pystr) (c : ScopeContext)
    : M state error unit :=
  on_ext (modify (λ x,
    if audit_up x then Services (cache x) (denials x ++ [denial user k desc c]) (audit_up x)
    else x)).

Definition check now user (k : pystr) (s : ScopeType) (c : ScopeContext) : M state error unit :=
  allowed ← has_permission now user k s c;
  if (allowed : bool) then mret tt
  else
    let desc := describe_scope s c in
    _ ← record_denial_out_of_band user k desc c;
    raise (PermissionDeniedError k desc).

(** *** What the grants a check uses are *)

(** The grants [get_effective_grants] would return in [w]. *)
Definition effective now user w : option EffectiveGrants :=
  match cache_ttl, cache_get now user (ext w) with
  | Some _, Some payload => from_json payload
  | _, _ => Some (resolve max_depth now user (db w))
  end.

Definition holds now user w (k : pystr) (s : ScopeType) (c : ScopeContext) : bool :=
  match effective now user w with
  | Some gs => decide_permission gs k s c
  | None => false
  end.

(** Reading the grants may fill the cache and changes nothing else. *)
Definition after_read now user w : state :=
  match cache_ttl, cache_get now user (ext w) with
  | Some ttl, None =>
      World (db w) (cache_set now user ttl (to_json (resolve max_depth now user (db w))) (ext w))
  | _, _ => w
  end.

Lemma get_effective_grants_run now user w :
  get_effective_grants now user w =
    (match effective now user w with Some gs => Ok gs | None => Raise CorruptCachePayload end,
     after_read now user w).
Proof.
  unfold get_effective_grants, effective, after_read.
  destruct cache_ttl as [ttl|]; [|by destruct w].
  unfold on_ext. mstep. destruct (cache_get now user (ext w)) as [p|] eqn:E.
  - unfold of_option. destruct (from_json p); by destruct w.
  - done.
Qed.

Lemma has_permission_run now user k s c w :
  has_permission now user k s c w =
    (match effective now user w with
     | Some gs => Ok (decide_permission gs k s c) | None => Raise CorruptCachePayload end,
     after_read now user w).
Proof.
  unfold has_permission. mstep. rewrite get_effective_grants_run.
  by destruct (effective now user w).
Qed.

Lemma after_read_db now user w : db (after_read now user w) = db w.
Proof.
  unfold after_read. destruct cache_ttl; [|done]. by destruct (cache_get _ _ _).
Qed.
Lemma after_read_denials now user w :
  denials (ext (after_read now user w)) = denials (ext w) ∧
  audit_up (ext (after_read now user w)) = audit_up (ext w).
Proof.
  unfold after_read. destruct cache_ttl; [|done]. by destruct (cache_get _ _ _).
Qed.

Lemma check_Ok now user k s c w w' :
  check now user k s c w = (Ok tt, w') ↔
  holds now user w k s c = true ∧ w' = after_read now user w.
Proof.
  unfold check, holds. rewrite bind_Ok. setoid_rewrite has_permission_run.
  destruct (effective now user w) as [gs|].
  2:{ split; [by intros (?&?&?&?)|by intros []]. }
  destruct (decide_permission gs k s c) eqn:E; split.
  - intros (a & w1 & [= <- <-] & Hr). by injection Hr as <-.
  - intros [_ ->]. eauto.
  - intros (a & w1 & [= <- <-] & Hr). discriminate Hr.
  - by intros [].
Qed.

Lemma check_denied now user k s c w gs :
  effective now user w = Some gs → decide_permission gs k s c = false →
  ∃ x, check now user k s c w =
         (Raise (PermissionDeniedError k (describe_scope s c)), World (db w) x)
    ∧ denials x = denials (ext w) ++
        (if audit_up (ext w) then [denial user k (describe_scope s c) c] else []).
Proof.
  intros Hgs Hno. unfold check. pose proof (after_read_db now user w) as Hdb.
  destruct (after_read_denials now user w) as [Hden Hup].
  mstep. rewrite has_permission_run, Hgs, Hno.
  unfold record_denial_out_of_band, on_ext. mstep. rewrite Hdb, Hup.
  destruct (audit_up (ext w)); eexists; (split; [reflexivity|]); simpl; rewrite Hden; [done|].
  by rewrite app_nil_r.
Qed.
End validator.

(** ** What the rows of the database grant *)
Section meaning.
Implicit Types (d : database) (now : datetime) (user : uuid) (k : pystr) (c : ScopeContext).

(** An active assignment of an active role one of whose ancestors, at most
    [n] hops up, carries the permission, at a scope covering the request. *)
Definition granted_by_role (n : nat) d now user k (s : ScopeType) c : Prop :=
  ∃ r ro m a, r ∈ user_roles d ∧ active_user_role now user r = true
    ∧ role_row (ur_role_id r) d = Some ro
    ∧ role_is_active ro = true ∧ role_is_deleted ro = false
    ∧ (m ≤ n)%nat ∧ ancestor d m (role_id ro) a ∧ k ∈ own_permission_keys a d
    ∧ satisfies (grant_scope (mk_active r ro)) s c = true.

Definition override_scope (o : PermissionOverride) : GrantScope :=
  mk_grant (po_scope_type o) (po_organization_id o) (po_location_id o) (po_router_id o) None.

Definition overridden (e : OverrideEffect) d now user k (s : ScopeType) c : Prop :=
  ∃ o p, o ∈ permission_overrides d ∧ active_override now user o = true
    ∧ permission_row (po_permission_id o) d = Some p ∧ perm_is_deleted p = false
    ∧ key p = k ∧ po_effect o = e ∧ satisfies (override_scope o) s c = true.

Lemma elem_of_role_grants n d now user g :
  g ∈ (get_active_assignments now user d ≫= role_grants n d) ↔
  ∃ r ro m a, r ∈ user_roles d ∧ active_user_role now user r = true
    ∧ role_row (ur_role_id r) d = Some ro ∧ role_is_active ro = true
    ∧ role_is_deleted ro = false ∧ (m ≤ n)%nat ∧ ancestor d m (role_id ro) a
    ∧ permission_key g ∈ own_permission_keys a d
    ∧ g = mk_effective (permission_key g) (u "allow") (grant_scope (mk_active r ro))
            (u "role:" ++ uuid_str (role_id ro)).
Proof.
  rewrite list_elem_of_bind. unfold get_active_assignments.
  unfold pair_with_role, role_grants. split.
  - intros (a & (k & -> & Hk)%list_elem_of_fmap & (r & Hr & Hp)%list_elem_of_omap).
    apply elem_of_select in Hr as [Hr Hact].
    destruct (role_row _ _) as [ro|] eqn:Ero; [|done].
    destruct (role_is_active ro && negb (role_is_deleted ro)) eqn:Eact; [|done].
    apply Some_inj in Hp as <-. bools.
    apply role_keys_spec in Hk as (m & anc & Hm & Ha & Hk). by exists r, ro, m, anc.
  - intros (r & ro & m & anc & Hr & Hact & Ero & E1 & E2 & Hm & Ha & Hk & Hg).
    exists (mk_active r ro). split.
    + apply list_elem_of_fmap. exists (permission_key g). split; [exact Hg|].
      apply role_keys_spec. by exists m, anc.
    + apply list_elem_of_omap. exists r. split; [by apply elem_of_select|].
      by rewrite Ero, E1, E2.
Qed.

Lemma elem_of_override_grants d now user g :
  g ∈ omap (override_grant d) (get_active_overrides_for_user now user d) ↔
  ∃ o p, o ∈ permission_overrides d ∧ active_override now user o = true
    ∧ permission_row (po_permission_id o) d = Some p ∧ perm_is_deleted p = false
    ∧ g = mk_effective (key p) (effect_value (po_effect o)) (override_scope o) (u "override").
Proof.
  rewrite list_elem_of_omap. unfold override_grant, override_scope. split.
  - intros (o & Ho & Hg). apply elem_of_select in Ho as [Ho Hact].
    destruct (permission_row _ _) as [p|] eqn:Ep; [|done].
    destruct (perm_is_deleted p) eqn:Edel; [done|]. apply Some_inj in Hg as <-. by exists o, p.
  - intros (o & p & Ho & Hact & Ep & Edel & ->). exists o. split; [by apply elem_of_select|].
    by rewrite Ep, Edel.
Qed.

Lemma is_deny_effect k e sc src :
  is_deny (mk_effective k (effect_value e) sc src) = bool_decide (e = DENY).
Proof. by destruct e. Qed.

Lemma existsb_elem {A} (f : A → bool) l : existsb f l = true ↔ ∃ x, x ∈ l ∧ f x = true.
Proof. rewrite existsb_exists. by setoid_rewrite list_elem_of_In. Qed.

Lemma denied_iff n d now user k s c :
  existsb (grant_applies k s c) (deny (resolve n now user d)) = true ↔
  overridden DENY d now user k s c.
Proof.
  rewrite existsb_elem. unfold resolve, overridden, grant_applies. simpl. split.
  - intros (g & Hg & Hap). apply list_elem_of_In, filter_In in Hg as [Hg Hd].
    apply list_elem_of_In, elem_of_override_grants in Hg as (o & p & ? & ? & ? & ? & ->).
    rewrite is_deny_effect in Hd. bools. simpl in *. by exists o, p.
  - intros (o & p & Ho & Hact & Ep & Edel & Hk & He & Hs).
    exists (mk_effective (key p) (effect_value (po_effect o)) (override_scope o) (u "override")).
    split.
    + apply list_elem_of_In, filter_In. rewrite is_deny_effect, He. split; [|done].
      apply list_elem_of_In, elem_of_override_grants. exists o, p. by rewrite He.
    + simpl. by rewrite bool_decide_true.
Qed.

Lemma allowed_iff n d now user k s c :
  existsb (grant_applies k s c) (allow (resolve n now user d)) = true ↔
  granted_by_role n d now user k s c ∨ overridden ALLOW d now user k s c.
Proof.
  rewrite existsb_elem. unfold resolve, granted_by_role, overridden, grant_applies. simpl. split.
  - intros (g & Hg & Hap). apply elem_of_app in Hg as [Hg|Hg].
    + apply elem_of_role_grants in Hg as (r & ro & m & a & ? & ? & ? & ? & ? & ? & ? & ? & Hg).
      left. rewrite Hg in Hap. bools. simpl in *. exists r, ro, m, a. by subst k.
    + apply list_elem_of_In, filter_In in Hg as [Hg Hd].
      apply list_elem_of_In, elem_of_override_grants in Hg as (o & p & ? & ? & ? & ? & ->).
      rewrite is_deny_effect in Hd. bools. simpl in *. right. exists o, p.
      destruct (po_effect o) eqn:?; naive_solver.
  - intros [(r & ro & m & a & Hr & Hact & Ero & E1 & E2 & Hm & Ha & Hk & Hs)
           |(o & p & Ho & Hact & Ep & Edel & Hk & He & Hs)].
    + exists (mk_effective k (u "allow") (grant_scope (mk_active r ro))
                (u "role:" ++ uuid_str (role_id ro))). split.
      * apply elem_of_app. left. apply elem_of_role_grants. by exists r, ro, m, a.
      * simpl. by rewrite bool_decide_true.
    + exists (mk_effective (key p) (effect_value (po_effect o)) (override_scope o) (u "override")).
      split; [|simpl; by rewrite bool_decide_true].
      apply elem_of_app. right. apply list_elem_of_In, filter_In.
      rewrite is_deny_effect, He. split; [|done].
      apply list_elem_of_In, elem_of_override_grants. exists o, p. by rewrite He.
Qed.

Lemma decide_iff n d now user k s c :
  decide_permission (resolve n now user d) k s c = true ↔
  (granted_by_role n d now user k s c ∨ overridden ALLOW d now user k s c)
  ∧ ¬ overridden DENY d now user k s c.
Proof.
  unfold decide_permission. rewrite <- (allowed_iff n), <- (denied_iff n).
  destruct (existsb _ (deny _)); [naive_solver|]. by destruct (existsb _ (allow _)); naive_solver.
Qed.
End meaning.

(** ** Repeated reads

    Several checks in one call read the grants again; the answers agree
    because the payload round-trips. *)
Section reads.
Context `{PyUuid}.
Variable cache_ttl : option Z.
Variable max_depth : nat.
Implicit Types (w : state) (now : datetime) (user : uuid).
Abbreviation after_read := (after_read cache_ttl max_depth).
Abbreviation effective := (effective cache_ttl max_depth).
Abbreviation holds := (holds cache_ttl max_depth).

Definition grants_ok (gs : EffectiveGrants) : Prop :=
  Forall uuids_ok (allow gs) ∧ Forall uuids_ok (deny gs).

(** The grants in use are cached already, or survive being cached. *)
Definition readable now user w : Prop :=
  is_Some (cache_get now user (ext w)) ∨ grants_ok (resolve max_depth now user (db w)).

Lemma after_read_miss now user w :
  cache_get now user (ext (after_read now user w)) = cache_get now user (ext w) ∨
  cache_get now user (ext w) = None ∧
  cache_get now user (ext (after_read now user w))
    = Some (to_json (resolve max_depth now user (db w))).
Proof.
  unfold Access.after_read. destruct cache_ttl as [ttl|]; [|by left].
  destruct (cache_get now user (ext w)) eqn:E; [by left; rewrite E|]. simpl.
  unfold cache_get, cache_set. simpl. rewrite lookup_insert, decide_True by done.
  destruct (now <? _); [by right|by left].
Qed.

Lemma effective_after_read now user w :
  readable now user w → effective now user (after_read now user w) = effective now user w.
Proof.
  intros Hr. unfold Access.effective. rewrite after_read_db.
  destruct cache_ttl as [ttl|] eqn:Ettl; [|done]. rewrite <- Ettl.
  destruct (after_read_miss now user w) as [->|[Hn ->]]; [done|]. rewrite Hn.
  destruct Hr as [[? Hs]|[? ?]]; [congruence|]. by apply grants_json_roundtrip.
Qed.

Lemma readable_after_read now user w :
  readable now user w → readable now user (after_read now user w).
Proof.
  unfold readable. rewrite after_read_db. intros [Hr|Hr]; [|by right].
  destruct (after_read_miss now user w) as [->|[Hn _]]; [by left|].
  rewrite Hn in Hr. by destruct Hr.
Qed.

Lemma after_read_serves ttl t1 t2 user w d2 :
  cache_ttl = Some ttl → cache_get t1 user (ext w) = None →
  grants_ok (resolve max_depth t1 user (db w)) →
  effective t2 user (World d2 (ext (after_read t1 user w))) =
    Some (if t2 <? t1 + seconds ttl
          then resolve max_depth t1 user (db w) else resolve max_depth t2 user d2).
Proof.
  intros Httl Hmiss [Ha Hd]. unfold Access.effective, Access.after_read. rewrite Httl, Hmiss.
  simpl. unfold cache_get, cache_set. simpl. rewrite lookup_insert, decide_True by done.
  destruct (t2 <? _); [|done]. by rewrite grants_json_roundtrip.
Qed.

Lemma after_read_idem now user w :
  after_read now user (after_read now user w) = after_read now user w.
Proof.
  unfold Access.after_read. destruct cache_ttl as [ttl|]; [|done].
  destruct (cache_get now user (ext w)) eqn:E; [by rewrite E|]. simpl.
  destruct (cache_get now user (cache_set _ _ _ _ _)); [done|].
  unfold cache_set. simpl. by rewrite insert_insert, decide_True by done.
Qed.

Lemma holds_after_read now user w k s c :
  readable now user w → holds now user (after_read now user w) k s c = holds now user w k s c.
Proof. intros Hr. unfold Access.holds. by rewrite effective_after_read. Qed.

Lemma has_permission_Ok now user k s c w b w' :
  has_permission cache_ttl max_depth now user k s c w = (Ok b, w') →
  b = holds now user w k s c ∧ w' = after_read now user w.
Proof.
  rewrite has_permission_run. unfold Access.holds.
  destruct (effective now user w) eqn:E; [|done]. by intros [= <- <-].
Qed.

Lemma has_permission_true now user k s c w :
  holds now user w k s c = true →
  has_permission cache_ttl max_depth now user k s c w = (Ok true, after_read now user w).
Proof.
  rewrite has_permission_run. unfold Access.holds. destruct (effective now user w); [|done].
  by intros ->.
Qed.

Lemma holds_uncached now user k s c w :
  cache_ttl = None ∨ cache_get now user (ext w) = None →
  holds now user w k s c = decide_permission (resolve max_depth now user (db w)) k s c.
Proof.
  unfold Access.holds, Access.effective. intros [Hu|Hu]; rewrite Hu; [done|].
  by destruct cache_ttl.
Qed.
End reads.

(** ** Properties of the check *)
Section properties.
Context `{PyUuid}.
Variable cache_ttl : option Z.
Variable max_depth : nat.
Implicit Types (w : state) (now : datetime) (user : uuid) (k : pystr) (c : ScopeContext).

(** No cached entry is used for this user at this time. *)
Definition uncached now user w : Prop :=
  cache_ttl = None ∨ cache_get now user (ext w) = None.

Lemma effective_uncached now user w :
  uncached now user w →
  effective cache_ttl max_depth now user w = Some (resolve max_depth now user (db w)).
Proof.
  unfold effective. intros [Hu|Hu]; rewrite Hu; [done|]. by destruct cache_ttl.
Qed.

(** C6: the meaning of a permission check.  On a cache miss [has_permission]
    answers yes exactly when some live, unexpired assignment of an active
    role (or of a role inheriting from the one that carries the permission,
    at most [max_depth] hops up) or an ALLOW override covers the requested
    scope, and no live DENY override covers it. *)
Theorem permission_iff now user k (s : ScopeType) c w :
  uncached now user w →
  ∃ b, (has_permission cache_ttl max_depth now user k s c w).1 = Ok b ∧
    (b = true ↔
      (granted_by_role max_depth (db w) now user k s c
       ∨ overridden ALLOW (db w) now user k s c)
      ∧ ¬ overridden DENY (db w) now user k s c).
Proof.
  intros Hu. rewrite has_permission_run, effective_uncached by done. eexists. split; [done|].
  apply decide_iff.
Qed.

(** A refusal leaves a trace.  Whatever the handler does next, a request
    whose check fails is answered with [PermissionDeniedError], changes
    nothing in the database of its own transaction, and its audit row stays
    although that transaction is rolled back, provided the second connection
    can be opened; if it cannot, the answer is the same. *)
Theorem denial_survives_rollback {A} now user k (s : ScopeType) c
    (rest : M state error A) w gs :
  effective cache_ttl max_depth now user w = Some gs →
  decide_permission gs k s c = false →
  let desc := describe_scope s c in
  let '(o, w') := get_db_session (_ ← check cache_ttl max_depth now user k s c; rest) w in
  o = Raise (PermissionDeniedError k desc)
  ∧ db w' = db w
  ∧ denials (ext w') = denials (ext w) ++
      (if audit_up (ext w) then [denial user k desc c] else []).
Proof.
  intros Hgs Hno desc.
  destruct (check_denied cache_ttl max_depth now user k s c w gs Hgs Hno) as (x & Hc & Hx).
  unfold get_db_session. mstep. rewrite Hc. simpl. by rewrite Hx.
Qed.

(** How stale a cached decision can be.  After a check at [t1] filled the
    cache, whatever has happened to the database since, a check before the
    entry's expiry uses the grants as they were at [t1], read back from the
    JSON payload unchanged; from the expiry on, the grants are those of the
    database at hand. *)
Theorem cache_serves_snapshot_until_expiry ttl t1 t2 user k (s : ScopeType) c w d2 :
  cache_ttl = Some ttl →
  cache_get t1 user (ext w) = None →
  Forall uuids_ok (allow (resolve max_depth t1 user (db w))) →
  Forall uuids_ok (deny (resolve max_depth t1 user (db w))) →
  let w1 := (has_permission cache_ttl max_depth t1 user k s c w).2 in
  effective cache_ttl max_depth t2 user (World d2 (ext w1)) =
    Some (if t2 <? t1 + seconds ttl
          then resolve max_depth t1 user (db w)
          else resolve max_depth t2 user d2).
Proof.
  intros Httl Hmiss Ha Hd w1. subst w1. rewrite has_permission_run. simpl.
  by apply after_read_serves.
Qed.
End properties.

(** ** A small estate

    Role 10 ("staff") carries permission "guests.read" (20); role 11
    ("manager") inherits from it and carries "guests.delete" (21).  User 1
    manages location 200 of organization 100; user 2 is staff of the
    organization, with a DENY override at location 201. *)
Module examples.
#[local] Existing Instance canonical_uuid.

Definition staff : Role :=
  mk_role 10 (u "Staff") (u "staff") true false true ORGANIZATION None None false.
Definition manager : Role :=
  mk_role 11 (u "Manager") (u "manager") true false true LOCATION None (Some 10%positive) false.
Definition at_location (k user ro org loc : uuid) : UserRole :=
  mk_user_role k user ro LOCATION None (Some org) (Some loc) None 0 None None true false.
Definition at_organization (k user ro org : uuid) : UserRole :=
  mk_user_role k user ro ORGANIZATION None (Some org) None None 0 None None true false.
Definition estate : database :=
  Database [staff; manager]
    [at_location 30 1 11 100 200; at_organization 31 2 10 100]
    [mk_permission 20 (u "guests.read") true false;
     mk_permission 21 (u "guests.delete") true false]
    [mk_role_permission 40 10 20 false; mk_role_permission 41 11 21 false]
    [] []
    [mk_override 50 2 20 DENY LOCATION (Some 100%positive) (Some 201%positive) None 0 None None
       true false]
    [] [].
Definition idle : services := Services ∅ [] true.
Definition w0 : state := World estate idle.
Definition here : ScopeContext := mk_context (Some 100%positive) (Some 200%positive) None None.
Definition there : ScopeContext := mk_context (Some 100%positive) (Some 201%positive) None None.
Definition allowed now user k s c w : outcome error bool :=
  (has_permission (Some 300) 10 now user k s c w).1.

(** The manager reads guests by inheritance at her own site only; the staff
    account reads them everywhere but at the site it is denied. *)
Example manager_here : allowed 5 1 (u "guests.read") LOCATION here w0 = Ok true.
Proof. by vm_compute. Qed.
Example manager_there : allowed 5 1 (u "guests.read") LOCATION there w0 = Ok false.
Proof. by vm_compute. Qed.
Example staff_here : allowed 5 2 (u "guests.read") LOCATION here w0 = Ok true.
Proof. by vm_compute. Qed.
Example staff_there : allowed 5 2 (u "guests.read") LOCATION there w0 = Ok false.
Proof. by vm_compute. Qed.

Lemma permission_iff_witness : ∃ b,
  (has_permission (Some 300) 10 5 1 (u "guests.read") LOCATION here w0).1 = Ok b ∧
  (b = true ↔
    (granted_by_role 10 (db w0) 5 1 (u "guests.read") LOCATION here
     ∨ overridden ALLOW (db w0) 5 1 (u "guests.read") LOCATION here)
    ∧ ¬ overridden DENY (db w0) 5 1 (u "guests.read") LOCATION here).
Proof. apply permission_iff. right. by vm_compute. Defined.

Lemma denial_survives_rollback_witness :
  let desc := describe_scope LOCATION there in
  let '(o, w') := get_db_session (A:=unit)
    (_ ← check (Some 300) 10 5 1 (u "guests.delete") LOCATION there;
     on_db (modify (λ _, Database [] [] [] [] [] [] [] [] []))) w0 in
  o = Raise (PermissionDeniedError (u "guests.delete") desc)
  ∧ db w' = db w0
  ∧ denials (ext w') = denials (ext w0) ++
      (if audit_up (ext w0) then [denial 1 (u "guests.delete") desc there] else []).
Proof.
  apply (denial_survives_rollback (Some 300) 10 5 1 (u "guests.delete") LOCATION there
    (on_db (modify (λ _, Database [] [] [] [] [] [] [] [] []))) w0 (resolve 10 5 1 estate));
    by vm_compute.
Defined.

Lemma cache_serves_snapshot_until_expiry_witness :
  let w1 := (has_permission (Some 300) 10 5 1 (u "guests.read") LOCATION here w0).2 in
  effective (Some 300) 10 6 1 (World (Database [] [] [] [] [] [] [] [] []) (ext w1)) =
    Some (if 6 <? 5 + seconds 300 then resolve 10 5 1 (db w0)
          else resolve 10 6 1 (Database [] [] [] [] [] [] [] [] [])).
Proof.
  apply (cache_serves_snapshot_until_expiry (Some 300) 10 300 5 6 1 (u "guests.read") LOCATION
    here w0 (Database [] [] [] [] [] [] [] [] [])); [done|by vm_compute|..].
  - repeat constructor; intros o k Ho ->; repeat (apply elem_of_cons in Ho as [Ho|Ho];
      [first [discriminate Ho|injection Ho as ->; by vm_compute]|]); by apply not_elem_of_nil in Ho.
  - assert (deny (resolve 10 5 1 (db w0)) = []) as Hd by by vm_compute. rewrite Hd. constructor.
Defined.
End examples.
End Access.
