(* ===== verification/RbacService.v ===== *)
(** Handing out and taking back authority: the assignment and override
    operations of [src/backend/app/domains/rbac/service.py], with their guards
    against escalation, cross-tenant access, ownerless organizations and
    circular inheritance. *)

From S2P Require Import Prelude Table Session PyStr Rbac Access.
Import Scope Rbac Access.

Module RbacService.

Definition ROLE_ASSIGN_PERMISSION : pystr := u "roles.assign".
Definition PERMISSION_OVERRIDE_ASSIGN_PERMISSION : pystr := u "permissions.assign".
Definition PERMISSION_MANAGE_BYPASS_PERMISSION : pystr := u "permissions.manage".
Definition ORGANIZATION_OWNER_ROLE_SLUG : pystr := u "organization-owner".
Definition SUPER_ADMIN_ROLE_SLUG : pystr := u "super-admin".

(** ** Row writes *)
Definition set_user_roles (f : list UserRole → list UserRole) (d : database) : database :=
  Database (roles d) (f (user_roles d)) (permissions d) (role_permissions d) (role_scopes d)
    (permission_scopes d) (permission_overrides d) (organization_roles d) (audit_log_entries d).
Definition set_overrides (f : list PermissionOverride → list PermissionOverride)
    (d : database) : database :=
  Database (roles d) (user_roles d) (permissions d) (role_permissions d) (role_scopes d)
    (permission_scopes d) (f (permission_overrides d)) (organization_roles d)
    (audit_log_entries d).
Definition add_audit (e : AuditLogEntry) (d : database) : database :=
  Database (roles d) (user_roles d) (permissions d) (role_permissions d) (role_scopes d)
    (permission_scopes d) (permission_overrides d) (organization_roles d)
    (audit_log_entries d ++ [e]).

Definition deactivated (r : UserRole) : UserRole :=
  mk_user_role (ur_id r) (ur_user_id r) (ur_role_id r) (ur_scope_type r) (ur_msp_id r)
    (ur_organization_id r) (ur_location_id r) (ur_router_id r) (ur_granted_at r)
    (ur_granted_by r) (ur_expires_at r) false (ur_is_deleted r).
Definition deactivated_override (o : PermissionOverride) : PermissionOverride :=
  mk_override (po_id o) (po_user_id o) (po_permission_id o) (po_effect o) (po_scope_type o)
    (po_organization_id o) (po_location_id o) (po_router_id o) (po_granted_at o)
    (po_granted_by o) (po_expires_at o) false (po_is_deleted o).

Section service.
Context `{PyUuid}.
Variable cache_ttl : option Z.
Variable max_depth : nat.
Abbreviation invalidate_users := (Access.invalidate_users cache_ttl).
Abbreviation check := (Access.check cache_ttl max_depth).
Abbreviation has_permission := (Access.has_permission cache_ttl max_depth).
Implicit Types (w : state) (now : datetime) (user : uuid).

Definition create_user_role (r : UserRole) : M state error unit :=
  on_db (modify (set_user_roles (insert_row r))).
Definition deactivate_user_role (k : uuid) : M state error unit :=
  on_db (modify (set_user_roles (set_row deactivated k))).
Definition audit (e : AuditLogEntry) : M state error unit := on_db (modify (add_audit e)).

(** ** Reading a role as one tenant *)

(** [a is not None and b is not None and a != b]. *)
Definition other_tenant (a b : option uuid) : bool :=
  match a, b with Some x, Some y => negb (bool_decide (x = y)) | _, _ => false end.

(** [_enforce_role_tenant_access]. *)
Definition enforce_role_tenant_access (r : Role) (requesting : option uuid) : M state error unit :=
  match role_organization_id r with
  | None => mret tt
  | Some org => raise_if (negb (bool_decide (requesting = Some org))) CrossTenantAccessError
  end.

(** [_hidden_shared_role_ids]. *)
Definition hidden_shared_role_ids (org : uuid) (d : database) : list uuid :=
  or_role_id <$> List.filter (λ o, negb (or_is_enabled o)) (list_organization_roles org d).

Definition get_role (k : uuid) (requesting : option uuid) : M state error Role :=
  found ← gets (λ w, get_role_by_id k (db w));
  r ← of_option found (RoleNotFoundError k);
  _ ← enforce_role_tenant_access r requesting;
  hidden ← gets (λ w,
    match requesting, role_organization_id r with
    | Some org, None => bool_decide (role_id r ∈ hidden_shared_role_ids org (db w))
    | _, _ => false
    end);
  _ ← raise_if hidden (RoleNotFoundError k);
  mret r.

(** [_assert_no_cycle]. *)
Definition CYCLE_DEPTH : nat := 50.
Definition closes_cycle (k parent : uuid) (d : database) : bool :=
  bool_decide (parent = k)
  || existsb (λ a, bool_decide (role_id a = k)) (get_parent_chain parent CYCLE_DEPTH d).
Definition assert_no_cycle (k parent : uuid) : M state error unit :=
  c ← gets (λ w, closes_cycle k parent (db w));
  raise_if c (CircularRoleHierarchyError k parent).

(** ** Guards of an assignment *)

(** [_validate_scope_assignment]. *)
Definition required_id (s : ScopeType) (org loc router : option uuid) : option (option uuid) :=
  match s with
  | ORGANIZATION => Some org | LOCATION => Some loc | ROUTER => Some router
  | _ => None
  end.
Definition valid_scope_assignment (r : Role) (s : ScopeType) (org loc router : option uuid)
    (d : database) : bool :=
  bool_decide (s ∈ role_scope_type r :: get_role_scope_types (role_id r) d)
  && negb (bool_decide (required_id s org loc router = Some None)).

(** [_assert_no_role_escalation]: the loop over the role's keys. *)
Fixpoint holds_all now (actor : uuid) (s : ScopeType) (c : ScopeContext) (ks : list pystr)
    : M state error unit :=
  match ks with
  | [] => mret tt
  | k :: ks =>
      has_it ← has_permission now actor k s c;
      if (has_it : bool) then holds_all now actor s c ks else raise (RoleEscalationError k)
  end.
Definition assert_no_role_escalation now (actor : uuid) (r : Role) (s : ScopeType)
    (c : ScopeContext) : M state error unit :=
  ks ← gets (λ w, resolve_role_permission_keys max_depth (role_id r) (db w));
  holds_all now actor s c ks.

(** [assign_role_to_user]. *)
Definition assign_role_to_user now (new_id actor target k : uuid) (s : ScopeType)
    (requesting org loc router : option uuid) (expires_at : option datetime)
    : M state error UserRole :=
  r ← get_role k requesting;
  _ ← raise_if (negb (role_is_active r)) (RoleInactiveError (name r));
  _ ← raise_if (other_tenant org requesting) CrossTenantAccessError;
  valid ← gets (λ w, valid_scope_assignment r s org loc router (db w));
  _ ← raise_if (negb valid) InvalidScopeAssignmentError;
  let c := mk_context org loc router None in
  _ ← check now actor ROLE_ASSIGN_PERMISSION s c;
  _ ← assert_no_role_escalation now actor r s c;
  let row := mk_user_role new_id target (role_id r) s None org loc router now (Some actor)
               expires_at true false in
  _ ← create_user_role row;
  _ ← invalidate_users [target];
  _ ← audit (mk_audit actor ROLE_ASSIGNED (Some new_id)
        (u "Role '" ++ name r ++ u "' assigned to user " ++ uuid_str target)
        [(u "target_user_id", uuid_str target); (u "role_id", uuid_str (role_id r))] org loc);
  mret row.

(** ** Guards of a revocation *)

(** [_assert_not_last_organization_owner] and [_assert_not_last_global_admin]:
    the condition under which each raises. *)
Definition last_organization_owner (r : UserRole) (d : database) : option uuid :=
  match ur_organization_id r with
  | Some org =>
      if negb (ur_is_active r) then None
      else match get_role_by_id (ur_role_id r) d with
           | None => None
           | Some ro =>
               if negb (bool_decide (slug ro = ORGANIZATION_OWNER_ROLE_SLUG)) then None
               else if count_active_role_assignments_in_organization (ur_role_id r) org (ur_id r) d
                       =? 0
               then Some org else None
           end
  | None => None
  end.
Definition last_global_admin (r : UserRole) (d : database) : bool :=
  match ur_organization_id r with
  | Some _ => false
  | None =>
      if negb (ur_is_active r) then false
      else if negb (bool_decide (ur_scope_type r = GLOBAL)) then false
      else match get_role_by_id (ur_role_id r) d with
           | None => false
           | Some ro =>
               if negb (bool_decide (slug ro = SUPER_ADMIN_ROLE_SLUG)) then false
               else count_active_global_role_assignments (ur_role_id r) (ur_id r) d =? 0
           end
  end.

(** [revoke_role_from_user]. *)
Definition revoke_role_from_user (actor assignment_id : uuid) (requesting : option uuid)
    : M state error unit :=
  found ← gets (λ w, get_user_role_assignment assignment_id (db w));
  r ← of_option found (UserRoleAssignmentNotFoundError assignment_id);
  _ ← raise_if (other_tenant (ur_organization_id r) requesting) CrossTenantAccessError;
  owner ← gets (λ w, last_organization_owner r (db w));
  _ ← match owner with
      | Some org => raise (LastOrganizationOwnerError org)
      | None => mret tt
      end;
  admin ← gets (λ w, last_global_admin r (db w));
  _ ← raise_if admin LastGlobalAdminError;
  _ ← deactivate_user_role (ur_id r);
  _ ← invalidate_users [ur_user_id r];
  audit (mk_audit actor ROLE_REVOKED (Some (ur_id r))
    (u "Role assignment " ++ uuid_str (ur_id r) ++ u " revoked")
    [(u "target_user_id", uuid_str (ur_user_id r))] (ur_organization_id r) (ur_location_id r)).

(** ** Overrides *)

(** [grant_permission_override]. *)
Definition grant_permission_override now (new_id actor target : uuid) (k : pystr)
    (e : OverrideEffect) (s : ScopeType) (org loc router : option uuid)
    (expires_at : option datetime) : M state error PermissionOverride :=
  found ← gets (λ w, get_permission_by_key k (db w));
  p ← of_option found (PermissionNotFoundError (inl k));
  let c := mk_context org loc router None in
  _ ← check now actor PERMISSION_OVERRIDE_ASSIGN_PERMISSION s c;
  _ ← (if bool_decide (e = ALLOW) then
         has_it ← has_permission now actor k s c;
         bypass ← has_permission now actor PERMISSION_MANAGE_BYPASS_PERMISSION GLOBAL global_scope;
         raise_if (negb has_it && negb bypass) (OverrideEscalationError k)
       else mret tt);
  let row := mk_override new_id target (perm_id p) e s org loc router now (Some actor)
               expires_at true false in
  _ ← on_db (modify (set_overrides (insert_row row)));
  _ ← invalidate_users [target];
  _ ← audit (mk_audit actor PERMISSION_OVERRIDE_GRANTED (Some new_id)
        (u "Permission override (" ++ effect_value e ++ u ") for '" ++ k
          ++ u "' granted to user " ++ uuid_str target)
        [(u "target_user_id", uuid_str target); (u "permission_key", k)] org loc);
  mret row.

(** [revoke_permission_override]. *)
Definition revoke_permission_override now (actor override_id : uuid) : M state error unit :=
  found ← gets (λ w, get_permission_override_by_id override_id (db w));
  o ← of_option found (PermissionNotFoundError (inr override_id));
  _ ← check now actor PERMISSION_OVERRIDE_ASSIGN_PERMISSION (po_scope_type o)
        (mk_context (po_organization_id o) (po_location_id o) (po_router_id o) None);
  _ ← on_db (modify (set_overrides (set_row deactivated_override (po_id o))));
  _ ← invalidate_users [po_user_id o];
  audit (mk_audit actor PERMISSION_OVERRIDE_REVOKED (Some (po_id o))
    (u "Permission override " ++ uuid_str (po_id o) ++ u " revoked") []
    (po_organization_id o) (po_location_id o)).

(** ** Running the operations *)
Abbreviation holds := (Access.holds cache_ttl max_depth).
Abbreviation after_read := (Access.after_read cache_ttl max_depth).
Abbreviation readable := (Access.readable max_depth).

Lemma holds_all_run now actor s c ks w :
  readable now actor w → after_read now actor w = w →
  Forall (λ k, holds now actor w k s c = true) ks →
  holds_all now actor s c ks w = (Ok tt, w).
Proof.
  intros Hr Hw. induction 1 as [|k ks Hk _ IH]; [done|]. simpl. mstep.
  rewrite has_permission_true, Hw by done. apply IH.
Qed.

Lemma holds_all_Ok now actor s c ks w w' :
  readable now actor w → after_read now actor w = w →
  holds_all now actor s c ks w = (Ok tt, w') →
  Forall (λ k, holds now actor w k s c = true) ks ∧ w' = w.
Proof.
  intros Hr Hw. induction ks as [|k ks IH]; simpl; [by intros [= <-]|].
  intros (b & w1 & Hb & Hrun)%bind_Ok.
  apply has_permission_Ok in Hb as [-> ->]. rewrite Hw in Hrun.
  destruct (holds now actor w k s c) eqn:E; [|done].
  destruct (IH Hrun) as [Hks ->]. by split; [constructor|].
Qed.

(** The role [get_role] returns to this tenant. *)
Definition visible_role (k : uuid) (requesting : option uuid) (d : database) (r : Role) : Prop :=
  get_role_by_id k d = Some r
  ∧ (∀ org, role_organization_id r = Some org → requesting = Some org)
  ∧ (∀ org, requesting = Some org → role_organization_id r = None →
       role_id r ∉ hidden_shared_role_ids org d).

Lemma get_role_Ok k requesting w r w' :
  get_role k requesting w = (Ok r, w') ↔ visible_role k requesting (db w) r ∧ w' = w.
Proof.
  unfold get_role, visible_role, enforce_role_tenant_access, raise_if, of_option. mstep.
  destruct (get_role_by_id k (db w)) as [r0|]; [|by split; [|intros [(? & _) _]]].
  destruct (role_organization_id r0) as [org|] eqn:Eo.
  - case_bool_decide as Hreq; simpl.
    + split.
      * intros Hx. assert (r = r0 ∧ w' = w) as [-> ->] by (destruct requesting; by inversion Hx).
        split_and!; naive_solver.
      * intros [(Hr & _ & _) ->]. apply Some_inj in Hr as <-. by destruct requesting.
    + split; [done|]. intros [(Hr & Ho & _) _]. apply Some_inj in Hr as <-.
      by destruct Hreq; apply Ho.
  - destruct requesting as [org|]; simpl.
    + case_bool_decide as Hh; simpl.
      * split; [done|]. intros [(Hr & _ & Hn) _]. apply Some_inj in Hr as <-. by destruct (Hn org).
      * split; [intros Hx; inversion Hx; subst; split_and!; naive_solver|].
        intros [(Hr & _ & _) ->]. by apply Some_inj in Hr as <-.
    + split; [intros Hx; inversion Hx; subst; split_and!; naive_solver|].
      intros [(Hr & _ & _) ->]. by apply Some_inj in Hr as <-.
Qed.

(** The row, and the state, a successful assignment leaves. *)
Definition assigned_row now (new_id actor target : uuid) (r : Role) (s : ScopeType)
    (org loc router : option uuid) (expires_at : option datetime) : UserRole :=
  mk_user_role new_id target (role_id r) s None org loc router now (Some actor) expires_at
    true false.
Definition invalidated (users : list uuid) (x : services) : services :=
  match cache_ttl with None => x | Some _ => fold_right cache_delete x users end.
Definition assignment_audit (new_id actor target : uuid) (r : Role) (org loc : option uuid)
    : AuditLogEntry :=
  mk_audit actor ROLE_ASSIGNED (Some new_id)
    (u "Role '" ++ name r ++ u "' assigned to user " ++ uuid_str target)
    [(u "target_user_id", uuid_str target); (u "role_id", uuid_str (role_id r))] org loc.

Lemma invalidate_users_run users w :
  invalidate_users users w = (Ok tt, World (db w) (invalidated users (ext w))).
Proof.
  unfold Access.invalidate_users, invalidated, on_ext. by destruct cache_ttl, w; mstep.
Qed.

(** What [assign_role_to_user] demands of the actor and of the request. *)
Definition may_assign now (actor : uuid) (r : Role) (s : ScopeType)
    (requesting org loc router : option uuid) w : Prop :=
  role_is_active r = true
  ∧ other_tenant org requesting = false
  ∧ valid_scope_assignment r s org loc router (db w) = true
  ∧ holds now actor w ROLE_ASSIGN_PERMISSION s (mk_context org loc router None) = true
  ∧ Forall (λ k, holds now actor w k s (mk_context org loc router None) = true)
      (resolve_role_permission_keys max_depth (role_id r) (db w)).

Lemma assign_Ok now new_id actor target k s requesting org loc router expires_at w row w' :
  readable now actor w →
  assign_role_to_user now new_id actor target k s requesting org loc router expires_at w
    = (Ok row, w') ↔
  ∃ r, visible_role k requesting (db w) r ∧ may_assign now actor r s requesting org loc router w
    ∧ row = assigned_row now new_id actor target r s org loc router expires_at
    ∧ w' = World (add_audit (assignment_audit new_id actor target r org loc)
                   (set_user_roles (insert_row row) (db w)))
             (invalidated [target] (ext (after_read now actor w))).
Proof.
  intros Hread. unfold may_assign, assign_role_to_user.
  rewrite bind_Ok. setoid_rewrite get_role_Ok. split.
  - intros (r & w0 & [Hvis ->] & Hrun). exists r.
    apply bind_Ok in Hrun as ([] & w1 & H1 & Hrun).
    destruct (role_is_active r); [|done]. injection H1 as <-.
    apply bind_Ok in Hrun as ([] & w1 & H1 & Hrun).
    destruct (other_tenant org requesting); [done|]. injection H1 as <-.
    apply bind_Ok in Hrun as (v & w1 & H1 & Hrun). injection H1 as <- <-.
    apply bind_Ok in Hrun as ([] & w1 & H1 & Hrun).
    destruct (valid_scope_assignment r s org loc router (db w)) eqn:Hv; [|done].
    injection H1 as <-. cbv zeta in Hrun.
    apply bind_Ok in Hrun as ([] & w1 & H1 & Hrun). apply check_Ok in H1 as [Hck ->].
    apply bind_Ok in Hrun as ([] & w1 & H1 & Hrun).
    unfold assert_no_role_escalation in H1.
    apply bind_Ok in H1 as (ks & w2 & [= <- <-] & H1). rewrite after_read_db in H1.
    apply holds_all_Ok in H1 as [Hks ->];
      [|by apply readable_after_read|by apply after_read_idem].
    unfold audit, create_user_role, on_db in Hrun. mstep. rewrite invalidate_users_run in Hrun.
    simpl in Hrun. injection Hrun as <- <-. simpl. rewrite after_read_db. split_and!; try done.
    eapply Forall_impl; [exact Hks|]. intros key Hk. simpl in *.
    by rewrite holds_after_read in Hk.
  - intros (r & Hvis & (Ha & Ho & Hv & Hck & Hks) & -> & ->).
    exists r, w. split; [done|]. unfold raise_if at 1. rewrite Ha, Ho. simpl. mstep. rewrite Hv. simpl.
    assert (check now actor ROLE_ASSIGN_PERMISSION s (mk_context org loc router None) w
            = (Ok tt, after_read now actor w)) as -> by by apply check_Ok.
    unfold assert_no_role_escalation. mstep. rewrite after_read_db, holds_all_run.
    + unfold audit, create_user_role, on_db. mstep. rewrite invalidate_users_run.
      simpl. by rewrite after_read_db.
    + by apply readable_after_read.
    + apply after_read_idem.
    + eapply Forall_impl; [exact Hks|]. intros key Hk. simpl in *. by rewrite holds_after_read.
Qed.

Lemma revoke_Ok actor k requesting w w' :
  revoke_role_from_user actor k requesting w = (Ok tt, w') ↔
  ∃ r, get_user_role_assignment k (db w) = Some r
    ∧ other_tenant (ur_organization_id r) requesting = false
    ∧ last_organization_owner r (db w) = None ∧ last_global_admin r (db w) = false
    ∧ w' = World (add_audit (mk_audit actor ROLE_REVOKED (Some (ur_id r))
                     (u "Role assignment " ++ uuid_str (ur_id r) ++ u " revoked")
                     [(u "target_user_id", uuid_str (ur_user_id r))]
                     (ur_organization_id r) (ur_location_id r))
                   (set_user_roles (set_row deactivated (ur_id r)) (db w)))
             (invalidated [ur_user_id r] (ext w)).
Proof.
  unfold revoke_role_from_user, of_option, raise_if, audit, deactivate_user_role, on_db.
  mstep. destruct (get_user_role_assignment k (db w)) as [r|];
    [|by split; [|intros (? & ? & _)]].
  destruct (other_tenant (ur_organization_id r) requesting) eqn:E1;
    [split; [done|intros (r' & Hr & E & _); apply Some_inj in Hr as <-; congruence]|].
  destruct (last_organization_owner r (db w)) eqn:E2;
    [split; [done|intros (r' & Hr & _ & E & _); apply Some_inj in Hr as <-; congruence]|].
  destruct (last_global_admin r (db w)) eqn:E3;
    [split; [done|intros (r' & Hr & _ & _ & E & _); apply Some_inj in Hr as <-; congruence]|].
  rewrite invalidate_users_run. simpl. split.
  - intros Hx. inversion Hx. by exists r.
  - by intros (r' & Hr & _ & _ & _ & ->); apply Some_inj in Hr as <-.
Qed.

Lemma get_assignment_in k d r :
  get_user_role_assignment k d = Some r →
  r ∈ user_roles d ∧ ur_id r = k ∧ ur_is_deleted r = false.
Proof.
  intros [Hin Hk]%select_one_Some. apply andb_true_iff in Hk as [Hk Hd].
  apply negb_true_iff in Hd. by apply bool_decide_eq_true in Hk.
Qed.

(** ** Properties *)

(** C30: nobody hands out more than they hold.  If [assign_role_to_user]
    returns, the actor held [roles.assign] and every permission the role
    carries, its own and its inherited ones, at the scope requested; exactly
    one row was added, for the target, at that scope; and the target's cached
    grants are gone. *)
Theorem assignment_within_authority now new_id actor target k s requesting org loc router
    expires_at w row w' :
  readable now actor w →
  assign_role_to_user now new_id actor target k s requesting org loc router expires_at w
    = (Ok row, w') →
  let c := mk_context org loc router None in
  holds now actor w ROLE_ASSIGN_PERMISSION s c = true
  ∧ (∀ m a key, (m ≤ max_depth)%nat → ancestor (db w) m (ur_role_id row) a →
       key ∈ own_permission_keys a (db w) → holds now actor w key s c = true)
  ∧ user_roles (db w') = user_roles (db w) ++ [row]
  ∧ ur_user_id row = target ∧ ur_scope_type row = s ∧ ur_organization_id row = org
  ∧ ur_location_id row = loc ∧ ur_router_id row = router ∧ ur_expires_at row = expires_at
  ∧ (∀ t, cache_ttl ≠ None → cache_get t target (ext w') = None).
Proof.
  intros Hr Hrun c. apply assign_Ok in Hrun; [|done].
  destruct Hrun as (r & _ & (_ & _ & _ & Hck & Hks) & -> & ->). split_and!; try done.
  - intros m a key Hm Ha Hk. rewrite Forall_forall in Hks. apply Hks.
    apply role_keys_spec. by exists m, a.
  - intros t Ht. unfold invalidated. destruct cache_ttl; [|done].
    unfold cache_get, cache_delete. simpl. by rewrite lookup_delete, decide_True.
Qed.

(** All the actor needs for a permission at any location of [org]: a GLOBAL
    or ORGANIZATION allow and no deny of that key. *)
Definition org_wide (gs : EffectiveGrants) (org : uuid) (k : pystr) : Prop :=
  (∃ g, g ∈ allow gs ∧ permission_key g = k
     ∧ (scope_type (scope g) = GLOBAL
        ∨ scope_type (scope g) = ORGANIZATION ∧ grant_organization_id (scope g) = Some org))
  ∧ ∀ g, g ∈ deny gs → permission_key g ≠ k.

Lemma org_wide_decides gs org k loc :
  org_wide gs org k →
  decide_permission gs k LOCATION (mk_context (Some org) loc None None) = true.
Proof.
  intros [(g & Hg & Hk & Hs) Hd]. unfold decide_permission.
  destruct (existsb _ (deny gs)) eqn:E.
  { apply existsb_elem in E as (g' & Hg' & Hap). apply andb_true_iff in Hap as [Hap _].
    apply bool_decide_eq_true in Hap. by destruct (Hd g'). }
  apply existsb_elem. exists g. split; [done|]. unfold grant_applies.
  rewrite bool_decide_true by done. apply satisfies_spec. unfold grant_matches. simpl.
  destruct Hs as [Hs|[Hs Ho]]; rewrite Hs; simpl; [by split; [left|]|].
  split; [right; lia|]. by exists org.
Qed.

(** the location an assignment names is never compared with the
    organization it names.  An actor whose authority covers organization
    [org] can assign a role at LOCATION scope naming [org] and any location
    [l] whatever; afterwards the target passes checks at LOCATION scope in
    every context that names [l], whichever organization [l] belongs to. *)
Theorem assignment_ignores_containment now new_id actor target k requesting org l w gs r :
  readable now actor w → effective cache_ttl max_depth now actor w = Some gs →
  keyed (roles (db w)) →
  visible_role k requesting (db w) r → role_is_active r = true →
  LOCATION ∈ role_scope_type r :: get_role_scope_types (role_id r) (db w) →
  other_tenant (Some org) requesting = false →
  org_wide gs org ROLE_ASSIGN_PERMISSION →
  Forall (org_wide gs org) (resolve_role_permission_keys max_depth (role_id r) (db w)) →
  ∃ row w',
    assign_role_to_user now new_id actor target k LOCATION requesting (Some org) (Some l) None
      None w = (Ok row, w')
    ∧ ∀ t owner key,
        key ∈ resolve_role_permission_keys max_depth (role_id r) (db w) →
        ¬ overridden DENY (db w) t target key LOCATION (mk_context owner (Some l) None None) →
        cache_ttl = None ∨ cache_get t target (ext w') = None →
        holds t target w' key LOCATION (mk_context owner (Some l) None None) = true.
Proof.
  intros Hread Hgs Hkeyed Hvis Hact Hscope Hten Hassign Hkeys.
  assert (∀ key, org_wide gs org key →
    holds now actor w key LOCATION (mk_context (Some org) (Some l) None None) = true) as Hh.
  { intros key Hk. unfold Access.holds. rewrite Hgs. by apply org_wide_decides. }
  eexists _, _. split.
  { apply assign_Ok; [done|]. exists r. split_and!; try done.
    - unfold may_assign. split_and!; auto.
      + unfold valid_scope_assignment. by rewrite bool_decide_true.
      + eapply Forall_impl; [exact Hkeys|]. auto. }
  intros t owner key Hkey Hno Hunc. rewrite holds_uncached by done.
  apply decide_iff. split; [|exact Hno]. left.
  apply role_keys_spec in Hkey as (m & a & Hm & Ha & Hk).
  destruct Hvis as [Hget _]. pose proof (get_role_by_id_id _ _ _ Hget) as Hid.
  apply select_one_Some in Hget as [Hin Hsel]. apply andb_true_iff in Hsel as [_ Hdel].
  apply negb_true_iff in Hdel.
  exists (assigned_row now new_id actor target r LOCATION (Some org) (Some l) None None), r, m, a.
  split_and!; try done.
  - simpl. apply elem_of_app. right. apply list_elem_of_here.
  - unfold active_user_role. simpl. by rewrite bool_decide_true.
  - by apply by_id_unique.
  - clear -Ha. induction Ha; [constructor|]. econstructor; eauto.
  - apply satisfies_spec. split; [right; simpl; lia|by exists l].
Qed.

Lemma elem_of_deactivated k t x :
  x ∈ set_row deactivated k t ↔ ∃ x0, x0 ∈ t ∧ x = if has_id k x0 then deactivated x0 else x0.
Proof. apply elem_of_update. Qed.

(** An assignment active after a deactivation is an active one of before, not
    the deactivated one. *)
Lemma active_after_deactivation now user k d e a :
  a ∈ get_active_assignments now user (add_audit e (set_user_roles (set_row deactivated k) d)) →
  assignment a ∈ user_roles d ∧ ur_id (assignment a) ≠ k
  ∧ active_user_role now user (assignment a) = true.
Proof.
  intros Ha. apply list_elem_of_omap in Ha as (r & Hr & Hp).
  apply elem_of_select in Hr as [Hr Hact]. simpl in Hr.
  assert (assignment a = r) as ->.
  { unfold pair_with_role in Hp. destruct (role_row _ _) as [ro|]; [|done].
    destruct (_ && _); [|done]. by apply Some_inj in Hp as <-. }
  apply elem_of_deactivated in Hr as (r0 & Hr0 & ->). unfold has_id in *.
  case_bool_decide as Hk; [|done]. unfold active_user_role in Hact. simpl in Hact.
  by rewrite andb_false_r in Hact.
Qed.

(** An organization keeps an owner row.  When an active owner assignment
    of organization [org] is revoked successfully, another assignment of that
    role in [org], active and not deleted, is still there. *)
Theorem revoke_keeps_an_owner_row actor k requesting w w' r org ro :
  revoke_role_from_user actor k requesting w = (Ok tt, w') →
  get_user_role_assignment k (db w) = Some r →
  ur_organization_id r = Some org → ur_is_active r = true →
  get_role_by_id (ur_role_id r) (db w) = Some ro → slug ro = ORGANIZATION_OWNER_ROLE_SLUG →
  ∃ r2, r2 ∈ user_roles (db w') ∧ ur_id r2 ≠ k
    ∧ counted_in_organization (ur_role_id r) org r2 = true.
Proof.
  intros Hrun Hr Horg Hact Hro Hslug.
  apply revoke_Ok in Hrun as (r' & Hr' & _ & Hown & _ & ->). rewrite Hr in Hr'.
  apply Some_inj in Hr' as <-. destruct (get_assignment_in _ _ _ Hr) as (_ & Hid & _).
  unfold last_organization_owner in Hown. rewrite Horg, Hact, Hro, Hslug in Hown. simpl in Hown.
  destruct (Z.eqb_spec (count_active_role_assignments_in_organization (ur_role_id r) org (ur_id r)
    (db w)) 0) as [|Hne]; [done|].
  unfold count_active_role_assignments_in_organization, rowcount in Hne.
  destruct (select _ (user_roles (db w))) as [|r2 l] eqn:E; [done|].
  assert (r2 ∈ r2 :: l) as Hin by apply list_elem_of_here. rewrite <- E in Hin.
  apply elem_of_select in Hin as [Hin Hp]. apply andb_true_iff in Hp as [Hc Hp].
  apply negb_true_iff in Hp. exists r2. split_and!; [|rewrite <- Hid|done].
  - simpl. apply elem_of_deactivated. exists r2. by rewrite Hp.
  - unfold has_id in Hp. by apply bool_decide_eq_false in Hp.
Qed.

(** But that row may grant nothing.  The guard counts assignments whose
    [expires_at] has passed, which every permission check ignores: if the
    other owner rows have all expired, revoking the one live owner succeeds
    and nobody holds an effective owner assignment of [org] any more. *)
Theorem last_effective_owner_can_be_revoked now actor k requesting w r org :
  get_user_role_assignment k (db w) = Some r → ur_organization_id r = Some org →
  other_tenant (Some org) requesting = false →
  0 < count_active_role_assignments_in_organization (ur_role_id r) org (ur_id r) (db w) →
  (∀ r2, r2 ∈ user_roles (db w) → ur_id r2 ≠ k → ur_role_id r2 = ur_role_id r →
     ur_organization_id r2 = Some org → unexpired now (ur_expires_at r2) = false) →
  ∃ w', revoke_role_from_user actor k requesting w = (Ok tt, w')
    ∧ ∀ user a, a ∈ get_active_assignments now user (db w') →
        ur_organization_id (assignment a) = Some org → ur_role_id (assignment a) ≠ ur_role_id r.
Proof.
  intros Hr Horg Hten Hcount Hexp. destruct (get_assignment_in _ _ _ Hr) as (_ & Hid & _).
  eexists. split.
  { apply revoke_Ok. exists r. rewrite Horg. split_and!; try done.
    - unfold last_organization_owner. rewrite Horg. destruct (ur_is_active r); [|done]. simpl.
      destruct (get_role_by_id _ _) as [ro|]; [|done].
      destruct (bool_decide (slug ro = _)); [|done]. simpl.
      by rewrite (proj2 (Z.eqb_neq _ 0)) by lia.
    - unfold last_global_admin. by rewrite Horg. }
  intros user a Ha Ho Heq. apply active_after_deactivation in Ha as (Hin & Hk & Hact).
  unfold active_user_role in Hact. apply andb_true_iff in Hact as [_ Hact].
  rewrite (Hexp (assignment a)) in Hact; congruence.
Qed.

(** a tenant can take away a platform role.  The cross-tenant check of
    [revoke_role_from_user] is skipped when the assignment names no
    organization, so a caller acting for any organization deactivates any
    GLOBAL assignment it can name, the last super-admin's excepted. *)
Theorem tenant_revokes_platform_assignment now actor k tenant w r :
  get_user_role_assignment k (db w) = Some r →
  ur_scope_type r = GLOBAL → ur_organization_id r = None →
  last_global_admin r (db w) = false →
  ∃ w', revoke_role_from_user actor k (Some tenant) w = (Ok tt, w')
    ∧ ∀ a, a ∈ get_active_assignments now (ur_user_id r) (db w') → ur_id (assignment a) ≠ k.
Proof.
  intros Hr Hs Horg Hlast. destruct (get_assignment_in _ _ _ Hr) as (_ & Hid & _).
  eexists. split.
  { apply revoke_Ok. exists r. rewrite Horg. split_and!; try done.
    unfold last_organization_owner. by rewrite Horg. }
  intros a Ha. apply active_after_deactivation in Ha as (_ & Hk & _). by rewrite Hid in Hk.
Qed.

(** revocation can lose a race with a reader.  The revoking request
    deletes the cached grants before it commits.  A check by the same user in
    between still sees the old rows and caches them again, so after the
    commit, and until that entry expires, the user's effective grants are
    those from before the revocation. *)
Theorem revocation_race_keeps_grants ttl actor k requesting w wA r t t2 key s c :
  cache_ttl = Some ttl →
  revoke_role_from_user actor k requesting w = (Ok tt, wA) →
  get_user_role_assignment k (db w) = Some r →
  grants_ok (resolve max_depth t (ur_user_id r) (db w)) →
  t2 < t + seconds ttl →
  let before_commit : state := World (db w) (ext wA) in
  let reader := (has_permission t (ur_user_id r) key s c before_commit).2 in
  let after_commit : state := World (db wA) (ext reader) in
  effective cache_ttl max_depth t2 (ur_user_id r) after_commit =
    Some (resolve max_depth t (ur_user_id r) (db w)).
Proof.
  intros Httl Hrun Hr Hok Ht before_commit reader after_commit.
  subst after_commit reader. rewrite has_permission_run. cbn [snd].
  assert (cache_get t (ur_user_id r) (ext before_commit) = None) as Hmiss.
  { subst before_commit. apply revoke_Ok in Hrun as (r' & Hr' & _ & _ & _ & ->).
    rewrite Hr in Hr'. apply Some_inj in Hr' as <-. unfold invalidated. rewrite Httl.
    unfold cache_get, cache_delete. simpl. by rewrite lookup_delete, decide_True. }
  rewrite (after_read_serves cache_ttl max_depth ttl) by done. simpl.
  by rewrite (proj2 (Z.ltb_lt _ _) Ht).
Qed.
End service.

(** ** A town with two organizations

    Users 3 and 4 own organization 100, the second until time 50 only; user 5
    holds a platform role.  Role 10 ("staff") may be assigned at a location. *)
Module examples.
#[local] Existing Instance canonical_uuid.
Import Access.examples.

Definition owner : Role :=
  mk_role 12 (u "Organization Owner") (u "organization-owner") true false true ORGANIZATION None
    None false.
Definition platform : Role :=
  mk_role 13 (u "Platform Support") (u "platform-support") true false true GLOBAL None None false.
Definition owner_row (k user : uuid) (e : option datetime) : UserRole :=
  mk_user_role k user 12 ORGANIZATION None (Some 100%positive) None None 0 None e true false.
Definition platform_row : UserRole :=
  mk_user_role 62 5 13 GLOBAL None None None None 0 None None true false.
Definition town : database :=
  Database [staff; owner; platform]
    [owner_row 60 3 None; owner_row 61 4 (Some 50); platform_row]
    [mk_permission 20 (u "guests.read") true false;
     mk_permission 22 (u "roles.assign") true false]
    [mk_role_permission 40 10 20 false; mk_role_permission 41 12 20 false;
     mk_role_permission 42 12 22 false; mk_role_permission 43 13 20 false]
    [mk_scope_row 10 LOCATION] [] [] [] [].
Definition w1 : state := World town idle.
Definition ttl : option Z := Some 300.
(** User 3 makes user 6 staff at location 999. *)
Definition hire : outcome error UserRole * state :=
  assign_role_to_user ttl 10 100 70 3 6 10 LOCATION (Some 100%positive) (Some 100%positive)
    (Some 999%positive) None None w1.
Definition hired : UserRole :=
  assigned_row 100 70 3 6 staff LOCATION (Some 100%positive) (Some 999%positive) None None.

(** The grants of a user all of whose ids are small. *)
Lemma small_uuids (g : EffectiveGrant) :
  forallb (λ o, match o with Some k => (Npos k <? 2 ^ 128)%N | None => true end)
    [grant_organization_id (scope g); grant_location_id (scope g); grant_router_id (scope g);
     grant_msp_id (scope g)] = true → uuids_ok g.
Proof.
  intros Hf o k Ho ->. rewrite forallb_forall in Hf. apply list_elem_of_In in Ho.
  by apply N.ltb_lt, (Hf _ Ho).
Qed.
Lemma small_grants (gs : EffectiveGrants) :
  forallb (λ g, forallb (λ o, match o with Some k => (Npos k <? 2 ^ 128)%N | None => true end)
    [grant_organization_id (scope g); grant_location_id (scope g); grant_router_id (scope g);
     grant_msp_id (scope g)]) (allow gs ++ deny gs) = true → grants_ok gs.
Proof.
  rewrite forallb_forall. intros Hf.
  split; apply Forall_forall; intros g Hg; apply small_uuids, Hf, in_or_app;
    [left|right]; by apply list_elem_of_In.
Qed.
Lemma town_readable now user :
  grants_ok (resolve 10 now user town) → readable 10 now user w1.
Proof. by right. Qed.

Lemma assignment_within_authority_witness :
  let c := mk_context (Some 100%positive) (Some 999%positive) None None in
  Access.holds ttl 10 100 3 w1 ROLE_ASSIGN_PERMISSION LOCATION c = true
  ∧ (∀ m a key, (m ≤ 10)%nat → ancestor town m (ur_role_id hired) a →
       key ∈ own_permission_keys a town → Access.holds ttl 10 100 3 w1 key LOCATION c = true)
  ∧ user_roles (db hire.2) = user_roles town ++ [hired]
  ∧ ur_user_id hired = 6%positive ∧ ur_scope_type hired = LOCATION
  ∧ ur_organization_id hired = Some 100%positive
  ∧ ur_location_id hired = Some 999%positive ∧ ur_router_id hired = None
  ∧ ur_expires_at hired = None
  ∧ (∀ t, ttl ≠ None → cache_get t 6 (ext hire.2) = None).
Proof.
  apply (assignment_within_authority ttl 10 100 70 3 6 10 LOCATION (Some 100%positive)
    (Some 100%positive) (Some 999%positive) None None w1 hired hire.2).
  - apply town_readable, small_grants. by vm_compute.
  - by vm_compute.
Defined.

Lemma assignment_ignores_containment_witness : ∃ row w',
  assign_role_to_user ttl 10 100 70 3 6 10 LOCATION (Some 100%positive) (Some 100%positive)
    (Some 999%positive) None None w1 = (Ok row, w')
  ∧ ∀ t owner key,
      key ∈ resolve_role_permission_keys 10 10 town →
      ¬ overridden DENY town t 6 key LOCATION (mk_context owner (Some 999%positive) None None) →
      ttl = None ∨ cache_get t 6 (ext w') = None →
      Access.holds ttl 10 t 6 w' key LOCATION (mk_context owner (Some 999%positive) None None) = true.
Proof.
  apply (assignment_ignores_containment ttl 10 100 70 3 6 10 (Some 100%positive) 100 999 w1
    (resolve 10 100 3 town) staff).
  - apply town_readable, small_grants. by vm_compute.
  - by vm_compute.
  - by apply (bool_decide_unpack _); vm_compute.
  - split_and!; [by vm_compute|by intros org|]. intros org [= <-] _. by apply not_elem_of_nil.
  - done.
  - by apply (bool_decide_unpack _); vm_compute.
  - done.
  - assert (deny (resolve 10 100 3 town) = []) as Hd by by vm_compute. split.
    + exists (mk_effective (u "roles.assign") (u "allow")
        (mk_grant ORGANIZATION (Some 100%positive) None None None) (u "role:" ++ uuid_str 12)).
      split_and!; [by apply (bool_decide_unpack _); vm_compute|done|by right].
    + rewrite Hd. by intros g ?%not_elem_of_nil.
  - assert (resolve_role_permission_keys 10 (role_id staff) (db w1) = [u "guests.read"]) as Hk
      by by vm_compute. rewrite Hk. constructor; [|constructor].
    assert (deny (resolve 10 100 3 town) = []) as Hd by by vm_compute. split.
    + exists (mk_effective (u "guests.read") (u "allow")
        (mk_grant ORGANIZATION (Some 100%positive) None None None) (u "role:" ++ uuid_str 12)).
      split_and!; [by apply (bool_decide_unpack _); vm_compute|done|by right].
    + rewrite Hd. by intros g ?%not_elem_of_nil.
Defined.

(** User 3 leaves: the expired row of user 4 is what the guard accepts. *)
Definition leave : outcome error unit * state :=
  revoke_role_from_user ttl 3 60 (Some 100%positive) w1.

Lemma revoke_keeps_an_owner_row_witness : ∃ r2, r2 ∈ user_roles (db leave.2) ∧ ur_id r2 ≠ 60%positive
  ∧ counted_in_organization 12 100 r2 = true.
Proof.
  apply (revoke_keeps_an_owner_row ttl 3 60 (Some 100%positive) w1 leave.2 (owner_row 60 3 None)
    100 owner); try by vm_compute.
Defined.

Lemma last_effective_owner_can_be_revoked_witness : ∃ w',
  revoke_role_from_user ttl 3 60 (Some 100%positive) w1 = (Ok tt, w')
  ∧ ∀ user a, a ∈ get_active_assignments 100 user (db w') →
      ur_organization_id (assignment a) = Some 100%positive → ur_role_id (assignment a) ≠ 12%positive.
Proof.
  apply (last_effective_owner_can_be_revoked ttl 100 3 60 (Some 100%positive) w1
    (owner_row 60 3 None) 100); try by vm_compute.
  intros r2 Hr2 Hid Hro _. simpl in Hr2.
  repeat (apply elem_of_cons in Hr2 as [->|Hr2]; [by vm_compute in Hid, Hro|]).
  by apply not_elem_of_nil in Hr2.
Defined.

Lemma tenant_revokes_platform_assignment_witness : ∃ w',
  revoke_role_from_user ttl 3 62 (Some 100%positive) w1 = (Ok tt, w')
  ∧ ∀ a, a ∈ get_active_assignments 100 5 (db w') → ur_id (assignment a) ≠ 62%positive.
Proof.
  apply (tenant_revokes_platform_assignment ttl 100 3 62 100 w1 platform_row); by vm_compute.
Defined.

Lemma revocation_race_keeps_grants_witness :
  let before_commit : state := World town (ext leave.2) in
  let reader := (has_permission ttl 10 101 3 (u "guests.read") ORGANIZATION
                   (mk_context (Some 100%positive) None None None) before_commit).2 in
  let after_commit : state := World (db leave.2) (ext reader) in
  effective ttl 10 102 3 after_commit = Some (resolve 10 101 3 town).
Proof.
  apply (revocation_race_keeps_grants ttl 10 300 3 60 (Some 100%positive) w1 leave.2
    (owner_row 60 3 None) 101 102 (u "guests.read") ORGANIZATION
    (mk_context (Some 100%positive) None None None));
    [done|by vm_compute|by vm_compute|apply small_grants|]; by vm_compute.
Defined.
End examples.
End RbacService.
