(* ===== verification/Tenancy.v ===== *)
(** Which tenant and which site a request is about, and who may act there:
    [src/backend/app/domains/rbac/dependencies.py], [scope_params.py],
    [organization_scope.py] and [location_scope.py], with the filters of
    [src/backend/app/database/utils/filters.py]. *)

From S2P Require Import Prelude Table Session PyStr Rbac Access.
Import Scope Rbac Access.

Module Tenancy.

(** ** The request, as far as the dependencies read it *)

(** A path parameter FastAPI has converted already, or a string. *)
Inductive param := PUuid (k : uuid) | PStr (s : pystr).

Record request := Request {
  header_organization : option pystr;   (* X-Organization-Id *)
  header_location : option pystr;       (* X-Location-Id *)
  header_router : option pystr;         (* X-Router-Id *)
  header_scope : option pystr;          (* X-Organization-Scope *)
  path_params : list (pystr * option param);
  query_params : list (pystr * option param);
  query_scope : option pystr;           (* ?organization_scope= *)
}.

Inductive error :=
| Denied (e : Access.error)
| InvalidScopeHeaderError (header : pystr)
| MissingScopeContextError (what : pystr)
| UnspecifiedOrganizationScopeError
| CrossOrganizationScopeDeniedError
| SingleOrganizationRequiredError
| OrganizationNotFoundError (k : uuid)
| OrganizationMembershipRequiredError (k : uuid)
| LocationNotFoundError (k : uuid)
| LocationOrganizationMismatchError (k org : uuid)
| OrganizationScopeValueError.

(** ** The rows consulted *)
Record Organization := mk_organization { organization_row_id : uuid; organization_deleted : bool }.
#[export] Instance organization_has_id : HasId Organization := organization_row_id.
Record OrganizationMember := mk_member {
  member_organization : uuid; member_user : uuid; member_active : bool; member_deleted : bool }.
Record Location := mk_location {
  location_row_id : uuid; location_organization : uuid; location_deleted : bool }.
#[export] Instance location_has_id : HasId Location := location_row_id.
Record Router := mk_router {
  router_row_id : uuid; router_location : option uuid; router_organization : option uuid }.
#[export] Instance router_has_id : HasId Router := router_row_id.

Record estate := Estate {
  rbac : database;
  organizations : list Organization;
  members : list OrganizationMember;
  locations : list Location;
  routers : list Router;
}.

(** ** [scope_params.py] *)
Inductive ScopeDimension := DIM_ORGANIZATION | DIM_LOCATION | DIM_ROUTER.
#[export] Instance dimension_eq_dec : EqDecision ScopeDimension.
Proof. solve_decision. Defined.

Definition SCOPE_PARAM_ALIASES : list (pystr * ScopeDimension) :=
  [(u "organization_id", DIM_ORGANIZATION); (u "customer_id", DIM_ORGANIZATION);
   (u "failed_payments_organization_id", DIM_ORGANIZATION);
   (u "location_id", DIM_LOCATION); (u "router_id", DIM_ROUTER)].
Definition scope_dimension_for (name : pystr) : option ScopeDimension :=
  snd <$> List.find (λ a, bool_decide (fst a = name)) SCOPE_PARAM_ALIASES.

Section dependencies.
Context `{PyUuid, PyUnicode}.
Variable cache_ttl : option Z.
Variable max_depth : nat.
Implicit Types (r : request) (e : estate) (user : uuid) (now : datetime).

(** [_parse_uuid_header]. *)
Definition parse_uuid_header (name : pystr) (raw : option pystr) : outcome error (option uuid) :=
  match raw with
  | None | Some [] => Ok None
  | Some s => match parse_uuid s with
              | Some k => Ok (Some k)
              | None => Raise (InvalidScopeHeaderError name)
              end
  end.

(** [_named_scope_ids]: path parameters before query parameters, the first
    readable one of each dimension. *)
Definition param_uuid (p : param) : option uuid :=
  match p with PUuid k => Some k | PStr s => parse_uuid s end.
Definition param_for (d : ScopeDimension) (item : pystr * option param) : option uuid :=
  match scope_dimension_for (fst item), snd item with
  | Some d', Some p => if bool_decide (d' = d) then param_uuid p else None
  | _, _ => None
  end.
Definition named_scope_id (d : ScopeDimension) r : option uuid :=
  head (omap (param_for d) (path_params r ++ query_params r)).

(** [named.get(d) or _parse_uuid_header(...)]. *)
Definition named_or_header (d : ScopeDimension) (name : pystr) (raw : option pystr) r
    : outcome error (option uuid) :=
  match named_scope_id d r with
  | Some k => Ok (Some k)
  | None => parse_uuid_header name raw
  end.
Definition requested_organization_id r : outcome error (option uuid) :=
  named_or_header DIM_ORGANIZATION (u "X-Organization-Id") (header_organization r) r.

(** [_router_owner] and [_location_owner]. *)
Definition router_owner e (k : uuid) : option (option uuid * option uuid) :=
  (λ x, (router_location x, router_organization x)) <$> by_id k (routers e).
Definition location_owner e (k : uuid) : option uuid :=
  location_organization <$> by_id k (locations e).

(** The last step of [_current_scope_context]: the target named by the
    request decides the broader dimensions. *)
Definition contained e (org loc router : option uuid) : ScopeContext :=
  match router with
  | Some k =>
      match router_owner e k with
      | Some (loc', org') => mk_context org' loc' router None
      | None => mk_context org loc router None
      end
  | None =>
      match loc with
      | Some l =>
          match location_owner e l with
          | Some org' => mk_context (Some org') loc router None
          | None => mk_context org loc router None
          end
      | None => mk_context org loc router None
      end
  end.

(** [_current_scope_context]. *)
Definition current_scope_context e r : outcome error ScopeContext :=
  match named_or_header DIM_ORGANIZATION (u "X-Organization-Id") (header_organization r) r with
  | Raise x => Raise x
  | Ok org =>
      match named_or_header DIM_LOCATION (u "X-Location-Id") (header_location r) r with
      | Raise x => Raise x
      | Ok loc =>
          match named_or_header DIM_ROUTER (u "X-Router-Id") (header_router r) r with
          | Raise x => Raise x
          | Ok router => Ok (contained e org loc router)
          end
      end
  end.

Abbreviation state := (world estate services).
Definition on_rbac {A} (m : M (world database services) Access.error A) : M state error A :=
  λ w, let '(o, w') := m (World (rbac (db w)) (ext w)) in
       (match o with Ok a => Ok a | Raise x => Raise (Denied x) end,
        World (Estate (db w') (organizations (db w)) (members (db w)) (locations (db w))
                 (routers (db w))) (ext w')).

(** [RequirePermission(key, scope=...)]. *)
Definition require_permission now user (k : pystr) (s : option ScopeType) r : M state error unit :=
  λ w, match current_scope_context (db w) r with
       | Raise x => (Raise x, w)
       | Ok c =>
           let resolved := match s with Some s => s | None => infer_scope_type c end in
           on_rbac (check cache_ttl max_depth now user k resolved c) w
       end.

(** [RequireScope]. *)
Definition require_scope e (s : ScopeType) r : outcome error ScopeContext :=
  match current_scope_context e r with
  | Raise x => Raise x
  | Ok c =>
      match s, organization_id c, location_id c, router_id c with
      | ORGANIZATION, None, _, _ => Raise (MissingScopeContextError (u "organization"))
      | LOCATION, _, None, _ => Raise (MissingScopeContextError (u "location"))
      | ROUTER, _, _, None => Raise (MissingScopeContextError (u "router"))
      | _, _, _, _ => Ok c
      end
  end.

(** [RequireRole]: the roles held, in the request's context when a scope is
    asked for. *)
Definition holds_role now user (slug_or_id : pystr) (scoped : bool) e r : outcome error bool :=
  let search ctx := Ok (existsb (λ ro, bool_decide (slug ro = slug_or_id)
                                      || bool_decide (uuid_str (role_id ro) = slug_or_id))
                          (get_active_roles now user ctx (rbac e))) in
  if scoped then match current_scope_context e r with
                 | Raise x => Raise x
                 | Ok c => search (Some c)
                 end
  else search None.

(** ** [organization_scope.py] *)
Record OrganizationScope := mk_scope { scope_organization_id : option uuid; all_organizations : bool }.

(** [__post_init__]. *)
Definition organization_scope (org : option uuid) (all : bool) : outcome error OrganizationScope :=
  match all, org with
  | true, Some _ | false, None => Raise OrganizationScopeValueError
  | _, _ => Ok (mk_scope org all)
  end.

Definition wants_all_organizations (header query : option pystr) : bool :=
  let asks raw := match raw with
                  | None => false
                  | Some s => bool_decide (casefold (strip s) = u "all")
                  end in
  asks header || asks query.

(** [CurrentOrganizationScope]. *)
Definition holds_global_role now user e : bool :=
  existsb (λ a, bool_decide (role_scope_type (role a) = GLOBAL))
    (get_active_assignments now user (rbac e)).
Definition live_organization (k : uuid) (o : Organization) : bool :=
  has_id k o && negb (organization_deleted o).
Definition active_membership (org user : uuid) (m : OrganizationMember) : bool :=
  bool_decide (member_organization m = org) && bool_decide (member_user m = user)
  && member_active m && negb (member_deleted m).

Definition current_organization_scope now user e r : outcome error OrganizationScope :=
  match requested_organization_id r with
  | Raise x => Raise x
  | Ok org =>
      let asked_for_all := wants_all_organizations (header_scope r) (query_scope r) in
      let global := holds_global_role now user e in
      match org with
      | None =>
          if asked_for_all then
            if negb global then Raise CrossOrganizationScopeDeniedError
            else organization_scope None true
          else if global then Raise UnspecifiedOrganizationScopeError
          else Raise (MissingScopeContextError (u "organization"))
      | Some o =>
          match select_one (live_organization o) (organizations e) with
          | None => Raise (OrganizationNotFoundError o)
          | Some _ =>
              if negb global && negb (existsb (active_membership o user) (members e))
              then Raise (OrganizationMembershipRequiredError o)
              else organization_scope (Some o) false
          end
      end
  end.

(** [CurrentOrganization], [RequireOrganization], [CurrentLocation]. *)
Definition current_organization now user e r : outcome error (option uuid) :=
  match current_organization_scope now user e r with
  | Ok s => Ok (scope_organization_id s) | Raise x => Raise x
  end.
Definition require_organization now user e r : outcome error uuid :=
  match current_organization_scope now user e r with
  | Ok s => match scope_organization_id s with
            | Some o => Ok o | None => Raise SingleOrganizationRequiredError end
  | Raise x => Raise x
  end.
Definition live_location (k : uuid) (l : Location) : bool :=
  has_id k l && negb (location_deleted l).
Definition current_location (org : option uuid) e r : outcome error (option uuid) :=
  match parse_uuid_header (u "X-Location-Id") (header_location r) with
  | Raise x => Raise x
  | Ok None => Ok None
  | Ok (Some k) =>
      match select_one (live_location k) (locations e) with
      | None => Raise (LocationNotFoundError k)
      | Some l =>
          match org with
          | Some o => if bool_decide (location_organization l = o) then Ok (Some k)
                      else Raise (LocationOrganizationMismatchError k o)
          | None => Ok (Some k)
          end
      end
  end.

(** ** [location_scope.py] *)

(** [None]: any location; [Some ls]: only those. *)
Abbreviation LocationScope := (option (list uuid)).

(** [CallerLocationScope]: the loop returns as soon as it meets an
    unconstrained assignment. *)
Fixpoint location_scope_of (found : list uuid) (l : list ActiveRoleAssignment) : LocationScope :=
  match l with
  | [] => Some found
  | a :: l =>
      match ur_scope_type (assignment a) with
      | GLOBAL | ORGANIZATION => None
      | _ => match ur_location_id (assignment a) with
             | Some k => location_scope_of (if bool_decide (k ∈ found) then found else k :: found) l
             | None => location_scope_of found l
             end
      end
  end.
Definition caller_location_scope now user e : LocationScope :=
  location_scope_of [] (get_active_assignments now user (rbac e)).

(** [enforce_entity_location]: [true] is a pass, [false] the caller's error. *)
Definition enforce_entity_location (entity : option uuid) (s : LocationScope) : bool :=
  match s, entity with
  | Some ls, Some l => bool_decide (l ∈ ls)
  | _, _ => true
  end.

(** The value of one filter, and the rows [apply_filters] keeps for it. *)
Inductive filter_value :=
| NoFilter
| Equal (k : uuid)
| AnyOf (ks : list uuid)
| AnyOfOrNull (ks : list uuid).
Definition filter_keeps (f : filter_value) (column : option uuid) : bool :=
  match f, column with
  | NoFilter, _ => true
  | Equal k, Some c => bool_decide (c = k)
  | AnyOf ks, Some c | AnyOfOrNull ks, Some c => bool_decide (c ∈ ks)
  | AnyOfOrNull _, None => true
  | _, None => false
  end.

(** [sorted(..., key=str)]. *)
Fixpoint str_leb (a b : pystr) : bool :=
  match a, b with
  | [], _ => true
  | _ :: _, [] => false
  | x :: a, y :: b => if (x =? y)%N then str_leb a b else (x <? y)%N
  end.
#[local] Arguments str_leb : simpl never.
Fixpoint insert_by_str (k : uuid) (l : list uuid) : list uuid :=
  match l with
  | [] => [k]
  | x :: l' => if str_leb (uuid_str k) (uuid_str x) then k :: l else x :: insert_by_str k l'
  end.
Definition sorted_by_str (l : list uuid) : list uuid := foldr insert_by_str [] l.

(** [confine_location_filter]; [None] is the caller's error. *)
Definition confine_location_filter (requested : option uuid) (s : LocationScope)
    (include_organization_wide : bool) : option filter_value :=
  match s, requested with
  | None, None => Some NoFilter
  | None, Some k => Some (Equal k)
  | Some ls, Some k => if bool_decide (k ∈ ls) then Some (Equal k) else None
  | Some ls, None =>
      Some (if include_organization_wide then AnyOfOrNull (sorted_by_str ls)
            else AnyOf (sorted_by_str ls))
  end.

(** ** Facts about the context *)
Lemma named_beats_header d name raw r k :
  named_scope_id d r = Some k → named_or_header d name raw r = Ok (Some k).
Proof. unfold named_or_header. by intros ->. Qed.

Lemma header_router_read r k :
  named_scope_id DIM_ROUTER r = None → header_router r = Some (uuid_str k) → is_uuid k →
  named_or_header DIM_ROUTER (u "X-Router-Id") (header_router r) r = Ok (Some k).
Proof.
  unfold named_or_header, parse_uuid_header. intros -> -> Hk.
  destruct (uuid_str k) as [|c s] eqn:E.
  { pose proof (uuid_str_length k) as Hl. by rewrite E in Hl. }
  by rewrite <- E, parse_uuid_str.
Qed.

(** The router decides the whole context, wherever its id came from. *)
Lemma context_of_router e r org loc k x :
  requested_organization_id r = Ok org →
  named_or_header DIM_LOCATION (u "X-Location-Id") (header_location r) r = Ok loc →
  named_or_header DIM_ROUTER (u "X-Router-Id") (header_router r) r = Ok (Some k) →
  by_id k (routers e) = Some x →
  current_scope_context e r =
    Ok (mk_context (router_organization x) (router_location x) (Some k) None).
Proof.
  unfold current_scope_context, requested_organization_id. intros -> -> -> Hx.
  unfold contained, router_owner. by rewrite Hx.
Qed.

Lemma context_inv e r c :
  current_scope_context e r = Ok c →
  ∃ org loc router, requested_organization_id r = Ok org
    ∧ named_or_header DIM_LOCATION (u "X-Location-Id") (header_location r) r = Ok loc
    ∧ named_or_header DIM_ROUTER (u "X-Router-Id") (header_router r) r = Ok router
    ∧ c = contained e org loc router.
Proof.
  unfold current_scope_context, requested_organization_id.
  destruct (named_or_header DIM_ORGANIZATION _ _ r) as [org|]; [|done].
  destruct (named_or_header DIM_LOCATION _ _ r) as [loc|]; [|done].
  destruct (named_or_header DIM_ROUTER _ _ r) as [router|]; [|done].
  intros [= <-]. by exists org, loc, router.
Qed.

Lemma require_permission_Ok now user k s r w w' :
  require_permission now user k s r w = (Ok tt, w') →
  ∃ c, current_scope_context (db w) r = Ok c ∧
    holds cache_ttl max_depth now user (World (rbac (db w)) (ext w)) k
      (match s with Some s => s | None => infer_scope_type c end) c = true.
Proof.
  unfold require_permission. destruct (current_scope_context (db w) r) as [c|]; [|done].
  unfold on_rbac. destruct (check _ _ _ _ _ _ _ _) as [[[]|] w1] eqn:E; [|done].
  intros _. exists c. split; [done|]. by apply check_Ok in E as [E _].
Qed.

Lemma require_permission_pass now user k s r w c :
  current_scope_context (db w) r = Ok c →
  holds cache_ttl max_depth now user (World (rbac (db w)) (ext w)) k
    (match s with Some s => s | None => infer_scope_type c end) c = true →
  (require_permission now user k s r w).1 = Ok tt.
Proof.
  unfold require_permission, on_rbac. intros -> Hh.
  rewrite (proj2 (check_Ok _ _ _ _ _ _ _ _ _) (conj Hh eq_refl)). done.
Qed.

Definition uncached now user (w : state) : Prop :=
  cache_ttl = None ∨ cache_get now user (ext w) = None.

(** The allow grant behind a positive decision. *)
Lemma decided_by_grant gs k s c :
  decide_permission gs k s c = true →
  ∃ g, g ∈ allow gs ∧ permission_key g = k ∧ satisfies (scope g) s c = true.
Proof.
  unfold decide_permission. destruct (existsb _ (deny gs)); [done|].
  intros (g & Hg & Hap)%existsb_elem. exists g. unfold grant_applies in Hap.
  apply andb_true_iff in Hap as [Hk Hs]. by apply bool_decide_eq_true in Hk.
Qed.

(** What a grant reaches, by the ownership recorded in the rows. *)
Definition covers_router (g : GrantScope) (x : Router) : Prop :=
  match scope_type g with
  | GLOBAL => True
  | ORGANIZATION => ∃ o, grant_organization_id g = Some o ∧ router_organization x = Some o
  | LOCATION => ∃ l, grant_location_id g = Some l ∧ router_location x = Some l
  | ROUTER => grant_router_id g = Some (router_row_id x)
  | DEVICE => False
  end.
Definition covers_location (g : GrantScope) (x : Location) : Prop :=
  match scope_type g with
  | GLOBAL => True
  | ORGANIZATION => grant_organization_id g = Some (location_organization x)
  | LOCATION => grant_location_id g = Some (location_row_id x)
  | ROUTER | DEVICE => False
  end.

(** A permission check on a named target reaches that target.  If a
    request that names an existing router in its URL passes
    [RequirePermission], the caller has an allow grant of that permission
    whose scope contains the router by the ownership in the rows; the same
    holds for a named location, provided the request carries no router id at
    all.  Headers cannot substitute another owner. *)
Theorem check_reaches_named_target now user k r (w w' : state) :
  uncached now user w →
  require_permission now user k None r w = (Ok tt, w') →
  let granted covers := ∃ g, g ∈ allow (resolve max_depth now user (rbac (db w)))
                          ∧ permission_key g = k ∧ covers (scope g) in
  (∀ id x, named_scope_id DIM_ROUTER r = Some id → by_id id (routers (db w)) = Some x →
     granted (λ g, covers_router g x))
  ∧ (∀ id x, named_scope_id DIM_LOCATION r = Some id → by_id id (locations (db w)) = Some x →
       named_scope_id DIM_ROUTER r = None → header_router r = None →
       granted (λ g, covers_location g x)).
Proof.
  intros Hu Hrun granted. apply require_permission_Ok in Hrun as (c & Hc & Hh).
  rewrite holds_uncached in Hh by done. apply decided_by_grant in Hh as (g & Hg & Hk & Hs).
  apply context_inv in Hc as (org & loc & router & _ & Hloc & Hrouter & ->).
  split.
  - intros id x Hn Hx. rewrite (named_beats_header _ _ _ _ _ Hn) in Hrouter.
    injection Hrouter as <-. exists g. split_and!; try done.
    unfold contained, router_owner in Hs. rewrite Hx in Hs. simpl in Hs.
    apply satisfies_spec in Hs as [_ Hm]. unfold grant_matches, covers_router in *.
    destruct (scope_type (scope g)); try done; simpl in Hm.
    destruct Hm as (y & -> & [= <-]). by apply by_id_Some in Hx as [_ <-].
  - intros id x Hn Hx Hnr Hhr. rewrite (named_beats_header _ _ _ _ _ Hn) in Hloc.
    injection Hloc as <-. unfold named_or_header in Hrouter. rewrite Hnr, Hhr in Hrouter.
    injection Hrouter as <-. exists g. split_and!; try done.
    unfold contained, location_owner in Hs. rewrite Hx in Hs. simpl in Hs.
    apply satisfies_spec in Hs as [Ho Hm]. unfold grant_matches, covers_location in *.
    apply by_id_Some in Hx as [_ Hid].
    destruct (scope_type (scope g)); try done; simpl in *.
    + by destruct Hm as (y & -> & [= <-]).
    + destruct Hm as (y & -> & [= <-]). by rewrite <- Hid.
    + destruct Ho as [?|Ho]; [done|lia].
Qed.

(** A header can displace the location a URL names.  When the URL names
    a location and no router, an [X-Router-Id] header naming an existing
    router replaces the whole context by that router's site and organization:
    the check never looks at the named location, and an account whose only
    grant is for the router's own site passes it whatever location the URL
    names. *)
Theorem header_router_displaces_named_location r e org named k x a :
  requested_organization_id r = Ok org →
  named_scope_id DIM_LOCATION r = Some named → named_scope_id DIM_ROUTER r = None →
  header_router r = Some (uuid_str k) → is_uuid k →
  by_id k (routers e) = Some x → router_location x = Some a →
  current_scope_context e r = Ok (mk_context (router_organization x) (Some a) (Some k) None)
  ∧ ∀ now user key g (w : state),
      db w = e → uncached now user w →
      deny (resolve max_depth now user (rbac e)) = [] →
      g ∈ allow (resolve max_depth now user (rbac e)) → permission_key g = key →
      scope_type (scope g) = LOCATION → grant_location_id (scope g) = Some a →
      (require_permission now user key None r w).1 = Ok tt.
Proof.
  intros Horg Hloc Hrouter Hh Hk Hx Ha.
  assert (current_scope_context e r
    = Ok (mk_context (router_organization x) (Some a) (Some k) None)) as Hc.
  { rewrite <- Ha. eapply context_of_router; [exact Horg|by apply named_beats_header| |exact Hx].
    by apply header_router_read. }
  split; [exact Hc|]. intros now user key g w Hw Hu Hdeny Hg Hkey Hs Hl.
  eapply require_permission_pass; [by rewrite Hw|].
  rewrite holds_uncached by done. simpl. rewrite Hw. unfold decide_permission. rewrite Hdeny. simpl.
  apply existsb_elem. exists g. split; [done|]. unfold grant_applies.
  rewrite bool_decide_true by done. apply satisfies_spec. unfold grant_matches. rewrite Hs.
  split; [right; simpl; lia|by exists a].
Qed.

(** The tenant of a request.  [CurrentOrganizationScope] answers "all
    organizations" exactly when the request names none, asks for all, and the
    caller has an active GLOBAL role; it answers one organization exactly
    when the request names it, it exists, and the caller has a GLOBAL role or
    an active membership of it; it answers nothing else. *)
Theorem organization_scope_iff now user e r s :
  current_organization_scope now user e r = Ok s ↔
  (s = mk_scope None true ∧ requested_organization_id r = Ok None
     ∧ wants_all_organizations (header_scope r) (query_scope r) = true
     ∧ holds_global_role now user e = true)
  ∨ (∃ o org, s = mk_scope (Some o) false ∧ requested_organization_id r = Ok (Some o)
     ∧ select_one (live_organization o) (organizations e) = Some org
     ∧ (holds_global_role now user e = true
        ∨ ∃ m, m ∈ members e ∧ active_membership o user m = true)).
Proof.
  unfold current_organization_scope.
  destruct (requested_organization_id r) as [[o|]|]; [| |naive_solver].
  - destruct (select_one (live_organization o) (organizations e)) as [row|] eqn:Erow;
      [|split; [done|naive_solver]].
    destruct (holds_global_role now user e); simpl.
    + split; [intros [= <-]; right; exists o, row; naive_solver|].
      intros [(_ & ? & _)|(o' & ? & -> & [= <-] & _)]; done.
    + destruct (existsb (active_membership o user) (members e)) eqn:Em; simpl.
      * split; [intros [= <-]; right; exists o, row|].
        -- split_and!; try done. right. by apply existsb_elem.
        -- intros [(_ & ? & _)|(o' & ? & -> & [= <-] & _)]; done.
      * split; [done|]. intros [(_ & ? & _)|(o' & ? & -> & [= <-] & _ & [?|Hm])]; try done.
        apply existsb_elem in Hm. congruence.
  - destruct (wants_all_organizations _ _), (holds_global_role now user e); simpl;
      split; try done; try (intros [= <-]; by left);
      by intros [(-> & _ & ? & ?)|(o' & ? & _ & ? & _)].
Qed.

(** ** Confinement to locations *)
Definition unconstrained (a : ActiveRoleAssignment) : Prop :=
  ur_scope_type (assignment a) = GLOBAL ∨ ur_scope_type (assignment a) = ORGANIZATION.
Definition assigned_location (l : list ActiveRoleAssignment) (k : uuid) : Prop :=
  ∃ a, a ∈ l ∧ ur_location_id (assignment a) = Some k.

Lemma location_scope_of_spec found l :
  match location_scope_of found l with
  | None => ∃ a, a ∈ l ∧ unconstrained a
  | Some ls => (∀ a, a ∈ l → ¬ unconstrained a)
               ∧ ∀ k, k ∈ ls ↔ k ∈ found ∨ assigned_location l k
  end.
Proof.
  unfold assigned_location, unconstrained. revert found.
  induction l as [|a l IH]; intros found; simpl.
  { split; [by intros ? ?%not_elem_of_nil|]. intros k. split; [by left|].
    intros [?|(? & ?%not_elem_of_nil & _)]; done. }
  assert (∀ found', (∀ k, k ∈ found' ↔ k ∈ found ∨ ur_location_id (assignment a) = Some k) →
    (¬ (ur_scope_type (assignment a) = GLOBAL ∨ ur_scope_type (assignment a) = ORGANIZATION)) →
    match location_scope_of found' l with
    | None => ∃ a', a' ∈ a :: l ∧ unconstrained a'
    | Some ls => (∀ a', a' ∈ a :: l → ¬ unconstrained a')
                 ∧ ∀ k, k ∈ ls ↔ k ∈ found ∨ assigned_location (a :: l) k
    end) as Hstep.
  { intros found' Hf Hnot. unfold assigned_location, unconstrained. specialize (IH found').
    destruct (location_scope_of found' l) as [ls|].
    - destruct IH as [Hn Hls]. split.
      + intros a' [->|Ha']%elem_of_cons; [done|by apply Hn].
      + intros k. rewrite Hls, Hf. setoid_rewrite elem_of_cons. naive_solver.
    - destruct IH as (a' & ? & ?). exists a'. by split; [apply elem_of_cons; right|]. }
  destruct (ur_scope_type (assignment a)) eqn:Es;
    try (exists a; rewrite Es; split; [apply list_elem_of_here|tauto]);
    (destruct (ur_location_id (assignment a)) as [k0|] eqn:El;
     [apply Hstep; [|by intros [?|?]]; intros k; case_bool_decide; set_solver
     |apply Hstep; [|by intros [?|?]]; naive_solver]).
Qed.

Lemma sorted_by_str_elem l k : k ∈ sorted_by_str l ↔ k ∈ l.
Proof.
  unfold sorted_by_str. induction l as [|x l IH]; [done|]. simpl.
  assert (∀ y t, k ∈ insert_by_str y t ↔ k = y ∨ k ∈ t) as Hins.
  { intros y t. induction t as [|z t IHt]; simpl; [by rewrite elem_of_cons|].
    destruct (str_leb (uuid_str y) (uuid_str z)); rewrite !elem_of_cons, ?IHt; tauto. }
  by rewrite Hins, IH, elem_of_cons.
Qed.

(** A listing shows a confined caller exactly the caller's sites.  When
    none of the caller's active assignments is GLOBAL or ORGANIZATION scoped,
    a row at location [l] passes the filter a listing applies exactly when
    one of those assignments names [l] and [l] is the location asked for, if
    any; a row without a location passes only where the listing opts in and
    no location is asked for. *)
Theorem confined_listing_exact now user e requested wide f :
  (∀ a, a ∈ get_active_assignments now user (rbac e) → ¬ unconstrained a) →
  confine_location_filter requested (caller_location_scope now user e) wide = Some f →
  (∀ l, filter_keeps f (Some l) = true ↔
     assigned_location (get_active_assignments now user (rbac e)) l
     ∧ (∀ k, requested = Some k → l = k))
  ∧ (filter_keeps f None = true ↔ wide = true ∧ requested = None).
Proof.
  intros Hconf Hf. unfold caller_location_scope in Hf.
  pose proof (location_scope_of_spec [] (get_active_assignments now user (rbac e))) as Hspec.
  destruct (location_scope_of [] _) as [ls|]; [|destruct Hspec as (a & ? & ?); by destruct (Hconf a)].
  destruct Hspec as [_ Hls]. unfold confine_location_filter in Hf.
  destruct requested as [k|].
  - case_bool_decide as Hk; [|done]. injection Hf as <-. simpl. split; [|naive_solver].
    intros l. rewrite bool_decide_eq_true. split; [intros ->|naive_solver].
    split; [|naive_solver]. apply Hls in Hk as [Hk|Hk]; [by apply not_elem_of_nil in Hk|done].
  - assert (∀ l, l ∈ sorted_by_str ls ↔
      assigned_location (get_active_assignments now user (rbac e)) l) as Hs.
    { intros l. rewrite sorted_by_str_elem, Hls. split; [|by right].
      intros [Hl|Hl]; [by apply not_elem_of_nil in Hl|done]. }
    destruct wide; injection Hf as <-; simpl; (split; [|naive_solver]);
      intros l; rewrite bool_decide_eq_true, Hs; naive_solver.
Qed.
End dependencies.

(** ** Two sites

    Organization 100 has locations 200 and 201 with routers 300 and 301;
    user 1 manages location 200 only ([Access.examples.estate]). *)
Module examples.
#[local] Existing Instance canonical_uuid.
#[local] Existing Instance ascii_only.
Import Access.examples.

Definition sites : Tenancy.estate :=
  Estate Access.examples.estate [mk_organization 100 false]
    [mk_member 100 1 true false; mk_member 100 2 true false]
    [mk_location 200 100 false; mk_location 201 100 false]
    [mk_router 300 (Some 200%positive) (Some 100%positive);
     mk_router 301 (Some 201%positive) (Some 100%positive)].
Definition w2 : world Tenancy.estate services := World sites idle.
Definition url (name : string) (k : uuid) : list (pystr * option param) :=
  [(u name, Some (PStr (uuid_str k)))].
Definition naming (path : list (pystr * option param)) (router : option uuid) : request :=
  Request None None (uuid_str <$> router) None path [] None.
Definition passes user k r : outcome error unit * world Tenancy.estate services :=
  require_permission (Some 300) 10 5 user k None r w2.

Example own_router : (passes 1 (u "guests.read") (naming (url "router_id" 300) None)).1 = Ok tt.
Proof. by vm_compute. Qed.
Example other_router : is_ok (passes 1 (u "guests.read") (naming (url "router_id" 301) None)).1 = false.
Proof. by vm_compute. Qed.
Example other_site : is_ok (passes 1 (u "guests.read") (naming (url "location_id" 201) None)).1 = false.
Proof. by vm_compute. Qed.
Example other_site_with_header :
  (passes 1 (u "guests.read") (naming (url "location_id" 201) (Some 300%positive))).1 = Ok tt.
Proof. by vm_compute. Qed.

Lemma check_reaches_named_target_witness :
  let granted covers := ∃ g, g ∈ allow (resolve 10 5 1 (rbac sites))
                          ∧ permission_key g = u "guests.read" ∧ covers (scope g) in
  (∀ id x, named_scope_id DIM_ROUTER (naming (url "router_id" 300) None) = Some id →
     by_id id (routers sites) = Some x → granted (λ g, covers_router g x))
  ∧ (∀ id x, named_scope_id DIM_LOCATION (naming (url "router_id" 300) None) = Some id →
       by_id id (locations sites) = Some x →
       named_scope_id DIM_ROUTER (naming (url "router_id" 300) None) = None →
       header_router (naming (url "router_id" 300) None) = None →
       granted (λ g, covers_location g x)).
Proof.
  apply (check_reaches_named_target (Some 300) 10 5 1 (u "guests.read")
    (naming (url "router_id" 300) None) w2
    (passes 1 (u "guests.read") (naming (url "router_id" 300) None)).2).
  - right. by vm_compute.
  - by vm_compute.
Defined.

(** The manager of location 200 passes the check on a URL naming 201. *)
Lemma header_router_displaces_named_location_witness :
  let r := naming (url "location_id" 201) (Some 300%positive) in
  current_scope_context sites r
    = Ok (mk_context (Some 100%positive) (Some 200%positive) (Some 300%positive) None)
  ∧ ∀ now user key g (w : world Tenancy.estate services),
      db w = sites → uncached (Some 300) now user w →
      deny (resolve 10 now user (rbac sites)) = [] →
      g ∈ allow (resolve 10 now user (rbac sites)) → permission_key g = key →
      scope_type (scope g) = LOCATION → grant_location_id (scope g) = Some 200%positive →
      (require_permission (Some 300) 10 now user key None r w).1 = Ok tt.
Proof.
  apply (header_router_displaces_named_location (Some 300) 10
    (naming (url "location_id" 201) (Some 300%positive)) sites None 201 300
    (mk_router 300 (Some 200%positive) (Some 100%positive)) 200); by vm_compute.
Defined.

Lemma confined_listing_exact_witness :
  (∀ l, filter_keeps (AnyOf [200%positive]) (Some l) = true ↔
     assigned_location (get_active_assignments 5 1 (rbac sites)) l
     ∧ (∀ k, None = Some k → l = k))
  ∧ (filter_keeps (AnyOf [200%positive]) None = true ↔ false = true ∧ @None uuid = None).
Proof.
  apply (confined_listing_exact 5 1 sites None false (AnyOf [200%positive])).
  - assert (get_active_assignments 5 1 (rbac sites)
      = [mk_active (at_location 30 1 11 100 200) manager]) as Ha by by vm_compute.
    rewrite Ha. intros a ->%list_elem_of_singleton. by intros [?|?].
  - by vm_compute.
Defined.
End examples.
End Tenancy.
