(* ===== verification/Voucher.v ===== *)
(** Vouchers: [src/backend/app/domains/voucher].

    A batch of codes goes through an approval life cycle; a guest redeems a
    code up to [max_uses_per_voucher] times.  Redemption is a read, then one
    conditional [UPDATE] that only lands if the row is still the one read. *)

From S2P Require Import Prelude Table Session PyStr Redis Tenancy.

Module Voucher.

Inductive VoucherBatchStatus := DRAFT | PENDING_APPROVAL | APPROVED | BATCH_ACTIVE
  | BATCH_EXPIRED | BATCH_REVOKED.
Inductive VoucherStatus := UNUSED | ACTIVE | EXHAUSTED | EXPIRED | REVOKED.
#[export] Instance batch_status_eq_dec : EqDecision VoucherBatchStatus.
Proof. solve_decision. Defined.
#[export] Instance voucher_status_eq_dec : EqDecision VoucherStatus.
Proof. solve_decision. Defined.

Definition VOUCHER_BATCH_STATUS_TRANSITIONS (s : VoucherBatchStatus) : list VoucherBatchStatus :=
  match s with
  | DRAFT => [PENDING_APPROVAL; APPROVED; BATCH_REVOKED]
  | PENDING_APPROVAL => [APPROVED; BATCH_REVOKED]
  | APPROVED => [BATCH_ACTIVE; BATCH_REVOKED]
  | BATCH_ACTIVE => [BATCH_EXPIRED; BATCH_REVOKED]
  | BATCH_EXPIRED | BATCH_REVOKED => []
  end.

Definition VOUCHER_CODE_ALPHABET : pystr := u "ABCDEFGHJKLMNPQRSTUVWXYZ23456789".
Definition MIN_CODE_LENGTH : Z := 4.
Definition MAX_CODE_LENGTH : Z := 20.
Definition CODE_GENERATION_MAX_ROUNDS : nat := 10.
Definition MAX_BULK_CREATE_SIZE : Z := 1000.

Inductive reason := revoked | exhausted | expired | batch_not_active.
#[export] Instance reason_eq_dec : EqDecision reason.
Proof. solve_decision. Defined.
Definition audited_reason (r : reason) : bool :=
  match r with revoked | exhausted => true | _ => false end.

Inductive error :=
| VoucherBatchNotFoundError (k : uuid)
| CrossLocationVoucherBatchAccessError
| CrossOrganizationVoucherBatchAccessError
| InvalidBatchStatusTransitionError (current target : VoucherBatchStatus)
| VoucherBatchQuantityExceededError (requested : Z)
| InvalidCodeLengthError (n : Z)
| VoucherCodeGenerationExhaustedError (requested generated : Z)
| VoucherNotFoundError
| VoucherBatchNotActiveError (s : VoucherBatchStatus)
| VoucherRevokedError
| VoucherExhaustedError
| VoucherExpiredError
| VoucherRedemptionRateLimitExceededError (retry_after : Z)
| VoucherPlanNotFoundError (k : uuid)
| CrossOrganizationVoucherPlanAccessError
| VoucherSeriesNotFoundError (k : uuid)
| CrossLocationVoucherSeriesAccessError
| CrossOrganizationVoucherSeriesAccessError
| OrganizationNotFoundError (k : uuid)
| LocationAccessError (k : uuid)
| RedisUnavailable.

(** ** Rows of [models.py] *)
Record VoucherPlan := mk_plan {
  plan_row_id : uuid; plan_organization_id : option uuid; plan_queue_profile_id : option uuid;
  plan_is_deleted : bool }.
#[export] Instance plan_has_id : HasId VoucherPlan := plan_row_id.
Record VoucherSeries := mk_series {
  series_row_id : uuid; series_organization_id : uuid; series_location_id : option uuid;
  series_plan_id : uuid; series_is_deleted : bool }.
#[export] Instance series_has_id : HasId VoucherSeries := series_row_id.

Record VoucherBatch := mk_batch {
  batch_row_id : uuid;
  organization_id : uuid;
  location_id : option uuid;
  plan_id : option uuid;
  series_id : option uuid;
  quantity : Z;
  code_length : Z;
  code_prefix : option pystr;
  validity_minutes : Z;
  batch_expires_at : option datetime;
  max_uses_per_voucher : Z;
  batch_status : VoucherBatchStatus;
  approved_by_user_id : option uuid;
  approved_at : option datetime;
  batch_is_deleted : bool;
}.
#[export] Instance batch_has_id : HasId VoucherBatch := batch_row_id.

Record Voucher := mk_voucher {
  voucher_id : uuid;
  batch_id : uuid;
  voucher_organization_id : uuid;
  voucher_plan_id : option uuid;
  code : pystr;
  status : VoucherStatus;
  use_count : Z;
  redeemed_at : option datetime;
  last_used_at : option datetime;
  redeemed_identifier : option pystr;
  expires_at : option datetime;
  version : Z;
  is_deleted : bool;
}.
#[export] Instance voucher_has_id : HasId Voucher := voucher_id.

Inductive AuditAction :=
| VOUCHER_BATCH_CREATED | VOUCHER_BATCH_APPROVED | VOUCHER_BATCH_ACTIVATED
| VOUCHER_BATCH_REVOKED | VOUCHER_REDEEMED | VOUCHER_REDEMPTION_FAILED
| VOUCHER_CODES_IMPORTED | VOUCHER_PLAN_CREATED | VOUCHER_SERIES_CREATED.
Record audit_entry := mk_audit { actor : option uuid; action : AuditAction; entity : uuid }.

Record database := Database {
  plans : list VoucherPlan;
  series : list VoucherSeries;
  batches : list VoucherBatch;
  vouchers : list Voucher;
  audit_log : list audit_entry;
}.

(** [is_batch_expired] and [is_post_redemption_expired]. *)
Definition past (deadline : option datetime) (now : datetime) : bool :=
  match deadline with Some t => t <? now | None => false end.
Definition is_batch_expired (b : VoucherBatch) (now : datetime) : bool :=
  past (batch_expires_at b) now.
Definition is_post_redemption_expired (v : Voucher) (now : datetime) : bool :=
  past (expires_at v) now.

(** ** [validators.py] *)
Definition validate_code_length (n : Z) : bool :=
  (MIN_CODE_LENGTH <=? n) && (n <=? MAX_CODE_LENGTH).
Definition validate_quantity (n : Z) : bool := n <=? MAX_BULK_CREATE_SIZE.
Definition validate_batch_status_transition (current target : VoucherBatchStatus) : bool :=
  bool_decide (target ∈ VOUCHER_BATCH_STATUS_TRANSITIONS current).

Definition normalize_redeemed_identifier (s : pystr) : pystr := strip s.

(** Space, tab, hyphen-minus, U+2010 to U+2014 and underscore. *)
Definition code_separator (c : N) : bool :=
  existsb (N.eqb c) [32; 9; 45; 8208; 8209; 8210; 8211; 8212; 95]%N.

Section codes.
Context `{PyUnicode}.
Definition normalize_voucher_code (s : pystr) : pystr := upper (strip s).
Definition voucher_code_lookup_candidates (s : pystr) : list pystr :=
  let exact := normalize_voucher_code s in
  let stripped := List.filter (λ c, negb (code_separator c)) exact in
  if bool_decide (stripped = exact) then [exact] else [exact; stripped].
End codes.

(** ** Row writes and queries *)
Definition set_batch_status (s : VoucherBatchStatus) (b : VoucherBatch) : VoucherBatch :=
  mk_batch (batch_row_id b) (organization_id b) (location_id b) (plan_id b) (series_id b)
    (quantity b) (code_length b) (code_prefix b) (validity_minutes b) (batch_expires_at b)
    (max_uses_per_voucher b) s (approved_by_user_id b) (approved_at b) (batch_is_deleted b).
Definition set_approved (who : option uuid) (now : datetime) (b : VoucherBatch) : VoucherBatch :=
  mk_batch (batch_row_id b) (organization_id b) (location_id b) (plan_id b) (series_id b)
    (quantity b) (code_length b) (code_prefix b) (validity_minutes b) (batch_expires_at b)
    (max_uses_per_voucher b) APPROVED who (Some now) (batch_is_deleted b).
Definition set_status (s : VoucherStatus) (v : Voucher) : Voucher :=
  mk_voucher (voucher_id v) (batch_id v) (voucher_organization_id v) (voucher_plan_id v) (code v)
    s (use_count v) (redeemed_at v) (last_used_at v) (redeemed_identifier v) (expires_at v)
    (version v) (is_deleted v).

(** The three fields a first use sets. *)
Record first_use := FirstUse { at_ : datetime; by_ : pystr; until_ : datetime }.
(** The [SET] clause of the conditional update. *)
Definition redeemed (max_uses : Z) (now : datetime) (f : option first_use) (v : Voucher) : Voucher :=
  mk_voucher (voucher_id v) (batch_id v) (voucher_organization_id v) (voucher_plan_id v) (code v)
    (if max_uses <=? use_count v + 1 then EXHAUSTED else ACTIVE) (use_count v + 1)
    (match f with Some f => Some (at_ f) | None => redeemed_at v end) (Some now)
    (match f with Some f => Some (by_ f) | None => redeemed_identifier v end)
    (match f with Some f => Some (until_ f) | None => expires_at v end)
    (version v + 1) (is_deleted v).

Definition get_batch_row (k : uuid) (d : database) : option VoucherBatch :=
  select_one (λ b, has_id k b && negb (batch_is_deleted b)) (batches d).
Definition get_plan_row (k : uuid) (d : database) : option VoucherPlan :=
  select_one (λ p, has_id k p && negb (plan_is_deleted p)) (plans d).
Definition get_series_row (k : uuid) (d : database) : option VoucherSeries :=
  select_one (λ p, has_id k p && negb (series_is_deleted p)) (series d).
Definition get_voucher_by_code (c : pystr) (d : database) : option Voucher :=
  select_one (λ v, bool_decide (code v = c) && negb (is_deleted v)) (vouchers d).
Definition find_existing_codes (cs : list pystr) (d : database) : list pystr :=
  code <$> select (λ v, bool_decide (code v ∈ cs)) (vouchers d).

(** The [WHERE] clause of [redeem_voucher_conditionally]. *)
Definition active_batch (k : uuid) (d : database) : bool :=
  existsb (λ b, has_id k b && bool_decide (batch_status b = BATCH_ACTIVE)
                && negb (batch_is_deleted b)) (batches d).
Definition unchanged (k : uuid) (expected_status : VoucherStatus) (expected_use_count : Z)
    (d : database) (v : Voucher) : bool :=
  has_id k v && bool_decide (status v = expected_status)
  && (use_count v =? expected_use_count) && negb (is_deleted v) && active_batch (batch_id v) d.

(** [bulk_revoke_vouchers_for_batch]. *)
Definition revocable (k : uuid) (v : Voucher) : bool :=
  bool_decide (batch_id v = k)
  && negb (bool_decide (status v ∈ [EXHAUSTED; EXPIRED; REVOKED])).

Definition on_batches (f : list VoucherBatch → list VoucherBatch) (d : database) : database :=
  Database (plans d) (series d) (f (batches d)) (vouchers d) (audit_log d).
Definition on_vouchers (f : list Voucher → list Voucher) (d : database) : database :=
  Database (plans d) (series d) (batches d) (f (vouchers d)) (audit_log d).
Definition log (e : audit_entry) (d : database) : database :=
  Database (plans d) (series d) (batches d) (vouchers d) (audit_log d ++ [e]).

(** ** [service.py] *)
Section service.
Context {R : Type} `{PyUnicode, Redis R}.
(** [OrganizationLookupProtocol] and [LocationLookupProtocol]: which
    organizations exist, and which locations belong to one. *)
Variable organization_exists : uuid → bool.
Variable location_in : uuid → uuid → bool.
(** [redemption_max_attempts_per_window], [redemption_window_minutes], and
    whether an audit writer is wired in. *)
Variables (max_attempts window_minutes : Z) (has_audit_writer : bool).
(** The caller's confinement ([caller_location_scope]). *)
Variable caller_scope : option (list uuid).

Abbreviation state := (world database (conn R)).
Implicit Types (w : state) (now : datetime) (d : database).

Definition write (f : database → database) : M state error unit := on_db (modify f).
Definition audit (who : option uuid) (a : AuditAction) (k : uuid) : M state error unit :=
  if has_audit_writer then write (log (mk_audit who a k)) else mret tt.

(** [a is not None and b != a]. *)
Definition foreign (requesting : option uuid) (org : uuid) : bool :=
  match requesting with Some r => negb (bool_decide (org = r)) | None => false end.

Definition transition (current target : VoucherBatchStatus) : M state error unit :=
  raise_if (negb (validate_batch_status_transition current target))
    (InvalidBatchStatusTransitionError current target).

(** [_refresh_batch_expiry]. *)
Definition refresh_batch_expiry now (b : VoucherBatch) : M state error VoucherBatch :=
  if bool_decide (batch_status b = BATCH_ACTIVE) && is_batch_expired b now then
    _ ← write (on_batches (set_row (set_batch_status BATCH_EXPIRED) (batch_row_id b)));
    mret (set_batch_status BATCH_EXPIRED b)
  else mret b.

(** [get_batch]. *)
Definition get_batch now (k : uuid) (requesting : option uuid) : M state error VoucherBatch :=
  found ← gets (λ w, get_batch_row k (db w));
  b ← of_option found (VoucherBatchNotFoundError k);
  _ ← raise_if (foreign requesting (organization_id b)) CrossOrganizationVoucherBatchAccessError;
  _ ← raise_if (negb (Tenancy.enforce_entity_location (location_id b) caller_scope))
        CrossLocationVoucherBatchAccessError;
  refresh_batch_expiry now b.

(** [get_plan], [get_series]. *)
Definition get_plan (k : uuid) (requesting : option uuid) : M state error VoucherPlan :=
  found ← gets (λ w, get_plan_row k (db w));
  p ← of_option found (VoucherPlanNotFoundError k);
  _ ← raise_if (match plan_organization_id p with
                | Some org => foreign requesting org | None => false end)
        CrossOrganizationVoucherPlanAccessError;
  mret p.
Definition get_series (k : uuid) (requesting : option uuid) : M state error VoucherSeries :=
  found ← gets (λ w, get_series_row k (db w));
  p ← of_option found (VoucherSeriesNotFoundError k);
  _ ← raise_if (foreign requesting (series_organization_id p))
        CrossOrganizationVoucherSeriesAccessError;
  _ ← raise_if (negb (Tenancy.enforce_entity_location (series_location_id p) caller_scope))
        CrossLocationVoucherSeriesAccessError;
  mret p.

(** [_submit_batch], [_approve_and_activate], [approve_batch]. *)
Definition submit_batch (b : VoucherBatch) : M state error VoucherBatch :=
  _ ← transition (batch_status b) PENDING_APPROVAL;
  _ ← write (on_batches (set_row (set_batch_status PENDING_APPROVAL) (batch_row_id b)));
  mret (set_batch_status PENDING_APPROVAL b).

Definition approve_and_activate now (who : option uuid) (b : VoucherBatch)
    : M state error VoucherBatch :=
  _ ← transition (batch_status b) APPROVED;
  _ ← write (on_batches (set_row (set_approved who now) (batch_row_id b)));
  let approved := set_approved who now b in
  _ ← audit who VOUCHER_BATCH_APPROVED (batch_row_id b);
  _ ← transition APPROVED BATCH_ACTIVE;
  _ ← write (on_batches (set_row (set_batch_status BATCH_ACTIVE) (batch_row_id b)));
  _ ← audit who VOUCHER_BATCH_ACTIVATED (batch_row_id b);
  mret (set_batch_status BATCH_ACTIVE approved).

Definition approve_batch now (k : uuid) (who requesting : option uuid)
    : M state error VoucherBatch :=
  b ← get_batch now k requesting;
  approve_and_activate now who b.

(** [revoke_batch]. *)
Definition revoke_batch now (k : uuid) (who requesting : option uuid) : M state error VoucherBatch :=
  b ← get_batch now k requesting;
  _ ← transition (batch_status b) BATCH_REVOKED;
  _ ← write (on_batches (set_row (set_batch_status BATCH_REVOKED) (batch_row_id b)));
  _ ← write (on_vouchers (update (revocable (batch_row_id b)) (set_status REVOKED)));
  _ ← audit who VOUCHER_BATCH_REVOKED (batch_row_id b);
  mret (set_batch_status BATCH_REVOKED b).

(** ** Code generation: [draw round i] is the [i]-th random body of a round,
    a string over [VOUCHER_CODE_ALPHABET]. *)
Definition with_prefix (prefix : option pystr) (body : pystr) : pystr :=
  match prefix with Some p => p ++ body | None => body end.

Fixpoint generate_rounds (rounds : nat) (draw : nat → nat → pystr) (prefix : option pystr)
    (quantity : nat) (generated : list pystr) (d : database) : list pystr :=
  match rounds with
  | O => generated
  | S rounds =>
      let needed := (quantity - length generated)%nat in
      if bool_decide (needed = 0%nat) then generated
      else
        let drawn := remove_dups (map (λ i, with_prefix prefix (draw rounds i)) (seq 0 needed)) in
        let candidates := List.filter (λ c, negb (bool_decide (c ∈ generated))) drawn in
        let existing := find_existing_codes candidates d in
        generate_rounds rounds draw prefix quantity
          (generated ++ List.filter (λ c, negb (bool_decide (c ∈ existing))) candidates) d
  end.
Definition generate_codes (draw : nat → nat → pystr) (n : Z) (prefix : option pystr)
    : M state error (list pystr) :=
  generated ← gets (λ w, generate_rounds CODE_GENERATION_MAX_ROUNDS draw prefix (Z.to_nat n) [] (db w));
  _ ← raise_if (Z.of_nat (length generated) <? n)
        (VoucherCodeGenerationExhaustedError n (Z.of_nat (length generated)));
  mret (take (Z.to_nat n) generated).

Definition fresh_voucher (b : VoucherBatch) (k : uuid) (c : pystr) : Voucher :=
  mk_voucher k (batch_row_id b) (organization_id b) (plan_id b) c UNUSED 0 None None None None 1
    false.
Definition bulk_create_vouchers (ids : nat → uuid) (b : VoucherBatch) (cs : list pystr)
    : M state error (list Voucher) :=
  let rows := imap (λ i c, fresh_voucher b (ids i) c) cs in
  _ ← write (on_vouchers (insert_rows rows));
  mret rows.

(** [create_batch]. *)
Record new_batch := NewBatch {
  nb_organization_id : uuid; nb_location_id : option uuid; nb_plan_id : option uuid;
  nb_series_id : option uuid; nb_quantity : Z; nb_code_length : Z; nb_code_prefix : option pystr;
  nb_validity_minutes : Z; nb_batch_expires_at : option datetime; nb_max_uses : Z }.

Definition create_batch now (ids : nat → uuid) (new_id : uuid) (draw : nat → nat → pystr)
    (who requesting : option uuid) (has_manage_permission : bool) (q : new_batch)
    : M state error VoucherBatch :=
  _ ← raise_if (negb (validate_quantity (nb_quantity q)))
        (VoucherBatchQuantityExceededError (nb_quantity q));
  _ ← raise_if (negb (validate_code_length (nb_code_length q)))
        (InvalidCodeLengthError (nb_code_length q));
  let org := nb_organization_id q in
  _ ← raise_if (negb (organization_exists org)) (OrganizationNotFoundError org);
  _ ← raise_if (foreign requesting org) CrossOrganizationVoucherBatchAccessError;
  _ ← match nb_location_id q with
      | Some l => raise_if (negb (location_in l org)) (LocationAccessError l)
      | None => mret tt
      end;
  _ ← match nb_plan_id q with
      | Some p => _ ← get_plan p requesting; mret tt | None => mret tt end;
  _ ← match nb_series_id q with
      | Some p => _ ← get_series p requesting; mret tt | None => mret tt end;
  let b := mk_batch new_id org (nb_location_id q) (nb_plan_id q) (nb_series_id q) (nb_quantity q)
             (nb_code_length q) (nb_code_prefix q) (nb_validity_minutes q) (nb_batch_expires_at q)
             (nb_max_uses q) DRAFT None None false in
  _ ← write (on_batches (insert_row b));
  _ ← audit who VOUCHER_BATCH_CREATED new_id;
  _ ← (if 0 <? nb_quantity q then
         cs ← generate_codes draw (nb_quantity q) (nb_code_prefix q);
         _ ← bulk_create_vouchers ids b cs;
         mret tt
       else mret tt);
  b' ← submit_batch b;
  if has_manage_permission then approve_and_activate now who b' else mret b'.

(** ** Validation and redemption *)
Definition rate_limit_key (source : pystr) : pystr := u "voucher:redemption_attempts:" ++ source.
Definition enforce_redemption_rate_limit now (source : pystr) : M state error unit :=
  on_ext (fixed_window RedisUnavailable VoucherRedemptionRateLimitExceededError now
            (rate_limit_key source) max_attempts (window_minutes * 60)).

(** [_get_voucher_and_batch]: the first candidate that names a voucher. *)
Fixpoint first_match (cs : list pystr) d : option Voucher :=
  match cs with
  | [] => None
  | c :: cs => match get_voucher_by_code c d with Some v => Some v | None => first_match cs d end
  end.
Definition get_voucher_and_batch now (typed : pystr) : M state error (Voucher * VoucherBatch) :=
  found ← gets (λ w, first_match (voucher_code_lookup_candidates typed) (db w));
  v ← of_option found VoucherNotFoundError;
  row ← gets (λ w, get_batch_row (batch_id v) (db w));
  b ← of_option row (VoucherBatchNotFoundError (batch_id v));
  b' ← refresh_batch_expiry now b;
  mret (v, b').

(** [_redemption_failure_reason]. *)
Definition redemption_failure_reason (v : Voucher) (b : VoucherBatch) now : option reason :=
  match status v with
  | REVOKED => Some revoked
  | EXHAUSTED => Some exhausted
  | EXPIRED => Some expired
  | _ =>
      if negb (bool_decide (batch_status b = BATCH_ACTIVE)) then Some batch_not_active
      else if bool_decide (status v = ACTIVE) && is_post_redemption_expired v now
      then Some expired
      else None
  end.

(** [_raise_for_reason], [_record_redemption_failure]. *)
Definition reason_error (r : reason) (s : VoucherBatchStatus) : error :=
  match r with
  | revoked => VoucherRevokedError | exhausted => VoucherExhaustedError
  | expired => VoucherExpiredError | batch_not_active => VoucherBatchNotActiveError s
  end.
Definition record_redemption_failure (v : Voucher) (r : reason) : M state error unit :=
  if audited_reason r then audit None VOUCHER_REDEMPTION_FAILED (voucher_id v) else mret tt.
Definition refuse {A} (v : Voucher) (b : VoucherBatch) (r : reason) : M state error A :=
  _ ← record_redemption_failure v r;
  raise (reason_error r (batch_status b)).

(** The read half shared by [validate_voucher] and [redeem_voucher]. *)
Definition redeemable now (typed source : pystr) : M state error (Voucher * VoucherBatch) :=
  _ ← enforce_redemption_rate_limit now source;
  vb ← get_voucher_and_batch now typed;
  match redemption_failure_reason vb.1 vb.2 now with
  | Some r => refuse vb.1 vb.2 r
  | None => mret vb
  end.

(** [validate_voucher]: voucher, batch, [is_first_use], [uses_remaining]. *)
Definition validate_voucher now (typed source : pystr)
    : M state error (Voucher * VoucherBatch * bool * Z) :=
  vb ← redeemable now typed source;
  mret (vb.1, vb.2, use_count vb.1 =? 0, max_uses_per_voucher vb.2 - use_count vb.1).

(** [redeem_voucher_conditionally]: the single statement and its rowcount;
    [None] after the refresh of both rows when it matched nothing. *)
Definition redeem_voucher_conditionally now (v : Voucher) (b : VoucherBatch)
    (f : option first_use) : M state error (option Voucher) := λ w,
  let p := unchanged (voucher_id v) (status v) (use_count v) (db w) in
  let set := redeemed (max_uses_per_voucher b) now f in
  if rowcount p (vouchers (db w)) =? 0 then (Ok None, w)
  else
    let w' := World (on_vouchers (update p set) (db w)) (ext w) in
    (Ok (by_id (voucher_id v) (vouchers (db w'))), w').

(** The write half: [now] is the instant read before the statement, [later]
    the one read after a lost race. *)
Definition redeem_write now (later : datetime) (identifier : pystr) (v : Voucher)
    (b : VoucherBatch) : M state error (Voucher * VoucherBatch) :=
  let f := if bool_decide (status v = UNUSED)
           then Some (FirstUse now (normalize_redeemed_identifier identifier)
                        (now + minutes (validity_minutes b)))
           else None in
  updated ← redeem_voucher_conditionally now v b f;
  match updated with
  | None =>
      fresh ← gets (λ w, (default v (by_id (voucher_id v) (vouchers (db w))),
                          default b (by_id (batch_row_id b) (batches (db w)))));
      refuse fresh.1 fresh.2
        (default exhausted (redemption_failure_reason fresh.1 fresh.2 later))
  | Some v' =>
      _ ← audit None VOUCHER_REDEEMED (voucher_id v');
      mret (v', b)
  end.

(** [redeem_voucher]. *)
Definition redeem_voucher now (later : datetime) (typed identifier source : pystr)
    : M state error (Voucher * VoucherBatch) :=
  vb ← redeemable now typed source;
  redeem_write now later identifier vb.1 vb.2.

(** ** Import and statistics *)
Fixpoint sort_codes (seen : list pystr) (cs : list pystr) : list pystr * list (pystr * pystr) :=
  match cs with
  | [] => ([], [])
  | raw :: cs =>
      let c := normalize_voucher_code raw in
      if bool_decide (c = []) then
        let '(ok, bad) := sort_codes seen cs in (ok, (raw, u "empty code") :: bad)
      else if bool_decide (c ∈ seen) then
        let '(ok, bad) := sort_codes seen cs in (ok, (c, u "duplicate within import request") :: bad)
      else
        let '(ok, bad) := sort_codes (c :: seen) cs in (c :: ok, bad)
  end.

Definition import_vouchers now (ids : nat → uuid) (k : uuid) (who requesting : option uuid)
    (cs : list pystr) : M state error (list Voucher * list (pystr * pystr)) :=
  b ← get_batch now k requesting;
  _ ← raise_if (bool_decide (batch_status b ∈ [BATCH_EXPIRED; BATCH_REVOKED]))
        (VoucherBatchNotActiveError (batch_status b));
  _ ← raise_if (MAX_BULK_CREATE_SIZE <? Z.of_nat (length cs))
        (VoucherBatchQuantityExceededError (Z.of_nat (length cs)));
  let '(candidates, rejected) := sort_codes [] cs in
  existing ← gets (λ w, find_existing_codes candidates (db w));
  let to_insert := List.filter (λ c, negb (bool_decide (c ∈ existing))) candidates in
  let rejected' := rejected ++
    map (λ c, (c, u "code already exists")) (List.filter (λ c, bool_decide (c ∈ existing)) candidates) in
  imported ← (if bool_decide (to_insert = []) then mret []
              else bulk_create_vouchers ids b to_insert);
  _ ← (if bool_decide (imported = []) then mret tt
       else audit who VOUCHER_CODES_IMPORTED (batch_row_id b));
  mret (imported, rejected').

(** [get_batch_stats]: the five counts, the total and the redeemed. *)
Definition count_status (k : uuid) (s : VoucherStatus) d : Z :=
  rowcount (λ v, bool_decide (batch_id v = k) && bool_decide (status v = s)
                 && negb (is_deleted v)) (vouchers d).
Record batch_stats := Stats {
  unused_count : Z; active_count : Z; exhausted_count : Z; expired_count : Z;
  revoked_count : Z; total : Z; redeemed_count : Z }.
Definition get_batch_stats now (k : uuid) (requesting : option uuid) : M state error batch_stats :=
  b ← get_batch now k requesting;
  gets (λ w,
    let n s := count_status (batch_row_id b) s (db w) in
    let total := n UNUSED + n ACTIVE + n EXHAUSTED + n EXPIRED + n REVOKED in
    Stats (n UNUSED) (n ACTIVE) (n EXHAUSTED) (n EXPIRED) (n REVOKED) total (total - n UNUSED)).
End service.

(** ** The invariant of the two tables *)

(** A voucher of a batch that allows [m] uses. *)
Definition voucher_ok (m : Z) (v : Voucher) : Prop :=
  match status v with
  | UNUSED => use_count v = 0
  | ACTIVE => 0 < use_count v < m
  | EXHAUSTED => use_count v = m
  | REVOKED => 0 ≤ use_count v < m
  | EXPIRED => False
  end.
Definition voucher_in (d : database) (v : Voucher) : Prop :=
  ∃ b, b ∈ batches d ∧ batch_row_id b = batch_id v ∧ 0 < max_uses_per_voucher b
     ∧ voucher_ok (max_uses_per_voucher b) v.
Record consistent (d : database) : Prop := {
  batches_keyed : keyed (batches d);
  vouchers_keyed : keyed (vouchers d);
  batches_positive : ∀ b, b ∈ batches d → 0 < max_uses_per_voucher b;
  vouchers_in : ∀ v, v ∈ vouchers d → voucher_in d v;
}.

(** Every row stays, with its identity, its cap and its uses. *)
Definition frame (d d' : database) : Prop :=
  (∀ b, b ∈ batches d → ∃ b', b' ∈ batches d' ∧ batch_row_id b' = batch_row_id b
      ∧ max_uses_per_voucher b' = max_uses_per_voucher b)
  ∧ (∀ v, v ∈ vouchers d → ∃ v', v' ∈ vouchers d' ∧ voucher_id v' = voucher_id v
      ∧ batch_id v' = batch_id v ∧ use_count v' = use_count v).
(** A change that keeps the invariant and redeems nothing. *)
Definition calm (d d' : database) : Prop := consistent d → consistent d' ∧ frame d d'.

#[export] Instance frame_preorder : PreOrder frame.
Proof.
  split.
  - intros d. split; eauto 6.
  - intros d1 d2 d3 [Hb1 Hv1] [Hb2 Hv2]. split.
    + intros b (b1 & H1 & ? & ?)%Hb1. apply Hb2 in H1 as (b2 & ? & ? & ?).
      exists b2. split_and!; congruence || done.
    + intros v (v1 & H1 & ? & ? & ?)%Hv1. apply Hv2 in H1 as (v2 & ? & ? & ? & ?).
      exists v2. split_and!; congruence || done.
Qed.
#[export] Instance calm_preorder : PreOrder calm.
Proof.
  split; [by intros d Hd|]. intros d1 d2 d3 H12 H23 H1.
  destruct (H12 H1) as [H2 Hf]. destruct (H23 H2) as [H3 Hf']. split; [done|by etrans].
Qed.

(** Two rows of a keyed table with one identifier are one row. *)
Lemma keyed_inj {T} `{HasId T} (t : list T) x y :
  keyed t → x ∈ t → y ∈ t → row_id x = row_id y → x = y.
Proof.
  intros Hk Hx Hy Heq. pose proof (by_id_unique (row_id x) t x Hk Hx eq_refl) as H1.
  rewrite (by_id_unique (row_id x) t y Hk Hy (eq_sym Heq)) in H1. by apply Some_inj.
Qed.

Lemma calm_log e d : calm d (log e d).
Proof. intros []. split; [by constructor|]. split; eauto 6. Qed.

(** A write of batch rows that keeps identities and caps. *)
Lemma calm_batches f k d :
  (∀ b, batch_row_id (f b) = batch_row_id b ∧ max_uses_per_voucher (f b) = max_uses_per_voucher b) →
  calm d (on_batches (set_row f k) d).
Proof.
  intros Hf [Hb Hv Hpo Hin].
  assert (∀ b, b ∈ batches d → ∃ b', b' ∈ set_row f k (batches d)
    ∧ batch_row_id b' = batch_row_id b ∧ max_uses_per_voucher b' = max_uses_per_voucher b) as Hrow.
  { intros b Hbd. exists (if has_id k b then f b else b). split.
    - apply elem_of_update. eauto.
    - destruct (has_id k b); [apply Hf|done]. }
  split; [constructor|split]; simpl; try done.
  - apply keyed_set_row; [apply Hf|done].
  - intros b Hbd. apply elem_of_update in Hbd as (b0 & Hb0 & ->).
    destruct (has_id k b0); [|by apply Hpo]. destruct (Hf b0) as [_ ->]. by apply Hpo.
  - intros v (b & Hbd & Hid & Hpos & Hok)%Hin. apply Hrow in Hbd as (b' & ? & ? & Hm).
    exists b'. rewrite Hm. simpl. split_and!; congruence || done.
  - eauto 6.
Qed.

Lemma calm_revoke k d : calm d (on_vouchers (update (revocable k) (set_status REVOKED)) d).
Proof.
  intros [Hb Hv Hpo Hin]. split; [constructor|split]; simpl; try done.
  - unfold keyed. by rewrite map_update.
  - intros v Hvd. apply elem_of_update in Hvd as (v0 & Hv0 & ->).
    destruct (Hin _ Hv0) as (b & Hbd & Hid & Hpos & Hok). exists b.
    destruct (revocable k v0) eqn:Er; simpl; [|done]. split_and!; try done.
    unfold revocable in Er. apply andb_true_iff in Er as [_ Er].
    apply negb_true_iff, bool_decide_eq_false in Er. unfold voucher_ok in *. simpl.
    destruct (status v0); set_solver by lia.
  - eauto 6.
  - intros v Hvd. exists (if revocable k v then set_status REVOKED v else v). split.
    + apply elem_of_update. eauto.
    + by destruct (revocable k v).
Qed.

Section safety.
Context {R : Type} `{PyUnicode, Redis R}.
Variables (organization_exists : uuid → bool) (location_in : uuid → uuid → bool).
Variables (max_attempts window_minutes : Z) (has_audit_writer : bool).
Variable caller_scope : option (list uuid).
Abbreviation state := (world database (conn R)).
Implicit Types (w : state) (now : datetime) (d : database).

Definition calm_world w w' : Prop := calm (db w) (db w').
#[local] Instance calm_world_preorder : PreOrder calm_world.
Proof.
  split; [by intros w|]. intros w1 w2 w3. unfold calm_world. intros. by etrans.
Qed.
Abbreviation quiet := (respects calm_world).

Lemma quiet_write (f : database → database) : (∀ d, calm d (f d)) → quiet (write (R:=R) f).
Proof. intros Hf w. apply Hf. Qed.
Lemma quiet_ext {A} (m : M (conn R) error A) : quiet (on_ext m).
Proof. intros w. unfold on_ext, zoom. by destruct (m (ext w)). Qed.
Lemma quiet_audit who a k : quiet (audit (R:=R) has_audit_writer who a k).
Proof. unfold audit. destruct has_audit_writer; [apply quiet_write, calm_log|auto with pres]. Qed.
Lemma quiet_transition s t : quiet (transition (R:=R) s t).
Proof. apply respects_raise_if; apply _. Qed.
Lemma quiet_batches f k :
  (∀ b, batch_row_id (f b) = batch_row_id b ∧ max_uses_per_voucher (f b) = max_uses_per_voucher b) →
  quiet (write (R:=R) (on_batches (set_row f k))).
Proof. intros Hf. apply quiet_write. intros d. by apply calm_batches. Qed.
Lemma quiet_refresh now b : quiet (refresh_batch_expiry (R:=R) now b).
Proof.
  unfold refresh_batch_expiry. apply respects_if; [|auto with pres].
  apply respects_bind; [apply _|by apply quiet_batches|]. intros []. apply respects_ret, _.
Qed.
#[local] Hint Resolve quiet_audit quiet_transition quiet_refresh quiet_ext : pres.

Lemma quiet_get_batch now k req : quiet (get_batch (R:=R) caller_scope now k req).
Proof. unfold get_batch. repeat (apply respects_bind; [apply _|auto with pres|intros ?]). auto with pres. Qed.

Lemma quiet_approve now k who req :
  quiet (approve_batch (R:=R) has_audit_writer caller_scope now k who req).
Proof.
  apply respects_bind; [apply _|apply quiet_get_batch|intros b]. unfold approve_and_activate.
  repeat (apply respects_bind; [apply _|first [by apply quiet_batches|auto with pres]|intros ?]).
  auto with pres.
Qed.

Lemma quiet_revoke now k who req :
  quiet (revoke_batch (R:=R) has_audit_writer caller_scope now k who req).
Proof.
  apply respects_bind; [apply _|apply quiet_get_batch|intros b].
  repeat (apply respects_bind; [apply _|first [by apply quiet_batches
    |apply quiet_write; intros d; apply calm_revoke|auto with pres]|intros ?]).
  auto with pres.
Qed.

Lemma quiet_refuse {A} v b r : quiet (refuse (A:=A) (R:=R) has_audit_writer v b r).
Proof.
  unfold refuse, record_redemption_failure.
  apply respects_bind; [apply _|apply respects_if; auto with pres|]. intros []. auto with pres.
Qed.

Lemma quiet_redeemable now typed source :
  quiet (redeemable max_attempts window_minutes has_audit_writer now typed source).
Proof.
  unfold redeemable, enforce_redemption_rate_limit, get_voucher_and_batch.
  repeat (apply respects_bind; [apply _|auto with pres|intros ?]).
  - repeat (apply respects_bind; [apply _|auto with pres|intros ?]). auto with pres.
  - destruct (redemption_failure_reason _ _ _); [apply quiet_refuse|auto with pres].
Qed.

(** ** One redemption *)

(** The update of one voucher row, as a database. *)
Definition after_redeem now (v : Voucher) (b : VoucherBatch) (f : option first_use) d : database :=
  on_vouchers (update (unchanged (voucher_id v) (status v) (use_count v) d)
                 (redeemed (max_uses_per_voucher b) now f)) d.

(** A snapshot a client may hold: redeemable when read, of rows that exist. *)
Definition snapshot_ok d (s : Voucher * VoucherBatch) : Prop :=
  (status s.1 = UNUSED ∨ status s.1 = ACTIVE)
  ∧ batch_row_id s.2 = batch_id s.1
  ∧ (∃ v, v ∈ vouchers d ∧ voucher_id v = voucher_id s.1 ∧ batch_id v = batch_id s.1)
  ∧ (∃ b, b ∈ batches d ∧ batch_row_id b = batch_row_id s.2
        ∧ max_uses_per_voucher b = max_uses_per_voucher s.2).

(** What the conditional update does when it matches: the row read is the row
    written, one use is added, and the cap still holds. *)
Lemma redeem_step now v b f d :
  consistent d → snapshot_ok d (v, b) →
  rowcount (unchanged (voucher_id v) (status v) (use_count v) d) (vouchers d) ≠ 0 →
  let d' := after_redeem now v b f d in
  consistent d' ∧
  (∀ b0, b0 ∈ batches d → b0 ∈ batches d') ∧
  ∀ v0, v0 ∈ vouchers d → ∃ v1, v1 ∈ vouchers d' ∧ voucher_id v1 = voucher_id v0
    ∧ batch_id v1 = batch_id v0
    ∧ use_count v1 = use_count v0 + (if bool_decide (voucher_id v0 = voucher_id v) then 1 else 0).
Proof.
  intros [Hb Hv Hpo Hin] (Hst & Hbid & (vr & Hvr & Hid & Hbat) & (br & Hbr & Hbrid & Hmax)) Hrow d'.
  cbn [fst snd] in *.
  set (p := unchanged (voucher_id v) (status v) (use_count v) d) in *.
  assert (∃ v0, v0 ∈ vouchers d ∧ p v0 = true) as (v0 & Hv0 & Hp0).
  { unfold rowcount in Hrow. destruct (select p (vouchers d)) as [|v0 l] eqn:E; [done|].
    exists v0. apply elem_of_select. rewrite E. apply list_elem_of_here. }
  assert (∀ x, p x = true → voucher_id x = voucher_id v ∧ status x = status v
    ∧ use_count x = use_count v) as Hp.
  { intros x Hx. unfold p, unchanged, has_id in Hx.
    apply andb_true_iff in Hx as [Hx _]. apply andb_true_iff in Hx as [Hx _].
    apply andb_true_iff in Hx as [Hx Hu]. apply andb_true_iff in Hx as [Hi Hs].
    apply Z.eqb_eq in Hu. apply bool_decide_eq_true in Hi, Hs. done. }
  destruct (Hp _ Hp0) as (Hid0 & Hst0 & Huc0).
  assert (∀ x, x ∈ vouchers d → p x = bool_decide (voucher_id x = voucher_id v)) as Hpeq.
  { intros x Hx. case_bool_decide as Hxid.
    - assert (x = v0) as ->; [|done]. apply (keyed_inj (vouchers d)); try done.
      change (voucher_id x = voucher_id v0). congruence.
    - destruct (p x) eqn:Epx; [|done]. by destruct (Hp _ Epx). }
  split; [constructor|split]; simpl; try done.
  - unfold keyed. by rewrite map_update.
  - intros x Hx. apply elem_of_update in Hx as (x0 & Hx0 & ->).
    destruct (Hin _ Hx0) as (bx & Hbx & Hbxid & Hpos & Hok). fold p.
    destruct (p x0) eqn:Ep; [|exact (Hin _ Hx0)].
    destruct (Hp _ Ep) as (Hxid & Hxst & Hxuc).
    assert (x0 = vr) as ->.
    { apply (keyed_inj (vouchers d)); try done. change (voucher_id x0 = voucher_id vr). congruence. }
    assert (bx = br) as ->.
    { apply (keyed_inj (batches d)); try done.
      change (batch_row_id bx = batch_row_id br). congruence. }
    exists br. simpl. split_and!; try done. unfold voucher_ok in *. simpl.
    rewrite Hxst in Hok. rewrite <- Hmax.
    destruct (Z.leb_spec (max_uses_per_voucher br) (use_count vr + 1));
      destruct Hst as [Hst|Hst]; rewrite Hst in Hok; simpl in *; lia.
  - intros x Hx. exists (if p x then redeemed (max_uses_per_voucher b) now f x else x).
    split; [apply elem_of_update; eauto|]. rewrite (Hpeq x Hx).
    case_bool_decide; simpl; split_and!; done || lia.
Qed.

Lemma first_match_Some cs d v :
  first_match cs d = Some v → v ∈ vouchers d ∧ code v ∈ cs ∧ is_deleted v = false.
Proof.
  induction cs as [|c cs IH]; simpl; [done|].
  destruct (get_voucher_by_code c d) as [v0|] eqn:E.
  - intros [= ->]. apply select_one_Some in E as [Hin Hc].
    apply andb_true_iff in Hc as [Hc Hd]. apply bool_decide_eq_true in Hc as <-.
    apply negb_true_iff in Hd. split_and!; [done|apply list_elem_of_here|done].
  - intros Hm. destruct (IH Hm) as (? & ? & ?). split_and!; try done. by apply elem_of_cons; right.
Qed.

Lemma get_batch_row_Some k d b :
  get_batch_row k d = Some b → b ∈ batches d ∧ batch_row_id b = k ∧ batch_is_deleted b = false.
Proof.
  intros [Hin Hb]%select_one_Some. apply andb_true_iff in Hb as [Hb Hd].
  apply bool_decide_eq_true in Hb. by apply negb_true_iff in Hd.
Qed.

Lemma refresh_run now b w :
  ∃ w', refresh_batch_expiry now b w =
    (Ok (if bool_decide (batch_status b = BATCH_ACTIVE) && is_batch_expired b now
         then set_batch_status BATCH_EXPIRED b else b), w')
  ∧ vouchers (db w') = vouchers (db w).
Proof.
  unfold refresh_batch_expiry. destruct (_ && _); eexists; split; reflexivity.
Qed.

Abbreviation redeemable := (redeemable max_attempts window_minutes has_audit_writer).

(** The read half returns a voucher the code names, with its batch, and
    nothing stands in the way of redeeming it. *)
Lemma redeemable_Ok now typed source w v b w' :
  redeemable now typed source w = (Ok (v, b), w') →
  first_match (voucher_code_lookup_candidates typed) (db w) = Some v
  ∧ (∃ b0, get_batch_row (batch_id v) (db w) = Some b0 ∧
       b = if bool_decide (batch_status b0 = BATCH_ACTIVE) && is_batch_expired b0 now
           then set_batch_status BATCH_EXPIRED b0 else b0)
  ∧ redemption_failure_reason v b now = None
  ∧ vouchers (db w') = vouchers (db w).
Proof.
  unfold Voucher.redeemable, enforce_redemption_rate_limit, get_voucher_and_batch.
  intros Hrun. apply bind_Ok in Hrun as ([] & w1 & H1 & Hrun).
  assert (db w1 = db w) as Hdb.
  { unfold on_ext, zoom in H1. destruct (fixed_window _ _ _ _ _ _ _). by injection H1 as _ <-. }
  apply bind_Ok in Hrun as ([v1 b1] & w2 & H2 & Hrun).
  apply bind_Ok in H2 as (found & w3 & [= <- <-] & H2). rewrite Hdb in H2.
  destruct (first_match _ (db w)) as [v0|] eqn:Ev; [|done].
  apply bind_Ok in H2 as (v2 & w3 & [= <- <-] & H2).
  apply bind_Ok in H2 as (row & w3 & [= <- <-] & H2). rewrite Hdb in H2.
  destruct (get_batch_row (batch_id v0) (db w)) as [b0|] eqn:Eb; [|done].
  apply bind_Ok in H2 as (b2 & w3 & [= <- <-] & H2).
  apply bind_Ok in H2 as (b3 & w3 & H2 & [= <- <- <-]).
  destruct (refresh_run now b0 w1) as (w4 & Hr & Hv). rewrite Hr in H2.
  injection H2 as <- <-. simpl in Hrun.
  destruct (redemption_failure_reason v0 _ now) eqn:Er.
  - unfold refuse in Hrun. by apply bind_Ok in Hrun as (? & ? & _ & ?).
  - injection Hrun as <- <- <-. split_and!; try done; [by exists b0|]. by rewrite Hv, Hdb.
Qed.

Lemma failure_None v b now :
  redemption_failure_reason v b now = None ↔
  batch_status b = BATCH_ACTIVE
  ∧ (status v = UNUSED ∨ status v = ACTIVE ∧ is_post_redemption_expired v now = false).
Proof.
  unfold redemption_failure_reason.
  destruct (bool_decide_reflect (batch_status b = BATCH_ACTIVE)) as [Hb|Hb];
    [|by destruct (status v); simpl; (split; [|intros [? _]])].
  generalize (is_post_redemption_expired v now) as late. intros late.
  destruct (status v), late; simpl; split; try done; try (by auto);
    by intros [_ [?|[? ?]]].
Qed.

Lemma redeemable_snapshot now typed source w v b w' :
  redeemable now typed source w = (Ok (v, b), w') → consistent (db w) → snapshot_ok (db w') (v, b).
Proof.
  intros Hrun Hc. pose proof (quiet_redeemable now typed source w Hc) as [_ [Hfb _]]. rewrite Hrun in Hfb. simpl in Hfb.
  apply redeemable_Ok in Hrun as (Hv & (b0 & Hb0 & ->) & Hr & Hvs).
  apply first_match_Some in Hv as (Hv & _ & _). apply get_batch_row_Some in Hb0 as (Hb0 & Hid & _).
  apply failure_None in Hr as [_ Hst]. destruct (Hfb _ Hb0) as (b' & Hb' & Hid' & Hmax').
  unfold snapshot_ok. cbn [fst snd]. split_and!.
  - naive_solver.
  - by destruct (_ && _).
  - exists v. by rewrite Hvs.
  - exists b'. by destruct (_ && _).
Qed.

Abbreviation redeem_write := (redeem_write (R:=R) has_audit_writer).
Definition first_use_of now (identifier : pystr) (v : Voucher) (b : VoucherBatch) : option first_use :=
  if bool_decide (status v = UNUSED)
  then Some (FirstUse now (normalize_redeemed_identifier identifier)
               (now + minutes (validity_minutes b)))
  else None.

(** The write half succeeds exactly when the row is still the one read. *)
Lemma redeem_write_Ok now later identifier v b w r w' :
  redeem_write now later identifier v b w = (Ok r, w') →
  rowcount (unchanged (voucher_id v) (status v) (use_count v) (db w)) (vouchers (db w)) ≠ 0
  ∧ ∃ e, db w' = (if has_audit_writer then log e else λ d, d)
              (after_redeem now v b (first_use_of now identifier v b) (db w)).
Proof.
  unfold Voucher.redeem_write, redeem_voucher_conditionally, audit, write, on_db.
  fold (first_use_of now identifier v b). mstep.
  destruct (Z.eqb_spec (rowcount (unchanged (voucher_id v) (status v) (use_count v) (db w))
    (vouchers (db w))) 0) as [|Hne].
  - unfold refuse. mstep. by destruct (record_redemption_failure _ _ _ _) as [[[]|] ?].
  - simpl. destruct (by_id _ _) as [v'|].
    + intros Hx. split; [done|]. exists (mk_audit None VOUCHER_REDEEMED (voucher_id v')).
      destruct has_audit_writer; by injection Hx as _ <-.
    + unfold refuse. mstep. by destruct (record_redemption_failure _ _ _ _) as [[[]|] ?].
Qed.

(** ** Many clients at once *)
Record system := System {
  shared : state;
  held : list (Voucher * VoucherBatch);   (** reads not yet written *)
  wins : list uuid;                       (** the voucher of each success *)
}.

(** A request's read, its write, and anything else that redeems nothing, in
    any order.  A request that fails is rolled back. *)
Inductive step : system → system → Prop :=
| step_read now typed source s v b w' :
    redeemable now typed source (shared s) = (Ok (v, b), w') →
    step s (System w' ((v, b) :: held s) (wins s))
| step_refused now typed source s e w' :
    redeemable now typed source (shared s) = (Raise e, w') →
    step s (System (World (db (shared s)) (ext w')) (held s) (wins s))
| step_win now later identifier s v b r w' :
    (v, b) ∈ held s → redeem_write now later identifier v b (shared s) = (Ok r, w') →
    step s (System w' (held s) (voucher_id v :: wins s))
| step_lose now later identifier s v b e w' :
    (v, b) ∈ held s → redeem_write now later identifier v b (shared s) = (Raise e, w') →
    step s (System (World (db (shared s)) (ext w')) (held s) (wins s))
| step_other s d x :
    calm (db (shared s)) d → step s (System (World d x) (held s) (wins s)).

Definition won (k : uuid) (ws : list uuid) : Z :=
  Z.of_nat (length (List.filter (λ x, bool_decide (x = k)) ws)).

(** Every voucher and batch of [d] is in [d'], and each voucher's count has
    grown by the wins recorded for it. *)
Definition accounts (d d' : database) (ws : list uuid) : Prop :=
  (∀ b, b ∈ batches d → ∃ b', b' ∈ batches d' ∧ batch_row_id b' = batch_row_id b
      ∧ max_uses_per_voucher b' = max_uses_per_voucher b)
  ∧ ∀ v, v ∈ vouchers d → ∃ v', v' ∈ vouchers d' ∧ voucher_id v' = voucher_id v
      ∧ batch_id v' = batch_id v ∧ use_count v' = use_count v + won (voucher_id v) ws.

Record healthy (d0 : database) (s : system) : Prop := {
  healthy_db : consistent (db (shared s));
  healthy_held : Forall (snapshot_ok (db (shared s))) (held s);
  healthy_wins : accounts d0 (db (shared s)) (wins s);
}.

Lemma snapshot_frame d d' s : frame d d' → snapshot_ok d s → snapshot_ok d' s.
Proof.
  intros [Hb Hv] (? & ? & (v & Hv0 & ? & ?) & (b & Hb0 & ? & ?)). unfold snapshot_ok. split_and!; try done.
  - apply Hv in Hv0 as (v' & ? & ? & ? & ?). exists v'. split_and!; congruence || done.
  - apply Hb in Hb0 as (b' & ? & ? & ?). exists b'. split_and!; congruence || done.
Qed.

Lemma accounts_frame d0 d d' ws : frame d d' → accounts d0 d ws → accounts d0 d' ws.
Proof.
  intros [Hb Hv] [Hb0 Hv0]. split.
  - intros b (b1 & H1 & ? & ?)%Hb0. apply Hb in H1 as (b2 & ? & ? & ?).
    exists b2. split_and!; congruence || done.
  - intros v (v1 & H1 & ? & ? & ?)%Hv0. apply Hv in H1 as (v2 & ? & ? & ? & ?).
    exists v2. split_and!; congruence || done.
Qed.

Lemma won_cons k x ws : won k (x :: ws) = won k ws + (if bool_decide (k = x) then 1 else 0).
Proof.
  unfold won. simpl. rewrite (bool_decide_ext (k = x) (x = k)) by done.
  case_bool_decide; simpl; lia.
Qed.

Lemma snapshot_redeemed now v b f d s :
  consistent d → snapshot_ok d (v, b) →
  rowcount (unchanged (voucher_id v) (status v) (use_count v) d) (vouchers d) ≠ 0 →
  snapshot_ok d s → snapshot_ok (after_redeem now v b f d) s.
Proof.
  intros Hc Hs Hrow (? & ? & (v0 & Hv0 & ? & ?) & (b0 & Hb0 & ? & ?)).
  destruct (redeem_step now v b f d Hc Hs Hrow) as (_ & Hb & Hv). unfold snapshot_ok.
  split_and!; try done.
  - apply Hv in Hv0 as (v1 & ? & ? & ? & _). exists v1. split_and!; congruence || done.
  - exists b0. auto.
Qed.

Lemma accounts_redeemed now v b f d0 d ws :
  consistent d → snapshot_ok d (v, b) →
  rowcount (unchanged (voucher_id v) (status v) (use_count v) d) (vouchers d) ≠ 0 →
  accounts d0 d ws → accounts d0 (after_redeem now v b f d) (voucher_id v :: ws).
Proof.
  intros Hc Hs Hrow [Hb0 Hv0].
  destruct (redeem_step now v b f d Hc Hs Hrow) as (_ & Hb & Hv). split.
  - intros b1 (b2 & ? & ? & ?)%Hb0. exists b2. auto.
  - intros v1 (v2 & H2 & Hid & Hbid & Huc)%Hv0. apply Hv in H2 as (v3 & ? & Hid3 & Hbid3 & Huc3).
    exists v3. split_and!; [done|congruence..|]. rewrite Huc3, Huc, won_cons, Hid. lia.
Qed.

Lemma healthy_calm d0 w w' h ws :
  calm_world w w' → healthy d0 (System w h ws) → healthy d0 (System w' h ws).
Proof.
  intros Hcalm [Hc Hh Ha]. destruct (Hcalm Hc) as [Hc' Hf]. constructor; simpl in *.
  - done.
  - eapply Forall_impl; [exact Hh|]. intros s. by apply snapshot_frame.
  - by eapply accounts_frame.
Qed.

Lemma healthy_same_db d0 w w' h ws :
  db w' = db w → healthy d0 (System w h ws) → healthy d0 (System w' h ws).
Proof. intros Hdb. apply healthy_calm. unfold calm_world. by rewrite Hdb. Qed.

Lemma healthy_step d0 s s' : step s s' → healthy d0 s → healthy d0 s'.
Proof.
  intros Hstep Hh. destruct s as [w h ws]. inversion Hstep; subst; simpl in *.
  - assert (calm_world w w') as Hq.
    { pose proof (quiet_redeemable now typed source w) as Hq. by rewrite H1 in Hq. }
    pose proof (healthy_calm _ _ _ _ _ Hq Hh) as [Hc' Hh' Ha']. destruct Hh as [Hc _ _].
    constructor; simpl in *; try done. constructor; [|done]. by eapply redeemable_snapshot.
  - by eapply healthy_same_db; [|exact Hh].
  - destruct Hh as [Hc Hh Ha]. simpl in *.
    assert (snapshot_ok (db w) (v, b)) as Hs by (rewrite Forall_forall in Hh; by apply Hh).
    apply redeem_write_Ok in H2 as (Hrow & e & Hdb).
    assert (healthy d0 (System (World (after_redeem now v b (first_use_of now identifier v b) (db w))
      (ext w')) h (voucher_id v :: ws))) as Hh'.
    { constructor; simpl.
      - by apply redeem_step.
      - eapply Forall_impl; [exact Hh|]. intros s. by apply snapshot_redeemed.
      - by apply accounts_redeemed. }
    eapply healthy_calm; [|exact Hh']. unfold calm_world. rewrite Hdb. simpl.
    destruct has_audit_writer; [apply calm_log|done].
  - by eapply healthy_same_db; [|exact Hh].
  - by eapply healthy_calm; [|exact Hh].
Qed.

(** C1: no interleaving redeems a voucher beyond its cap.  Start from
    consistent tables and let any number of requests read, write, lose and
    roll back in any order, mixed with any other changes that redeem nothing:
    the successful redemptions of a voucher never exceed the uses it had left,
    one for a single-use code, and the tables stay consistent. *)
Theorem redemptions_never_exceed_cap d0 x s v b :
  consistent d0 → rtc step (System (World d0 x) [] []) s →
  v ∈ vouchers d0 → b ∈ batches d0 → batch_row_id b = batch_id v →
  consistent (db (shared s)) ∧ won (voucher_id v) (wins s) ≤ max_uses_per_voucher b - use_count v.
Proof.
  intros Hc Hrun Hv Hb Hid.
  assert (healthy d0 s) as [Hc' _ [Hb' Hv']].
  { assert (healthy d0 (System (World d0 x) [] [])) as Hstart.
    { constructor; simpl; [done|constructor|]. split; [eauto 6|].
      intros v0 Hv0. exists v0. split_and!; try done. unfold won. simpl. lia. }
    clear -Hrun Hstart. induction Hrun; [done|]. apply IHHrun. by eapply healthy_step. }
  split; [done|]. apply Hv' in Hv as (v1 & Hv1 & Hvid & Hvb & Huc).
  apply Hb' in Hb as (b1 & Hb1 & Hbid & Hmax).
  destruct Hc' as [Hkb _ _ Hin]. destruct (Hin _ Hv1) as (b2 & Hb2 & Hb2id & Hpos & Hok).
  assert (b2 = b1) as ->.
  { apply (keyed_inj (batches (db (shared s)))); try done.
    change (batch_row_id b2 = batch_row_id b1). congruence. }
  unfold voucher_ok in Hok. rewrite <- Hmax. destruct (status v1); lia.
Qed.

(** ** One request at a time *)
Abbreviation limited := (enforce_redemption_rate_limit max_attempts window_minutes).

Lemma limited_db now source w w1 : limited now source w = (Ok tt, w1) → db w1 = db w.
Proof.
  unfold enforce_redemption_rate_limit, on_ext, zoom.
  destruct (fixed_window _ _ _ _ _ _ _). by intros [= _ <-].
Qed.

Definition open_for now d (v : Voucher) (b : VoucherBatch) : Prop :=
  get_batch_row (batch_id v) d = Some b ∧ batch_status b = BATCH_ACTIVE
  ∧ is_batch_expired b now = false
  ∧ (status v = UNUSED ∨ status v = ACTIVE ∧ is_post_redemption_expired v now = false).

Lemma redeemable_iff now typed source w w1 v b :
  limited now source w = (Ok tt, w1) →
  (∃ w', redeemable now typed source w = (Ok (v, b), w')) ↔
  first_match (voucher_code_lookup_candidates typed) (db w) = Some v ∧ open_for now (db w) v b.
Proof.
  intros Hl. pose proof (limited_db _ _ _ _ Hl) as Hdb. split.
  - intros [w' Hrun]. apply redeemable_Ok in Hrun as (Hv & (b0 & Hb0 & Hb) & Hr & _).
    split; [done|]. apply failure_None in Hr as [Hact Hst]. unfold open_for.
    destruct (bool_decide (batch_status b0 = BATCH_ACTIVE)) eqn:Ea, (is_batch_expired b0 now) eqn:Ee;
      simpl in Hb; subst b; try done.
    apply bool_decide_eq_false in Ea. done.
  - intros (Hv & Hb & Hact & Hexp & Hst). unfold Voucher.redeemable, get_voucher_and_batch.
    mstep. rewrite Hl, Hdb, Hv. simpl. mstep. rewrite Hdb, Hb. simpl.
    unfold refresh_batch_expiry. rewrite Hexp, andb_false_r. mstep.
    rewrite (proj2 (failure_None v b now)) by done. by eexists.
Qed.

Lemma open_unchanged now d v b :
  v ∈ vouchers d → is_deleted v = false → open_for now d v b →
  unchanged (voucher_id v) (status v) (use_count v) d v = true.
Proof.
  intros Hv Hdel (Hb & Hact & _ & _). apply get_batch_row_Some in Hb as (Hb & Hid & Hbdel).
  unfold unchanged, has_id, active_batch. rewrite !bool_decide_true, Z.eqb_refl, Hdel by done. simpl.
  apply existsb_exists. exists b. split; [by apply list_elem_of_In|].
  rewrite !andb_true_iff, !bool_decide_eq_true, Hbdel. split_and!; try done. by apply bool_decide_eq_true.
Qed.

Lemma redeem_write_run now later identifier v b w :
  consistent (db w) → v ∈ vouchers (db w) → is_deleted v = false → open_for now (db w) v b →
  (redeem_write now later identifier v b w).1
    = Ok (redeemed (max_uses_per_voucher b) now (first_use_of now identifier v b) v, b).
Proof.
  intros Hc Hv Hdel Hopen. pose proof (open_unchanged now _ v b Hv Hdel Hopen) as Hp.
  unfold Voucher.redeem_write, redeem_voucher_conditionally, audit, write, on_db.
  fold (first_use_of now identifier v b). mstep.
  pose proof (rowcount_pos _ _ _ Hv Hp) as Hpos.
  rewrite (proj2 (Z.eqb_neq _ 0)) by lia. cbn [db ext on_vouchers vouchers].
  rewrite (by_id_unique (voucher_id v) _
    (redeemed (max_uses_per_voucher b) now (first_use_of now identifier v b) v)).
  - by destruct has_audit_writer.
  - unfold keyed. rewrite map_update by done. apply Hc.
  - apply elem_of_update. exists v. by rewrite Hp.
  - done.
Qed.

(** What it takes to redeem.  For a source within its rate limit,
    [redeem_voucher] succeeds exactly when the first spelling of the typed
    code that names a voucher names one that is unused, or in use and not
    past its own expiry, in a batch that is active and not past its shelf
    life; it then adds one use, and on the first use starts the validity
    period and records who redeemed it. *)
Theorem redeem_accepts_iff now later typed identifier source w w1 v' b :
  consistent (db w) → limited now source w = (Ok tt, w1) →
  (redeem_voucher max_attempts window_minutes has_audit_writer now later typed identifier source w).1
    = Ok (v', b) ↔
  ∃ v, first_match (voucher_code_lookup_candidates typed) (db w) = Some v
    ∧ open_for now (db w) v b
    ∧ v' = redeemed (max_uses_per_voucher b) now (first_use_of now identifier v b) v.
Proof.
  intros Hc Hl. unfold redeem_voucher.
  assert (∀ v b0 w', redeemable now typed source w = (Ok (v, b0), w') →
    (redeem_write now later identifier v b0 w').1
      = Ok (redeemed (max_uses_per_voucher b0) now (first_use_of now identifier v b0) v, b0)) as Hw.
  { intros v b0 w' Hrun. pose proof (proj1 (redeemable_iff _ _ _ _ _ _ _ Hl) (ex_intro _ _ Hrun))
      as [Hm Hopen]. destruct (first_match_Some _ _ _ Hm) as (Hv & _ & Hdel).
    pose proof (redeemable_Ok _ _ _ _ _ _ _ Hrun) as (_ & _ & _ & Hvs).
    pose proof (quiet_redeemable now typed source w Hc) as [Hc' _]. rewrite Hrun in Hc'.
    apply redeem_write_run; [exact Hc'|by rewrite Hvs|done|].
    assert (batches (db w') = batches (db w)) as Hbs.
    { destruct Hopen as (Hb & Hact & Hexp & Hst).
      clear Hc'. revert Hrun. unfold Voucher.redeemable, get_voucher_and_batch. mstep.
      rewrite Hl, (limited_db _ _ _ _ Hl), Hm. simpl. mstep. rewrite (limited_db _ _ _ _ Hl), Hb. simpl.
      unfold refresh_batch_expiry. rewrite Hexp, andb_false_r. mstep.
      rewrite (proj2 (failure_None v b0 now)) by done.
      intros [= <-]. by rewrite (limited_db _ _ _ _ Hl). }
    unfold open_for, get_batch_row in *. by rewrite Hbs. }
  split.
  - mstep. destruct (redeemable now typed source w) as [[[v b0]|] w'] eqn:Hrun; [|done].
    intros Hok. simpl in Hok. specialize (Hw v b0 w' eq_refl). rewrite Hok in Hw.
    injection Hw as -> ->. exists v.
    by pose proof (proj1 (redeemable_iff _ _ _ _ _ _ _ Hl) (ex_intro _ _ Hrun)) as [? ?].
  - intros (v & Hm & Hopen & ->).
    destruct (proj2 (redeemable_iff now typed source w w1 v b Hl) (conj Hm Hopen)) as [w' Hrun].
    mstep. rewrite Hrun. simpl. by apply Hw.
Qed.

End safety.

Module examples.
#[local] Existing Instance ascii_only.

(** A two-use code of an active batch, and a code never used. *)
Definition lobby : VoucherBatch :=
  mk_batch 1 9 None None None 2 8 None 1440 None 2 BATCH_ACTIVE None None false.
Definition once : Voucher :=
  mk_voucher 10 1 9 None (u "JULY2345") ACTIVE 1 (Some 5) (Some 5) (Some (u "a"))
    (Some (seconds 500)) 2 false.
Definition fresh : Voucher :=
  mk_voucher 11 1 9 None (u "JULY6789") UNUSED 0 None None None None 1 false.
Definition d0 : database := Database [] [] [lobby] [once; fresh] [].
Definition w0 : world database (conn MapRedis.store) := World d0 (Conn ∅ []).

Lemma consistent_d0 : consistent d0.
Proof.
  constructor; simpl.
  - repeat constructor; set_solver.
  - repeat constructor; set_solver.
  - intros b ->%list_elem_of_singleton. done.
  - intros v Hv. exists lobby. rewrite !elem_of_cons, elem_of_nil in Hv.
    destruct Hv as [Hv|[Hv|[]]]; rewrite Hv; split_and!; try done; apply list_elem_of_here.
Qed.

(** Two requests read the code with one use left; the first writes, the second
    finds the row changed. *)
Abbreviation read := (redeemable 20 5 true).
Abbreviation write_half := (redeem_write (R:=MapRedis.store) true).
Definition after_read := Eval vm_compute in (read 7 (u "july-2345") (u "10.0.0.1") w0).2.
Definition after_reads := Eval vm_compute in (read 8 (u "JULY2345") (u "10.0.0.2") after_read).2.
Definition after_win := Eval vm_compute in (write_half 9 9 (u "b") once lobby after_reads).2.
Definition after_lose := Eval vm_compute in (write_half 10 10 (u "c") once lobby after_win).2.

Lemma race_run : rtc (step 20 5 true) (System w0 [] [])
  (System after_win [(once, lobby); (once, lobby)] [10%positive]).
Proof.
  apply (rtc_l _ _ (System after_read [(once, lobby)] [])).
  { refine (step_read _ _ _ 7 (u "july-2345") (u "10.0.0.1") (System w0 [] []) once lobby
      after_read _). by_vm. }
  apply (rtc_l _ _ (System after_reads [(once, lobby); (once, lobby)] [])).
  { refine (step_read _ _ _ 8 (u "JULY2345") (u "10.0.0.2") (System after_read _ _) once lobby
      after_reads _). by_vm. }
  apply (rtc_l _ _ (System after_win [(once, lobby); (once, lobby)] [10%positive])).
  { refine (step_win _ _ _ 9 9 (u "b") (System after_reads _ _) once lobby _ after_win _ _);
      [apply list_elem_of_here|].
    by_vm. }
  apply rtc_once. refine (step_lose _ _ _ 10 10 (u "c") (System after_win _ _) once lobby
    VoucherExhaustedError after_lose _ _); [apply list_elem_of_here|by_vm].
Qed.

Lemma redemptions_never_exceed_cap_witness :
  consistent (db after_win) ∧ won 10 [10%positive] ≤ max_uses_per_voucher lobby - use_count once.
Proof.
  apply (redemptions_never_exceed_cap 20 5 true d0 (ext w0) _ once lobby consistent_d0 race_run);
    [repeat constructor|repeat constructor|reflexivity].
Defined.

Definition limited_w0 := Eval vm_compute in
  (enforce_redemption_rate_limit 20 5 7 (u "10.0.0.1") w0).2.
Lemma redeem_accepts_iff_witness :
  (redeem_voucher 20 5 true 7 7 (u " july 6789 ") (u " guest ") (u "10.0.0.1") w0).1
    = Ok (redeemed 2 7 (Some (FirstUse 7 (u "guest") (7 + minutes 1440))) fresh, lobby).
Proof.
  eapply (redeem_accepts_iff 20 5 true 7 7 (u " july 6789 ") (u " guest ") (u "10.0.0.1") w0).
  - exact consistent_d0.
  - instantiate (1 := limited_w0). by_vm.
  - exists fresh. split; [by_vm|]. split.
    + repeat split; try reflexivity. by left.
    + by_vm.
Defined.
End examples.
End Voucher.
