(* ===== verification/VoucherRequests.v ===== *)
(** The requests of the voucher service as transactions: what each leaves in
    the tables when it commits, the life cycle of a batch over any history of
    requests, and what import, creation and the statistics promise. *)

From S2P Require Import Prelude Table Session PyStr Redis Tenancy Voucher.
Import Voucher.

Module VoucherRequests.

(** ** A request, and the transaction around it *)
Inductive request :=
| Create (ids : nat → uuid) (new_id : uuid) (draw : nat → nat → pystr)
    (who requesting : option uuid) (has_manage_permission : bool) (q : new_batch)
| Approve (k : uuid) (who requesting : option uuid)
| Revoke (k : uuid) (who requesting : option uuid)
| Import (ids : nat → uuid) (k : uuid) (who requesting : option uuid) (cs : list pystr)
| Validate (typed source : pystr)
| Redeem (later : datetime) (typed identifier source : pystr)
| ReadStats (k : uuid) (requesting : option uuid).

Section requests.
Context {R : Type} `{PyUnicode, Redis R}.
Variables (organization_exists : uuid → bool) (location_in : uuid → uuid → bool).
Variables (max_attempts window_minutes : Z) (has_audit_writer : bool).
Variable caller_scope : option (list uuid).
Abbreviation state := (world database (conn R)).
Implicit Types (w : state) (now : datetime) (d : database).

Definition ignore {A} (m : M state error A) : M state error unit := _ ← m; mret tt.
Definition handle now (r : request) : M state error unit :=
  match r with
  | Create ids new_id draw who req manage q =>
      ignore (create_batch organization_exists location_in has_audit_writer caller_scope
                now ids new_id draw who req manage q)
  | Approve k who req => ignore (approve_batch has_audit_writer caller_scope now k who req)
  | Revoke k who req => ignore (revoke_batch has_audit_writer caller_scope now k who req)
  | Import ids k who req cs =>
      ignore (import_vouchers has_audit_writer caller_scope now ids k who req cs)
  | Validate typed source =>
      ignore (validate_voucher max_attempts window_minutes has_audit_writer now typed source)
  | Redeem later typed identifier source =>
      ignore (redeem_voucher max_attempts window_minutes has_audit_writer now later typed
                identifier source)
  | ReadStats k req => ignore (get_batch_stats caller_scope now k req)
  end.
Definition serve now (r : request) w : state := (get_db_session (handle now r) w).2.
Fixpoint serve_all (rs : list (datetime * request)) w : state :=
  match rs with [] => w | (now, r) :: rs => serve_all rs (serve now r w) end.

(** New identifiers are new, and a batch allows at least one use (the schema's
    [ge=1]). *)
Definition fresh_ids (ids : nat → uuid) (n : nat) d : Prop :=
  (∀ i j, (i < n)%nat → (j < n)%nat → ids i = ids j → i = j)
  ∧ ∀ i v, (i < n)%nat → v ∈ vouchers d → voucher_id v ≠ ids i.
Definition admissible d (r : request) : Prop :=
  match r with
  | Create ids new_id _ _ _ _ q =>
      (∀ b, b ∈ batches d → batch_row_id b ≠ new_id) ∧ 0 < nb_max_uses q
      ∧ fresh_ids ids (Z.to_nat (nb_quantity q)) d
  | Import ids _ _ _ cs => fresh_ids ids (length cs) d
  | _ => True
  end.
Fixpoint admissible_all (rs : list (datetime * request)) w : Prop :=
  match rs with
  | [] => True
  | (now, r) :: rs => admissible (db w) r ∧ admissible_all rs (serve now r w)
  end.

(** ** The life cycle of a batch *)
Definition arrow (s t : VoucherBatchStatus) : Prop := t ∈ VOUCHER_BATCH_STATUS_TRANSITIONS s.
Definition moved d d' : Prop :=
  ∀ b, b ∈ batches d → ∃ b', b' ∈ batches d' ∧ batch_row_id b' = batch_row_id b
    ∧ rtc arrow (batch_status b) (batch_status b').
#[local] Instance moved_preorder : PreOrder moved.
Proof.
  split; [intros d b; eauto using rtc_refl|]. intros d1 d2 d3 H12 H23 b Hb.
  destruct (H12 b Hb) as (b2 & Hb2 & Hid2 & Hr2). destruct (H23 b2 Hb2) as (b3 & Hb3 & Hid3 & Hr3).
  exists b3. split_and!; [done|congruence|by etrans].
Qed.

(** What a transaction that began on [d0] has done so far; [holds b]: it also
    has batch [b] in its hands. *)
Definition tracked d0 w : Prop := consistent (db w) ∧ moved d0 (db w).
Definition holds (b : VoucherBatch) d : Prop :=
  ∃ b1, b1 ∈ batches d ∧ batch_row_id b1 = batch_row_id b ∧ batch_status b1 = batch_status b
    ∧ max_uses_per_voucher b1 = max_uses_per_voucher b.
Definition holding d0 (b : VoucherBatch) w : Prop := tracked d0 w ∧ holds b (db w).
Abbreviation any := (λ _ : state, True).

Lemma triple_ret {A} (P : state → Prop) (Q : A → state → Prop) (a : A) (X : state → Prop) :
  (∀ w, P w → Q a w) → triple (E:=error) P (mret a) Q X.
Proof. intros HPQ w Hw. by apply HPQ. Qed.

Lemma triple_transition {A} P s t (f : unit → M state error A) Q :
  (arrow s t → triple P (f tt) Q any) → triple P (transition (R:=R) s t ≫= f) Q any.
Proof.
  intros Hf w Hw. unfold transition, validate_batch_status_transition. mstep.
  destruct (bool_decide_reflect (t ∈ VOUCHER_BATCH_STATUS_TRANSITIONS s)) as [Ht|Ht]; simpl; [|done].
  by apply Hf.
Qed.

Lemma triple_audit d0 b who a k :
  triple (holding d0 b) (audit (R:=R) has_audit_writer who a k) (λ _, holding d0 b) any.
Proof.
  intros w [[Hc Hm] Hh]. unfold audit, write, on_db. destruct has_audit_writer; mstep; [|done].
  split; [split; [by apply calm_log|done]|done].
Qed.

(** Writing the batch in hand along an arrow. *)
Lemma triple_advance d0 (f : VoucherBatch → VoucherBatch) b :
  (∀ x, batch_row_id (f x) = batch_row_id x ∧ max_uses_per_voucher (f x) = max_uses_per_voucher x) →
  (∀ x, batch_status (f x) = batch_status (f b)) →
  arrow (batch_status b) (batch_status (f b)) →
  triple (holding d0 b) (write (R:=R) (on_batches (set_row f (batch_row_id b))))
    (λ _, holding d0 (f b)) any.
Proof.
  intros Hf Hs Harr w [[Hc Hm] (b1 & Hb1 & Hid & Hst & Hmax)]. unfold write, on_db. mstep.
  assert (f b1 ∈ set_row f (batch_row_id b) (batches (db w))) as Hin.
  { apply elem_of_update. exists b1. split; [done|]. unfold has_id.
    by rewrite bool_decide_true. }
  split; [split|]; simpl.
  - by apply calm_batches.
  - etrans; [exact Hm|]. intros x Hx. simpl.
    exists (if has_id (batch_row_id b) x then f x else x).
    split; [apply elem_of_update; eauto|]. unfold has_id. case_bool_decide as Hxid; [|eauto using rtc_refl].
    split; [apply Hf|].
    assert (x = b1) as ->.
    { apply (keyed_inj (batches (db w))); [apply Hc|done..|].
      change (batch_row_id x = batch_row_id b1). etrans; [exact Hxid|done]. }
    rewrite Hst, (Hs b1). by apply rtc_once.
  - exists (f b1). destruct (Hf b1) as [Hi1 Hm1], (Hf b) as [Hi2 Hm2].
    split_and!; [done|congruence| |congruence]. by rewrite (Hs b1).
Qed.

(** ** What each operation leaves *)
Lemma triple_refresh d0 now b :
  triple (holding d0 b) (refresh_batch_expiry (R:=R) now b) (holding d0) any.
Proof.
  unfold refresh_batch_expiry. destruct (bool_decide_reflect (batch_status b = BATCH_ACTIVE)) as [Hb|Hb];
    [|by apply triple_ret]. simpl.
  destruct (is_batch_expired b now); [|by apply triple_ret].
  eapply triple_bind; [apply (triple_advance d0 (set_batch_status BATCH_EXPIRED) b); try done|].
  - unfold arrow. rewrite Hb. simpl. set_solver.
  - intros []. by apply triple_ret.
Qed.

Lemma triple_get_batch d0 now k req :
  triple (tracked d0) (get_batch (R:=R) caller_scope now k req) (holding d0) any.
Proof.
  intros w Hw. unfold get_batch. mstep.
  destruct (get_batch_row k (db w)) as [b|] eqn:Eb; [|done].
  destruct (foreign req (organization_id b)); [done|].
  destruct (negb (Tenancy.enforce_entity_location (location_id b) caller_scope)); [done|].
  apply get_batch_row_Some in Eb as (Hb & _ & _).
  apply (triple_refresh d0 now b w). split; [done|]. by exists b.
Qed.

Lemma triple_submit d0 b : triple (holding d0 b) (submit_batch (R:=R) b) (holding d0) any.
Proof.
  apply triple_transition. intros Ht.
  eapply triple_bind; [by apply (triple_advance d0 (set_batch_status PENDING_APPROVAL) b)|].
  intros []. by apply triple_ret.
Qed.

Lemma triple_approve_and_activate d0 now who b :
  triple (holding d0 b) (approve_and_activate (R:=R) has_audit_writer now who b) (holding d0) any.
Proof.
  apply triple_transition. intros Ht. cbv zeta.
  eapply triple_bind; [by apply (triple_advance d0 (set_approved who now) b)|]. intros [].
  eapply triple_bind; [apply triple_audit|]. intros [].
  apply triple_transition. intros Ht'.
  eapply triple_bind.
  { apply (triple_advance d0 (set_batch_status BATCH_ACTIVE) (set_approved who now b)); done. }
  intros []. eapply triple_bind; [apply triple_audit|]. intros []. by apply triple_ret.
Qed.

Lemma triple_revoke_vouchers d0 b :
  triple (holding d0 b)
    (write (R:=R) (on_vouchers (update (revocable (batch_row_id b)) (set_status REVOKED))))
    (λ _, holding d0 b) any.
Proof.
  intros w [[Hc Hm] Hh]. unfold write, on_db. mstep. split; [split; [by apply calm_revoke|done]|done].
Qed.

Lemma triple_revoke d0 now k who req :
  triple (tracked d0) (revoke_batch (R:=R) has_audit_writer caller_scope now k who req)
    (holding d0) any.
Proof.
  eapply triple_bind; [apply triple_get_batch|]. intros b.
  apply triple_transition. intros Ht.
  eapply triple_bind; [by apply (triple_advance d0 (set_batch_status BATCH_REVOKED) b)|]. intros [].
  eapply triple_bind; [apply (triple_revoke_vouchers d0 (set_batch_status BATCH_REVOKED b))|]. intros [].
  eapply triple_bind; [apply triple_audit|]. intros []. by apply triple_ret.
Qed.

(** A read that only touches Redis, or raises. *)
Lemma triple_limited d0 now source :
  triple (tracked d0) (enforce_redemption_rate_limit max_attempts window_minutes now source)
    (λ _, tracked d0) any.
Proof.
  intros w Hw. destruct (enforce_redemption_rate_limit _ _ _ _ _) as [[[]|] w'] eqn:Hrun; [|done].
  unfold tracked. by rewrite (limited_db _ _ _ _ _ _ Hrun).
Qed.

Lemma triple_redeemable d0 now typed source :
  triple (tracked d0) (redeemable max_attempts window_minutes has_audit_writer now typed source)
    (λ vb w, tracked d0 w ∧ snapshot_ok (db w) vb) any.
Proof.
  intros w [Hc Hm].
  destruct (redeemable max_attempts window_minutes has_audit_writer now typed source w)
    as [[[v b]|] w'] eqn:Hrun; [|done].
  split; [|by eapply redeemable_snapshot]. split.
  { pose proof (quiet_redeemable max_attempts window_minutes has_audit_writer now typed source w Hc)
      as [Hc' _]. by rewrite Hrun in Hc'. }
  assert (triple (tracked d0) (redeemable max_attempts window_minutes has_audit_writer now typed source)
    (λ _, tracked d0) any) as Ht.
  { eapply triple_bind; [apply triple_limited|]. intros [].
    eapply (triple_bind _ _ (λ _, tracked d0)).
    - intros w1 Hw1. unfold get_voucher_and_batch. mstep.
      destruct (first_match _ _) as [v1|]; [|done].
      destruct (get_batch_row (batch_id v1) (db w1)) as [b1|] eqn:Eb; [|done].
      apply get_batch_row_Some in Eb as (Hb1 & _ & _).
      pose proof (triple_refresh d0 now b1 w1) as Hr.
      destruct (refresh_batch_expiry now b1 w1) as [[b2|] w2]; [|done].
      apply Hr. split; [done|]. by exists b1.
    - intros [v1 b1]. destruct (redemption_failure_reason _ _ _); [|by apply triple_ret].
      intros w1 _. unfold refuse. mstep. by destruct (record_redemption_failure _ _ _ _) as [[|] ?]. }
  specialize (Ht w (conj Hc Hm)). rewrite Hrun in Ht. apply Ht.
Qed.

Lemma triple_redeem d0 now later typed identifier source :
  triple (tracked d0)
    (redeem_voucher max_attempts window_minutes has_audit_writer now later typed identifier source)
    (λ _, tracked d0) any.
Proof.
  eapply triple_bind; [apply triple_redeemable|]. intros [v b] w [[Hc Hm] Hs]. cbn [fst snd].
  destruct (redeem_write has_audit_writer now later identifier v b w) as [[r|] w'] eqn:Hrun; [|done].
  apply redeem_write_Ok in Hrun as (Hrow & e & Hdb).
  destruct (redeem_step now v b (first_use_of now identifier v b) _ Hc Hs Hrow) as [Hc' _].
  unfold tracked. rewrite Hdb. destruct has_audit_writer; (split; [|done]); [by apply calm_log|done].
Qed.

(** ** New rows *)
Lemma elem_of_new_rows ids b cs v :
  v ∈ imap (λ i c, fresh_voucher b (ids i) c) cs ↔
  ∃ i c, cs !! i = Some c ∧ v = fresh_voucher b (ids i) c.
Proof.
  rewrite list_elem_of_lookup. setoid_rewrite list_lookup_imap. split.
  - intros (i & Hi). destruct (cs !! i) as [c|] eqn:E; [|done]. simpl in Hi. naive_solver.
  - intros (i & c & Hc & ->). exists i. by rewrite Hc.
Qed.

Lemma consistent_insert ids b b0 cs d :
  consistent d → b0 ∈ batches d → batch_row_id b0 = batch_row_id b → fresh_ids ids (length cs) d →
  consistent (on_vouchers (insert_rows (imap (λ i c, fresh_voucher b (ids i) c) cs)) d).
Proof.
  intros [Hb Hv Hpo Hin] Hb0 Hbid [Hinj Hnew]. constructor; simpl; [done| |done|].
  - unfold keyed, insert_rows. rewrite map_app, NoDup_app. split_and!; [done| |].
    + intros k Hk Hk'. apply list_elem_of_fmap in Hk as (v & -> & Hvd).
      apply list_elem_of_fmap in Hk' as (v' & Hid & Hv').
      apply elem_of_new_rows in Hv' as (i & c & Hc & ->).
      by apply (Hnew i v (lookup_lt_Some _ _ _ Hc) Hvd).
    + apply NoDup_alt. intros i j k Hi Hj.
      apply list_lookup_fmap_Some in Hi as (vi & -> & Hi).
      apply list_lookup_fmap_Some in Hj as (vj & Hid & Hj).
      rewrite list_lookup_imap in Hi, Hj.
      destruct (cs !! i) as [ci|] eqn:Ei; [|done]. destruct (cs !! j) as [cj|] eqn:Ej; [|done].
      simpl in Hi, Hj. injection Hi as <-. injection Hj as <-.
      apply Hinj; [by eapply lookup_lt_Some..|done].
  - intros v [Hvd|Hv0]%elem_of_app; [by apply Hin|].
    apply elem_of_new_rows in Hv0 as (i & c & _ & ->). exists b0.
    split_and!; try done. by apply Hpo.
Qed.

(** [get_batch] hands out a row that is in the table. *)
Lemma get_batch_Ok now k req w b w' :
  get_batch (R:=R) caller_scope now k req w = (Ok b, w') →
  vouchers (db w') = vouchers (db w)
  ∧ ∃ b1, b1 ∈ batches (db w') ∧ batch_row_id b1 = k ∧ batch_row_id b = k.
Proof.
  unfold get_batch. intros Hrun. apply bind_Ok in Hrun as (found & w1 & [= <- <-] & Hrun).
  destruct (get_batch_row k (db w)) as [b0|] eqn:Eb; [|done].
  apply bind_Ok in Hrun as (b1 & w1 & [= <- <-] & Hrun).
  apply bind_Ok in Hrun as ([] & w1 & H1' & Hrun).
  assert (w1 = w) as -> by (destruct (foreign req (organization_id b0)); by inversion H1').
  apply bind_Ok in Hrun as ([] & w1 & H2 & Hrun).
  assert (w1 = w) as -> by (destruct (Tenancy.enforce_entity_location _ _); by inversion H2).
  destruct (get_batch_row_Some _ _ _ Eb) as (Hb & Hid & _).
  unfold refresh_batch_expiry in Hrun.
  destruct (bool_decide (batch_status b0 = BATCH_ACTIVE) && is_batch_expired b0 now).
  - mstep. injection Hrun as <- <-. split; [done|].
    exists (set_batch_status BATCH_EXPIRED b0). split_and!; try done.
    apply elem_of_update. exists b0. split; [done|].
    unfold has_id. by rewrite bool_decide_true.
  - injection Hrun as <- <-. split; [done|]. by exists b0.
Qed.

(** ** Import *)
Lemma sort_codes_spec seen cs ok bad :
  sort_codes seen cs = (ok, bad) →
  (length ok + length bad = length cs)%nat ∧ NoDup ok
  ∧ ∀ c, c ∈ ok → (c ∉ seen) ∧ c ≠ [] ∧ (∃ raw, raw ∈ cs ∧ c = normalize_voucher_code raw).
Proof.
  revert seen ok bad. induction cs as [|raw cs IH]; intros seen ok bad; simpl.
  { intros [= <- <-]. split_and!; [done|constructor|]. by intros c ?%not_elem_of_nil. }
  assert (∀ c, (∃ raw', raw' ∈ cs ∧ c = normalize_voucher_code raw') →
    ∃ raw', raw' ∈ raw :: cs ∧ c = normalize_voucher_code raw') as Hmore.
  { intros c (raw' & ? & ?). exists raw'. split; [by apply elem_of_cons; right|done]. }
  case_bool_decide as Hempty.
  { destruct (sort_codes seen cs) as [ok' bad'] eqn:E. intros [= <- <-].
    destruct (IH _ _ _ E) as (? & ? & Hin). split_and!; [simpl; lia|done|].
    intros c Hc. destruct (Hin c Hc) as (? & ? & ?). auto. }
  case_bool_decide as Hseen.
  { destruct (sort_codes seen cs) as [ok' bad'] eqn:E. intros [= <- <-].
    destruct (IH _ _ _ E) as (? & ? & Hin). split_and!; [simpl; lia|done|].
    intros c Hc. destruct (Hin c Hc) as (? & ? & ?). auto. }
  destruct (sort_codes (normalize_voucher_code raw :: seen) cs) as [ok' bad'] eqn:E.
  intros [= <- <-]. destruct (IH _ _ _ E) as (? & Hnd & Hin). split_and!; [simpl; lia| |].
  - constructor; [|done]. intros Hc. destruct (Hin _ Hc) as [Hout _]. apply Hout, list_elem_of_here.
  - intros c [->|Hc]%elem_of_cons.
    + split_and!; [done|done|]. exists raw. split; [apply list_elem_of_here|done].
    + destruct (Hin c Hc) as (Hout & ? & ?). split_and!; [|done|auto].
      intros Hs. apply Hout. by apply elem_of_cons; right.
Qed.

Lemma find_existing_spec cs d c :
  c ∈ find_existing_codes cs d ↔ c ∈ cs ∧ ∃ v, v ∈ vouchers d ∧ code v = c.
Proof.
  unfold find_existing_codes. rewrite list_elem_of_fmap. split.
  - intros (v & -> & Hv). apply elem_of_select in Hv as [Hv Hc].
    apply bool_decide_eq_true in Hc. eauto.
  - intros (Hc & v & Hv & <-). exists v. split; [done|]. apply elem_of_select.
    by rewrite bool_decide_eq_true.
Qed.

Lemma filter_split {A} (f : A → bool) l :
  (length (List.filter f l) + length (List.filter (λ x, negb (f x)) l) = length l)%nat.
Proof. induction l as [|x l IH]; [done|]. simpl. destruct (f x); simpl; lia. Qed.

Definition logged (e : audit_entry) (b : bool) d : database := if b then log e d else d.

Lemma import_Ok now ids k who req cs w imported rejected w' :
  import_vouchers (R:=R) has_audit_writer caller_scope now ids k who req cs w
    = (Ok (imported, rejected), w') →
  ∃ b w1 ok bad e l, get_batch (R:=R) caller_scope now k req w = (Ok b, w1)
    ∧ sort_codes [] cs = (ok, bad)
    ∧ imported = imap (λ i c, fresh_voucher b (ids i) c)
        (List.filter (λ c, negb (bool_decide (c ∈ find_existing_codes ok (db w1)))) ok)
    ∧ rejected = bad ++ map (λ c, (c, u "code already exists"))
        (List.filter (λ c, bool_decide (c ∈ find_existing_codes ok (db w1))) ok)
    ∧ db w' = logged e l (on_vouchers (insert_rows imported) (db w1)).
Proof.
  unfold import_vouchers. intros Hrun. apply bind_Ok in Hrun as (b & w1 & Hb & Hrun).
  apply bind_Ok in Hrun as ([] & w2 & H1' & Hrun).
  assert (w2 = w1) as -> by (destruct (bool_decide (batch_status b ∈ _)); by inversion H1').
  clear H1'. apply bind_Ok in Hrun as ([] & w2 & H2 & Hrun).
  assert (w2 = w1) as -> by (destruct (MAX_BULK_CREATE_SIZE <? _); by inversion H2).
  clear H2. destruct (sort_codes [] cs) as [ok bad] eqn:Es.
  apply bind_Ok in Hrun as (ex & w2 & [= <- <-] & Hrun). cbv zeta in Hrun.
  remember (List.filter (λ c, negb (bool_decide (c ∈ find_existing_codes ok (db w1)))) ok) as ins eqn:Hins.
  apply bind_Ok in Hrun as (imp & w2 & H3 & Hrun).
  apply bind_Ok in Hrun as ([] & w3 & H4 & [= <- <- <-]).
  assert (imp = imap (λ i c, fresh_voucher b (ids i) c) ins
    ∧ db w2 = on_vouchers (insert_rows imp) (db w1)) as [-> Hdb].
  { clear H4. case_bool_decide as Hi.
    - cbv beta iota delta [mret M_ret] in H3. injection H3 as <- <-.
      rewrite Hi. split; [done|]. unfold insert_rows, on_vouchers. simpl.
      rewrite app_nil_r. by destruct (db w1).
    - unfold bulk_create_vouchers, write, on_db in H3. mstep. by injection H3 as <- <-. }
  exists b, w1, ok, bad, (mk_audit who VOUCHER_CODES_IMPORTED (batch_row_id b)).
  exists (has_audit_writer && negb (bool_decide (imap (λ i c, fresh_voucher b (ids i) c) ins = []))).
  split_and!; [done|done|by rewrite Hins|done|]. rewrite <- Hdb. unfold logged.
  destruct (bool_decide (imap _ ins = [])).
  - cbv beta iota delta [mret M_ret] in H4. injection H4 as <-. by rewrite andb_false_r.
  - rewrite andb_true_r. unfold audit, write, on_db in H4. destruct has_audit_writer; mstep;
      by injection H4 as <-.
Qed.
Lemma fresh_ids_le ids n m d : (n ≤ m)%nat → fresh_ids ids m d → fresh_ids ids n d.
Proof. intros Hle [Hi Hn]. split; intros; [apply Hi|apply Hn]; done || lia. Qed.

Lemma length_filter_le {A} (f : A → bool) l : (length (List.filter f l) ≤ length l)%nat.
Proof. pose proof (filter_split f l). lia. Qed.

Lemma triple_import d0 now ids k who req cs :
  triple (λ w, tracked d0 w ∧ fresh_ids ids (length cs) (db w))
    (import_vouchers (R:=R) has_audit_writer caller_scope now ids k who req cs) (λ _, tracked d0) any.
Proof.
  intros w [Hw Hids].
  destruct (import_vouchers has_audit_writer caller_scope now ids k who req cs w)
    as [[[imported rejected]|] w'] eqn:Hrun; [|done].
  apply import_Ok in Hrun as (b & w1 & ok & bad & e & l & Hb & Hs & -> & _ & Hdb).
  pose proof (triple_get_batch d0 now k req w Hw) as Hg. rewrite Hb in Hg.
  destruct Hg as [[Hc Hm] (b1 & Hb1 & Hid & _)].
  apply get_batch_Ok in Hb as [Hv _]. apply sort_codes_spec in Hs as [Hlen _].
  unfold tracked. rewrite Hdb.
  match goal with |- context [insert_rows ?rows] =>
    assert (consistent (on_vouchers (insert_rows rows) (db w1))) as Hc' end.
  { apply (consistent_insert _ b b1); try done. unfold fresh_ids in *. rewrite Hv.
    eapply fresh_ids_le; [|exact Hids]. etrans; [apply length_filter_le|lia]. }
  unfold logged. destruct l; (split; [|done]); [by apply calm_log|done].
Qed.

(** ** Code generation *)
Definition new_codes (draw : nat → nat → pystr) (prefix : option pystr) d (cs : list pystr) : Prop :=
  NoDup cs ∧ ∀ c, c ∈ cs → (∀ v, v ∈ vouchers d → code v ≠ c)
    ∧ ∃ r i, c = with_prefix prefix (draw r i).

Lemma elem_of_filter_bool {A} (f : A → bool) l x : x ∈ List.filter f l ↔ x ∈ l ∧ f x = true.
Proof. by rewrite !list_elem_of_In, filter_In. Qed.

Lemma generate_rounds_new rounds draw prefix n gen d :
  new_codes draw prefix d gen → new_codes draw prefix d (generate_rounds rounds draw prefix n gen d).
Proof.
  revert gen. induction rounds as [|rounds IH]; intros gen Hgen; simpl; [done|].
  case_bool_decide; [done|]. apply IH. clear IH. destruct Hgen as [Hnd Hgen].
  set (drawn := remove_dups _). set (cands := List.filter _ drawn). split.
  - apply NoDup_app. split_and!; [done| |].
    + intros c Hc [Hc' _]%elem_of_filter_bool. apply elem_of_filter_bool in Hc' as [_ Hc'].
      by apply negb_true_iff, bool_decide_eq_false in Hc'.
    + apply NoDup_ListNoDup, List.NoDup_filter, List.NoDup_filter, NoDup_ListNoDup, NoDup_remove_dups.
  - intros c [Hc|Hc]%elem_of_app; [by apply Hgen|].
    apply elem_of_filter_bool in Hc as [Hc Hex]. split.
    + intros v Hv Hcode. apply negb_true_iff, bool_decide_eq_false in Hex. apply Hex.
      apply find_existing_spec. eauto.
    + apply elem_of_filter_bool in Hc as [Hc _]. unfold drawn in Hc. rewrite elem_of_remove_dups in Hc.
      apply list_elem_of_In, in_map_iff in Hc as (i & <- & _). eauto.
Qed.

Lemma generate_codes_Ok draw n prefix w cs w' :
  generate_codes (R:=R) draw n prefix w = (Ok cs, w') →
  w' = w ∧ length cs = Z.to_nat n ∧ new_codes draw prefix (db w) cs.
Proof.
  unfold generate_codes. mstep.
  set (gen := generate_rounds _ _ _ _ _ _). destruct (Z.ltb_spec (Z.of_nat (length gen)) n); [done|].
  intros [= <- <-]. assert (new_codes draw prefix (db w) gen) as [Hnd Hgen].
  { apply generate_rounds_new. split; [constructor|]. by intros c ?%not_elem_of_nil. }
  split_and!; [done|rewrite length_take; lia|]. split.
  - apply (NoDup_app (take (Z.to_nat n) gen) (drop (Z.to_nat n) gen)). by rewrite take_drop.
  - intros c Hc. apply Hgen. rewrite <- (take_drop (Z.to_nat n) gen), elem_of_app. by left.
Qed.

(** ** Creation *)
Definition drafted (new_id : uuid) (q : new_batch) : VoucherBatch :=
  mk_batch new_id (nb_organization_id q) (nb_location_id q) (nb_plan_id q) (nb_series_id q)
    (nb_quantity q) (nb_code_length q) (nb_code_prefix q) (nb_validity_minutes q)
    (nb_batch_expires_at q) (nb_max_uses q) DRAFT None None false.
Definition rows_of (ids : nat → uuid) (b : VoucherBatch) (cs : list pystr) : list Voucher :=
  imap (λ i c, fresh_voucher b (ids i) c) cs.

Abbreviation create := (create_batch organization_exists location_in has_audit_writer caller_scope).

(** What creation does after its guards. *)
Definition issue (ids : nat → uuid) (new_id : uuid) (draw : nat → nat → pystr) (who : option uuid)
    (q : new_batch) : M state error unit :=
  _ ← write (on_batches (insert_row (drafted new_id q)));
  _ ← audit has_audit_writer who VOUCHER_BATCH_CREATED new_id;
  if 0 <? nb_quantity q then
    cs ← generate_codes draw (nb_quantity q) (nb_code_prefix q);
    _ ← bulk_create_vouchers ids (drafted new_id q) cs;
    mret tt
  else mret tt.
Definition open (now : datetime) (who : option uuid) (manage : bool) (b : VoucherBatch)
    : M state error VoucherBatch :=
  b' ← submit_batch b;
  if manage : bool then approve_and_activate has_audit_writer now who b' else mret b'.

Lemma get_plan_reads k req : reads (get_plan (R:=R) k req).
Proof.
  unfold get_plan. apply reads_bind; [auto with pres|]. intros p.
  apply reads_bind; [auto with pres|]. intros pl. apply reads_bind; [apply reads_raise_if|]. auto with pres.
Qed.
Lemma get_series_reads k req : reads (get_series (R:=R) caller_scope k req).
Proof. unfold get_series. repeat (apply reads_bind; [auto with pres|intros ?]). auto with pres. Qed.

(** Creation is its guards, which change nothing, then [issue], then [open]. *)
Lemma create_split now ids new_id draw who req manage q w b' w' :
  create now ids new_id draw who req manage q w = (Ok b', w') →
  validate_quantity (nb_quantity q) = true ∧ validate_code_length (nb_code_length q) = true
  ∧ ∃ w1, issue ids new_id draw who q w = (Ok tt, w1)
      ∧ open now who manage (drafted new_id q) w1 = (Ok b', w').
Proof.
  unfold create_batch. cbv zeta.
  destruct (validate_quantity (nb_quantity q)) eqn:Hq; [|done].
  destruct (validate_code_length (nb_code_length q)) eqn:Hl; [|done]. intros Hrun.
  do 2 (apply bind_Ok in Hrun as ([] & w0 & [= <-] & Hrun)).
  repeat match type of Hrun with
  | (?m ≫= ?f) ?v = _ =>
      lazymatch m with
      | write _ => fail
      | _ => let w2 := fresh "w2" in let Hm := fresh "Hm" in
             apply bind_Ok in Hrun as ([] & w2 & Hm & Hrun);
             assert (w2 = v) as -> by
               (assert (reads m) as Hr by
                  (first [apply reads_raise_if
                         |destruct (nb_location_id q); [apply reads_raise_if|apply reads_ret]
                         |destruct (nb_plan_id q); [apply reads_bind; [apply get_plan_reads|intros ?; apply reads_ret]|apply reads_ret]
                         |destruct (nb_series_id q); [apply reads_bind; [apply get_series_reads|intros ?; apply reads_ret]|apply reads_ret]]);
                specialize (Hr v); rewrite Hm in Hr; exact Hr);
             clear Hm
      end
  end.
  split_and!; try done. unfold issue. fold (drafted new_id q) in Hrun.
  apply bind_Ok in Hrun as ([] & w1 & H1' & Hrun). apply bind_Ok in Hrun as ([] & w2 & H2 & Hrun).
  apply bind_Ok in Hrun as ([] & w3 & H3 & Hrun). exists w3. split; [|done].
  apply bind_Ok. exists tt, w1. split; [done|]. apply bind_Ok. by exists tt, w2.
Qed.

Lemma audit_run who a k w w' :
  audit (R:=R) has_audit_writer who a k w = (Ok tt, w') →
  db w' = logged (mk_audit who a k) has_audit_writer (db w).
Proof. unfold audit. destruct has_audit_writer; intros [= <-]; done. Qed.

Lemma bulk_create_run ids b cs w rows w' :
  bulk_create_vouchers (R:=R) ids b cs w = (Ok rows, w') →
  db w' = on_vouchers (insert_rows (rows_of ids b cs)) (db w).
Proof. by intros [= _ <-]. Qed.

Lemma on_vouchers_nil d : on_vouchers (insert_rows []) d = d.
Proof. destruct d. unfold on_vouchers, insert_rows. simpl. by rewrite app_nil_r. Qed.

Lemma issue_Ok ids new_id draw who q w w1 :
  issue ids new_id draw who q w = (Ok tt, w1) →
  ∃ cs e, db w1 = on_vouchers (insert_rows (rows_of ids (drafted new_id q) cs))
            (logged e has_audit_writer (on_batches (insert_row (drafted new_id q)) (db w)))
    ∧ length cs = Z.to_nat (nb_quantity q) ∧ new_codes draw (nb_code_prefix q) (db w) cs.
Proof.
  unfold issue. intros Hrun. apply bind_Ok in Hrun as ([] & w2 & [= <-] & Hrun).
  apply bind_Ok in Hrun as ([] & w3 & H3 & Hrun). apply audit_run in H3. simpl in H3.
  set (d3 := logged _ _ _) in H3. assert (vouchers d3 = vouchers (db w)) as Hv
    by (unfold d3, logged; by destruct has_audit_writer).
  destruct (Z.ltb_spec 0 (nb_quantity q)) as [Hq|Hq].
  - apply bind_Ok in Hrun as (cs & w4 & Hg & Hrun).
    apply generate_codes_Ok in Hg as (-> & Hlen & Hnew).
    apply bind_Ok in Hrun as (rows & w5 & Hb & [= <-]). apply bulk_create_run in Hb.
    rewrite H3 in Hb. exists cs. eexists. split; [exact Hb|]. split; [exact Hlen|].
    unfold new_codes in *. by rewrite H3, Hv in Hnew.
  - injection Hrun as <-. exists []. eexists. split; [|split].
    + unfold rows_of. simpl imap. rewrite on_vouchers_nil. exact H3.
    + simpl. lia.
    + split; [constructor|]. by intros c ?%not_elem_of_nil.
Qed.

Lemma consistent_insert_batch b d :
  consistent d → (∀ x, x ∈ batches d → batch_row_id x ≠ batch_row_id b) →
  0 < max_uses_per_voucher b → consistent (on_batches (insert_row b) d).
Proof.
  intros [Hb Hv Hpo Hin] Hnew Hmax. constructor; simpl; [| done| |].
  - unfold keyed, insert_row. rewrite map_app, NoDup_app. split_and!; [done| |apply NoDup_singleton].
    intros k Hk ->%list_elem_of_singleton. apply list_elem_of_fmap in Hk as (x & Hid & Hx).
    by apply (Hnew x Hx).
  - intros x [Hx|Hx]%elem_of_app; [by apply Hpo|]. by apply list_elem_of_singleton in Hx as ->.
  - intros v Hvd. destruct (Hin v Hvd) as (x & Hx & ?). exists x. split; [|done].
    apply elem_of_app. by left.
Qed.

Lemma tracked_issue d0 ids new_id draw who req manage q w w1 :
  tracked d0 w → admissible (db w) (Create ids new_id draw who req manage q) →
  issue ids new_id draw who q w = (Ok tt, w1) → holding d0 (drafted new_id q) w1.
Proof.
  intros [Hc Hm] (Hnew & Hmax & Hids) Hrun.
  apply issue_Ok in Hrun as (cs & e & Hdb & Hlen & _).
  set (d1 := on_batches (insert_row (drafted new_id q)) (db w)).
  assert (consistent d1) as Hc1 by by apply consistent_insert_batch.
  assert (consistent (logged e has_audit_writer d1)) as Hc2
    by (unfold logged; destruct has_audit_writer; [by apply calm_log|done]).
  assert (drafted new_id q ∈ batches d1) as Hin by (apply elem_of_app; right; constructor).
  assert (batches (db w1) = batches d1) as Hb
    by (rewrite Hdb; unfold logged; by destruct has_audit_writer).
  split; [split|].
  - rewrite Hdb. apply (consistent_insert _ _ (drafted new_id q)); try done.
    + unfold logged. by destruct has_audit_writer.
    + unfold fresh_ids in *. rewrite Hlen. unfold logged. by destruct has_audit_writer.
  - etrans; [exact Hm|]. intros b Hbd. exists b. rewrite Hb.
    split_and!; [|done|apply rtc_refl]. apply elem_of_app. by left.
  - exists (drafted new_id q). by rewrite Hb.
Qed.

Lemma triple_open d0 now who manage b :
  triple (holding d0 b) (open now who manage b) (holding d0) any.
Proof.
  eapply triple_bind; [apply triple_submit|]. intros b'.
  destruct manage; [apply triple_approve_and_activate|by apply triple_ret].
Qed.

(** What a run that returns [b'] has kept and set. *)
Definition written (b : VoucherBatch) (s : VoucherBatchStatus) (vs : list Voucher)
    (b' : VoucherBatch) w : Prop :=
  batch_row_id b' = batch_row_id b ∧ vouchers (db w) = vs ∧ batch_status b' = s.
Lemma triple_vouchers_write f vs :
  triple (λ w, vouchers (db w) = vs) (write (R:=R) (on_batches f)) (λ _ w, vouchers (db w) = vs) any.
Proof. by intros w Hw. Qed.
Lemma triple_vouchers_audit who a k vs :
  triple (λ w, vouchers (db w) = vs) (audit (R:=R) has_audit_writer who a k)
    (λ _ w, vouchers (db w) = vs) any.
Proof. intros w Hw. unfold audit. by destruct has_audit_writer. Qed.

Lemma triple_written now who manage b vs :
  triple (λ w, vouchers (db w) = vs) (open now who manage b)
    (written b (if manage : bool then BATCH_ACTIVE else PENDING_APPROVAL) vs) any.
Proof.
  eapply (triple_bind _ _ (written b PENDING_APPROVAL vs)).
  - apply triple_transition. intros _. eapply triple_bind; [apply triple_vouchers_write|].
    intros []. by apply triple_ret.
  - intros b'. destruct manage; [|by apply triple_ret]. apply triple_transition. intros _. cbv zeta.
    intros w (Hid & Hw & _). revert w Hw. eapply triple_bind; [apply triple_vouchers_write|]. intros [].
    eapply triple_bind; [apply triple_vouchers_audit|]. intros []. apply triple_transition. intros _.
    eapply triple_bind; [apply triple_vouchers_write|]. intros [].
    eapply triple_bind; [apply triple_vouchers_audit|]. intros []. by apply triple_ret.
Qed.

Lemma open_Ok now who manage b w b' w' :
  open now who manage b w = (Ok b', w') →
  batch_row_id b' = batch_row_id b ∧ vouchers (db w') = vouchers (db w)
  ∧ batch_status b' = (if manage : bool then BATCH_ACTIVE else PENDING_APPROVAL).
Proof.
  intros Hrun. pose proof (triple_written now who manage b _ w eq_refl) as Hw.
  by rewrite Hrun in Hw.
Qed.

Lemma triple_create d0 now ids new_id draw who req manage q :
  triple (λ w, tracked d0 w ∧ admissible (db w) (Create ids new_id draw who req manage q))
    (create now ids new_id draw who req manage q) (λ _, tracked d0) any.
Proof.
  intros w [Hw Hadm].
  destruct (create now ids new_id draw who req manage q w) as [[b'|] w'] eqn:Hrun; [|done].
  apply create_split in Hrun as (_ & _ & w1 & Hi & Ho).
  apply (tracked_issue d0 ids new_id draw who req manage q w w1 Hw Hadm) in Hi.
  pose proof (triple_open d0 now who manage _ w1 Hi) as Hx. rewrite Ho in Hx. apply Hx.
Qed.

(** ** Histories *)
Lemma triple_ignore {A} P (m : M state error A) Q d0 :
  triple P m Q any → (∀ a w, Q a w → tracked d0 w) → triple P (ignore m) (λ _, tracked d0) any.
Proof.
  intros Hm HQ. eapply triple_bind; [exact Hm|]. intros a w Hw. by apply (HQ a w).
Qed.

Lemma serve_tracked d0 now r w :
  tracked d0 w → admissible (db w) r → tracked d0 (serve now r w).
Proof.
  intros Hw Hadm. assert (triple (λ w, tracked d0 w ∧ admissible (db w) r) (handle now r)
    (λ _, tracked d0) any) as Ht.
  { destruct r; simpl.
    - eapply triple_ignore; [apply (triple_create d0)|done].
    - eapply (triple_ignore _ _ (holding d0)); [|by intros b w1 [? _]].
      intros w1 [Hw1 _]. revert w1 Hw1. change (triple (tracked d0)
        (approve_batch (R:=R) has_audit_writer caller_scope now k who requesting) (holding d0) any).
      eapply triple_bind; [apply triple_get_batch|]. intros b. apply triple_approve_and_activate.
    - eapply (triple_ignore _ _ (holding d0)); [|by intros b w1 [? _]]. intros w1 [Hw1 _]. by apply (triple_revoke d0).
    - eapply triple_ignore; [apply (triple_import d0)|done].
    - eapply (triple_ignore _ _ (λ _, tracked d0)); [|done]. intros w1 [Hw1 _]. revert w1 Hw1.
      change (triple (tracked d0) (validate_voucher max_attempts window_minutes has_audit_writer now typed source)
        (λ _, tracked d0) any).
      eapply triple_bind; [apply triple_redeemable|]. intros vb. apply triple_ret. by intros w1 [? _].
    - eapply (triple_ignore _ _ (λ _, tracked d0)); [|done]. intros w1 [Hw1 _]. by apply (triple_redeem d0).
    - eapply (triple_ignore _ _ (λ _, tracked d0)); [|done]. intros w1 [Hw1 _]. revert w1 Hw1.
      change (triple (tracked d0) (get_batch_stats (R:=R) caller_scope now k requesting)
        (λ _, tracked d0) any).
      eapply triple_bind; [apply triple_get_batch|]. intros b w1 [Hw1 _]. exact Hw1. }
  unfold serve, get_db_session. specialize (Ht w (conj Hw Hadm)).
  destruct (handle now r w) as [[[]|e] w']; [exact Ht|exact Hw].
Qed.

Lemma serve_all_tracked d0 rs w :
  tracked d0 w → admissible_all rs w → tracked d0 (serve_all rs w).
Proof.
  revert w. induction rs as [|[now r] rs IH]; intros w Hw; simpl; [done|].
  intros [Hadm Hrest]. apply IH; [by apply serve_tracked|done].
Qed.

(** C25: a batch only ever moves along the transition table, and the tables
    stay consistent.  Whatever requests are served, in whatever order, each
    committed or rolled back: every voucher's use count still matches its
    status and its batch's cap, no batch disappears, and the status of each
    batch at the end is reached from its status at the start along arrows of
    [VOUCHER_BATCH_STATUS_TRANSITIONS]. *)
Theorem requests_follow_the_life_cycle rs w :
  consistent (db w) → admissible_all rs w →
  consistent (db (serve_all rs w)) ∧
  ∀ b, b ∈ batches (db w) → ∃ b', b' ∈ batches (db (serve_all rs w))
    ∧ batch_row_id b' = batch_row_id b ∧ rtc arrow (batch_status b) (batch_status b').
Proof. intros Hc. by apply (serve_all_tracked (db w)). Qed.

(** ** Revocation is final *)
Lemma rtc_arrow_revoked t : rtc arrow BATCH_REVOKED t → t = BATCH_REVOKED.
Proof. inversion 1 as [|? ? ? Ha]; [done|]. by apply not_elem_of_nil in Ha. Qed.

Lemma holding_revoked_for_good w b rs :
  holding (db w) b w → batch_status b = BATCH_REVOKED → admissible_all rs w →
  ∀ x, x ∈ batches (db (serve_all rs w)) → batch_row_id x = batch_row_id b →
    batch_status x = BATCH_REVOKED.
Proof.
  intros [Hw (b1 & Hb1 & Hid & Hst & _)] Hrev Hadm x Hx Hxid.
  destruct (serve_all_tracked (db w) rs w Hw Hadm) as [Hc Hm].
  destruct (Hm b1 Hb1) as (b2 & Hb2 & Hid2 & Hr). rewrite Hst, Hrev in Hr.
  apply rtc_arrow_revoked in Hr.
  assert (x = b2) as ->; [|done].
  apply (keyed_inj (batches (db (serve_all rs w)))); [apply Hc|done|done|].
  change (batch_row_id x = batch_row_id b2). congruence.
Qed.

Lemma revoke_returns now k who req w b w' :
  revoke_batch (R:=R) has_audit_writer caller_scope now k who req w = (Ok b, w') →
  batch_row_id b = k ∧ batch_status b = BATCH_REVOKED
  ∧ ∀ v, v ∈ vouchers (db w') → batch_id v = k → status v ∈ [EXHAUSTED; EXPIRED; REVOKED].
Proof.
  intros Hrun. apply bind_Ok in Hrun as (b0 & w1 & Hb & Hrun).
  apply get_batch_Ok in Hb as (_ & _ & _ & _ & Hid).
  apply bind_Ok in Hrun as ([] & w2 & _ & Hrun). apply bind_Ok in Hrun as ([] & w3 & _ & Hrun).
  apply bind_Ok in Hrun as ([] & w4 & [= <-] & Hrun).
  apply bind_Ok in Hrun as ([] & w5 & Ha & [= <- <-]). apply audit_run in Ha.
  split_and!; [done|done|]. intros v Hv Hk.
  assert (v ∈ update (revocable (batch_row_id b0)) (set_status REVOKED) (vouchers (db w3))) as Hin
    by (rewrite Ha in Hv; unfold logged in Hv; by destruct has_audit_writer).
  apply elem_of_update in Hin as (v0 & _ & ->). destruct (revocable (batch_row_id b0) v0) eqn:Er.
  - simpl. set_solver.
  - unfold revocable in Er. rewrite Hid, bool_decide_true in Er by done. simpl in Er.
    apply negb_false_iff, bool_decide_eq_true in Er. done.
Qed.

Lemma active_row w k b now b0 :
  get_batch_row k (db w) = Some b0 →
  b = (if bool_decide (batch_status b0 = BATCH_ACTIVE) && is_batch_expired b0 now
       then set_batch_status BATCH_EXPIRED b0 else b0) →
  batch_status b = BATCH_ACTIVE → b0 ∈ batches (db w) ∧ batch_row_id b0 = k
  ∧ batch_status b0 = BATCH_ACTIVE.
Proof.
  intros (Hin & Hid & _)%get_batch_row_Some -> Hact. split_and!; [done..|].
  by destruct (bool_decide _ && _).
Qed.

(** Revoking a batch is final.  Once [revoke_batch] has returned, every
    voucher of the batch is revoked or already spent, and after any further
    history of requests no spelling of any of its codes can be redeemed and
    the batch cannot be approved again. *)
Theorem revoked_batch_is_dead now k who req w b w1 rs :
  consistent (db w) →
  revoke_batch (R:=R) has_audit_writer caller_scope now k who req w = (Ok b, w1) →
  admissible_all rs w1 →
  (∀ v, v ∈ vouchers (db w1) → batch_id v = k → status v ∈ [EXHAUSTED; EXPIRED; REVOKED])
  ∧ (∀ now' later typed identifier source v,
       first_match (voucher_code_lookup_candidates typed) (db (serve_all rs w1)) = Some v →
       batch_id v = k →
       is_ok (redeem_voucher max_attempts window_minutes has_audit_writer now' later typed
                identifier source (serve_all rs w1)).1 = false)
  ∧ ∀ now' who' req',
      is_ok (approve_batch (R:=R) has_audit_writer caller_scope now' k who' req'
               (serve_all rs w1)).1 = false.
Proof.
  intros Hc Hrun Hadm. pose proof (triple_revoke (db w) now k who req w) as Ht. rewrite Hrun in Ht.
  assert (tracked (db w) w) as Hstart by (split; [exact Hc|apply moved_preorder]).
  destruct (Ht Hstart) as [[Hc1 _] Hh].
  apply revoke_returns in Hrun as (Hid & Hst & Hvs). split; [exact Hvs|].
  assert (∀ x, x ∈ batches (db (serve_all rs w1)) → batch_row_id x = k →
    batch_status x = BATCH_REVOKED) as Hdead.
  { rewrite <- Hid. apply (holding_revoked_for_good w1 b); [|done..].
    split; [|done]. split; [done|apply moved_preorder]. }
  set (w2 := serve_all rs w1) in *. clearbody w2. split.
  - intros now' later typed identifier source v Hm Hk. unfold redeem_voucher. mstep.
    destruct (redeemable _ _ _ now' typed source w2) as [[[v' b']|] w3] eqn:Hr; [|done].
    apply redeemable_Ok in Hr as (Hm' & (b0 & Hb0 & Hb') & Hf & _).
    apply failure_None in Hf as [Hact _]. rewrite Hm in Hm'. injection Hm' as <-.
    destruct (active_row w2 _ b' now' b0 Hb0 Hb' Hact) as (Hin & Hid0 & Hact0).
    rewrite (Hdead b0) in Hact0; [done|done|congruence].
  - intros now' who' req'. unfold approve_batch, get_batch. mstep.
    destruct (get_batch_row k (db w2)) as [b0|] eqn:Eb; [|done].
    apply get_batch_row_Some in Eb as (Hin & Hid0 & _). pose proof (Hdead b0 Hin Hid0) as Hst0.
    destruct (foreign _ _); [done|].
    destruct (negb (Tenancy.enforce_entity_location (location_id b0) caller_scope)); [done|].
    unfold refresh_batch_expiry. rewrite Hst0. simpl. mstep.
    unfold approve_and_activate, transition, validate_batch_status_transition. rewrite Hst0. done.
Qed.

(** ** New codes find their vouchers *)
Lemma select_one_unique {T} (p : T → bool) t x :
  x ∈ t → p x = true → (∀ y, y ∈ t → p y = true → y = x) → select_one p t = Some x.
Proof.
  intros Hx Hp Hu. destruct (select_one p t) as [y|] eqn:E.
  - apply select_one_Some in E as [Hy Hpy]. by rewrite (Hu y Hy Hpy).
  - apply select_one_None with (r := x) in E; [congruence|done].
Qed.

Lemma rows_codes ids b cs : map code (rows_of ids b cs) = cs.
Proof.
  unfold rows_of. revert ids. induction cs as [|c cs IH]; intros ids; [done|].
  simpl. f_equal. apply (IH (λ i, ids (S i))).
Qed.
Lemma length_rows ids b cs : length (rows_of ids b cs) = length cs.
Proof. by rewrite <- (length_map code), rows_codes. Qed.

Lemma new_row_found ids b cs d v :
  NoDup cs → (∀ c, c ∈ cs → ∀ x, x ∈ vouchers d → code x ≠ c) → v ∈ rows_of ids b cs →
  get_voucher_by_code (code v) (on_vouchers (insert_rows (rows_of ids b cs)) d) = Some v.
Proof.
  intros Hnd Hnew Hv. apply elem_of_new_rows in Hv as (i & c & Hi & ->). simpl.
  apply select_one_unique.
  - simpl. apply elem_of_app. right. apply elem_of_new_rows. eauto.
  - simpl. by rewrite bool_decide_true.
  - intros y Hy Hp. apply andb_true_iff in Hp as [Hp _]. apply bool_decide_eq_true in Hp.
    apply elem_of_app in Hy as [Hy|Hy].
    + exfalso. eapply (Hnew c); [by eapply list_elem_of_lookup_2|exact Hy|exact Hp].
    + apply elem_of_new_rows in Hy as (j & c' & Hj & ->). simpl in Hp. subst c'.
      by rewrite (proj1 (NoDup_alt cs) Hnd i j c Hi Hj).
Qed.

Lemma not_existing ok d c :
  c ∈ List.filter (λ c, negb (bool_decide (c ∈ find_existing_codes ok d))) ok →
  c ∈ ok ∧ ∀ x, x ∈ vouchers d → code x ≠ c.
Proof.
  intros [Hc Hn]%elem_of_filter_bool. apply negb_true_iff, bool_decide_eq_false in Hn.
  split; [done|]. intros x Hx Hcode. apply Hn. apply find_existing_spec. eauto.
Qed.

Lemma first_candidate raw d v :
  get_voucher_by_code (normalize_voucher_code raw) d = Some v →
  first_match (voucher_code_lookup_candidates raw) d = Some v.
Proof.
  unfold voucher_code_lookup_candidates. intros Hg. case_bool_decide; simpl; by rewrite Hg.
Qed.

(** Import sorts every submitted code.  [import_vouchers] either imports
    or rejects each line; the imported codes are distinct, non-empty and new;
    and typing any submitted spelling that normalises to an imported code
    finds that voucher, whatever separators the spelling has. *)
Theorem import_accounts_for_every_code now ids k who req cs w imported rejected w' :
  import_vouchers (R:=R) has_audit_writer caller_scope now ids k who req cs w
    = (Ok (imported, rejected), w') →
  (length imported + length rejected = length cs)%nat
  ∧ NoDup (map code imported)
  ∧ (∀ v, v ∈ imported → batch_id v = k ∧ status v = UNUSED ∧ code v ≠ []
      ∧ (∃ raw, raw ∈ cs ∧ code v = normalize_voucher_code raw)
      ∧ ∀ x, x ∈ vouchers (db w) → code x ≠ code v)
  ∧ ∀ raw v, v ∈ imported → normalize_voucher_code raw = code v →
      first_match (voucher_code_lookup_candidates raw) (db w') = Some v.
Proof.
  intros Hrun. apply import_Ok in Hrun as (b & w1 & ok & bad & e & l & Hb & Hs & -> & -> & Hdb).
  apply get_batch_Ok in Hb as (Hv & _ & _ & _ & Hid).
  apply sort_codes_spec in Hs as (Hlen & Hnd & Hin).
  set (ins := List.filter (λ c, negb _) ok) in *. fold (rows_of ids b ins) in *.
  assert (NoDup ins) as Hnd' by by apply NoDup_ListNoDup, List.NoDup_filter, NoDup_ListNoDup.
  split_and!.
  - rewrite length_rows, length_app, length_map. unfold ins.
    pose proof (filter_split (λ c, bool_decide (c ∈ find_existing_codes ok (db w1))) ok). lia.
  - by rewrite rows_codes.
  - intros v (i & c & Hi & ->)%elem_of_new_rows. simpl.
    apply list_elem_of_lookup_2, not_existing in Hi as [Hc Hnew]. rewrite Hv in Hnew.
    destruct (Hin c Hc) as (_ & Hne & Hraw). by split_and!.
  - intros raw v Hvin Hraw. apply first_candidate. rewrite Hraw, Hdb.
    assert (get_voucher_by_code (code v) (on_vouchers (insert_rows (rows_of ids b ins)) (db w1))
      = Some v) as Hfound.
    { apply new_row_found; [done| |done]. intros c Hc. by destruct (not_existing ok (db w1) c Hc). }
    unfold logged. by destruct l.
Qed.

(** Creation issues what was asked for.  When [create_batch] returns, the
    batch is active if the caller may manage vouchers and awaits approval
    otherwise, and exactly [quantity] vouchers were added, with distinct codes
    that were never used before, each the prefix followed by a drawn body. *)
Theorem create_issues_new_codes now ids new_id draw who req manage q w b w' :
  create now ids new_id draw who req manage q w = (Ok b, w') →
  batch_row_id b = new_id
  ∧ batch_status b = (if manage then BATCH_ACTIVE else PENDING_APPROVAL)
  ∧ nb_quantity q ≤ MAX_BULK_CREATE_SIZE ∧ MIN_CODE_LENGTH ≤ nb_code_length q ≤ MAX_CODE_LENGTH
  ∧ ∃ cs, vouchers (db w') = vouchers (db w) ++ rows_of ids (drafted new_id q) cs
      ∧ length cs = Z.to_nat (nb_quantity q) ∧ NoDup cs
      ∧ ∀ c, c ∈ cs → (∀ v, v ∈ vouchers (db w) → code v ≠ c)
          ∧ ∃ r i, c = with_prefix (nb_code_prefix q) (draw r i).
Proof.
  intros Hrun. apply create_split in Hrun as (Hq & Hl & w1 & Hi & Ho).
  apply issue_Ok in Hi as (cs & e & Hdb & Hlen & Hnd & Hnew).
  apply open_Ok in Ho as (Hid & Hv & Hst).
  unfold validate_quantity in Hq. unfold validate_code_length in Hl.
  apply andb_true_iff in Hl as [Hl1 Hl2]. apply Z.leb_le in Hq, Hl1, Hl2.
  split_and!; try done. exists cs. split_and!; try done. rewrite Hv, Hdb.
  unfold logged. by destruct has_audit_writer.
Qed.

(** ** Codes no guest can type *)
Definition is_lower (c : N) : bool := ((97 <=? c) && (c <=? 122))%N.

Lemma forallb_lstrip f s : forallb f s = true → forallb f (lstrip s) = true.
Proof.
  intros Hf. destruct (lstrip_suffix s) as (p & Hp & _). rewrite Hp, forallb_app in Hf.
  by apply andb_true_iff in Hf as [_ ?].
Qed.
Lemma forallb_rstrip f s : forallb f s = true → forallb f (rstrip s) = true.
Proof.
  intros Hf. destruct (rstrip_prefix s) as (q & Hq). rewrite Hq, forallb_app in Hf.
  by apply andb_true_iff in Hf as [? _].
Qed.
Lemma ascii_upper_not_lower c : is_lower (ascii_upper c) = false.
Proof.
  unfold is_lower, ascii_upper. destruct ((97 <=? c) && (c <=? 122))%N eqn:E; [|done].
  apply andb_true_iff in E as [?%N.leb_le ?%N.leb_le]. rewrite (proj2 (N.leb_gt 97 _)); [done|lia].
Qed.

Lemma candidates_have_no_lower typed c x :
  forallb is_ascii typed = true → c ∈ voucher_code_lookup_candidates typed → x ∈ c →
  is_lower x = false.
Proof.
  intros Hasc Hc Hx. assert (x ∈ normalize_voucher_code typed) as Hn.
  { unfold voucher_code_lookup_candidates in Hc. case_bool_decide.
    - by apply list_elem_of_singleton in Hc as <-.
    - apply elem_of_cons in Hc as [Hc|Hc%list_elem_of_singleton]; rewrite Hc in Hx; [done|].
      by apply elem_of_filter_bool in Hx as [? _]. }
  unfold normalize_voucher_code in Hn. rewrite upper_ascii in Hn.
  - apply list_elem_of_In, in_map_iff in Hn as (y & <- & _). apply ascii_upper_not_lower.
  - apply forallb_rstrip, forallb_lstrip, Hasc.
Qed.

(** a lower-case letter in the prefix makes every code of the batch
    unusable.  Creation stores the prefix as it was given, while lookup
    upper-cases what the guest types: no ASCII spelling ever finds a voucher
    of such a batch, the printed code included. *)
Theorem lowercase_prefix_cannot_be_redeemed now ids new_id draw who req manage q p w b w' d typed v :
  create now ids new_id draw who req manage q w = (Ok b, w') →
  nb_code_prefix q = Some p → existsb is_lower p = true →
  v ∈ vouchers (db w') → v ∉ vouchers (db w) →
  forallb is_ascii typed = true →
  first_match (voucher_code_lookup_candidates typed) d ≠ Some v.
Proof.
  intros Hrun Hp Hlow Hv Hold Hasc Hm. apply create_split in Hrun as (_ & _ & w1 & Hi & Ho).
  apply issue_Ok in Hi as (cs & e & Hdb & _ & _ & Hnew). apply open_Ok in Ho as (_ & Hvs & _).
  apply first_match_Some in Hm as (_ & Hc & _).
  assert (v ∈ rows_of ids (drafted new_id q) cs) as Hrow.
  { rewrite Hvs, Hdb in Hv. simpl in Hv. apply elem_of_app in Hv as [Hv|Hv]; [|done].
    exfalso. apply Hold. unfold logged in Hv. by destruct has_audit_writer. }
  apply elem_of_new_rows in Hrow as (i & c & Hlook & ->). apply list_elem_of_lookup_2 in Hlook.
  destruct (Hnew c Hlook) as (_ & r & j & Hbody). simpl in Hc. rewrite Hp in Hbody. simpl in Hbody.
  apply existsb_exists in Hlow as (x & Hx & Hlx). apply list_elem_of_In in Hx.
  rewrite (candidates_have_no_lower typed c x Hasc Hc) in Hlx; [done|].
  rewrite Hbody. apply elem_of_app. by left.
Qed.

(** ** Statistics *)
Definition counted (k : uuid) (v : Voucher) : bool :=
  bool_decide (batch_id v = k) && negb (is_deleted v).
Definition used (k : uuid) (v : Voucher) : bool := counted k v && (0 <? use_count v).
Definition withdrawn (k : uuid) (v : Voucher) : bool :=
  counted k v && bool_decide (status v = REVOKED) && (use_count v =? 0).

Lemma count_status_cons k s v d vs :
  vouchers d = v :: vs →
  count_status k s d = (if counted k v && bool_decide (status v = s) then 1 else 0)
                       + count_status k s (on_vouchers (λ _, vs) d).
Proof.
  intros Hd. unfold count_status, rowcount, select, counted. rewrite Hd. simpl.
  destruct (bool_decide (batch_id v = k)), (bool_decide (status v = s)), (is_deleted v); simpl; lia.
Qed.

Lemma rowcount_cons {T} (p : T → bool) x t :
  rowcount p (x :: t) = (if p x then 1 else 0) + rowcount p t.
Proof. unfold rowcount, select. simpl. destruct (p x); simpl; lia. Qed.

Lemma counts_add_up k d :
  (∀ v, v ∈ vouchers d → ∃ m, 0 < m ∧ voucher_ok m v) →
  count_status k EXPIRED d = 0
  ∧ count_status k UNUSED d + count_status k ACTIVE d + count_status k EXHAUSTED d
      + count_status k REVOKED d = rowcount (counted k) (vouchers d)
  ∧ count_status k ACTIVE d + count_status k EXHAUSTED d + count_status k REVOKED d
      = rowcount (used k) (vouchers d) + rowcount (withdrawn k) (vouchers d).
Proof.
  destruct d as [pl se ba vs au]. induction vs as [|v vs IH]; intros Hok; [done|].
  destruct IH as (IH1 & IH2 & IH3).
  { intros x Hx. apply Hok. by apply elem_of_cons; right. }
  destruct (Hok v ltac:(constructor)) as (m & Hm & Hv).
  rewrite (count_status_cons k EXPIRED v _ vs), (count_status_cons k UNUSED v _ vs),
    (count_status_cons k ACTIVE v _ vs), (count_status_cons k EXHAUSTED v _ vs),
    (count_status_cons k REVOKED v _ vs) by done. unfold on_vouchers.
  cbn [plans series batches vouchers audit_log] in *. rewrite !rowcount_cons.
  set (d := Database pl se ba vs au) in *. revert IH1 IH2 IH3.
  generalize (count_status k EXPIRED d) (count_status k UNUSED d) (count_status k ACTIVE d)
    (count_status k EXHAUSTED d) (count_status k REVOKED d).
  generalize (rowcount (counted k) vs) (rowcount (used k) vs) (rowcount (withdrawn k) vs). intros.
  unfold used, withdrawn. unfold voucher_ok in Hv.
  destruct (counted k v); cbn [andb]; [|split_and!; lia].
  destruct (status v); try done; repeat (case_bool_decide; try done); cbn [andb];
    destruct (Z.ltb_spec 0 (use_count v)), (Z.eqb_spec (use_count v) 0); split_and!; lia.
Qed.

(** What the statistics of a batch count.  On consistent tables the total
    is the number of live vouchers; [expired] is always 0, no request ever
    giving a voucher that status; and the numerator of [redemption_rate] adds
    to the vouchers used at least once those revoked without a single use. *)
Theorem stats_count_withdrawn_as_redeemed now k req w s w' :
  consistent (db w) → get_batch_stats (R:=R) caller_scope now k req w = (Ok s, w') →
  total s = rowcount (counted k) (vouchers (db w)) ∧ expired_count s = 0
  ∧ redeemed_count s
    = rowcount (used k) (vouchers (db w)) + rowcount (withdrawn k) (vouchers (db w)).
Proof.
  intros [_ _ _ Hin] Hrun. apply bind_Ok in Hrun as (b & w1 & Hb & [= <- <-]).
  apply get_batch_Ok in Hb as (Hv & _ & _ & _ & ->). simpl. rewrite <- Hv.
  destruct (counts_add_up k (db w1)) as (He & Ht & Hr); [|rewrite He; lia].
  intros v Hvd. rewrite Hv in Hvd. destruct (Hin v Hvd) as (b1 & _ & _ & Hpos & Hok). eauto.
Qed.
End requests.

Module examples.
Import Voucher.examples.
#[local] Existing Instance ascii_only.

Abbreviation W := (world database (conn MapRedis.store)).
Definition new_ids (i : nat) : uuid := Pos.of_nat (100 + i).
(** A generator of distinct four-letter bodies. *)
Definition letters (r i : nat) : pystr := [65 + N.of_nat i; 66; 67; 68]%N.
Definition anyone (_ : uuid) : bool := true.
Definition nowhere (_ _ : uuid) : bool := false.
Definition july : new_batch := NewBatch 9 None None None 3 4 (Some (u "july-")) 60 None 1.

Definition after_revoke : W :=
  Eval vm_compute in (revoke_batch (R:=MapRedis.store) true None 8 1 (Some 3%positive) None w0).2.
Definition lobby_revoked : VoucherBatch := set_batch_status BATCH_REVOKED lobby.
Definition traffic : list (datetime * request) :=
  [(9, Redeem 9 (u "JULY2345") (u "b") (u "10.0.0.1")); (10, Approve 1 None None); (11, ReadStats 1 None)].

Lemma requests_follow_the_life_cycle_witness :
  let w' := serve_all anyone nowhere 20 5 true None traffic w0 in
  consistent (db w') ∧
  ∀ b, b ∈ batches (db w0) → ∃ b', b' ∈ batches (db w')
    ∧ batch_row_id b' = batch_row_id b ∧ rtc arrow (batch_status b) (batch_status b').
Proof.
  apply (requests_follow_the_life_cycle anyone nowhere 20 5 true None traffic w0 consistent_d0).
  repeat split.
Defined.

Lemma revoked_batch_is_dead_witness :
  is_ok (redeem_voucher 20 5 true 20 20 (u "july-6789") (u "c") (u "10.0.0.2")
           (serve_all anyone nowhere 20 5 true None traffic after_revoke)).1 = false.
Proof.
  assert (revoke_batch (R:=MapRedis.store) true None 8 1 (Some 3%positive) None w0
    = (Ok lobby_revoked, after_revoke)) as Hrun by by_vm.
  apply (revoked_batch_is_dead anyone nowhere 20 5 true None 8 1 (Some 3%positive) None w0
    lobby_revoked after_revoke traffic consistent_d0 Hrun ltac:(repeat split))
    with (v := set_status REVOKED fresh); [by_vm|reflexivity].
Defined.

Definition sheet : list pystr := [u "aa-11"; u "AA-11 "; u "  "; u "july2345"; u "BB 22"].
Definition import_run := Eval vm_compute in
  import_vouchers (R:=MapRedis.store) true None 7 new_ids 1 None None sheet w0.
Definition imported_rows : list Voucher :=
  [fresh_voucher lobby (new_ids 0) (u "AA-11"); fresh_voucher lobby (new_ids 1) (u "BB 22")].
Definition rejected_lines : list (pystr * pystr) :=
  [(u "AA-11", u "duplicate within import request"); (u "  ", u "empty code");
   (u "JULY2345", u "code already exists")].

Lemma import_accounts_for_every_code_witness :
  first_match (voucher_code_lookup_candidates (u " bb 22")) (db import_run.2)
    = Some (fresh_voucher lobby (new_ids 1) (u "BB 22")).
Proof.
  assert (import_vouchers (R:=MapRedis.store) true None 7 new_ids 1 None None sheet w0
    = (Ok (imported_rows, rejected_lines), import_run.2)) as Hrun by by_vm.
  apply (import_accounts_for_every_code true None 7 new_ids 1 None None sheet w0
    imported_rows rejected_lines import_run.2 Hrun); [repeat constructor|by_vm].
Defined.

Definition created := Eval vm_compute in
  create_batch (R:=MapRedis.store) anyone nowhere true None 7 new_ids 2 letters None None true july w0.
Definition july_batch : VoucherBatch :=
  set_batch_status BATCH_ACTIVE (set_approved None 7 (drafted 2 july)).
Lemma created_run :
  create_batch (R:=MapRedis.store) anyone nowhere true None 7 new_ids 2 letters None None true july w0
    = (Ok july_batch, created.2).
Proof. by_vm. Qed.

Lemma create_issues_new_codes_witness :
  ∃ cs, vouchers (db created.2) = vouchers d0 ++ rows_of new_ids (drafted 2 july) cs
    ∧ length cs = 3%nat ∧ NoDup cs
    ∧ ∀ c, c ∈ cs → (∀ v, v ∈ vouchers d0 → code v ≠ c)
        ∧ ∃ r i, c = with_prefix (Some (u "july-")) (letters r i).
Proof. eapply (create_issues_new_codes _ _ _ _ _ _ _ _ _ _ _ _ _ _ _ created_run). Defined.

Definition first_july : Voucher := fresh_voucher (drafted 2 july) (new_ids 0) (u "july-ABCD").
Lemma lowercase_prefix_cannot_be_redeemed_witness :
  first_match (voucher_code_lookup_candidates (code first_july)) (db created.2) ≠ Some first_july.
Proof.
  apply (lowercase_prefix_cannot_be_redeemed _ _ _ _ _ _ _ _ _ _ _ _ (u "july-") _ _ _
    (db created.2) (code first_july) first_july created_run).
  - reflexivity.
  - by_vm.
  - vm_compute. do 2 apply list_elem_of_further. apply list_elem_of_here.
  - vm_compute. intros Hin. repeat (apply elem_of_cons in Hin as [Hin|Hin]; [done|]).
    by apply not_elem_of_nil in Hin.
  - by_vm.
Defined.

(** The batch above was revoked with one voucher never used. *)
Definition d_revoked : database := Database [] [] [lobby_revoked]
  [set_status REVOKED once; set_status REVOKED fresh] [].
Lemma consistent_revoked : consistent d_revoked.
Proof.
  constructor; simpl.
  - repeat constructor; set_solver.
  - repeat constructor; set_solver.
  - intros b ->%list_elem_of_singleton. done.
  - intros v Hv. exists lobby_revoked. rewrite !elem_of_cons, elem_of_nil in Hv.
    destruct Hv as [Hv|[Hv|[]]]; rewrite Hv; split_and!; try done; apply list_elem_of_here.
Qed.
Lemma stats_count_withdrawn_as_redeemed_witness :
  let s := Stats 0 0 0 0 2 2 2 in
  total s = 2 ∧ expired_count s = 0 ∧ redeemed_count s = 1 + 1.
Proof.
  apply (stats_count_withdrawn_as_redeemed (R:=MapRedis.store) None 9 1 None
    (World d_revoked (Conn ∅ [])) _ (World d_revoked (Conn ∅ [])) consistent_revoked).
  by_vm.
Defined.
End examples.
End VoucherRequests.
