(* ===== verification/Credits.v ===== *)
(** Prepaid credits: [src/backend/app/domains/billing/credits_service.py] and
    [credits_repository.py].

    An organization's wallet holds two balances, [available] and [reserved].
    Every movement goes through [apply], which appends one ledger entry and
    writes the wallet, in the caller's transaction and under the wallet's row
    lock: transactions on one wallet follow each other, so a history of the
    service is a list of them. *)

From S2P Require Import Prelude Session PyStr.

Module Credits.

Inductive CreditBucket := MARKETING.
Inductive CreditEntryType := TOPUP | RESERVE | RELEASE | DEBIT | REFUND | ADJUSTMENT.
#[export] Instance bucket_eq_dec : EqDecision CreditBucket.
Proof. solve_decision. Defined.
#[export] Instance bucket_countable : Countable CreditBucket.
Proof. by refine (inj_countable' (λ _, tt) (λ _, MARKETING) _); intros []. Defined.
#[export] Instance entry_type_eq_dec : EqDecision CreditEntryType.
Proof. solve_decision. Defined.

Definition DEFAULT_LOW_BALANCE_THRESHOLD_MINOR : Z := 10000.
Definition MAX_ENTRY_AMOUNT_MINOR : Z := 1000000000.
Definition LOW_BALANCE_ENTRY_TYPES : list CreditEntryType := [RESERVE; DEBIT; ADJUSTMENT].

(** The key of a wallet: [uq_credit_wallets_org_bucket]. *)
Abbreviation wallet_key := (uuid * CreditBucket)%type.

Record CreditWallet := mk_wallet {
  available_minor : Z;
  reserved_minor : Z;
  low_balance_threshold_minor : Z;
  low_balance_notified_at : option datetime;
}.
Definition new_wallet : CreditWallet := mk_wallet 0 0 DEFAULT_LOW_BALANCE_THRESHOLD_MINOR None.

(** The columns a caller fills in ([fields]). *)
Record entry_fields := Fields {
  campaign_id : option uuid;
  recipient_id : option uuid;
  unit_price_minor : option Z;
  units : option Z;
  is_test_send : bool;
  actor_user_id : option uuid;
  reference : option pystr;
  note : option pystr;
}.
Definition no_fields : entry_fields := Fields None None None None false None None None.

Record CreditLedgerEntry := mk_entry {
  wallet_of : wallet_key;
  entry_type : CreditEntryType;
  delta_available_minor : Z;
  delta_reserved_minor : Z;
  balance_available_after_minor : Z;
  balance_reserved_after_minor : Z;
  idempotency_key : pystr;
  details : entry_fields;
  invoice_id : option uuid;
}.

(** A queued [marketing_credits_low] message. *)
Record low_balance_alert := Alert {
  alerted : wallet_key; alert_recipient : pystr; alert_available : Z; alert_threshold : Z }.

Record database := Database {
  wallets : gmap wallet_key CreditWallet;
  ledger : list CreditLedgerEntry;
  outbox : list low_balance_alert;
}.

Inductive error :=
| ValueError
| InsufficientCreditsError (needed available : Z)
| AdjustmentExceedsAvailableError (amount available : Z)
| CreditReservationExceededError (amount reserved : Z)
| IdempotencyKeyReusedError (key : pystr)
| IntegrityError (check_violation : bool)
| InvoiceError.
#[export] Instance error_eq_dec : EqDecision error.
Proof. solve_decision. Defined.

Record LedgerWrite := Written { entry : CreditLedgerEntry; wallet : CreditWallet; created : bool }.

(** ** [credits_repository.py] *)
Definition entries_of (k : wallet_key) (d : database) : list CreditLedgerEntry :=
  List.filter (λ e, bool_decide (wallet_of e = k)) (ledger d).
Definition get_entry_by_key (k : wallet_key) (key : pystr) (d : database) :
    option CreditLedgerEntry :=
  head (List.filter (λ e, bool_decide (idempotency_key e = key)) (entries_of k d)).
Definition set_wallet (k : wallet_key) (w : CreditWallet) (d : database) : database :=
  Database (<[k := w]> (wallets d)) (ledger d) (outbox d).
Definition append_entry (e : CreditLedgerEntry) (d : database) : database :=
  Database (wallets d) (ledger d ++ [e]) (outbox d).
Definition queue_alert (a : low_balance_alert) (d : database) : database :=
  Database (wallets d) (ledger d) (outbox d ++ [a]).

Section service.
(** What the service is wired to: [Organization.contact_email], whether the
    notification outbox accepts a row, and whether the low-balance hook is
    installed. *)
Variable contact_email : uuid → option pystr.
Variable outbox_accepts : wallet_key → bool.
Variable has_hook : bool.
Abbreviation op := (M database error).
Implicit Types (d : database) (k : wallet_key) (w : CreditWallet) (now : datetime).

(** [lock_wallet]: the row under its lock, created at 0 on the first write. *)
Definition lock_wallet k : op CreditWallet := λ d,
  match wallets d !! k with
  | Some w => (Ok w, d)
  | None => (Ok new_wallet, set_wallet k new_wallet d)
  end.

(** The constraints of the two tables. *)
Definition wallet_checks w : bool :=
  (0 <=? available_minor w) && (0 <=? reserved_minor w) && (0 <=? low_balance_threshold_minor w).
Definition entry_checks (e : CreditLedgerEntry) : bool :=
  (0 <=? balance_available_after_minor e) && (0 <=? balance_reserved_after_minor e).
Definition same_recipient_debit (e e' : CreditLedgerEntry) : bool :=
  bool_decide (entry_type e = DEBIT) && bool_decide (entry_type e' = DEBIT)
  && match recipient_id (details e) with
     | Some _ => bool_decide (recipient_id (details e) = recipient_id (details e'))
     | None => false
     end.

Definition save_wallet k w : op unit :=
  if wallet_checks w then modify (set_wallet k w) else raise (IntegrityError true).
Definition insert_entry (e : CreditLedgerEntry) : op CreditLedgerEntry :=
  _ ← raise_if (negb (entry_checks e)) (IntegrityError true);
  taken ← gets (λ d, bool_decide (is_Some (get_entry_by_key (wallet_of e) (idempotency_key e) d))
                     || existsb (same_recipient_debit e) (ledger d));
  _ ← raise_if taken (IntegrityError false);
  _ ← modify (append_entry e);
  mret e.

Definition count_campaign_entries k (c : uuid) (t : CreditEntryType) (prefix : pystr) d : nat :=
  length (List.filter (λ e, bool_decide (campaign_id (details e) = Some c)
    && bool_decide (entry_type e = t) && startswith prefix (idempotency_key e)) (entries_of k d)).

Definition sum (f : CreditLedgerEntry → Z) (es : list CreditLedgerEntry) : Z :=
  foldr (λ e s, f e + s) 0 es.
Definition campaign_reserved_outstanding k (c : uuid) d : Z :=
  sum delta_reserved_minor
    (List.filter (λ e, bool_decide (campaign_id (details e) = Some c)) (entries_of k d)).

(** ** [LowBalanceNotifier]: in a savepoint, so a failing enqueue leaves no
    trace and raises nothing. *)
Definition low_balance_notifier k w : op unit :=
  match contact_email k.1 with
  | Some address =>
      if bool_decide (address = []) then mret tt
      else if outbox_accepts k then
        modify (queue_alert (Alert k address (available_minor w) (low_balance_threshold_minor w)))
      else mret tt
  | None => mret tt
  end.

(** [_maybe_alert_low_balance]. *)
Definition below_threshold w : bool := available_minor w <? low_balance_threshold_minor w.
Definition notified w : bool := bool_decide (is_Some (low_balance_notified_at w)).
Definition set_notified (t : option datetime) w : CreditWallet :=
  mk_wallet (available_minor w) (reserved_minor w) (low_balance_threshold_minor w) t.
Definition maybe_alert_low_balance now k (t : CreditEntryType) w : op CreditWallet :=
  if negb has_hook || bool_decide (t ∉ LOW_BALANCE_ENTRY_TYPES) || notified w
     || negb (below_threshold w)
  then mret w
  else
    _ ← low_balance_notifier k w;
    _ ← save_wallet k (set_notified (Some now) w);
    mret (set_notified (Some now) w).

(** [except IntegrityError]: a check violation becomes a 402 quoting the
    balance the wallet object holds by then. *)
Definition backstop {A} (needed available : Z) (m : op A) : op A := λ d,
  match m d with
  | (Raise (IntegrityError true), d') => (Raise (InsufficientCreditsError needed available), d')
  | r => r
  end.

(** ** [_apply], the one write path *)
Definition same_movement (t : CreditEntryType) (da dr : Z) (f : entry_fields)
    (e : CreditLedgerEntry) : bool :=
  bool_decide (entry_type e = t) && (delta_available_minor e =? da)
  && (delta_reserved_minor e =? dr) && bool_decide (campaign_id (details e) = campaign_id f)
  && bool_decide (recipient_id (details e) = recipient_id f).

Definition moved (na nr : Z) w : CreditWallet :=
  mk_wallet na nr (low_balance_threshold_minor w)
    (if notified w && (low_balance_threshold_minor w <=? na) then None
     else low_balance_notified_at w).

(** [before_write] is the callback a top-up may pass to issue its invoice: the
    outcome of that call. *)
Abbreviation callback := (option (outcome error uuid)).
Definition run_callback (g : callback) : op (option uuid) :=
  match g with
  | None => mret None
  | Some (Ok invoice) => mret (Some invoice)
  | Some (Raise e) => raise e
  end.

Definition record_movement now k (t : CreditEntryType) (da dr : Z) (key : pystr)
    (f : entry_fields) (invoice : option uuid) w : op LedgerWrite :=
  let na := available_minor w + da in
  let nr := reserved_minor w + dr in
  e ← backstop (Z.max 0 (- da)) (available_minor w)
        (insert_entry (mk_entry k t da dr na nr key f invoice));
  backstop (Z.max 0 (- da)) na (
    _ ← save_wallet k (moved na nr w);
    w' ← maybe_alert_low_balance now k t (moved na nr w);
    mret (Written e w' true)).

Definition apply now k (t : CreditEntryType) (da dr : Z) (key : pystr) (f : entry_fields)
    (before_write : callback) : op LedgerWrite :=
  _ ← raise_if (bool_decide (key = [])) ValueError;
  w ← lock_wallet k;
  existing ← gets (get_entry_by_key k key);
  match existing with
  | Some e =>
      _ ← raise_if (negb (same_movement t da dr f e)) (IdempotencyKeyReusedError key);
      mret (Written e w false)
  | None =>
      let na := available_minor w + da in
      let nr := reserved_minor w + dr in
      _ ← raise_if (na <? 0)
            (if bool_decide (t = ADJUSTMENT)
             then AdjustmentExceedsAvailableError da (available_minor w)
             else InsufficientCreditsError (- da) (available_minor w));
      _ ← raise_if (nr <? 0) (CreditReservationExceededError (- dr) (reserved_minor w));
      invoice ← run_callback before_write;
      record_movement now k t da dr key f invoice w
  end.

Definition require_positive (n : Z) : op unit :=
  raise_if ((n <=? 0) || (MAX_ENTRY_AMOUNT_MINOR <? n)) ValueError.

(** ** The movements *)
Definition topup now k (n : Z) key (actor : option uuid) (ref note : option pystr) (g : callback) :=
  _ ← require_positive n;
  apply now k TOPUP n 0 key (Fields None None None None false actor ref note) g.
Definition reserve now k (n : Z) key (c : uuid) :=
  _ ← require_positive n;
  apply now k RESERVE (- n) n key (Fields (Some c) None None None false None None None) None.
Definition release now k (n : Z) key (c : uuid) :=
  _ ← require_positive n;
  apply now k RELEASE n (- n) key (Fields (Some c) None None None false None None None) None.
Definition debit now k (n : Z) key (c r : option uuid) (price us : option Z) (test : bool) :=
  _ ← require_positive n;
  apply now k DEBIT (if test then - n else 0) (if test then 0 else - n) key
    (Fields c r price us test None None None) None.
Definition refund now k (n : Z) key (c actor : option uuid) (ref note : option pystr) :=
  _ ← require_positive n;
  apply now k REFUND n 0 key (Fields c None None None false actor ref note) None.
Definition adjust now k (n : Z) key (actor : option uuid) (ref note : option pystr) :=
  _ ← raise_if ((n =? 0) || (MAX_ENTRY_AMOUNT_MINOR <? Z.abs n)) ValueError;
  apply now k ADJUSTMENT n 0 key (Fields None None None None false actor ref note) None.

(** [reserve:{campaign_id}:{n}]. *)
Definition reserve_key (c : uuid) (n : nat) : pystr :=
  u "reserve:" ++ uuid_str c ++ u ":" ++ nat_str n.

(** [reserve_for_campaign]; [unit_minor] asks for as many whole units as the
    balance covers. *)
Definition reserve_for_campaign now k (c : uuid) (n : Z) (unit_minor : option Z) : op Z :=
  if n <=? 0 then mret 0
  else
    w ← lock_wallet k;
    match unit_minor with
    | Some per =>
        if per <=? 0 then mret 0
        else
          let n' := Z.min (n / per) (available_minor w / per) * per in
          if n' <=? 0 then mret 0
          else
            i ← gets (count_campaign_entries k c RESERVE []);
            _ ← reserve now k n' (reserve_key c i) c;
            mret n'
    | None =>
        i ← gets (count_campaign_entries k c RESERVE []);
        _ ← reserve now k n (reserve_key c i) c;
        mret n
    end.

(** [release_campaign_remainder]. *)
Definition release_key (base : pystr) (prior : nat) : pystr :=
  match prior with O => base | _ => base ++ u ":" ++ nat_str prior end.
Definition release_campaign_remainder now k (c : uuid) (base : pystr) (hold : Z) : op Z :=
  _ ← lock_wallet k;
  outstanding ← gets (campaign_reserved_outstanding k c);
  let n := outstanding - Z.max 0 hold in
  if n <=? 0 then mret 0
  else
    prior ← gets (count_campaign_entries k c RELEASE base);
    _ ← release now k n (release_key base prior) c;
    mret n.

(** [update_settings]: the threshold, re-arming the alert. *)
Definition update_settings k (threshold : Z) : op CreditWallet :=
  w ← lock_wallet k;
  let w' := mk_wallet (available_minor w) (reserved_minor w) threshold
              (if threshold <=? available_minor w then None else low_balance_notified_at w) in
  _ ← save_wallet k w';
  mret w'.

(** ** Transactions *)
Inductive movement :=
| Topup k (n : Z) (key : pystr) (actor : option uuid) (ref note : option pystr) (g : callback)
| Reserve k (n : Z) (key : pystr) (c : uuid)
| Release k (n : Z) (key : pystr) (c : uuid)
| Debit k (n : Z) (key : pystr) (c r : option uuid) (price us : option Z) (test : bool)
| Refund k (n : Z) (key : pystr) (c actor : option uuid) (ref note : option pystr)
| Adjust k (n : Z) (key : pystr) (actor : option uuid) (ref note : option pystr)
| ReserveForCampaign k (c : uuid) (n : Z) (unit_minor : option Z)
| ReleaseRemainder k (c : uuid) (base : pystr) (hold : Z)
| UpdateSettings k (threshold : Z).

Definition ignore {A} (m : op A) : op unit := _ ← m; mret tt.
Definition run now (m : movement) : op unit :=
  match m with
  | Topup k n key actor ref note g => ignore (topup now k n key actor ref note g)
  | Reserve k n key c => ignore (reserve now k n key c)
  | Release k n key c => ignore (release now k n key c)
  | Debit k n key c r price us test => ignore (debit now k n key c r price us test)
  | Refund k n key c actor ref note => ignore (refund now k n key c actor ref note)
  | Adjust k n key actor ref note => ignore (adjust now k n key actor ref note)
  | ReserveForCampaign k c n unit_minor => ignore (reserve_for_campaign now k c n unit_minor)
  | ReleaseRemainder k c base hold => ignore (release_campaign_remainder now k c base hold)
  | UpdateSettings k threshold => ignore (update_settings k threshold)
  end.
(** The caller's transaction commits when it returns and rolls back when it
    raises. *)
Definition transaction {A} (m : op A) d : database := db (get_db_session (on_db m) (World d tt)).2.
Fixpoint history (ms : list (datetime * movement)) d : database :=
  match ms with [] => d | (now, m) :: ms => history ms (transaction (run now m) d) end.

Lemma transaction_eq {A} (m : op A) d :
  transaction m d = match m d with (Ok _, d') => d' | (Raise _, _) => d end.
Proof. unfold transaction, get_db_session, on_db, zoom. simpl. by destruct (m d) as [[a|e] d']. Qed.

(** ** The books *)
Definition wallet_at k d : CreditWallet := default new_wallet (wallets d !! k).
Definition locked k d : database :=
  match wallets d !! k with Some _ => d | None => set_wallet k new_wallet d end.
Lemma lock_wallet_run k d : lock_wallet k d = (Ok (wallet_at k d), locked k d).
Proof. unfold lock_wallet, wallet_at, locked. by destruct (wallets d !! k). Qed.

(** Each entry carries the balances after it. *)
Fixpoint running (a r : Z) (es : list CreditLedgerEntry) : Prop :=
  match es with
  | [] => True
  | e :: es => balance_available_after_minor e = a + delta_available_minor e
      ∧ balance_reserved_after_minor e = r + delta_reserved_minor e
      ∧ entry_checks e = true
      ∧ running (a + delta_available_minor e) (r + delta_reserved_minor e) es
  end.
(** The table of the module's documentation: what an entry of each type may
    do to the two balances. *)
Definition by_the_table (e : CreditLedgerEntry) : Prop :=
  let a := delta_available_minor e in
  let r := delta_reserved_minor e in
  Z.abs a ≤ MAX_ENTRY_AMOUNT_MINOR ∧ Z.abs r ≤ MAX_ENTRY_AMOUNT_MINOR ∧
  match entry_type e with
  | TOPUP | REFUND => 0 < a ∧ r = 0
  | RESERVE => a < 0 ∧ r = - a
  | RELEASE => 0 < a ∧ r = - a
  | DEBIT => if is_test_send (details e) then a < 0 ∧ r = 0 else a = 0 ∧ r < 0
  | ADJUSTMENT => a ≠ 0 ∧ r = 0
  end.
Definition explained d k : Prop :=
  match wallets d !! k with
  | Some w => wallet_checks w = true
      ∧ available_minor w = sum delta_available_minor (entries_of k d)
      ∧ reserved_minor w = sum delta_reserved_minor (entries_of k d)
  | None => entries_of k d = []
  end.
Record books d : Prop := {
  keys_once : NoDup (map (λ e, (wallet_of e, idempotency_key e)) (ledger d));
  balances : ∀ k, explained d k;
  running_balances : ∀ k, running 0 0 (entries_of k d);
  sign_table : Forall by_the_table (ledger d);
}.

Lemma sum_app f es es' : sum f (es ++ es') = sum f es + sum f es'.
Proof. induction es as [|e es IH]; simpl; [done|]. rewrite IH. lia. Qed.
Lemma running_snoc a r es e :
  running a r (es ++ [e]) ↔ running a r es
    ∧ balance_available_after_minor e = a + sum delta_available_minor es + delta_available_minor e
    ∧ balance_reserved_after_minor e = r + sum delta_reserved_minor es + delta_reserved_minor e
    ∧ entry_checks e = true.
Proof.
  revert a r. induction es as [|x es IH]; intros a r; simpl.
  - rewrite !Z.add_0_r. naive_solver.
  - rewrite IH, !Z.add_assoc. naive_solver.
Qed.

Lemma entries_of_snoc k e d :
  entries_of k (append_entry e d)
  = entries_of k d ++ (if bool_decide (wallet_of e = k) then [e] else []).
Proof. unfold entries_of. simpl. rewrite List.filter_app. simpl. by case_bool_decide. Qed.

Lemma books_wallet d k :
  books d → wallet_checks (wallet_at k d) = true
    ∧ available_minor (wallet_at k d) = sum delta_available_minor (entries_of k d)
    ∧ reserved_minor (wallet_at k d) = sum delta_reserved_minor (entries_of k d).
Proof.
  intros [_ Hb _ _]. specialize (Hb k). unfold explained, wallet_at in *.
  destruct (wallets d !! k); simpl; [done|]. rewrite Hb. done.
Qed.

Lemma get_entry_None k key d e :
  get_entry_by_key k key d = None → e ∈ ledger d → wallet_of e = k → idempotency_key e ≠ key.
Proof.
  unfold get_entry_by_key, entries_of. intros Hn He Hk Hkey.
  assert (In e (List.filter (λ e, bool_decide (idempotency_key e = key))
    (List.filter (λ e, bool_decide (wallet_of e = k)) (ledger d)))) as Hin.
  { rewrite !filter_In, !bool_decide_eq_true. by rewrite <- list_elem_of_In. }
  by destruct (List.filter _ _).
Qed.

Lemma get_entry_Some k key d e :
  get_entry_by_key k key d = Some e → e ∈ ledger d ∧ wallet_of e = k ∧ idempotency_key e = key.
Proof.
  unfold get_entry_by_key, entries_of. intros He.
  assert (In e (List.filter (λ e, bool_decide (idempotency_key e = key))
    (List.filter (λ e, bool_decide (wallet_of e = k)) (ledger d)))) as Hin
    by (destruct (List.filter _ _); [done|injection He as ->; by left]).
  rewrite !filter_In, !bool_decide_eq_true, <- list_elem_of_In in Hin. by destruct Hin as [[? ?] ?].
Qed.

(** Writing a wallet: the entries stay, the other wallets stay. *)
Lemma explained_set_wallet k w d k' :
  (k = k' → wallet_checks w = true
    ∧ available_minor w = sum delta_available_minor (entries_of k d)
    ∧ reserved_minor w = sum delta_reserved_minor (entries_of k d)) →
  (k ≠ k' → explained d k') → explained (set_wallet k w d) k'.
Proof.
  intros Hs Ho. unfold explained, set_wallet in *. simpl.
  destruct (decide (k = k')) as [<-|Hne].
  - rewrite lookup_insert_eq. by apply Hs.
  - rewrite lookup_insert_ne by done. by apply Ho.
Qed.

Lemma books_locked k d : books d → books (locked k d).
Proof.
  intros Hb. unfold locked. destruct (wallets d !! k) eqn:E; [done|].
  destruct Hb as [Hk Hx Hr Ht]. constructor; try done. intros k'.
  apply explained_set_wallet; [|intros; apply Hx]. intros <-.
  specialize (Hx k). unfold explained in Hx. rewrite E in Hx. by rewrite Hx.
Qed.

(** ** One movement *)
Definition alert_fires (t : CreditEntryType) w : bool :=
  has_hook && bool_decide (t ∈ LOW_BALANCE_ENTRY_TYPES) && negb (notified w) && below_threshold w.
Definition alerts k w : list low_balance_alert :=
  match contact_email k.1 with
  | Some address =>
      if negb (bool_decide (address = [])) && outbox_accepts k
      then [Alert k address (available_minor w) (low_balance_threshold_minor w)] else []
  | None => []
  end.
Definition settled now (t : CreditEntryType) w : CreditWallet :=
  if alert_fires t w then set_notified (Some now) w else w.
Definition booked k (e : CreditLedgerEntry) w (als : list low_balance_alert) d : database :=
  Database (<[k := w]> (wallets d)) (ledger d ++ [e]) (outbox d ++ als).

Lemma notifier_run k w d :
  low_balance_notifier k w d
  = (Ok tt, Database (wallets d) (ledger d) (outbox d ++ alerts k w)).
Proof.
  unfold low_balance_notifier, alerts. destruct d as [ws l o], (contact_email k.1) as [[|]|];
    simpl; rewrite ?app_nil_r; try done. destruct (outbox_accepts k); [done|].
  by rewrite app_nil_r.
Qed.

Lemma maybe_alert_run now k t w d :
  wallet_checks w = true → wallets d !! k = Some w →
  maybe_alert_low_balance now k t w d
  = (Ok (settled now t w),
     Database (<[k := settled now t w]> (wallets d)) (ledger d)
       (outbox d ++ if alert_fires t w then alerts k w else [])).
Proof.
  intros Hw Hk. unfold maybe_alert_low_balance, settled, alert_fires.
  rewrite bool_decide_not. destruct has_hook, (bool_decide (t ∈ LOW_BALANCE_ENTRY_TYPES)), (notified w),
    (below_threshold w); simpl; rewrite ?app_nil_r, ?(insert_id _ k w Hk); try by destruct d.
  mstep. rewrite notifier_run. unfold save_wallet, wallet_checks in *. simpl. by rewrite Hw.
Qed.

Definition entry_for k t (da dr : Z) key f invoice w : CreditLedgerEntry :=
  mk_entry k t da dr (available_minor w + da) (reserved_minor w + dr) key f invoice.
(** The wallet after a movement. *)
Definition wallet_after now t (da dr : Z) w : CreditWallet :=
  settled now t (moved (available_minor w + da) (reserved_minor w + dr) w).
Definition alerts_after k t (da dr : Z) w : list low_balance_alert :=
  let w' := moved (available_minor w + da) (reserved_minor w + dr) w in
  if alert_fires t w' then alerts k w' else [].
Definition recipient_free (e : CreditLedgerEntry) d : Prop :=
  existsb (same_recipient_debit e) (ledger d) = false.

Lemma record_run now k t da dr key f invoice w d :
  let e := entry_for k t da dr key f invoice w in
  wallet_checks w = true → 0 ≤ available_minor w + da → 0 ≤ reserved_minor w + dr →
  get_entry_by_key k key d = None →
  record_movement now k t da dr key f invoice w d =
    if existsb (same_recipient_debit e) (ledger d) then (Raise (IntegrityError false), d)
    else (Ok (Written e (wallet_after now t da dr w) true),
          booked k e (wallet_after now t da dr w) (alerts_after k t da dr w) d).
Proof.
  intros e Hw Ha Hr Hn.
  assert (entry_checks e = true) as He
    by (unfold entry_checks; simpl; by rewrite !(proj2 (Z.leb_le _ _))).
  assert (wallet_checks (moved (available_minor w + da) (reserved_minor w + dr) w) = true) as Hw'.
  { unfold wallet_checks in *. simpl. apply andb_true_iff in Hw as [_ Hw].
    by rewrite Hw, !(proj2 (Z.leb_le _ _)). }
  unfold record_movement, insert_entry, backstop. fold (entry_for k t da dr key f invoice w). fold e.
  mstep. rewrite He. simpl. rewrite Hn. rewrite bool_decide_false by (by intros [? [=]]). simpl.
  destruct (existsb (same_recipient_debit e) (ledger d)); [done|].
  unfold save_wallet. rewrite Hw'. mstep.
  rewrite maybe_alert_run; [|done|apply lookup_insert_eq]. unfold booked. simpl.
  by rewrite insert_insert_eq.
Qed.

(** The error a refused movement raises. *)
Definition refusal (t : CreditEntryType) (da dr : Z) w : error :=
  if available_minor w + da <? 0 then
    if bool_decide (t = ADJUSTMENT) then AdjustmentExceedsAvailableError da (available_minor w)
    else InsufficientCreditsError (- da) (available_minor w)
  else CreditReservationExceededError (- dr) (reserved_minor w).

(** [apply] with a key not yet used. *)
Lemma apply_new now k t da dr key f g d :
  key ≠ [] → wallet_checks (wallet_at k d) = true → get_entry_by_key k key d = None →
  let w := wallet_at k d in
  apply now k t da dr key f g d =
    if (0 <=? available_minor w + da) && (0 <=? reserved_minor w + dr) then
      match g with
      | Some (Raise e) => (Raise e, locked k d)
      | _ => record_movement now k t da dr key f
               match g with Some (Ok i) => Some i | _ => None end w (locked k d)
      end
    else (Raise (refusal t da dr w), locked k d).
Proof.
  intros Hkey Hw Hn w. unfold apply. rewrite (bool_decide_false (key = [])) by done. mstep.
  rewrite lock_wallet_run. fold w.
  assert (get_entry_by_key k key (locked k d) = None) as Hn'
    by (unfold locked; by destruct (wallets d !! k)).
  rewrite Hn'. unfold refusal.
  rewrite !Z.ltb_antisym. destruct (0 <=? available_minor w + da); simpl; [|done].
  destruct (0 <=? reserved_minor w + dr); simpl; [|done]. by destruct g as [[]|].
Qed.

Lemma apply_replay now k t da dr key f g d e :
  key ≠ [] → get_entry_by_key k key d = Some e →
  apply now k t da dr key f g d =
    (if same_movement t da dr f e then Ok (Written e (wallet_at k d) false)
     else Raise (IdempotencyKeyReusedError key), locked k d).
Proof.
  intros Hkey He. unfold apply. rewrite (bool_decide_false (key = [])) by done. mstep.
  rewrite lock_wallet_run.
  assert (get_entry_by_key k key (locked k d) = Some e) as He'
    by (unfold locked; by destruct (wallets d !! k)).
  rewrite He'. by destruct (same_movement t da dr f e).
Qed.

Lemma books_booked now k t da dr key f invoice d :
  let w := wallet_at k d in
  let e := entry_for k t da dr key f invoice w in
  books d → 0 ≤ available_minor w + da → 0 ≤ reserved_minor w + dr →
  get_entry_by_key k key d = None → by_the_table e →
  books (booked k e (wallet_after now t da dr w) (alerts_after k t da dr w) d).
Proof.
  intros w e Hb Ha Hr Hn Ht. destruct (books_wallet d k Hb) as (Hw & Hav & Hres).
  destruct Hb as [Hk Hx Hrun Hs].
  assert (∀ k', entries_of k' (booked k e (wallet_after now t da dr w) (alerts_after k t da dr w) d)
    = entries_of k' d ++ (if bool_decide (k = k') then [e] else [])) as Hes.
  { intros k'. apply (entries_of_snoc k' e d). }
  assert (available_minor (wallet_after now t da dr w) = available_minor w + da
    ∧ reserved_minor (wallet_after now t da dr w) = reserved_minor w + dr
    ∧ low_balance_threshold_minor (wallet_after now t da dr w) = low_balance_threshold_minor w)
    as (Ha' & Hr' & Ht') by (unfold wallet_after, settled; by destruct (alert_fires _ _)).
  constructor.
  - simpl. rewrite map_app. apply NoDup_app. split_and!; [done| |apply NoDup_singleton].
    intros p Hp ->%list_elem_of_singleton. apply list_elem_of_fmap in Hp as (x & [= Hpk Hpkey] & Hp).
    by eapply (get_entry_None k key d x).
  - intros k'. unfold explained. rewrite Hes. simpl. destruct (decide (k = k')) as [<-|Hne].
    + rewrite lookup_insert_eq, bool_decide_true, !sum_app by done. simpl.
      unfold wallet_checks in *. rewrite Ha', Hr', Ht'. apply andb_true_iff in Hw as [_ Hw].
      fold w in Hw, Hav, Hres. rewrite Hw, !(proj2 (Z.leb_le _ _)) by done. split_and!; [done|lia..].
    + rewrite lookup_insert_ne, bool_decide_false, app_nil_r by done. apply Hx.
  - intros k'. rewrite Hes. case_bool_decide as Hk'; [subst k'|by rewrite app_nil_r].
    fold w in Hav, Hres. apply running_snoc. split_and!; [done|simpl; lia..|].
    unfold entry_checks. simpl. by rewrite !(proj2 (Z.leb_le _ _)).
  - simpl. apply Forall_app. split; [done|]. by apply Forall_singleton.
Qed.

(** ** What a committed movement did *)
Lemma locked_idemp k d : locked k (locked k d) = locked k d.
Proof.
  unfold locked at 2. destruct (wallets d !! k) eqn:E; [unfold locked; by rewrite !E|].
  unfold locked. rewrite E. simpl. by rewrite lookup_insert_eq.
Qed.
Lemma wallet_at_locked k k' d : wallet_at k' (locked k d) = wallet_at k' d.
Proof.
  unfold wallet_at, locked. destruct (wallets d !! k) eqn:E; [done|]. simpl.
  destruct (decide (k = k')) as [<-|Hne]; [by rewrite lookup_insert_eq, E|].
  by rewrite lookup_insert_ne.
Qed.
Lemma ledger_locked k d : ledger (locked k d) = ledger d.
Proof. unfold locked. by destruct (wallets d !! k). Qed.
Lemma outbox_locked k d : outbox (locked k d) = outbox d.
Proof. unfold locked. by destruct (wallets d !! k). Qed.
Lemma get_entry_locked k k' key d : get_entry_by_key k' key (locked k d) = get_entry_by_key k' key d.
Proof. unfold get_entry_by_key, entries_of. by rewrite ledger_locked. Qed.
Lemma booked_locked k e w als d : booked k e w als (locked k d) = booked k e w als d.
Proof.
  unfold booked. rewrite ledger_locked, outbox_locked. unfold locked.
  destruct (wallets d !! k); [done|]. simpl. by rewrite insert_insert_eq.
Qed.

Lemma set_wallet_locked k w d : set_wallet k w (locked k d) = set_wallet k w d.
Proof.
  unfold set_wallet. rewrite ledger_locked, outbox_locked. unfold locked.
  destruct (wallets d !! k); [done|]. simpl. by rewrite insert_insert_eq.
Qed.

(** One movement of [k]'s wallet, as it is booked. *)
Record booking now k t da dr key f invoice d d' : Prop := {
  booking_available : 0 ≤ available_minor (wallet_at k d) + da;
  booking_reserved : 0 ≤ reserved_minor (wallet_at k d) + dr;
  booking_key : get_entry_by_key k key d = None;
  booking_eq : d' = booked k (entry_for k t da dr key f invoice (wallet_at k d))
                     (wallet_after now t da dr (wallet_at k d))
                     (alerts_after k t da dr (wallet_at k d)) d;
}.

Lemma apply_Ok now k t da dr key f g d r d' :
  wallet_checks (wallet_at k d) = true → apply now k t da dr key f g d = (Ok r, d') →
  (d' = locked k d ∧ created r = false ∧ get_entry_by_key k key d = Some (entry r)
     ∧ same_movement t da dr f (entry r) = true)
  ∨ ∃ invoice, booking now k t da dr key f invoice d d' ∧ created r = true
      ∧ entry r = entry_for k t da dr key f invoice (wallet_at k d)
      ∧ wallet r = wallet_after now t da dr (wallet_at k d).
Proof.
  intros Hw Hrun. assert (key ≠ []) as Hkey.
  { intros ->. unfold apply in Hrun. by rewrite bool_decide_true in Hrun. }
  destruct (get_entry_by_key k key d) as [e|] eqn:He.
  - rewrite (apply_replay now k t da dr key f g d e Hkey He) in Hrun. left.
    destruct (same_movement t da dr f e) eqn:Hs; [|done]. by injection Hrun as <- <-.
  - rewrite apply_new in Hrun by done. right.
    destruct (Z.leb_spec 0 (available_minor (wallet_at k d) + da)) as [Ha|]; [|done].
    destruct (Z.leb_spec 0 (reserved_minor (wallet_at k d) + dr)) as [Hr|]; [|done].
    simpl in Hrun. assert (∃ invoice, record_movement now k t da dr key f invoice (wallet_at k d)
      (locked k d) = (Ok r, d')) as [invoice Hrec].
    { destruct g as [[i|]|]; [eauto|done|eauto]. }
    exists invoice. rewrite record_run in Hrec; [|done..|by rewrite get_entry_locked].
    destruct (existsb _ _); [done|]. injection Hrec as <- <-. split; [|done].
    constructor; try done. by rewrite booked_locked.
Qed.

(** The entry a movement would add obeys the table. *)
Definition lawful t (da dr : Z) f : Prop :=
  by_the_table (mk_entry (1%positive, MARKETING) t da dr 0 0 [] f None).

Inductive change now : wallet_key → database → database → Prop :=
| change_none k d : change now k d (locked k d)
| change_booked k t da dr key f invoice d d' :
    lawful t da dr f → booking now k t da dr key f invoice d d' → change now k d d'
| change_settings k d threshold :
    0 ≤ threshold →
    let w := wallet_at k d in
    change now k d (set_wallet k (mk_wallet (available_minor w) (reserved_minor w) threshold
      (if threshold <=? available_minor w then None else low_balance_notified_at w)) d)
| change_nothing k d : change now k d d.

Definition target (m : movement) : wallet_key :=
  match m with
  | Topup k _ _ _ _ _ _ | Reserve k _ _ _ | Release k _ _ _ | Debit k _ _ _ _ _ _ _
  | Refund k _ _ _ _ _ _ | Adjust k _ _ _ _ _ | ReserveForCampaign k _ _ _
  | ReleaseRemainder k _ _ _ | UpdateSettings k _ => k
  end.

Lemma apply_change now k t da dr key f g d r d' :
  wallet_checks (wallet_at k d) = true → lawful t da dr f →
  apply now k t da dr key f g d = (Ok r, d') → change now k d d'.
Proof.
  intros Hw Hl Hrun. apply apply_Ok in Hrun as [(-> & _)|(invoice & Hb & _)]; [constructor| |done].
  by eapply change_booked.
Qed.
Lemma change_from_locked now k d d' : change now k (locked k d) d' → change now k d d'.
Proof.
  inversion 1 as [|? ? ? ? ? ? ? ? ? Hl [Ha Hr Hk ->]|? ? ? Ht|]; subst.
  - rewrite locked_idemp. constructor.
  - eapply change_booked; [exact Hl|]. rewrite wallet_at_locked in *. rewrite get_entry_locked in Hk.
    constructor; try done. by rewrite booked_locked.
  - subst w. rewrite wallet_at_locked, set_wallet_locked. by constructor.
  - constructor.
Qed.

Lemma require_positive_Ok n d d' :
  require_positive n d = (Ok tt, d') → d' = d ∧ 0 < n ≤ MAX_ENTRY_AMOUNT_MINOR.
Proof.
  unfold require_positive. destruct ((n <=? 0) || (MAX_ENTRY_AMOUNT_MINOR <? n)) eqn:E; [done|].
  intros [= <-]. bools. split; [done|lia].
Qed.

Lemma guarded_apply now k n t da dr key f g d r d' :
  (0 < n ≤ MAX_ENTRY_AMOUNT_MINOR → lawful t da dr f) → wallet_checks (wallet_at k d) = true →
  (require_positive n ≫= λ _, apply now k t da dr key f g) d = (Ok r, d') → change now k d d'.
Proof.
  intros Hl Hw Hrun. apply bind_Ok in Hrun as ([] & d1 & Hp & Hrun).
  apply require_positive_Ok in Hp as [-> Hn]. eapply apply_change; [done|by apply Hl|exact Hrun].
Qed.

Ltac table := unfold lawful, by_the_table, MAX_ENTRY_AMOUNT_MINOR in *; simpl; lia.
Lemma reserve_change now k n key c d r d' :
  wallet_checks (wallet_at k d) = true → reserve now k n key c d = (Ok r, d') → change now k d d'.
Proof. apply guarded_apply. intros. table. Qed.
Lemma release_change now k n key c d r d' :
  wallet_checks (wallet_at k d) = true → release now k n key c d = (Ok r, d') → change now k d d'.
Proof. apply guarded_apply. intros. table. Qed.

Lemma run_change now m d d' :
  wallet_checks (wallet_at (target m) d) = true → run now m d = (Ok tt, d') →
  change now (target m) d d'.
Proof.
  intros Hw Hrun. destruct m; simpl in *; apply bind_Ok in Hrun as (r0 & d1 & Hrun & [= <-]).
  - revert Hrun. apply guarded_apply; [intros; table|done].
  - by eapply reserve_change.
  - by eapply release_change.
  - revert Hrun. apply guarded_apply; [|done]. intros. destruct test; table.
  - revert Hrun. apply guarded_apply; [intros; table|done].
  - unfold adjust in Hrun. destruct ((n =? 0) || (MAX_ENTRY_AMOUNT_MINOR <? Z.abs n)) eqn:E; [done|].
    bools. eapply apply_change; [done| |exact Hrun]. table.
  - unfold reserve_for_campaign in Hrun. destruct (n <=? 0); [injection Hrun as _ <-; constructor|].
    apply bind_Ok in Hrun as (w & d2 & Hl & Hrun). rewrite lock_wallet_run in Hl.
    injection Hl as <- <-. destruct unit_minor as [per|].
    + destruct (per <=? 0); [injection Hrun as _ <-; constructor|]. cbv zeta in Hrun.
      destruct (_ <=? 0); [injection Hrun as _ <-; constructor|].
      apply bind_Ok in Hrun as (i & d2 & [= <- <-] & Hrun).
      apply bind_Ok in Hrun as (r & d2 & Hres & [= _ <-]). apply change_from_locked.
      eapply reserve_change; [|exact Hres]. by rewrite wallet_at_locked.
    + apply bind_Ok in Hrun as (i & d2 & [= <- <-] & Hrun).
      apply bind_Ok in Hrun as (r & d2 & Hres & [= _ <-]). apply change_from_locked.
      eapply reserve_change; [|exact Hres]. by rewrite wallet_at_locked.
  - unfold release_campaign_remainder in Hrun.
    apply bind_Ok in Hrun as (w & d2 & Hl & Hrun). rewrite lock_wallet_run in Hl.
    injection Hl as <- <-. apply bind_Ok in Hrun as (o & d2 & [= <- <-] & Hrun). cbv zeta in Hrun.
    destruct (_ <=? 0); [injection Hrun as _ <-; constructor|].
    apply bind_Ok in Hrun as (i & d2 & [= <- <-] & Hrun).
    apply bind_Ok in Hrun as (r & d2 & Hres & [= _ <-]). apply change_from_locked.
    eapply release_change; [|exact Hres]. by rewrite wallet_at_locked.
  - unfold update_settings in Hrun. apply bind_Ok in Hrun as (w & d2 & Hl & Hrun).
    rewrite lock_wallet_run in Hl. injection Hl as <- <-. cbv zeta in Hrun.
    apply bind_Ok in Hrun as ([] & d2 & Hs & [= _ <-]). unfold save_wallet in Hs.
    match type of Hs with (if ?c then _ else _) _ = _ => destruct c eqn:Hc end; [|done].
    injection Hs as <-. rewrite set_wallet_locked. constructor.
    unfold wallet_checks in Hc. simpl in Hc. bools. lia.
Qed.

(** ** Invariants of a history *)
Definition checked d : Prop := ∀ k, wallet_checks (wallet_at k d) = true.
Lemma books_checked d : books d → checked d.
Proof. intros Hb k. by apply books_wallet. Qed.

Lemma wallet_at_set k w k' d :
  wallet_at k' (set_wallet k w d) = if decide (k = k') then w else wallet_at k' d.
Proof.
  unfold wallet_at. simpl. case_decide as Hk; [subst; by rewrite lookup_insert_eq|].
  by rewrite lookup_insert_ne.
Qed.
Lemma wallet_at_booked k e w als k' d :
  wallet_at k' (booked k e w als d) = if decide (k = k') then w else wallet_at k' d.
Proof. apply wallet_at_set. Qed.

Lemma wallet_after_numbers now t da dr w :
  available_minor (wallet_after now t da dr w) = available_minor w + da
  ∧ reserved_minor (wallet_after now t da dr w) = reserved_minor w + dr
  ∧ low_balance_threshold_minor (wallet_after now t da dr w) = low_balance_threshold_minor w.
Proof. unfold wallet_after, settled. by destruct (alert_fires _ _). Qed.

Lemma booking_checked now k t da dr key f invoice d d' :
  checked d → booking now k t da dr key f invoice d d' → checked d'.
Proof.
  intros Hc [Ha Hr _ ->] k'. rewrite wallet_at_booked. case_decide as Hk; [|apply Hc]. subst k'.
  destruct (wallet_after_numbers now t da dr (wallet_at k d)) as (Ea & Er & Et).
  specialize (Hc k). unfold wallet_checks in *. rewrite Ea, Er, Et.
  apply andb_true_iff in Hc as [_ ->]. by rewrite !(proj2 (Z.leb_le _ _)).
Qed.

Lemma change_checked now k d d' : checked d → change now k d d' → checked d'.
Proof.
  intros Hc. inversion 1 as [|? ? ? ? ? ? ? ? ? Hl Hb|? ? ? Ht|]; subst; [| |intros k'|done].
  - intros k'. rewrite wallet_at_locked. apply Hc.
  - by eapply booking_checked.
  - rewrite wallet_at_set. case_decide as Hk; [|apply Hc]. specialize (Hc k).
    subst w. unfold wallet_checks in *. simpl. apply andb_true_iff in Hc as [-> _].
    by apply Z.leb_le.
Qed.

Lemma change_books now k d d' : books d → change now k d d' → books d'.
Proof.
  intros Hb. inversion 1 as [|? ? ? ? ? ? ? ? ? Hl [Ha Hr Hk ->]|? ? ? Ht|]; subst.
  - by apply books_locked.
  - by apply books_booked.
  - destruct (books_wallet d k Hb) as (Hw & Hav & Hres). destruct Hb as [Hu Hx Hrun Hs].
    constructor; try done. intros k'. apply explained_set_wallet; [|intros; apply Hx]. intros <-.
    subst w. simpl. split_and!; try done. unfold wallet_checks in *. simpl.
    apply andb_true_iff in Hw as [-> _]. by apply Z.leb_le.
  - done.
Qed.

(** The ledger only grows, and no wallet row disappears. *)
Definition grows d d' : Prop :=
  ledger d `prefix_of` ledger d' ∧ ∀ k, is_Some (wallets d !! k) → is_Some (wallets d' !! k).
#[local] Instance grows_preorder : PreOrder grows.
Proof.
  split; [by intros d; split|]. intros d1 d2 d3 [H1 H2] [H3 H4]. split; [by etrans|auto].
Qed.
Lemma change_grows now k d d' : change now k d d' → grows d d'.
Proof.
  assert (∀ w (l : gmap wallet_key CreditWallet) k', is_Some (l !! k') → is_Some (<[k:=w]> l !! k'))
    as Hin by (intros w l k' Hk'; apply lookup_insert_is_Some'; by right).
  inversion 1 as [|? ? ? ? ? ? ? ? ? Hl [Ha Hr Hk ->]|? ? ? Ht|]; subst; (split; [|intros k' Hk']).
  - by rewrite ledger_locked.
  - unfold locked. destruct (wallets d !! k); [done|by apply Hin].
  - by apply prefix_app_r.
  - by apply Hin.
  - done.
  - by apply Hin.
  - done.
  - done.
Qed.

Lemma transaction_change now m d :
  checked d → change now (target m) d (transaction (run now m) d).
Proof.
  intros Hc. rewrite transaction_eq. destruct (run now m d) as [[[]|e] d'] eqn:Hrun.
  - by apply (run_change now m).
  - constructor.
Qed.

Lemma history_invariant (P : database → Prop) ms d :
  (∀ now k d d', checked d → P d → change now k d d' → P d') → checked d → P d → P (history ms d).
Proof.
  intros Hstep. revert d. induction ms as [|[now m] ms IH]; intros d Hc Hp; simpl; [done|].
  pose proof (transaction_change now m d Hc) as Ht. apply IH; [by eapply change_checked|].
  by eapply Hstep.
Qed.

Lemma history_grows ms d : checked d → grows d (history ms d).
Proof.
  intros Hc. apply (history_invariant (grows d)); [|done|reflexivity].
  intros now k d1 d2 _ Hg Hch. etrans; [exact Hg|]. by eapply change_grows.
Qed.

Lemma get_entry_grows k key d d' e :
  grows d d' → get_entry_by_key k key d = Some e → get_entry_by_key k key d' = Some e.
Proof.
  intros [[l Hl] _]. unfold get_entry_by_key, entries_of. rewrite Hl, !List.filter_app.
  by destruct (List.filter _ (List.filter _ (ledger d))).
Qed.

(** C2: the ledger explains every balance.  Whatever movements are committed
    or rolled back, in whatever order: each wallet's available and reserved
    balances are the sums of its ledger entries and never negative, every
    entry records the balances after it, each idempotency key is used once per
    wallet, and each entry moves the two balances as the table of its type
    allows. *)
Theorem ledger_explains_every_balance ms d : books d → books (history ms d).
Proof.
  intros Hb. apply history_invariant; [|by apply books_checked|done].
  intros now k d1 d2 _ Hb1. by apply change_books.
Qed.

(** C13: a retry never charges twice.  Once a movement has been applied, any
    later call with the same key and the same movement, after any other
    history, returns the original entry and changes nothing; a different
    movement under that key is refused. *)
Theorem retry_returns_the_original now k t da dr key f g d r d1 ms now' g' :
  books d → apply now k t da dr key f g d = (Ok r, d1) →
  let d2 := history ms d1 in
  apply now' k t da dr key f g' d2 = (Ok (Written (entry r) (wallet_at k d2) false), d2)
  ∧ ∀ t' da' dr' f', same_movement t' da' dr' f' (entry r) = false →
      (apply now' k t' da' dr' key f' g' d2).1 = Raise (IdempotencyKeyReusedError key).
Proof.
  intros Hb Hrun d2. pose proof (books_checked d Hb) as Hc.
  assert (key ≠ []) as Hkey.
  { intros ->. unfold apply in Hrun. by rewrite bool_decide_true in Hrun. }
  assert (checked d1 ∧ get_entry_by_key k key d1 = Some (entry r) ∧ is_Some (wallets d1 !! k)
    ∧ same_movement t da dr f (entry r) = true) as (Hc1 & He & Hk & Hs).
  { apply apply_Ok in Hrun; [|done]. destruct Hrun as [(-> & _ & He & Hs)|(invoice & Hbk & _ & -> & _)].
    - split_and!; [|by rewrite get_entry_locked| |done].
      + intros k'. rewrite wallet_at_locked. apply Hc.
      + unfold locked. destruct (wallets d !! k) eqn:E; [by rewrite E|]. simpl.
        by rewrite lookup_insert_eq.
    - pose proof (booking_checked _ _ _ _ _ _ _ _ _ _ Hc Hbk) as Hc1. destruct Hbk as [_ _ Hn ->].
      split_and!; [done| |simpl; by rewrite lookup_insert_eq|].
      + unfold get_entry_by_key in *.
        rewrite (entries_of_snoc k _ d : entries_of k (booked _ _ _ _ _) = _).
        rewrite bool_decide_true, List.filter_app by done. simpl.
        rewrite bool_decide_true by done. by destruct (List.filter _ _).
      + unfold same_movement. simpl. by rewrite !bool_decide_true, !Z.eqb_refl. }
  assert (grows d1 d2) as Hg by by apply history_grows.
  pose proof (get_entry_grows _ _ _ _ _ Hg He) as He2. destruct Hg as [_ Hw]. apply Hw in Hk as [w Hk].
  split.
  - rewrite (apply_replay _ _ _ _ _ _ _ _ _ _ Hkey He2), Hs. unfold locked. by rewrite Hk.
  - intros t' da' dr' f' Hs'. by rewrite (apply_replay _ _ _ _ _ _ _ _ _ _ Hkey He2), Hs'.
Qed.

(** What a movement with a new key does.  It is refused with the error its
    situation calls for when it would make the available, then the reserved
    balance negative; otherwise the callback decides, then the rule of one
    debit per recipient; otherwise it is booked.  The database's own checks,
    the backstop, never decide. *)
Theorem apply_outcome now k t da dr key f g d :
  books d → key ≠ [] → get_entry_by_key k key d = None →
  let w := wallet_at k d in
  let booked_entry := entry_for k t da dr key f match g with Some (Ok i) => Some i | _ => None end w in
  (apply now k t da dr key f g d).1 =
    if available_minor w + da <? 0 then
      Raise (if bool_decide (t = ADJUSTMENT) then AdjustmentExceedsAvailableError da (available_minor w)
             else InsufficientCreditsError (- da) (available_minor w))
    else if reserved_minor w + dr <? 0 then
      Raise (CreditReservationExceededError (- dr) (reserved_minor w))
    else match g with
         | Some (Raise e) => Raise e
         | _ => if existsb (same_recipient_debit booked_entry) (ledger d)
                then Raise (IntegrityError false)
                else Ok (Written booked_entry (wallet_after now t da dr w) true)
         end.
Proof.
  intros Hb Hkey Hn w be. pose proof (books_checked d Hb k) as Hw.
  rewrite apply_new by done. unfold refusal. fold w. rewrite !Z.ltb_antisym.
  destruct (Z.leb_spec 0 (available_minor w + da)) as [Ha|]; simpl; [|done].
  destruct (Z.leb_spec 0 (reserved_minor w + dr)) as [Hr|]; simpl; [|done].
  assert (∀ invoice, (record_movement now k t da dr key f invoice w (locked k d)).1 =
    if existsb (same_recipient_debit (entry_for k t da dr key f invoice w)) (ledger d)
    then Raise (IntegrityError false)
    else Ok (Written (entry_for k t da dr key f invoice w) (wallet_after now t da dr w) true)) as Hrec.
  { intros invoice. rewrite record_run by (done || by rewrite get_entry_locked).
    rewrite ledger_locked. by destruct (existsb _ _). }
  by destruct g as [[]|].
Qed.

(** ** Who can reach reserved credits *)
Definition spends_reserved (m : movement) : bool :=
  match m with
  | Reserve _ _ _ _ | Release _ _ _ _ | ReserveForCampaign _ _ _ _ | ReleaseRemainder _ _ _ _ => true
  | Debit _ _ _ _ _ _ _ test => negb test
  | _ => false
  end.

Lemma apply_reserved now k t da key f g d r d' :
  checked d → apply now k t da 0 key f g d = (Ok r, d') →
  reserved_minor (wallet_at k d') = reserved_minor (wallet_at k d).
Proof.
  intros Hc Hrun. apply apply_Ok in Hrun as [(-> & _)|(invoice & [_ _ _ ->] & _)]; [| |done].
  - by rewrite wallet_at_locked.
  - rewrite wallet_at_booked, decide_True by done.
    destruct (wallet_after_numbers now t da 0 (wallet_at k d)) as (_ & -> & _). lia.
Qed.

Lemma change_elsewhere now k k' d d' : change now k d d' → k ≠ k' → wallet_at k' d' = wallet_at k' d.
Proof.
  inversion 1 as [|? ? ? ? ? ? ? ? ? Hl [Ha Hr Hk ->]|? ? ? Ht|]; subst; intros Hne.
  - by rewrite wallet_at_locked.
  - by rewrite wallet_at_booked, decide_False.
  - by rewrite wallet_at_set, decide_False.
  - done.
Qed.

Lemma run_reserved now m d d' :
  checked d → run now m d = (Ok tt, d') → spends_reserved m = false →
  reserved_minor (wallet_at (target m) d') = reserved_minor (wallet_at (target m) d).
Proof.
  intros Hc Hrun Hs. destruct m; simpl in *; try done;
    apply bind_Ok in Hrun as (r0 & d1 & Hrun & [= <-]).
  - apply bind_Ok in Hrun as ([] & d2 & Hp & Hrun). apply require_positive_Ok in Hp as [-> _].
    by eapply apply_reserved.
  - apply negb_false_iff in Hs. subst test. apply bind_Ok in Hrun as ([] & d2 & Hp & Hrun).
    apply require_positive_Ok in Hp as [-> _]. by eapply apply_reserved.
  - apply bind_Ok in Hrun as ([] & d2 & Hp & Hrun). apply require_positive_Ok in Hp as [-> _].
    by eapply apply_reserved.
  - unfold adjust in Hrun. destruct (_ || _); [done|]. eapply apply_reserved; [done|exact Hrun].
  - unfold update_settings in Hrun. rewrite <- (wallet_at_locked k k d).
    apply bind_Ok in Hrun as (w & d2 & Hl & Hrun). rewrite lock_wallet_run in Hl.
    injection Hl as <- <-. cbv zeta in Hrun. apply bind_Ok in Hrun as ([] & d3 & Hsv & [= _ <-]).
    unfold save_wallet in Hsv.
    match type of Hsv with (if ?c then _ else _) _ = _ => destruct c end; [|done].
    injection Hsv as <-. by rewrite wallet_at_set, decide_True, wallet_at_locked.
Qed.

(** Nothing but a campaign's own movements reaches reserved credits.  A
    top-up, refund, adjustment, test send or settings change leaves the
    reserved balance of every wallet as it was, a refused one included, and no
    movement of one wallet changes another. *)
Theorem reserved_is_out_of_reach now m d k :
  books d → spends_reserved m = false ∨ target m ≠ k →
  reserved_minor (wallet_at k (transaction (run now m) d)) = reserved_minor (wallet_at k d).
Proof.
  intros Hb Hm. pose proof (books_checked d Hb) as Hc.
  destruct (decide (target m = k)) as [<-|Hne].
  - destruct Hm as [Hm|]; [|done]. rewrite transaction_eq.
    destruct (run now m d) as [[[]|e] d'] eqn:Hrun; [|done]. by eapply run_reserved.
  - f_equal. by eapply change_elsewhere; [apply transaction_change|].
Qed.

(** ** The low-balance alert *)
Definition alerts_for k d : Z :=
  Z.of_nat (length (List.filter (λ a, bool_decide (alerted a = k)) (outbox d))).
Definition capacity w : Z := if notified w then 0 else 1.

Lemma alerts_for_app k d d' als :
  outbox d' = outbox d ++ als →
  alerts_for k d' = alerts_for k d
    + Z.of_nat (length (List.filter (λ a, bool_decide (alerted a = k)) als)).
Proof. unfold alerts_for. intros ->. rewrite List.filter_app, length_app. lia. Qed.

Lemma alerts_at_most_one k k' w :
  Z.of_nat (length (List.filter (λ a, bool_decide (alerted a = k')) (alerts k w)))
    ≤ if bool_decide (k = k') then 1 else 0.
Proof.
  unfold alerts. destruct (contact_email k.1) as [a|]; [|by case_bool_decide].
  destruct (_ && _); simpl; [|by case_bool_decide]. case_bool_decide; simpl; lia.
Qed.

Lemma moved_below na nr w :
  below_threshold (moved na nr w) = true → notified (moved na nr w) = notified w.
Proof.
  unfold below_threshold, moved, notified. simpl. intros Hlow%Z.ltb_lt.
  rewrite (proj2 (Z.leb_gt _ _)), andb_false_r by done. done.
Qed.
Lemma settled_below t now w : below_threshold (settled now t w) = below_threshold w.
Proof. unfold settled. by destruct (alert_fires t w). Qed.

Lemma change_alerts now k0 k d d' :
  change now k0 d d' → below_threshold (wallet_at k d') = true →
  alerts_for k d' + capacity (wallet_at k d') ≤ alerts_for k d + capacity (wallet_at k d).
Proof.
  inversion 1 as [|? t da dr key f invoice ? ? Hl [Ha Hr Hk ->]|? ? ? Ht|]; subst; intros Hlow.
  - rewrite wallet_at_locked. unfold alerts_for. by rewrite outbox_locked.
  - rewrite wallet_at_booked in *.
    rewrite (alerts_for_app k d _ (alerts_after k0 t da dr (wallet_at k0 d))) by done.
    unfold alerts_after, wallet_after in *. set (w1 := moved _ _ _) in *.
    destruct (decide (k0 = k)) as [->|Hne].
    + rewrite settled_below in Hlow. pose proof (moved_below _ _ _ Hlow) as Hn. fold w1 in Hn.
      unfold settled, capacity. rewrite <- Hn. destruct (alert_fires t w1) eqn:Ef; simpl; [|lia].
      pose proof (alerts_at_most_one k k w1) as Hone. rewrite bool_decide_true in Hone by done.
      unfold alert_fires in Ef. destruct (notified w1); [|lia].
      by rewrite andb_false_r in Ef.
    + destruct (alert_fires t w1); simpl; [|lia]. pose proof (alerts_at_most_one k0 k w1) as Hone.
      rewrite bool_decide_false in Hone by done. lia.
  - rewrite wallet_at_set in *. unfold alerts_for. simpl. case_decide as Hk; [subst k|lia].
    unfold below_threshold in Hlow. simpl in Hlow. apply Z.ltb_lt in Hlow.
    unfold capacity, notified. simpl. subst w. rewrite (proj2 (Z.leb_gt _ _)) by done. lia.
  - done.
Qed.

Fixpoint stays_below k (ms : list (datetime * movement)) d : Prop :=
  match ms with
  | [] => True
  | (now, m) :: ms =>
      let d' := transaction (run now m) d in
      below_threshold (wallet_at k d') = true ∧ stays_below k ms d'
  end.

(** One alert per crossing.  As long as a wallet stays below its
    threshold, all the movements and settings changes committed meanwhile
    queue at most one low-balance message for it, and none if it was already
    marked as notified. *)
Theorem one_alert_per_crossing k ms d :
  books d → stays_below k ms d →
  alerts_for k (history ms d) ≤ alerts_for k d + (if notified (wallet_at k d) then 0 else 1).
Proof.
  intros Hb. pose proof (books_checked d Hb) as Hc. clear Hb.
  change (if notified (wallet_at k d) then 0 else 1) with (capacity (wallet_at k d)).
  enough (stays_below k ms d → alerts_for k (history ms d) + capacity (wallet_at k (history ms d))
    ≤ alerts_for k d + capacity (wallet_at k d)) as Hmain.
  { intros Hs. specialize (Hmain Hs). unfold capacity in *. destruct (notified (wallet_at k (history _ _))); lia. }
  revert d Hc. induction ms as [|[now m] ms IH]; intros d Hc; simpl; [lia|]. intros [Hlow Hrest].
  pose proof (transaction_change now m d Hc) as Ht.
  pose proof (change_alerts _ _ _ _ _ Ht Hlow).
  specialize (IH _ (change_checked _ _ _ _ Hc Ht) Hrest). lia.
Qed.
End service.

Module examples.
Definition nobody (_ : uuid) : option pystr := None.
Definition owner (_ : uuid) : option pystr := Some (u "owner@venue.in").
Definition accepts (_ : wallet_key) : bool := true.
Definition venue : wallet_key := (9%positive, MARKETING).
Definition empty : database := Database ∅ [] [].
Lemma empty_books : books empty.
Proof. constructor; simpl; [constructor|intros k; unfold explained; simpl; by rewrite lookup_empty|done|constructor]. Qed.

(** A top-up of 150 credits, a campaign, one debit, a test send. *)
Definition day : list (datetime * movement) :=
  [(1, Topup venue 15000 (u "master:a") None None None None);
   (2, ReserveForCampaign venue 4 6000 None);
   (3, Debit venue 20 (u "debit:1") (Some 4%positive) (Some 1%positive) (Some 20) (Some 1) false);
   (4, Debit venue 20 (u "test:1") (Some 4%positive) None (Some 20) (Some 1) true);
   (5, Adjust venue (-9000) (u "master:b") None None None)].
Abbreviation play := (history owner accepts true).
Definition evening : database := Eval vm_compute in play day empty.

Lemma ledger_explains_every_balance_witness :
  books evening ∧ wallet_at venue evening = mk_wallet 8980 5980 10000 (Some 2)
  ∧ alerts_for venue evening = 1.
Proof.
  split; [|split; by_vm].
  change evening with (play day empty).
  apply (ledger_explains_every_balance owner accepts true day empty empty_books).
Defined.

Definition topped_up : database := Eval vm_compute in play (take 1 day) empty.
Definition first_entry : CreditLedgerEntry :=
  mk_entry venue TOPUP 15000 0 15000 0 (u "master:a") no_fields None.
Lemma retry_returns_the_original_witness :
  apply owner accepts true 9 venue TOPUP 15000 0 (u "master:a") no_fields None evening
    = (Ok (Written first_entry (mk_wallet 8980 5980 10000 (Some 2)) false), evening).
Proof.
  assert (apply owner accepts true 1 venue TOPUP 15000 0 (u "master:a") no_fields None empty
    = (Ok (Written first_entry (mk_wallet 15000 0 10000 None) true), topped_up)) as Hrun by by_vm.
  change evening with (play (drop 1 day) topped_up).
  apply (retry_returns_the_original owner accepts true _ _ _ _ _ _ _ _ _ _ _ (drop 1 day) 9 None
    empty_books Hrun).
Defined.

Lemma apply_outcome_witness :
  (apply owner accepts true 9 venue ADJUSTMENT (-1) 0 (u "master:c") no_fields None empty).1
  = Raise (AdjustmentExceedsAvailableError (-1) 0).
Proof. by rewrite (apply_outcome owner accepts true 9 venue ADJUSTMENT (-1) 0 (u "master:c")
  no_fields None empty empty_books). Defined.

Lemma evening_books : books evening.
Proof. change evening with (play day empty).
  apply history_invariant; [|apply books_checked; apply empty_books|apply empty_books].
  intros now k d1 d2 _ Hb1. by apply change_books. Qed.
Lemma reserved_is_out_of_reach_witness :
  reserved_minor (wallet_at venue (transaction (run owner accepts true 9
    (Adjust venue (-9000) (u "master:d") None None None)) evening)) = 5980.
Proof.
  rewrite (reserved_is_out_of_reach owner accepts true 9 _ evening venue evening_books);
    [by_vm|by left].
Defined.

Definition reserved_low : database := Eval vm_compute in play (take 2 day) empty.
Lemma one_alert_per_crossing_witness :
  alerts_for venue (play (drop 1 day) topped_up) ≤ 0 + 1.
Proof.
  apply (one_alert_per_crossing owner accepts true venue (drop 1 day) topped_up).
  - change topped_up with (play (take 1 day) empty).
    apply history_invariant; [|apply books_checked; apply empty_books|apply empty_books].
    intros now k d1 d2 _ Hb1. by apply change_books.
  - repeat split; by_vm.
Defined.

(** Without a contact address nothing is queued, yet the wallet is marked as
    notified, so no later movement below the threshold queues anything. *)
Lemma unaddressed_alert_is_spent :
  let d := history nobody accepts true day empty in
  alerts_for venue d = 0 ∧ low_balance_notified_at (wallet_at venue d) = Some 2.
Proof. split; by_vm. Qed.

(** The wallet's reserved balance is not kept per campaign: a debit for a
    campaign that reserved nothing is paid out of another campaign's hold. *)
Lemma debit_can_spend_another_campaigns_hold :
  let d := play [(6, Debit venue 5980 (u "debit:2") (Some 5%positive) (Some 2%positive) None None false)]
             evening in
  campaign_reserved_outstanding venue 5 evening = 0
  ∧ campaign_reserved_outstanding venue 4 d = 5980 ∧ reserved_minor (wallet_at venue d) = 0.
Proof. split_and!; by_vm. Qed.
End examples.
End Credits.
