(* ===== verification/CampaignCredits.v ===== *)
(** The campaign charge flow, [src/backend/app/domains/marketing/credits.py]:
    what a marketing campaign reserves at scheduling, keeps at dispatch, pays
    per accepted message and gives back when it ends, on top of the wallet
    service of [Credits.v]. *)

From S2P Require Import Prelude Session PyStr Credits.
Import Credits.

Module CampaignCredits.

(** The frozen [price_snapshot], and what the flow reads of a campaign. *)
Record price_snapshot := Price { snapshot_unit_price : Z; units_per_recipient_max : Z }.
Record campaign := Campaign {
  campaign_uuid : uuid;
  wallet_key_of : wallet_key;
  snapshot : option price_snapshot;
  own_provider : bool;
  is_active : bool;
}.

(** [per_recipient_minor]. *)
Definition per_recipient_minor (p : option price_snapshot) : Z :=
  match p with Some p => units_per_recipient_max p * snapshot_unit_price p | None => 0 end.
(** [per <= 0 or provider_source == "own"]. *)
Definition free (c : campaign) : bool :=
  (per_recipient_minor (snapshot c) <=? 0) || own_provider c.

(** The [key_base]s of a campaign's releases. *)
Inductive release_reason := Final | Dispatch | Unschedule.
Definition reason_suffix (r : release_reason) : pystr :=
  match r with Final => u ":final" | Dispatch => u ":dispatch" | Unschedule => u ":unschedule" end.
Definition release_base (c : uuid) (r : release_reason) : pystr :=
  u "release:" ++ uuid_str c ++ reason_suffix r.

Section flow.
Variable contact_email : uuid → option pystr.
Variable outbox_accepts : wallet_key → bool.
Variable has_hook : bool.
(** The first 16 hexadecimal digits of an address's SHA-256. *)
Variable digest : pystr → pystr.
Abbreviation op := (M database error).
Implicit Types (d : database) (k : wallet_key) (c : uuid) (now : datetime).

Abbreviation reserve_for := (reserve_for_campaign contact_email outbox_accepts has_hook).
Abbreviation release_remainder := (release_campaign_remainder contact_email outbox_accepts has_hook).
Abbreviation debit := (debit contact_email outbox_accepts has_hook).

(** [reserve_at_schedule]; the re-raised error carries the same numbers. *)
Definition reserve_at_schedule now (c : campaign) (p : price_snapshot) (reachable : Z) : op Z :=
  let needed := reachable * per_recipient_minor (Some p) in
  if needed <=? 0 then mret 0
  else λ d,
    match reserve_for now (wallet_key_of c) (campaign_uuid c) needed None d with
    | (Raise (InsufficientCreditsError _ available), d') =>
        (Raise (InsufficientCreditsError needed available), d')
    | r => r
    end.

(** [adjust_at_dispatch]: recipients allowed, and those credits cut off. *)
Definition adjust_at_dispatch now (c : campaign) (reachable : Z) : op (Z * Z) :=
  let per := per_recipient_minor (snapshot c) in
  if free c then mret (reachable, 0)
  else
    outstanding ← gets (campaign_reserved_outstanding (wallet_key_of c) (campaign_uuid c));
    let covered := outstanding / per in
    if reachable <=? covered then
      _ ← (if 0 <? outstanding - reachable * per then
             release_remainder now (wallet_key_of c) (campaign_uuid c)
               (release_base (campaign_uuid c) Dispatch) (reachable * per)
           else mret 0);
      mret (reachable, 0)
    else
      extra ← reserve_for now (wallet_key_of c) (campaign_uuid c)
                ((reachable - covered) * per) (Some per);
      let allowed := covered + extra / per in
      mret (allowed, reachable - allowed).

(** [debit_recipient]: units are capped at the reserved worst case, and a
    reservation that cannot cover the debit leaves the message uncharged. *)
Definition debit_key (r : uuid) : pystr := u "debit:" ++ uuid_str r.
Definition debit_recipient now (c : campaign) (r : uuid) (us : Z) : op Z :=
  match snapshot c with
  | Some p =>
      if free c then mret 0
      else
        let us' := Z.min us (units_per_recipient_max p) in
        let amount := us' * snapshot_unit_price p in
        λ d,
          match debit now (wallet_key_of c) amount (debit_key r) (Some (campaign_uuid c)) (Some r)
                  (Some (snapshot_unit_price p)) (Some us') false d with
          | (Ok _, d') => (Ok amount, d')
          | (Raise (CreditReservationExceededError _ _), d')
          | (Raise (InsufficientCreditsError _ _), d') => (Ok 0, d')
          | (Raise e, d') => (Raise e, d')
          end
  | None => mret 0
  end.

(** [settle], [release_all]. *)
Definition settle now (c : campaign) (in_flight : Z) : op Z :=
  if is_active c then mret 0
  else if free c then mret 0
  else release_remainder now (wallet_key_of c) (campaign_uuid c)
         (release_base (campaign_uuid c) Final) (in_flight * per_recipient_minor (snapshot c)).
Definition release_all now (c : campaign) : op Z :=
  release_remainder now (wallet_key_of c) (campaign_uuid c)
    (release_base (campaign_uuid c) Unschedule) 0.

(** [charge_test_send]. *)
Definition charge_test_send now (c : campaign) (request_id address : pystr) (price us : Z) : op Z :=
  if price * us <=? 0 then mret 0
  else
    _ ← debit now (wallet_key_of c) (price * us)
          (u "test:" ++ uuid_str (campaign_uuid c) ++ u ":" ++ request_id ++ u ":" ++ digest address)
          (Some (campaign_uuid c)) None (Some price) (Some us) true;
    mret (price * us).

(** ** The requests that move credits *)
Inductive request :=
| Schedule (c : campaign) (p : price_snapshot) (reachable : Z)
| DispatchCampaign (c : campaign) (reachable : Z)
| DebitRecipient (c : campaign) (r : uuid) (us : Z)
| Settle (c : campaign) (in_flight : Z)
| UnscheduleCampaign (c : campaign)
| TestSend (c : campaign) (request_id address : pystr) (price us : Z)
| MasterTopup k (n : Z) (client_key : pystr) (actor : option uuid) (ref note : option pystr)
    (g : option (outcome error uuid))
| MasterRefund k (n : Z) (client_key : pystr) (cid actor : option uuid) (ref note : option pystr)
| MasterAdjust k (n : Z) (client_key : pystr) (actor : option uuid) (ref note : option pystr)
| Threshold k (threshold : Z).

(** [MASTER_IDEMPOTENCY_PREFIX + request.idempotency_key]. *)
Definition master_key (client_key : pystr) : pystr := u "master:" ++ client_key.
Definition handle now (r : request) : op unit :=
  match r with
  | Schedule c p n => ignore (reserve_at_schedule now c p n)
  | DispatchCampaign c n => ignore (adjust_at_dispatch now c n)
  | DebitRecipient c r us => ignore (debit_recipient now c r us)
  | Settle c n => ignore (settle now c n)
  | UnscheduleCampaign c => ignore (release_all now c)
  | TestSend c i a p us => ignore (charge_test_send now c i a p us)
  | MasterTopup k n key actor ref note g =>
      ignore (topup contact_email outbox_accepts has_hook now k n (master_key key) actor ref note g)
  | MasterRefund k n key cid actor ref note =>
      ignore (refund contact_email outbox_accepts has_hook now k n (master_key key) cid actor ref note)
  | MasterAdjust k n key actor ref note =>
      ignore (adjust contact_email outbox_accepts has_hook now k n (master_key key) actor ref note)
  | Threshold k t => ignore (update_settings k t)
  end.
Fixpoint serve (rs : list (datetime * request)) d : database :=
  match rs with [] => d | (now, r) :: rs => serve rs (transaction (handle now r) d) end.

(** Campaign identifiers are UUIDs. *)
Definition well_typed (r : request) : Prop :=
  match r with
  | Schedule c _ _ | DispatchCampaign c _ | Settle c _ | UnscheduleCampaign c =>
      is_uuid (campaign_uuid c)
  | _ => True
  end.

(** ** Keys *)
Lemma uuid_str_inj (c c' : uuid) (s s' : pystr) :
  is_uuid c → is_uuid c' → uuid_str c ++ s = uuid_str c' ++ s' → c = c' ∧ s = s'.
Proof.
  intros Hc Hc' Heq. apply app_inj_1 in Heq as [Hid Hs]; [|by rewrite !uuid_str_length].
  split; [|done]. apply (read_canonical_str) in Hc, Hc'. rewrite Hid in Hc. congruence.
Qed.

Lemma reserve_key_inj (c : uuid) i (c' : uuid) i' :
  is_uuid c → is_uuid c' → reserve_key c i = reserve_key c' i' → c = c' ∧ i = i'.
Proof.
  unfold reserve_key. intros Hc Hc' Heq. apply app_inv_head in Heq.
  apply uuid_str_inj in Heq as [-> Heq]; [|done..]. split; [done|].
  apply app_inv_head in Heq. by apply (inj nat_str).
Qed.

Lemma release_key_inj (c : uuid) r i (c' : uuid) r' i' :
  is_uuid c → is_uuid c' →
  release_key (release_base c r) i = release_key (release_base c' r') i' →
  c = c' ∧ r = r' ∧ i = i'.
Proof.
  intros Hc Hc' Heq.
  assert (∀ (c : uuid) r i, release_key (release_base c r) i
    = u "release:" ++ uuid_str c ++ reason_suffix r ++ release_key [] i) as Hshape.
  { intros c0 r0 [|j]; unfold release_key, release_base; rewrite <- ?app_assoc, ?app_nil_r; done. }
  rewrite !Hshape in Heq. apply app_inv_head in Heq.
  apply uuid_str_inj in Heq as [-> Heq]; [|done..]. split; [done|].
  assert (r = r') as ->.
  { destruct r, r'; try done; cbv [u reason_suffix] in Heq; simpl in Heq; congruence. }
  split; [done|]. apply app_inv_head in Heq. destruct i as [|i], i' as [|i']; try done.
  apply (app_inv_head (u ":")) in Heq. by apply (inj nat_str).
Qed.

(** Every key of the reserve and release series is below the next number of
    its series. *)
Definition numbered d : Prop :=
  ∀ e c, e ∈ ledger d → is_uuid c →
    (∀ i, idempotency_key e = reserve_key c i →
       (i < count_campaign_entries (wallet_of e) c RESERVE [] d)%nat)
    ∧ ∀ r i, idempotency_key e = release_key (release_base c r) i →
       (i < count_campaign_entries (wallet_of e) c RELEASE (release_base c r) d)%nat.

(** A key a request may use: of neither series, or the next of its series. *)
Definition next_key k (t : CreditEntryType) (f : entry_fields) (key : pystr) d : Prop :=
  ∀ c, is_uuid c →
    (∀ i, key = reserve_key c i → t = RESERVE ∧ campaign_id f = Some c
       ∧ i = count_campaign_entries k c RESERVE [] d)
    ∧ ∀ r i, key = release_key (release_base c r) i → t = RELEASE ∧ campaign_id f = Some c
       ∧ i = count_campaign_entries k c RELEASE (release_base c r) d.

Lemma count_snoc k (c : uuid) t prefix e d :
  count_campaign_entries k c t prefix (append_entry e d) =
  (count_campaign_entries k c t prefix d +
   if bool_decide (wallet_of e = k) && bool_decide (campaign_id (details e) = Some c)
      && bool_decide (entry_type e = t) && startswith prefix (idempotency_key e)
   then 1 else 0)%nat.
Proof.
  unfold count_campaign_entries. rewrite entries_of_snoc.
  destruct (bool_decide (wallet_of e = k)); simpl; [|by rewrite app_nil_r, Nat.add_0_r].
  rewrite List.filter_app, length_app. simpl. by destruct (_ && _).
Qed.

Lemma release_key_prefix base i : startswith base (release_key base i) = true.
Proof. apply startswith_spec. destruct i; [by exists []; rewrite app_nil_r|]. by eexists. Qed.

Lemma numbered_booked now k t da dr key f invoice d d' :
  numbered d → next_key k t f key d → booking contact_email outbox_accepts has_hook
    now k t da dr key f invoice d d' → numbered d'.
Proof.
  intros Hn Hk [_ _ _ Hd'] e c He Hc.
  set (e0 := entry_for k t da dr key f invoice (wallet_at k d)) in *.
  assert (∀ k' c t p, count_campaign_entries k' c t p d'
    = count_campaign_entries k' c t p (append_entry e0 d)) as Hcount by (intros; by rewrite Hd').
  assert (e ∈ ledger d ∨ e = e0) as [He0 | ->].
  { rewrite Hd' in He. simpl in He. by rewrite elem_of_app, list_elem_of_singleton in He. }
  - destruct (Hn e c He0 Hc) as [H1 H2]. split.
    + intros i Hi. specialize (H1 i Hi). rewrite Hcount, count_snoc. lia.
    + intros r i Hi. specialize (H2 r i Hi). rewrite Hcount, count_snoc. lia.
  - destruct (Hk c Hc) as [H1 H2]. split.
    + intros i Hi. destruct (H1 i Hi) as (-> & Hf & ->). rewrite Hcount, count_snoc. simpl.
      rewrite !bool_decide_true by done. simpl. lia.
    + intros r i Hi. destruct (H2 r i Hi) as (-> & Hf & ->). rewrite Hcount, count_snoc. simpl in *.
      rewrite Hi, release_key_prefix, !bool_decide_true by done. simpl. lia.
Qed.

Lemma next_reserve_key k (c : uuid) f d :
  is_uuid c → campaign_id f = Some c →
  next_key k RESERVE f (reserve_key c (count_campaign_entries k c RESERVE [] d)) d.
Proof.
  intros Hc Hf c' Hc'. split.
  - intros i Heq. apply reserve_key_inj in Heq as [-> <-]; done.
  - intros r [|i] Heq; done.
Qed.
Lemma next_release_key k (c : uuid) r f d :
  is_uuid c → campaign_id f = Some c →
  next_key k RELEASE f (release_key (release_base c r)
    (count_campaign_entries k c RELEASE (release_base c r) d)) d.
Proof.
  intros Hc Hf c' Hc'. split.
  - intros i Heq. by destruct (count_campaign_entries _ _ _ _ _).
  - intros r' i Heq. apply release_key_inj in Heq as (-> & <- & <-); done.
Qed.
(** A key whose first three letters are of neither series. *)
Lemma other_key k t f key d :
  startswith (u "res") key = false → startswith (u "rel") key = false → next_key k t f key d.
Proof.
  intros H1 H2 c Hc. split.
  - intros i ->. done.
  - intros r i ->. by destruct i.
Qed.

(** The next key of a series is free. *)
Lemma reserve_key_free k (c : uuid) d :
  is_uuid c → numbered d →
  get_entry_by_key k (reserve_key c (count_campaign_entries k c RESERVE [] d)) d = None.
Proof.
  intros Hc Hn. match goal with |- ?g = None => destruct g as [e|] eqn:He; [|done] end.
  apply get_entry_Some in He as (He & Hk & Hkey). destruct (Hn e c He Hc) as [H1 _].
  apply H1 in Hkey. rewrite Hk in Hkey. lia.
Qed.
Lemma release_key_free k (c : uuid) r d :
  is_uuid c → numbered d →
  get_entry_by_key k (release_key (release_base c r)
    (count_campaign_entries k c RELEASE (release_base c r) d)) d = None.
Proof.
  intros Hc Hn. match goal with |- ?g = None => destruct g as [e|] eqn:He; [|done] end.
  apply get_entry_Some in He as (He & Hk & Hkey). destruct (Hn e c He Hc) as [_ H2].
  apply H2 in Hkey. rewrite Hk in Hkey. lia.
Qed.

(** ** Good databases: consistent books, numbered keys *)
Definition good d : Prop := books d ∧ numbered d.

Lemma count_ledger k c t p d d' :
  ledger d' = ledger d → count_campaign_entries k c t p d' = count_campaign_entries k c t p d.
Proof. unfold count_campaign_entries, entries_of. by intros ->. Qed.
Lemma numbered_ledger d d' : ledger d' = ledger d → numbered d → numbered d'.
Proof.
  intros Hl Hn e c He Hc. rewrite Hl in He. destruct (Hn e c He Hc) as [H1 H2]. split; intros.
  - rewrite (count_ledger _ _ _ _ d) by done. by apply H1.
  - rewrite (count_ledger _ _ _ _ d) by done. by apply H2.
Qed.
Lemma next_key_ledger k t f key d d' :
  ledger d' = ledger d → next_key k t f key d → next_key k t f key d'.
Proof.
  intros Hl Hn c Hc. destruct (Hn c Hc) as [H1 H2]. split; intros;
    rewrite (count_ledger _ _ _ _ d) by done; eauto.
Qed.

Lemma good_checked k d : good d → wallet_checks (wallet_at k d) = true.
Proof. intros [Hb _]. by apply books_wallet. Qed.
Lemma good_locked k d : good d → good (locked k d).
Proof.
  intros [Hb Hn]. split; [by apply books_locked|]. eapply numbered_ledger; [apply ledger_locked|done].
Qed.

Abbreviation apply := (apply contact_email outbox_accepts has_hook).
Lemma apply_good now k t da dr key f g d r d' :
  good d → lawful t da dr f → next_key k t f key d →
  apply now k t da dr key f g d = (Ok r, d') → good d'.
Proof.
  intros Hg Hl Hk Hrun. apply apply_Ok in Hrun; [|by apply good_checked].
  destruct Hrun as [(-> & _)|(invoice & Hb & _)]; [by apply good_locked|]. destruct Hg as [Hbk Hn].
  split; [|by eapply numbered_booked]. eapply change_books; [done|]. by eapply change_booked.
Qed.

(** A movement under a free key, in numbers. *)
Lemma outstanding_booked now k t da dr key f invoice d d' c :
  booking contact_email outbox_accepts has_hook now k t da dr key f invoice d d' →
  campaign_reserved_outstanding k c d' = campaign_reserved_outstanding k c d
    + (if bool_decide (campaign_id f = Some c) then dr else 0)
  ∧ available_minor (wallet_at k d') = available_minor (wallet_at k d) + da.
Proof.
  intros [_ _ _ Hd']. split.
  - unfold campaign_reserved_outstanding.
    assert (entries_of k d' = entries_of k (append_entry (entry_for k t da dr key f invoice
      (wallet_at k d)) d)) as -> by (by rewrite Hd').
    rewrite entries_of_snoc. simpl. rewrite bool_decide_true, List.filter_app, sum_app by done. simpl.
    case_bool_decide; simpl; lia.
  - rewrite Hd', wallet_at_booked, decide_True by done. by apply wallet_after_numbers.
Qed.

Lemma outstanding_locked k k' c d :
  campaign_reserved_outstanding k' c (locked k d) = campaign_reserved_outstanding k' c d.
Proof. unfold campaign_reserved_outstanding, entries_of. by rewrite ledger_locked. Qed.

Abbreviation reserve := (reserve contact_email outbox_accepts has_hook).
Abbreviation release := (release contact_email outbox_accepts has_hook).

Lemma reserve_Ok now k n c d r d' :
  good d → is_uuid c →
  reserve now k n (reserve_key c (count_campaign_entries k c RESERVE [] d)) c d = (Ok r, d') →
  good d' ∧ campaign_reserved_outstanding k c d' = campaign_reserved_outstanding k c d + n
  ∧ available_minor (wallet_at k d') = available_minor (wallet_at k d) - n.
Proof.
  intros Hg Hc Hrun. apply bind_Ok in Hrun as ([] & d1 & Hp & Hrun).
  apply require_positive_Ok in Hp as [-> Hn]. split.
  - refine (apply_good _ _ _ _ _ _ _ _ _ _ _ Hg _ _ Hrun); [|by apply next_reserve_key].
    unfold lawful, by_the_table, MAX_ENTRY_AMOUNT_MINOR in *. simpl. lia.
  - apply apply_Ok in Hrun; [|by apply good_checked].
    destruct Hrun as [(_ & _ & Hk & _)|(invoice & Hb & _)].
    { rewrite reserve_key_free in Hk; [done|done|apply Hg]. }
    apply (outstanding_booked _ _ _ _ _ _ _ _ _ _ c) in Hb as [Ho Ha].
    rewrite bool_decide_true in Ho by done. lia.
Qed.

Lemma release_Ok now k n c reason d r d' :
  good d → is_uuid c →
  release now k n (release_key (release_base c reason)
    (count_campaign_entries k c RELEASE (release_base c reason) d)) c d = (Ok r, d') →
  good d' ∧ campaign_reserved_outstanding k c d' = campaign_reserved_outstanding k c d - n
  ∧ available_minor (wallet_at k d') = available_minor (wallet_at k d) + n
  ∧ is_Some (wallets d' !! k).
Proof.
  intros Hg Hc Hrun. apply bind_Ok in Hrun as ([] & d1 & Hp & Hrun).
  apply require_positive_Ok in Hp as [-> Hn]. split.
  - refine (apply_good _ _ _ _ _ _ _ _ _ _ _ Hg _ _ Hrun); [|by apply next_release_key].
    unfold lawful, by_the_table, MAX_ENTRY_AMOUNT_MINOR in *. simpl. lia.
  - apply apply_Ok in Hrun; [|by apply good_checked].
    destruct Hrun as [(_ & _ & Hk & _)|(invoice & Hb & _)].
    { rewrite release_key_free in Hk; [done|done|apply Hg]. }
    pose proof Hb as [_ _ _ Hd'].
    apply (outstanding_booked _ _ _ _ _ _ _ _ _ _ c) in Hb as [Ho Ha].
    rewrite bool_decide_true in Ho by done. split_and!; [lia..|].
    rewrite Hd'. simpl. by rewrite lookup_insert_eq.
Qed.

(** What a reservation asks for, given the available balance. *)
Definition wanted (n available : Z) (unit_minor : option Z) : Z :=
  match unit_minor with
  | None => n
  | Some per => if per <=? 0 then 0 else Z.max 0 (Z.min (n / per) (available / per) * per)
  end.

Lemma reserve_for_Ok now k c n unit_minor d m d' :
  good d → is_uuid c → 0 < n → reserve_for now k c n unit_minor d = (Ok m, d') →
  good d' ∧ m = wanted n (available_minor (wallet_at k d)) unit_minor
  ∧ campaign_reserved_outstanding k c d' = campaign_reserved_outstanding k c d + m
  ∧ available_minor (wallet_at k d') = available_minor (wallet_at k d) - m.
Proof.
  intros Hg Hc Hn Hrun. unfold reserve_for_campaign in Hrun. rewrite (proj2 (Z.leb_gt _ _) Hn) in Hrun.
  apply bind_Ok in Hrun as (w & d1 & Hl & Hrun). rewrite lock_wallet_run in Hl. injection Hl as <- <-.
  pose proof (good_locked k d Hg) as Hg'. rewrite <- (outstanding_locked k k c d).
  rewrite <- (wallet_at_locked k k d) in *. set (d0 := locked k d) in *.
  assert (good d0 ∧ 0 = 0 ∧ campaign_reserved_outstanding k c d0 = campaign_reserved_outstanding k c d0 + 0
    ∧ available_minor (wallet_at k d0) = available_minor (wallet_at k d0) - 0) as Hnone
    by (split_and!; [done|lia..]).
  unfold wanted. destruct unit_minor as [per|].
  - destruct (per <=? 0); [by injection Hrun as <- <-|]. cbv zeta in Hrun.
    set (m' := Z.min _ _ * per) in *. destruct (Z.leb_spec m' 0).
    { injection Hrun as <- <-. rewrite Z.max_l by done. exact Hnone. }
    apply bind_Ok in Hrun as (i & d2 & [= <- <-] & Hrun).
    apply bind_Ok in Hrun as (r & d2 & Hres & [= <- <-]). rewrite Z.max_r by lia.
    apply reserve_Ok in Hres as (? & ? & ?); auto.
  - apply bind_Ok in Hrun as (i & d2 & [= <- <-] & Hrun).
    apply bind_Ok in Hrun as (r & d2 & Hres & [= <- <-]).
    apply reserve_Ok in Hres as (? & ? & ?); auto.
Qed.

Lemma release_remainder_Ok now k c reason hold d m d' :
  good d → is_uuid c → release_remainder now k c (release_base c reason) hold d = (Ok m, d') →
  good d' ∧ m = Z.max 0 (campaign_reserved_outstanding k c d - Z.max 0 hold)
  ∧ campaign_reserved_outstanding k c d' = campaign_reserved_outstanding k c d - m
  ∧ available_minor (wallet_at k d') = available_minor (wallet_at k d) + m
  ∧ is_Some (wallets d' !! k).
Proof.
  intros Hg Hc Hrun. unfold release_campaign_remainder in Hrun.
  apply bind_Ok in Hrun as (w & d1 & Hl & Hrun). rewrite lock_wallet_run in Hl. injection Hl as <- <-.
  apply bind_Ok in Hrun as (o & d1 & [= <- <-] & Hrun). cbv zeta in Hrun.
  rewrite <- (outstanding_locked k k c d), <- (wallet_at_locked k k d).
  assert (is_Some (wallets (locked k d) !! k)) as Hk.
  { unfold locked. destruct (wallets d !! k) eqn:E; [by rewrite E|]. simpl. by rewrite lookup_insert_eq. }
  apply (good_locked k) in Hg. set (d0 := locked k d) in *.
  set (n := campaign_reserved_outstanding k c d0 - Z.max 0 hold) in *.
  destruct (Z.leb_spec n 0).
  - injection Hrun as <- <-. rewrite Z.max_l by done. split_and!; [done|done|lia..|done].
  - apply bind_Ok in Hrun as (i & d2 & [= <- <-] & Hrun).
    apply bind_Ok in Hrun as (r & d2 & Hrel & [= <- <-]). rewrite Z.max_r by lia.
    apply release_Ok in Hrel as (? & ? & ? & ?); auto.
Qed.

Lemma apply_Raise now k t da dr key f g d e d' :
  good d → apply now k t da dr key f g d = (Raise e, d') → d' = d ∨ d' = locked k d.
Proof.
  intros Hg Hrun. pose proof (good_checked k d Hg) as Hw. destruct (decide (key = [])) as [->|Hkey].
  { unfold Credits.apply in Hrun. rewrite (bool_decide_true ([] = [])) in Hrun by done.
    injection Hrun. auto. }
  destruct (get_entry_by_key k key d) as [e0|] eqn:He.
  { rewrite (apply_replay _ _ _ _ _ _ _ _ _ _ _ _ e0) in Hrun by done. injection Hrun. auto. }
  rewrite apply_new in Hrun by done.
  destruct (Z.leb_spec 0 (available_minor (wallet_at k d) + da)); simpl in Hrun; [|injection Hrun; auto].
  destruct (Z.leb_spec 0 (reserved_minor (wallet_at k d) + dr)); simpl in Hrun; [|injection Hrun; auto].
  assert (∀ invoice, record_movement contact_email outbox_accepts has_hook now k t da dr key f invoice
    (wallet_at k d) (locked k d) = (Raise e, d') → d' = locked k d) as Hrec.
  { intros invoice. rewrite record_run by (done || by rewrite get_entry_locked).
    destruct (existsb _ _); [by intros [= _ ->]|done]. }
  right. destruct g as [[]|]; [eauto| |eauto]. by injection Hrun.
Qed.

Lemma movement_good now k n t da dr key f g d r d' :
  (0 < n ≤ MAX_ENTRY_AMOUNT_MINOR → lawful t da dr f) →
  startswith (u "res") key = false → startswith (u "rel") key = false → good d →
  (require_positive n ≫= λ _, apply now k t da dr key f g) d = (r, d') → good d'.
Proof.
  intros Hl H1 H2 Hg. mstep. destruct (require_positive n d) as [[[]|e] d1] eqn:Hp.
  - apply require_positive_Ok in Hp as [-> Hn]. destruct r as [r|e]; intros Hrun.
    + eapply apply_good; [exact Hg|by apply Hl| |exact Hrun]. by apply other_key.
    + apply apply_Raise in Hrun as [->| ->]; [done|by apply good_locked|done].
  - unfold require_positive, raise_if in Hp. destruct (_ || _); [|done].
    injection Hp as _ <-. by intros [= _ <-].
Qed.

Ltac table := unfold lawful, by_the_table, MAX_ENTRY_AMOUNT_MINOR in *; simpl; lia.
Lemma debit_recipient_good now (c : campaign) r us d m d' :
  good d → debit_recipient now c r us d = (Ok m, d') → good d'.
Proof.
  intros Hg. unfold debit_recipient. destruct (snapshot c) as [p|]; [|by intros [= _ <-]].
  destruct (free c); [by intros [= _ <-]|]. cbv zeta.
  destruct (debit _ _ _ _ _ _ _ _ _ d) as [o d1] eqn:Hrun.
  assert (good d1) as Hg1.
  { eapply (movement_good now (wallet_key_of c)); [| | |exact Hg|exact Hrun]; [intros; table|done|done]. }
  destruct o as [w|[]]; intros [= ? ?]; by subst.
Qed.

Lemma update_settings_ledger k threshold d w d' :
  update_settings k threshold d = (Ok w, d') → ledger d' = ledger d.
Proof.
  intros Hrun. apply bind_Ok in Hrun as (w0 & d1 & Hl & Hrun). rewrite lock_wallet_run in Hl.
  injection Hl as <- <-. cbv zeta in Hrun. apply bind_Ok in Hrun as ([] & d2 & Hs & [= _ <-]).
  unfold save_wallet in Hs. destruct (wallet_checks _); [|done]. injection Hs as <-. apply ledger_locked.
Qed.

Lemma handle_good now r d d' : good d → well_typed r → handle now r d = (Ok tt, d') → good d'.
Proof.
  intros Hg Hr Hrun. destruct r; simpl in *; apply bind_Ok in Hrun as (r0 & d1 & Hrun & [= <-]).
  - unfold reserve_at_schedule in Hrun. cbv zeta in Hrun.
    destruct (Z.leb_spec (reachable * per_recipient_minor (Some p)) 0); [by injection Hrun as _ <-|].
    destruct (reserve_for _ _ _ _ _ d) as [[m|e] d2] eqn:Hres; [|by destruct e].
    injection Hrun as _ <-. by apply reserve_for_Ok in Hres as [? _].
  - unfold adjust_at_dispatch in Hrun. destruct (free c); [by injection Hrun as _ <-|].
    apply bind_Ok in Hrun as (o & d2 & [= <- <-] & Hrun). cbv zeta in Hrun.
    destruct (Z.leb_spec reachable (campaign_reserved_outstanding (wallet_key_of c) (campaign_uuid c) d
      / per_recipient_minor (snapshot c))) as [|Hlt].
    + apply bind_Ok in Hrun as (m & d2 & Hrel & [= _ <-]).
      destruct (0 <? _); [|by injection Hrel as _ <-].
      by apply (release_remainder_Ok now _ _ Dispatch) in Hrel as [? _].
    + apply bind_Ok in Hrun as (m & d2 & Hres & [= _ <-]).
      destruct (Z.ltb_spec 0 ((reachable - campaign_reserved_outstanding (wallet_key_of c)
        (campaign_uuid c) d / per_recipient_minor (snapshot c)) * per_recipient_minor (snapshot c))) as [Hn|Hn].
      * by apply reserve_for_Ok in Hres as [? _].
      * unfold reserve_for_campaign in Hres. rewrite (proj2 (Z.leb_le _ 0) Hn) in Hres.
        by injection Hres as _ <-.
  - by eapply debit_recipient_good.
  - unfold settle in Hrun. destruct (is_active c); [by injection Hrun as _ <-|].
    destruct (free c); [by injection Hrun as _ <-|].
    by apply (release_remainder_Ok now _ _ Final) in Hrun as [? _].
  - by apply (release_remainder_Ok now _ _ Unschedule) in Hrun as [? _].
  - unfold charge_test_send in Hrun. destruct (_ <=? 0); [by injection Hrun as _ <-|].
    apply bind_Ok in Hrun as (w & d2 & Hd & [= _ <-]).
    eapply (movement_good now (wallet_key_of c)); [| | |exact Hg|exact Hd]; [intros; table|done|done].
  - eapply (movement_good now k); [| | |exact Hg|exact Hrun]; [intros; table|done|done].
  - eapply (movement_good now k); [| | |exact Hg|exact Hrun]; [intros; table|done|done].
  - unfold adjust in Hrun. destruct ((n =? 0) || (MAX_ENTRY_AMOUNT_MINOR <? Z.abs n)) eqn:E; [done|].
    bools. refine (apply_good _ _ _ _ _ _ _ _ _ _ _ Hg _ _ Hrun); [table|by apply other_key].
  - destruct Hg as [Hb Hn]. split; [|eapply numbered_ledger; [by eapply update_settings_ledger|done]].
    eapply change_books; [done|].
    apply (run_change contact_email outbox_accepts has_hook now (UpdateSettings k threshold));
      [by apply books_wallet|]. simpl. unfold ignore. apply bind_Ok. eauto.
Qed.

Lemma serve_good rs d : good d → Forall (λ r, well_typed r.2) rs → good (serve rs d).
Proof.
  revert d. induction rs as [|[now r] rs IH]; intros d Hg Hrs; simpl; [done|].
  apply Forall_cons in Hrs as [Hr Hrs]. apply IH; [|done]. rewrite transaction_eq.
  destruct (handle now r d) as [[[]|e] d'] eqn:Hrun; [|done]. by eapply handle_good.
Qed.

Definition empty : database := Database ∅ [] [].
Lemma empty_good : good empty.
Proof.
  split; [|by intros e c ?%not_elem_of_nil]. constructor; simpl; [constructor| |done|constructor].
  intros k. unfold explained. simpl. by rewrite lookup_empty.
Qed.

(** Dispatch fits the reservation to the audience.  After any history of
    requests, when [adjust_at_dispatch] returns for a campaign that pays, the
    recipients allowed and those cut off add up to the audience, the campaign
    holds the full price of every recipient allowed, nobody is cut off while
    the wallet could pay for one more, and when nobody is cut off and nothing
    had to be added the hold is exactly the price of the audience. *)
Theorem dispatch_covers_every_allowed_recipient rs now (c : campaign) reachable allowed capped d' :
  let d := serve rs empty in
  let k := wallet_key_of c in
  let per := per_recipient_minor (snapshot c) in
  Forall (λ r, well_typed r.2) rs → is_uuid (campaign_uuid c) → free c = false → 0 ≤ reachable →
  0 ≤ campaign_reserved_outstanding k (campaign_uuid c) d →
  adjust_at_dispatch now c reachable d = (Ok (allowed, capped), d') →
  allowed + capped = reachable ∧ 0 ≤ allowed ∧ 0 ≤ capped
  ∧ allowed * per ≤ campaign_reserved_outstanding k (campaign_uuid c) d'
  ∧ (0 < capped → available_minor (wallet_at k d') < per)
  ∧ (reachable * per ≤ campaign_reserved_outstanding k (campaign_uuid c) d →
       campaign_reserved_outstanding k (campaign_uuid c) d' = reachable * per).
Proof.
  intros d k per Hrs Hc Hfree Hreach Hout Hrun.
  assert (good d) as Hg by (apply serve_good; [apply empty_good|done]). clearbody d.
  assert (0 < per) as Hper.
  { unfold free in Hfree. apply orb_false_iff in Hfree as [Hp _]. by apply Z.leb_gt in Hp. }
  unfold adjust_at_dispatch in Hrun. rewrite Hfree in Hrun.
  apply bind_Ok in Hrun as (o & d2 & [= <- <-] & Hrun). cbv zeta in Hrun. fold per k in Hrun.
  set (o := campaign_reserved_outstanding k (campaign_uuid c) d) in *.
  pose proof (Z.mul_div_le o per Hper) as Hdiv. pose proof (Z.mul_succ_div_gt o per Hper) as Hdiv'.
  pose proof (Z.div_pos o per Hout Hper) as Hcov.
  destruct (Z.leb_spec reachable (o / per)) as [Hle|Hlt].
  - apply bind_Ok in Hrun as (m & d2 & Hrel & [= <- <- <-]).
    assert (reachable * per ≤ o) by nia. destruct (Z.ltb_spec 0 (o - reachable * per)).
    + apply (release_remainder_Ok _ _ _ Dispatch) in Hrel as (_ & -> & Ho & _); [|done..]. fold o in Ho.
      split_and!; lia.
    + injection Hrel as <- <-. fold o. split_and!; lia.
  - apply bind_Ok in Hrun as (m & d2 & Hres & [= <- <- <-]).
    apply reserve_for_Ok in Hres as (Hg' & Hm & Ho & Ha); [|done|done|nia]. fold o in Ho.
    unfold wanted in Hm. rewrite (proj2 (Z.leb_gt per 0) Hper) in Hm.
    rewrite Z.div_mul in Hm by lia.
    pose proof (books_wallet d k ltac:(apply Hg)) as [Hw _]. unfold wallet_checks in Hw.
    apply andb_true_iff in Hw as [Hw _]. apply andb_true_iff in Hw as [Hw _]. apply Z.leb_le in Hw.
    set (a := available_minor (wallet_at k d)) in *.
    pose proof (Z.div_pos a per Hw Hper) as Hav.
    pose proof (Z.mul_div_le a per Hper). pose proof (Z.mul_succ_div_gt a per Hper).
    set (units := Z.min (reachable - o / per) (a / per)) in *.
    assert (0 ≤ units) by lia. rewrite Z.max_r in Hm by nia.
    rewrite Hm, Z.div_mul by lia. split_and!; nia.
Qed.

(** Settling gives back everything but the messages still in flight.
    After any history of requests, when [settle] returns for an ended campaign
    that pays, what it returned went from the campaign's hold to the available
    balance, the hold that remains is what it was or the price of the messages
    in flight, whichever is less, and settling again releases nothing. *)
Theorem settle_keeps_only_in_flight rs now (c : campaign) in_flight m d' :
  let d := serve rs empty in
  let k := wallet_key_of c in
  let hold := in_flight * per_recipient_minor (snapshot c) in
  Forall (λ r, well_typed r.2) rs → is_uuid (campaign_uuid c) → free c = false →
  is_active c = false → 0 ≤ in_flight →
  settle now c in_flight d = (Ok m, d') →
  0 ≤ m
  ∧ campaign_reserved_outstanding k (campaign_uuid c) d'
    = Z.min (campaign_reserved_outstanding k (campaign_uuid c) d) hold
  ∧ available_minor (wallet_at k d') = available_minor (wallet_at k d) + m
  ∧ m = campaign_reserved_outstanding k (campaign_uuid c) d
        - campaign_reserved_outstanding k (campaign_uuid c) d'
  ∧ ∀ now', settle now' c in_flight d' = (Ok 0, d').
Proof.
  intros d k hold Hrs Hc Hfree Hact Hfl Hrun.
  assert (good d) as Hg by (apply serve_good; [apply empty_good|done]). clearbody d.
  assert (0 ≤ hold) as Hhold.
  { unfold free in Hfree. apply orb_false_iff in Hfree as [Hp _]. apply Z.leb_gt in Hp. unfold hold. nia. }
  unfold settle in *. rewrite Hact, Hfree in *.
  apply (release_remainder_Ok _ _ _ Final) in Hrun as (Hg' & Hm & Ho & Ha & Hk); [|done..]. fold k hold in Hm, Ho, Ha, Hk. fold k hold.
  rewrite (Z.max_r 0 hold) in Hm by done. split_and!; [lia|lia|done|lia|]. intros now'.
  unfold release_campaign_remainder. mstep. rewrite lock_wallet_run.
  assert (locked k d' = d') as -> by (unfold locked; by destruct Hk as [w ->]).
  rewrite (Z.max_r 0 hold) by done. by rewrite (proj2 (Z.leb_le _ 0)) by lia.
Qed.
End flow.

Module examples.
Definition nobody (_ : uuid) : option pystr := None.
Definition accepts (_ : wallet_key) : bool := true.
Definition same (s : pystr) : pystr := s.
Definition venue : wallet_key := (9%positive, MARKETING).
(** Two segments at 25 paise. *)
Definition price : price_snapshot := Price 25 2.
Definition diwali : campaign := Campaign 4 venue (Some price) false true.
Definition ended : campaign := Campaign 4 venue (Some price) false false.
(** 10 credits; 12 recipients reserved; one message accepted. *)
Definition plan : list (datetime * request) :=
  [(1, MasterTopup venue 1000 (u "a") None None None None);
   (2, Schedule diwali price 12);
   (3, DebitRecipient diwali 70 1)].
Lemma plan_typed : Forall (λ r, well_typed r.2) plan.
Proof. repeat (apply Forall_cons; split; [done|]). by apply Forall_nil. Qed.

Abbreviation play := (serve nobody accepts false same).
Definition dispatched := Eval vm_compute in
  adjust_at_dispatch nobody accepts false 5 diwali 30 (play plan empty).

Lemma dispatch_covers_every_allowed_recipient_witness :
  19 * 50 ≤ campaign_reserved_outstanding venue 4 dispatched.2
  ∧ available_minor (wallet_at venue dispatched.2) < 50.
Proof.
  pose proof (dispatch_covers_every_allowed_recipient nobody accepts false same plan 5 diwali 30
    19 11 dispatched.2) as Hthm.
  assert (adjust_at_dispatch nobody accepts false 5 diwali 30 (play plan empty)
    = (Ok (19, 11), dispatched.2)) as Hrun by by_vm.
  destruct (Hthm plan_typed eq_refl eq_refl ltac:(lia) ltac:(by vm_compute) Hrun) as (_ & _ & _ & Hc & Ha & _).
  split; [exact Hc|apply Ha; lia].
Defined.

Definition settled_run := Eval vm_compute in
  settle nobody accepts false 6 ended 3 (play plan empty).
Lemma settle_keeps_only_in_flight_witness :
  campaign_reserved_outstanding venue 4 settled_run.2 = 150
  ∧ ∀ now', settle nobody accepts false now' ended 3 settled_run.2 = (Ok 0, settled_run.2).
Proof.
  assert (settle nobody accepts false 6 ended 3 (play plan empty) = (Ok 425, settled_run.2))
    as Hrun by by_vm.
  destruct (settle_keeps_only_in_flight nobody accepts false same plan 6 ended 3 425 settled_run.2
    plan_typed eq_refl eq_refl eq_refl ltac:(lia) Hrun) as (_ & Ho & _ & _ & Hagain).
  split; [etrans; [exact Ho|by_vm]|exact Hagain].
Defined.
End examples.
End CampaignCredits.
