(* ===== verification/Auth.v ===== *)
(** Accounts, log-in and tokens.

    Models [src/backend/app/domains/auth/{password,jwt,mfa,models,repository,
    security,service,dependencies}.py] and the forced log-out of
    [src/backend/app/domains/user/service.py].  Argon2, PyJWT, Fernet, TOTP
    and SHA-256 are the interface [Crypto]; the e-mail queue is the outbox of
    the database.  Columns that only describe a device or a person are
    dropped. *)

From S2P Require Import Prelude Table Session PyStr Redis Otp.

Module Auth.

(** ** [password.py] *)
Inductive weakness :=
| TooShort | TooLong | NoUppercase | NoLowercase | NoDigit | NoSpecial | TooCommon.

Definition COMMON_PASSWORDS : list pystr :=
  map u ["password"; "123456"; "12345678"; "qwerty"; "abc123"; "password123"; "admin";
         "letmein"; "welcome"; "monkey"; "dragon"; "master"; "princess"; "qazwsx";
         "123123"; "654321"; "superman"; "iloveyou"; "trustno1"]%string.
Definition special_char (c : N) : bool := contains c (u "!@#$%^&*-_=+").
Definition MIN_LENGTH : Z := 12.
Definition MAX_LENGTH : Z := 128.

Definition in_range (lo hi c : N) : bool := ((lo <=? c) && (c <=? hi))%N.

(** The first check that fails, in the code's order; [None] is a return. *)
Definition validate_strength `{PyUnicode} (password : pystr) : option weakness :=
  let len := Z.of_nat (length password) in
  if len <? MIN_LENGTH then Some TooShort
  else if MAX_LENGTH <? len then Some TooLong
  else if negb (existsb (in_range 65 90) password) then Some NoUppercase
  else if negb (existsb (in_range 97 122) password) then Some NoLowercase
  else if negb (existsb is_decimal password) then Some NoDigit
  else if negb (existsb special_char password) then Some NoSpecial
  else if bool_decide (lower password ∈ COMMON_PASSWORDS) then Some TooCommon
  else None.

(** What [argon2.PasswordHasher.verify] reports. *)
Inductive verdict := Matches | Mismatch | Malformed.

(** The claims of a token; [iat] and [exp] are whole seconds. *)
Record claims := Claims {
  sub : pystr; claim_email : pystr; jti : pystr; token_type : pystr; iat : Z; exp : Z }.
Inductive decoded := Decoded (c : claims) | Expired | Invalid.

(** Third-party cryptography.  [argon_hash] takes the salt it draws. *)
Class Crypto := {
  argon_hash : N → pystr → option pystr;
  argon_verify : pystr → pystr → verdict;
  jwt_encode : claims → pystr;
  jwt_decode : datetime → pystr → decoded;
  fernet_encrypt : N → pystr → pystr;
  fernet_decrypt : pystr → option pystr;
  totp_verify : pystr → pystr → datetime → bool;
  sha256 : pystr → pystr;
  verify_hash salt p h : argon_hash salt p = Some h → argon_verify h p = Matches;
  decode_encode now c : iat c * 1000000 ≤ now →
    jwt_decode now (jwt_encode c) = if exp c * 1000000 <=? now then Expired else Decoded c;
  decrypt_encrypt n s : fernet_decrypt (fernet_encrypt n s) = Some s;
}.

(** ** [models.py] *)
Record User := mk_user {
  user_id : uuid;
  email : pystr;
  username : pystr;
  password_hash : pystr;
  user_active : bool;
  is_verified : bool;
  email_verified_at : option datetime;
  tokens_invalidated_at : option datetime;
  last_login_at : option datetime;
  failed_login_attempts : Z;
  locked_until : option datetime;
  password_changed_at : option datetime;
  must_change_password : bool;
  mfa_enabled : bool;
}.

Record AuthSession := mk_session {
  session_id : uuid;
  session_user : uuid;
  refresh_token_jti : pystr;
  expires_at : datetime;
  last_activity_at : datetime;
  session_active : bool;
}.

Record PasswordHistory := mk_history { history_user : uuid; history_hash : pystr }.

Inductive failure_reason :=
| user_not_found | account_inactive | invalid_password | email_not_verified
| mfa_code_required | invalid_mfa_code | password_change_required.

Record LoginAttempt := mk_attempt {
  attempt_user : option uuid;
  attempt_email : pystr;
  attempt_ip : pystr;
  success : bool;
  reason : option failure_reason;
}.

Record UserMfaCredential := mk_credential {
  credential_user : uuid;
  secret_encrypted : pystr;
  enrolled_at : option datetime;
  last_verified_at : option datetime;
}.

Record UserMfaRecoveryCode := mk_code {
  code_id : uuid;
  code_user : uuid;
  code_hash : pystr;
  used_at : option datetime;
}.

#[export] Instance user_has_id : HasId User := user_id.
#[export] Instance session_has_id : HasId AuthSession := session_id.
#[export] Instance code_has_id : HasId UserMfaRecoveryCode := code_id.
#[export] Instance failure_reason_eq_dec : EqDecision failure_reason.
Proof. solve_decision. Defined.

(** [Session.is_expired]. *)
Definition is_expired (now : datetime) (s : AuthSession) : bool := expires_at s <? now.

Inductive NotificationEventType := EMAIL_VERIFICATION | PASSWORD_RESET.
(** A queued e-mail: the body is the rendering of a link that holds the token. *)
Record Notification := mk_notification {
  event_type : NotificationEventType; recipient : pystr; link_token : pystr }.

Record database := Database {
  users : list User;
  sessions : list AuthSession;
  password_history : list PasswordHistory;
  login_attempts : list LoginAttempt;
  mfa_credentials : list UserMfaCredential;
  mfa_recovery_codes : list UserMfaRecoveryCode;
  outbox : list Notification;
}.

Inductive error :=
| UserNotFoundError
| InvalidCredentialsError
| EmailAlreadyExistsError
| UsernameAlreadyExistsError
| EmailNotVerifiedError
| PasswordChangeRequiredError
| PasswordReuseError
| PasswordTooWeakError (w : weakness)
| InvalidTokenError
| MfaAlreadyEnabledError
| MfaNotEnrolledError
| MfaNotEnabledError
| MfaRequiredError
| InvalidMfaCodeError
| AccountLockedError (until : datetime)
| RateLimitError (retry_after_seconds : Z)
(** Not an [AuthServiceError]: these surface as a 500. *)
| PasswordStrengthError (w : weakness)
| PasswordError
| JWTError
| MfaSecretDecryptionError
| ValueError
| DuplicateRecordError
| IntegrityError
| ConflictError
| InvalidNotificationRecipientError
| RedisError.

(** The settings the services read, and whether [JWTManager.encode] refuses
    to sign ([uses_public_jwt_secret_key and strict_production_secrets]). *)
Record config := Config {
  access_token_expire_minutes : Z;
  refresh_token_expire_days : Z;
  max_login_attempts : Z;
  account_lockout_minutes : Z;
  password_history_limit : Z;
  mfa_recovery_code_count : Z;
  signing_forbidden : bool;
}.

(** The only part of a device that decides anything. *)
Record DeviceInfo := mk_device { ip_address : pystr }.

Record TokenPair := mk_pair {
  access_token : pystr; refresh_token : pystr; expires_in : Z; refresh_expires_in : Z }.

(** ** Writes of one row *)
Definition with_failures (n : Z) (l : option datetime) (x : User) : User :=
  mk_user (user_id x) (email x) (username x) (password_hash x) (user_active x)
    (is_verified x) (email_verified_at x) (tokens_invalidated_at x) (last_login_at x)
    n l (password_changed_at x) (must_change_password x) (mfa_enabled x).
Definition with_last_login (now : datetime) (x : User) : User :=
  mk_user (user_id x) (email x) (username x) (password_hash x) (user_active x)
    (is_verified x) (email_verified_at x) (tokens_invalidated_at x) (Some now)
    (failed_login_attempts x) (locked_until x) (password_changed_at x)
    (must_change_password x) (mfa_enabled x).
Definition with_password (h : pystr) (now : datetime) (x : User) : User :=
  mk_user (user_id x) (email x) (username x) h (user_active x)
    (is_verified x) (email_verified_at x) (tokens_invalidated_at x) (last_login_at x)
    (failed_login_attempts x) (locked_until x) (Some now) false (mfa_enabled x).
Definition with_verified (now : datetime) (x : User) : User :=
  mk_user (user_id x) (email x) (username x) (password_hash x) (user_active x)
    true (Some now) (tokens_invalidated_at x) (last_login_at x)
    (failed_login_attempts x) (locked_until x) (password_changed_at x)
    (must_change_password x) (mfa_enabled x).
Definition with_tokens_invalidated (now : datetime) (x : User) : User :=
  mk_user (user_id x) (email x) (username x) (password_hash x) (user_active x)
    (is_verified x) (email_verified_at x) (Some now) (last_login_at x)
    (failed_login_attempts x) (locked_until x) (password_changed_at x)
    (must_change_password x) (mfa_enabled x).
Definition with_mfa (b : bool) (x : User) : User :=
  mk_user (user_id x) (email x) (username x) (password_hash x) (user_active x)
    (is_verified x) (email_verified_at x) (tokens_invalidated_at x) (last_login_at x)
    (failed_login_attempts x) (locked_until x) (password_changed_at x)
    (must_change_password x) b.
Definition deactivated (s : AuthSession) : AuthSession :=
  mk_session (session_id s) (session_user s) (refresh_token_jti s) (expires_at s)
    (last_activity_at s) false.
Definition with_jti (new : pystr) (now : datetime) (s : AuthSession) : AuthSession :=
  mk_session (session_id s) (session_user s) new (expires_at s) now (session_active s).
Definition with_secret (s : pystr) (c : UserMfaCredential) : UserMfaCredential :=
  mk_credential (credential_user c) s None (last_verified_at c).
Definition with_verification (now : datetime) (c : UserMfaCredential) : UserMfaCredential :=
  mk_credential (credential_user c) (secret_encrypted c) (enrolled_at c) (Some now).
Definition with_enrolment (now : datetime) (c : UserMfaCredential) : UserMfaCredential :=
  mk_credential (credential_user c) (secret_encrypted c)
    (match enrolled_at c with Some t => Some t | None => Some now end) (Some now).
Definition with_used (now : datetime) (c : UserMfaRecoveryCode) : UserMfaRecoveryCode :=
  mk_code (code_id c) (code_user c) (code_hash c) (Some now).

Definition set_users f (d : database) := Database (f (users d)) (sessions d)
  (password_history d) (login_attempts d) (mfa_credentials d) (mfa_recovery_codes d) (outbox d).
Definition set_sessions f (d : database) := Database (users d) (f (sessions d))
  (password_history d) (login_attempts d) (mfa_credentials d) (mfa_recovery_codes d) (outbox d).
Definition set_history f (d : database) := Database (users d) (sessions d)
  (f (password_history d)) (login_attempts d) (mfa_credentials d) (mfa_recovery_codes d) (outbox d).
Definition set_attempts f (d : database) := Database (users d) (sessions d)
  (password_history d) (f (login_attempts d)) (mfa_credentials d) (mfa_recovery_codes d) (outbox d).
Definition set_credentials f (d : database) := Database (users d) (sessions d)
  (password_history d) (login_attempts d) (f (mfa_credentials d)) (mfa_recovery_codes d) (outbox d).
Definition set_codes f (d : database) := Database (users d) (sessions d)
  (password_history d) (login_attempts d) (mfa_credentials d) (f (mfa_recovery_codes d)) (outbox d).
Definition set_outbox f (d : database) := Database (users d) (sessions d)
  (password_history d) (login_attempts d) (mfa_credentials d) (mfa_recovery_codes d) (f (outbox d)).

(** ** The services, on the request's session and Redis *)
Section service.
Context {R T : Type} {PU : PyUnicode} {PI : PyUuid} {CR : Crypto}
  {RR : Redis R} {RD : RedisDelete R} {RS : RedisStrings T}.
Variable cfg : config.

(** Counters and token keys live under disjoint prefixes of one Redis. *)
Abbreviation state := (world (txn database) (conn (R * T))).
Implicit Types (w : state).

Definition on_rows (f : database → database) : M state error unit := on_live (modify f).
Definition read {A} (f : database → A) : M state error A := on_live (gets f).
Definition on_counters {A} (f : R → R * A) : M state error A :=
  on_ext (redis_call RedisError (λ s : R * T, let '(r, a) := f s.1 in ((r, s.2), a))).
Definition on_tokens {A} (f : T → T * A) : M state error A :=
  on_ext (redis_call RedisError (λ s : R * T, let '(t, a) := f s.2 in ((s.1, t), a))).

(** [_flush_or_raise] when a unique constraint is hit. *)
Definition unique_or_raise (clash : bool) : M state error unit :=
  if clash then _ ← rollback; raise DuplicateRecordError else mret tt.

(** [PasswordManager.verify] and [AuthService._verify_password_safe]: a
    malformed hash matches nothing. *)
Definition verify_password_safe (password hash : pystr) : bool :=
  match argon_verify hash password with Matches => true | Mismatch | Malformed => false end.

(** [PasswordManager.hash]: strength first, then Argon2. *)
Definition password_manager_hash (salt : N) (password : pystr) (weak : weakness → error)
    : M state error pystr :=
  match validate_strength password with
  | Some e => raise (weak e)
  | None => of_option (argon_hash salt password) PasswordError
  end.

(** *** [security.py] *)
Definition login_key (email ip : pystr) : pystr := u "auth:login_attempts:" ++ email ++ u ":" ++ ip.

Definition check_rate_limit (now : datetime) (email ip : pystr) : M state error unit :=
  let key := login_key email ip in
  attempts ← on_counters (λ r, (r, fst <$> r_entry now key r));
  match attempts with
  | None => mret tt
  | Some n =>
      if max_login_attempts cfg <=? n then
        ttl ← on_counters (λ r, (r, r_ttl now key r));
        raise (RateLimitError (if 0 <? ttl then ttl else account_lockout_minutes cfg * 60))
      else mret tt
  end.

Definition security_record_login_attempt (now : datetime) (email ip : pystr) (ok : bool)
    : M state error unit :=
  let key := login_key email ip in
  if ok then on_counters (λ r, (r_delete now key r, tt))
  else
    current ← on_counters (λ r, r_incr now key r);
    if current =? 1 then
      on_counters (λ r, (r_expire now key (account_lockout_minutes cfg * 60) r, tt))
    else mret tt.

Definition account_locked (now : datetime) (l : option datetime) : option datetime :=
  match l with Some t => if now <? t then Some t else None | None => None end.
Definition check_account_lock (now : datetime) (l : option datetime) : M state error unit :=
  match account_locked now l with Some t => raise (AccountLockedError t) | None => mret tt end.

(** *** [repository.py] *)
Definition get_user_by_email (e : pystr) (d : database) : option User :=
  select_one (λ x, bool_decide (email x = lower e)) (users d).
Definition get_user_by_username (n : pystr) (d : database) : option User :=
  select_one (λ x, bool_decide (username x = lower n)) (users d).
Definition get_user_by_id (k : uuid) (d : database) : option User := by_id k (users d).

Definition create_user (x : User) : M state error User :=
  let x := mk_user (user_id x) (lower (email x)) (lower (username x)) (password_hash x)
    (user_active x) (is_verified x) (email_verified_at x) (tokens_invalidated_at x)
    (last_login_at x) (failed_login_attempts x) (locked_until x) (password_changed_at x)
    (must_change_password x) (mfa_enabled x) in
  clash ← read (λ d, existsb (λ y, bool_decide (email y = email x)
                                   || bool_decide (username y = username x)) (users d));
  _ ← unique_or_raise clash;
  _ ← on_rows (set_users (insert_row x));
  mret x.
(** [update_user]: the row, and the instance the caller holds. *)
Definition update_user (x : User) (f : User → User) : M state error User :=
  _ ← on_rows (set_users (set_row f (user_id x)));
  mret (f x).

(** The unique constraint of [refresh_token_jti]. *)
Definition jti_taken (j : pystr) (d : database) : bool :=
  existsb (λ y, bool_decide (refresh_token_jti y = j)) (sessions d).
Definition create_refresh_token (s : AuthSession) : M state error AuthSession :=
  clash ← read (jti_taken (refresh_token_jti s));
  _ ← unique_or_raise clash;
  _ ← on_rows (set_sessions (insert_row s));
  mret s.
Definition get_session_by_refresh_token (j : pystr) (d : database) : option AuthSession :=
  select_one (λ s, bool_decide (refresh_token_jti s = j)) (sessions d).
(** The [UPDATE ... WHERE] of [rotate_refresh_token] and its rowcount. *)
Definition rotatable (k : uuid) (expected : pystr) (s : AuthSession) : bool :=
  bool_decide (session_id s = k)
  && (bool_decide (refresh_token_jti s = expected) && session_active s).
Definition rotate_refresh_token (now : datetime) (k : uuid) (expected new : pystr)
    (d : database) : bool * database :=
  (0 <? rowcount (rotatable k expected) (sessions d),
   set_sessions (update (rotatable k expected) (with_jti new now)) d).
Definition revoke_refresh_token (j : pystr) : M state error unit :=
  row ← read (get_session_by_refresh_token j);
  match row with
  | Some s => on_rows (set_sessions (set_row deactivated (session_id s)))
  | None => mret tt
  end.
Definition revoke_session (k : uuid) : M state error unit :=
  row ← read (λ d, by_id k (sessions d));
  match row with
  | Some s => on_rows (set_sessions (set_row deactivated (session_id s)))
  | None => mret tt
  end.
Definition active_session_of (k : uuid) (s : AuthSession) : bool :=
  bool_decide (session_user s = k) && session_active s.
Definition revoke_all_sessions (k : uuid) : M state error Z :=
  active ← read (λ d, select (active_session_of k) (sessions d));
  _ ← on_rows (set_sessions (λ ss,
        fold_left (λ ss s, set_row deactivated (session_id s) ss) active ss));
  mret (Z.of_nat (length active)).

Definition add_password_history (k : uuid) (h : pystr) : M state error unit :=
  on_rows (set_history (insert_row (mk_history k h))).
(** [ORDER BY created_at DESC LIMIT n]; rows are inserted in time order. *)
Definition get_recent_password_hashes (k : uuid) (limit : Z) (d : database) : list pystr :=
  map history_hash (take (Z.to_nat limit)
    (rev (select (λ x, bool_decide (history_user x = k)) (password_history d)))).

(** Inserts the attempt and commits the session. *)
Definition record_login_attempt (a : LoginAttempt) : M state error unit :=
  _ ← on_rows (set_attempts (insert_row (mk_attempt (attempt_user a)
        (lower (attempt_email a)) (attempt_ip a) (success a) (reason a))));
  commit.

Definition get_mfa_credential (k : uuid) (d : database) : option UserMfaCredential :=
  select_one (λ c, bool_decide (credential_user c = k)) (mfa_credentials d).
Definition on_credential (k : uuid) (f : UserMfaCredential → UserMfaCredential) : M state error unit :=
  on_rows (set_credentials (update (λ c, bool_decide (credential_user c = k)) f)).
Definition delete_mfa_credential (k : uuid) : M state error unit :=
  on_rows (set_credentials (List.filter (λ c, negb (bool_decide (credential_user c = k))))).
Definition get_active_recovery_code (k : uuid) (h : pystr) (d : database) : option UserMfaRecoveryCode :=
  select_one (λ c, bool_decide (code_user c = k) && bool_decide (code_hash c = h)
                   && negb (bool_decide (is_Some (used_at c)))) (mfa_recovery_codes d).
Definition mark_recovery_code_used (now : datetime) (c : UserMfaRecoveryCode) : M state error unit :=
  on_rows (set_codes (set_row (with_used now) (code_id c))).
Definition MAX_BULK_CREATE_SIZE : Z := 1000.
Definition replace_recovery_codes (k : uuid) (hashes : list (uuid * pystr)) : M state error unit :=
  _ ← on_rows (set_codes (List.filter (λ c, negb (bool_decide (code_user c = k)))));
  _ ← raise_if (MAX_BULK_CREATE_SIZE <? Z.of_nat (length hashes)) ConflictError;
  others ← read mfa_recovery_codes;
  _ ← unique_or_raise (negb (bool_decide (NoDup (map snd hashes)))
        || existsb (λ c, bool_decide (code_hash c ∈ map snd hashes)) others);
  on_rows (set_codes (insert_rows (map (λ p, mk_code p.1 k p.2 None) hashes))).

(** *** [mfa.py] *)
Definition RECOVERY_CODE_ALPHABET : pystr := u "23456789ABCDEFGHJKLMNPQRSTUVWXYZ".
Definition RECOVERY_CODE_LENGTH : nat := 10.
(** [draw i j] is the [j]-th random choice for the [i]-th code. *)
Definition recovery_code (draw : nat → nat) : pystr :=
  let raw := map (λ j, nth (draw j mod 32) RECOVERY_CODE_ALPHABET 0%N)
                 (seq 0 RECOVERY_CODE_LENGTH) in
  take 5 raw ++ u "-" ++ drop 5 raw.
Definition generate_recovery_codes (draw : nat → nat → nat) (count : Z) : list pystr :=
  map (λ i, recovery_code (draw i)) (seq 0 (Z.to_nat count)).
Definition hash_recovery_code (code : pystr) : pystr := sha256 code.

(** *** [jwt.py] *)
Definition timestamp (now : datetime) : Z := now / 1000000.
Definition days (n : Z) : Z := minutes (n * 1440).
Definition encode (c : claims) : M state error pystr :=
  _ ← raise_if (signing_forbidden cfg) JWTError;
  mret (jwt_encode c).
Definition create_access_token (now : datetime) (user email : pystr) (id : uuid)
    (expires_in_minutes : option Z) : M state error pystr :=
  let m := match expires_in_minutes with Some m => m | None => access_token_expire_minutes cfg end in
  encode (Claims user email (uuid_str id) (u "access") (timestamp now) (timestamp (now + minutes m))).
Definition create_refresh_jwt (now : datetime) (user email : pystr) (id : uuid) : M state error pystr :=
  encode (Claims user email (uuid_str id) (u "refresh") (timestamp now)
            (timestamp (now + days (refresh_token_expire_days cfg)))).
(** [create_token_pair]; the refresh token's [jti] is [uuid_str refresh_id]. *)
Definition create_token_pair (now : datetime) (user email : pystr) (access_id refresh_id : uuid)
    : M state error TokenPair :=
  a ← create_access_token now user email access_id None;
  r ← create_refresh_jwt now user email refresh_id;
  mret (mk_pair a r (access_token_expire_minutes cfg * 60) (refresh_token_expire_days cfg * 86400)).
Definition validate_token (now : datetime) (token expected_type : pystr) : option claims :=
  match jwt_decode now token with
  | Decoded c => if bool_decide (token_type c = expected_type) then Some c else None
  | Expired | Invalid => None
  end.

(** *** [service.py]: tokens kept in Redis *)
Inductive token_kind := VerificationToken | ResetToken.
Definition token_key (k : token_kind) (token : pystr) : pystr :=
  match k with
  | VerificationToken => u "auth:email_verification:"
  | ResetToken => u "auth:password_reset:"
  end ++ sha256 token.

Definition issue_cache_token (now : datetime) (k : token_kind) (user : uuid) (ttl_seconds : Z)
    (fresh : uuid) : M state error pystr :=
  let token := uuid_str fresh in
  _ ← on_tokens (λ t, (s_set now (token_key k token) (uuid_str user) ttl_seconds t, tt));
  mret token.
Definition parse_payload (raw : option pystr) : M state error (option uuid) :=
  match raw with
  | Some ((_ :: _) as s) => id ← of_option (parse_uuid s) ValueError; mret (Some id)
  | _ => mret None
  end.
Definition peek_cache_token (now : datetime) (k : token_kind) (token : pystr)
    : M state error (option uuid) :=
  raw ← on_tokens (λ t, (t, s_get now (token_key k token) t));
  parse_payload raw.
(** [GET], then [DELETE]; the number of deleted keys is not looked at. *)
Definition consume_cache_token (now : datetime) (k : token_kind) (token : pystr)
    : M state error (option uuid) :=
  raw ← on_tokens (λ t, (t, s_get now (token_key k token) t));
  match raw with
  | Some (_ :: _) =>
      _ ← on_tokens (λ t, (s_delete now (token_key k token) t, tt));
      parse_payload raw
  | _ => mret None
  end.

(** [NotificationService.enqueue] for an e-mail. *)
Definition enqueue (n : Notification) : M state error unit :=
  _ ← raise_if (negb (Otp.validate_identifier (recipient n) Otp.EMAIL)) InvalidNotificationRecipientError;
  on_rows (set_outbox (insert_row n)).

(** *** Internal helpers *)
Definition record_attempt (now : datetime) (user : option uuid) (email : pystr) (dev : DeviceInfo)
    (ok : bool) (why : option failure_reason) : M state error unit :=
  _ ← record_login_attempt (mk_attempt user email (ip_address dev) ok why);
  if ok then mret tt else security_record_login_attempt now email (ip_address dev) false.

Definition register_failed_attempt (now : datetime) (x : User) : M state error User :=
  let failed := failed_login_attempts x + 1 in
  let l := if max_login_attempts cfg <=? failed
           then Some (now + minutes (account_lockout_minutes cfg)) else locked_until x in
  update_user x (with_failures failed l).

Definition reused (k : uuid) (new_password : pystr) (d : database) : bool :=
  (0 <? password_history_limit cfg)
  && existsb (verify_password_safe new_password)
       (get_recent_password_hashes k (password_history_limit cfg) d).
Definition reject_recent_passwords (k : uuid) (new_password : pystr) : M state error unit :=
  r ← read (reused k new_password);
  raise_if r PasswordReuseError.

Definition verify_mfa_or_recovery_code (now : datetime) (k : uuid) (code : pystr)
    : M state error bool :=
  credential ← read (get_mfa_credential k);
  by_totp ← match credential with
    | None => mret false
    | Some c =>
        secret ← of_option (fernet_decrypt (secret_encrypted c)) MfaSecretDecryptionError;
        if totp_verify secret code now then
          _ ← on_credential k (with_verification now); mret true
        else mret false
    end;
  if by_totp : bool then mret true
  else
    row ← read (get_active_recovery_code k (hash_recovery_code code));
    match row with
    | Some c => _ ← mark_recovery_code_used now c; mret true
    | None => mret false
    end.

(** *** Registration *)
Definition register (now : datetime) (id fresh : uuid) (salt : N)
    (raw_email raw_username password : pystr) : M state error (User * pystr) :=
  by_email ← read (get_user_by_email raw_email);
  _ ← raise_if (bool_decide (is_Some by_email)) EmailAlreadyExistsError;
  by_name ← read (get_user_by_username raw_username);
  _ ← raise_if (bool_decide (is_Some by_name)) UsernameAlreadyExistsError;
  h ← password_manager_hash salt password PasswordStrengthError;
  user ← create_user (mk_user id raw_email raw_username h true false None None None 0 None
                        None false false);
  _ ← add_password_history (user_id user) h;
  token ← issue_cache_token now VerificationToken (user_id user) 86400 fresh;
  _ ← enqueue (mk_notification EMAIL_VERIFICATION (email user) token);
  mret (user, token).

(** *** Log-in

    The random choices of a successful call. *)
Record draws := mk_draws {
  access_id : uuid; refresh_id : uuid; new_session_id : uuid; hash_salt : N }.

(** [if not x] on an optional string: [None] and the empty string. *)
Definition given (x : option pystr) : option pystr :=
  match x with Some ((_ :: _) as s) => Some s | _ => None end.

(** A refused attempt: recorded, then raised. *)
Definition refuse {A} (now : datetime) (user : option uuid) (email : pystr) (dev : DeviceInfo)
    (why : failure_reason) (e : error) : M state error A :=
  _ ← record_attempt now user email dev false (Some why);
  raise e.

Definition login_second_factor (now : datetime) (email : pystr) (dev : DeviceInfo)
    (mfa_code : option pystr) (x : User) : M state error unit :=
  if mfa_enabled x then
    match given mfa_code with
    | None => refuse now (Some (user_id x)) email dev mfa_code_required MfaRequiredError
    | Some code =>
        good ← verify_mfa_or_recovery_code now (user_id x) code;
        if good : bool then mret tt
        else refuse now (Some (user_id x)) email dev invalid_mfa_code InvalidMfaCodeError
    end
  else mret tt.

(** [password_hash], [password_changed_at] and the history of a new password. *)
Definition set_password (now : datetime) (h : pystr) (x : User) : M state error User :=
  y ← update_user x (with_password h now);
  _ ← add_password_history (user_id y) h;
  mret y.

Definition login_replace_password (now : datetime) (salt : N) (email : pystr) (dev : DeviceInfo)
    (new_password : option pystr) (x : User) : M state error User :=
  if must_change_password x then
    match given new_password with
    | None => refuse now (Some (user_id x)) email dev password_change_required
                PasswordChangeRequiredError
    | Some new =>
        _ ← raise_if (verify_password_safe new (password_hash x)) PasswordReuseError;
        _ ← reject_recent_passwords (user_id x) new;
        h ← password_manager_hash salt new PasswordTooWeakError;
        set_password now h x
    end
  else mret x.

Definition open_session (now : datetime) (dr : draws) (addr : pystr) (dev : DeviceInfo) (x : User)
    : M state error (User * TokenPair * uuid) :=
  y ← update_user x (λ x, with_last_login now (with_failures 0 None x));
  tokens ← create_token_pair now (uuid_str (user_id y)) (email y) (access_id dr) (refresh_id dr);
  row ← create_refresh_token (mk_session (new_session_id dr) (user_id y) (uuid_str (refresh_id dr))
          (now + days (refresh_token_expire_days cfg)) now true);
  _ ← security_record_login_attempt now addr (ip_address dev) true;
  _ ← record_attempt now (Some (user_id y)) addr dev true None;
  mret (y, tokens, session_id row).

(** The part of [login] that runs once the account is known. *)
Definition login_account (now : datetime) (dr : draws) (addr password : pystr) (dev : DeviceInfo)
    (mfa_code new_password : option pystr) (x : User) : M state error (User * TokenPair * uuid) :=
  _ ← (if user_active x then mret tt
       else refuse now (Some (user_id x)) addr dev account_inactive InvalidCredentialsError);
  _ ← check_account_lock now (locked_until x);
  _ ← (if verify_password_safe password (password_hash x) then mret tt
       else _ ← register_failed_attempt now x;
            refuse now (Some (user_id x)) addr dev invalid_password InvalidCredentialsError);
  _ ← (if is_verified x then mret tt
       else refuse now (Some (user_id x)) addr dev email_not_verified EmailNotVerifiedError);
  _ ← login_second_factor now addr dev mfa_code x;
  y ← login_replace_password now (hash_salt dr) addr dev new_password x;
  open_session now dr addr dev y.

Definition login (now : datetime) (dr : draws) (raw_email password : pystr) (dev : DeviceInfo)
    (mfa_code new_password : option pystr) : M state error (User * TokenPair * uuid) :=
  let addr := lower (strip raw_email) in
  _ ← check_rate_limit now addr (ip_address dev);
  user ← read (get_user_by_email addr);
  match user with
  | None => refuse now None addr dev user_not_found InvalidCredentialsError
  | Some x => login_account now dr addr password dev mfa_code new_password x
  end.

(** *** Refreshing, logging out *)

(** What [refresh] establishes by reading: the session, the user and the
    claims it will rotate. *)
Definition refresh_read (now : datetime) (token : pystr) (d : database)
    : outcome error (AuthSession * User * claims) :=
  match validate_token now token (u "refresh") with
  | None => Raise InvalidTokenError
  | Some c =>
      match get_session_by_refresh_token (jti c) d with
      | None => Raise InvalidTokenError
      | Some s =>
          if negb (session_active s) || is_expired now s then Raise InvalidTokenError
          else match parse_uuid (sub c) with
               | None => Raise ValueError
               | Some k =>
                   match get_user_by_id k d with
                   | None => Raise InvalidCredentialsError
                   | Some x => if user_active x then Ok (s, x, c) else Raise InvalidCredentialsError
                   end
               end
      end
  end.
Definition lift {A} (o : outcome error A) : M state error A :=
  match o with Ok a => mret a | Raise e => raise e end.

Definition refresh (now : datetime) (dr : draws) (token : pystr) : M state error TokenPair :=
  o ← read (refresh_read now token);
  found ← lift o;
  let '(s, x, c) := found in
  tokens ← create_token_pair now (uuid_str (user_id x)) (email x) (access_id dr) (refresh_id dr);
  rotated ← read (λ d, (rotate_refresh_token now (session_id s) (jti c) (uuid_str (refresh_id dr)) d).1);
  clash ← read (jti_taken (uuid_str (refresh_id dr)));
  _ ← raise_if (rotated && clash) IntegrityError;
  _ ← on_rows (λ d, (rotate_refresh_token now (session_id s) (jti c) (uuid_str (refresh_id dr)) d).2);
  _ ← raise_if (negb rotated) InvalidTokenError;
  mret tokens.

Definition logout (k : uuid) : M state error unit := revoke_session k.
Definition logout_all (k : uuid) : M state error Z := revoke_all_sessions k.

(** *** Passwords *)
Definition change_password (now : datetime) (salt : N) (k : uuid) (current new : pystr)
    : M state error unit :=
  user ← read (get_user_by_id k);
  x ← of_option user UserNotFoundError;
  _ ← raise_if (negb (verify_password_safe current (password_hash x))) InvalidCredentialsError;
  _ ← raise_if (verify_password_safe new (password_hash x)) PasswordReuseError;
  _ ← reject_recent_passwords k new;
  h ← password_manager_hash salt new PasswordTooWeakError;
  _ ← set_password now h x;
  _ ← revoke_all_sessions k;
  mret tt.

Definition initiate_password_reset (now : datetime) (fresh : uuid) (addr : pystr) : M state error unit :=
  user ← read (get_user_by_email addr);
  match user with
  | Some x =>
      token ← issue_cache_token now ResetToken (user_id x) 3600 fresh;
      enqueue (mk_notification PASSWORD_RESET (email x) token)
  | None => mret tt
  end.

(** [reset_password] up to, and from, the consumption of the token. *)
Definition reset_check (now : datetime) (salt : N) (token new : pystr)
    : M state error (User * pystr) :=
  peeked ← peek_cache_token now ResetToken token;
  k ← of_option peeked InvalidTokenError;
  user ← read (get_user_by_id k);
  x ← of_option user UserNotFoundError;
  _ ← reject_recent_passwords k new;
  h ← password_manager_hash salt new PasswordTooWeakError;
  mret (x, h).
Definition reset_apply (now : datetime) (x : User) (h : pystr) : M state error unit :=
  _ ← set_password now h x;
  _ ← revoke_all_sessions (user_id x);
  mret tt.
Definition reset_password (now : datetime) (salt : N) (token new : pystr) : M state error unit :=
  checked ← reset_check now salt token new;
  consumed ← consume_cache_token now ResetToken token;
  _ ← raise_if (negb (bool_decide (is_Some consumed))) InvalidTokenError;
  reset_apply now checked.1 checked.2.

(** *** E-mail verification *)
Definition verify_email (now : datetime) (token : pystr) : M state error User :=
  consumed ← consume_cache_token now VerificationToken token;
  k ← of_option consumed InvalidTokenError;
  user ← read (get_user_by_id k);
  x ← of_option user UserNotFoundError;
  update_user x (with_verified now).

Definition resend_verification (now : datetime) (fresh : uuid) (addr : pystr) : M state error unit :=
  user ← read (get_user_by_email addr);
  match user with
  | Some x =>
      if is_verified x then mret tt
      else
        token ← issue_cache_token now VerificationToken (user_id x) 86400 fresh;
        enqueue (mk_notification EMAIL_VERIFICATION (email x) token)
  | None => mret tt
  end.

(** *** Second factor *)
Definition enroll_mfa (secret : pystr) (nonce : N) (k : uuid) : M state error pystr :=
  user ← read (get_user_by_id k);
  x ← of_option user UserNotFoundError;
  _ ← raise_if (mfa_enabled x) MfaAlreadyEnabledError;
  existing ← read (get_mfa_credential k);
  _ ← match existing with
      | Some _ => on_credential k (with_secret (fernet_encrypt nonce secret))
      | None => on_rows (set_credentials (insert_row (mk_credential k (fernet_encrypt nonce secret) None None)))
      end;
  mret secret.

(** [draw] and [ids] are the random choices behind the new recovery codes. *)
Definition issue_recovery_codes (draw : nat → nat → nat) (ids : nat → uuid) (k : uuid)
    : M state error (list pystr) :=
  let codes := generate_recovery_codes draw (mfa_recovery_code_count cfg) in
  _ ← replace_recovery_codes k (imap (λ i c, (ids i, hash_recovery_code c)) codes);
  mret codes.

Definition verify_and_enable_mfa (now : datetime) (draw : nat → nat → nat) (ids : nat → uuid)
    (k : uuid) (code : pystr) : M state error (list pystr) :=
  user ← read (get_user_by_id k);
  x ← of_option user UserNotFoundError;
  credential ← read (get_mfa_credential k);
  c ← of_option credential MfaNotEnrolledError;
  secret ← of_option (fernet_decrypt (secret_encrypted c)) MfaSecretDecryptionError;
  _ ← raise_if (negb (totp_verify secret code now)) InvalidMfaCodeError;
  _ ← on_credential k (with_enrolment now);
  _ ← update_user x (with_mfa true);
  issue_recovery_codes draw ids k.

Definition disable_mfa (now : datetime) (k : uuid) (password code : pystr) : M state error unit :=
  user ← read (get_user_by_id k);
  x ← of_option user UserNotFoundError;
  _ ← raise_if (negb (mfa_enabled x)) MfaNotEnabledError;
  _ ← raise_if (negb (verify_password_safe password (password_hash x))) InvalidCredentialsError;
  good ← verify_mfa_or_recovery_code now k code;
  _ ← raise_if (negb good) InvalidMfaCodeError;
  credential ← read (get_mfa_credential k);
  _ ← update_user x (with_mfa false);
  _ ← match credential with Some _ => delete_mfa_credential k | None => mret tt end;
  replace_recovery_codes k [].

Definition regenerate_recovery_codes (now : datetime) (draw : nat → nat → nat) (ids : nat → uuid)
    (k : uuid) (code : pystr) : M state error (list pystr) :=
  user ← read (get_user_by_id k);
  _ ← raise_if (match user with Some x => negb (mfa_enabled x) | None => true end) MfaNotEnabledError;
  good ← verify_mfa_or_recovery_code now k code;
  _ ← raise_if (negb good) InvalidMfaCodeError;
  issue_recovery_codes draw ids k.

(** *** [dependencies.py] and [domains/user/service.py] *)

(** [_resolve_user_from_jwt]; [None] is the 401. *)
Definition resolve_user_from_jwt (now : datetime) (token : pystr) (d : database) : option User :=
  c ← validate_token now token (u "access");
  k ← parse_uuid (sub c);
  x ← get_user_by_id k d;
  if user_active x then
    match tokens_invalidated_at x with
    | Some t => if iat c * 1000000 <? t then None else Some x
    | None => Some x
    end
  else None.

(** [UserService.force_logout_user], after its tenant check. *)
Definition force_logout (now : datetime) (x : User) : M state error User :=
  _ ← revoke_all_sessions (user_id x);
  update_user x (with_tokens_invalidated now).

(** ** Runs, when Redis answers *)
Lemma counters_run {A} (f : R → R * A) x r t :
  on_counters f (World x (Conn (r, t) [])) = (Ok (f r).2, World x (Conn ((f r).1, t) [])).
Proof. unfold on_counters, on_ext, zoom, redis_call; simpl. by destruct (f r). Qed.
Lemma tokens_run {A} (f : T → T * A) x r t :
  on_tokens f (World x (Conn (r, t) [])) = (Ok (f t).2, World x (Conn (r, (f t).1) [])).
Proof. unfold on_tokens, on_ext, zoom, redis_call; simpl. by destruct (f t). Qed.

(** The pending rows of the session, rewritten. *)
Definition wrote (f : database → database) w : state :=
  World (Txn (f (live (db w))) (saved (db w))) (ext w).
Lemma rows_bind {B} f (g : unit → M state error B) w : (on_rows f ≫= g) w = g tt (wrote f w).
Proof. done. Qed.
Lemma read_bind {A B} (f : database → A) (g : A → M state error B) w :
  (read f ≫= g) w = g (f (live (db w))) w.
Proof. by destruct w as [[? ?] ?]. Qed.
Lemma update_bind {B} x f (g : User → M state error B) w :
  (update_user x f ≫= g) w = g (f x) (wrote (set_users (set_row f (user_id x))) w).
Proof. done. Qed.

Lemma security_record_run now e i ok x r t : ∃ r',
  security_record_login_attempt now e i ok (World x (Conn (r, t) [])) =
    (Ok tt, World x (Conn (r', t) [])).
Proof.
  unfold security_record_login_attempt; cbv zeta. destruct ok.
  - rewrite counters_run. eauto.
  - run counters_run. case_match; [rewrite counters_run|]; eauto.
Qed.

Definition add_attempt (a : LoginAttempt) : database → database :=
  set_attempts (insert_row (mk_attempt (attempt_user a) (lower (attempt_email a))
    (attempt_ip a) (success a) (reason a))).

Lemma record_login_attempt_run a d d' x :
  record_login_attempt a (World (Txn d d') x) =
    (Ok tt, World (Txn (add_attempt a d) (add_attempt a d)) x).
Proof. done. Qed.

Lemma record_attempt_run now k e dev ok why d d' r t : ∃ r',
  record_attempt now k e dev ok why (World (Txn d d') (Conn (r, t) [])) =
    (Ok tt, let d1 := add_attempt (mk_attempt k e (ip_address dev) ok why) d in
            World (Txn d1 d1) (Conn (r', t) [])).
Proof.
  unfold record_attempt. run record_login_attempt_run. cbv zeta.
  destruct ok; [by eexists|]. eapply security_record_run.
Qed.

Lemma refuse_fails {A} now k e dev why err w (a : A) w' :
  refuse now k e dev why err w ≠ (Ok a, w').
Proof.
  unfold refuse. intros H. apply bind_Ok in H as (? & ? & ? & H). discriminate H.
Qed.

(** ** Exactly who gets in *)

(** The attempt counter of the address and IP allows another attempt. *)
Definition under_limit (now : datetime) (addr ip : pystr) (r : R) : Prop :=
  ∀ n dl, r_entry now (login_key addr ip) r = Some (n, dl) → n < max_login_attempts cfg.

(** The code is a current TOTP code, or an unused recovery code; an
    undecryptable secret refuses both. *)
Definition second_factor_ok (now : datetime) (k : uuid) (code : pystr) (d : database) : Prop :=
  let recovery := is_Some (get_active_recovery_code k (hash_recovery_code code) d) in
  match get_mfa_credential k d with
  | None => recovery
  | Some c => ∃ s, fernet_decrypt (secret_encrypted c) = Some s
                   ∧ (totp_verify s code now = true ∨ recovery)
  end.
Definition acceptable_password (salt : N) (x : User) (new : pystr) (d : database) : Prop :=
  verify_password_safe new (password_hash x) = false ∧ reused (user_id x) new d = false
  ∧ validate_strength new = None ∧ is_Some (argon_hash salt new).

Record admits (now : datetime) (dr : draws) (password : pystr) (mfa_code new_password : option pystr)
    (d : database) (x : User) : Prop := {
  admits_active : user_active x = true;
  admits_unlocked : account_locked now (locked_until x) = None;
  admits_password : verify_password_safe password (password_hash x) = true;
  admits_verified : is_verified x = true;
  admits_factor : mfa_enabled x = true →
    ∃ code, given mfa_code = Some code ∧ second_factor_ok now (user_id x) code d;
  admits_change : must_change_password x = true →
    ∃ new, given new_password = Some new ∧ acceptable_password (hash_salt dr) x new d;
  admits_signing : signing_forbidden cfg = false;
  admits_fresh : ∀ s, s ∈ sessions d → refresh_token_jti s ≠ uuid_str (refresh_id dr);
}.

(** What the steps before [open_session] leave alone. *)
Definition kept (w w' : state) : Prop :=
  ext w' = ext w ∧ sessions (live (db w')) = sessions (live (db w))
  ∧ users (live (db w')) = users (live (db w))
  ∧ password_history (live (db w')) = password_history (live (db w)).
#[local] Instance kept_preorder : PreOrder kept.
Proof.
  split; [done|]. intros w1 w2 w3 (? & ? & ? & ?) (? & ? & ? & ?).
  repeat split; etrans; eauto.
Qed.

Lemma kept_wrote f w :
  (∀ d, sessions (f d) = sessions d ∧ users (f d) = users d
        ∧ password_history (f d) = password_history d) → kept w (wrote f w).
Proof. intros Hf. destruct (Hf (live (db w))) as (? & ? & ?). done. Qed.

Lemma mfa_or_recovery_Ok now k code w b w' :
  verify_mfa_or_recovery_code now k code w = (Ok b, w') →
  kept w w' ∧ (b = true → second_factor_ok now k code (live (db w))).
Proof.
  unfold verify_mfa_or_recovery_code, second_factor_ok. rewrite read_bind.
  assert (∀ w1, kept w w1 → mfa_recovery_codes (live (db w1)) = mfa_recovery_codes (live (db w)) →
    (row ← read (get_active_recovery_code k (hash_recovery_code code));
     match row with
     | Some c => _ ← mark_recovery_code_used now c; mret true
     | None => mret false
     end) w1 = (Ok b, w') →
    kept w w' ∧ (b = true →
      is_Some (get_active_recovery_code k (hash_recovery_code code) (live (db w))))) as Hrec.
  { intros w1 Hk Hcodes. rewrite read_bind. unfold get_active_recovery_code. rewrite Hcodes.
    destruct (select_one _ _) as [c|].
    - unfold mark_recovery_code_used. rewrite rows_bind. intros [= <- <-].
      split; [|eauto]. etrans; [exact Hk|]. by apply kept_wrote.
    - intros [= <- <-]. done. }
  destruct (get_mfa_credential k (live (db w))) as [c|].
  2:{ rewrite ret_bind. intros Hrun. by apply (Hrec w) in Hrun. }
  rewrite bind_assoc, of_option_bind.
  destruct (fernet_decrypt _) as [s|] eqn:Hd; [|done].
  destruct (totp_verify s code now) eqn:Hv.
  - rewrite bind_assoc. unfold on_credential. rewrite rows_bind, ret_bind.
    intros [= <- <-]. split; [by apply kept_wrote|]. eauto.
  - rewrite ret_bind. intros Hrun. apply (Hrec w) in Hrun as [? Hr]; [|done..].
    split; [done|]. intros Hb. eauto.
Qed.

Lemma mfa_or_recovery_accepts now k code w :
  second_factor_ok now k code (live (db w)) →
  ∃ w', verify_mfa_or_recovery_code now k code w = (Ok true, w').
Proof.
  unfold second_factor_ok, verify_mfa_or_recovery_code. rewrite read_bind.
  assert (is_Some (get_active_recovery_code k (hash_recovery_code code) (live (db w))) →
    ∃ w', (row ← read (get_active_recovery_code k (hash_recovery_code code));
           match row with
           | Some c => _ ← mark_recovery_code_used now c; mret true
           | None => mret false
           end) w = (Ok true, w')) as Hrec.
  { intros [c Hc]. rewrite read_bind, Hc. by eexists. }
  destruct (get_mfa_credential k (live (db w))) as [c|]; [|done].
  intros (s & Hs & Hor). rewrite bind_assoc, of_option_bind, Hs.
  destruct (totp_verify s code now) eqn:Hv; [by eexists|].
  rewrite ret_bind. destruct Hor as [?|Hor]; [done|by apply Hrec].
Qed.

Lemma second_factor_Ok now addr dev mfa_code x w w' :
  login_second_factor now addr dev mfa_code x w = (Ok tt, w') →
  kept w w' ∧ (mfa_enabled x = true →
    ∃ code, given mfa_code = Some code ∧ second_factor_ok now (user_id x) code (live (db w))).
Proof.
  unfold login_second_factor. destruct (mfa_enabled x); [|by intros [= <-]].
  destruct (given mfa_code) as [code|]; [|by intros Hrun%refuse_fails].
  intros Hrun. apply bind_Ok in Hrun as (b & w1 & Hv & Hrun).
  apply mfa_or_recovery_Ok in Hv as [Hk Hb].
  destruct b; [injection Hrun as <-; eauto|by apply refuse_fails in Hrun].
Qed.

Lemma second_factor_accepts now addr dev mfa_code x w :
  (mfa_enabled x = true →
    ∃ code, given mfa_code = Some code ∧ second_factor_ok now (user_id x) code (live (db w))) →
  ∃ w', login_second_factor now addr dev mfa_code x w = (Ok tt, w').
Proof.
  unfold login_second_factor. destruct (mfa_enabled x); [|by eexists].
  intros (code & -> & Hc); [done|].
  destruct (mfa_or_recovery_accepts _ _ _ _ Hc) as [w' Hw']. run Hw'. by eexists.
Qed.

Lemma hash_Ok salt p f w h w' :
  password_manager_hash salt p f w = (Ok h, w') →
  validate_strength p = None ∧ argon_hash salt p = Some h ∧ w' = w.
Proof.
  unfold password_manager_hash. destruct (validate_strength p); [done|].
  destruct (argon_hash salt p); [by intros [= <- <-]|done].
Qed.
Lemma hash_accepts salt p f w h :
  validate_strength p = None → argon_hash salt p = Some h →
  password_manager_hash salt p f w = (Ok h, w).
Proof. unfold password_manager_hash. by intros -> ->. Qed.

Lemma replace_password_Ok now salt addr dev new_password x w y w' :
  login_replace_password now salt addr dev new_password x w = (Ok y, w') →
  ext w' = ext w ∧ sessions (live (db w')) = sessions (live (db w))
  ∧ user_id y = user_id x ∧ email y = email x
  ∧ (must_change_password x = true → ∃ new, given new_password = Some new
       ∧ acceptable_password salt x new (live (db w))).
Proof.
  unfold login_replace_password. destruct (must_change_password x); [|by intros [= <- <-]].
  destruct (given new_password) as [new|]; [|by intros Hrun%refuse_fails].
  rewrite raise_if_bind. destruct (verify_password_safe _ _) eqn:Hsame; [done|].
  unfold reject_recent_passwords. rewrite bind_assoc, read_bind, raise_if_bind.
  destruct (reused _ _ _) eqn:Hr; [done|]. intros Hrun.
  apply bind_Ok in Hrun as (h & w1 & (Hs & Hh & ->)%hash_Ok & Hrun).
  injection Hrun as <- <-. repeat split. intros _. exists new. repeat split; eauto.
Qed.

Lemma replace_password_accepts now salt addr dev new_password x w :
  (must_change_password x = true → ∃ new, given new_password = Some new
     ∧ acceptable_password salt x new (live (db w))) →
  ∃ y w', login_replace_password now salt addr dev new_password x w = (Ok y, w').
Proof.
  unfold login_replace_password. destruct (must_change_password x); [|by do 2 eexists].
  intros (new & -> & Hv & Hr & Hs & [h Hh]); [done|].
  rewrite raise_if_bind, Hv. unfold reject_recent_passwords.
  rewrite bind_assoc, read_bind, raise_if_bind, Hr. run (hash_accepts _ _ _ _ _ Hs Hh). by do 2 eexists.
Qed.

Definition issued (now : datetime) (k e : pystr) (a r : uuid) : TokenPair :=
  mk_pair
    (jwt_encode (Claims k e (uuid_str a) (u "access") (timestamp now)
      (timestamp (now + minutes (access_token_expire_minutes cfg)))))
    (jwt_encode (Claims k e (uuid_str r) (u "refresh") (timestamp now)
      (timestamp (now + days (refresh_token_expire_days cfg)))))
    (access_token_expire_minutes cfg * 60) (refresh_token_expire_days cfg * 86400).
Lemma token_pair_bind {B} now k e a r (g : TokenPair → M state error B) w :
  (create_token_pair now k e a r ≫= g) w =
    if signing_forbidden cfg then (Raise JWTError, w) else g (issued now k e a r) w.
Proof.
  unfold create_token_pair, create_access_token, create_refresh_jwt, encode.
  by destruct (signing_forbidden cfg).
Qed.

Lemma jti_taken_false j d :
  jti_taken j d = false ↔ ∀ s, s ∈ sessions d → refresh_token_jti s ≠ j.
Proof.
  unfold jti_taken. rewrite <- not_true_iff_false, existsb_exists. split.
  - intros Hno s Hs Hj. apply Hno. exists s. rewrite <- list_elem_of_In.
    by rewrite bool_decide_true.
  - intros Hno (s & Hs & Hj). apply list_elem_of_In in Hs.
    apply bool_decide_eq_true in Hj. by apply (Hno s).
Qed.

Lemma open_session_Ok now dr addr dev x w out w' :
  open_session now dr addr dev x w = (Ok out, w') →
  signing_forbidden cfg = false ∧ jti_taken (uuid_str (refresh_id dr)) (live (db w)) = false.
Proof.
  unfold open_session. rewrite update_bind, token_pair_bind.
  destruct (signing_forbidden cfg) eqn:Hsign; [done|].
  unfold create_refresh_token. rewrite bind_assoc, read_bind.
  cbn [refresh_token_jti]. by destruct (jti_taken _ _).
Qed.

(** The row a log-in inserts. *)
Definition opened (now : datetime) (dr : draws) (k : uuid) : AuthSession :=
  mk_session (new_session_id dr) k (uuid_str (refresh_id dr))
    (now + days (refresh_token_expire_days cfg)) now true.

Lemma open_session_run now dr addr dev x d d' r t :
  signing_forbidden cfg = false → jti_taken (uuid_str (refresh_id dr)) d = false →
  ∃ r', open_session now dr addr dev x (World (Txn d d') (Conn (r, t) [])) =
    (Ok (with_last_login now (with_failures 0 None x),
         issued now (uuid_str (user_id x)) (email x) (access_id dr) (refresh_id dr),
         new_session_id dr),
     let d1 := add_attempt (mk_attempt (Some (user_id x)) addr (ip_address dev) true None)
                 (set_sessions (insert_row (opened now dr (user_id x)))
                   (set_users (set_row (λ x, with_last_login now (with_failures 0 None x))
                     (user_id x)) d)) in
     World (Txn d1 d1) (Conn (r', t) [])).
Proof.
  intros Hsign Hj. unfold open_session. rewrite update_bind, token_pair_bind, Hsign.
  unfold create_refresh_token. rewrite bind_assoc, read_bind. unfold wrote.
  cbn [refresh_token_jti]. change (jti_taken _ _) with (jti_taken (uuid_str (refresh_id dr)) d).
  rewrite Hj.
  cbn [unique_or_raise]. rewrite bind_assoc, ret_bind, bind_assoc, rows_bind, ret_bind.
  unfold wrote. cbn [db ext live saved].
  destruct (security_record_run now addr (ip_address dev) true
    (Txn (set_sessions (insert_row (opened now dr (user_id x)))
            (set_users (set_row (λ x, with_last_login now (with_failures 0 None x))
              (user_id x)) d)) d') r t) as [r1 Hr1].
  exists r1. run Hr1. done.
Qed.

Lemma if_ret_bind {B} (b : bool) (m : M state error unit) (g : unit → M state error B) w :
  ((if b then mret tt else m) ≫= g) w = if b then g tt w else (m ≫= g) w.
Proof. by destruct b. Qed.
Lemma refuse_bind_fails {A B} now k e dev why err (g : A → M state error B) w b w' :
  (refuse now k e dev why err ≫= g) w ≠ (Ok b, w').
Proof. intros Hrun. apply bind_Ok in Hrun as (? & ? & Hrun & _). by apply refuse_fails in Hrun. Qed.
Lemma check_lock_bind {B} now l (g : unit → M state error B) w :
  (check_account_lock now l ≫= g) w =
    match account_locked now l with
    | Some t => (Raise (AccountLockedError t), w)
    | None => g tt w
    end.
Proof. unfold check_account_lock. by destruct (account_locked now l). Qed.

Lemma login_account_accepts now dr addr password dev mfa_code new_password x d d' r t :
  admits now dr password mfa_code new_password d x →
  ∃ out w', login_account now dr addr password dev mfa_code new_password x
              (World (Txn d d') (Conn (r, t) [])) = (Ok out, w').
Proof.
  intros [Ha Hl Hp Hv Hf Hc Hs Hj]. unfold login_account.
  rewrite if_ret_bind, Ha, check_lock_bind, Hl, if_ret_bind, Hp, if_ret_bind, Hv.
  destruct (second_factor_accepts now addr dev mfa_code x (World (Txn d d') (Conn (r, t) [])) Hf)
    as [w1 Hw1].
  run Hw1. apply second_factor_Ok in Hw1 as [(He1 & Hs1 & Hu1 & Hh1) _].
  destruct w1 as [[d1 d1'] c1]. cbn in He1, Hs1, Hu1, Hh1. subst c1.
  edestruct (replace_password_accepts now (hash_salt dr) addr dev new_password x
    (World (Txn d1 d1') (Conn (r, t) []))) as (y & w2 & Hw2).
  { intros Hm. destruct (Hc Hm) as (new & Hn & ? & Hr & ?). exists new.
    unfold acceptable_password, reused, get_recent_password_hashes in *. cbn [db live] in *.
    by rewrite Hh1. }
  run Hw2. apply replace_password_Ok in Hw2 as (He2 & Hs2 & _).
  destruct w2 as [[d2 d2'] c2]. cbn in He2, Hs2. subst c2.
  destruct (open_session_run now dr addr dev y d2 d2' r t Hs) as [r' Hr'].
  { apply jti_taken_false. intros s. rewrite Hs2, Hs1. apply Hj. }
  rewrite Hr'. by do 2 eexists.
Qed.

Lemma login_account_Ok now dr addr password dev mfa_code new_password x w out w' :
  login_account now dr addr password dev mfa_code new_password x w = (Ok out, w') →
  admits now dr password mfa_code new_password (live (db w)) x.
Proof.
  unfold login_account. rewrite if_ret_bind.
  destruct (user_active x) eqn:Ha; [|by intros ?%refuse_bind_fails].
  rewrite check_lock_bind. destruct (account_locked now (locked_until x)) eqn:Hl; [done|].
  rewrite if_ret_bind. destruct (verify_password_safe password (password_hash x)) eqn:Hp.
  2:{ rewrite bind_assoc. unfold register_failed_attempt. rewrite update_bind.
      by intros ?%refuse_bind_fails. }
  rewrite if_ret_bind. destruct (is_verified x) eqn:Hv; [|by intros ?%refuse_bind_fails].
  intros Hrun. apply bind_Ok in Hrun as ([] & w1 & Hf & Hrun).
  apply second_factor_Ok in Hf as [(_ & Hs1 & _ & Hh1) Hf].
  apply bind_Ok in Hrun as (y & w2 & Hc & Hrun).
  apply replace_password_Ok in Hc as (_ & Hs2 & _ & _ & Hc).
  apply open_session_Ok in Hrun as [Hsign Hj].
  split; [done..| |done|].
  - intros Hm. destruct (Hc Hm) as (new & ? & ? & Hr & ?). exists new.
    unfold acceptable_password, reused, get_recent_password_hashes in *.
    by rewrite Hh1 in Hr.
  - rewrite jti_taken_false in Hj. by rewrite Hs2, Hs1 in Hj.
Qed.

Lemma check_rate_limit_run now addr ip x r t :
  check_rate_limit now addr ip (World x (Conn (r, t) [])) =
    match r_entry now (login_key addr ip) r with
    | Some (n, _) =>
        if max_login_attempts cfg <=? n
        then (Raise (RateLimitError (let ttl := r_ttl now (login_key addr ip) r in
                if 0 <? ttl then ttl else account_lockout_minutes cfg * 60)),
              World x (Conn (r, t) []))
        else (Ok tt, World x (Conn (r, t) []))
    | None => (Ok tt, World x (Conn (r, t) []))
    end.
Proof.
  unfold check_rate_limit; cbv zeta. run counters_run. cbn [fst snd].
  destruct (r_entry now (login_key addr ip) r) as [[n dl]|]; [|done].
  cbn [fmap option_fmap option_map fst]. destruct (max_login_attempts cfg <=? n); [|done].
  run counters_run. done.
Qed.

(** What a log-in that succeeds returns and leaves behind. *)
Record signed_in (now : datetime) (dr : draws) (addr : pystr) (d : database) (out : User * TokenPair * uuid) (d' : database) :
    Prop := {
  in_user : ∃ x, get_user_by_email addr d = Some x
    ∧ user_id out.1.1 = user_id x ∧ email out.1.1 = email x
    ∧ out.1.2 = issued now (uuid_str (user_id x)) (email x) (access_id dr) (refresh_id dr)
    ∧ sessions d' = insert_row (opened now dr (user_id x)) (sessions d);
  in_session : out.2 = new_session_id dr;
  in_cleared : failed_login_attempts out.1.1 = 0 ∧ locked_until out.1.1 = None;
}.
Lemma login_account_opens now dr addr password dev mfa_code new_password x d d' r t out w' :
  get_user_by_email addr d = Some x →
  login_account now dr addr password dev mfa_code new_password x (World (Txn d d') (Conn (r, t) [])) = (Ok out, w') →
  signed_in now dr addr d out (live (db w')).
Proof.
  intros Hx Hrun. pose proof (login_account_Ok _ _ _ _ _ _ _ _ _ _ _ Hrun) as [Ha Hl Hp Hv _ _ Hs Hj].
  unfold login_account in Hrun. rewrite if_ret_bind, Ha, check_lock_bind, Hl, if_ret_bind, Hp, if_ret_bind, Hv in Hrun.
  apply bind_Ok in Hrun as ([] & [[d1 d1'] c1] & [(He1 & Hs1 & _) _]%second_factor_Ok & Hrun).
  apply bind_Ok in Hrun as (y & [[d2 d2'] c2] & (He2 & Hs2 & Hid & Hmail & _)%replace_password_Ok & Hrun).
  cbn [db ext live] in *. subst c2 c1.
  destruct (open_session_run now dr addr dev y d2 d2' r t Hs) as [r' Hr'].
  { apply jti_taken_false. intros s. rewrite Hs2, Hs1. apply Hj. }
  rewrite Hr' in Hrun. injection Hrun as <- <-. split; [|done|done].
  exists x. rewrite <-Hid, <-Hmail. split_and!; [done..|]. cbn. by rewrite Hs2, Hs1.
Qed.

(** C19: [login] with Redis answering: it succeeds exactly when the failure
    counter of the address and IP is under its limit, the address (stripped,
    lower-cased) names an account that is active, not locked at that instant
    and verified, the password matches, the second factor is presented where
    it is enabled, a new password that is neither the current nor a recent one
    and passes the strength rules is presented where a change is due, and the
    token can be signed and stored.  It then returns that account, with its
    failures and its lock cleared, the pair of tokens signed for it, and the
    key of the one session it has added, which holds the refresh token's
    identifier and expires with it. *)
Theorem login_accepts_iff now dr raw password dev mfa_code new_password d d' r t :
  let addr := lower (strip raw) in
  ((∃ out w', login now dr raw password dev mfa_code new_password
               (World (Txn d d') (Conn (r, t) [])) = (Ok out, w'))
  ↔ under_limit now addr (ip_address dev) r
    ∧ ∃ x, get_user_by_email addr d = Some x
           ∧ admits now dr password mfa_code new_password d x)
  ∧ match login now dr raw password dev mfa_code new_password (World (Txn d d') (Conn (r, t) [])) with
    | (Ok out, w') => signed_in now dr addr d out (live (db w'))
    | (Raise _, _) => True
    end.
Proof.
  intros addr. unfold login. fold addr. cbv zeta. unfold under_limit.
  pose proof (check_rate_limit_run now addr (ip_address dev) (Txn d d') r t) as Hlim.
  destruct (r_entry now (login_key addr (ip_address dev)) r) as [[n dl]|] eqn:He;
    [destruct (Z.leb_spec (max_login_attempts cfg) n)|].
  { stop Hlim. split; [|done]. split; [by intros (? & ? & ?)|].
    intros [Hu _]. specialize (Hu n dl eq_refl). lia. }
  all: run Hlim; rewrite read_bind; cbn [db live].
  all: split; [|destruct (get_user_by_email addr d) as [x|] eqn:Ex;
    [destruct (login_account _ _ _ _ _ _ _ x _) as [[out|] w'] eqn:Hrun; [by apply login_account_opens in Hrun|done]
    |destruct (refuse _ _ _ _ _ _ _) as [[out|] w'] eqn:Hrun; [by apply refuse_fails in Hrun|done]]].
  all: split;
    [ intros (out & w' & Hrun); (split; [intros n' dl'; by intros [= <- <-] || done|]);
      destruct (get_user_by_email addr d) as [x|]; [|by apply refuse_fails in Hrun];
      exists x; split; [done|]; by apply login_account_Ok in Hrun
    | intros (_ & x & -> & Hx); by apply login_account_accepts ].
Qed.

(** ** A log-in's refresh token works *)
Lemma active_set_row f j k (t : list User) :
  (∀ x, user_id (f x) = user_id x) → (∀ x, user_active (f x) = user_active x) →
  user_active <$> by_id k (set_row f j t) = user_active <$> by_id k t.
Proof.
  intros Hid Ha. rewrite by_id_set_row by done. case_decide as Hk; [|done]. subst.
  destruct (by_id k t) as [x|]; [|done]. cbn. by rewrite Ha.
Qed.

Lemma replace_password_users now salt addr dev new_password x w y w' k :
  login_replace_password now salt addr dev new_password x w = (Ok y, w') →
  user_active <$> get_user_by_id k (live (db w')) = user_active <$> get_user_by_id k (live (db w)).
Proof.
  unfold login_replace_password. destruct (must_change_password x); [|by intros [= <- <-]].
  destruct (given new_password) as [new|]; [|by intros Hrun%refuse_fails].
  rewrite raise_if_bind. destruct (verify_password_safe _ _); [done|].
  unfold reject_recent_passwords. rewrite bind_assoc, read_bind, raise_if_bind.
  destruct (reused _ _ _); [done|]. intros Hrun.
  apply bind_Ok in Hrun as (h & w1 & (_ & _ & ->)%hash_Ok & Hrun).
  injection Hrun as <- <-. by apply (active_set_row (with_password h now)).
Qed.

Record logged_in (now : datetime) (dr : draws) (x : User) (d : database)
    (out : User * TokenPair * uuid) (w' : state) : Prop := {
  li_user : user_id out.1.1 = user_id x;
  li_tokens : out.1.2 = issued now (uuid_str (user_id x)) (email x) (access_id dr) (refresh_id dr);
  li_sessions : sessions (live (db w')) = insert_row (opened now dr (user_id x)) (sessions d);
  li_fresh : jti_taken (uuid_str (refresh_id dr)) d = false;
  li_signing : signing_forbidden cfg = false;
  li_active : ∀ k, user_active <$> get_user_by_id k (live (db w')) =
                   user_active <$> get_user_by_id k d;
  li_committed : saved (db w') = live (db w');
}.

(** Redis does not touch the rows. *)
Lemma counters_db {A} (f : R → R * A) w : db (on_counters f w).2 = db w.
Proof. unfold on_counters, on_ext, zoom. by destruct (redis_call _ _ (ext w)). Qed.
Lemma tokens_db {A} (f : T → T * A) w : db (on_tokens f w).2 = db w.
Proof. unfold on_tokens, on_ext, zoom. by destruct (redis_call _ _ (ext w)). Qed.
Lemma counters_bind_db {A B} (f : R → R * A) (g : A → M state error B) w (P : txn database → Prop) :
  P (db w) → (∀ a w1, db w1 = db w → P (db (g a w1).2)) → P (db ((on_counters f ≫= g) w).2).
Proof.
  intros Hw Hg. pose proof (counters_db f w) as Hf. unfold mbind, M_bind.
  destruct (on_counters f w) as [[a|e] w1]; cbn in *; [by apply Hg|by rewrite Hf].
Qed.
Lemma security_record_db now e i ok w :
  db (security_record_login_attempt now e i ok w).2 = db w.
Proof.
  unfold security_record_login_attempt; cbv zeta. destruct ok; [apply counters_db|].
  apply (counters_bind_db _ _ w (λ t, t = db w)); [done|].
  intros a w1 Hw1. case_match; [by rewrite counters_db|done].
Qed.
Lemma check_rate_limit_db now e i w : db (check_rate_limit now e i w).2 = db w.
Proof.
  unfold check_rate_limit; cbv zeta. apply (counters_bind_db _ _ w (λ t, t = db w)); [done|].
  intros [n|] w1 Hw1; [|done]. destruct (_ <=? n); [|done].
  apply (counters_bind_db _ _ w1 (λ t, t = db w)); [done|]. intros a w2 Hw2. simpl. congruence.
Qed.

Definition after_open (now : datetime) (dr : draws) (addr : pystr) (dev : DeviceInfo) (x : User)
    (d : database) : database :=
  add_attempt (mk_attempt (Some (user_id x)) addr (ip_address dev) true None)
    (set_sessions (insert_row (opened now dr (user_id x)))
      (set_users (set_row (λ x, with_last_login now (with_failures 0 None x)) (user_id x)) d)).

Lemma open_session_db now dr addr dev x w out w' :
  open_session now dr addr dev x w = (Ok out, w') →
  out = (with_last_login now (with_failures 0 None x),
         issued now (uuid_str (user_id x)) (email x) (access_id dr) (refresh_id dr),
         new_session_id dr)
  ∧ db w' = Txn (after_open now dr addr dev x (live (db w))) (after_open now dr addr dev x (live (db w))).
Proof.
  unfold open_session. rewrite update_bind, token_pair_bind.
  destruct (signing_forbidden cfg); [done|].
  unfold create_refresh_token. rewrite bind_assoc, read_bind.
  destruct (jti_taken _ _); [done|]. cbn [unique_or_raise].
  rewrite bind_assoc, ret_bind, bind_assoc, rows_bind, ret_bind.
  set (w1 := wrote _ _). intros Hrun. apply bind_Ok in Hrun as ([] & w2 & Hr & Hrun).
  pose proof (security_record_db now addr (ip_address dev) true w1) as Hdb. rewrite Hr in Hdb.
  cbn in Hdb. unfold record_attempt in Hrun. rewrite bind_assoc in Hrun.
  destruct w2 as [[d2 d2'] c2]. cbn in Hdb. injection Hdb as -> ->.
  injection Hrun as <- <-. done.
Qed.

Lemma login_account_state now dr addr password dev mfa_code new_password x w out w' :
  login_account now dr addr password dev mfa_code new_password x w = (Ok out, w') →
  user_active x = true ∧ logged_in now dr x (live (db w)) out w'.
Proof.
  unfold login_account. rewrite if_ret_bind.
  destruct (user_active x) eqn:Ha; [|by intros ?%refuse_bind_fails].
  rewrite check_lock_bind. destruct (account_locked now (locked_until x)); [done|].
  rewrite if_ret_bind. destruct (verify_password_safe password (password_hash x)).
  2:{ rewrite bind_assoc. unfold register_failed_attempt. rewrite update_bind.
      by intros ?%refuse_bind_fails. }
  rewrite if_ret_bind. destruct (is_verified x); [|by intros ?%refuse_bind_fails].
  intros Hrun. apply bind_Ok in Hrun as ([] & w1 & Hf & Hrun).
  apply second_factor_Ok in Hf as [(_ & Hs1 & Hu1 & _) _].
  apply bind_Ok in Hrun as (y & w2 & Hc & Hrun).
  pose proof (λ k, replace_password_users _ _ _ _ _ _ _ _ _ k Hc) as Hact.
  apply replace_password_Ok in Hc as (_ & Hs2 & Hid & Hem & _).
  pose proof (open_session_Ok _ _ _ _ _ _ _ _ Hrun) as [Hsign Hj].
  apply open_session_db in Hrun as [-> Hw'].
  split; [done|]. rewrite Hid, Hem in *.
  split; rewrite ?Hw'; cbn [fst snd live saved].
  - done.
  - done.
  - unfold after_open. cbn. by rewrite <- Hs1, <- Hs2, Hid.
  - unfold jti_taken in *. by rewrite <- Hs1, <- Hs2.
  - done.
  - intros k. transitivity (user_active <$> get_user_by_id k (live (db w2))).
    + by apply (active_set_row (λ x, with_last_login now (with_failures 0 None x))).
    + rewrite Hact. unfold get_user_by_id. by rewrite Hu1.
  - done.
Qed.

Lemma login_state now dr raw password dev mfa_code new_password w out w' :
  login now dr raw password dev mfa_code new_password w = (Ok out, w') →
  ∃ x, get_user_by_email (lower (strip raw)) (live (db w)) = Some x ∧ user_active x = true
       ∧ logged_in now dr x (live (db w)) out w'.
Proof.
  unfold login; cbv zeta. intros Hrun. apply bind_Ok in Hrun as ([] & w1 & Hlim & Hrun).
  pose proof (check_rate_limit_db now (lower (strip raw)) (ip_address dev) w) as Hdb.
  rewrite Hlim in Hdb. cbn in Hdb. rewrite read_bind, Hdb in Hrun.
  destruct (get_user_by_email _ (live (db w))) as [x|]; [|by apply refuse_fails in Hrun].
  exists x. split; [done|]. apply login_account_state in Hrun. by rewrite Hdb in Hrun.
Qed.

Lemma validate_issued now now2 k e id ty exp :
  0 ≤ now ≤ now2 → now2 < exp * 1000000 →
  validate_token now2 (jwt_encode (Claims k e (uuid_str id) ty (timestamp now) exp)) ty
  = Some (Claims k e (uuid_str id) ty (timestamp now) exp).
Proof.
  intros [H0 Hle] Hlt. unfold validate_token. rewrite decode_encode.
  - rewrite (proj2 (Z.leb_gt _ _)) by done. cbn. by rewrite bool_decide_true.
  - cbn. unfold timestamp. pose proof (Z.mul_div_le now 1000000). lia.
Qed.

(** The rotation a refresh performs, when its checks pass. *)
Lemma refresh_session_run now dr token d c s x :
  refresh_read now token d = Ok (s, x, c) → signing_forbidden cfg = false →
  0 < rowcount (rotatable (session_id s) (jti c)) (sessions d) →
  jti_taken (uuid_str (refresh_id dr)) d = false →
  ∀ d' e, refresh now dr token (World (Txn d d') e) =
    (Ok (issued now (uuid_str (user_id x)) (email x) (access_id dr) (refresh_id dr)),
     World (Txn (rotate_refresh_token now (session_id s) (jti c) (uuid_str (refresh_id dr)) d).2 d') e).
Proof.
  intros Hread Hsign Hrow Hj d' e. unfold refresh. rewrite read_bind. cbn [db live].
  rewrite Hread. cbn [lift]. rewrite ret_bind, token_pair_bind, Hsign, read_bind, read_bind.
  cbn [db live].
  assert ((rotate_refresh_token now (session_id s) (jti c) (uuid_str (refresh_id dr)) d).1 = true)
    as -> by by apply Z.ltb_lt.
  rewrite Hj, raise_if_bind. cbn [andb]. by rewrite rows_bind, raise_if_bind.
Qed.

(** A completed log-in leaves a working refresh token: presented before
    its expiry, it is exchanged for a new pair. *)
Theorem login_token_refreshes now dr raw password dev mfa_code new_password
    (w w' : world database (conn (R * T))) out now2 dr2 :
  run_request (login now dr raw password dev mfa_code new_password) w = (Ok out, w') →
  keyed (users (db w)) → is_uuid (user_id out.1.1) →
  0 ≤ now ≤ now2 → now2 < timestamp (now + days (refresh_token_expire_days cfg)) * 1000000 →
  jti_taken (uuid_str (refresh_id dr2)) (db w') = false →
  ∃ tokens (w2 : world database (conn (R * T))), run_request (refresh now2 dr2 (refresh_token out.1.2)) w' = (Ok tokens, w2).
Proof.
  intros Hrun Hkey Hid Hle Hexp Hj. unfold run_request in Hrun.
  destruct (login _ _ _ _ _ _ _ _) as [[o|o] w1] eqn:Hlog; [|done].
  injection Hrun as -> <-.
  apply login_state in Hlog as (x & Hx & Ha & [Hu Htok Hs Hfresh Hsign Hact _]).
  cbn [db live] in Hx, Hs, Hfresh, Hact.
  apply select_one_Some in Hx as [Hin _].
  rewrite Hu in Hid. set (d1 := live (db w1)) in *.
  assert (by_id (user_id x) (users (db w)) = Some x) as Hby by by apply by_id_unique.
  pose proof (Hact (user_id x)) as Hax. unfold get_user_by_id in Hax.
  rewrite Hby in Hax. cbn in Hax.
  destruct (by_id (user_id x) (users d1)) as [y|] eqn:Hy; [|done].
  cbn in Hax. injection Hax as Hay.
  set (c := Claims (uuid_str (user_id x)) (email x) (uuid_str (refresh_id dr)) (u "refresh")
      (timestamp now) (timestamp (now + days (refresh_token_expire_days cfg)))).
  assert (refresh_read now2 (refresh_token out.1.2) d1 = Ok (opened now dr (user_id x), y, c))
    as Hread.
  { unfold refresh_read. rewrite Htok. cbn [refresh_token issued].
    rewrite validate_issued by done. cbn [jti sub].
    unfold get_session_by_refresh_token. rewrite Hs.
    rewrite (select_one_insert _ _ (opened now dr (user_id x))).
    2:{ intros s' Hs'. apply bool_decide_eq_false. by apply (jti_taken_false _ (db w)). }
    2:{ by apply bool_decide_eq_true. }
    cbn [session_active opened negb orb]. unfold is_expired. cbn [expires_at].
    rewrite (proj2 (Z.ltb_ge _ _)).
    2:{ unfold timestamp in Hexp.
        pose proof (Z.mul_div_le (now + days (refresh_token_expire_days cfg)) 1000000 ltac:(lia)).
        cbn. lia. }
    rewrite parse_uuid_str by done. unfold get_user_by_id. by rewrite Hy, Hay, Ha. }
  assert (0 < rowcount (rotatable (session_id (opened now dr (user_id x))) (jti c)) (sessions d1))
    as Hrow.
  { apply (rowcount_pos _ _ (opened now dr (user_id x))).
    - rewrite Hs. apply elem_of_app. right. apply list_elem_of_here.
    - unfold rotatable. cbn. by rewrite !bool_decide_true. }
  pose proof (refresh_session_run now2 dr2 _ _ _ _ _ Hread Hsign Hrow Hj d1 (ext w1)) as Hfin.
  unfold run_request. cbn [db ext]. fold d1. rewrite Hfin. by do 2 eexists.
Qed.
End service.

(** The list of common passwords decides nothing: every entry is shorter than
    the minimum, so no ASCII password ever reaches that check. *)
Lemma common_check_is_dead `{PyUnicode} p :
  forallb is_ascii p = true → validate_strength p ≠ Some TooCommon.
Proof.
  intros Ha. unfold validate_strength. destruct (_ <? MIN_LENGTH) eqn:Hlen; [done|].
  repeat case_match; try done. intros _.
  match goal with Hc : bool_decide _ = true |- _ => apply bool_decide_eq_true in Hc end.
  rewrite lower_ascii in * by done. apply Z.ltb_ge in Hlen. unfold MIN_LENGTH in Hlen.
  assert (∀ q, q ∈ COMMON_PASSWORDS → (length q < 12)%nat) as Hshort.
  { apply Forall_forall. by repeat constructor. }
  match goal with Hc : map _ p ∈ _ |- _ => apply Hshort in Hc; rewrite length_map in Hc end.
  lia.
Qed.

Module examples.
(** A cryptography that satisfies the laws. *)
Definition claims_code (c : claims) : positive :=
  countable.encode (sub c, claim_email c, jti c, token_type c, iat c, exp c).
Definition claims_of (p : positive) : option claims :=
  (λ x : pystr * pystr * pystr * pystr * Z * Z,
     let '(s, e, j, t, i, y) := x in Claims s e j t i y) <$> countable.decode p.
Lemma claims_of_code c : claims_of (claims_code c) = Some c.
Proof. unfold claims_of, claims_code. rewrite countable.decode_encode. by destruct c. Qed.

#[refine] Definition toy : Crypto := {|
  argon_hash := λ salt p, Some (salt :: p);
  argon_verify := λ h p, match h with
    | [] => Malformed
    | _ :: q => if bool_decide (q = p) then Matches else Mismatch end;
  jwt_encode := λ c, [Npos (claims_code c)];
  jwt_decode := λ now t, match t with
    | [Npos p] => match claims_of p with
                  | Some c => if exp c * 1000000 <=? now then Expired else Decoded c
                  | None => Invalid
                  end
    | _ => Invalid end;
  fernet_encrypt := λ n s, n :: s;
  fernet_decrypt := λ s, match s with _ :: s => Some s | [] => None end;
  totp_verify := λ s c now, bool_decide (c = s);
  sha256 := λ s, s |}.
Proof.
  - intros salt p h [= <-]. by rewrite bool_decide_true.
  - intros now c _. by rewrite claims_of_code.
  - done.
Defined.
#[local] Existing Instance toy.
#[local] Existing Instance ascii_only.
#[local] Existing Instance canonical_uuid.

Definition cfg : config := Config 15 7 5 30 5 10 false.
Definition secret : pystr := u "Correct-Horse-1".
Definition ann : User :=
  mk_user 7 (u "ann@example.com") (u "ann") (1%N :: secret) true true None None None 2
    (Some 100) None false false.
Definition d0 : database := Database [ann] [] [] [] [] [] [].
Definition no_keys : conn (MapRedis.store * MapStrings.store) := Conn (∅, ∅) [].
Definition dr (n : uuid) : draws := mk_draws n (n + 1) (n + 2) 3.
Definition dev : DeviceInfo := mk_device (u "10.0.0.1").

Definition in_at := 1700000000123456.
Definition logged : outcome error (User * TokenPair * uuid) *
    world database (conn (MapRedis.store * MapStrings.store)) :=
  run_request (login cfg in_at (dr 100) (u " Ann@Example.com ") secret dev None None)
    (World d0 no_keys).
Definition out : User * TokenPair * uuid :=
  match logged.1 with Ok o => o | Raise _ => (ann, mk_pair [] [] 0 0, 1%positive) end.

Lemma login_token_refreshes_witness :
  ∃ tokens (w2 : world database (conn (MapRedis.store * MapStrings.store))),
    run_request (refresh cfg (in_at + 60000000) (dr 200) (refresh_token out.1.2)) logged.2
    = (Ok tokens, w2).
Proof.
  refine (login_token_refreshes cfg in_at (dr 100) (u " Ann@Example.com ") secret dev None None
    (World d0 no_keys) logged.2 out (in_at + 60000000) (dr 200) _ _ _ _ _ _).
  - by_vm.
  - unfold keyed, d0. cbn. apply NoDup_singleton.
  - by vm_compute.
  - by vm_compute.
  - by vm_compute.
  - by_vm.
Defined.
End examples.
End Auth.
