(* ===== verification/AuthRequests.v ===== *)
(** Accounts over the life of many requests.

    [Auth.v] models one call of the service of [src/backend/app/domains/auth].
    This file runs the calls as requests, one after another or interleaved:
    how many passwords an account can be tried with, what becomes of a refresh
    token when requests race for it, and what a changed password, a used
    recovery code and a password-reset link leave behind. *)

From S2P Require Import Prelude Table Session PyStr Redis Auth.

Module AuthRequests.
Import Auth.

Section requests.
Context {R T : Type} {PU : PyUnicode} {PI : PyUuid} {CR : Crypto}
  {RR : Redis R} {RD : RedisDelete R} {RS : RedisStrings T}.
Variable cfg : config.

Abbreviation state := (world (txn database) (conn (R * T))).
Abbreviation system := (world database (conn (R * T))).

(** ** Trying passwords *)

(** One [POST /auth/login]. *)
Record attempt := Attempt {
  at_time : datetime; at_draws : draws; at_email : pystr; at_password : pystr;
  at_device : DeviceInfo; at_mfa : option pystr; at_new : option pystr }.

Definition post_login (q : attempt) : M system error (User * TokenPair * uuid) :=
  run_request (login (R:=R) (T:=T) cfg (at_time q) (at_draws q) (at_email q) (at_password q)
    (at_device q) (at_mfa q) (at_new q)).
Fixpoint post_logins (qs : list attempt) (w : system) : system :=
  match qs with
  | [] => w
  | q :: qs => post_logins qs (post_login q w).2
  end.

(** The passwords checked against account [k] and found wrong. *)
Definition guess_on (k : uuid) (a : LoginAttempt) : bool :=
  bool_decide (attempt_user a = Some k ∧ reason a = Some invalid_password).
Definition guesses (k : uuid) (d : database) : Z := rowcount (guess_on k) (login_attempts d).

(** The attempt either names another account or has a wrong password. *)
Definition wrong_for (x : User) (q : attempt) : Prop :=
  lower (lower (strip (at_email q))) = email x →
  verify_password_safe (at_password q) (password_hash x) = false.

(** What the requests about other accounts leave of account [k]. *)
Definition untouched (k : uuid) (d d' : database) : Prop :=
  by_id k (users d') = by_id k (users d)
  ∧ map user_id (users d') = map user_id (users d) ∧ guesses k d' = guesses k d.

Lemma untouched_refl k d : untouched k d d.
Proof. done. Qed.

Lemma preserves_untouched_rows k d f :
  (∀ d1, untouched k d1 (f d1)) →
  preserves (holds (untouched k d)) (on_rows (R:=R) (T:=T) f).
Proof.
  intros Hf. unfold on_rows. apply holds_on_live, preserves_modify.
  intros d1 (H1 & H2 & H3). destruct (Hf d1) as (H4 & H5 & H6).
  repeat split; congruence.
Qed.
Lemma preserves_read I {A} (f : database → A) : preserves (holds I) (read (R:=R) (T:=T) f).
Proof. unfold read. eauto with pres. Qed.
Lemma preserves_counters I {A} (f : R → R * A) : preserves (holds I) (on_counters (T:=T) f).
Proof. unfold on_counters. eauto with pres. Qed.
Lemma preserves_tokens I {A} (f : T → T * A) : preserves (holds I) (on_tokens (R:=R) f).
Proof. unfold on_tokens. eauto with pres. Qed.

(** *** Frames: a relation to [I] that every step but some keeps *)
Section frame.
Variable I : database → Prop.

Lemma keeps_rows f : (∀ d, I d → I (f d)) → preserves (holds I) (on_rows (R:=R) (T:=T) f).
Proof. intros Hf. unfold on_rows. by apply holds_on_live, preserves_modify. Qed.
Lemma keeps_security now e i ok :
  preserves (holds I) (security_record_login_attempt (R:=R) (T:=T) cfg now e i ok).
Proof.
  unfold security_record_login_attempt; cbv zeta.
  destruct ok; [apply preserves_counters|].
  apply preserves_bind; [apply preserves_counters|]. intros n.
  apply preserves_if; [apply preserves_counters|apply preserves_ret].
Qed.
Lemma keeps_rate_limit now e i : preserves (holds I) (check_rate_limit (R:=R) (T:=T) cfg now e i).
Proof.
  unfold check_rate_limit; cbv zeta. apply preserves_bind; [apply preserves_counters|].
  intros [n|]; [|apply preserves_ret]. apply preserves_if; [|apply preserves_ret].
  apply preserves_bind; [apply preserves_counters|]. intros; apply preserves_raise.
Qed.

(** The attempts a call may record for account [x]. *)
Variable allowed : LoginAttempt → Prop.
Hypothesis keeps_attempt : ∀ a d, allowed a → I d → I (add_attempt a d).

Lemma keeps_record_attempt now k e dev ok why :
  allowed (mk_attempt k e (ip_address dev) ok why) →
  preserves (holds I) (record_attempt (R:=R) (T:=T) cfg now k e dev ok why).
Proof.
  intros Ha. unfold record_attempt. apply preserves_bind.
  - unfold record_login_attempt. apply preserves_bind; [|intros; apply holds_commit].
    apply keeps_rows. intros d. by apply (keeps_attempt _ d Ha).
  - intros _. apply preserves_if; [apply preserves_ret|apply keeps_security].
Qed.
Lemma keeps_refuse {A} now k e dev why err :
  allowed (mk_attempt k e (ip_address dev) false (Some why)) →
  preserves (holds I) (refuse (R:=R) (T:=T) cfg (A:=A) now k e dev why err).
Proof.
  intros Ha. unfold refuse. apply preserves_bind; [by apply keeps_record_attempt|].
  intros _. apply preserves_raise.
Qed.

(** The rows of the second factor and of the password history. *)
Hypothesis keeps_credentials : ∀ f d, I d → I (set_credentials f d).
Hypothesis keeps_codes : ∀ f d, I d → I (set_codes f d).
Hypothesis keeps_history : ∀ f d, I d → I (set_history f d).

Lemma keeps_mfa now k code :
  preserves (holds I) (verify_mfa_or_recovery_code (R:=R) (T:=T) now k code).
Proof.
  unfold verify_mfa_or_recovery_code. apply preserves_bind; [apply preserves_read|]. intros o.
  apply preserves_bind.
  - destruct o as [c|]; [|apply preserves_ret].
    apply preserves_bind; [apply preserves_of_option|]. intros secret.
    apply preserves_if; [|apply preserves_ret].
    apply preserves_bind; [apply keeps_rows; auto|]. intros; apply preserves_ret.
  - intros b. apply preserves_if; [apply preserves_ret|].
    apply preserves_bind; [apply preserves_read|]. intros [c|]; [|apply preserves_ret].
    apply preserves_bind; [apply keeps_rows; auto|]. intros; apply preserves_ret.
Qed.

Variable x : User.
Hypothesis keeps_row : ∀ f d, (∀ y, user_id (f y) = user_id y) → I d →
  I (set_users (set_row f (user_id x)) d).
Hypothesis allowed_here : ∀ e ip ok why, allowed (mk_attempt (Some (user_id x)) e ip ok why).

Lemma keeps_set_password now h : preserves (holds I) (set_password (R:=R) (T:=T) now h x).
Proof.
  unfold set_password, update_user. apply preserves_bind.
  - apply preserves_bind; [apply keeps_rows; intros; by apply keeps_row|].
    intros; apply preserves_ret.
  - intros y. apply preserves_bind; [apply keeps_rows; auto|]. intros; apply preserves_ret.
Qed.

Lemma keeps_hash salt p f : preserves (holds I) (password_manager_hash (R:=R) (T:=T) salt p f).
Proof.
  unfold password_manager_hash. destruct (validate_strength p);
    [apply preserves_raise|apply preserves_of_option].
Qed.

Lemma keeps_second_factor now e dev m :
  preserves (holds I) (login_second_factor (R:=R) (T:=T) cfg now e dev m x).
Proof.
  unfold login_second_factor. apply preserves_if; [|apply preserves_ret].
  destruct (given m); [|by apply keeps_refuse].
  apply preserves_bind; [apply keeps_mfa|]. intros b.
  apply preserves_if; [apply preserves_ret|by apply keeps_refuse].
Qed.

Lemma keeps_replace_password now salt e dev n :
  preserves (holds I) (login_replace_password (R:=R) (T:=T) cfg now salt e dev n x).
Proof.
  unfold login_replace_password. apply preserves_if; [|apply preserves_ret].
  destruct (given n) as [p|]; [|by apply keeps_refuse].
  apply preserves_bind; [apply preserves_raise_if|]. intros _.
  unfold reject_recent_passwords. apply preserves_bind.
  { apply preserves_bind; [apply preserves_read|]. intros; apply preserves_raise_if. }
  intros _. apply preserves_bind; [apply keeps_hash|]. intros h. apply keeps_set_password.
Qed.

Hypothesis keeps_sessions : ∀ f d, I d → I (set_sessions f d).

Lemma keeps_open_session now dr addr dev y :
  user_id y = user_id x → preserves (holds I) (open_session (R:=R) (T:=T) cfg now dr addr dev y).
Proof.
  intros Hy. unfold open_session, update_user. apply preserves_bind_val with (λ z, user_id z = user_id x).
  { apply preserves_bind; [|intros; apply preserves_ret].
    apply keeps_rows. intros. rewrite Hy. by apply keeps_row. }
  { by intros s a s' [= <- <-]. }
  intros z Hz. apply preserves_bind.
  { unfold create_token_pair, create_access_token, create_refresh_jwt, encode.
    repeat first [apply preserves_bind; [|intros ?] | apply preserves_raise_if | apply preserves_ret]. }
  intros tokens. apply preserves_bind.
  { unfold create_refresh_token, unique_or_raise. apply preserves_bind; [apply preserves_read|].
    intros b. apply preserves_bind.
    - apply preserves_if; [|apply preserves_ret].
      apply preserves_bind; [apply holds_rollback|]. intros; apply preserves_raise.
    - intros _. apply preserves_bind; [by apply keeps_rows; auto|]. intros; apply preserves_ret. }
  intros row. apply preserves_bind; [apply keeps_security|]. intros _.
  apply preserves_bind; [|intros; apply preserves_ret].
  apply keeps_record_attempt. rewrite Hz. apply allowed_here.
Qed.

Lemma keeps_login_account now dr addr password dev m n :
  preserves (holds I) (login_account (R:=R) (T:=T) cfg now dr addr password dev m n x).
Proof.
  unfold login_account.
  apply preserves_bind; [apply preserves_if; [apply preserves_ret|by apply keeps_refuse]|].
  intros _. apply preserves_bind.
  { unfold check_account_lock. destruct (account_locked _ _); [apply preserves_raise|apply preserves_ret]. }
  intros _. apply preserves_bind.
  { apply preserves_if; [apply preserves_ret|]. apply preserves_bind; [|by intros; apply keeps_refuse].
    unfold register_failed_attempt, update_user. apply preserves_bind; [|intros; apply preserves_ret].
    apply keeps_rows. intros. by apply keeps_row. }
  intros _. apply preserves_bind; [apply preserves_if; [apply preserves_ret|by apply keeps_refuse]|].
  intros _. apply preserves_bind; [apply keeps_second_factor|]. intros _.
  apply preserves_bind_val with (λ y, user_id y = user_id x).
  - apply keeps_replace_password.
  - intros w y w' Hrun. by apply replace_password_Ok in Hrun as (_ & _ & ? & _).
  - intros y Hy. by apply keeps_open_session.
Qed.
End frame.

(** *** One request *)
Lemma guesses_insert k a d :
  guesses k (add_attempt a d) = guesses k d + (if guess_on k a then 1 else 0).
Proof.
  unfold guesses, add_attempt. cbn. unfold insert_row. rewrite rowcount_app. f_equal.
  unfold rowcount, select. cbn. unfold guess_on. cbn [attempt_user reason]. by case_match.
Qed.

Lemma untouched_attempt k d0 d a :
  guess_on k a = false → untouched k d0 d → untouched k d0 (add_attempt a d).
Proof.
  intros Ha (H1 & H2 & H3). repeat split; [done..|]. rewrite guesses_insert, Ha, H3. lia.
Qed.
Lemma untouched_row k j d0 d f :
  j ≠ k → (∀ y, user_id (f y) = user_id y) → untouched k d0 d →
  untouched k d0 (set_users (set_row f j) d).
Proof.
  intros Hj Hf (H1 & H2 & H3). repeat split; cbn; [| |done].
  - rewrite by_id_set_row by done. by rewrite decide_False.
  - unfold set_row. by rewrite map_update.
Qed.

(** A request about another account. *)
Lemma others_untouched now dr addr password dev m n x k d :
  user_id x ≠ k →
  preserves (holds (untouched k d)) (login_account (R:=R) (T:=T) cfg now dr addr password dev m n x).
Proof.
  intros Hx. apply keeps_login_account with (λ a, attempt_user a = Some (user_id x)); try done.
  - intros a d1 Ha. apply untouched_attempt. unfold guess_on. rewrite Ha.
    apply bool_decide_eq_false. intros [[= ?] _]. done.
  - intros f d1 Hf. by apply untouched_row.
Qed.

(** A wrong password on account [k]: what is left of it. *)
Inductive tried (now : datetime) (k : uuid) (x : User) (d d' : database) : Prop :=
| tried_not : untouched k d d' → tried now k x d d'
| tried_wrong f l :
    account_locked now (locked_until x) = None →
    f = failed_login_attempts x + 1 →
    l = (if max_login_attempts cfg <=? f
         then Some (now + minutes (account_lockout_minutes cfg)) else locked_until x) →
    by_id k (users d') = Some (with_failures f l x) →
    map user_id (users d') = map user_id (users d) →
    guesses k d' = guesses k d + 1 → tried now k x d d'.

Lemma refuse_raises {A} now k e dev why err (w : state) :
  let d := add_attempt (mk_attempt k e (ip_address dev) false (Some why)) (live (db w)) in
  ∃ e' w', refuse (A:=A) cfg now k e dev why err w = (Raise e', w') ∧ db w' = Txn d d.
Proof.
  intros d. unfold refuse, record_attempt. rewrite bind_assoc.
  erewrite bind_step; [|reflexivity].
  pose proof (security_record_db cfg now e (ip_address dev) false
    (World (Txn d d) (ext w) : state)) as Hdb.
  unfold mbind, M_bind. change (World _ _) with (World (Txn d d) (ext w) : state).
  destruct (security_record_login_attempt _ _ _ _ _ _) as [[[]|e'] w1]; cbn in *; eauto.
Qed.

Lemma refuse_saved {A} now k e dev why err (w : state) :
  ∃ e' w', refuse (A:=A) cfg now k e dev why err w = (Raise e', w')
  ∧ saved (db w') = add_attempt (mk_attempt k e (ip_address dev) false (Some why)) (live (db w)).
Proof.
  destruct (refuse_raises (A:=A) now k e dev why err w) as (e' & w' & Hr & Hdb).
  exists e', w'. by rewrite Hdb.
Qed.

Lemma login_account_tried now dr addr password dev m n x d c :
  verify_password_safe password (password_hash x) = false →
  by_id (user_id x) (users d) = Some x →
  tried now (user_id x) x d
    (db (run_request (login_account (R:=R) (T:=T) cfg now dr addr password dev m n x)
      (World d c)).2).
Proof.
  intros Hv Hx. unfold run_request, login_account. cbn [db ext].
  rewrite if_ret_bind. destruct (user_active x).
  2:{ edestruct (refuse_saved (A:=unit)) as (e & w1 & Hr & Hs).
      erewrite bind_stop by exact Hr. cbn. rewrite Hs.
      apply tried_not, untouched_attempt; [|done]. apply bool_decide_eq_false. by intros []. }
  rewrite check_lock_bind. destruct (account_locked now (locked_until x)) eqn:Hl.
  { by apply tried_not. }
  rewrite if_ret_bind, Hv. unfold register_failed_attempt. rewrite bind_assoc, update_bind.
  edestruct (refuse_saved (A:=unit)) as (e & w1 & Hr & Hs).
  erewrite bind_stop by exact Hr. cbn [snd db]. rewrite Hs.
  eapply tried_wrong; [done|reflexivity|reflexivity|..].
  - cbn. rewrite by_id_set_row by done. by rewrite decide_True, Hx by done.
  - cbn. unfold set_row. by rewrite map_update.
  - rewrite guesses_insert. unfold guess_on. cbn. by rewrite bool_decide_true.
Qed.

Lemma post_login_tried q k x (w : system) :
  keyed (users (db w)) → by_id k (users (db w)) = Some x → wrong_for x q →
  tried (at_time q) k x (db w) (db (post_login q w).2).
Proof.
  intros Hkey Hx Hwrong. destruct w as [d c]. cbn [db] in *.
  unfold post_login, run_request, login; cbv zeta. cbn [db ext].
  set (addr := lower (strip (at_email q))) in *.
  pose proof (check_rate_limit_db cfg (at_time q) addr (ip_address (at_device q))
    (World (Txn d d) c : state)) as Hdb.
  destruct (check_rate_limit _ _ _ _ _) as [[[]|e] [[d1 d1'] c1]] eqn:Hlim;
    cbn in Hdb; injection Hdb as -> ->.
  2:{ erewrite bind_stop by exact Hlim. by apply tried_not. }
  erewrite bind_step by exact Hlim. rewrite read_bind. cbn [db live].
  destruct (get_user_by_email addr d) as [y|] eqn:Hy.
  2:{ edestruct (refuse_saved (A:=User * TokenPair * uuid)) as (e & w1 & Hr & Hs).
      rewrite Hr. cbn. rewrite Hs. apply tried_not, untouched_attempt; [|done].
      apply bool_decide_eq_false. by intros []. }
  apply select_one_Some in Hy as [Hin He]. apply bool_decide_eq_true in He.
  destruct (decide (user_id y = k)) as [Hk|Hk].
  - assert (y = x) as -> by (apply (by_id_unique k) in Hin; [congruence|done|done]).
    subst k. apply (login_account_tried _ _ _ _ _ _ _ x d c1); [|done].
    apply Hwrong. by rewrite He.
  - apply tried_not.
    apply (run_request_holds (untouched k d)
      (login_account cfg (at_time q) (at_draws q) addr (at_password q) (at_device q) (at_mfa q) (at_new q) y)
      (World d c1)); [|done].
    by apply others_untouched.
Qed.

(** *** Many requests *)
Definition lockout : Z := minutes (account_lockout_minutes cfg).

(** Where the account stands at [now], [g] wrong guesses after it had [f0]
    failures at [t0]. *)
Record guessed (k : uuid) (x : User) (t0 now g : Z) (d : database) (y : User) : Prop := {
  gd_keyed : keyed (users d);
  gd_row : by_id k (users d) = Some y;
  gd_email : email y = email x;
  gd_hash : password_hash y = password_hash x;
  gd_failures : failed_login_attempts y = failed_login_attempts x + g;
  gd_locked : max_login_attempts cfg ≤ failed_login_attempts y →
    ∃ tl, locked_until y = Some (tl + lockout) ∧ tl ≤ now
          ∧ (g - (max_login_attempts cfg - failed_login_attempts x)) * lockout ≤ tl - t0;
}.

Lemma guessed_step k x t0 now t g y d d' :
  t0 ≤ now ≤ t → 0 < lockout → failed_login_attempts x < max_login_attempts cfg →
  guessed k x t0 now g d y → tried t k y d d' →
  ∃ y', guessed k x t0 t (g + (guesses k d' - guesses k d)) d' y'.
Proof.
  intros Ht HL Hf0 [Hkey Hrow He Hh Hf Hl] [(Hr & Hm & Hg)|f l Hunl Hfeq Hleq Hr Hm Hg].
  - exists y. rewrite Hg, Z.sub_diag, Z.add_0_r. split; try done.
    + change (NoDup (map user_id (users d'))). by rewrite Hm.
    + congruence.
    + intros Hmax. destruct (Hl Hmax) as (tl & ? & ? & ?). exists tl. repeat split; lia || done.
  - exists (with_failures f l y). rewrite Hg. replace (guesses k d + 1 - guesses k d) with 1 by lia.
    split; try done.
    + change (NoDup (map user_id (users d'))). by rewrite Hm.
    + cbn. lia.
    + cbn. intros Hmax. rewrite Hleq, (proj2 (Z.leb_le _ _)) by done. exists t.
      split; [done|]. split; [lia|].
      destruct (Z.le_gt_cases (max_login_attempts cfg) (failed_login_attempts y)) as [Hy|Hy].
      * destruct (Hl Hy) as (tl & Htl & Hle & Hb). rewrite Htl in Hunl. cbn in Hunl.
        destruct (Z.ltb_spec t (tl + lockout)); [done|]. lia.
      * assert (g + 1 - (max_login_attempts cfg - failed_login_attempts x) ≤ 0) by lia. nia.
Qed.

Lemma guessed_run qs : ∀ k x t0 t1 now g (w : system) y,
  t0 ≤ now ≤ t1 → 0 < lockout → failed_login_attempts x < max_login_attempts cfg →
  guessed k x t0 now g (db w) y → nondecreasing now t1 (map at_time qs) →
  Forall (wrong_for x) qs →
  (g + (guesses k (db (post_logins qs w)) - guesses k (db w))
     - (max_login_attempts cfg - failed_login_attempts x)) * lockout ≤ t1 - t0.
Proof.
  induction qs as [|q qs IH]; intros k x t0 t1 now g w y Ht HL Hf0 Hg Hnd Hwrong.
  - rewrite Z.sub_diag, Z.add_0_r. cbn.
    destruct (Z.le_gt_cases (max_login_attempts cfg) (failed_login_attempts y)) as [Hy|Hy].
    + destruct (gd_locked _ _ _ _ _ _ _ Hg Hy) as (tl & _ & ? & ?). lia.
    + pose proof (gd_failures _ _ _ _ _ _ _ Hg). nia.
  - inversion Hnd as [|t ts Htq Hnd']; subst. apply Forall_cons in Hwrong as [Hq Hqs].
    pose proof (post_login_tried q k y w (gd_keyed _ _ _ _ _ _ _ Hg) (gd_row _ _ _ _ _ _ _ Hg))
      as Htry.
    destruct (guessed_step k x t0 now (at_time q) g y (db w) (db (post_login q w).2)) as [y' Hy'];
      [lia|done..| |].
    { apply Htry. intros Ha. rewrite (gd_hash _ _ _ _ _ _ _ Hg). apply Hq.
      by rewrite Ha, (gd_email _ _ _ _ _ _ _ Hg). }
    pose proof (IH k x t0 t1 (at_time q) _ (post_login q w).2 y' ltac:(lia) HL Hf0 Hy' Hnd' Hqs).
    cbn [post_logins]. lia.
Qed.

(** C23: however log-in requests are spread over addresses, accounts, devices
    and Redis outages, as long as none on the account has the right password,
    the passwords of the account that are checked and found wrong between [t0] and [t1] number at most what was left of
    [max_login_attempts], plus one for every full lock-out period that fits in
    between.  Unlike the attempts on a one-time code, each is committed before
    its request fails. *)
Theorem lockout_bounds_guessing qs k x t0 t1 (w : system) :
  keyed (users (db w)) → by_id k (users (db w)) = Some x →
  failed_login_attempts x < max_login_attempts cfg → 0 < lockout → t0 ≤ t1 →
  nondecreasing t0 t1 (map at_time qs) → Forall (wrong_for x) qs →
  (guesses k (db (post_logins qs w)) - guesses k (db w)
     - (max_login_attempts cfg - failed_login_attempts x)) * lockout ≤ t1 - t0.
Proof.
  intros Hkey Hx Hf HL Ht Hnd Hwrong.
  pose proof (guessed_run qs k x t0 t1 t0 0 w x ltac:(lia) HL Hf) as Hrun.
  rewrite Z.add_0_l in Hrun. apply Hrun; [|done..].
  split; try done; [lia|]. intros. lia.
Qed.

(** ** Refresh tokens, when requests race for them

    [refresh] reads the session and later issues one conditional [UPDATE];
    other requests may run in between.  Log-ins and revocations are single
    steps.  The identifiers [uuid4] draws are never drawn twice. *)
Record racing := Racing {
  rows : database;
  inflight : gmap nat (uuid * pystr * pystr);
  drawn : gset pystr }.

Inductive event :=
| Quiet
| Granted (session : uuid) (new : pystr)
| Exchanged (session : uuid) (old new : pystr)
| Revoked.

Definition revocation (m : M state error unit) : Prop :=
  (∃ k, m = revoke_session k)
  ∨ (∃ j, m = revoke_refresh_token j)
  ∨ (∃ k, m = (_ ← revoke_all_sessions k; mret tt))
  ∨ (∃ now salt k p n, m = change_password cfg now salt k p n).

Inductive race : racing → event → racing → Prop :=
| race_login s q c out d c' :
    by_id (new_session_id (at_draws q)) (sessions (rows s)) = None →
    uuid_str (refresh_id (at_draws q)) ∉ drawn s →
    post_login q (World (rows s) c) = (Ok out, World d c') →
    race s (Granted (new_session_id (at_draws q)) (uuid_str (refresh_id (at_draws q))))
      (Racing d (inflight s) ({[uuid_str (refresh_id (at_draws q))]} ∪ drawn s))
| race_refused s q c e d c' :
    post_login q (World (rows s) c) = (Raise e, World d c') →
    race s Quiet (Racing d (inflight s) (drawn s))
| race_read s i now token dr r x cl :
    inflight s !! i = None → uuid_str (refresh_id dr) ∉ drawn s →
    refresh_read now token (rows s) = Ok (r, x, cl) →
    race s Quiet (Racing (rows s)
      (<[i := (session_id r, jti cl, uuid_str (refresh_id dr))]> (inflight s))
      ({[uuid_str (refresh_id dr)]} ∪ drawn s))
| race_write s i now k old new :
    inflight s !! i = Some (k, old, new) →
    race s (if (rotate_refresh_token now k old new (rows s)).1 then Exchanged k old new else Quiet)
      (Racing (rotate_refresh_token now k old new (rows s)).2 (delete i (inflight s)) (drawn s))
| race_abort s i : race s Quiet (Racing (rows s) (delete i (inflight s)) (drawn s))
| race_revoke s m c o d c' :
    revocation m → run_request m (World (rows s) c) = (o, World d c') →
    race s Revoked (Racing d (inflight s) (drawn s)).

Inductive races : racing → list event → racing → Prop :=
| races_nil s : races s [] s
| races_cons s e s1 es s2 : race s e s1 → races s1 es s2 → races s (e :: es) s2.

(** *** What is promised: each open session has one current token, and an
    exchange replaces the current one by one never seen before. *)
Record register := Register { current : gmap uuid pystr; seen : gset pystr }.

Inductive promised : register → event → register → Prop :=
| promised_quiet a : promised a Quiet a
| promised_grant a k j :
    current a !! k = None → j ∉ seen a →
    promised a (Granted k j) (Register (<[k := j]> (current a)) ({[j]} ∪ seen a))
| promised_exchange a k old new :
    current a !! k = Some old → new ∉ seen a →
    promised a (Exchanged k old new) (Register (<[k := new]> (current a)) ({[new]} ∪ seen a))
| promised_revoke a m : m ⊆ current a → promised a Revoked (Register m (seen a)).

Inductive promises : register → list event → register → Prop :=
| promises_nil a : promises a [] a
| promises_cons a e a1 es a2 : promised a e a1 → promises a1 es a2 → promises a (e :: es) a2.

(** *** How the rows represent it *)
Definition live_jti (d : database) (k : uuid) : option pystr :=
  s ← by_id k (sessions d); if session_active s then Some (refresh_token_jti s) else None.

Record represents (s : racing) (a : register) : Prop := {
  rep_keyed : keyed (sessions (rows s));
  rep_current : ∀ k, current a !! k = live_jti (rows s) k;
  rep_seen : seen a ⊆ drawn s;
  rep_inflight : ∀ i k old new, inflight s !! i = Some (k, old, new) → new ∈ drawn s ∧ new ∉ seen a;
  rep_distinct : ∀ i j k1 o1 k2 o2 new,
    inflight s !! i = Some (k1, o1, new) → inflight s !! j = Some (k2, o2, new) → i = j;
}.

(** The tokens exchanged, in order. *)
Definition exchanged (es : list event) : list pystr :=
  omap (λ e, match e with Exchanged _ old _ => Some old | _ => None end) es.

(** The token of a session is current for that session only. *)
Definition orderly (a : register) : Prop :=
  (∀ k j, current a !! k = Some j → j ∈ seen a)
  ∧ (∀ k1 k2 j, current a !! k1 = Some j → current a !! k2 = Some j → k1 = k2).

Lemma orderly_promised a e a' : promised a e a' → orderly a → orderly a'.
Proof.
  intros Hp [Hin Hinj]. destruct Hp as [a|a k j Hk Hj|a k old new Hk Hj|a m Hm]; [done|..|].
  1,2: split; cbn.
  1,3: intros k' j'; rewrite lookup_insert_Some; intros [[_ <-]|[_ H']]; set_solver.
  1,2: intros k1 k2 j'; rewrite !lookup_insert_Some;
    intros [[<- <-]|[? H1]] [[<- H2]|[? H2]]; try done; try (by eapply Hinj);
    [by apply Hin in H2|subst; by apply Hin in H1].
  split; cbn.
  - intros k j Hk. eapply Hin, lookup_weaken; eauto.
  - intros k1 k2 j H1 H2. eapply Hinj; eapply lookup_weaken; eauto.
Qed.

(** A token that is not current and was seen stays dead. *)
Lemma dead_token_stays a es a' j :
  promises a es a' → orderly a → j ∈ seen a → (∀ k, current a !! k ≠ Some j) →
  j ∉ exchanged es.
Proof.
  intros Hp. induction Hp as [a|a e a1 es a2 H1 Hp IH]; intros Ho Hs Hd; [by apply not_elem_of_nil|].
  pose proof (orderly_promised _ _ _ H1 Ho) as Ho1.
  assert (j ∈ seen a1 ∧ ∀ k, current a1 !! k ≠ Some j) as [Hs1 Hd1].
  { destruct H1 as [a|a k i Hk Hi|a k old new Hk Hi|a m Hm]; cbn; [done|..|].
    1,2: split; [set_solver|]; intros k'; rewrite lookup_insert_Some;
      intros [[_ ->]|[_ H']]; [done|by apply Hd in H'].
    split; [done|]. intros k Hk. eapply Hd, lookup_weaken; eauto. }
  specialize (IH Ho1 Hs1 Hd1). destruct H1 as [| |a k old new Hk Hi|]; cbn; try done.
  rewrite not_elem_of_cons. split; [|done]. intros ->. by apply (Hd k).
Qed.

Lemma promises_exchange_once a es a' :
  promises a es a' → orderly a → NoDup (exchanged es).
Proof.
  intros Hp. induction Hp as [a|a e a1 es a2 H1 Hp IH]; intros Ho; [by apply NoDup_nil|].
  pose proof (orderly_promised _ _ _ H1 Ho) as Ho1. specialize (IH Ho1).
  destruct H1 as [| |a k old new Hk Hi|]; cbn; try done.
  apply NoDup_cons. split; [|done]. eapply dead_token_stays; [exact Hp|done|..]; cbn.
  - apply elem_of_union_r. by apply (proj1 Ho k).
  - intros k'. rewrite lookup_insert_Some. intros [[_ Hn]|[Hne Hk']].
    + subst. apply Hi. by apply (proj1 Ho k).
    + apply Hne. by apply (proj2 Ho k k' old).
Qed.

(** *** What the requests do to the sessions *)
Lemma keeps_triple (I : database → Prop) {A} (m : M state error A) :
  preserves (holds I) m → triple (holds I) m (λ _, holds I) (λ w, I (saved (db w))).
Proof. intros Hm w Hw. specialize (Hm w Hw). destruct (m w) as [[a|e] w']; [done|by destruct Hm]. Qed.

Lemma open_session_raise now dr addr dev y (w : state) e w' :
  open_session cfg now dr addr dev y w = (Raise e, w') → saved (db w') = saved (db w).
Proof.
  unfold open_session. rewrite update_bind, token_pair_bind.
  destruct (signing_forbidden cfg); [by intros [= _ <-]|].
  unfold create_refresh_token. rewrite bind_assoc, read_bind.
  destruct (jti_taken _ _); [by intros [= _ <-]|]. cbn [unique_or_raise].
  rewrite bind_assoc, ret_bind, bind_assoc, rows_bind, ret_bind.
  set (w1 := wrote _ _). intros Hrun. apply bind_Raise in Hrun as [Hr|([] & w2 & _ & Hrun)].
  - pose proof (security_record_db cfg now addr (ip_address dev) true w1) as Hdb.
    rewrite Hr in Hdb. cbn in Hdb. by rewrite Hdb.
  - discriminate Hrun.
Qed.

Lemma keeps_then (I : database → Prop) {A B} (m : M state error A) (f : A → M state error B) Q :
  preserves (holds I) m → (∀ a, triple (holds I) (f a) Q (λ w, I (saved (db w)))) →
  triple (holds I) (m ≫= f) Q (λ w, I (saved (db w))).
Proof. intros Hm Hf. eapply triple_bind; [by apply keeps_triple|exact Hf]. Qed.

Section failed_login.
Variable ss : list AuthSession.
Let I : database → Prop := λ d, sessions d = ss.

Lemma failed_login_account now dr addr password dev m n x :
  triple (holds I) (login_account (R:=R) (T:=T) cfg now dr addr password dev m n x)
    (λ _ _, True) (λ w, I (saved (db w))).
Proof.
  assert (∀ a d, True → I d → I (add_attempt a d)) as Hatt by done.
  unfold login_account. eapply keeps_then.
  { apply preserves_if; [apply preserves_ret|by apply keeps_refuse with (λ _, True)]. }
  intros _. eapply keeps_then.
  { unfold check_account_lock.
    destruct (account_locked _ _); [apply preserves_raise|apply preserves_ret]. }
  intros _. eapply keeps_then.
  { apply preserves_if; [apply preserves_ret|].
    apply preserves_bind; [|by intros; apply keeps_refuse with (λ _, True)].
    unfold register_failed_attempt, update_user. apply preserves_bind; [|intros; apply preserves_ret].
    by apply keeps_rows. }
  intros _. eapply keeps_then.
  { apply preserves_if; [apply preserves_ret|by apply keeps_refuse with (λ _, True)]. }
  intros _. eapply keeps_then.
  { by apply keeps_second_factor with (λ _, True). }
  intros _. eapply keeps_then.
  { by apply keeps_replace_password with (λ _, True). }
  intros y w [Hl Hs]. destruct (open_session _ _ _ _ _ _ w) as [[a|e] w'] eqn:Hrun; [done|].
  apply open_session_raise in Hrun. unfold I in *. by rewrite Hrun.
Qed.

Lemma failed_login q :
  triple (holds I) (login (R:=R) (T:=T) cfg (at_time q) (at_draws q) (at_email q)
    (at_password q) (at_device q) (at_mfa q) (at_new q)) (λ _ _, True) (λ w, I (saved (db w))).
Proof.
  unfold login; cbv zeta. eapply keeps_then; [apply keeps_rate_limit|]. intros _.
  eapply keeps_then; [apply preserves_read|]. intros [x|].
  - apply failed_login_account.
  - eapply triple_post; [|done]. apply keeps_triple. by apply keeps_refuse with (λ _, True).
Qed.
End failed_login.

Lemma failed_login_sessions q (w : system) e w' :
  post_login q w = (Raise e, w') → sessions (db w') = sessions (db w).
Proof.
  unfold post_login, run_request.
  pose proof (failed_login (sessions (db w)) q (World (Txn (db w) (db w)) (ext w))
    (conj eq_refl eq_refl)) as Ht.
  destruct (login _ _ _ _ _ _ _ _ _) as [[a|e'] w1]; [done|]. by intros [= _ <-].
Qed.

Lemma completed_login_sessions q (w : system) out w' :
  post_login q w = (Ok out, w') → ∃ x,
    sessions (db w') = insert_row (opened cfg (at_time q) (at_draws q) (user_id x)) (sessions (db w)).
Proof.
  unfold post_login, run_request. destruct (login _ _ _ _ _ _ _ _ _) as [[a|e'] w1] eqn:Hrun; [|done].
  intros [= -> <-]. apply login_state in Hrun as (x & _ & _ & Hli). exists x. by destruct Hli.
Qed.

(** Sessions are only closed. *)
Definition closed_only (d d' : database) : Prop :=
  map session_id (sessions d') = map session_id (sessions d)
  ∧ ∀ k, live_jti d' k = live_jti d k ∨ live_jti d' k = None.

Lemma closed_only_same d d0 d1 :
  sessions d1 = sessions d0 → closed_only d d0 → closed_only d d1.
Proof. unfold closed_only, live_jti. by intros ->. Qed.
Lemma closed_deactivate d d0 k :
  closed_only d d0 → closed_only d (set_sessions (set_row deactivated k) d0).
Proof.
  intros [Hm Hl]. split; cbn.
  - unfold set_row. by rewrite map_update.
  - intros k'. specialize (Hl k'). unfold live_jti in *. cbn.
    rewrite by_id_set_row by done. case_decide as Hk; [|done]. subst k'.
    right. by destruct (by_id k (sessions d0)).
Qed.
Lemma closed_deactivate_all d d0 ss :
  closed_only d d0 →
  closed_only d (set_sessions (λ l, fold_left (λ l s, set_row deactivated (session_id s) l) ss l) d0).
Proof.
  revert d0. induction ss as [|s ss IH]; intros d0 Hd; [by destruct d0|].
  apply (IH (set_sessions (set_row deactivated (session_id s)) d0)). by apply closed_deactivate.
Qed.

Lemma keeps_revoke_all d k : preserves (holds (closed_only d)) (revoke_all_sessions (R:=R) (T:=T) k).
Proof.
  unfold revoke_all_sessions. apply preserves_bind; [apply preserves_read|]. intros ss.
  apply preserves_bind; [|intros; apply preserves_ret]. apply keeps_rows.
  intros d0. apply closed_deactivate_all.
Qed.

Lemma keeps_revocation d m : revocation m → preserves (holds (closed_only d)) m.
Proof.
  intros [[k ->]|[[j ->]|[[k ->]|(now & salt & k & p & n & ->)]]].
  - unfold revoke_session. apply preserves_bind; [apply preserves_read|].
    intros [s|]; [|apply preserves_ret]. apply keeps_rows. intros; by apply closed_deactivate.
  - unfold revoke_refresh_token. apply preserves_bind; [apply preserves_read|].
    intros [s|]; [|apply preserves_ret]. apply keeps_rows. intros; by apply closed_deactivate.
  - apply preserves_bind; [apply keeps_revoke_all|]. intros; apply preserves_ret.
  - assert (∀ f d0, sessions (f d0) = sessions d0 → closed_only d d0 → closed_only d (f d0)) as Hsame
      by (intros; eapply closed_only_same; eauto).
    unfold change_password. apply preserves_bind; [apply preserves_read|]. intros o.
    apply preserves_bind; [apply preserves_of_option|]. intros x.
    apply preserves_bind; [apply preserves_raise_if|]. intros _.
    apply preserves_bind; [apply preserves_raise_if|]. intros _.
    apply preserves_bind.
    { unfold reject_recent_passwords. apply preserves_bind; [apply preserves_read|].
      intros; apply preserves_raise_if. }
    intros _. apply preserves_bind; [apply keeps_hash|]. intros h.
    apply preserves_bind; [by apply keeps_set_password; auto|]. intros _.
    apply preserves_bind; [apply keeps_revoke_all|]. intros; apply preserves_ret.
Qed.

(** The conditional [UPDATE], seen through the live tokens. *)
Lemma rotatable_guarded k old :
  rotatable k old = (λ s, has_id k s
    && (bool_decide (refresh_token_jti s = old) && session_active s)).
Proof. reflexivity. Qed.

Lemma rotate_wins now k old new d :
  keyed (sessions d) →
  (rotate_refresh_token now k old new d).1 = true ↔ live_jti d k = Some old.
Proof.
  intros Hkey. unfold rotate_refresh_token, live_jti. cbn [fst].
  rewrite Z.ltb_lt, rotatable_guarded, rowcount_guarded by done.
  destruct (by_id k (sessions d)) as [s|]; cbn; [|split; [by intros (? & ? & ?)|done]].
  split.
  - intros (? & [= <-] & [Hj Ha]%andb_true_iff). apply bool_decide_eq_true in Hj.
    by rewrite Ha, Hj.
  - destruct (session_active s) eqn:Ha; [|done]. intros [= <-]. exists s.
    by rewrite Ha, bool_decide_true.
Qed.

Lemma rotate_live now k old new d k' :
  live_jti (rotate_refresh_token now k old new d).2 k' =
    if decide (k = k' ∧ live_jti d k = Some old) then Some new else live_jti d k'.
Proof.
  unfold rotate_refresh_token, live_jti. cbn [snd]. cbn. rewrite rotatable_guarded, update_guarded.
  rewrite by_id_set_row by (intros s; by case_match).
  destruct (decide (k = k')) as [<-|Hk].
  2:{ rewrite decide_False; [done|by intros [? _]]. }
  destruct (by_id k (sessions d)) as [s|]; cbn.
  2:{ rewrite decide_False; [done|by intros [_ ?]]. }
  destruct (session_active s) eqn:Ha.
  - destruct (decide (refresh_token_jti s = old)) as [Hj|Hj].
    + rewrite bool_decide_true by done. cbn. rewrite Ha, decide_True by (split; congruence). done.
    + rewrite bool_decide_false by done. cbn. rewrite Ha. rewrite decide_False; [done|].
      intros [_ [=]]. done.
  - rewrite andb_false_r, Ha, decide_False; [done|by intros [_ ?]].
Qed.

Lemma rotate_keyed now k old new d :
  keyed (sessions d) → keyed (sessions (rotate_refresh_token now k old new d).2).
Proof.
  unfold rotate_refresh_token. cbn. rewrite rotatable_guarded, update_guarded.
  intros. apply keyed_set_row; [intros s; by case_match|done].
Qed.

(** *** The simulation *)
Lemma live_jti_insert s d k :
  by_id (session_id s) (sessions d) = None → session_active s = true →
  ∀ d', sessions d' = insert_row s (sessions d) →
  live_jti d' k = if decide (session_id s = k) then Some (refresh_token_jti s) else live_jti d k.
Proof.
  intros Hno Ha d' Hd'. unfold live_jti. rewrite Hd', by_id_insert.
  change (row_id s) with (session_id s).
  destruct (decide (session_id s = k)) as [<-|Hk].
  - rewrite Hno. cbn. by rewrite Ha.
  - by destruct (by_id k (sessions d)).
Qed.

Lemma simulates_login s a x now dr d :
  represents s a → by_id (new_session_id dr) (sessions (rows s)) = None →
  uuid_str (refresh_id dr) ∉ drawn s →
  sessions d = insert_row (opened cfg now dr (user_id x)) (sessions (rows s)) →
  let j := uuid_str (refresh_id dr) in
  promised a (Granted (new_session_id dr) j)
    (Register (<[new_session_id dr := j]> (current a)) ({[j]} ∪ seen a))
  ∧ represents (Racing d (inflight s) ({[j]} ∪ drawn s))
      (Register (<[new_session_id dr := j]> (current a)) ({[j]} ∪ seen a)).
Proof.
  intros [Hkey Hcur Hseen Hfl Hdist] Hid Hj Hd j. split.
  - apply promised_grant; [|set_solver].
    rewrite Hcur. unfold live_jti. by rewrite Hid.
  - split; cbn; [| | | |done].
    + rewrite Hd. by apply keyed_insert.
    + intros k. rewrite (live_jti_insert (opened cfg now dr (user_id x)) (rows s) k Hid eq_refl d Hd). cbn.
      destruct (decide (new_session_id dr = k)) as [<-|Hk].
      * by rewrite lookup_insert_eq.
      * by rewrite lookup_insert_ne.
    + set_solver.
    + intros i k old new Hi. destruct (Hfl i k old new Hi) as [H1 H2]. set_solver.
Qed.

Lemma simulates_write s a now i k old new :
  represents s a → inflight s !! i = Some (k, old, new) →
  ∃ a', promised a (if (rotate_refresh_token now k old new (rows s)).1
                    then Exchanged k old new else Quiet) a'
    ∧ represents (Racing (rotate_refresh_token now k old new (rows s)).2 (delete i (inflight s))
        (drawn s)) a'.
Proof.
  intros [Hkey Hcur Hseen Hfl Hdist] Hi. destruct (Hfl i k old new Hi) as [Hd Hs].
  pose proof (rotate_wins now k old new (rows s) Hkey) as Hwins.
  assert (∀ i' k' old' new', delete i (inflight s) !! i' = Some (k', old', new') →
    i' ≠ i ∧ inflight s !! i' = Some (k', old', new')) as Hdel.
  { intros i' k' old' new' H'. apply lookup_delete_Some in H' as []. by split. }
  destruct (rotate_refresh_token now k old new (rows s)).1 eqn:Hb.
  - exists (Register (<[k := new]> (current a)) ({[new]} ∪ seen a)).
    assert (live_jti (rows s) k = Some old) as Hl by by apply Hwins.
    split; [apply promised_exchange; [by rewrite Hcur|done]|]. split; cbn [rows inflight drawn current seen].
    + by apply rotate_keyed.
    + intros k'. rewrite rotate_live, Hl. destruct (decide (k = k')) as [<-|Hk].
      * rewrite lookup_insert_eq, decide_True; done.
      * rewrite lookup_insert_ne, decide_False by (done || by intros []). by rewrite Hcur.
    + set_solver.
    + intros i' k' old' new' H'. apply Hdel in H' as [Hne H'].
      destruct (Hfl i' k' old' new' H') as [H1 H2]. split; [done|].
      intros [->%elem_of_singleton|?]%elem_of_union; [|done].
      apply Hne. by apply (Hdist i' i k' old' k old new).
    + intros i1 i2 k1 o1 k2 o2 n H1 H2. apply Hdel in H1 as [_ H1]. apply Hdel in H2 as [_ H2].
      by eapply Hdist.
  - exists a. split; [apply promised_quiet|]. split; cbn [rows inflight drawn current seen].
    + by apply rotate_keyed.
    + intros k'. rewrite rotate_live, decide_False; [done|]. intros [_ Hl]. by apply Hwins in Hl.
    + done.
    + intros i' k' old' new' H'. apply Hdel in H' as [_ H']. by eapply Hfl.
    + intros i1 i2 k1 o1 k2 o2 n H1 H2. apply Hdel in H1 as [_ H1]. apply Hdel in H2 as [_ H2].
      by eapply Hdist.
Qed.

Lemma simulates_revoke s a d :
  represents s a → closed_only (rows s) d →
  ∃ a', promised a Revoked a' ∧ represents (Racing d (inflight s) (drawn s)) a'.
Proof.
  intros [Hkey Hcur Hseen Hfl Hdist] [Hm Hl].
  exists (Register (map_imap (λ k _, live_jti d k) (current a)) (seen a)).
  assert (∀ k, map_imap (λ k _, live_jti d k) (current a) !! k = live_jti d k) as Hlook.
  { intros k. rewrite map_lookup_imap, Hcur. destruct (live_jti (rows s) k) eqn:E; [done|].
    cbn. destruct (Hl k) as [Hl'|Hl']; congruence. }
  split.
  - apply promised_revoke. apply map_subseteq_spec. intros k j. rewrite Hlook, Hcur.
    destruct (Hl k) as [->| ->]; done.
  - split; cbn; [|done..]. change (NoDup (map session_id (sessions d))). by rewrite Hm.
Qed.

Lemma race_simulated s e s' a :
  race s e s' → represents s a → ∃ a', promised a e a' ∧ represents s' a'.
Proof.
  intros Hstep Hrep. destruct Hstep as
    [s q c out d c' Hid Hj Hrun|s q c e d c' Hrun|s i now token dr r x cl Hi Hj Hread
    |s i now k old new Hi|s i|s m c o d c' Hm Hrun].
  - apply completed_login_sessions in Hrun as [x Hd].
    destruct (simulates_login s a x (at_time q) (at_draws q) d Hrep Hid Hj Hd). by eexists.
  - apply failed_login_sessions in Hrun. cbn in Hrun. exists a. split; [apply promised_quiet|].
    destruct Hrep. split; cbn; try done; [by rewrite Hrun|].
    intros k. unfold live_jti. rewrite Hrun. apply rep_current0.
  - exists a. split; [apply promised_quiet|]. destruct Hrep as [Hkey Hcur Hseen Hfl Hdist].
    assert (∀ i k o, inflight s !! i ≠ Some (k, o, uuid_str (refresh_id dr))) as Hnew.
    { intros i' k o H'. by apply Hfl in H' as []. }
    split; cbn; [done|done|set_solver| |].
    + intros i' k o n. rewrite lookup_insert_Some. intros [[_ [= <- <- <-]]|[_ H']].
      * set_solver.
      * apply Hfl in H'. set_solver.
    + intros i1 i2 k1 o1 k2 o2 n. rewrite !lookup_insert_Some.
      intros [[<- [= <- <- <-]]|[? H1]] [[<- H2]|[? H2]]; try done.
      * by apply Hnew in H2.
      * injection H2 as <- <- <-. by apply Hnew in H1.
      * by eapply Hdist.
  - by apply simulates_write.
  - exists a. split; [apply promised_quiet|]. destruct Hrep as [Hkey Hcur Hseen Hfl Hdist].
    split; cbn; try done.
    + intros i' k o n H'. apply lookup_delete_Some in H' as [_ H']. by eapply Hfl.
    + intros i1 i2 k1 o1 k2 o2 n H1 H2. apply lookup_delete_Some in H1 as [_ H1].
      apply lookup_delete_Some in H2 as [_ H2]. by eapply Hdist.
  - apply simulates_revoke; [done|].
    pose proof (run_request_holds (closed_only (rows s)) m (World (rows s) c)
      (keeps_revocation _ m Hm)) as Hc.
    rewrite Hrun in Hc. cbn in Hc. apply Hc. split; [done|]. by left.
Qed.

Lemma races_simulated s es s' a :
  races s es s' → represents s a → ∃ a', promises a es a' ∧ represents s' a'.
Proof.
  intros Hrun. revert a. induction Hrun as [s|s e s1 es s2 H1 Hrun IH]; intros a Hrep.
  - exists a. split; [apply promises_nil|done].
  - destruct (race_simulated _ _ _ _ H1 Hrep) as (a1 & Hp1 & Hrep1).
    destruct (IH a1 Hrep1) as (a2 & Hp2 & Hrep2).
    exists a2. split; [by eapply promises_cons|done].
Qed.

(** What the rows represent when nothing is in flight. *)
Definition register_of (s : racing) : register :=
  Register (list_to_map (omap (λ r, if session_active r
    then Some (session_id r, refresh_token_jti r) else None) (sessions (rows s)))) (drawn s).

Lemma register_of_current ss k : keyed ss →
  (list_to_map (omap (λ r, if session_active r
    then Some (session_id r, refresh_token_jti r) else None) ss) : gmap uuid pystr) !! k
  = (s ← by_id k ss; if session_active s then Some (refresh_token_jti s) else None).
Proof.
  induction ss as [|r ss IH]; intros Hkey; [done|].
  apply NoDup_cons in Hkey as [Hnin Hkey]. cbn in Hnin. specialize (IH Hkey).
  assert (session_id r = k → by_id k ss = None) as Hno.
  { intros <-. destruct (by_id (session_id r) ss) as [r'|] eqn:E; [|done].
    apply by_id_Some in E as [Hin Hr]. destruct Hnin.
    apply list_elem_of_In, in_map_iff. exists r'. split; [exact Hr|by apply list_elem_of_In]. }
  assert (by_id k (r :: ss) = if decide (session_id r = k) then Some r else by_id k ss) as ->.
  { unfold by_id, select_one, select. cbn. unfold has_id at 1. cbn.
    by destruct (decide (session_id r = k)); [rewrite bool_decide_true|rewrite bool_decide_false]. }
  cbn [omap list_omap]. destruct (session_active r) eqn:Ha.
  - cbn [list_to_map foldr curry fst snd]. destruct (decide (session_id r = k)) as [Hk|Hk].
    + subst k. cbn. rewrite Ha. apply lookup_insert_eq.
    + cbn. rewrite lookup_insert_ne by done. exact IH.
  - destruct (decide (session_id r = k)) as [Hk|Hk]; [|exact IH].
    cbn. rewrite Ha. rewrite IH. by rewrite (Hno Hk).
Qed.

Lemma represents_idle s :
  keyed (sessions (rows s)) → inflight s = ∅ → represents s (register_of s).
Proof.
  intros Hkey Hfl. split; [done| |done|..]; rewrite ?Hfl; [|done..].
  intros k. by apply register_of_current.
Qed.

(** C18: every run of log-ins, refreshes split into their read and their
    conditional [UPDATE], refused calls and revocations, in any interleaving,
    is a run of the specification: an open session has one current token, and
    a refresh succeeds only by replacing the current one by one never seen. *)
Theorem rotation_refines_register s es s' :
  keyed (sessions (rows s)) → inflight s = ∅ → races s es s' →
  ∃ a', promises (register_of s) es a' ∧ represents s' a'.
Proof. intros Hkey Hfl Hrun. eapply races_simulated; [done|]. by apply represents_idle. Qed.

(** C22: requests racing with one refresh token: at most one of them, ever, is
    given a new pair. *)
Theorem refresh_token_exchanged_once s es s' :
  keyed (sessions (rows s)) → inflight s = ∅ →
  NoDup (map refresh_token_jti (sessions (rows s))) →
  Forall (λ r, refresh_token_jti r ∈ drawn s) (sessions (rows s)) →
  races s es s' → NoDup (exchanged es).
Proof.
  intros Hkey Hfl Hnd Hdr Hrun.
  destruct (races_simulated _ _ _ _ Hrun (represents_idle s Hkey Hfl)) as (a' & Hp & _).
  apply (promises_exchange_once _ _ _ Hp).
  assert (∀ k j, current (register_of s) !! k = Some j → ∃ r,
    r ∈ sessions (rows s) ∧ session_id r = k ∧ refresh_token_jti r = j) as Hrow.
  { intros k j. unfold register_of. cbn [current]. rewrite register_of_current by done.
    destruct (by_id k _) as [r|] eqn:E; [|done]. cbn. apply by_id_Some in E as [Hin Hk].
    destruct (session_active r); [|done]. intros [= <-]. eauto. }
  split.
  - intros k j (r & Hin & _ & <-)%Hrow. rewrite Forall_forall in Hdr. by apply Hdr.
  - intros k1 k2 j (r1 & H1 & <- & Hj1)%Hrow (r2 & H2 & <- & Hj2)%Hrow.
    f_equal. eapply (NoDup_map_eq refresh_token_jti); [exact Hnd|done|done|congruence].
Qed.

(** ** What a changed password leaves behind *)
Lemma fold_deactivated ids l r :
  r ∈ fold_left (λ l k, set_row deactivated k l) ids l →
  session_active r = false ∨ (r ∈ l ∧ session_id r ∉ ids).
Proof.
  revert l. induction ids as [|k ids IH]; intros l; cbn; [set_solver|].
  intros [?|[Hin Hnin]]%IH; [by left|]. apply elem_of_update in Hin as (r0 & Hin & ->).
  unfold has_id in *. case_bool_decide as Hk; [by left|]. right. split; [done|].
  apply not_elem_of_cons. by split.
Qed.

Lemma fold_session_ids ss l :
  fold_left (λ l s, set_row deactivated (session_id s) l) ss l =
  fold_left (λ l k, set_row deactivated k l) (map session_id ss) l.
Proof. revert l. induction ss as [|s ss IH]; intros l; [done|]. apply IH. Qed.

(** The pending rows after [revoke_all_sessions]. *)
Definition revoked_all (k : uuid) (d : database) : database :=
  set_sessions (λ l, fold_left (λ l s, set_row deactivated (session_id s) l)
                       (select (active_session_of k) (sessions d)) l) d.
Lemma revoke_all_bind {B} k (g : Z → M state error B) (w : state) :
  (revoke_all_sessions k ≫= g) w =
    g (rowcount (active_session_of k) (sessions (live (db w)))) (wrote (revoked_all k) w).
Proof.
  unfold revoke_all_sessions. rewrite bind_assoc, read_bind, bind_assoc, rows_bind, ret_bind.
  by destruct w as [[d d'] c].
Qed.

Lemma revoked_all_closed k d s :
  s ∈ sessions (revoked_all k d) → session_user s = k → session_active s = false.
Proof.
  unfold revoked_all. cbn. rewrite fold_session_ids.
  intros [?|[Hin Hnin]]%fold_deactivated Hk; [done|].
  destruct (session_active s) eqn:Ha; [|done]. destruct Hnin.
  apply list_elem_of_In, in_map, list_elem_of_In, elem_of_select. split; [done|].
  unfold active_session_of. by rewrite Ha, bool_decide_true.
Qed.

(** The rows once a new hash is in place. *)
Definition repassworded (now : datetime) (h : pystr) (x : User) (d : database) : database :=
  set_history (insert_row (mk_history (user_id x) h))
    (set_users (set_row (with_password h now) (user_id x)) d).
Lemma repassworded_user now h x d j i :
  by_id i (users (revoked_all j (repassworded now h x d))) =
    if decide (user_id x = i) then with_password h now <$> by_id (user_id x) (users d)
    else by_id i (users d).
Proof. by apply (by_id_set_row (with_password h now)). Qed.
Lemma set_password_bind {B} now h x (g : User → M state error B) (w : state) :
  (set_password now h x ≫= g) w = g (with_password h now x) (wrote (repassworded now h x) w).
Proof. done. Qed.

Lemma change_password_Ok now salt k p n (w w' : state) :
  change_password cfg now salt k p n w = (Ok tt, w') → ∃ x h,
    by_id k (users (live (db w))) = Some x ∧ verify_password_safe p (password_hash x) = true
    ∧ argon_hash salt n = Some h ∧ reused cfg k n (live (db w)) = false
    ∧ live (db w') = revoked_all k (repassworded now h x (live (db w))).
Proof.
  unfold change_password. rewrite read_bind, of_option_bind. unfold get_user_by_id.
  destruct (by_id k (users (live (db w)))) as [x|] eqn:Hx; [|done].
  rewrite raise_if_bind. destruct (verify_password_safe p _) eqn:Hp; [|done]. cbn [negb].
  rewrite raise_if_bind. destruct (verify_password_safe n _); [done|].
  unfold reject_recent_passwords. rewrite bind_assoc, read_bind, raise_if_bind.
  destruct (reused cfg k n _) eqn:Hr; [done|].
  intros Hrun. apply bind_Ok in Hrun as (h & w1 & (_ & Hh & ->)%hash_Ok & Hrun).
  rewrite set_password_bind, revoke_all_bind in Hrun. injection Hrun as <-.
  exists x, h. done.
Qed.

(** A completed [change_password]: the new password now opens the account
    and is on record, and every refresh token of the account, in use or not,
    is refused; but access tokens that were accepted before still are, until
    they expire. *)
Theorem password_change_ends_sessions now salt k p n (w w' : system) :
  run_request (change_password cfg now salt k p n) w = (Ok tt, w') →
  (∃ x, by_id k (users (db w')) = Some x ∧ verify_password_safe n (password_hash x) = true
        ∧ must_change_password x = false)
  ∧ (∀ now2 token, match refresh_read now2 token (db w') with
                   | Ok (s, _, _) => session_user s ≠ k
                   | Raise _ => True
                   end)
  ∧ (∀ now2 token, is_Some (resolve_user_from_jwt now2 token (db w)) →
                   is_Some (resolve_user_from_jwt now2 token (db w'))).
Proof.
  unfold run_request. destruct (change_password _ _ _ _ _ _ _) as [[[]|e] w1] eqn:Hrun; [|done].
  intros [= <-]. apply change_password_Ok in Hrun as (x & h & Hx & _ & Hh & _ & Hd).
  cbn [db live] in *. rewrite Hd. clear Hd w1.
  pose proof Hx as [_ Hid]%by_id_Some. change (user_id x = k) in Hid.
  pose proof (repassworded_user now h x (db w) k) as Hby. rewrite Hid in Hby.
  split; [|split].
  - exists (with_password h now x). rewrite Hby, decide_True, Hx by done. split; [done|].
    split; [|done]. unfold verify_password_safe. cbn. by rewrite (verify_hash _ _ _ Hh).
  - intros now2 token. unfold refresh_read. destruct (validate_token _ _ _) as [c|]; [|done].
    unfold get_session_by_refresh_token.
    destruct (select_one _ _) as [s|] eqn:Hs; [|done].
    apply select_one_Some in Hs as [Hin _].
    destruct (session_active s) eqn:Ha; [|done]. cbn [negb orb].
    destruct (is_expired now2 s); [done|]. destruct (parse_uuid (sub c)); [|done].
    destruct (get_user_by_id _ _) as [y|]; [|done]. destruct (user_active y); [|done].
    intros Hk. apply revoked_all_closed in Hin; [congruence|done].
  - intros now2 token. unfold resolve_user_from_jwt.
    destruct (validate_token _ _ _) as [c|]; [|done]. cbn [mbind option_bind].
    destruct (parse_uuid (sub c)) as [j|]; [|done]. cbn [mbind option_bind].
    unfold get_user_by_id. rewrite Hby. destruct (decide (k = j)) as [<-|Hj]; [|done].
    rewrite Hx. cbn. destruct (user_active x); [|done].
    destruct (tokens_invalidated_at x); [|done]. by destruct (_ <? _).
Qed.

(** ** Forced log-out *)

(** After [force_logout_user] at [t0], an access token issued at [t] is
    accepted exactly when the whole second of [t] has reached [t0].  So every
    token from before is dead, and so is, for its whole life, a token issued
    after [t0] within the same second. *)
Theorem forced_logout_cutoff t0 x t t2 id mins (w : state) w' y :
  force_logout t0 x w = (Ok y, w') →
  by_id (user_id x) (users (live (db w))) = Some x → user_active x = true → is_uuid (user_id x) →
  0 ≤ t ≤ t2 → t2 < timestamp (t + minutes mins) * 1000000 →
  is_Some (resolve_user_from_jwt t2
    (jwt_encode (Claims (uuid_str (user_id x)) (email x) (uuid_str id) (u "access") (timestamp t)
       (timestamp (t + minutes mins)))) (live (db w'))) ↔ t0 ≤ timestamp t * 1000000.
Proof.
  unfold force_logout. rewrite revoke_all_bind. intros [= <- <-] Hx Ha Hu Ht Hexp.
  unfold resolve_user_from_jwt. rewrite validate_issued by done. cbn [mbind option_bind sub iat].
  rewrite parse_uuid_str by done. cbn [mbind option_bind].
  match goal with |- context [get_user_by_id _ ?d] =>
    assert (get_user_by_id (user_id x) d = Some (with_tokens_invalidated t0 x)) as -> end.
  { unfold get_user_by_id.
    change (by_id (user_id x) (set_row (with_tokens_invalidated t0) (user_id x)
      (users (live (db w)))) = Some (with_tokens_invalidated t0 x)).
    rewrite by_id_set_row by done. by rewrite decide_True, Hx. }
  cbn. rewrite Ha. destruct (Z.ltb_spec (timestamp t * 1000000) t0) as [Hlt|Hge].
  - split; [by intros []|lia].
  - split; [done|by eexists].
Qed.

(** ** A password-reset link, used twice

    [reset_password] up to the [GET] of its consumption, and from the
    [DELETE] on. *)
Definition reset_get (now : datetime) (salt : N) (token new : pystr)
    : M state error (User * pystr * pystr) :=
  checked ← reset_check cfg now salt token new;
  raw ← on_tokens (λ t, (t, s_get now (token_key ResetToken token) t));
  match raw with
  | Some ((_ :: _) as s) => mret (checked, s)
  | _ => raise InvalidTokenError
  end.
Definition reset_rest (now : datetime) (token : pystr) (got : User * pystr * pystr)
    : M state error unit :=
  _ ← on_tokens (λ t, (s_delete now (token_key ResetToken token) t, tt));
  _ ← parse_payload (Some got.2);
  reset_apply now got.1.1 got.1.2.

Lemma reset_splits now salt token new (w : state) :
  reset_password cfg now salt token new w
  = (reset_get now salt token new ≫= reset_rest now token) w.
Proof.
  unfold reset_password, reset_get, consume_cache_token. rewrite bind_assoc.
  unfold mbind, M_bind. destruct (reset_check _ _ _ _ _ w) as [[checked|e] w1]; [|done].
  destruct (on_tokens _ w1) as [[[[|c s]|]|e] w2]; [done| |done..].
  unfold mret, M_ret, reset_rest, mbind, M_bind. cbn [fst snd].
  destruct (on_tokens _ w2) as [[[]|e] w3]; [|done].
  cbn [parse_payload]. unfold mbind, M_bind. by destruct (parse_uuid (c :: s)).
Qed.

Lemma peek_run now token (r : R) (t : T) (d : txn database) :
  peek_cache_token now ResetToken token (World d (Conn (r, t) [])) =
    parse_payload (s_get now (token_key ResetToken token) t) (World d (Conn (r, t) [])).
Proof. unfold peek_cache_token. run tokens_run. done. Qed.

(** What the reads of a submission establish. *)
Lemma reset_get_Ok now salt token new (r : R) (t : T) (d : txn database) got (w' : state) :
  reset_get now salt token new (World d (Conn (r, t) [])) = (Ok got, w') →
  w' = World d (Conn (r, t) [])
  ∧ s_get now (token_key ResetToken token) t = Some got.2
  ∧ argon_hash salt new = Some got.1.2
  ∧ ∃ k, parse_uuid got.2 = Some k ∧ by_id k (users (live d)) = Some got.1.1
         ∧ (∃ c s, got.2 = c :: s).
Proof.
  unfold reset_get, reset_check. rewrite bind_assoc. intros Hrun.
  apply bind_Ok in Hrun as (p & w1 & Hp & Hrun). rewrite peek_run in Hp.
  destruct (s_get now _ t) as [[|c s]|] eqn:Hs.
  1,3: injection Hp as <- <-; rewrite bind_assoc, of_option_bind in Hrun; discriminate Hrun.
  cbn [parse_payload] in Hp. rewrite of_option_bind in Hp.
  destruct (parse_uuid (c :: s)) as [k|] eqn:Hk; [|done]. injection Hp as <- <-.
  rewrite bind_assoc, of_option_bind, bind_assoc, read_bind, bind_assoc, of_option_bind in Hrun.
  unfold get_user_by_id in Hrun. cbn [db] in Hrun.
  destruct (by_id k (users (live d))) as [x|] eqn:Hx; [|done].
  unfold reject_recent_passwords in Hrun.
  rewrite bind_assoc, bind_assoc, read_bind, raise_if_bind in Hrun.
  destruct (reused _ _ _ _); [done|]. rewrite bind_assoc in Hrun.
  apply bind_Ok in Hrun as (h & w2 & (_ & Hh & ->)%hash_Ok & Hrun).
  rewrite ret_bind in Hrun.
  erewrite bind_step in Hrun by apply tokens_run. cbn [fst snd] in Hrun. rewrite Hs in Hrun.
  injection Hrun as <- <-. cbn. split; [done|]. split; [done|]. split; [done|]. eauto 10.
Qed.

Lemma reset_rest_run now token x h s k (r : R) (t : T) (d d' : database) :
  parse_uuid s = Some k → (∃ c s', s = c :: s') →
  reset_rest now token (x, h, s) (World (Txn d d') (Conn (r, t) [])) =
    (Ok tt, World (Txn (revoked_all (user_id x) (repassworded now h x d)) d')
      (Conn (r, s_delete now (token_key ResetToken token) t) [])).
Proof.
  intros Hk (c & s' & ->). unfold reset_rest. run tokens_run. cbn [fst snd parse_payload].
  rewrite bind_assoc, of_option_bind, Hk. cbn [fst snd].
  rewrite ret_bind. unfold reset_apply. rewrite set_password_bind, revoke_all_bind. done.
Qed.

(** A password-reset link.  Used once and then again, the second use is
    refused.  But when two submissions have both read the token before either
    deletes it, both are applied, each with its own password, and the later
    one stays. *)
Theorem racing_resets_both_apply now salt1 salt2 token new1 new2 d (r : R) (t : T) got1 got2 :
  let w : system := World d (Conn (r, t) []) in
  run_request (reset_get now salt1 token new1) w = (Ok got1, w) →
  run_request (reset_get now salt2 token new2) w = (Ok got2, w) →
  (∀ now2 salt new, now ≤ now2 →
    (run_request (reset_password cfg now2 salt token new)
      (run_request (reset_password cfg now salt1 token new1) w).2).1 = Raise InvalidTokenError)
  ∧ ∃ w1 w2 x,
      run_request (reset_rest now token got1) w = (Ok tt, w1)
      ∧ run_request (reset_rest now token got2) w1 = (Ok tt, w2)
      ∧ by_id (user_id got1.1.1) (users (db w1)) = Some (with_password got1.1.2 now got1.1.1)
      ∧ by_id (user_id got1.1.1) (users (db w2)) = Some x
      ∧ verify_password_safe new2 (password_hash x) = true.
Proof.
  intros w H1 H2. unfold run_request in H1, H2. cbn [db ext w] in H1, H2.
  destruct (reset_get now salt1 _ _ _) as [[g1|e] w1] eqn:E1; [|done].
  destruct (reset_get now salt2 _ _ _) as [[g2|e] w2] eqn:E2; [|done].
  injection H1 as -> _. injection H2 as -> _.
  pose proof E1 as E1'.
  apply reset_get_Ok in E1 as (-> & Hs1 & Hh1 & k & Hk1 & Hx1 & Hne1).
  apply reset_get_Ok in E2 as (-> & Hs2 & Hh2 & k' & Hk2 & Hx2 & Hne2).
  destruct got1 as [[x1 h1] s1], got2 as [[x2 h2] s2]. cbn [fst snd live] in *.
  assert (s2 = s1) as -> by congruence. assert (k' = k) as -> by congruence.
  assert (x2 = x1) as -> by congruence.
  pose proof Hx1 as [_ Hid]%by_id_Some. change (user_id x1 = k) in Hid.
  split.
  - intros now2 salt new Hle. unfold run_request at 2. cbn [db ext w].
    rewrite reset_splits. erewrite bind_step by exact E1'.
    rewrite (reset_rest_run now token x1 h1 s1 k r t d d Hk1 Hne1). cbn [snd].
    unfold run_request, reset_password, reset_check. cbn [db ext live].
    erewrite bind_stop; [reflexivity|]. rewrite bind_step with (a := None) (s1 := (World
      (Txn (revoked_all (user_id x1) (repassworded now h1 x1 d))
           (revoked_all (user_id x1) (repassworded now h1 x1 d)))
      (Conn (r, s_delete now (token_key ResetToken token) t) []))).
    + reflexivity.
    + rewrite peek_run, get_delete by done. reflexivity.
  - do 3 eexists. split; [|split; [|split; [|split]]].
    + unfold run_request. cbn [db ext w].
      rewrite (reset_rest_run now token x1 h1 s1 k r t d d Hk1 Hne1). reflexivity.
    + unfold run_request. cbn [db ext live].
      rewrite (reset_rest_run now token x1 h2 s1 k _ _ _ _ Hk1 Hne1). reflexivity.
    + cbn [db live]. rewrite repassworded_user, decide_True by done. by rewrite Hid, Hx1.
    + cbn [db live]. rewrite repassworded_user, decide_True by done.
      rewrite repassworded_user, decide_True by done. rewrite Hid, Hx1. reflexivity.
    + unfold verify_password_safe. cbn. by rewrite (verify_hash _ _ _ Hh2).
Qed.

(** ** A recovery code spent for nothing *)
Lemma recovery_only_run now k code rc (w : state) :
  (∀ c, get_mfa_credential k (live (db w)) = Some c →
        ∃ s, fernet_decrypt (secret_encrypted c) = Some s ∧ totp_verify s code now = false) →
  get_active_recovery_code k (hash_recovery_code code) (live (db w)) = Some rc →
  verify_mfa_or_recovery_code now k code w =
    (Ok true, wrote (set_codes (set_row (with_used now) (code_id rc))) w).
Proof.
  intros Hc Hrc. unfold verify_mfa_or_recovery_code. rewrite read_bind.
  destruct (get_mfa_credential k (live (db w))) as [c|].
  - destruct (Hc c eq_refl) as (s & Hs & Ht). rewrite bind_assoc, of_option_bind, Hs, Ht.
    rewrite ret_bind, read_bind, Hrc. reflexivity.
  - rewrite ret_bind, read_bind, Hrc. reflexivity.
Qed.

Lemma used_code_inactive now k h rc d :
  NoDup (map code_hash (mfa_recovery_codes d)) →
  get_active_recovery_code k h d = Some rc →
  get_active_recovery_code k h (set_codes (set_row (with_used now) (code_id rc)) d) = None.
Proof.
  intros Hnd Hrc. apply select_one_Some in Hrc as [Hin Hp].
  apply select_one_None. intros c Hc. cbn in Hc. apply elem_of_update in Hc as (c0 & Hc0 & ->).
  unfold has_id. destruct (decide (row_id c0 = code_id rc)) as [Hid|Hid].
  { rewrite (bool_decide_true (row_id c0 = code_id rc)) by done. apply andb_false_iff. by right. }
  rewrite (bool_decide_false (row_id c0 = code_id rc)) by done.
  apply not_true_iff_false. intros Hpc. apply Hid. bools.
  assert (c0 = rc) as ->; [|done].
  eapply (NoDup_map_eq code_hash); [exact Hnd|done|done|congruence].
Qed.

(** An account with a second factor and a pending password change, signed
    in to with a recovery code and no new password: the call answers
    [PasswordChangeRequiredError], and the commit of that refusal has spent
    the code, so the retry it asks for is left without one. *)
Theorem recovery_code_spent_on_refusal q d (r : R) (t : T) x code rc :
  let addr := lower (strip (at_email q)) in
  let w : system := World d (Conn (r, t) []) in
  under_limit cfg (at_time q) addr (ip_address (at_device q)) r →
  get_user_by_email addr d = Some x →
  user_active x = true → account_locked (at_time q) (locked_until x) = None →
  verify_password_safe (at_password q) (password_hash x) = true → is_verified x = true →
  mfa_enabled x = true → must_change_password x = true →
  given (at_mfa q) = Some code → given (at_new q) = None →
  (∀ c, get_mfa_credential (user_id x) d = Some c →
        ∃ s, fernet_decrypt (secret_encrypted c) = Some s ∧ totp_verify s code (at_time q) = false) →
  NoDup (map code_hash (mfa_recovery_codes d)) →
  get_active_recovery_code (user_id x) (hash_recovery_code code) d = Some rc →
  (post_login q w).1 = Raise PasswordChangeRequiredError
  ∧ get_active_recovery_code (user_id x) (hash_recovery_code code) (db (post_login q w).2) = None.
Proof.
  intros addr w Hlim Hx Ha Hl Hv Hver Hm Hc Hcode Hnew Hcred Hnd Hrc.
  assert (∃ r', login cfg (at_time q) (at_draws q) (at_email q) (at_password q) (at_device q)
    (at_mfa q) (at_new q) (World (Txn d d) (Conn (r, t) [])) =
    (Raise PasswordChangeRequiredError,
     let d1 := add_attempt (mk_attempt (Some (user_id x)) addr (ip_address (at_device q)) false
                 (Some password_change_required))
                 (set_codes (set_row (with_used (at_time q)) (code_id rc)) d) in
     World (Txn d1 d1) (Conn (r', t) []))) as [r' Hrun].
  { unfold login. cbv zeta. fold addr.
    assert (check_rate_limit cfg (at_time q) addr (ip_address (at_device q))
      (World (Txn d d) (Conn (r, t) [])) = (Ok tt, World (Txn d d) (Conn (r, t) []))) as Hck.
    { rewrite check_rate_limit_run. unfold under_limit in Hlim.
      destruct (r_entry _ _ r) as [[n dl]|]; [|done].
      specialize (Hlim n dl eq_refl). by rewrite (proj2 (Z.leb_gt _ _)). }
    run Hck. rewrite read_bind. cbn [db live]. rewrite Hx. unfold login_account.
    rewrite if_ret_bind, Ha, check_lock_bind, Hl, if_ret_bind, Hv, if_ret_bind, Hver.
    unfold login_second_factor at 1. rewrite Hm, Hcode, bind_assoc.
    erewrite bind_step by (apply recovery_only_run; eassumption). cbv beta iota. rewrite ret_bind.
    unfold login_replace_password. rewrite Hc, Hnew. unfold refuse. rewrite bind_assoc.
    destruct (record_attempt_run cfg (at_time q) (Some (user_id x)) addr (at_device q) false
      (Some password_change_required)
      (set_codes (set_row (with_used (at_time q)) (code_id rc)) d) d r t) as [r' Hr'].
    exists r'. erewrite bind_step by exact Hr'. reflexivity. }
  unfold post_login, run_request. cbn [db ext w]. rewrite Hrun. split; [done|].
  by apply (used_code_inactive (at_time q)) in Hrc.
Qed.
End requests.

Module examples.
#[local] Existing Instance Auth.examples.toy.
#[local] Existing Instance ascii_only.
#[local] Existing Instance canonical_uuid.
Import Auth.examples.

Abbreviation sys := (world database (conn (MapRedis.store * MapStrings.store))).
Definition w0 : sys := World d0 no_keys.

(** Three wrong guesses in ten seconds, from two addresses, lock the account
    that already had two failures; a fourth is not looked at. *)
Definition guess_at (t : Z) (ip p : string) : attempt :=
  Attempt t (dr 500) (u "ANN@example.com") (u p) (mk_device (u ip)) None None.
Definition guesses_made : list attempt :=
  [guess_at 1000000000 "10.0.0.1" "one"; guess_at 1003000000 "10.0.0.2" "two";
   guess_at 1006000000 "10.0.0.1" "three"; guess_at 1009000000 "10.0.0.3" "four"].
Lemma three_were_checked : guesses 7 (db (post_logins cfg guesses_made w0)) = 3.
Proof. by_vm. Qed.

Lemma lockout_bounds_guessing_witness :
  (guesses 7 (db (post_logins cfg guesses_made w0)) - guesses 7 (db w0) - (5 - 2)) * lockout cfg
  ≤ 1010000000 - 1000000000.
Proof.
  refine (lockout_bounds_guessing cfg guesses_made 7 ann 1000000000 1010000000 w0 _ _ _ _ _ _ _).
  - unfold keyed. cbn. apply NoDup_singleton.
  - by_vm.
  - by vm_compute.
  - by vm_compute.
  - by vm_compute.
  - repeat (apply nd_cons; [by vm_compute|]). apply nd_nil.
  - repeat (apply Forall_cons; split; [intros _; by_vm|]). by apply Forall_nil.
Defined.

(** Two requests present the same refresh token; both read before either
    writes. *)
Definition j0 : pystr := uuid_str 101.
Definition j1 : pystr := uuid_str 201.
Definition j2 : pystr := uuid_str 301.
Definition sess : AuthSession := mk_session 102 7 j0 (in_at + days 7) in_at true.
Definition d1 : database := Database [ann] [sess] [] [] [] [] [].
Definition cl : claims := Claims (uuid_str 7) (email ann) j0 (u "refresh") 1700000000 1700600000.
Definition later : datetime := in_at + 5000000.
Definition r0 : racing := Racing d1 ∅ {[j0]}.
Definition r1 : racing := Racing d1 (<[0%nat := (102%positive, j0, j1)]> ∅) ({[j1]} ∪ {[j0]}).
Definition r2 : racing :=
  Racing d1 (<[1%nat := (102%positive, j0, j2)]> (inflight r1)) ({[j2]} ∪ drawn r1).
Definition written (s : racing) (i : nat) (new : pystr) : racing :=
  Racing (rotate_refresh_token later 102 j0 new (rows s)).2 (delete i (inflight s)) (drawn s).
Definition written_event (s : racing) (new : pystr) : event :=
  if (rotate_refresh_token later 102 j0 new (rows s)).1 then Exchanged 102 j0 new else Quiet.
Definition r3 : racing := written r2 0 j1.
Definition race_events : list event :=
  [Quiet; Quiet; written_event r2 j1; written_event r3 j2].

Lemma race_happens :
  races (R:=MapRedis.store) (T:=MapStrings.store) cfg r0 race_events (written r3 1 j2).
Proof.
  apply races_cons with r1.
  { refine (race_read cfg r0 0 later (jwt_encode cl) (dr 200) sess ann cl _ _ _).
    - by_vm.
    - change (drawn r0) with ({[j0]} : gset pystr). rewrite elem_of_singleton. apply (bool_decide_eq_false_1 (_ = _)). by_vm.
    - by_vm. }
  apply races_cons with r2.
  { refine (race_read cfg r1 1 later (jwt_encode cl) (dr 300) sess ann cl _ _ _).
    - by_vm.
    - change (drawn r1) with ({[j1]} ∪ {[j0]} : gset pystr).
      rewrite elem_of_union, !elem_of_singleton.
      intros [Hin|Hin]; revert Hin; apply (bool_decide_eq_false_1 (_ = _)); by_vm.
    - by_vm. }
  apply races_cons with r3; [refine (race_write cfg r2 0 later 102 j0 j1 _); by_vm|].
  apply races_cons with (written r3 1 j2); [refine (race_write cfg r3 1 later 102 j0 j2 _); by_vm|].
  apply races_nil.
Qed.
Lemma one_pair_was_given : exchanged race_events = [j0].
Proof. by_vm. Qed.

Lemma rotation_refines_register_witness : ∃ a',
  promises (register_of r0) race_events a' ∧ represents (written r3 1 j2) a'.
Proof.
  refine (rotation_refines_register cfg r0 race_events (written r3 1 j2) _ eq_refl race_happens).
  unfold keyed. cbn. apply NoDup_singleton.
Defined.
Lemma refresh_token_exchanged_once_witness : NoDup (exchanged race_events).
Proof.
  refine (refresh_token_exchanged_once cfg r0 race_events (written r3 1 j2) _ eq_refl _ _ race_happens).
  - unfold keyed. cbn. apply NoDup_singleton.
  - apply NoDup_singleton.
  - apply Forall_singleton. change (j0 ∈ ({[j0]} : gset pystr)). by apply elem_of_singleton.
Defined.

Definition changed := run_request
  (change_password (R:=MapRedis.store) (T:=MapStrings.store) cfg later 9 7 secret (u "Correct-Horse-2"))
  (World d1 no_keys).
Lemma password_change_ends_sessions_witness :
  (∃ x, by_id 7%positive (users (db changed.2)) = Some x
        ∧ verify_password_safe (u "Correct-Horse-2") (password_hash x) = true
        ∧ must_change_password x = false)
  ∧ (∀ now2 token, match refresh_read now2 token (db changed.2) with
                   | Ok (s, _, _) => session_user s ≠ 7%positive
                   | Raise _ => True
                   end)
  ∧ (∀ now2 token, is_Some (resolve_user_from_jwt now2 token d1) →
                   is_Some (resolve_user_from_jwt now2 token (db changed.2))).
Proof.
  refine (password_change_ends_sessions cfg later 9 7 secret (u "Correct-Horse-2")
    (World d1 no_keys) changed.2 _). by_vm.
Defined.

Definition forced := force_logout (R:=MapRedis.store) (T:=MapStrings.store) later ann
  (World (Txn d1 d1) no_keys).
Definition access_at (t : datetime) : pystr :=
  jwt_encode (Claims (uuid_str 7) (email ann) (uuid_str 400) (u "access") (timestamp t)
    (timestamp (t + minutes 15))).
(** A token issued 0.2 s after the forced log-out is refused. *)
Lemma forced_logout_cutoff_witness :
  is_Some (resolve_user_from_jwt (later + 300000) (access_at (later + 200000)) (live (db forced.2)))
  ↔ later ≤ timestamp (later + 200000) * 1000000.
Proof.
  refine (forced_logout_cutoff later ann (later + 200000) (later + 300000) 400 15
    (World (Txn d1 d1) no_keys) forced.2 (with_tokens_invalidated later ann) _ _ _ _ _ _).
  - by_vm.
  - by_vm.
  - by_vm.
  - by vm_compute.
  - by vm_compute.
  - by vm_compute.
Defined.

(** Two submissions of one reset link. *)
Definition link : pystr := uuid_str 900.
Definition mailed : MapStrings.store :=
  <[token_key ResetToken link := (uuid_str 7, later + 3600000000)]> ∅.
Definition got (salt : N) (p : string) : User * pystr * pystr := (ann, salt :: u p, uuid_str 7).
Lemma racing_resets_both_apply_witness :
  let w : sys := World d1 (Conn (∅, mailed) []) in
  (∀ now2 salt new, later ≤ now2 →
    (run_request (reset_password cfg now2 salt link new)
      (run_request (reset_password cfg later 5 link (u "Correct-Horse-2")) w).2).1
    = Raise InvalidTokenError)
  ∧ ∃ w1 w2 x,
      run_request (reset_rest later link (got 5 "Correct-Horse-2")) w = (Ok tt, w1)
      ∧ run_request (reset_rest later link (got 6 "Correct-Horse-3")) w1 = (Ok tt, w2)
      ∧ by_id 7%positive (users (db w1)) = Some (with_password (5%N :: u "Correct-Horse-2") later ann)
      ∧ by_id 7%positive (users (db w2)) = Some x
      ∧ verify_password_safe (u "Correct-Horse-3") (password_hash x) = true.
Proof.
  refine (racing_resets_both_apply cfg later 5 6 link (u "Correct-Horse-2") (u "Correct-Horse-3")
    d1 ∅ mailed (got 5 "Correct-Horse-2") (got 6 "Correct-Horse-3") _ _); by_vm.
Defined.

(** A temporary password, a second factor, and a recovery code. *)
Definition bob : User :=
  mk_user 8 (u "bob@example.com") (u "bob") (1%N :: secret) true true None None None 0
    None None true true.
Definition bob_code : pystr := u "ABCDE-FGHJK".
Definition recovery : UserMfaRecoveryCode := mk_code 600 8 bob_code None.
Definition d2 : database :=
  Database [bob] [] [] [] [mk_credential 8 (0%N :: u "SECRET") (Some 1) None] [recovery] [].
Definition sign_in : attempt :=
  Attempt later (dr 700) (u "bob@example.com") secret dev (Some bob_code) None.
Lemma recovery_code_spent_on_refusal_witness :
  (post_login cfg sign_in (World d2 no_keys)).1 = Raise PasswordChangeRequiredError
  ∧ get_active_recovery_code 8 (hash_recovery_code bob_code)
      (db (post_login cfg sign_in (World d2 no_keys)).2) = None.
Proof.
  refine (recovery_code_spent_on_refusal cfg sign_in d2 ∅ ∅ bob bob_code recovery
    _ _ _ _ _ _ _ _ _ _ _ _ _).
  - intros n dl He. by vm_compute in He.
  - by_vm.
  - by_vm.
  - by_vm.
  - by_vm.
  - by_vm.
  - by_vm.
  - by_vm.
  - by_vm.
  - by_vm.
  - intros c Hc. exists (u "SECRET").
    assert (c = mk_credential 8 (0%N :: u "SECRET") (Some 1) None) as -> 
      by (apply (inj Some); rewrite <- Hc; by_vm).
    split; by_vm.
  - apply NoDup_singleton.
  - by_vm.
Defined.
End examples.
End AuthRequests.
