(* ===== verification/Digits.v ===== *)
(** Decimal notation: what [str] and the format [0<width>d] print of a natural
    number, and that it can be read back. *)

From S2P Require Import Prelude PyStr.

Module Digits.

Definition digit (n : Z) : N := Z.to_N (48 + n).
Fixpoint dec_fuel (k : nat) (n : Z) : pystr :=
  match k with
  | O => []
  | S k => if n <? 10 then [digit n] else dec_fuel k (n / 10) ++ [digit (n mod 10)]
  end.
(** [str(n)] for [0 ≤ n]: a number has no more digits than bits. *)
Definition dec (n : Z) : pystr := dec_fuel (S (Z.to_nat (Z.log2 n))) n.
(** [s.zfill(w)] of unsigned digits. *)
Definition zero_pad (w : nat) (s : pystr) : pystr := replicate (w - length s) 48%N ++ s.

(** The number a sequence of digits denotes. *)
Definition read_digit (v : Z) (c : N) : Z := 10 * v + (Z.of_N c - 48).
Definition read_dec (s : pystr) : Z := foldl read_digit 0 s.

Lemma read_dec_snoc s c : read_dec (s ++ [c]) = 10 * read_dec s + (Z.of_N c - 48).
Proof. unfold read_dec. by rewrite foldl_app. Qed.
Lemma digit_value n : 0 ≤ n → Z.of_N (digit n) - 48 = n.
Proof. intros Hn. unfold digit. rewrite Z2N.id by lia. lia. Qed.

(** One digit of fuel per bit is enough. *)
Lemma read_dec_fuel k : ∀ n, 0 ≤ n < 2 ^ Z.of_nat k → read_dec (dec_fuel k n) = n.
Proof.
  induction k as [|k IH]; intros n Hn; [by assert (n = 0) as -> by (cbn in Hn; lia)|].
  rewrite Nat2Z.inj_succ, Z.pow_succ_r in Hn by lia. cbn [dec_fuel].
  destruct (Z.ltb_spec n 10).
  - unfold read_dec, read_digit. cbn. rewrite digit_value; lia.
  - pose proof (Z.div_mod n 10 ltac:(lia)). pose proof (Z.mod_pos_bound n 10 ltac:(lia)).
    rewrite read_dec_snoc, digit_value by lia.
    rewrite IH; [lia|]. split; [apply Z.div_pos|apply Z.div_lt_upper_bound]; lia.
Qed.
Lemma read_dec_dec n : 0 ≤ n → read_dec (dec n) = n.
Proof.
  intros Hn. destruct (decide (n = 0)) as [->|]; [done|]. unfold dec. apply read_dec_fuel.
  rewrite Nat2Z.inj_succ, Z2Nat.id by apply Z.log2_nonneg.
  split; [done|]. apply Z.log2_spec. lia.
Qed.

Lemma read_zero_pad w s : read_dec (zero_pad w s) = read_dec s.
Proof.
  unfold zero_pad. induction (w - length s)%nat as [|k IH]; [done|]. exact IH.
Qed.

Lemma dec_fuel_digits k : ∀ n c, 0 ≤ n → c ∈ dec_fuel k n → (48 ≤ c ≤ 57)%N.
Proof.
  induction k as [|k IH]; intros n c Hn; cbn [dec_fuel]; [by intros ?%not_elem_of_nil|].
  destruct (Z.ltb_spec n 10).
  - intros ->%list_elem_of_singleton. unfold digit. lia.
  - rewrite elem_of_app, list_elem_of_singleton. intros [Hc| ->].
    + apply (IH (n / 10)); [apply Z.div_pos; lia|done].
    + pose proof (Z.mod_pos_bound n 10 ltac:(lia)). unfold digit. lia.
Qed.
(** No separator occurs in a number. *)
Lemma dec_digits n c : 0 ≤ n → c ∈ dec n → (48 ≤ c ≤ 57)%N.
Proof. apply dec_fuel_digits. Qed.

(** The text before the first separator. *)
Lemma split_once (a : N) s s' t t' : a ∉ s → a ∉ s' → s ++ a :: t = s' ++ a :: t' → s = s' ∧ t = t'.
Proof.
  revert s'. induction s as [|c s IH]; intros [|c' s'] Hs Hs' H; cbn in H.
  - by injection H as ->.
  - injection H as -> _. destruct Hs'. left.
  - injection H as -> _. destruct Hs. left.
  - injection H as -> H. apply IH in H as [-> ->]; [done|..]; intros Hc;
      [by apply Hs; right|by apply Hs'; right].
Qed.

Example dec_2026 : dec 2026 = u "2026". Proof. done. Qed.
Example padded : zero_pad 5 (dec 42) = u "00042". Proof. done. Qed.
End Digits.
