(* ===== verification/Ip.v ===== *)
(** Python's [ipaddress] as the code uses it.

    An address is its integer.  IPv4 notation is written out: four decimal
    octets without leading zeros.  The IPv6 notation is the interface
    [PyIpv6], of which the library relies on reading back what it prints.
    The special-purpose blocks are those of the module's own tables. *)

From S2P Require Import Prelude PyStr Digits.

Module Ip.
Import Digits.

Inductive address := V4 (n : Z) | V6 (n : Z) (scope : option pystr).
#[export] Instance address_eq_dec : EqDecision address.
Proof. solve_decision. Defined.

(** ** IPv4 notation *)
Definition dot : N := 46.
(** [s.split(c)]. *)
Fixpoint split (c : N) (s : pystr) : list pystr :=
  match s with
  | [] => [[]]
  | x :: s =>
      if (x =? c)%N then [] :: split c s
      else match split c s with l :: ls => (x :: l) :: ls | [] => [[x]] end
  end.
(** [c.join(l)]. *)
Fixpoint join (c : N) (l : list pystr) : pystr :=
  match l with
  | [] => []
  | [s] => s
  | s :: l => s ++ c :: join c l
  end.

(** [_parse_octet]. *)
Definition parse_octet (s : pystr) : option Z :=
  if bool_decide (s = []) then None
  else if negb (forallb ascii_digit s) then None
  else if bool_decide (3 < length s)%nat then None
  else if bool_decide (s ≠ [48%N]) && bool_decide (head s = Some 48%N) then None
  else if 255 <? read_dec s then None else Some (read_dec s).
Definition parse_v4 (s : pystr) : option Z :=
  match split dot s with
  | [a; b; c; d] =>
      a ← parse_octet a; b ← parse_octet b; c ← parse_octet c; d ← parse_octet d;
      Some (((a * 256 + b) * 256 + c) * 256 + d)
  | _ => None
  end.

Definition octets (n : Z) : list Z := [n / 2 ^ 24; n / 2 ^ 16 mod 256; n / 2 ^ 8 mod 256; n mod 256].
Definition str_v4 (n : Z) : pystr := join dot (map dec (octets n)).
Definition is_v4 (n : Z) : Prop := 0 ≤ n < 2 ^ 32.

(** *** Reading back *)
Definition octet_ok (n : Z) : bool :=
  bool_decide (parse_octet (dec n) = Some n) && forallb (λ c, negb (c =? dot)%N) (dec n).
Lemma octets_ok : forallb octet_ok (map Z.of_nat (seq 0 256)) = true.
Proof. by vm_compute. Qed.
Lemma octet_ok_range n : 0 ≤ n < 256 → octet_ok n = true.
Proof.
  intros Hn. pose proof octets_ok as H. rewrite forallb_forall in H. apply H.
  apply in_map_iff. exists (Z.to_nat n). split; [lia|]. apply in_seq. lia.
Qed.
Lemma parse_octet_dec n : 0 ≤ n < 256 → parse_octet (dec n) = Some n.
Proof. intros Hn%octet_ok_range. unfold octet_ok in Hn. by bools. Qed.

Lemma split_fresh c s : forallb (λ x, negb (x =? c)%N) s = true → split c s = [s].
Proof.
  induction s as [|x s IH]; [done|]. cbn [forallb split]. intros [Hx Hs]%andb_true_iff.
  apply negb_true_iff in Hx. by rewrite Hx, IH.
Qed.
Lemma split_cons c s t : forallb (λ x, negb (x =? c)%N) s = true → split c (s ++ c :: t) = s :: split c t.
Proof.
  induction s as [|x s IH]; cbn [app forallb split]; [by rewrite N.eqb_refl|].
  intros [Hx Hs]%andb_true_iff. apply negb_true_iff in Hx. by rewrite Hx, IH.
Qed.
Lemma dec_fresh n : 0 ≤ n < 256 → forallb (λ c, negb (c =? dot)%N) (dec n) = true.
Proof. intros Hn%octet_ok_range. unfold octet_ok in Hn. by bools. Qed.

Lemma octets_range n : is_v4 n → Forall (λ o, 0 ≤ o < 256) (octets n).
Proof.
  unfold is_v4, octets. intros Hn. repeat constructor; try apply Z.mod_pos_bound; try lia;
    [apply Z.div_pos; lia|apply Z.div_lt_upper_bound; lia].
Qed.
Lemma octets_value n : is_v4 n →
  ((n / 2 ^ 24 * 256 + n / 2 ^ 16 mod 256) * 256 + n / 2 ^ 8 mod 256) * 256 + n mod 256 = n.
Proof.
  intros _. change (2 ^ 24) with (2 ^ 16 * 256). change (2 ^ 16) with (2 ^ 8 * 256). change (2 ^ 8) with 256.
  rewrite <-!Z.div_div by lia.
  pose proof (Z.div_mod n 256). pose proof (Z.div_mod (n / 256) 256). pose proof (Z.div_mod (n / 256 / 256) 256). lia.
Qed.
Lemma parse_str_v4 n : is_v4 n → parse_v4 (str_v4 n) = Some n.
Proof.
  intros Hn. pose proof (octets_range n Hn) as Hr. pose proof (octets_value n Hn) as Hv.
  unfold str_v4, octets in *. set (a := n / 2 ^ 24) in *. set (b := n / 2 ^ 16 mod 256) in *.
  set (c := n / 2 ^ 8 mod 256) in *. set (d := n mod 256) in *. clearbody a b c d.
  repeat match goal with H : Forall _ (_ :: _) |- _ => apply Forall_cons in H as [? H] end.
  unfold parse_v4. cbn [map join]. rewrite !split_cons, split_fresh by by apply dec_fresh.
  rewrite !parse_octet_dec by done. cbn. by rewrite Hv.
Qed.

(** *** Only canonical notation is read *)
Lemma split_join c s : join c (split c s) = s.
Proof.
  induction s as [|x s IH]; [done|]. cbn [split]. destruct (x =? c)%N eqn:E.
  - apply N.eqb_eq in E as ->. destruct (split c s) eqn:Hs; [by destruct s as [|y s]; cbn in Hs; [|destruct (y =? c)%N, (split c s)]|].
    cbn [join app]. by rewrite <-IH.
  - destruct (split c s) as [|l ls] eqn:Hs; [by destruct s as [|y s]; cbn in Hs; [|destruct (y =? c)%N, (split c s)]|].
    destruct ls; cbn [join app] in *; by rewrite <-IH.
Qed.
(** All the strings of one, two and three digits. *)
Definition digit_chars : list N := map N.of_nat (seq 48 10).
Definition longer (l : list pystr) : list pystr := flat_map (λ c, map (cons c) l) digit_chars.
Definition short : list pystr := longer [[]] ++ longer (longer [[]]) ++ longer (longer (longer [[]])).
Definition canonical (s : pystr) : bool :=
  match parse_octet s with
  | Some n => (0 <=? n) && (n <? 256) && bool_decide (dec n = s)
  | None => true
  end.
Lemma short_canonical : forallb canonical short = true.
Proof. by vm_compute. Qed.
Lemma elem_of_digits c : ascii_digit c = true → In c digit_chars.
Proof.
  unfold ascii_digit. intros [H1%N.leb_le H2%N.leb_le]%andb_true_iff.
  apply in_map_iff. exists (N.to_nat c). split; [lia|]. apply in_seq. lia.
Qed.
Lemma in_longer c s l : ascii_digit c = true → In s l → In (c :: s) (longer l).
Proof.
  intros Hc%elem_of_digits Hs. apply in_flat_map. exists c. split; [done|]. by apply in_map.
Qed.
Lemma parse_octet_inv s n : parse_octet s = Some n → 0 ≤ n < 256 ∧ dec n = s.
Proof.
  intros Hp. assert (canonical s = true) as Hc; [|unfold canonical in Hc; rewrite Hp in Hc; by bools].
  pose proof short_canonical as H. rewrite forallb_forall in H. apply H. clear H. unfold parse_octet in Hp.
  case_bool_decide as Hne; [done|]. destruct (forallb ascii_digit s) eqn:Hd; [|done].
  cbn [negb] in Hp. case_bool_decide as Hl; [done|]. clear Hp.
  unfold short. rewrite !in_app_iff.
  destruct s as [|a [|b [|c [|e s]]]]; [done|..|cbn in Hl; lia]; cbn in Hd; bools.
  - left. by apply in_longer; [|left].
  - right; left. by apply in_longer; [|apply in_longer; [|left]].
  - right; right. by apply in_longer; [|apply in_longer; [|apply in_longer; [|left]]].
Qed.
Lemma parse_v4_inv s n : parse_v4 s = Some n → is_v4 n ∧ str_v4 n = s.
Proof.
  unfold parse_v4. destruct (split dot s) as [|a [|b [|c [|d [|e l]]]]] eqn:Hs; [done..| |done].
  destruct (parse_octet a) as [x|] eqn:Ha; [|done]. destruct (parse_octet b) as [y|] eqn:Hb; [|done].
  destruct (parse_octet c) as [z|] eqn:Hc; [|done]. destruct (parse_octet d) as [w|] eqn:Hd; [|done].
  cbn. intros [= <-].
  apply parse_octet_inv in Ha as [Hx <-], Hb as [Hy <-], Hc as [Hz <-], Hd as [Hw <-].
  split; [unfold is_v4; lia|]. rewrite <-(split_join dot s), Hs. unfold str_v4, octets. cbn [map].
  assert ((((x * 256 + y) * 256 + z) * 256 + w) / 2 ^ 24 = x) as ->
    by (symmetry; apply (Z.div_unique _ _ _ ((y * 256 + z) * 256 + w)); lia).
  assert ((((x * 256 + y) * 256 + z) * 256 + w) / 2 ^ 16 = x * 256 + y) as ->
    by (symmetry; apply (Z.div_unique _ _ _ (z * 256 + w)); lia).
  assert ((((x * 256 + y) * 256 + z) * 256 + w) / 2 ^ 8 = (x * 256 + y) * 256 + z) as ->
    by (symmetry; apply (Z.div_unique _ _ _ w); lia).
  assert ((x * 256 + y) mod 256 = y) as -> by (symmetry; apply (Z.mod_unique _ _ x); lia).
  assert (((x * 256 + y) * 256 + z) mod 256 = z) as -> by (symmetry; apply (Z.mod_unique _ _ (x * 256 + y)); lia).
  assert ((((x * 256 + y) * 256 + z) * 256 + w) mod 256 = w) as ->; [|done].
  symmetry. apply (Z.mod_unique _ _ ((x * 256 + y) * 256 + z)); lia.
Qed.

(** ** IPv6 notation *)
Class PyIpv6 := {
  parse_v6 : pystr → option (Z * option pystr);
  str_v6 : Z → option pystr → pystr;
  parse_v6_str s n z : parse_v6 s = Some (n, z) → parse_v6 (str_v6 n z) = Some (n, z);
  parse_v6_colon s n z : parse_v6 s = Some (n, z) → contains 58%N s = true;
  (** What is printed has no space around it. *)
  parse_v6_strip s n z : parse_v6 s = Some (n, z) → strip (str_v6 n z) = str_v6 n z;
}.
(** The smallest instance: no notation is read. *)
Program Definition no_v6 : PyIpv6 := {| parse_v6 := λ _, None; str_v6 := λ _ _, [] |}.
Solve Obligations with done.

(** ** Addresses *)
Section address.
Context {P6 : PyIpv6}.
(** [ipaddress.ip_address(s)]; [None] is its [ValueError]. *)
Definition ip_address (s : pystr) : option address :=
  match parse_v4 s with
  | Some n => Some (V4 n)
  | None => match parse_v6 s with Some (n, z) => Some (V6 n z) | None => None end
  end.
Definition str (a : address) : pystr :=
  match a with V4 n => str_v4 n | V6 n z => str_v6 n z end.

Lemma str_v4_no_colon n : is_v4 n → contains 58%N (str_v4 n) = false.
Proof.
  intros Hn. apply octets_range in Hn. unfold str_v4. induction (octets n) as [|o l IH]; [done|].
  apply Forall_cons in Hn as [Ho Hl]. specialize (IH Hl). cbn [map].
  assert (contains 58%N (dec o) = false) as Hd.
  { assert (forallb (λ n, negb (contains 58%N (dec n))) (map Z.of_nat (seq 0 256)) = true) as H by by vm_compute.
    rewrite forallb_forall in H. apply negb_true_iff, H, in_map_iff.
    exists (Z.to_nat o). split; [lia|]. apply in_seq. lia. }
  destruct l as [|o' l]; [done|]. cbn [map join] in *. rewrite contains_app, Hd. unfold contains in *. cbn [existsb orb]. exact IH.
Qed.
Lemma ip_address_str s a : ip_address s = Some a → ip_address (str a) = Some a.
Proof.
  unfold ip_address. destruct (parse_v4 s) as [n|] eqn:H4.
  - intros [= <-]. apply parse_v4_inv in H4 as [Hn _]. cbn [str]. by rewrite parse_str_v4.
  - destruct (parse_v6 s) as [[n z]|] eqn:H6; [|done]. intros [= <-]. cbn [str].
    pose proof (parse_v6_str s n z H6) as Hp. destruct (parse_v4 (str_v6 n z)) as [m|] eqn:Hm; [|by rewrite Hp].
    apply parse_v4_inv in Hm as [Hm Heq]. apply parse_v6_colon in Hp. rewrite <-Heq in Hp.
    by rewrite str_v4_no_colon in Hp.
Qed.
End address.

(** ** Special-purpose blocks: the base and the prefix length *)
Definition block := (Z * Z)%type.
Definition in_block (width n : Z) (b : block) : bool := (n / 2 ^ (width - b.2) =? b.1 / 2 ^ (width - b.2)).
Definition v4 (a b c d : Z) : Z := ((a * 256 + b) * 256 + c) * 256 + d.
Definition private_v4 : list block :=
  [(v4 0 0 0 0, 8); (v4 10 0 0 0, 8); (v4 127 0 0 0, 8); (v4 169 254 0 0, 16); (v4 172 16 0 0, 12);
   (v4 192 0 0 0, 24); (v4 192 0 0 170, 31); (v4 192 0 2 0, 24); (v4 192 168 0 0, 16); (v4 198 18 0 0, 15);
   (v4 198 51 100 0, 24); (v4 203 0 113 0, 24); (v4 240 0 0 0, 4); (v4 255 255 255 255, 32)].
Definition private_v4_exceptions : list block := [(v4 192 0 0 9, 32); (v4 192 0 0 10, 32)].
(** Sixteen bits at a time, from the most significant. *)
Definition v6 (l : list Z) : Z := foldl (λ acc x, acc * 2 ^ 16 + x) 0 (l ++ replicate (8 - length l) 0).
Definition private_v6 : list block :=
  [(1, 128); (0, 128); (v6 [0; 0; 0; 0; 0; 0xffff], 96); (v6 [0x64; 0xff9b; 1], 48); (v6 [0x100], 64);
   (v6 [0x2001], 23); (v6 [0x2001; 0xdb8], 32); (v6 [0x2002], 16); (v6 [0x3fff], 20);
   (v6 [0xfc00], 7); (v6 [0xfe80], 10)].
Definition private_v6_exceptions : list block :=
  [(v6 [0x2001; 1; 0; 0; 0; 0; 0; 1], 128); (v6 [0x2001; 1; 0; 0; 0; 0; 0; 2], 128); (v6 [0x2001; 3], 32);
   (v6 [0x2001; 4; 0x112], 48); (v6 [0x2001; 0x20], 28); (v6 [0x2001; 0x30], 28)].
Definition reserved_v6 : list block :=
  [(0, 8); (v6 [0x100], 8); (v6 [0x200], 7); (v6 [0x400], 6); (v6 [0x800], 5); (v6 [0x1000], 4);
   (v6 [0x4000], 3); (v6 [0x6000], 3); (v6 [0x8000], 3); (v6 [0xa000], 3); (v6 [0xc000], 3);
   (v6 [0xe000], 4); (v6 [0xf000], 5); (v6 [0xf800], 6); (v6 [0xfe00], 9)].

Definition outside_v4 (n : Z) : bool :=
  existsb (in_block 32 n) private_v4 && negb (existsb (in_block 32 n) private_v4_exceptions)
  || in_block 32 n (v4 127 0 0 0, 8) || in_block 32 n (v4 169 254 0 0, 16)
  || in_block 32 n (v4 240 0 0 0, 4) || in_block 32 n (v4 224 0 0 0, 4).
(** [is_private], [is_loopback], [is_link_local], [is_reserved] or
    [is_multicast]; an IPv4 address mapped into IPv6 is judged as itself. *)
Definition special (a : address) : bool :=
  match a with
  | V4 n => outside_v4 n
  | V6 n _ =>
      if n / 2 ^ 32 =? 0xffff then outside_v4 (n mod 2 ^ 32)
      else existsb (in_block 128 n) private_v6 && negb (existsb (in_block 128 n) private_v6_exceptions)
        || (n =? 1) || in_block 128 n (v6 [0xfe80], 10) || existsb (in_block 128 n) reserved_v6
        || in_block 128 n (v6 [0xff00], 8)
  end.
#[global] Arguments in_block : simpl never.
End Ip.
