(* ===== verification/Calendar.v ===== *)
(** Calendar arithmetic of billing periods.

    A [datetime] is a number of microseconds since the epoch, in UTC.  This
    file gives its proleptic Gregorian date, as Python's [datetime] and
    [calendar] do, and models [_add_months], [add_billing_cycle],
    [subtract_months] and [current_month_period] of
    [src/backend/app/domains/billing/validators.py]. *)

From S2P Require Import Prelude.

Module Calendar.

(** ** Dates *)
Record date := mk_date { year : Z; month : Z; day : Z }.

Definition is_leap (y : Z) : bool :=
  (y mod 4 =? 0) && (negb (y mod 100 =? 0) || (y mod 400 =? 0)).

(** [calendar.monthrange(y, m)[1]]. *)
Definition days_in_month (y m : Z) : Z :=
  if m =? 2 then if is_leap y then 29 else 28
  else if (m =? 4) || (m =? 6) || (m =? 9) || (m =? 11) then 30 else 31.

Definition valid_date (d : date) : Prop :=
  1 ≤ month d ≤ 12 ∧ 1 ≤ day d ≤ days_in_month (year d) (month d).

(** [date.toordinal() - 1]: the days from 1 January of year 1. *)
Definition days_before_year (y : Z) : Z :=
  (y - 1) * 365 + (y - 1) / 4 - (y - 1) / 100 + (y - 1) / 400.
Fixpoint days_before_month (y : Z) (m : nat) : Z :=
  match m with
  | O => 0
  | S k => days_before_month y k + days_in_month y (Z.of_nat (S k))
  end.
Definition ordinal (d : date) : Z :=
  days_before_year (year d) + days_before_month (year d) (Z.to_nat (month d - 1)) + (day d - 1).

(** [date.fromordinal]: the 400-, 100-, 4- and 1-year cycles, then the months. *)
Definition split_year (n : Z) : Z * Z :=
  let a := n / 146097 in let n := n mod 146097 in
  let b := Z.min 3 (n / 36524) in let n := n - b * 36524 in
  let c := n / 1461 in let n := n mod 1461 in
  let e := Z.min 3 (n / 365) in
  (400 * a + 100 * b + 4 * c + e + 1, n - e * 365).
Fixpoint split_month (y m : Z) (fuel : nat) (n : Z) : Z * Z :=
  match fuel with
  | O => (m, n)
  | S fuel => if n <? days_in_month y m then (m, n)
              else split_month y (m + 1) fuel (n - days_in_month y m)
  end.
Definition of_ordinal (n : Z) : date :=
  let '(y, r) := split_year n in
  let '(m, r) := split_month y 1 11 r in mk_date y m (r + 1).

(** ** Datetimes *)
Definition DAY : Z := 24 * 3600 * 1000000.
(** 1 January 1970. *)
Definition epoch : Z := 719162.
Definition date_of (t : datetime) : date := of_ordinal (t / DAY + epoch).
Definition time_of (t : datetime) : Z := t mod DAY.
Definition at_date (d : date) (time : Z) : datetime := (ordinal d - epoch) * DAY + time.

(** [datetime.replace] refuses a year out of 1..9999. *)
Definition replace_date (t : datetime) (d : date) : option datetime :=
  if (1 <=? year d) && (year d <=? 9999) then Some (at_date d (time_of t)) else None.

(** The values a Python [datetime] can take. *)
Definition in_python (t : datetime) : Prop := 1 ≤ year (date_of t) ≤ 9999.

(** ** [validators.py] *)
Inductive BillingCycle := MONTHLY | YEARLY | NONE.
#[export] Instance billing_cycle_eq_dec : EqDecision BillingCycle.
Proof. solve_decision. Defined.

Definition add_months (t : datetime) (months : Z) : option datetime :=
  let d := date_of t in
  let month_index := month d - 1 + months in
  let y := year d + month_index / 12 in
  let m := month_index mod 12 + 1 in
  replace_date t (mk_date y m (Z.min (day d) (days_in_month y m))).

Definition add_billing_cycle (start : datetime) (c : BillingCycle) : option datetime :=
  match c with
  | MONTHLY => add_months start 1
  | YEARLY => add_months start 12
  | NONE => Some start
  end.
Definition subtract_months (t : datetime) (months : Z) : option datetime := add_months t (- months).
Definition current_month_period (now : datetime) : datetime * datetime :=
  (at_date (mk_date (year (date_of now)) (month (date_of now)) 1) 0, now).

(** ** Dates and day numbers correspond one to one *)
Lemma days_in_month_bounds y m : 28 ≤ days_in_month y m ≤ 31.
Proof. unfold days_in_month. repeat case_match; lia. Qed.

(** The position of a year in the 400-year cycle. *)
Lemma cycle_of y : ∃ a b c e,
  y = 400 * a + 100 * b + 4 * c + e + 1 ∧ 0 ≤ b ≤ 3 ∧ 0 ≤ c ≤ 24 ∧ 0 ≤ e ≤ 3.
Proof.
  exists ((y - 1) / 400), ((y - 1) mod 400 / 100), ((y - 1) mod 100 / 4), ((y - 1) mod 4).
  Z.div_mod_to_equations. lia.
Qed.
Lemma days_before_cycle a b c e : 0 ≤ b ≤ 3 → 0 ≤ c ≤ 24 → 0 ≤ e ≤ 3 →
  days_before_year (400 * a + 100 * b + 4 * c + e + 1) = 146097 * a + 36524 * b + 1461 * c + 365 * e.
Proof. intros. unfold days_before_year. Z.div_mod_to_equations. lia. Qed.
Lemma is_leap_cycle a b c e : 0 ≤ b ≤ 3 → 0 ≤ c ≤ 24 → 0 ≤ e ≤ 3 →
  is_leap (400 * a + 100 * b + 4 * c + e + 1) = true ↔ e = 3 ∧ (c ≠ 24 ∨ b = 3).
Proof.
  intros. unfold is_leap.
  rewrite andb_true_iff, orb_true_iff, negb_true_iff, !Z.eqb_eq, Z.eqb_neq.
  Z.div_mod_to_equations. lia.
Qed.
Definition year_length (y : Z) : Z := if is_leap y then 366 else 365.
Lemma year_length_next y : days_before_year (y + 1) = days_before_year y + year_length y.
Proof.
  destruct (cycle_of y) as (a & b & c & e & -> & Hb & Hc & He). unfold year_length.
  pose proof (is_leap_cycle a b c e Hb Hc He) as Hl. rewrite days_before_cycle by done.
  unfold days_before_year. destruct (is_leap _);
    [apply proj1 in Hl; specialize (Hl eq_refl)
    |assert (¬ (e = 3 ∧ (c ≠ 24 ∨ b = 3))) by (by rewrite <-Hl)];
    Z.div_mod_to_equations; lia.
Qed.

Lemma split_year_spec y r : 0 ≤ r < year_length y → split_year (days_before_year y + r) = (y, r).
Proof.
  destruct (cycle_of y) as (a & b & c & e & -> & Hb & Hc & He). unfold year_length.
  pose proof (is_leap_cycle a b c e Hb Hc He) as Hl. rewrite days_before_cycle by done.
  intros Hr. assert (r ≤ 364 ∨ (r = 365 ∧ e = 3 ∧ (c ≠ 24 ∨ b = 3))) as Hr'.
  { destruct (is_leap _); [|lia]. apply proj1 in Hl. specialize (Hl eq_refl). lia. }
  unfold split_year.
  set (n := 146097 * a + 36524 * b + 1461 * c + 365 * e + r).
  assert (n / 146097 = a ∧ n mod 146097 = n - 146097 * a) as [-> ->].
  { subst n. Z.div_mod_to_equations. lia. }
  replace (n - 146097 * a) with (36524 * b + 1461 * c + 365 * e + r) by lia. clear n.
  set (n := 36524 * b + _ + _ + r).
  assert (Z.min 3 (n / 36524) = b) as -> by (subst n; Z.div_mod_to_equations; lia).
  replace (n - b * 36524) with (1461 * c + 365 * e + r) by lia. clear n.
  set (n := 1461 * c + _ + r).
  assert (n / 1461 = c ∧ n mod 1461 = 365 * e + r) as [-> ->].
  { subst n. Z.div_mod_to_equations. lia. }
  assert (Z.min 3 ((365 * e + r) / 365) = e) as -> by (Z.div_mod_to_equations; lia).
  f_equal; lia.
Qed.

Lemma days_before_month_step y k : 1 ≤ k →
  days_before_month y (Z.to_nat k) = days_before_month y (Z.to_nat (k - 1)) + days_in_month y k.
Proof.
  intros Hk. replace (Z.to_nat k) with (S (Z.to_nat (k - 1))) by lia. cbn [days_before_month].
  do 2 f_equal. lia.
Qed.
Lemma days_before_month_mono y k i :
  days_before_month y k + 28 * Z.of_nat i ≤ days_before_month y (i + k).
Proof.
  induction i as [|i IH]; [cbn; lia|].
  cbn [Nat.add days_before_month]. pose proof (days_in_month_bounds y (Z.of_nat (S (i + k)))). lia.
Qed.

Lemma split_month_spec y m : ∀ fuel k r, 1 ≤ k ≤ m → m - k ≤ Z.of_nat fuel →
  0 ≤ r < days_in_month y m →
  split_month y k fuel
    (days_before_month y (Z.to_nat (m - 1)) - days_before_month y (Z.to_nat (k - 1)) + r) = (m, r).
Proof.
  induction fuel as [|fuel IH]; intros k r Hk Hf Hr; cbn [split_month].
  - replace k with m by lia. f_equal. lia.
  - destruct (decide (k = m)) as [->|Hne].
    + destruct (Z.ltb_spec (days_before_month y (Z.to_nat (m - 1))
        - days_before_month y (Z.to_nat (m - 1)) + r) (days_in_month y m)); [f_equal; lia|lia].
    + pose proof (days_before_month_step y k ltac:(lia)) as Hk1.
      pose proof (days_before_month_mono y (Z.to_nat k) (Z.to_nat (m - 1 - k))) as Hm1.
      replace (Z.to_nat (m - 1 - k) + Z.to_nat k)%nat with (Z.to_nat (m - 1)) in Hm1 by lia.
      destruct (Z.ltb_spec (days_before_month y (Z.to_nat (m - 1))
        - days_before_month y (Z.to_nat (k - 1)) + r) (days_in_month y k)); [lia|].
      rewrite <-(IH (k + 1) r) by lia. do 2 f_equal.
      replace (k + 1 - 1) with k by lia. lia.
Qed.

Lemma year_total y : days_before_month y 12 = year_length y.
Proof. unfold year_length. cbn [days_before_month]. unfold days_in_month. by destruct (is_leap y). Qed.

Lemma month_in_year y m : 1 ≤ m ≤ 12 →
  0 ≤ days_before_month y (Z.to_nat (m - 1))
  ∧ days_before_month y (Z.to_nat (m - 1)) + days_in_month y m ≤ year_length y.
Proof.
  intros Hm. rewrite <-year_total.
  split.
  - pose proof (days_before_month_mono y O (Z.to_nat (m - 1))) as H0.
    rewrite Nat.add_0_r in H0. cbn [days_before_month] in H0. lia.
  - pose proof (days_before_month_mono y (Z.to_nat m) (12 - Z.to_nat m)) as H1.
    replace (12 - Z.to_nat m + Z.to_nat m)%nat with 12%nat in H1 by lia.
    rewrite days_before_month_step in H1 by lia. lia.
Qed.

Lemma of_ordinal_of_split n y r m k :
  split_year n = (y, r) → split_month y 1 11 r = (m, k) → of_ordinal n = mk_date y m (k + 1).
Proof. intros E1 E2. unfold of_ordinal. by rewrite E1, E2. Qed.

Lemma of_ordinal_ordinal d : valid_date d → of_ordinal (ordinal d) = d.
Proof.
  destruct d as [y m d]. intros [Hm Hd]. cbn [year month day] in *.
  pose proof (month_in_year y m Hm) as Hy.
  replace d with (d - 1 + 1) at 2 by lia. eapply of_ordinal_of_split.
  - unfold ordinal. cbn [year month day]. rewrite <-Z.add_assoc. apply split_year_spec. lia.
  - pose proof (split_month_spec y m 11 1 (d - 1) ltac:(lia) ltac:(lia) ltac:(lia)) as Hs.
    replace (Z.to_nat (1 - 1)) with O in Hs by lia. cbn [days_before_month] in Hs.
    by rewrite Z.sub_0_r in Hs.
Qed.

(** Conversely, every day number is the number of a valid date. *)
Lemma split_year_inv n y r : split_year n = (y, r) → n = days_before_year y + r ∧ 0 ≤ r < year_length y.
Proof.
  unfold split_year. intros [= <- <-].
  set (a := n / 146097). set (n1 := n mod 146097).
  set (b := Z.min 3 (n1 / 36524)). set (n2 := n1 - b * 36524).
  set (c := n2 / 1461). set (n3 := n2 mod 1461). set (e := Z.min 3 (n3 / 365)).
  assert (n = 146097 * a + n1 ∧ 0 ≤ n1 < 146097) as [Hn H1]
    by (subst a n1; Z.div_mod_to_equations; lia).
  assert (0 ≤ b ≤ 3 ∧ 0 ≤ n2 ≤ 36524 ∧ (n2 = 36524 → b = 3)) as (Hb & H2 & H2')
    by (subst n2 b; Z.div_mod_to_equations; lia).
  assert (0 ≤ c ≤ 24 ∧ n2 = 1461 * c + n3 ∧ 0 ≤ n3 < 1461) as (Hc & H3 & H3')
    by (subst n3 c; Z.div_mod_to_equations; lia).
  assert (0 ≤ e ≤ 3 ∧ 0 ≤ n3 - e * 365 ≤ 365 ∧ (n3 - e * 365 = 365 → e = 3)) as (He & H4 & H4')
    by (subst e; Z.div_mod_to_equations; lia).
  pose proof (is_leap_cycle a b c e Hb Hc He) as Hl. rewrite days_before_cycle by done.
  split; [subst n2; lia|]. split; [lia|]. unfold year_length.
  destruct (is_leap _); [lia|].
  assert (¬ (e = 3 ∧ (c ≠ 24 ∨ b = 3))) by (by rewrite <-Hl). lia.
Qed.

Lemma split_month_inv y : ∀ fuel k r m s, 1 ≤ k → k + Z.of_nat fuel = 12 → 0 ≤ r →
  r < days_before_month y 12 - days_before_month y (Z.to_nat (k - 1)) →
  split_month y k fuel r = (m, s) →
  k ≤ m ≤ 12 ∧ 0 ≤ s < days_in_month y m
  ∧ r = days_before_month y (Z.to_nat (m - 1)) - days_before_month y (Z.to_nat (k - 1)) + s.
Proof.
  induction fuel as [|fuel IH]; intros k r m s Hk Hf H0 Hr; cbn [split_month].
  - intros [= <- <-]. assert (k = 12) as -> by lia.
    pose proof (days_before_month_step y 12 ltac:(lia)) as Hs.
    change (Z.to_nat 12) with 12%nat in Hs. lia.
  - destruct (Z.ltb_spec r (days_in_month y k)); [intros [= <- <-]; lia|].
    pose proof (days_before_month_step y k ltac:(lia)) as Hs. intros E.
    apply IH in E; replace (k + 1 - 1) with k in * by lia; lia.
Qed.

Lemma ordinal_of_ordinal n : valid_date (of_ordinal n) ∧ ordinal (of_ordinal n) = n.
Proof.
  destruct (split_year n) as [y r] eqn:E1. destruct (split_month y 1 11 r) as [m k] eqn:E2.
  rewrite (of_ordinal_of_split _ _ _ _ _ E1 E2). apply split_year_inv in E1 as [-> Hr].
  apply split_month_inv in E2 as (Hm & Hk & ->);
    [|lia|lia|lia|rewrite year_total; replace (Z.to_nat (1 - 1)) with O by lia;
      cbn [days_before_month]; lia].
  unfold valid_date, ordinal. cbn [year month day].
  replace (Z.to_nat (1 - 1)) with O by lia. cbn [days_before_month]. lia.
Qed.

Lemma date_of_at d time : valid_date d → 0 ≤ time < DAY → date_of (at_date d time) = d.
Proof.
  intros Hd Ht. unfold date_of, at_date.
  replace (((ordinal d - epoch) * DAY + time) / DAY) with (ordinal d - epoch)
    by (unfold DAY in *; Z.div_mod_to_equations; lia).
  rewrite Z.sub_add. by apply of_ordinal_ordinal.
Qed.
Lemma time_of_at d time : 0 ≤ time < DAY → time_of (at_date d time) = time.
Proof.
  intros Ht. unfold time_of, at_date.
  rewrite Z.add_comm, Z.mod_add by (unfold DAY; lia). by apply Z.mod_small.
Qed.
Lemma time_of_bounds t : 0 ≤ time_of t < DAY.
Proof. apply Z.mod_pos_bound. unfold DAY. lia. Qed.
Lemma date_of_valid t : valid_date (date_of t).
Proof. apply ordinal_of_ordinal. Qed.
Lemma at_date_of t : at_date (date_of t) (time_of t) = t.
Proof.
  unfold at_date, date_of, time_of. rewrite (proj2 (ordinal_of_ordinal _)).
  unfold DAY. Z.div_mod_to_equations. lia.
Qed.

(** ** What month arithmetic does *)
Lemma add_months_date t n : ∀ t', add_months t n = Some t' →
  let i := month (date_of t) - 1 + n in
  year (date_of t') = year (date_of t) + i / 12 ∧ month (date_of t') = i mod 12 + 1
  ∧ day (date_of t') = Z.min (day (date_of t)) (days_in_month (year (date_of t')) (month (date_of t')))
  ∧ time_of t' = time_of t ∧ in_python t'.
Proof.
  intros t' E i. unfold add_months, replace_date in E. fold i in E. cbn [year] in E.
  case_match eqn:Hy; [|done]. injection E as <-.
  pose proof (days_in_month_bounds (year (date_of t) + i / 12) (i mod 12 + 1)).
  destruct (date_of_valid t) as [_ Hd]. pose proof (time_of_bounds t).
  unfold in_python. rewrite date_of_at, time_of_at; [|done| |done].
  - cbn [year month day]. apply andb_true_iff in Hy as [? ?]. lia.
  - unfold valid_date. cbn [year month day]. Z.div_mod_to_equations. lia.
Qed.
Lemma add_months_defined t n :
  let y := year (date_of t) + (month (date_of t) - 1 + n) / 12 in
  add_months t n = None ↔ ¬ (1 ≤ y ≤ 9999).
Proof.
  intros y. unfold add_months, replace_date. fold y. cbn [year].
  destruct (Z.leb_spec 1 y), (Z.leb_spec y 9999); cbn [andb]; split; intros; try done; lia.
Qed.

Lemma elapsed t t' : time_of t' = time_of t →
  t' - t = (ordinal (date_of t') - ordinal (date_of t)) * DAY.
Proof.
  intros E. pose proof (at_date_of t) as H1. pose proof (at_date_of t') as H2. rewrite E in H2.
  revert H1 H2. clear E. generalize (date_of t), (date_of t'), (time_of t). unfold at_date.
  intros d d' s <- <-. lia.
Qed.

Definition month_number (d : date) : Z := year d * 12 + (month d - 1).

(** Days are counted alike whether a month follows within its year or not. *)
Lemma ordinal_next_month d d' : valid_date d → valid_date d' → month_number d' = month_number d + 1 →
  ordinal d' - day d' = ordinal d - day d + days_in_month (year d) (month d).
Proof.
  destruct d as [y m x], d' as [y' m' x']. unfold month_number, ordinal. intros [Hm _] [Hm' _] E.
  cbn [year month day] in *.
  destruct (decide (m = 12)) as [->|].
  - assert (m' = 1 ∧ y' = y + 1) as [-> ->] by lia. rewrite year_length_next, <-year_total.
    pose proof (days_before_month_step y 12 ltac:(lia)) as Hs.
    change (Z.to_nat 12) with 12%nat in Hs. change (days_before_month (y + 1) _) with 0. lia.
  - assert (m' = m + 1 ∧ y' = y) as [-> ->] by lia.
    replace (m + 1 - 1) with m by lia. rewrite days_before_month_step by lia. lia.
Qed.

Lemma not_both_leap y : ¬ (is_leap y = true ∧ is_leap (y + 1) = true).
Proof.
  unfold is_leap. intros [H1 H2]. apply andb_true_iff in H1 as [H1 _], H2 as [H2 _].
  rewrite !Z.eqb_eq in *. Z.div_mod_to_equations. lia.
Qed.
Lemma leap_shift y z k :
  days_before_month z k - days_before_month y k
  = if (2 <=? k)%nat then year_length z - year_length y else 0.
Proof.
  unfold year_length.
  induction k as [|k IH]; [done|]. cbn [days_before_month]. unfold days_in_month.
  destruct (decide (k = 1)%nat) as [->|Hk].
  - cbn [Nat.leb] in *. change (Z.of_nat 2) with 2. cbn [Z.eqb Pos.eqb].
    destruct (is_leap y), (is_leap z); lia.
  - destruct (Z.eqb_spec (Z.of_nat (S k)) 2); [lia|].
    destruct (Nat.leb_spec 2 k), (Nat.leb_spec 2 (S k)); repeat case_match; lia.
Qed.
Lemma ordinal_next_year y m x x' :
  valid_date (mk_date y m x) → x' = Z.min x (days_in_month (y + 1) m) →
  365 ≤ ordinal (mk_date (y + 1) m x') - ordinal (mk_date y m x) ≤ 366.
Proof.
  intros [Hm Hx] ->. unfold ordinal. cbn [year month day] in *. rewrite year_length_next.
  pose proof (leap_shift y (y + 1) (Z.to_nat (m - 1))) as Hs.
  pose proof (not_both_leap y) as Hl. revert Hx Hs. unfold year_length, days_in_month.
  destruct (Z.eqb_spec m 2) as [->|].
  - change (Z.to_nat (2 - 1)) with 1%nat. cbn [Nat.leb].
    destruct (is_leap y), (is_leap (y + 1)); try (by destruct Hl); lia.
  - destruct (Nat.leb_spec 2 (Z.to_nat (m - 1)));
      destruct (is_leap y), (is_leap (y + 1)); try (by destruct Hl); case_match; lia.
Qed.

(** [add_billing_cycle] is total up to the end of year 9999, and the next
    boundary it computes falls in the next month (or the same month of the
    next year) on the same day, clamped to that month's length, at the same
    time of day, 28 to 31 (or 365 to 366) days later: a period is never empty
    and never skips a month.  A [NONE] cycle has no next boundary. *)
Theorem billing_period_follows_calendar t c : in_python t →
  (add_billing_cycle t c = None ↔
     (c = MONTHLY ∧ month_number (date_of t) = 9999 * 12 + 11)
     ∨ (c = YEARLY ∧ year (date_of t) = 9999))
  ∧ ∀ t', add_billing_cycle t c = Some t' →
      match c with
      | NONE => t' = t
      | _ =>
          let n := if decide (c = MONTHLY) then 1 else 12 in
          let '(lo, hi) := if decide (c = MONTHLY) then (28, 31) else (365, 366) in
          month_number (date_of t') = month_number (date_of t) + n
          ∧ day (date_of t') =
              Z.min (day (date_of t)) (days_in_month (year (date_of t')) (month (date_of t')))
          ∧ time_of t' = time_of t
          ∧ lo * DAY ≤ t' - t ≤ hi * DAY ∧ in_python t'
      end.
Proof.
  intros Hp. pose proof (date_of_valid t) as Hv. destruct (date_of_valid t) as [Hm Hd].
  unfold in_python in Hp.
  unfold month_number. destruct c; cbn [add_billing_cycle].
  - rewrite add_months_defined. split.
    { split; [intros H; left; split; [done|]; Z.div_mod_to_equations; lia|].
      intros [[_ H]|[[=] _]]. Z.div_mod_to_equations. lia. }
    intros t' E. apply add_months_date in E as (Ey & Em & Ed & Et & Ep).
    destruct (decide _) as [_|[]]; [|done].
    assert (month_number (date_of t') = month_number (date_of t) + 1) as En
      by (unfold month_number; Z.div_mod_to_equations; lia).
    split; [exact En|]. do 2 (split; [done|]). split; [|done].
    rewrite (elapsed _ _ Et).
    pose proof (ordinal_next_month _ _ Hv (date_of_valid t') En).
    pose proof (days_in_month_bounds (year (date_of t)) (month (date_of t))).
    pose proof (days_in_month_bounds (year (date_of t')) (month (date_of t'))).
    unfold DAY. lia.
  - rewrite add_months_defined. split.
    { split; [intros H; right; split; [done|]; Z.div_mod_to_equations; lia|].
      intros [[[=] _]|[_ H]]. Z.div_mod_to_equations. lia. }
    intros t' E. apply add_months_date in E as (Ey & Em & Ed & Et & Ep).
    destruct (decide _) as [[=]|_].
    assert (year (date_of t') = year (date_of t) + 1 ∧ month (date_of t') = month (date_of t))
      as [Ey' Em'] by (Z.div_mod_to_equations; lia).
    split; [lia|]. do 2 (split; [done|]). split; [|done].
    rewrite (elapsed _ _ Et). rewrite Ey', Em' in Ed.
    destruct (date_of t) as [y m x], (date_of t') as [y' m' x']. cbn [year month day] in *. subst y' m'.
    rewrite Ey', Em'. pose proof (ordinal_next_year y m x x' Hv Ed). unfold DAY. lia.
  - split; [|by intros t' [= ->]]. split; [done|]. by intros [[[=] _]|[[=] _]].
Qed.

(** Taking back the months one has added restores the datetime exactly
    when the month between had the day: [subtract_months] is not the inverse
    of the forward arithmetic, 31 January plus and minus one month is
    28 January. *)
Theorem subtract_inverts_iff t n t' : in_python t → add_months t n = Some t' →
  ∃ t2, subtract_months t' n = Some t2
    ∧ month_number (date_of t2) = month_number (date_of t) ∧ t2 ≤ t
    ∧ (t2 = t ↔ day (date_of t) ≤ days_in_month (year (date_of t')) (month (date_of t'))).
Proof.
  intros Hp E. pose proof (add_months_date t n t' E) as (Ey & Em & Ed & Et & _).
  pose proof (date_of_valid t) as [Hm Hd]. unfold in_python in Hp.
  pose proof (add_months_defined t' (- n)) as Hdef. cbv zeta in Hdef. unfold subtract_months.
  assert (year (date_of t') + (month (date_of t') - 1 + - n) / 12 = year (date_of t)) as Hy
    by (Z.div_mod_to_equations; lia).
  destruct (add_months t' (- n)) as [t2|] eqn:E2; [|apply proj1 in Hdef; specialize (Hdef eq_refl); lia].
  exists t2. split; [done|].
  pose proof (add_months_date t' (- n) t2 E2) as (Ey2 & Em2 & Ed2 & Et2 & _).
  assert (year (date_of t2) = year (date_of t) ∧ month (date_of t2) = month (date_of t)) as [Ey2' Em2']
    by (Z.div_mod_to_equations; lia).
  unfold month_number. split; [lia|]. rewrite Ey2', Em2' in Ed2.
  rewrite Et in Et2.
  assert (t - t2 = (day (date_of t) - day (date_of t2)) * DAY) as Hel.
  { rewrite (elapsed t2 t) by done. unfold ordinal. rewrite Ey2', Em2'. lia. }
  unfold DAY in Hel. lia.
Qed.

(** ** Evaluated dates *)
Module examples.

(** 31 January 2024, 10:30 UTC. *)
Definition jan31 : datetime := at_date (mk_date 2024 1 31) (630 * 60 * 1000000).

Example jan31_is : jan31 = 1706697000 * 1000000.
Proof. by vm_compute. Qed.
Example jan31_next :
  date_of <$> add_billing_cycle jan31 MONTHLY = Some (mk_date 2024 2 29).
Proof. by vm_compute. Qed.
(** A leap day is renewed yearly on the 28th, and stays there. *)
Example leap_day_drifts :
  (t ← add_billing_cycle (at_date (mk_date 2024 2 29) 0) YEARLY;
   t ← add_billing_cycle t YEARLY; t ← add_billing_cycle t YEARLY;
   t ← add_billing_cycle t YEARLY; Some (date_of t)) = Some (mk_date 2028 2 28).
Proof. by vm_compute. Qed.

Lemma billing_period_follows_calendar_witness :
  ∃ t', add_billing_cycle jan31 YEARLY = Some t' ∧ t' - jan31 = 366 * DAY
  ∧ month_number (date_of t') = month_number (date_of jan31) + 12.
Proof.
  assert (in_python jan31) as Hp by (by vm_compute).
  destruct (billing_period_follows_calendar jan31 YEARLY Hp) as [_ H].
  destruct (add_billing_cycle jan31 YEARLY) as [t'|] eqn:E; [|by vm_compute in E].
  destruct (H t' eq_refl) as (H1 & _). exists t'. split; [done|]. split; [|exact H1].
  vm_compute in E. injection E as <-. by vm_compute.
Defined.

Lemma subtract_inverts_iff_witness :
  ∃ t2, t2 < jan31 ∧ (t ← add_months jan31 1; subtract_months t 1) = Some t2.
Proof.
  assert (in_python jan31) as Hp by (by vm_compute).
  destruct (add_months jan31 1) as [t'|] eqn:E; [|by vm_compute in E].
  destruct (subtract_inverts_iff jan31 1 t' Hp E) as (t2 & H1 & _ & H2 & H3).
  exists t2. split; [|exact H1].
  enough (t2 ≠ jan31) by lia. intros Heq. apply H3 in Heq.
  apply Z.leb_le in Heq. vm_compute in E. injection E as <-. vm_compute in Heq. discriminate Heq.
Defined.

End examples.
End Calendar.
