(* ===== verification/Money.v ===== *)
(** Amounts of money, discounts and tax.

    Models the arithmetic of [src/backend/app/domains/billing/validators.py]:
    [compute_discount_amount], [compute_taxable_value],
    [compute_tax_breakdown], [to_minor_units].  A column [Numeric(12, 2)] or
    [Numeric(5, 2)] is the integer number of its hundredths.  A [Decimal] in
    the middle of a computation is a rational: the products of such columns
    have fewer than the 28 digits of Python's context, so nothing is rounded
    before [quantize]. *)

From S2P Require Import Prelude PyStr.
From Stdlib Require Import QArith.

Module Money.

(** ** [Decimal] *)
#[local] Open Scope Q_scope.
Definition cents (c : Z) : Q := c # 100.

#[local] Close Scope Q_scope.
#[local] Open Scope Z_scope.

(** Division rounded to the nearest, ties to the even quotient
    ([ROUND_HALF_EVEN], the rounding of Python's default context), and ties
    away from zero ([ROUND_HALF_UP]). *)
Definition half_even (n d : Z) : Z :=
  let q := n / d in let r := n mod d in
  if 2 * r <? d then q else if d <? 2 * r then q + 1 else if Z.even q then q else q + 1.
Definition half_up (n d : Z) : Z :=
  Z.sgn n * ((2 * Z.abs n + d) / (2 * d)).

(** [x.quantize(Decimal("0.01"))], in hundredths. *)
Definition quantize (x : Q) : Z := half_even (Qnum x * 100) (Zpos (Qden x)).
(** [int(x.to_integral_value(rounding=ROUND_HALF_UP))]. *)
Definition to_integral_half_up (x : Q) : Z := half_up (Qnum x) (Zpos (Qden x)).

(** ** [constants.py] *)
Inductive DiscountType := PERCENTAGE | FLAT.
Inductive TaxType := GST | VAT | SALES_TAX | TAX_NONE.
Definition ZERO_DECIMAL_CURRENCIES : list pystr :=
  map u ["BIF"; "CLP"; "DJF"; "GNF"; "JPY"; "KMF"; "KRW"; "MGA"; "PYG"; "RWF"; "UGX"; "VND";
         "VUV"; "XAF"; "XOF"; "XPF"]%string.
(** In hundredths. *)
Definition MAX_PERCENTAGE_DISCOUNT_VALUE : Z := 100 * 100.

(** ** [validators.py] *)

(** [true] where the code returns, [false] where it raises
    [InvalidDiscountValueError]. *)
Definition validate_discount_value (t : DiscountType) (value : Z) : bool :=
  negb (value <? 0)
  && negb (match t with PERCENTAGE => true | FLAT => false end
           && (MAX_PERCENTAGE_DISCOUNT_VALUE <? value)).

Definition compute_discount_amount (t : DiscountType) (value base_amount : Z) : Z :=
  quantize (match t with
            | PERCENTAGE => cents base_amount * cents value / 100
            | FLAT => if Qle_bool (cents value) (cents base_amount)
                      then cents value else cents base_amount
            end)%Q.

Definition compute_taxable_value (subtotal discount_amount : Z) : Z :=
  let taxable := subtotal - discount_amount in
  if 0 <? taxable then taxable else 0.

Record GstBreakdown := mk_breakdown {
  cgst_amount : Z; sgst_amount : Z; igst_amount : Z; tax_amount : Z; is_intra_state : bool }.
Definition ZERO_BREAKDOWN : GstBreakdown := mk_breakdown 0 0 0 0 false.

(** A jurisdiction: the state and the country. *)
Record region := mk_region { state_name : pystr; country : pystr }.

Section unicode.
Context {PU : PyUnicode}.

Definition normalize_region (value : pystr) : pystr := casefold (strip value).

Definition same_region (a b : pystr) : bool :=
  bool_decide (normalize_region a = normalize_region b).

Definition compute_tax_breakdown (subtotal : Z) (tax_type : option TaxType) (rate_percentage : Z)
    (tax_exempt : bool) (platform billing : region) : GstBreakdown :=
  match tax_type with
  | None | Some TAX_NONE => ZERO_BREAKDOWN
  | Some t =>
      if tax_exempt || (rate_percentage <=? 0) then ZERO_BREAKDOWN
      else match t with
      | GST =>
          let intra := same_region (country platform) (country billing)
                       && same_region (state_name platform) (state_name billing) in
          if intra then
            let half := quantize (cents subtotal * cents rate_percentage / 2 / 100)%Q in
            mk_breakdown half half 0 (half + half + 0) true
          else
            let igst := quantize (cents subtotal * cents rate_percentage / 100)%Q in
            mk_breakdown 0 0 igst (0 + 0 + igst) false
      | _ => mk_breakdown 0 0 0 (quantize (cents subtotal * cents rate_percentage / 100)%Q) false
      end
  end.

Definition to_minor_units (amount : Q) (currency : pystr) : Z :=
  if bool_decide (upper currency ∈ ZERO_DECIMAL_CURRENCIES) then to_integral_half_up amount
  else to_integral_half_up (amount * 100)%Q.

End unicode.

(** ** Rounding *)
Lemma half_even_nearest n d : 0 < d → 2 * Z.abs (half_even n d * d - n) ≤ d.
Proof.
  intros Hd. unfold half_even. pose proof (Z.div_mod n d ltac:(lia)).
  pose proof (Z.mod_pos_bound n d Hd).
  repeat case_match; bools; nia.
Qed.

Lemma half_even_scale k n d : 0 < k → 0 < d → half_even (k * n) (k * d) = half_even n d.
Proof.
  intros Hk Hd. unfold half_even.
  rewrite Z.div_mul_cancel_l, Z.mul_mod_distr_l by lia.
  assert ((2 * (k * (n mod d)) <? k * d) = (2 * (n mod d) <? d)) as -> by (apply eq_iff_eq_true; rewrite !Z.ltb_lt; nia).
  assert ((k * d <? 2 * (k * (n mod d))) = (d <? 2 * (n mod d))) as -> by (apply eq_iff_eq_true; rewrite !Z.ltb_lt; nia).
  done.
Qed.

#[export] Instance quantize_proper : Proper (Qeq ==> eq) quantize.
Proof.
  intros [a b] [c d] E. unfold Qeq in E. cbn in E. unfold quantize. cbn.
  rewrite <-(half_even_scale (Zpos d) (a * 100)), <-(half_even_scale (Zpos b) (c * 100)) by lia.
  f_equal; lia.
Qed.

Lemma half_even_mono n m d : 0 < d → n ≤ m → half_even n d ≤ half_even m d.
Proof.
  intros Hd Hnm. unfold half_even.
  pose proof (Z.div_mod n d ltac:(lia)). pose proof (Z.mod_pos_bound n d Hd).
  pose proof (Z.div_mod m d ltac:(lia)). pose proof (Z.mod_pos_bound m d Hd).
  pose proof (Z.div_le_mono n m d Hd Hnm).
  destruct (decide (n / d = m / d)) as [E|].
  - rewrite E in *. assert (n mod d ≤ m mod d) by nia. repeat case_match; bools; lia.
  - repeat case_match; lia.
Qed.
Lemma half_even_exact n d : 0 < d → half_even (n * d) d = n.
Proof.
  intros Hd. unfold half_even. rewrite Z.div_mul, Z.mod_mul by lia.
  by destruct (Z.ltb_spec (2 * 0) d); [|lia].
Qed.
Lemma half_even_nonneg n d : 0 < d → 0 ≤ n → 0 ≤ half_even n d.
Proof. intros Hd Hn. rewrite <-(half_even_exact 0 d Hd). apply half_even_mono; lia. Qed.

Lemma half_up_exact n d : 0 < d → half_up (n * d) d = n.
Proof.
  intros Hd. unfold half_up. rewrite Z.sgn_mul, (Z.sgn_pos d) by done.
  replace ((2 * Z.abs (n * d) + d) / (2 * d)) with (Z.abs n); [lia|].
  apply Z.div_unique with d; [lia|]. rewrite Z.abs_mul, (Z.abs_eq d) by lia. lia.
Qed.

(** *** The rational computations, as integer arithmetic *)
Lemma quantize_cents c : quantize (cents c) = c.
Proof. apply (half_even_exact c 100). lia. Qed.
Lemma quantize_rate a b : quantize (cents a * cents b / 100)%Q = half_even (a * b) 10000.
Proof.
  transitivity (quantize (a * b # 1000000)).
  - apply quantize_proper. unfold Qeq, Qdiv, Qmult, Qinv, cents. cbn. lia.
  - unfold quantize. cbn [Qnum Qden]. rewrite <-(half_even_scale 100 (a * b)) by lia. f_equal; lia.
Qed.
Lemma quantize_half_rate a b : quantize (cents a * cents b / 2 / 100)%Q = half_even (a * b) 20000.
Proof.
  transitivity (quantize (a * b # 2000000)).
  - apply quantize_proper. unfold Qeq, Qdiv, Qmult, Qinv, cents. cbn. lia.
  - unfold quantize. cbn [Qnum Qden]. rewrite <-(half_even_scale 100 (a * b)) by lia. f_equal; lia.
Qed.

(** *** What a rounded quotient is *)

(** [q] is [n / d] rounded to the nearest integer, a tie to the even one. *)
Definition rounds (n d q : Z) : Prop :=
  2 * Z.abs (q * d - n) ≤ d ∧ (2 * Z.abs (q * d - n) = d → Z.even q = true).

Lemma half_even_rounds n d q : 0 < d → half_even n d = q ↔ rounds n d q.
Proof.
  intros Hd. pose proof (Z.div_mod n d ltac:(lia)) as Hn. pose proof (Z.mod_pos_bound n d Hd).
  assert (rounds n d (half_even n d)) as Hr.
  { split; [by apply half_even_nearest|]. unfold half_even. intros Htie.
    destruct (_ <? d) eqn:E1; [bools; nia|]. destruct (d <? _) eqn:E2; [bools; nia|].
    destruct (Z.even (n / d)) eqn:E3; [done|].
    rewrite Z.add_1_r, Z.even_succ, <-Z.negb_even. by rewrite E3. }
  split; [by intros <-|]. intros [H1 H2]. destruct Hr as [H3 H4].
  set (p := half_even n d) in *. assert (Z.abs (p - q) ≤ 1) by nia.
  destruct (decide (p = q)) as [|Hne]; [done|].
  assert (2 * Z.abs (q * d - n) = d ∧ 2 * Z.abs (p * d - n) = d) as [E1 E2] by nia.
  specialize (H2 E1). specialize (H4 E2).
  assert (p = q + 1 ∨ q = p + 1) as [E|E] by lia.
  - rewrite E, Z.add_1_r, Z.even_succ, <-Z.negb_even, H2 in H4. done.
  - rewrite E, Z.add_1_r, Z.even_succ, <-Z.negb_even, H4 in H2. done.
Qed.

(** ** What tax and discount are *)
Section tax.
Context {PU : PyUnicode}.

Definition taxed (t : option TaxType) (rate : Z) (exempt : bool) : Prop :=
  exempt = false ∧ 0 < rate ∧ ∃ t', t = Some t' ∧ t' ≠ TAX_NONE.
Definition intra_state (platform billing : region) : Prop :=
  normalize_region (country platform) = normalize_region (country billing)
  ∧ normalize_region (state_name platform) = normalize_region (state_name billing).

(** The rule of the law, without an algorithm: amounts are in hundredths and
    [rate] in hundredths of a percent, so that [subtotal * rate / 10000] is
    the exact tax. *)
Record lawful (subtotal : Z) (t : option TaxType) (rate : Z) (exempt : bool)
    (platform billing : region) (b : GstBreakdown) : Prop := {
  law_untaxed : ¬ taxed t rate exempt → b = ZERO_BREAKDOWN;
  law_intra : taxed t rate exempt → t = Some GST → intra_state platform billing →
    is_intra_state b = true ∧ rounds (subtotal * rate) 20000 (cgst_amount b)
    ∧ sgst_amount b = cgst_amount b ∧ igst_amount b = 0
    ∧ tax_amount b = 2 * cgst_amount b;
  law_inter : taxed t rate exempt → t = Some GST → ¬ intra_state platform billing →
    is_intra_state b = false ∧ rounds (subtotal * rate) 10000 (igst_amount b)
    ∧ cgst_amount b = 0 ∧ sgst_amount b = 0 ∧ tax_amount b = igst_amount b;
  law_flat : taxed t rate exempt → t ≠ Some GST →
    is_intra_state b = false ∧ rounds (subtotal * rate) 10000 (tax_amount b)
    ∧ cgst_amount b = 0 ∧ sgst_amount b = 0 ∧ igst_amount b = 0;
}.

Lemma taxed_dec t rate exempt : taxed t rate exempt ∨ ¬ taxed t rate exempt.
Proof.
  unfold taxed. destruct exempt; [right; by intros [? _]|].
  destruct (Z.lt_decidable 0 rate); [|right; tauto].
  destruct t as [[]|]; first [left; split; [done|]; split; [done|]; by eexists
    |right; intros (_ & _ & t' & Ht & Hne); congruence].
Qed.

Lemma untaxed_zero s t rate exempt p b :
  ¬ taxed t rate exempt → compute_tax_breakdown s t rate exempt p b = ZERO_BREAKDOWN.
Proof.
  intros H. unfold compute_tax_breakdown. destruct t as [[]|]; try done;
    (destruct (_ || _) eqn:E; [done|]); destruct H; apply orb_false_iff in E as [-> E]; bools;
    (split; [done|]; split; [lia|]; by eexists).
Qed.
Lemma taxed_runs t rate exempt : taxed t rate exempt → exempt || (rate <=? 0) = false.
Proof. intros (-> & Hr & _). apply Z.leb_gt, Hr. Qed.

Lemma intra_state_test p b :
  same_region (country p) (country b) && same_region (state_name p) (state_name b) = true
  ↔ intra_state p b.
Proof. unfold same_region. by rewrite andb_true_iff, !bool_decide_eq_true. Qed.

(** The code computes what the law prescribes, *)
Lemma law_of_breakdown s t rate exempt p b :
  lawful s t rate exempt p b (compute_tax_breakdown s t rate exempt p b).
Proof.
  split; [apply untaxed_zero|..];
    intros Ht Hg; unfold compute_tax_breakdown; rewrite (taxed_runs _ _ _ Ht).
  - subst t. intros Hi. apply intra_state_test in Hi. rewrite Hi, quantize_half_rate. cbn.
    split_and!; try done; [apply half_even_rounds; lia|lia].
  - subst t. intros Hi. rewrite <-intra_state_test in Hi. apply not_true_is_false in Hi.
    rewrite Hi, quantize_rate. cbn. split_and!; try done; apply half_even_rounds; lia.
  - destruct Ht as (_ & _ & t' & -> & Hne). rewrite quantize_rate.
    destruct t'; try done; cbn; split_and!; try done; apply half_even_rounds; lia.
Qed.

(** [compute_tax_breakdown] computes the breakdown the law prescribes and
    no other: nothing for an exempt customer or without a positive rate; two
    equal halves of the tax, each rounded half to even, for a sale within the
    platform's state; one amount otherwise. *)
Theorem tax_breakdown_lawful s t rate exempt p b x :
  compute_tax_breakdown s t rate exempt p b = x ↔ lawful s t rate exempt p b x.
Proof.
  assert (∀ y, lawful s t rate exempt p b y → y = compute_tax_breakdown s t rate exempt p b) as Huniq.
  { intros y [H0 H1 H2 H3]. destruct (taxed_dec t rate exempt) as [Ht|Ht].
    - unfold compute_tax_breakdown. rewrite (taxed_runs _ _ _ Ht).
      rewrite quantize_rate, quantize_half_rate.
      pose proof Ht as (He & Hr & t' & -> & Hne). destruct y as [cg sg ig ta ii]. cbn in *.
      destruct t'; [|destruct (H3 Ht ltac:(done)) as (-> & Hq & -> & -> & ->);
        apply half_even_rounds in Hq; [by subst|lia]..|done].
      destruct (_ && _) eqn:Eq.
      + apply intra_state_test in Eq.
        destruct (H1 Ht eq_refl Eq) as (-> & Hq & -> & -> & ->).
        apply half_even_rounds in Hq; [subst|lia]. f_equal; lia.
      + assert (¬ intra_state p b) as Hn by (rewrite <-intra_state_test, Eq; done).
        destruct (H2 Ht eq_refl Hn) as (-> & Hq & -> & -> & ->).
        apply half_even_rounds in Hq; [subst|lia]. f_equal; lia.
    - rewrite H0, untaxed_zero by done. done. }
  split; [intros <-; apply law_of_breakdown|intros H; symmetry; by apply Huniq].
Qed.

(** The total is within one hundredth of the exact tax, half of one when it is
    not split; it is never negative and grows with the amount taxed. *)
Lemma tax_close s t rate exempt p b :
  taxed t rate exempt →
  let x := compute_tax_breakdown s t rate exempt p b in
  Z.abs (tax_amount x * 10000 - s * rate) ≤ if is_intra_state x then 10000 else 5000.
Proof.
  intros Ht. unfold compute_tax_breakdown. rewrite (taxed_runs _ _ _ Ht).
  rewrite quantize_rate, quantize_half_rate. destruct Ht as (_ & _ & t' & -> & Hne).
  pose proof (half_even_nearest (s * rate) 10000 ltac:(lia)).
  pose proof (half_even_nearest (s * rate) 20000 ltac:(lia)).
  destruct t'; try done; cbn; try (destruct (_ && _); cbn); lia.
Qed.
Lemma tax_mono s s' t rate exempt p b : s ≤ s' →
  tax_amount (compute_tax_breakdown s t rate exempt p b)
  ≤ tax_amount (compute_tax_breakdown s' t rate exempt p b).
Proof.
  intros Hs. destruct (taxed_dec t rate exempt) as [Ht|Ht];
    [|rewrite !untaxed_zero by done; done].
  unfold compute_tax_breakdown. rewrite (taxed_runs _ _ _ Ht), !quantize_rate, !quantize_half_rate.
  destruct Ht as (_ & Hr & t' & -> & Hne).
  pose proof (half_even_mono (s * rate) (s' * rate) 10000 ltac:(lia) ltac:(nia)).
  pose proof (half_even_mono (s * rate) (s' * rate) 20000 ltac:(lia) ltac:(nia)).
  destruct t'; try done; cbn; try (destruct (_ && _); cbn); lia.
Qed.
Lemma tax_nonneg s t rate exempt p b : 0 ≤ s →
  0 ≤ tax_amount (compute_tax_breakdown s t rate exempt p b).
Proof.
  intros Hs. transitivity (tax_amount (compute_tax_breakdown 0 t rate exempt p b));
    [|by apply tax_mono].
  unfold compute_tax_breakdown. rewrite !quantize_rate, !quantize_half_rate.
  by destruct t as [[]|]; try done; destruct (_ || _); try done; destruct (_ && _).
Qed.

(** A discount that passed validation is between nothing and the amount it
    is taken from. *)
Lemma discount_bounded t value base :
  validate_discount_value t value = true → 0 ≤ base →
  0 ≤ compute_discount_amount t value base ≤ base.
Proof.
  unfold validate_discount_value, compute_discount_amount, MAX_PERCENTAGE_DISCOUNT_VALUE.
  intros Hv Hb. destruct t; cbn [andb] in Hv.
  - rewrite quantize_rate. bools. split; [apply half_even_nonneg; nia|].
    rewrite <-(half_even_exact base 10000) at 2 by lia. apply half_even_mono; nia.
  - bools. destruct (Qle_bool _ _) eqn:E; rewrite quantize_cents; [|lia].
    apply Qle_bool_iff in E. unfold Qle, cents in E. cbn in E. lia.
Qed.

Lemma minor_units_of_column c currency :
  to_minor_units (cents c) currency =
  if bool_decide (upper currency ∈ ZERO_DECIMAL_CURRENCIES) then half_up c 100 else c.
Proof.
  unfold to_minor_units, to_integral_half_up. destruct (bool_decide _); [done|].
  exact (half_up_exact c 100 ltac:(lia)).
Qed.
End tax.

(** ** Evaluated amounts *)
Module examples.
#[local] Existing Instance ascii_only.
Definition maharashtra : region := mk_region (u "Maharashtra") (u "IN").
Definition pune : region := mk_region (u " maharashtra ") (u "in").
Definition delhi : region := mk_region (u "Delhi") (u "IN").

(** 18 % on 999.99: 90.00 twice within the state, 180.00 across states. *)
Example within : compute_tax_breakdown 99999 (Some GST) 1800 false maharashtra pune
  = mk_breakdown 9000 9000 0 18000 true.
Proof. by vm_compute. Qed.
Example across : compute_tax_breakdown 99999 (Some GST) 1800 false maharashtra delhi
  = mk_breakdown 0 0 18000 18000 false.
Proof. by vm_compute. Qed.
(** The split can cost a hundredth: 5 % on 0.30. *)
Example split_rounds_apart :
  tax_amount (compute_tax_breakdown 30 (Some GST) 500 false maharashtra pune) = 2
  ∧ tax_amount (compute_tax_breakdown 50 (Some GST) 500 false maharashtra pune) = 2
  ∧ tax_amount (compute_tax_breakdown 62 (Some GST) 500 false maharashtra pune) = 4
  ∧ tax_amount (compute_tax_breakdown 62 (Some GST) 500 false maharashtra delhi) = 3.
Proof. by vm_compute. Qed.
End examples.
End Money.
