(* ===== verification/Billing.v ===== *)
(** Plans, licenses, coupons and subscriptions.

    Models [src/backend/app/domains/billing/{constants,models,exceptions,
    repository}.py] and the services [PlanService], [LicenseService],
    [CouponService] and [SubscriptionService] of [service.py].  Audit rows,
    log events, the entitlement cache and columns that only describe are
    dropped; amounts are in hundredths ([Money.v]). *)

From S2P Require Import Prelude Table Session PyStr Calendar Money.

Module Billing.
Export Calendar Money.

(** ** [constants.py] *)
Inductive PlanType := FREE_TRIAL | STARTER | PROFESSIONAL | BUSINESS | ENTERPRISE | MSP | CUSTOM.
Inductive LicenseStatus := PENDING_ACTIVATION | LICENSED | SUSPENDED | EXPIRED | LICENSE_CANCELLED.
Inductive LicenseChangeType := ASSIGNED | UPGRADED | DOWNGRADED.
Inductive SubscriptionStatus := TRIALING | ACTIVE | PAST_DUE | PAUSED | CANCELLED.
Inductive InvoiceStatus := DRAFT | ISSUED | PAID | OVERDUE | WITHDRAWN | VOID.
Inductive NoteType := CREDIT | DEBIT.
#[export] Instance plan_type_eq_dec : EqDecision PlanType.
Proof. solve_decision. Defined.
#[export] Instance license_status_eq_dec : EqDecision LicenseStatus.
Proof. solve_decision. Defined.
#[export] Instance change_type_eq_dec : EqDecision LicenseChangeType.
Proof. solve_decision. Defined.
#[export] Instance subscription_status_eq_dec : EqDecision SubscriptionStatus.
Proof. solve_decision. Defined.
#[export] Instance invoice_status_eq_dec : EqDecision InvoiceStatus.
Proof. solve_decision. Defined.

Definition RENEWABLE_SUBSCRIPTION_STATUSES : list SubscriptionStatus := [TRIALING; ACTIVE; PAST_DUE].
Definition CYCLIC_BILLING_CYCLES : list BillingCycle := [MONTHLY; YEARLY].

Definition LICENSE_TRANSITIONS (s : LicenseStatus) : list LicenseStatus :=
  match s with
  | PENDING_ACTIVATION => [LICENSED; LICENSE_CANCELLED]
  | LICENSED => [SUSPENDED; EXPIRED; LICENSE_CANCELLED]
  | SUSPENDED => [LICENSED; EXPIRED; LICENSE_CANCELLED]
  | EXPIRED | LICENSE_CANCELLED => []
  end.
Definition SUBSCRIPTION_TRANSITIONS (s : SubscriptionStatus) : list SubscriptionStatus :=
  match s with
  | TRIALING => [ACTIVE; PAST_DUE; CANCELLED]
  | ACTIVE => [PAST_DUE; PAUSED; CANCELLED]
  | PAST_DUE => [ACTIVE; CANCELLED]
  | PAUSED => [ACTIVE; CANCELLED]
  | CANCELLED => [ACTIVE]
  end.
Definition INVOICE_TRANSITIONS (s : InvoiceStatus) : list InvoiceStatus :=
  match s with
  | DRAFT => [ISSUED; WITHDRAWN]
  | ISSUED => [PAID; OVERDUE; VOID]
  | OVERDUE => [PAID; VOID]
  | PAID | WITHDRAWN | VOID => []
  end.

(** ** [models.py] *)
Record Organization := mk_organization {
  org_id : uuid; org_deleted : bool; contact_email : pystr; subscription_tier : option pystr }.

Record Plan := mk_plan {
  plan_id : uuid; slug : pystr; plan_type : PlanType; plan_cycle : BillingCycle;
  base_price : Z; currency : pystr; plan_active : bool; plan_deleted : bool }.

Record License := mk_license {
  license_id : uuid; license_org : uuid; license_plan : uuid; license_status : LicenseStatus;
  expires_at : option datetime; activated_at : option datetime;
  suspended_at : option datetime; license_cancelled_at : option datetime }.

Record LicenseChangeLog := mk_change {
  change_license : uuid; from_plan : option uuid; to_plan : uuid; change_type : LicenseChangeType;
  changed_at : datetime }.

Record Subscription := mk_subscription {
  subscription_id : uuid; subscription_org : uuid; subscription_license : uuid;
  subscription_plan : uuid; subscription_status : SubscriptionStatus; billing_cycle : BillingCycle;
  current_period_start : datetime; current_period_end : datetime; trial_end : option datetime;
  auto_renew : bool; cancel_at_period_end : bool; started_at : datetime;
  cancelled_at : option datetime; applied_coupon_id : option uuid; past_due_at : option datetime;
  last_renewal_reminder_sent_at : option datetime; last_expiry_reminder_sent_at : option datetime }.

Record Coupon := mk_coupon {
  coupon_id : uuid; code : pystr; discount_type : DiscountType; discount_value : Z;
  coupon_currency : option pystr; coupon_org : option uuid; max_uses : option Z; current_uses : Z;
  valid_from : datetime; valid_until : option datetime; coupon_active : bool;
  coupon_deleted : bool }.
Record CouponPlan := mk_coupon_plan { restricted_coupon : uuid; allowed_plan : uuid }.
Record CouponUsage := mk_usage {
  used_coupon : uuid; usage_org : uuid; usage_subscription : option uuid; used_at : datetime;
  discount_amount_applied : Z }.

Record TaxRate := mk_tax_rate {
  tax_rate_id : uuid; tax_type : TaxType; rate_percentage : Z; country_code : pystr;
  tax_rate_active : bool }.
(** The address itself is only copied: [billing_address] stands for it. *)
Record BillingProfile := mk_profile {
  profile_org : uuid; billing_address : pystr; billing_region : region; tax_exempt : bool }.
Record InvoiceNumberCounter := mk_counter { counter_key : pystr; last_value : Z }.
Record Invoice := mk_invoice {
  invoice_id : uuid; invoice_org : uuid; invoice_subscription : option uuid;
  payment_id : option uuid; invoice_number : pystr; invoice_status : InvoiceStatus;
  issue_date : datetime; due_date : datetime; subtotal : Z; discount_amount : Z;
  breakdown : GstBreakdown; tax_rate_percentage : Z; total_amount : Z; invoice_currency : pystr;
  billing_snapshot : BillingProfile }.
Record InvoiceItem := mk_item { item_invoice : uuid; quantity : Z; unit_price : Z; amount : Z }.
Record CreditDebitNote := mk_note {
  note_invoice : uuid; note_type : NoteType; note_number : pystr; note_amount : Z;
  issued_at : datetime }.

(** A queued reminder. *)
Inductive reminder := RenewalReminder | ExpiryReminder.
Record Notification := mk_notification {
  event_type : reminder; about_subscription : uuid; recipient : pystr; sent_at : datetime }.

#[export] Instance organization_has_id : HasId Organization := org_id.
#[export] Instance plan_has_id : HasId Plan := plan_id.
#[export] Instance license_has_id : HasId License := license_id.
#[export] Instance subscription_has_id : HasId Subscription := subscription_id.
#[export] Instance coupon_has_id : HasId Coupon := coupon_id.
#[export] Instance tax_rate_has_id : HasId TaxRate := tax_rate_id.
#[export] Instance invoice_has_id : HasId Invoice := invoice_id.

Record database := Database {
  organizations : list Organization; plans : list Plan; licenses : list License;
  change_logs : list LicenseChangeLog; subscriptions : list Subscription;
  coupons : list Coupon; coupon_plans : list CouponPlan; usages : list CouponUsage;
  tax_rates : list TaxRate; profiles : list BillingProfile;
  counters : list InvoiceNumberCounter; invoices : list Invoice; items : list InvoiceItem;
  notes : list CreditDebitNote; outbox : list Notification }.

Inductive error :=
| OrganizationNotFoundError | PlanNotFoundError | PlanInactiveError | DuplicatePlanSlugError
| LicenseNotFoundError | DuplicateLicenseError
| InvalidLicenseStatusTransitionError | LicenseNotActiveError | SamePlanError
| DowngradeBelowUsageError
| SubscriptionNotFoundError | DuplicateSubscriptionError
| InvalidSubscriptionStatusTransitionError | InvalidSubscriptionStatusForRenewalError
| SubscriptionReactivationNotAllowedError
| CouponNotFoundError | DuplicateCouponCodeError | InvalidDiscountValueError
| CouponInactiveError | CouponNotYetValidError | CouponExpiredError | CouponExhaustedError
| CouponNotApplicableToOrganizationError | CouponNotApplicableToPlanError
| TaxRateNotFoundError | InvalidTaxRateError | BillingProfileNotFoundError
| InvoiceNotFoundError | InvalidInvoiceStatusTransitionError | InvalidNoteAmountError
| PaymentProviderError | InvalidNotificationRecipientError | BillingProfileMissingError
(** Not a [BillingError]: these surface as a 500. *)
| DuplicateRecordError | DataError | ValueError | AttributeError.

Abbreviation op := (M database error).

(** ** Writes of one table, of one row *)
Definition set_organizations f d := Database (f (organizations d)) (plans d) (licenses d)
  (change_logs d) (subscriptions d) (coupons d) (coupon_plans d) (usages d) (tax_rates d)
  (profiles d) (counters d) (invoices d) (items d) (notes d) (outbox d).
Definition set_plans f d := Database (organizations d) (f (plans d)) (licenses d)
  (change_logs d) (subscriptions d) (coupons d) (coupon_plans d) (usages d) (tax_rates d)
  (profiles d) (counters d) (invoices d) (items d) (notes d) (outbox d).
Definition set_licenses f d := Database (organizations d) (plans d) (f (licenses d))
  (change_logs d) (subscriptions d) (coupons d) (coupon_plans d) (usages d) (tax_rates d)
  (profiles d) (counters d) (invoices d) (items d) (notes d) (outbox d).
Definition set_change_logs f d := Database (organizations d) (plans d) (licenses d)
  (f (change_logs d)) (subscriptions d) (coupons d) (coupon_plans d) (usages d) (tax_rates d)
  (profiles d) (counters d) (invoices d) (items d) (notes d) (outbox d).
Definition set_subscriptions f d := Database (organizations d) (plans d) (licenses d)
  (change_logs d) (f (subscriptions d)) (coupons d) (coupon_plans d) (usages d) (tax_rates d)
  (profiles d) (counters d) (invoices d) (items d) (notes d) (outbox d).
Definition set_coupons f d := Database (organizations d) (plans d) (licenses d)
  (change_logs d) (subscriptions d) (f (coupons d)) (coupon_plans d) (usages d) (tax_rates d)
  (profiles d) (counters d) (invoices d) (items d) (notes d) (outbox d).
Definition set_coupon_plans f d := Database (organizations d) (plans d) (licenses d)
  (change_logs d) (subscriptions d) (coupons d) (f (coupon_plans d)) (usages d) (tax_rates d)
  (profiles d) (counters d) (invoices d) (items d) (notes d) (outbox d).
Definition set_usages f d := Database (organizations d) (plans d) (licenses d)
  (change_logs d) (subscriptions d) (coupons d) (coupon_plans d) (f (usages d)) (tax_rates d)
  (profiles d) (counters d) (invoices d) (items d) (notes d) (outbox d).
Definition set_tax_rates f d := Database (organizations d) (plans d) (licenses d)
  (change_logs d) (subscriptions d) (coupons d) (coupon_plans d) (usages d) (f (tax_rates d))
  (profiles d) (counters d) (invoices d) (items d) (notes d) (outbox d).
Definition set_profiles f d := Database (organizations d) (plans d) (licenses d)
  (change_logs d) (subscriptions d) (coupons d) (coupon_plans d) (usages d) (tax_rates d)
  (f (profiles d)) (counters d) (invoices d) (items d) (notes d) (outbox d).
Definition set_counters f d := Database (organizations d) (plans d) (licenses d)
  (change_logs d) (subscriptions d) (coupons d) (coupon_plans d) (usages d) (tax_rates d)
  (profiles d) (f (counters d)) (invoices d) (items d) (notes d) (outbox d).
Definition set_invoices f d := Database (organizations d) (plans d) (licenses d)
  (change_logs d) (subscriptions d) (coupons d) (coupon_plans d) (usages d) (tax_rates d)
  (profiles d) (counters d) (f (invoices d)) (items d) (notes d) (outbox d).
Definition set_items f d := Database (organizations d) (plans d) (licenses d)
  (change_logs d) (subscriptions d) (coupons d) (coupon_plans d) (usages d) (tax_rates d)
  (profiles d) (counters d) (invoices d) (f (items d)) (notes d) (outbox d).
Definition set_notes f d := Database (organizations d) (plans d) (licenses d)
  (change_logs d) (subscriptions d) (coupons d) (coupon_plans d) (usages d) (tax_rates d)
  (profiles d) (counters d) (invoices d) (items d) (f (notes d)) (outbox d).
Definition set_outbox f d := Database (organizations d) (plans d) (licenses d)
  (change_logs d) (subscriptions d) (coupons d) (coupon_plans d) (usages d) (tax_rates d)
  (profiles d) (counters d) (invoices d) (items d) (notes d) (f (outbox d)).

Definition with_tier (t : pystr) (o : Organization) : Organization :=
  mk_organization (org_id o) (org_deleted o) (contact_email o) (Some t).
Definition with_retired (p : Plan) : Plan :=
  mk_plan (plan_id p) (slug p) (plan_type p) (plan_cycle p) (base_price p) (currency p) false true.
Definition with_license (s : LicenseStatus) (act susp canc : option datetime) (l : License) : License :=
  mk_license (license_id l) (license_org l) (license_plan l) s (expires_at l) act susp canc.
Definition with_license_plan (p : uuid) (l : License) : License :=
  mk_license (license_id l) (license_org l) p (license_status l) (expires_at l)
    (activated_at l) (suspended_at l) (license_cancelled_at l).
Definition with_status (s : SubscriptionStatus) (x : Subscription) : Subscription :=
  mk_subscription (subscription_id x) (subscription_org x) (subscription_license x)
    (subscription_plan x) s (billing_cycle x) (current_period_start x) (current_period_end x)
    (trial_end x) (auto_renew x) (cancel_at_period_end x) (started_at x) (cancelled_at x)
    (applied_coupon_id x) (past_due_at x) (last_renewal_reminder_sent_at x)
    (last_expiry_reminder_sent_at x).
Definition with_period (a b : datetime) (x : Subscription) : Subscription :=
  mk_subscription (subscription_id x) (subscription_org x) (subscription_license x)
    (subscription_plan x) (subscription_status x) (billing_cycle x) a b
    (trial_end x) (auto_renew x) (cancel_at_period_end x) (started_at x) (cancelled_at x)
    (applied_coupon_id x) (past_due_at x) (last_renewal_reminder_sent_at x)
    (last_expiry_reminder_sent_at x).
Definition with_renewal (auto at_end : bool) (x : Subscription) : Subscription :=
  mk_subscription (subscription_id x) (subscription_org x) (subscription_license x)
    (subscription_plan x) (subscription_status x) (billing_cycle x) (current_period_start x)
    (current_period_end x) (trial_end x) auto at_end (started_at x) (cancelled_at x)
    (applied_coupon_id x) (past_due_at x) (last_renewal_reminder_sent_at x)
    (last_expiry_reminder_sent_at x).
Definition with_cancelled (t : option datetime) (x : Subscription) : Subscription :=
  mk_subscription (subscription_id x) (subscription_org x) (subscription_license x)
    (subscription_plan x) (subscription_status x) (billing_cycle x) (current_period_start x)
    (current_period_end x) (trial_end x) (auto_renew x) (cancel_at_period_end x) (started_at x) t
    (applied_coupon_id x) (past_due_at x) (last_renewal_reminder_sent_at x)
    (last_expiry_reminder_sent_at x).
Definition with_past_due (t : option datetime) (x : Subscription) : Subscription :=
  mk_subscription (subscription_id x) (subscription_org x) (subscription_license x)
    (subscription_plan x) (subscription_status x) (billing_cycle x) (current_period_start x)
    (current_period_end x) (trial_end x) (auto_renew x) (cancel_at_period_end x) (started_at x)
    (cancelled_at x) (applied_coupon_id x) t (last_renewal_reminder_sent_at x)
    (last_expiry_reminder_sent_at x).
Definition with_reminders (r e : option datetime) (x : Subscription) : Subscription :=
  mk_subscription (subscription_id x) (subscription_org x) (subscription_license x)
    (subscription_plan x) (subscription_status x) (billing_cycle x) (current_period_start x)
    (current_period_end x) (trial_end x) (auto_renew x) (cancel_at_period_end x) (started_at x)
    (cancelled_at x) (applied_coupon_id x) (past_due_at x) r e.
Definition with_plan (p : uuid) (c : BillingCycle) (x : Subscription) : Subscription :=
  mk_subscription (subscription_id x) (subscription_org x) (subscription_license x)
    p (subscription_status x) c (current_period_start x)
    (current_period_end x) (trial_end x) (auto_renew x) (cancel_at_period_end x) (started_at x)
    (cancelled_at x) (applied_coupon_id x) (past_due_at x) (last_renewal_reminder_sent_at x)
    (last_expiry_reminder_sent_at x).
Definition with_uses (n : Z) (c : Coupon) : Coupon :=
  mk_coupon (coupon_id c) (code c) (discount_type c) (discount_value c) (coupon_currency c)
    (coupon_org c) (max_uses c) n (valid_from c) (valid_until c) (coupon_active c)
    (coupon_deleted c).
Definition with_withdrawn (c : Coupon) : Coupon :=
  mk_coupon (coupon_id c) (code c) (discount_type c) (discount_value c) (coupon_currency c)
    (coupon_org c) (max_uses c) (current_uses c) (valid_from c) (valid_until c) false true.

Section service.
Context {PU : PyUnicode}.

Definition days (n : Z) : Z := n * DAY.

(** ** Organizations: [domains/organization/service.py] *)
Definition get_organization (k : uuid) : op Organization :=
  row ← gets (λ d, select_one (λ o, has_id k o && negb (org_deleted o)) (organizations d));
  of_option row OrganizationNotFoundError.
Definition sync_subscription_tier (k : uuid) (tier : pystr) : op unit :=
  o ← get_organization k;
  modify (set_organizations (set_row (with_tier tier) (org_id o))).

(** ** [PlanService] *)
Definition live_plan (k : uuid) (d : database) : option Plan :=
  select_one (λ p, has_id k p && negb (plan_deleted p)) (plans d).
Definition get_plan (k : uuid) : op Plan :=
  row ← gets (live_plan k); of_option row PlanNotFoundError.
Definition get_active_plan (k : uuid) : op Plan :=
  p ← get_plan k;
  _ ← raise_if (negb (plan_active p)) PlanInactiveError;
  mret p.

Definition normalize_slug (s : pystr) : pystr := lower (strip s).
(** [create_plan], its features aside. *)
Definition create_plan (id : uuid) (name : pystr) (t : PlanType) (c : BillingCycle) (price : Z)
    (cur : pystr) (active : bool) : op Plan :=
  let s := normalize_slug name in
  clash ← gets (λ d, select_one (λ p, bool_decide (slug p = s) && negb (plan_deleted p)) (plans d));
  _ ← raise_if (bool_decide (is_Some clash)) DuplicatePlanSlugError;
  taken ← gets (λ d, 0 <? rowcount (λ p, bool_decide (slug p = s) || has_id id p) (plans d));
  _ ← raise_if taken DuplicateRecordError;
  let p := mk_plan id s t c price cur active false in
  _ ← modify (set_plans (insert_row p));
  mret p.
Definition deactivate_plan (k : uuid) : op Plan :=
  p ← get_plan k;
  _ ← modify (set_plans (set_row with_retired k));
  mret (with_retired p).

(** ** [LicenseService] *)
Definition assert_transition (current target : LicenseStatus) : op unit :=
  raise_if (negb (bool_decide (target ∈ LICENSE_TRANSITIONS current)))
    InvalidLicenseStatusTransitionError.

(** [None] is the platform: no tenant to compare with. *)
Definition foreign (org : option uuid) (k : uuid) : bool :=
  match org with Some o => negb (bool_decide (k = o)) | None => false end.

Definition get_license (k : uuid) (org : option uuid) : op License :=
  row ← gets (λ d, by_id k (licenses d));
  l ← of_option row LicenseNotFoundError;
  _ ← raise_if (foreign org (license_org l)) LicenseNotFoundError;
  mret l.
Definition license_of (org : uuid) (d : database) : option License :=
  select_one (λ l, bool_decide (license_org l = org)) (licenses d).
Definition get_license_for_organization (org : uuid) : op License :=
  row ← gets (license_of org); of_option row LicenseNotFoundError.

Definition update_license (l : License) (f : License → License) : op License :=
  _ ← modify (set_licenses (set_row f (license_id l)));
  mret (f l).

Definition assign_license (now : datetime) (id org plan : uuid) (expiry : option datetime)
    : op License :=
  existing ← gets (license_of org);
  _ ← raise_if (bool_decide (is_Some existing)) DuplicateLicenseError;
  p ← get_active_plan plan;
  known ← gets (λ d, bool_decide (is_Some (by_id org (organizations d)))
                     && bool_decide (by_id id (licenses d) = None));
  _ ← raise_if (negb known) DuplicateRecordError;
  let l := mk_license id org (plan_id p) PENDING_ACTIVATION expiry None None None in
  _ ← modify (set_licenses (insert_row l));
  _ ← modify (set_change_logs (insert_row (mk_change id None (plan_id p) ASSIGNED now)));
  _ ← sync_subscription_tier org (slug p);
  mret l.

Definition activated (now : datetime) (l : License) : License :=
  with_license LICENSED
    (match activated_at l with Some t => Some t | None => Some now end)
    (if bool_decide (license_status l = SUSPENDED) then None else suspended_at l)
    (license_cancelled_at l) l.
Definition activate_license (now : datetime) (k : uuid) (org : option uuid) : op License :=
  l ← get_license k org;
  _ ← assert_transition (license_status l) LICENSED;
  update_license l (activated now).

Definition suspended (now : datetime) (l : License) : License :=
  with_license SUSPENDED (activated_at l) (Some now) (license_cancelled_at l) l.
Definition suspend_license (now : datetime) (k : uuid) (org : option uuid) : op License :=
  l ← get_license k org;
  _ ← assert_transition (license_status l) SUSPENDED;
  update_license l (suspended now).

Definition license_ended (now : datetime) (l : License) : License :=
  with_license LICENSE_CANCELLED (activated_at l) (suspended_at l) (Some now) l.
Definition cancel_license (now : datetime) (k : uuid) (org : option uuid) : op License :=
  l ← get_license k org;
  _ ← assert_transition (license_status l) LICENSE_CANCELLED;
  update_license l (license_ended now).

Definition expired (l : License) : License :=
  with_license EXPIRED (activated_at l) (suspended_at l) (license_cancelled_at l) l.
Definition expire_license (k : uuid) : op License :=
  l ← get_license k None;
  _ ← assert_transition (license_status l) EXPIRED;
  update_license l expired.

(** What gates the product: an active license that is not past its own date. *)
Definition usable (now : datetime) (l : License) : bool :=
  bool_decide (license_status l = LICENSED)
  && negb (match expires_at l with Some t => t <=? now | None => false end).
Definition validate_license (now : datetime) (org : uuid) : op License :=
  l ← get_license_for_organization org;
  _ ← raise_if (negb (usable now l)) LicenseNotActiveError;
  mret l.

Definition subscription_of (org : uuid) (d : database) : option Subscription :=
  select_one (λ x, bool_decide (subscription_org x = org)) (subscriptions d).
Definition update_subscription (x : Subscription) (f : Subscription → Subscription)
    : op Subscription :=
  _ ← modify (set_subscriptions (set_row f (subscription_id x)));
  mret (f x).

Definition sync_subscription_plan (org : uuid) (p : Plan) : op unit :=
  row ← gets (subscription_of org);
  match row with
  | None => mret tt
  | Some x =>
      if bool_decide (subscription_plan x = plan_id p) && bool_decide (billing_cycle x = plan_cycle p)
      then mret tt
      else _ ← update_subscription x (with_plan (plan_id p) (plan_cycle p)); mret tt
  end.

(** [upgrade_license], [downgrade_license].  [exceeded] is what the usage
    validator reports for the new plan. *)
Definition change_plan (now : datetime) (k new_plan : uuid) (org : option uuid)
    (t : LicenseChangeType) (exceeded : bool) : op License :=
  l ← get_license k org;
  _ ← raise_if (negb (bool_decide (license_status l = LICENSED))) InvalidLicenseStatusTransitionError;
  _ ← raise_if (bool_decide (license_plan l = new_plan)) SamePlanError;
  p ← get_active_plan new_plan;
  _ ← raise_if (bool_decide (t = DOWNGRADED) && exceeded) DowngradeBelowUsageError;
  y ← update_license l (with_license_plan (plan_id p));
  _ ← modify (set_change_logs
        (insert_row (mk_change (license_id l) (Some (license_plan l)) (plan_id p) t now)));
  _ ← sync_subscription_plan (license_org y) p;
  _ ← sync_subscription_tier (license_org y) (slug p);
  mret y.

(** ** [CouponService] *)
Definition normalize_coupon_code (s : pystr) : pystr := upper (strip s).
Definition get_coupon_by_code (c : pystr) (d : database) : option Coupon :=
  select_one (λ x, bool_decide (code x = c) && negb (coupon_deleted x)) (coupons d).
Definition list_applicable_plan_ids (k : uuid) (d : database) : list uuid :=
  map allowed_plan (select (λ r, bool_decide (restricted_coupon r = k)) (coupon_plans d)).

Definition set_applicable_plans (k : uuid) (allowed : list uuid) : op unit :=
  _ ← modify (set_coupon_plans (select (λ r, negb (bool_decide (restricted_coupon r = k)))));
  _ ← raise_if (negb (bool_decide (NoDup allowed))) DuplicateRecordError;
  modify (set_coupon_plans (insert_rows (map (mk_coupon_plan k) allowed))).
Definition create_coupon (id : uuid) (raw : pystr) (t : DiscountType) (value : Z)
    (cur : option pystr) (org : option uuid) (cap : option Z) (from : datetime)
    (until : option datetime) (active : bool) (allowed : list uuid) : op Coupon :=
  let c := normalize_coupon_code raw in
  clash ← gets (get_coupon_by_code c);
  _ ← raise_if (bool_decide (is_Some clash)) DuplicateCouponCodeError;
  _ ← raise_if (negb (validate_discount_value t value)) InvalidDiscountValueError;
  taken ← gets (λ d, 0 <? rowcount (λ x, bool_decide (code x = c) || has_id id x) (coupons d));
  _ ← raise_if taken DuplicateRecordError;
  let x := mk_coupon id c t value cur org cap 0 from until active false in
  _ ← modify (set_coupons (insert_row x));
  _ ← (if bool_decide (allowed = []) then mret tt else set_applicable_plans id allowed);
  mret x.

Definition get_coupon (k : uuid) : op Coupon :=
  row ← gets (λ d, select_one (λ c, has_id k c && negb (coupon_deleted c)) (coupons d));
  of_option row CouponNotFoundError.
Definition deactivate_coupon (k : uuid) : op Coupon :=
  c ← get_coupon k;
  _ ← modify (set_coupons (set_row with_withdrawn k));
  mret (with_withdrawn c).

(** [update_coupon]: the fields a [PATCH] sets. *)
Record coupon_change := mk_coupon_change {
  set_type : option DiscountType; set_value : option Z; set_cap : option (option Z);
  set_from : option datetime; set_until : option (option datetime); set_active : option bool }.
Definition changed (ch : coupon_change) (c : Coupon) : Coupon :=
  mk_coupon (coupon_id c) (code c) (default (discount_type c) (set_type ch))
    (default (discount_value c) (set_value ch)) (coupon_currency c) (coupon_org c)
    (default (max_uses c) (set_cap ch)) (current_uses c) (default (valid_from c) (set_from ch))
    (default (valid_until c) (set_until ch)) (default (coupon_active c) (set_active ch))
    (coupon_deleted c).
Definition update_coupon (k : uuid) (ch : coupon_change) (allowed : option (list uuid)) : op Coupon :=
  c ← get_coupon k;
  _ ← (if bool_decide (is_Some (set_type ch)) || bool_decide (is_Some (set_value ch)) then
         raise_if (negb (validate_discount_value (default (discount_type c) (set_type ch))
                           (default (discount_value c) (set_value ch)))) InvalidDiscountValueError
       else mret tt);
  _ ← modify (set_coupons (set_row (changed ch) k));
  _ ← match allowed with None => mret tt | Some ps => set_applicable_plans k ps end;
  mret (changed ch c).

(** The first reason for which a coupon is refused. *)
Definition coupon_refusal (now : datetime) (org plan : uuid) (allowed : list uuid) (c : Coupon)
    : option error :=
  if negb (coupon_active c) then Some CouponInactiveError
  else if now <? valid_from c then Some CouponNotYetValidError
  else if match valid_until c with Some t => t <=? now | None => false end
  then Some CouponExpiredError
  else if match max_uses c with Some n => n <=? current_uses c | None => false end
  then Some CouponExhaustedError
  else if match coupon_org c with Some o => negb (bool_decide (o = org)) | None => false end
  then Some CouponNotApplicableToOrganizationError
  else if negb (bool_decide (allowed = [])) && negb (bool_decide (plan ∈ allowed))
  then Some CouponNotApplicableToPlanError
  else None.
Definition validate_coupon (now : datetime) (raw : pystr) (org plan : uuid) : op Coupon :=
  row ← gets (get_coupon_by_code (normalize_coupon_code raw));
  c ← of_option row CouponNotFoundError;
  allowed ← gets (list_applicable_plan_ids (coupon_id c));
  match coupon_refusal now org plan allowed c with
  | Some e => raise e
  | None => mret c
  end.

Definition create_coupon_usage (r : CouponUsage) : op unit := modify (set_usages (insert_row r)).
(** One [UPDATE ... SET current_uses = current_uses + 1 WHERE id = :id]. *)
Definition increment_current_uses (k : uuid) : op unit :=
  modify (set_coupons (update (has_id k) (λ c, with_uses (current_uses c + 1) c))).

(** [apply_coupon] after the validation: the writes. *)
Definition redeem_coupon (now : datetime) (org : uuid) (sub : option uuid) (base_amount : Z)
    (c : Coupon) : op Z :=
  let discount := compute_discount_amount (discount_type c) (discount_value c) base_amount in
  _ ← create_coupon_usage (mk_usage (coupon_id c) org sub now discount);
  _ ← increment_current_uses (coupon_id c);
  mret discount.
Definition apply_coupon (now : datetime) (raw : pystr) (org : uuid) (sub : option uuid) (plan : uuid)
    (base_amount : Z) : op Z :=
  c ← validate_coupon now raw org plan;
  redeem_coupon now org sub base_amount c.

(** ** [SubscriptionService] *)
Variable trial_period_days : Z.

Definition assert_subscription_transition (current target : SubscriptionStatus) : op unit :=
  raise_if (negb (bool_decide (target ∈ SUBSCRIPTION_TRANSITIONS current)))
    InvalidSubscriptionStatusTransitionError.

Definition get_subscription (k : uuid) (org : option uuid) : op Subscription :=
  row ← gets (λ d, by_id k (subscriptions d));
  x ← of_option row SubscriptionNotFoundError;
  _ ← raise_if (foreign org (subscription_org x)) SubscriptionNotFoundError;
  mret x.

Definition new_subscription (now : datetime) (id org license : uuid) (p : Plan) (coupon : option Coupon)
    (period_end : datetime) : Subscription :=
  let trial := bool_decide (plan_type p = FREE_TRIAL) in
  mk_subscription id org license (plan_id p) (if trial then TRIALING else ACTIVE) (plan_cycle p)
    now period_end (if trial then Some period_end else None) true false now None
    (coupon_id <$> coupon) None None None.

Definition create_subscription (now : datetime) (id license org plan : uuid)
    (coupon_code : option pystr) : op Subscription :=
  existing ← gets (subscription_of org);
  _ ← raise_if (bool_decide (is_Some existing)) DuplicateSubscriptionError;
  p ← get_active_plan plan;
  coupon ← match coupon_code with
           | None => mret None
           | Some raw => c ← validate_coupon now raw org (plan_id p); mret (Some c)
           end;
  l ← assign_license now license org (plan_id p) None;
  l ← activate_license now (license_id l) None;
  period_end ← of_option
    (if bool_decide (plan_type p = FREE_TRIAL) then Some (now + days trial_period_days)
     else add_billing_cycle now (plan_cycle p)) ValueError;
  fresh ← gets (λ d, bool_decide (by_id id (subscriptions d) = None));
  _ ← raise_if (negb fresh) DuplicateRecordError;
  let x := new_subscription now id org (license_id l) p coupon period_end in
  _ ← modify (set_subscriptions (insert_row x));
  _ ← match coupon with
      | None => mret 0
      | Some c => apply_coupon now (code c) org (Some id) (plan_id p) (base_price p)
      end;
  mret x.

Definition cancelled_now (now : datetime) (x : Subscription) : Subscription :=
  with_past_due None (with_renewal false false (with_cancelled (Some now) (with_status CANCELLED x))).
Definition cancel_subscription (now : datetime) (k : uuid) (org : option uuid) (immediate : bool)
    : op Subscription :=
  x ← get_subscription k org;
  _ ← raise_if (bool_decide (subscription_status x = CANCELLED))
        InvalidSubscriptionStatusTransitionError;
  if immediate then
    _ ← assert_subscription_transition (subscription_status x) CANCELLED;
    y ← update_subscription x (cancelled_now now);
    _ ← suspend_license now (subscription_license x) None;
    mret y
  else
    update_subscription x (λ x, with_renewal (auto_renew x) true x).

Definition reactivated (now period_end : datetime) (x : Subscription) : Subscription :=
  with_period now period_end (with_renewal true false (with_cancelled None (with_status ACTIVE x))).
Definition reactivate_subscription (now : datetime) (k : uuid) (org : option uuid)
    : op Subscription :=
  x ← get_subscription k org;
  _ ← assert_subscription_transition (subscription_status x) ACTIVE;
  l ← get_license (subscription_license x) None;
  _ ← raise_if (bool_decide (license_status l = EXPIRED)) SubscriptionReactivationNotAllowedError;
  _ ← (if bool_decide (license_status l = SUSPENDED)
       then activate_license now (license_id l) None else mret l);
  e ← of_option (add_billing_cycle now (billing_cycle x)) ValueError;
  update_subscription x (reactivated now e).

Definition pause_subscription (k : uuid) (org : option uuid) : op Subscription :=
  x ← get_subscription k org;
  _ ← assert_subscription_transition (subscription_status x) PAUSED;
  update_subscription x (with_status PAUSED).

Definition resume_subscription (now : datetime) (k : uuid) (org : option uuid) : op Subscription :=
  x ← get_subscription k org;
  _ ← assert_subscription_transition (subscription_status x) ACTIVE;
  if current_period_end x <=? now then
    e ← of_option (add_billing_cycle now (billing_cycle x)) ValueError;
    update_subscription x (λ x, with_period now e (with_status ACTIVE x))
  else update_subscription x (with_status ACTIVE).

Definition update_renewal_settings (k org : uuid) (auto : bool) : op Subscription :=
  x ← get_subscription k (Some org);
  update_subscription x (λ x, with_renewal auto (cancel_at_period_end x) x).
End service.

(** ** Rows that belong together *)

(** One license and one subscription per organization, and the license of a
    subscription is its organization's. *)
Record consistent (d : database) : Prop := {
  keyed_licenses : keyed (licenses d);
  keyed_subscriptions : keyed (subscriptions d);
  one_license : NoDup (map license_org (licenses d));
  one_subscription : NoDup (map subscription_org (subscriptions d));
  linked : ∀ x, x ∈ subscriptions d → ∃ l,
    by_id (subscription_license x) (licenses d) = Some l ∧ license_org l = subscription_org x;
}.

(** A subscription with its license. *)
Definition pair_of (d : database) (k : uuid) : option (Subscription * License) :=
  x ← by_id k (subscriptions d);
  l ← by_id (subscription_license x) (licenses d);
  Some (x, l).

(** Everything but subscriptions, licenses and the outbox. *)
Definition frame (d : database) : database :=
  set_subscriptions (λ _, []) (set_licenses (λ _, []) (set_outbox (λ _, []) d)).

(** A write that leaves a row's identity alone. *)
Definition same_subscription (f : Subscription → Subscription) : Prop := ∀ x,
  subscription_id (f x) = subscription_id x ∧ subscription_org (f x) = subscription_org x
  ∧ subscription_license (f x) = subscription_license x.
Definition same_license (f : License → License) : Prop := ∀ l,
  license_id (f l) = license_id l ∧ license_org (f l) = license_org l.

Lemma pair_of_Some d k x l :
  pair_of d k = Some (x, l) ↔
  by_id k (subscriptions d) = Some x ∧ by_id (subscription_license x) (licenses d) = Some l.
Proof.
  unfold pair_of. destruct (by_id k (subscriptions d)) as [y|]; cbn; [|by split; [|intros [??]]].
  destruct (by_id (subscription_license y) (licenses d)) as [m|] eqn:E; cbn.
  - split; [by intros [= -> ->]|]. by intros [[= ->] ?]; simplify_eq.
  - split; [done|]. intros [[= ->] ?]. congruence.
Qed.

Lemma consistent_pair d x : consistent d → x ∈ subscriptions d →
  ∃ l, pair_of d (subscription_id x) = Some (x, l).
Proof.
  intros Hd Hx. destruct (linked d Hd x Hx) as (l & Hl & _). exists l.
  apply pair_of_Some. split; [|done]. by apply by_id_unique; [apply Hd| |].
Qed.

(** Two subscriptions never share a license. *)
Lemma licenses_apart d j k x l y m : consistent d →
  pair_of d j = Some (x, l) → pair_of d k = Some (y, m) → license_id l = license_id m → j = k.
Proof.
  intros Hd (Hx & Hl)%pair_of_Some (Hy & Hm)%pair_of_Some E.
  pose proof (by_id_Some _ _ _ Hx) as [Hxin Hxk]. pose proof (by_id_Some _ _ _ Hy) as [Hyin Hyk].
  destruct (linked d Hd x Hxin) as (l' & Hl' & Ho). destruct (linked d Hd y Hyin) as (m' & Hm' & Ho').
  pose proof (by_id_Some _ _ _ Hl) as [_ Hlk]. pose proof (by_id_Some _ _ _ Hm) as [_ Hmk].
  unfold row_id, license_has_id, subscription_has_id in *.
  assert (l = m) as -> by congruence. simplify_eq.
  enough (x = y) by congruence.
  eapply (NoDup_map_eq subscription_org); [apply Hd|done|done|]. congruence.
Qed.

Lemma keyed_licenses_row f k ls : same_license f →
  map license_org (set_row f k ls) = map license_org ls
  ∧ map row_id (set_row f k ls) = map row_id ls.
Proof. intros Hf. unfold set_row. split; apply map_update; intros l; apply Hf. Qed.
Lemma keyed_subscriptions_row f k xs : same_subscription f →
  map subscription_org (set_row f k xs) = map subscription_org xs
  ∧ map row_id (set_row f k xs) = map row_id xs.
Proof. intros Hf. unfold set_row. split; apply map_update; intros x; apply Hf. Qed.

Definition write_pair (f : Subscription → Subscription) (k : uuid)
    (g : License → License) (j : uuid) (d : database) : database :=
  set_licenses (set_row g j) (set_subscriptions (set_row f k) d).

Lemma consistent_write f k g j d : same_subscription f → same_license g →
  consistent d → consistent (write_pair f k g j d).
Proof.
  intros Hf Hg [H1 H2 H3 H4 H5]. unfold write_pair.
  destruct (keyed_licenses_row g j (licenses d) Hg) as [E1 E2].
  destruct (keyed_subscriptions_row f k (subscriptions d) Hf) as [E3 E4].
  split; cbn [licenses subscriptions set_licenses set_subscriptions].
  - unfold keyed. by rewrite E2.
  - unfold keyed. by rewrite E4.
  - by rewrite E1.
  - by rewrite E3.
  - intros y Hy. apply elem_of_update in Hy as (x & Hx & Hy).
    assert (subscription_license y = subscription_license x ∧ subscription_org y = subscription_org x)
      as [-> ->] by (destruct (Hf x) as (? & ? & ?); subst y; destruct (has_id k x); auto).
    destruct (H5 x Hx) as (l & Hl & Ho).
    rewrite by_id_set_row by apply Hg. destruct (decide (j = subscription_license x)) as [->|].
    + rewrite Hl. exists (g l). split; [done|]. by rewrite (proj2 (Hg l)).
    + by exists l.
Qed.

Lemma pair_of_write f k g x l d i : same_subscription f → same_license g →
  consistent d → pair_of d k = Some (x, l) →
  pair_of (write_pair f k g (license_id l) d) i
  = if decide (k = i) then Some (f x, g l) else pair_of d i.
Proof.
  intros Hf Hg Hd Hp. pose proof Hp as (Hx & Hl)%pair_of_Some.
  pose proof (by_id_Some _ _ _ Hl) as [_ Hlk]. change (license_id l = subscription_license x) in Hlk.
  destruct (decide (k = i)) as [<-|Hne].
  - apply pair_of_Some. unfold write_pair.
    cbn [licenses subscriptions set_licenses set_subscriptions].
    rewrite !by_id_set_row by (intros ?; first [apply Hf|apply Hg]).
    rewrite decide_True, Hx by done. split; [done|].
    destruct (Hf x) as (_ & _ & ->). by rewrite decide_True, Hlk, Hl.
  - destruct (pair_of d i) as [[y m]|] eqn:E.
    + apply pair_of_Some. unfold write_pair.
      cbn [licenses subscriptions set_licenses set_subscriptions].
      rewrite !by_id_set_row by (intros ?; first [apply Hf|apply Hg]).
      rewrite decide_False by done. pose proof E as (Hy & Hm)%pair_of_Some. split; [done|].
      pose proof (by_id_Some _ _ _ Hm) as [_ Hmk]. change (license_id m = subscription_license y) in Hmk.
      rewrite decide_False; [done|]. rewrite <-Hmk. intros Heq. apply Hne.
      by eapply licenses_apart.
    + destruct (pair_of (write_pair _ _ _ _ _) i) as [[y m]|] eqn:E2; [|done].
      apply pair_of_Some in E2 as [Hy _]. unfold write_pair in Hy.
      cbn [licenses subscriptions set_licenses set_subscriptions] in Hy.
      rewrite by_id_set_row in Hy by (intros ?; apply Hf). rewrite decide_False in Hy by done.
      apply by_id_Some in Hy as [Hin Hk]. destruct (consistent_pair d y Hd Hin) as [m' Hm'].
      change (subscription_id y = i) in Hk. congruence.
Qed.

(** ** Moving along the life cycles *)
Definition license_step (a b : LicenseStatus) : Prop := b ∈ LICENSE_TRANSITIONS a.
Definition subscription_step (a b : SubscriptionStatus) : Prop := b ∈ SUBSCRIPTION_TRANSITIONS a.

Record evolves (d d' : database) : Prop := {
  licenses_move : ∀ k l, by_id k (licenses d) = Some l → ∃ l',
    by_id k (licenses d') = Some l' ∧ license_org l' = license_org l
    ∧ rtc license_step (license_status l) (license_status l');
  subscriptions_move : ∀ k x, by_id k (subscriptions d) = Some x → ∃ x',
    by_id k (subscriptions d') = Some x' ∧ subscription_org x' = subscription_org x
    ∧ subscription_license x' = subscription_license x
    ∧ rtc subscription_step (subscription_status x) (subscription_status x');
}.
#[export] Instance evolves_preorder : PreOrder evolves.
Proof.
  split.
  - intros d. split; intros k r Hr; exists r; by split_and!.
  - intros d1 d2 d3 [L1 S1] [L2 S2]. split.
    + intros k l Hl. destruct (L1 k l Hl) as (l2 & Hl2 & O2 & T2).
      destruct (L2 k l2 Hl2) as (l3 & Hl3 & O3 & T3). exists l3. split_and!; [done|congruence|by etrans].
    + intros k x Hx. destruct (S1 k x Hx) as (x2 & Hx2 & O2 & M2 & T2).
      destruct (S2 k x2 Hx2) as (x3 & Hx3 & O3 & M3 & T3).
      exists x3. split_and!; [done|congruence..|by etrans].
Qed.


Lemma evolves_write d k j f g x l : same_subscription f → same_license g →
  by_id k (subscriptions d) = Some x → by_id j (licenses d) = Some l →
  rtc subscription_step (subscription_status x) (subscription_status (f x)) →
  rtc license_step (license_status l) (license_status (g l)) →
  evolves d (write_pair f k g j d).
Proof.
  intros Hf Hg Hx Hl Hs Ht. unfold write_pair.
  split; cbn [licenses subscriptions set_licenses set_subscriptions].
  - intros i m Hm. rewrite by_id_set_row by apply Hg. destruct (decide (j = i)) as [<-|].
    + rewrite Hm. simplify_eq. eexists. split; [done|]. split; [apply Hg|done].
    + by exists m.
  - intros i y Hy. rewrite by_id_set_row by apply Hf. destruct (decide (k = i)) as [<-|].
    + rewrite Hy. simplify_eq. eexists. split; [done|]. split; [apply Hf|]. split; [apply Hf|done].
    + by exists y.
Qed.

End Billing.
