(* ===== verification/Renewal.v ===== *)
(** The renewal engine.

    Models [src/backend/app/domains/billing/renewal_service.py] and the
    queries of [repository.py] it runs: charging due subscriptions, ending the
    ones that do not renew, the grace period after a failed charge, reminders,
    and the sweep [tasks.run_subscription_renewal_sweep] runs every hour.  The
    payment gateway is the protocol [PaymentGatewayProtocol], here a function
    that says how each charge ends. *)

From S2P Require Import Prelude Table Session PyStr Otp Billing.

Module Renewal.
Import Billing.

(** What [charge] returns or raises. *)
Inductive charge_result := Charged | Declined | NotConfigured | GatewayError.
(** The subscription and the amount, in hundredths. *)
Definition gateway := uuid → Z → charge_result.

(** [UnconfiguredPaymentGateway]. *)
Definition unconfigured : gateway := λ _ amount, if amount <=? 0 then Charged else NotConfigured.

(** The settings of the service. *)
Record config := Config {
  grace_period_days : Z; renewal_reminder_days_before : Z; expiry_reminder_days_before : Z }.

(** [try: ... except Exception: continue]: what was written before the
    exception stays written. *)
Definition guarded {A} (m : op A) : op (outcome error A) :=
  λ d, let '(o, d') := m d in (Ok o, d').

Section service.
Context {PU : PyUnicode}.
Variable cfg : config.
Variable charge : gateway.
Variable now : datetime.

(** ** Renewing *)
Definition compute_renewal_charge_amount (p : Plan) : Z := base_price p.

Definition renewed (period_end : datetime) (x : Subscription) : Subscription :=
  with_past_due None (with_period now period_end (with_status ACTIVE x)).
Definition mark_renewed (x : Subscription) : op Subscription :=
  e ← of_option (add_billing_cycle now (billing_cycle x)) ValueError;
  update_subscription x (renewed e).

Definition overdue (x : Subscription) : Subscription :=
  with_past_due (match past_due_at x with Some t => Some t | None => Some now end)
    (with_status PAST_DUE x).
Definition mark_past_due (x : Subscription) : op Subscription := update_subscription x overdue.

Definition ended (x : Subscription) : Subscription :=
  with_past_due None
    (with_renewal false (cancel_at_period_end x) (with_cancelled (Some now) (with_status CANCELLED x))).
Definition finalize_scheduled_cancellation (x : Subscription) : op Subscription :=
  y ← update_subscription x ended;
  _ ← suspend_license now (subscription_license y) None;
  mret y.

Definition renewable (s : SubscriptionStatus) : bool :=
  bool_decide (s ∈ RENEWABLE_SUBSCRIPTION_STATUSES).

Definition process_renewal (k : uuid) : op Subscription :=
  row ← gets (λ d, by_id k (subscriptions d));
  x ← of_option row SubscriptionNotFoundError;
  _ ← raise_if (negb (renewable (subscription_status x))) InvalidSubscriptionStatusForRenewalError;
  if cancel_at_period_end x && (current_period_end x <=? now) then
    finalize_scheduled_cancellation x
  else
    p ← get_plan (subscription_plan x);
    match charge (subscription_id x) (compute_renewal_charge_amount p) with
    | Charged => mark_renewed x
    | Declined | NotConfigured => mark_past_due x
    | GatewayError => raise PaymentProviderError
    end.

Definition cyclic (c : BillingCycle) : bool := bool_decide (c ∈ CYCLIC_BILLING_CYCLES).
Definition due_for_renewal (x : Subscription) : bool :=
  auto_renew x && cyclic (billing_cycle x) && renewable (subscription_status x)
  && (current_period_end x <=? now).
Definition list_due_for_renewal (d : database) : list Subscription :=
  select due_for_renewal (subscriptions d).

Fixpoint each {A} (f : A → op unit) (l : list A) : op unit :=
  match l with
  | [] => mret tt
  | x :: l => _ ← f x; each f l
  end.

Definition process_due_renewals : op unit :=
  due ← gets list_due_for_renewal;
  each (λ x, _ ← guarded (process_renewal (subscription_id x)); mret tt) due.

(** *** Confirmation by a webhook, later *)
Definition confirm_renewal_payment_succeeded (k : uuid) : op Subscription :=
  row ← gets (λ d, by_id k (subscriptions d));
  x ← of_option row SubscriptionNotFoundError;
  p ← get_plan (subscription_plan x);
  mark_renewed x.
Definition confirm_renewal_payment_failed (k : uuid) : op Subscription :=
  row ← gets (λ d, by_id k (subscriptions d));
  x ← of_option row SubscriptionNotFoundError;
  mark_past_due x.

(** ** Ending *)
Definition lapsing (x : Subscription) : bool :=
  negb (auto_renew x) && cyclic (billing_cycle x)
  && bool_decide (subscription_status x ∈ [ACTIVE; TRIALING]) && (current_period_end x <=? now).
Definition list_lapsed_non_renewing (d : database) : list Subscription :=
  select lapsing (subscriptions d).
Definition lapsed (x : Subscription) : Subscription :=
  with_past_due None (with_cancelled (Some now) (with_status CANCELLED x)).
Definition lapse (x : Subscription) : op Subscription :=
  y ← update_subscription x lapsed;
  _ ← suspend_license now (subscription_license y) None;
  mret y.
Definition lapse_non_renewing_subscriptions : op unit :=
  rows ← gets list_lapsed_non_renewing;
  each (λ x, _ ← guarded (lapse x); mret tt) rows.

Definition list_by_status (ss : list SubscriptionStatus) (d : database) : list Subscription :=
  select (λ x, bool_decide (subscription_status x ∈ ss)) (subscriptions d).
Definition grace_deadline (t : datetime) : datetime := t + days (grace_period_days cfg).
Definition expire_lapsed (x : Subscription) : op Subscription :=
  _ ← expire_license (subscription_license x);
  update_subscription x ended.
Definition grace_over (x : Subscription) : bool :=
  match past_due_at x with None => false | Some t => grace_deadline t <=? now end.
Definition expire_lapsed_subscriptions : op unit :=
  rows ← gets (list_by_status [PAST_DUE]);
  each (λ x, if grace_over x then _ ← guarded (expire_lapsed x); mret tt else mret tt) rows.

(** ** Reminders *)
Definition send_reminder_email (x : Subscription) (r : reminder) : op unit :=
  o ← get_organization (subscription_org x);
  _ ← raise_if (negb (Otp.validate_identifier (contact_email o) Otp.EMAIL))
        InvalidNotificationRecipientError;
  modify (set_outbox (insert_row (mk_notification r (subscription_id x) (contact_email o) now))).

(** The plan's name goes into the text: [None.name] raises. *)
Definition plan_for_text (x : Subscription) : op Plan :=
  row ← gets (live_plan (subscription_plan x)); of_option row AttributeError.

Definition within_renewal_window (x : Subscription) : bool :=
  auto_renew x
  && ((now <=? current_period_end x)
      && (current_period_end x <=? now + days (renewal_reminder_days_before cfg)))
  && negb (match last_renewal_reminder_sent_at x with
           | Some t => current_period_start x <=? t
           | None => false
           end).
Definition remind_renewal (x : Subscription) : op unit :=
  if within_renewal_window x then
    _ ← plan_for_text x;
    _ ← send_reminder_email x RenewalReminder;
    _ ← update_subscription x (λ x, with_reminders (Some now) (last_expiry_reminder_sent_at x) x);
    mret tt
  else mret tt.
Definition send_renewal_reminders : op unit :=
  rows ← gets (list_by_status [TRIALING; ACTIVE]);
  each remind_renewal rows.

Definition within_expiry_window (x : Subscription) : bool :=
  match past_due_at x with
  | None => false
  | Some t =>
      (now <? grace_deadline t)
      && (grace_deadline t - now <=? days (expiry_reminder_days_before cfg))
      && negb (match last_expiry_reminder_sent_at x with Some s => t <=? s | None => false end)
  end.
Definition remind_expiry (x : Subscription) : op unit :=
  if within_expiry_window x then
    _ ← plan_for_text x;
    _ ← send_reminder_email x ExpiryReminder;
    _ ← update_subscription x (λ x, with_reminders (last_renewal_reminder_sent_at x) (Some now) x);
    mret tt
  else mret tt.
Definition send_expiry_reminders : op unit :=
  rows ← gets (list_by_status [PAST_DUE]);
  each remind_expiry rows.

(** ** The hourly sweep: no phase fails another *)
Definition run_renewal_sweep : op unit :=
  _ ← guarded process_due_renewals;
  _ ← guarded lapse_non_renewing_subscriptions;
  _ ← guarded expire_lapsed_subscriptions;
  _ ← guarded send_renewal_reminders;
  _ ← guarded send_expiry_reminders;
  mret tt.

End service.

(** ** What a sweep does to one subscription and its license

    The abstract view: the phases as functions on a pair, given the plan. *)
Section pairs.
Context {PU : PyUnicode}.
Variable cfg : config.
Variable charge : gateway.
Variable now : datetime.
Variable plan_of : uuid → option Plan.

Definition try_license (target : LicenseStatus) (f : License → License) (l : License) : License :=
  if bool_decide (target ∈ LICENSE_TRANSITIONS (license_status l)) then f l else l.

Definition renew_pair (p : Subscription * License) : Subscription * License :=
  let '(x, l) := p in
  if due_for_renewal now x then
    if cancel_at_period_end x then (ended now x, try_license SUSPENDED (suspended now) l)
    else match plan_of (subscription_plan x) with
         | None => (x, l)
         | Some p =>
             match charge (subscription_id x) (base_price p) with
             | Charged => match add_billing_cycle now (billing_cycle x) with
                          | Some e => (renewed now e x, l)
                          | None => (x, l)
                          end
             | Declined | NotConfigured => (overdue now x, l)
             | GatewayError => (x, l)
             end
         end
  else (x, l).

Definition lapse_pair (p : Subscription * License) : Subscription * License :=
  let '(x, l) := p in
  if lapsing now x then (lapsed now x, try_license SUSPENDED (suspended now) l) else (x, l).

Definition expire_pair (p : Subscription * License) : Subscription * License :=
  let '(x, l) := p in
  if bool_decide (subscription_status x = PAST_DUE) && grace_over cfg now x
     && bool_decide (EXPIRED ∈ LICENSE_TRANSITIONS (license_status l))
  then (ended now x, expired l) else (x, l).

Definition sweep_pair (p : Subscription * License) : Subscription * License :=
  expire_pair (lapse_pair (renew_pair p)).
End pairs.

(** [d'] is [d] with the pair of subscription [k] replaced. *)
Record touched (d : database) (k : uuid) (p : Subscription * License) (d' : database) : Prop := {
  touched_consistent : consistent d';
  touched_frame : frame d' = frame d;
  touched_outbox : outbox d' = outbox d;
  touched_evolves : evolves d d';
  touched_pair : ∀ j, pair_of d' j = if decide (k = j) then Some p else pair_of d j;
}.

Lemma touched_write d k f g x l : consistent d → pair_of d k = Some (x, l) →
  same_subscription f → same_license g →
  rtc subscription_step (subscription_status x) (subscription_status (f x)) →
  rtc license_step (license_status l) (license_status (g l)) →
  touched d k (f x, g l) (write_pair f k g (license_id l) d).
Proof.
  intros Hd Hp Hf Hg Hs Ht. split; [by apply consistent_write|done|done| |].
  - pose proof Hp as (Hx & Hl)%pair_of_Some. pose proof (by_id_Some _ _ _ Hl) as [_ Hk].
    change (license_id l = subscription_license x) in Hk. rewrite Hk. by eapply evolves_write.
  - intros j. by apply pair_of_write.
Qed.

Lemma write_subscription f k j d : set_subscriptions (set_row f k) d = write_pair f k (λ l, l) j d.
Proof. destruct d as [o p ls]. unfold write_pair, set_subscriptions, set_licenses. cbn [licenses].
  by rewrite (set_row_id j ls). Qed.

Lemma touched_subscription d k f x l : consistent d → pair_of d k = Some (x, l) →
  same_subscription f →
  rtc subscription_step (subscription_status x) (subscription_status (f x)) →
  touched d k (f x, l) (set_subscriptions (set_row f k) d).
Proof.
  intros Hd Hp Hf Hs. rewrite (write_subscription f k (license_id l)).
  by apply (touched_write d k f (λ l, l) x l).
Qed.
Lemma touched_same d k p : consistent d → pair_of d k = Some p → touched d k p d.
Proof. intros Hd Hp. split; [done..|]. intros j. by destruct (decide (k = j)) as [<-|]. Qed.

(** *** Running over the rows of a query *)
Section each.
Context (f : Subscription → op unit) (g : Subscription * License → Subscription * License).

Lemma each_touches F rows : ∀ d,
  (∀ d x l, consistent d → frame d = F → x ∈ rows → pair_of d (subscription_id x) = Some (x, l) →
     ∃ d', f x d = (Ok tt, d') ∧ touched d (subscription_id x) (g (x, l)) d') →
  NoDup (map subscription_id rows) → consistent d → frame d = F →
  (∀ x, x ∈ rows → ∃ l, pair_of d (subscription_id x) = Some (x, l)) →
  ∃ d', each f rows d = (Ok tt, d') ∧ consistent d' ∧ frame d' = F ∧ outbox d' = outbox d
    ∧ evolves d d'
    ∧ ∀ j, pair_of d' j =
        if bool_decide (j ∈ map subscription_id rows) then g <$> pair_of d j else pair_of d j.
Proof.
  induction rows as [|x rows IH]; intros d Hf Hnd Hd HF Hrows.
  { exists d. by split_and!. }
  cbn [map] in Hnd. apply NoDup_cons in Hnd as [Hnin Hnd].
  destruct (Hrows x ltac:(left)) as [l Hp].
  destruct (Hf d x l Hd HF ltac:(left) Hp) as (d1 & Hrun & Ht).
  destruct (IH d1) as (d2 & Hrun2 & Hd2 & HF2 & Ho2 & He2 & Hp2); try done.
  - intros. apply Hf; try done. by right.
  - apply Ht.
  - rewrite (touched_frame _ _ _ _ Ht). done.
  - intros y Hy. destruct (Hrows y ltac:(by right)) as [m Hm]. exists m.
    rewrite (touched_pair _ _ _ _ Ht), decide_False; [done|]. intros Heq. apply Hnin.
    rewrite Heq. apply list_elem_of_In, in_map, list_elem_of_In, Hy.
  - exists d2. split_and!; try done.
    + cbn [each]. by rewrite (bind_step _ _ _ _ _ Hrun).
    + rewrite Ho2. apply Ht.
    + etrans; [apply Ht|exact He2].
    + intros j. rewrite Hp2, !(touched_pair _ _ _ _ Ht).
      destruct (decide (subscription_id x = j)) as [<-|Hne].
      * rewrite bool_decide_false by done. rewrite bool_decide_true by (cbn; left). by rewrite Hp.
      * assert (bool_decide (j ∈ map subscription_id rows)
          = bool_decide (j ∈ map subscription_id (x :: rows))) as ->; [|done].
        apply bool_decide_ext. cbn [map]. set_solver.
Qed.
End each.

(** *** The items of each phase *)
Section items.
Context {PU : PyUnicode}.
Variable cfg : config.
Variable charge : gateway.
Variable now : datetime.

Lemma assert_transition_run {B} s target (f : unit → op B) d :
  (assert_transition s target ≫= f) d =
  if bool_decide (target ∈ LICENSE_TRANSITIONS s) then f tt d
  else (Raise InvalidLicenseStatusTransitionError, d).
Proof. unfold assert_transition. rewrite raise_if_bind. by destruct (bool_decide _). Qed.

Lemma get_license_run {B} d k x l (f : License → op B) : pair_of d k = Some (x, l) →
  (get_license (subscription_license x) None ≫= f) d = f l d ∧ license_id l = subscription_license x.
Proof.
  intros (_ & Hl)%pair_of_Some. pose proof (by_id_Some _ _ _ Hl) as [_ Hk]. split; [|exact Hk].
  unfold get_license, mbind, M_bind, gets, of_option, mret, M_ret. by rewrite Hl.
Qed.

Lemma pair_after_subscription d k f x l : consistent d → pair_of d k = Some (x, l) →
  same_subscription f → pair_of (set_subscriptions (set_row f k) d) k = Some (f x, l).
Proof.
  intros Hd Hp Hf. rewrite (write_subscription f k (license_id l)).
  rewrite (pair_of_write f k (λ l, l) x l d k) by done. by rewrite decide_True.
Qed.

Lemma suspend_license_run d k x l : pair_of d k = Some (x, l) →
  suspend_license now (subscription_license x) None d =
  if bool_decide (SUSPENDED ∈ LICENSE_TRANSITIONS (license_status l))
  then (Ok (suspended now l), set_licenses (set_row (suspended now) (license_id l)) d)
  else (Raise InvalidLicenseStatusTransitionError, d).
Proof.
  intros Hp. unfold suspend_license. rewrite (proj1 (get_license_run d k x l _ Hp)).
  by rewrite assert_transition_run.
Qed.
Lemma expire_license_run d k x l : pair_of d k = Some (x, l) →
  expire_license (subscription_license x) d =
  if bool_decide (EXPIRED ∈ LICENSE_TRANSITIONS (license_status l))
  then (Ok (expired l), set_licenses (set_row expired (license_id l)) d)
  else (Raise InvalidLicenseStatusTransitionError, d).
Proof.
  intros Hp. unfold expire_license. rewrite (proj1 (get_license_run d k x l _ Hp)).
  by rewrite assert_transition_run.
Qed.
Lemma update_subscription_run x f d :
  update_subscription x f d = (Ok (f x), set_subscriptions (set_row f (subscription_id x)) d).
Proof. done. Qed.
Lemma guarded_run {A} (m : op A) d : (_ ← guarded m; mret tt) d = (Ok tt, (m d).2).
Proof. unfold guarded, mbind, M_bind. by destruct (m d). Qed.

(** A subscription written first, its license suspended second: the license
    may refuse, the subscription stays written. *)
Lemma end_then_suspend d k f x l : consistent d → k = subscription_id x →
  pair_of d k = Some (x, l) → same_subscription f →
  rtc subscription_step (subscription_status x) (subscription_status (f x)) →
  touched d k (f x, try_license SUSPENDED (suspended now) l)
    ((y ← update_subscription x f;
      _ ← suspend_license now (subscription_license y) None; mret y) d).2.
Proof.
  intros Hd -> Hp Hf Hst. pose proof (pair_after_subscription d _ f x l Hd Hp Hf) as Hp1.
  rewrite (bind_step _ _ _ _ _ (update_subscription_run x f d)).
  pose proof (suspend_license_run _ _ _ _ Hp1) as Hs. unfold try_license.
  destruct (bool_decide _) eqn:Hsus.
  - rewrite (bind_step _ _ _ _ _ Hs).
    apply (touched_write d _ f (suspended now) x l Hd Hp Hf); [by intros l'|done|].
    apply rtc_once. by apply bool_decide_eq_true in Hsus.
  - rewrite (bind_stop _ _ _ _ _ Hs). by apply touched_subscription.
Qed.

Lemma ended_same : same_subscription (ended now).
Proof. by intros x. Qed.
Lemma lapsed_same : same_subscription (lapsed now).
Proof. by intros x. Qed.
Lemma renewed_same e : same_subscription (renewed now e).
Proof. by intros x. Qed.
Lemma overdue_same : same_subscription (overdue now).
Proof. by intros x. Qed.
Lemma expired_same : same_license expired.
Proof. by intros l. Qed.

(** The statuses a sweep writes. *)
Lemma renewable_moves s : renewable s = true →
  rtc subscription_step s ACTIVE ∧ rtc subscription_step s PAST_DUE ∧ rtc subscription_step s CANCELLED.
Proof.
  assert (∀ a b, b ∈ SUBSCRIPTION_TRANSITIONS a → rtc subscription_step a b) as Hstep
    by (intros a b Hab; by apply rtc_once).
  assert (∀ a b, bool_decide (b ∈ SUBSCRIPTION_TRANSITIONS a) = true → rtc subscription_step a b) as H
    by (intros a b Hab%bool_decide_eq_true; by apply Hstep).
  destruct s; try done; intros _; split_and!; (reflexivity || by apply H).
Qed.
Lemma lapsing_moves x : lapsing now x = true →
  rtc subscription_step (subscription_status x) CANCELLED.
Proof.
  unfold lapsing. intros Hl. bools. apply (renewable_moves (subscription_status x)).
  unfold renewable, RENEWABLE_SUBSCRIPTION_STATUSES. apply bool_decide_eq_true. set_solver.
Qed.

Lemma due_is_renewable x : due_for_renewal now x = true →
  renewable (subscription_status x) = true ∧ current_period_end x ≤ now.
Proof. unfold due_for_renewal. intros H. bools. by split. Qed.

Lemma renew_item d x l : consistent d → pair_of d (subscription_id x) = Some (x, l) →
  due_for_renewal now x = true →
  touched d (subscription_id x) (renew_pair charge now (λ k, live_plan k d) (x, l))
    (process_renewal charge now (subscription_id x) d).2.
Proof.
  intros Hd Hp Hdue. pose proof (due_is_renewable x Hdue) as [Hr He].
  destruct (renewable_moves _ Hr) as (Hact & Hpd & Hcan).
  unfold renew_pair. rewrite Hdue. unfold process_renewal.
  pose proof Hp as [Hx _]%pair_of_Some.
  erewrite bind_step by (unfold gets; reflexivity). rewrite Hx, of_option_bind, raise_if_bind, Hr.
  cbn [negb]. apply Z.leb_le in He. rewrite He, andb_true_r.
  destruct (cancel_at_period_end x).
  - by apply end_then_suspend; [..|apply ended_same|].
  - unfold get_plan. rewrite bind_assoc. erewrite bind_step by (unfold gets; reflexivity).
    rewrite of_option_bind. destruct (live_plan _ d) as [p|]; [|by apply touched_same].
    change (compute_renewal_charge_amount p) with (base_price p). destruct (charge _ _).
    + unfold mark_renewed. rewrite of_option_bind. destruct (add_billing_cycle _ _) as [e|];
        [|by apply touched_same].
      by apply touched_subscription; [..|apply renewed_same|].
    + by apply touched_subscription; [..|apply overdue_same|].
    + by apply touched_subscription; [..|apply overdue_same|].
    + by apply touched_same.
Qed.

Lemma expire_item d x l : consistent d → pair_of d (subscription_id x) = Some (x, l) →
  subscription_status x = PAST_DUE → grace_over cfg now x = true →
  touched d (subscription_id x) (expire_pair cfg now (x, l)) (expire_lapsed now x d).2.
Proof.
  intros Hd Hp Hs Hg. unfold expire_pair. rewrite Hs, Hg, bool_decide_true by done. cbn [andb].
  unfold expire_lapsed. pose proof (expire_license_run d _ x l Hp) as He.
  destruct (bool_decide _) eqn:Hex.
  - rewrite (bind_step _ _ _ _ _ He).
    apply (touched_write d _ (ended now) expired x l Hd Hp ended_same expired_same).
    + apply renewable_moves. by rewrite Hs.
    + apply rtc_once. by apply bool_decide_eq_true in Hex.
  - rewrite (bind_stop _ _ _ _ _ He). by apply touched_same.
Qed.
End items.

(** *** The phases *)
Section phases.
Context {PU : PyUnicode}.
Variable cfg : config.
Variable charge : gateway.
Variable now : datetime.

Lemma frame_plans d d' k : frame d = frame d' → live_plan k d = live_plan k d'.
Proof. intros E. unfold live_plan. by rewrite (f_equal plans E : plans d = plans d'). Qed.

Lemma phase_touches (P : Subscription → bool) item g d :
  consistent d →
  (∀ x l, P x = false → g (x, l) = (x, l)) →
  (∀ d1 x l, consistent d1 → frame d1 = frame d → P x = true →
     pair_of d1 (subscription_id x) = Some (x, l) →
     ∃ d2, item x d1 = (Ok tt, d2) ∧ touched d1 (subscription_id x) (g (x, l)) d2) →
  ∃ d', each item (select P (subscriptions d)) d = (Ok tt, d') ∧ consistent d'
    ∧ frame d' = frame d ∧ outbox d' = outbox d ∧ evolves d d' ∧ ∀ j, pair_of d' j = g <$> pair_of d j.
Proof.
  intros Hd Hid Hitem.
  destruct (each_touches item g (frame d) (select P (subscriptions d)) d)
    as (d' & H1 & H2 & H3 & H4 & He & H5); try done.
  - intros d1 x l Hd1 HF Hx Hp. apply elem_of_select in Hx as [_ HP]. eauto.
  - apply NoDup_map_select. apply (keyed_subscriptions d Hd).
  - intros x [Hx _]%elem_of_select. by apply consistent_pair.
  - exists d'. split_and!; try done. intros j. rewrite H5.
    destruct (pair_of d j) as [[x l]|] eqn:E; [|by destruct (bool_decide _)].
    pose proof E as [Hx _]%pair_of_Some. apply by_id_Some in Hx as [Hin Hk].
    change (subscription_id x = j) in Hk. destruct (P x) eqn:HP.
    + rewrite bool_decide_true; [done|]. rewrite <-Hk.
      apply list_elem_of_In, in_map, list_elem_of_In, elem_of_select. by split.
    + cbn. rewrite (Hid x l HP). by destruct (bool_decide _).
Qed.

Lemma process_due_renewals_acts d : consistent d →
  ∃ d', process_due_renewals charge now d = (Ok tt, d') ∧ consistent d'
    ∧ frame d' = frame d ∧ outbox d' = outbox d ∧ evolves d d'
    ∧ ∀ j, pair_of d' j = renew_pair charge now (λ k, live_plan k d) <$> pair_of d j.
Proof.
  intros Hd. apply (phase_touches (due_for_renewal now)); [done| |].
  - intros x l Hx. cbn. by rewrite Hx.
  - intros d1 x l Hd1 HF Hx Hp. rewrite guarded_run. eexists. split; [reflexivity|].
    pose proof (renew_item charge now d1 x l Hd1 Hp Hx) as Ht.
    unfold renew_pair in *. by rewrite (frame_plans d1 d) in Ht by done.
Qed.

Lemma lapse_acts d : consistent d →
  ∃ d', lapse_non_renewing_subscriptions now d = (Ok tt, d') ∧ consistent d'
    ∧ frame d' = frame d ∧ outbox d' = outbox d ∧ evolves d d' ∧ ∀ j, pair_of d' j = lapse_pair now <$> pair_of d j.
Proof.
  intros Hd. apply (phase_touches (lapsing now)); [done| |].
  - intros x l Hx. cbn. by rewrite Hx.
  - intros d1 x l Hd1 HF Hx Hp. rewrite guarded_run. eexists. split; [reflexivity|].
    unfold lapse_pair. rewrite Hx. apply end_then_suspend; [done..|apply lapsed_same|by apply (lapsing_moves now)].
Qed.

Lemma expire_acts d : consistent d →
  ∃ d', expire_lapsed_subscriptions cfg now d = (Ok tt, d') ∧ consistent d'
    ∧ frame d' = frame d ∧ outbox d' = outbox d ∧ evolves d d'
    ∧ ∀ j, pair_of d' j = expire_pair cfg now <$> pair_of d j.
Proof.
  intros Hd.
  apply (phase_touches (λ x, bool_decide (subscription_status x ∈ [PAST_DUE]))); [done| |].
  - intros x l Hx. apply bool_decide_eq_false in Hx. cbn.
    by rewrite bool_decide_false by (intros ?; apply Hx; set_solver).
  - intros d1 x l Hd1 HF Hx Hp. apply bool_decide_eq_true, list_elem_of_singleton in Hx.
    cbv beta. destruct (grace_over cfg now x) eqn:Hg.
    + rewrite guarded_run. eexists. split; [reflexivity|]. by apply expire_item.
    + eexists. split; [reflexivity|]. unfold expire_pair. rewrite Hg, andb_false_r. by apply touched_same.
Qed.

(** Reminders leave everything but the marks of reminders and the outbox. *)
Definition plain (p : Subscription * License) : Subscription * License :=
  (with_reminders None None p.1, p.2).
Definition reminded (d d' : database) : Prop :=
  consistent d → consistent d' ∧ frame d' = frame d ∧ evolves d d'
    ∧ ∀ j, plain <$> pair_of d' j = plain <$> pair_of d j.
#[local] Instance reminded_preorder : PreOrder reminded.
Proof.
  split; [by intros d|]. intros d1 d2 d3 H12 H23 H1.
  destruct (H12 H1) as (H2 & F2 & E2 & P2). destruct (H23 H2) as (H3 & F3 & E3 & P3).
  split; [done|]. split; [congruence|]. split; [by etrans|]. intros j. by rewrite P3.
Qed.

Lemma set_row_absent {R} `{HasId R} (f : R → R) k (t : list R) :
  by_id k t = None → set_row f k t = t.
Proof.
  intros Hno. apply update_nomatch. unfold by_id, select_one in Hno. unfold rowcount.
  by destruct (select _ t).
Qed.

Lemma reminded_mark x a b : respects reminded
  (update_subscription x (λ x, with_reminders (a x) (b x) x)).
Proof.
  intros d Hd. rewrite update_subscription_run. cbn [snd].
  destruct (pair_of d (subscription_id x)) as [[y l]|] eqn:E.
  - destruct (touched_subscription d _ (λ x, with_reminders (a x) (b x) x) y l Hd E
      ltac:(by intros z) ltac:(done)) as [H1 H2 _ H3 H4].
    split; [done|]. split; [done|]. split; [done|]. intros j. rewrite H4. by destruct (decide _) as [<-|]; [rewrite E|].
  - assert (by_id (subscription_id x) (subscriptions d) = None) as Hno.
    { destruct (by_id _ (subscriptions d)) as [y|] eqn:Hy; [|done].
      pose proof (by_id_Some _ _ _ Hy) as [Hin Hk]. destruct (consistent_pair d y Hd Hin) as [l Hl].
      change (subscription_id y = subscription_id x) in Hk. congruence. }
    unfold set_subscriptions. rewrite (set_row_absent _ _ _ Hno). by destruct d.
Qed.

Lemma reminded_email x r : respects reminded (send_reminder_email now x r).
Proof.
  unfold send_reminder_email. apply (respects_bind reminded).
  { apply (respects_pure reminded). intros d. unfold get_organization, gets, mbind, M_bind, of_option.
    by destruct (select_one _ _). }
  intros o. apply (respects_bind reminded); [apply (respects_raise_if reminded); apply _|].
  intros _ d Hd. split; [by destruct Hd|]. split; [done|].
  split; [by split; intros k r0 Hr0; exists r0|done].
Qed.

Lemma reminded_each (f : Subscription → op unit) rows : (∀ x, respects reminded (f x)) → respects reminded (each f rows).
Proof.
  intros Hf. induction rows as [|x rows IH]; [apply (respects_ret reminded); apply _|].
  cbn. apply (respects_bind reminded); [apply Hf|]. by intros _.
Qed.

Lemma reminded_text x : respects reminded (plan_for_text x).
Proof.
  apply (respects_pure reminded). intros d. unfold plan_for_text, gets, mbind, M_bind, of_option.
  by destruct (live_plan _ d).
Qed.

Lemma reminders_act : respects reminded (send_renewal_reminders cfg now)
  ∧ respects reminded (send_expiry_reminders cfg now).
Proof.
  split; (apply (respects_bind reminded); [apply (respects_gets reminded); apply _|]; intros rows;
    apply reminded_each; intros x).
  - unfold remind_renewal. apply (respects_if reminded); [|apply (respects_ret reminded)].
    apply (respects_bind reminded); [apply reminded_text|]. intros _.
    apply (respects_bind reminded); [apply reminded_email|]. intros _.
    apply (respects_bind reminded); [apply reminded_mark|]. intros _. apply (respects_ret reminded).
  - unfold remind_expiry. apply (respects_if reminded); [|apply (respects_ret reminded)].
    apply (respects_bind reminded); [apply reminded_text|]. intros _.
    apply (respects_bind reminded); [apply reminded_email|]. intros _.
    apply (respects_bind reminded); [apply reminded_mark|]. intros _. apply (respects_ret reminded).
Qed.

Lemma guarded_bind {A B} (m : op A) (f : outcome error A → op B) d :
  (guarded m ≫= f) d = f (m d).1 (m d).2.
Proof. unfold guarded, mbind, M_bind. by destruct (m d). Qed.

Lemma sweep_acts d : consistent d →
  ∃ d', run_renewal_sweep cfg charge now d = (Ok tt, d') ∧ consistent d' ∧ frame d' = frame d
    ∧ evolves d d'
    ∧ ∀ k, plain <$> pair_of d' k
        = plain ∘ sweep_pair cfg charge now (λ p, live_plan p d) <$> pair_of d k.
Proof.
  intros Hd. unfold run_renewal_sweep.
  destruct (process_due_renewals_acts d Hd) as (d1 & R1 & C1 & F1 & _ & E1 & P1).
  rewrite guarded_bind, R1. cbn [fst snd].
  destruct (lapse_acts d1 C1) as (d2 & R2 & C2 & F2 & _ & E2 & P2).
  rewrite guarded_bind, R2. cbn [fst snd].
  destruct (expire_acts d2 C2) as (d3 & R3 & C3 & F3 & _ & E3 & P3).
  rewrite guarded_bind, R3. cbn [fst snd]. rewrite !guarded_bind.
  destruct reminders_act as [Hr He].
  destruct (Hr d3 C3) as (C4 & F4 & E4 & P4). destruct (He _ C4) as (C5 & F5 & E5 & P5).
  eexists. split; [reflexivity|]. split; [done|]. split; [congruence|].
  split; [do 4 (etrans; [eassumption|]); exact E5|].
  intros k. rewrite P5, P4, P3, P2, P1. by destruct (pair_of d k).
Qed.

(** C5: one sweep never raises, and acts on every subscription and its
    license by itself, as the abstract [sweep_pair] says: renewed, past due
    or ended by what the gateway answers for it, lapsed when it does not
    renew, expired once its grace period is over.  No other subscription, no
    failing phase and no failing reminder changes that; plans,
    organizations, coupons and invoices are left alone. *)
Theorem sweep_acts_row_by_row d : consistent d →
  ∃ d', run_renewal_sweep cfg charge now d = (Ok tt, d') ∧ consistent d' ∧ frame d' = frame d
    ∧ ∀ k, plain <$> pair_of d' k
        = plain ∘ sweep_pair cfg charge now (λ p, live_plan p d) <$> pair_of d k.
Proof. intros Hd. destruct (sweep_acts d Hd) as (d' & ? & ? & ? & _ & ?). by exists d'. Qed.
End phases.

(** ** Sweeps over time *)
Section histories.
Context {PU : PyUnicode}.
Variable cfg : config.

(** When each sweep runs, and what the gateway answers then. *)
Fixpoint sweeps (ws : list (datetime * gateway)) (d : database) : database :=
  match ws with
  | [] => d
  | (now, charge) :: ws => sweeps ws (run_renewal_sweep cfg charge now d).2
  end.

Fixpoint sweep_pairs (plan_of : uuid → option Plan) (ws : list (datetime * gateway))
    (p : Subscription * License) : Subscription * License :=
  match ws with
  | [] => p
  | (now, charge) :: ws => sweep_pairs plan_of ws (sweep_pair cfg charge now plan_of p)
  end.

(** Reminders decide nothing. *)
Lemma plain_sweep charge now plan_of p :
  plain (sweep_pair cfg charge now plan_of p) = sweep_pair cfg charge now plan_of (plain p).
Proof.
  destruct p as [[id org lic plan st cyc a b tr auto c s canc cp pd r e] l].
  assert (∀ q, plain (expire_pair cfg now q) = expire_pair cfg now (plain q)) as He.
  { intros [x m]. unfold expire_pair, plain. cbn.
    change (grace_over cfg now (with_reminders None None x)) with (grace_over cfg now x).
    by destruct (_ && _ && _). }
  assert (∀ q, plain (lapse_pair now q) = lapse_pair now (plain q)) as Hl.
  { intros [x m]. unfold lapse_pair, plain. cbn.
    change (lapsing now (with_reminders None None x)) with (lapsing now x).
    by destruct (lapsing now x). }
  unfold sweep_pair. rewrite He, Hl. do 2 f_equal. unfold renew_pair, plain. cbn [fst snd].
  change (due_for_renewal now (with_reminders None None ?x)) with (due_for_renewal now x).
  destruct (due_for_renewal _ _); [|done]. cbn.
  destruct c; [done|]. destruct (plan_of plan); [|done].
  destruct (charge _ _); try done. by destruct (add_billing_cycle now cyc).
Qed.

Lemma sweep_pair_ext charge now f g p : (∀ k, f k = g k) →
  sweep_pair cfg charge now f p = sweep_pair cfg charge now g p.
Proof. intros Hfg. unfold sweep_pair, renew_pair. destruct p as [x l]. by rewrite Hfg. Qed.

Lemma sweeps_pairs plan_of ws : ∀ d, consistent d → (∀ p, live_plan p d = plan_of p) →
  consistent (sweeps ws d) ∧ frame (sweeps ws d) = frame d
  ∧ ∀ k, plain <$> pair_of (sweeps ws d) k = sweep_pairs plan_of ws ∘ plain <$> pair_of d k.
Proof.
  induction ws as [|[now charge] ws IH]; intros d Hd Hplan.
  { by split_and!. }
  cbn [sweeps sweep_pairs].
  destruct (sweep_acts cfg charge now d Hd) as (d1 & R & C1 & F1 & _ & P1).
  rewrite R. cbn [snd].
  destruct (IH d1 C1) as (C2 & F2 & P2); [intros p; by rewrite (frame_plans d1 d)|].
  split; [done|]. split; [congruence|].
  intros k. rewrite P2. specialize (P1 k).
  destruct (pair_of d k) as [q|], (pair_of d1 k) as [q1|];
    cbn [fmap option_fmap option_map] in *; try done.
  apply (inj Some) in P1. unfold compose in *. do 2 f_equal. 
  by rewrite P1, (sweep_pair_ext charge now (λ p, live_plan p d) plan_of q Hplan), plain_sweep.
Qed.

(** The pair of a subscription after the sweeps, when its course is known. *)
Lemma sweeps_pair plan_of ws d k x l y m : consistent d → (∀ p, live_plan p d = plan_of p) →
  pair_of d k = Some (x, l) → sweep_pairs plan_of ws (plain (x, l)) = plain (y, m) →
  ∃ y', pair_of (sweeps ws d) k = Some (y', m) ∧ with_reminders None None y' = with_reminders None None y.
Proof.
  intros Hd Hplan Hp Hc. destruct (sweeps_pairs plan_of ws d Hd Hplan) as (_ & _ & P).
  specialize (P k). rewrite Hp in P. cbn [fmap option_fmap option_map] in P.
  destruct (pair_of (sweeps ws d) k) as [[y' m']|]; [|done]. apply (inj Some) in P.
  unfold compose in P. rewrite Hc in P. exists y'.
  pose proof (f_equal fst P) as P1. pose proof (f_equal snd P) as P2. cbn [plain fst snd] in P1, P2.
  by rewrite P2.
Qed.

(** *** The grace period *)
Definition no_charge (k : uuid) (ws : list (datetime * gateway)) : Prop :=
  Forall (λ w, ∀ n, w.2 k n ≠ Charged) ws.

Lemma past_due_step charge now plan_of x l t :
  subscription_status x = PAST_DUE → past_due_at x = Some t → cancel_at_period_end x = false →
  (∀ n, charge (subscription_id x) n ≠ Charged) →
  EXPIRED ∈ LICENSE_TRANSITIONS (license_status l) →
  sweep_pair cfg charge now plan_of (x, l) =
  if grace_deadline cfg t <=? now then (ended now x, expired l) else (x, l).
Proof.
  intros Hs Ht Hc Hno Hl.
  assert (renew_pair charge now plan_of (x, l) = (x, l)) as Hr.
  { unfold renew_pair. destruct (due_for_renewal now x); [|done]. rewrite Hc.
    destruct (plan_of _) as [p|]; [|done]. specialize (Hno (base_price p)).
    assert (overdue now x = x) as Ho.
    { unfold overdue. rewrite Ht. destruct x. cbn in *. unfold with_past_due, with_status. cbn.
      by subst. }
    destruct (charge _ _); [done|by rewrite Ho|by rewrite Ho|done]. }
  assert (lapse_pair now (x, l) = (x, l)) as Hla.
  { unfold lapse_pair, lapsing. rewrite Hs. by rewrite andb_false_r. }
  unfold sweep_pair. rewrite Hr, Hla. unfold expire_pair, grace_over.
  rewrite Hs, Ht, !bool_decide_true by done. rewrite andb_true_r. by destruct (_ <=? now).
Qed.

(** What has ended stays as it is. *)
Lemma ended_stays plan_of ws : ∀ x l, subscription_status x = CANCELLED →
  sweep_pairs plan_of ws (x, l) = (x, l).
Proof.
  induction ws as [|[now charge] ws IH]; intros x l Hs; [done|]. cbn [sweep_pairs].
  assert (sweep_pair cfg charge now plan_of (x, l) = (x, l)) as ->; [|by apply IH].
  assert (renew_pair charge now plan_of (x, l) = (x, l)) as Hr.
  { unfold renew_pair, due_for_renewal, renewable. rewrite Hs. by rewrite andb_false_r. }
  assert (lapse_pair now (x, l) = (x, l)) as Hla.
  { unfold lapse_pair, lapsing. rewrite Hs. by rewrite andb_false_r. }
  unfold sweep_pair. rewrite Hr, Hla. unfold expire_pair. by rewrite Hs.
Qed.

Lemma past_due_course plan_of ws x l t :
  subscription_status x = PAST_DUE → past_due_at x = Some t → cancel_at_period_end x = false →
  no_charge (subscription_id x) ws → EXPIRED ∈ LICENSE_TRANSITIONS (license_status l) →
  if bool_decide (Exists (λ w, grace_deadline cfg t ≤ w.1) ws)
  then ∃ now, sweep_pairs plan_of ws (x, l) = (ended now x, expired l)
  else sweep_pairs plan_of ws (x, l) = (x, l).
Proof.
  intros Hs Ht Hc Hno Hl. induction ws as [|[now charge] ws IH]; [done|].
  apply Forall_cons in Hno as [Hch Hno]. cbn [sweep_pairs].
  rewrite (past_due_step charge now plan_of x l t) by done.
  destruct (Z.leb_spec (grace_deadline cfg t) now).
  - rewrite bool_decide_true by (by left). exists now. by apply ended_stays.
  - specialize (IH Hno). revert IH. case_bool_decide as He; case_bool_decide as He'; try done; intros _.
    + exfalso. apply He'. by right.
    + apply Exists_cons in He' as [Hn|?]; [cbn in Hn; lia|done].
Qed.

Lemma plain_course plan_of ws : ∀ p, sweep_pairs plan_of ws (plain p) = plain (sweep_pairs plan_of ws p).
Proof.
  induction ws as [|[now charge] ws IH]; intros p; [done|].
  cbn [sweep_pairs]. by rewrite <-plain_sweep, IH.
Qed.

Lemma sweeps_pair_plain plan_of ws d k x l y m : consistent d → (∀ p, live_plan p d = plan_of p) →
  pair_of d k = Some (x, l) → sweep_pairs plan_of ws (x, l) = (y, m) →
  ∃ y', pair_of (sweeps ws d) k = Some (y', m) ∧ with_reminders None None y' = with_reminders None None y.
Proof.
  intros Hd Hplan Hp Hc. eapply (sweeps_pair plan_of ws d k x l y m); [done..|].
  by rewrite plain_course, Hc.
Qed.

(** C28: a past-due subscription whose charges keep failing, and which is not
    scheduled to cancel at the end of its period, keeps its license, if that
    has not ended yet, untouched through any number of sweeps before its grace deadline, and is
    cancelled with its license expired, for good, by the first sweep at or
    after the deadline. *)
Theorem grace_period_is_exact ws d k x l t :
  consistent d → pair_of d k = Some (x, l) →
  subscription_status x = PAST_DUE → past_due_at x = Some t → cancel_at_period_end x = false →
  EXPIRED ∈ LICENSE_TRANSITIONS (license_status l) → no_charge k ws →
  ∃ x' l', pair_of (sweeps ws d) k = Some (x', l')
    ∧ ((∀ w, w ∈ ws → w.1 < grace_deadline cfg t) →
         subscription_status x' = PAST_DUE ∧ past_due_at x' = Some t ∧ l' = l)
    ∧ ((∃ w, w ∈ ws ∧ grace_deadline cfg t ≤ w.1) →
         subscription_status x' = CANCELLED ∧ auto_renew x' = false ∧ license_status l' = EXPIRED
         ∧ ∀ now, usable now l' = false).
Proof.
  intros Hd Hp Hs Ht Hc Hl Hno.
  assert (subscription_id x = k) as Hk.
  { apply pair_of_Some in Hp as [Hx _]. by apply by_id_Some in Hx as [_ Hx]. }
  pose proof (past_due_course (λ p, live_plan p d) ws x l t Hs Ht Hc) as Hcourse.
  rewrite Hk in Hcourse. specialize (Hcourse Hno Hl). revert Hcourse. case_bool_decide as He.
  - intros [now Hcourse].
    destruct (sweeps_pair_plain _ ws d k x l _ _ Hd (λ _, eq_refl) Hp Hcourse) as (y & Hy & E).
    exists y, (expired l). split; [done|].
    pose proof (f_equal subscription_status E) as E1. pose proof (f_equal auto_renew E) as E2. cbn in *.
    split; [|by intros _].
    intros Hall. apply Exists_exists in He as (w & Hw & He). specialize (Hall w Hw). lia.
  - intros Hcourse.
    destruct (sweeps_pair_plain _ ws d k x l _ _ Hd (λ _, eq_refl) Hp Hcourse) as (y & Hy & E).
    exists y, l. split; [done|].
    pose proof (f_equal subscription_status E) as E1. pose proof (f_equal past_due_at E) as E2. cbn in *.
    split; [intros _; split_and!; congruence|].
    intros (w & Hw & Hle). destruct He. apply Exists_exists. by exists w.
Qed.

(** *** Subscriptions no sweep ends *)
Definition unbillable (d : database) (x : Subscription) : Prop :=
  subscription_status x ∈ [TRIALING; ACTIVE] ∧ auto_renew x = true
  ∧ (billing_cycle x = NONE
     ∨ (cancel_at_period_end x = false ∧ live_plan (subscription_plan x) d = None)).

Lemma unbillable_step charge now d x l : unbillable d x →
  sweep_pair cfg charge now (λ p, live_plan p d) (x, l) = (x, l).
Proof.
  intros (Hs & Ha & Hb).
  assert (renew_pair charge now (λ p, live_plan p d) (x, l) = (x, l)) as Hr.
  { unfold renew_pair. destruct (due_for_renewal now x) eqn:Hdue; [|done].
    destruct Hb as [Hb|[-> ->]]; [|done].
    unfold due_for_renewal, cyclic in Hdue. rewrite Hb, andb_false_r in Hdue. done. }
  assert (lapse_pair now (x, l) = (x, l)) as Hla by (unfold lapse_pair, lapsing; by rewrite Ha).
  unfold sweep_pair. rewrite Hr, Hla. unfold expire_pair.
  rewrite (bool_decide_false (subscription_status x = PAST_DUE)); [done|].
  intros E. rewrite E in Hs. by apply (bool_decide_eq_false_1 (PAST_DUE ∈ [TRIALING; ACTIVE])).
Qed.

(** A subscription that renews automatically but has no billing cycle -
    the free trial of the plan catalogue - or whose plan has been retired is
    never charged, lapsed, put past due or expired: after any number of sweeps
    at any times, whatever the gateway would answer, it and its license are
    what they were, and the license still opens the product. *)
Theorem unbillable_subscriptions_never_end ws d k x l :
  consistent d → pair_of d k = Some (x, l) → unbillable d x →
  license_status l = LICENSED → expires_at l = None →
  ∃ x', pair_of (sweeps ws d) k = Some (x', l)
    ∧ with_reminders None None x' = with_reminders None None x
    ∧ ∀ now, validate_license now (license_org l) (sweeps ws d) = (Ok l, sweeps ws d).
Proof.
  intros Hd Hp Hu Hl He.
  assert (sweep_pairs (λ p, live_plan p d) ws (x, l) = (x, l)) as Hcourse.
  { induction ws as [|[now charge] ws IH]; [done|]. cbn [sweep_pairs].
    by rewrite unbillable_step. }
  destruct (sweeps_pair_plain _ ws d k x l _ _ Hd (λ _, eq_refl) Hp Hcourse) as (y & Hy & E).
  destruct (sweeps_pairs _ ws d Hd (λ _, eq_refl)) as (Hd' & _ & _).
  exists y. split; [done|]. split; [done|]. intros now.
  unfold validate_license, get_license_for_organization. rewrite bind_assoc.
  erewrite bind_step by (unfold gets; reflexivity). rewrite of_option_bind.
  assert (license_of (license_org l) (sweeps ws d) = Some l) as ->.
  { apply pair_of_Some in Hy as [_ Hyl]. apply by_id_Some in Hyl as [Hin _].
    unfold license_of. destruct (select_one _ _) as [m|] eqn:Em.
    - apply select_one_Some in Em as [Hm Hmo]. apply bool_decide_eq_true in Hmo. f_equal.
      eapply (NoDup_map_eq license_org); [apply (one_license _ Hd')|done..].
    - rewrite select_one_None in Em. specialize (Em l Hin). by rewrite bool_decide_true in Em. }
  rewrite raise_if_bind. unfold usable. by rewrite Hl, He.
Qed.

(** *** Resuming a past-due subscription *)

(** [resume_subscription] (and the transition table) accepts a past-due
    subscription: it becomes active for a whole new period that nobody paid
    for, and the date it first failed stays behind, so that the next failed
    charge expires the license in the same sweep, without any grace period. *)
Theorem resumed_past_due_loses_grace d k x l t n1 e n2 charge org :
  consistent d → pair_of d k = Some (x, l) →
  subscription_status x = PAST_DUE → past_due_at x = Some t → cancel_at_period_end x = false →
  auto_renew x = true → cyclic (billing_cycle x) = true →
  foreign org (subscription_org x) = false →
  current_period_end x ≤ n1 → add_billing_cycle n1 (billing_cycle x) = Some e →
  EXPIRED ∈ LICENSE_TRANSITIONS (license_status l) →
  e ≤ n2 → grace_deadline cfg t ≤ n2 →
  is_Some (live_plan (subscription_plan x) d) → (∀ n, charge k n = Declined) →
  ∃ y d1, resume_subscription n1 k org d = (Ok y, d1)
    ∧ subscription_status y = ACTIVE ∧ current_period_end y = e
    ∧ (∃ x', pair_of d1 k = Some (x', l))
    ∧ ∃ y' l', pair_of (run_renewal_sweep cfg charge n2 d1).2 k = Some (y', l')
        ∧ subscription_status y' = CANCELLED ∧ license_status l' = EXPIRED.
Proof.
  intros Hd Hp Hs Ht Hc Ha Hcy Hf Hend Hadd Hl He Hg [p Hplan] Hch.
  set (f := λ x, with_period n1 e (with_status ACTIVE x)).
  assert (subscription_id x = k) as Hk.
  { apply pair_of_Some in Hp as [Hx _]. by apply by_id_Some in Hx as [_ Hx]. }
  assert (same_subscription f) as Hsame by (by intros z).
  assert (rtc subscription_step (subscription_status x) (subscription_status (f x))) as Hact
    by (rewrite Hs; apply rtc_once; cbn; left).
  pose proof (touched_subscription d k f x l Hd Hp Hsame Hact) as Hto.
  exists (f x), (set_subscriptions (set_row f k) d). split.
  { pose proof Hp as [Hx _]%pair_of_Some. unfold resume_subscription, get_subscription.
    rewrite bind_assoc. erewrite bind_step by (unfold gets; reflexivity).
    rewrite Hx, bind_assoc, of_option_bind, bind_assoc, raise_if_bind, Hf, ret_bind.
    unfold assert_subscription_transition. rewrite raise_if_bind, Hs.
    rewrite (bool_decide_true (ACTIVE ∈ SUBSCRIPTION_TRANSITIONS PAST_DUE)) by (cbn; left).
    cbn [negb]. apply Z.leb_le in Hend. rewrite Hend, of_option_bind, Hadd. by rewrite <-Hk. }
  split; [done|]. split; [done|].
  assert (pair_of (set_subscriptions (set_row f k) d) k = Some (f x, l)) as Hp1.
  { rewrite (touched_pair _ _ _ _ Hto). by rewrite decide_True. }
  split; [by exists (f x)|].
  assert (sweep_pair cfg charge n2 (λ p, live_plan p d) (f x, l) = (ended n2 (overdue n2 (f x)), expired l)) as Hsw.
  { unfold sweep_pair.
    assert (renew_pair charge n2 (λ p, live_plan p d) (f x, l) = (overdue n2 (f x), l)) as ->.
    { unfold renew_pair.
      assert (due_for_renewal n2 (f x) = true) as ->.
      { unfold due_for_renewal. cbn. rewrite Ha, Hcy. by apply Z.leb_le in He. }
      cbn. rewrite Hc, Hplan, Hk, Hch. done. }
    assert (lapse_pair n2 (overdue n2 (f x), l) = (overdue n2 (f x), l)) as ->.
    { unfold lapse_pair, lapsing. cbn. by rewrite andb_false_r. }
    unfold expire_pair, grace_over. cbn. rewrite Ht. apply Z.leb_le in Hg. rewrite Hg.
    by rewrite (bool_decide_true _ Hl). }
  destruct (sweep_acts cfg charge n2 _ (touched_consistent _ _ _ _ Hto)) as (d' & -> & _ & _ & _ & P).
  specialize (P k). rewrite Hp1 in P. cbn [fmap option_fmap option_map] in P. unfold compose in P.
  change (λ p, live_plan p (set_subscriptions (set_row f k) d)) with (λ p, live_plan p d) in P.
  rewrite Hsw in P. cbn [snd]. destruct (pair_of d' k) as [[y' l']|]; [|done].
  apply (inj Some) in P. exists y', l'. split; [done|].
  pose proof (f_equal (subscription_status ∘ fst) P) as P1.
  pose proof (f_equal snd P) as P2. unfold compose in *. cbn in P1, P2. split; [done|]. by rewrite P2.
Qed.

(** *** A webhook that comes late *)

(** A failed payment confirmed after its subscription was cancelled puts
    it past due again, whatever its status; once the grace period is over the
    sweep expires its license, and the reactivation that a cancelled
    subscription with a suspended license is entitled to is refused for good. *)
Theorem late_failure_expires_a_cancelled_license d k x l n1 n2 charge :
  consistent d → pair_of d k = Some (x, l) →
  subscription_status x = CANCELLED → past_due_at x = None → auto_renew x = false →
  license_status l = SUSPENDED → grace_deadline cfg n1 ≤ n2 →
  ∃ y d1, confirm_renewal_payment_failed n1 k d = (Ok y, d1)
    ∧ subscription_status y = PAST_DUE ∧ past_due_at y = Some n1
    ∧ ∃ x' l', pair_of (run_renewal_sweep cfg charge n2 d1).2 k = Some (x', l')
        ∧ subscription_status x' = CANCELLED ∧ license_status l' = EXPIRED
        ∧ ∀ n3, (reactivate_subscription n3 k None (run_renewal_sweep cfg charge n2 d1).2).1
                = Raise SubscriptionReactivationNotAllowedError.
Proof.
  intros Hd Hp Hs Hpd Ha Hl Hg.
  assert (subscription_id x = k) as Hk.
  { apply pair_of_Some in Hp as [Hx _]. by apply by_id_Some in Hx as [_ Hx]. }
  set (d1 := set_subscriptions (set_row (overdue n1) k) d).
  assert (pair_of d1 k = Some (overdue n1 x, l) ∧ consistent d1) as [Hp1 Hd1].
  { unfold d1. rewrite (write_subscription _ k (license_id l)).
    split; [|by apply consistent_write].
    rewrite (pair_of_write (overdue n1) k (λ l, l) x l) by done. by rewrite decide_True. }
  exists (overdue n1 x), d1. split.
  { pose proof Hp as [Hx _]%pair_of_Some. unfold confirm_renewal_payment_failed, d1.
    erewrite bind_step by (unfold gets; reflexivity). rewrite Hx, of_option_bind. by rewrite <-Hk. }
  split; [done|]. split; [unfold overdue; cbn; by rewrite Hpd|].
  assert (sweep_pair cfg charge n2 (λ p, live_plan p d1) (overdue n1 x, l)
          = (ended n2 (overdue n1 x), expired l)) as Hsw.
  { unfold sweep_pair.
    assert (renew_pair charge n2 (λ p, live_plan p d1) (overdue n1 x, l) = (overdue n1 x, l)) as ->.
    { unfold renew_pair, due_for_renewal. cbn. by rewrite Ha. }
    assert (lapse_pair n2 (overdue n1 x, l) = (overdue n1 x, l)) as ->.
    { unfold lapse_pair, lapsing. cbn. by rewrite andb_false_r. }
    unfold expire_pair, grace_over. cbn. rewrite Hpd, Hl. apply Z.leb_le in Hg. by rewrite Hg. }
  destruct (sweep_acts cfg charge n2 d1 Hd1) as (d' & -> & C & _ & _ & P).
  specialize (P k). rewrite Hp1 in P. cbn [fmap option_fmap option_map] in P. unfold compose in P.
  rewrite Hsw in P. cbn [snd]. destruct (pair_of d' k) as [[y' l']|] eqn:E; [|done].
  apply (inj Some) in P.
  pose proof (f_equal (subscription_status ∘ fst) P) as P1.
  pose proof (f_equal snd P) as P2. unfold compose in *. cbn in P1, P2. subst l'.
  exists y', (expired l). split; [done|]. split; [done|]. split; [done|]. intros n3.
  apply pair_of_Some in E as [Ey El]. unfold reactivate_subscription, get_subscription.
  rewrite bind_assoc. erewrite bind_step by (unfold gets; reflexivity).
  rewrite Ey, bind_assoc, of_option_bind, bind_assoc, raise_if_bind. cbn [foreign]. rewrite ret_bind.
  unfold assert_subscription_transition. rewrite raise_if_bind, P1.
  rewrite (bool_decide_true (ACTIVE ∈ SUBSCRIPTION_TRANSITIONS CANCELLED)) by (cbn; left). cbn [negb].
  unfold get_license. rewrite bind_assoc. erewrite bind_step by (unfold gets; reflexivity).
  rewrite El, bind_assoc, of_option_bind, bind_assoc, raise_if_bind. cbn [foreign].
  rewrite ret_bind, raise_if_bind. by rewrite bool_decide_true.
Qed.

(** *** Reminders *)
Lemma each_stops {A} (f : A → op unit) xs x ys d e :
  (∀ y, y ∈ xs → f y d = (Ok tt, d)) → f x d = (Raise e, d) → each f (xs ++ x :: ys) d = (Raise e, d).
Proof.
  intros Hxs Hx. induction xs as [|y xs IH]; cbn [app each].
  - by rewrite (bind_stop _ _ _ _ _ Hx).
  - rewrite (bind_step _ _ _ _ _ (Hxs y ltac:(left))). apply IH. intros z Hz. apply Hxs. by right.
Qed.

(** One subscription in the window whose plan was retired makes the
    renewal reminders of every subscription after it fail: nothing is sent. *)
Theorem one_failing_reminder_silences_the_rest now d xs x ys :
  list_by_status [TRIALING; ACTIVE] d = xs ++ x :: ys →
  (∀ y, y ∈ xs → within_renewal_window cfg now y = false) →
  within_renewal_window cfg now x = true → live_plan (subscription_plan x) d = None →
  send_renewal_reminders cfg now d = (Raise AttributeError, d).
Proof.
  intros Hrows Hxs Hx Hplan. unfold send_renewal_reminders.
  erewrite bind_step by (unfold gets; reflexivity). rewrite Hrows. apply each_stops.
  - intros y Hy. unfold remind_renewal. by rewrite Hxs.
  - unfold remind_renewal. rewrite Hx. unfold plan_for_text. rewrite bind_assoc.
    erewrite bind_step by (unfold gets; reflexivity). by rewrite Hplan.
Qed.
End histories.

(** ** What an operation leaves alone

    A preorder that every write of the services keeps is kept by the services
    and by the sweep. *)
Section frames.
Context (R : database → database → Prop) `{!PreOrder R}.

Lemma respects_guarded {A} (m : op A) : respects R m → respects R (guarded m).
Proof. intros Hm d. specialize (Hm d). unfold guarded. by destruct (m d). Qed.
Lemma respects_each {A} (f : A → op unit) rows :
  (∀ x, respects R (f x)) → respects R (each f rows).
Proof.
  intros Hf. induction rows as [|x rows IH]; [by intros d|]. cbn [each].
  apply (respects_bind R); auto.
Qed.
End frames.

(** Every step reads, raises, or writes a table [R] does not look at. *)
Ltac frame_steps R :=
  repeat first
    [ apply (respects_bind R)
    | apply (respects_raise_if R) | apply (respects_of_option R)
    | apply (respects_gets R) | apply (respects_ret R)
    | apply (respects_raise R) | apply (respects_guarded R) | apply (respects_each R)
    | intros d; split_and!; reflexivity
    | progress intros | case_match ].
(** Down to the steps. *)
Ltac open_services :=
  unfold create_plan, deactivate_plan, assign_license,
    activate_license, suspend_license, cancel_license, change_plan, sync_subscription_plan,
    sync_subscription_tier, get_organization, create_coupon, update_coupon, deactivate_coupon,
    create_subscription, apply_coupon, redeem_coupon, create_coupon_usage, increment_current_uses,
    validate_coupon, set_applicable_plans, get_coupon, cancel_subscription, reactivate_subscription,
    pause_subscription, resume_subscription, update_renewal_settings, process_renewal,
    confirm_renewal_payment_succeeded, confirm_renewal_payment_failed, run_renewal_sweep,
    process_due_renewals, lapse_non_renewing_subscriptions, expire_lapsed_subscriptions,
    send_renewal_reminders, send_expiry_reminders, remind_renewal, remind_expiry, lapse,
    expire_lapsed, expire_license, send_reminder_email, plan_for_text, get_subscription,
    process_renewal, finalize_scheduled_cancellation, mark_renewed, mark_past_due,
    assign_license, suspend_license, activate_license, get_license, get_active_plan, get_plan,
    assert_transition, assert_subscription_transition, update_license, update_subscription,
    sync_subscription_tier, get_organization.

Module examples.
#[local] Existing Instance ascii_only.

(** A paying organization, one on the free trial, one that has cancelled. *)
Definition shop : Organization := mk_organization 1 false (u "owner@shop.example") None.
Definition monthly : Plan :=
  mk_plan 30 (u "starter") STARTER MONTHLY 99900 (u "INR") true false.
Definition trial : Plan :=
  mk_plan 31 (u "free-trial") FREE_TRIAL NONE 0 (u "INR") true false.
Definition paying : License :=
  mk_license 11 1 30 LICENSED None (Some 0) None None.
Definition trying : License := mk_license 12 2 31 LICENSED None (Some 0) None None.
Definition left_over : License := mk_license 13 3 30 SUSPENDED None (Some 0) (Some 0) None.
Definition unpaid : Subscription :=
  mk_subscription 21 1 11 30 PAST_DUE MONTHLY 0 (days 31) None true false 0 None None
    (Some (days 31)) None None.
Definition free : Subscription :=
  mk_subscription 22 2 12 31 TRIALING NONE 0 (days 14) (Some (days 14)) true false 0 None None
    None None None.
Definition gone : Subscription :=
  mk_subscription 23 3 13 30 CANCELLED MONTHLY 0 (days 31) None false false 0 (Some 0) None
    None None None.
Definition d0 : database :=
  Database [shop] [monthly; trial] [paying; trying; left_over] [] [unpaid; free; gone]
    [] [] [] [] [] [] [] [] [] [].
Definition week : config := Config 7 3 2.
Definition declines : gateway := λ _ _, Declined.

Lemma consistent_shop : consistent d0.
Proof.
  split; [by repeat constructor; set_solver..|].
  intros x Hx. cbn in Hx. rewrite !elem_of_cons, elem_of_nil in Hx.
  destruct Hx as [-> |[-> |[-> |[]]]];
    [exists paying|exists trying|exists left_over]; by split.
Qed.

Lemma sweep_acts_row_by_row_witness :
  ∃ d', run_renewal_sweep week declines (days 32) d0 = (Ok tt, d')
  ∧ (plain <$> pair_of d' 21) = Some (unpaid, paying).
Proof.
  destruct (sweep_acts_row_by_row week declines (days 32) d0 consistent_shop) as (d' & H & _ & _ & P).
  exists d'. split; [exact H|]. rewrite P. by vm_compute.
Defined.

(** Hourly sweeps on the 37th and 38th day: the seven days end with the second. *)
Lemma grace_period_is_exact_witness :
  ∃ x' l', pair_of (sweeps week [(days 37, declines); (days 38, declines)] d0) 21 = Some (x', l')
  ∧ subscription_status x' = CANCELLED ∧ license_status l' = EXPIRED.
Proof.
  destruct (grace_period_is_exact week [(days 37, declines); (days 38, declines)] d0 21
    unpaid paying (days 31) consistent_shop) as (x' & l' & H & _ & H2); try done.
  - by apply (bool_decide_eq_true_1 (EXPIRED ∈ LICENSE_TRANSITIONS LICENSED)).
  - by repeat constructor.
  - exists x', l'. split; [exact H|]. destruct H2 as (H2 & _ & H3 & _); [|done].
    exists (days 38, declines). split; [right; left|]. done.
Defined.

Lemma unbillable_subscriptions_never_end_witness :
  ∃ x', pair_of (sweeps week [(days 400, declines)] d0) 22 = Some (x', trying).
Proof.
  destruct (unbillable_subscriptions_never_end week [(days 400, declines)] d0 22 free trying
    consistent_shop) as (x' & H & _); try done.
  - split; [by left|]. split; [done|]. by left.
  - by exists x'.
Defined.

Lemma resumed_past_due_loses_grace_witness :
  ∃ y' l', subscription_status y' = CANCELLED ∧ license_status l' = EXPIRED
  ∧ is_Some (pair_of (resume_subscription (days 32) 21 None d0).2 21)
  ∧ pair_of (run_renewal_sweep week declines (days 63)
      (resume_subscription (days 32) 21 None d0).2).2 21 = Some (y', l').
Proof.
  destruct (add_billing_cycle (days 32) MONTHLY) as [e|] eqn:E; [|by vm_compute in E].
  assert (e ≤ days 63) as He by (vm_compute in E; injection E as <-; by vm_compute).
  destruct (resumed_past_due_loses_grace week d0 21 unpaid paying (days 31) (days 32) e (days 63)
    declines None consistent_shop eq_refl eq_refl eq_refl eq_refl eq_refl eq_refl eq_refl) as
    (y & d1 & R & _ & _ & Hp & y' & l' & H1 & H2 & H3).
  - by apply Z.leb_le.
  - exact E.
  - by apply (bool_decide_eq_true_1 (EXPIRED ∈ LICENSE_TRANSITIONS LICENSED)).
  - exact He.
  - by apply Z.leb_le.
  - by eexists.
  - by intros n.
  - exists y', l'. rewrite R. cbn [snd]. destruct Hp as [x' Hp]. split; [exact H2|].
    split; [exact H3|]. split; [|exact H1]. by rewrite Hp.
Defined.

Lemma late_failure_expires_a_cancelled_license_witness :
  ∃ y d1, confirm_renewal_payment_failed (days 40) 23 d0 = (Ok y, d1)
  ∧ subscription_status y = PAST_DUE.
Proof.
  destruct (late_failure_expires_a_cancelled_license week d0 23 gone left_over (days 40) (days 47)
    declines consistent_shop) as (y & d1 & R & H & _); try done. by exists y, d1.
Defined.

(** The plan of the first of two subscriptions that renew soon was retired. *)
Definition orphan : Subscription :=
  mk_subscription 24 1 11 99 ACTIVE MONTHLY 0 (days 31) None true false 0 None None None None None.
Definition soon : Subscription :=
  mk_subscription 25 1 11 30 ACTIVE MONTHLY 0 (days 31) None true false 0 None None None None None.
Definition d1 : database :=
  Database [shop] [monthly] [paying] [] [orphan; soon] [] [] [] [] [] [] [] [] [] [].

Lemma one_failing_reminder_silences_the_rest_witness :
  send_renewal_reminders week (days 30) d1 = (Raise AttributeError, d1)
  ∧ within_renewal_window week (days 30) soon = true.
Proof.
  split; [|by vm_compute].
  apply (one_failing_reminder_silences_the_rest week (days 30) d1 [] orphan [soon]); try done.
  intros y Hy. by apply not_elem_of_nil in Hy.
Defined.
End examples.
End Renewal.
