(* ===== verification/BillingRequests.v ===== *)
(** Billing over the life of many requests.

    The operations of [Billing.v] and [Renewal.v], each as the transaction of
    one request or one scheduled sweep, and their histories: how licenses and
    subscriptions move through their life cycles, and what bounds the use of
    a coupon. *)

From S2P Require Import Prelude Table Session PyStr Billing Renewal.

Module BillingRequests.
Import Billing Renewal.

Section requests.
Context {PU : PyUnicode}.
Variable cfg : config.
Variable trial_period_days : Z.

Inductive command :=
| CreatePlan (id : uuid) (name : pystr) (t : PlanType) (c : BillingCycle) (price : Z) (cur : pystr)
    (active : bool)
| DeactivatePlan (k : uuid)
| AssignLicense (now : datetime) (id org plan : uuid) (expiry : option datetime)
| ActivateLicense (now : datetime) (k : uuid) (org : option uuid)
| SuspendLicense (now : datetime) (k : uuid) (org : option uuid)
| CancelLicense (now : datetime) (k : uuid) (org : option uuid)
| ChangePlan (now : datetime) (k plan : uuid) (org : option uuid) (t : LicenseChangeType)
    (exceeded : bool)
| CreateCoupon (id : uuid) (raw : pystr) (t : DiscountType) (value : Z) (cur : option pystr)
    (org : option uuid) (cap : option Z) (from : datetime) (until : option datetime) (active : bool)
    (allowed : list uuid)
| UpdateCoupon (k : uuid) (ch : coupon_change) (allowed : option (list uuid))
| DeactivateCoupon (k : uuid)
| CreateSubscription (now : datetime) (id license org plan : uuid) (coupon : option pystr)
| CancelSubscription (now : datetime) (k : uuid) (org : option uuid) (immediate : bool)
| ReactivateSubscription (now : datetime) (k : uuid) (org : option uuid)
| PauseSubscription (k : uuid) (org : option uuid)
| ResumeSubscription (now : datetime) (k : uuid) (org : option uuid)
| UpdateRenewalSettings (k org : uuid) (auto : bool)
| ProcessRenewal (charge : gateway) (now : datetime) (k : uuid)
| PaymentSucceeded (now : datetime) (k : uuid)
| PaymentFailed (now : datetime) (k : uuid)
| Sweep (charge : gateway) (now : datetime).

Definition discard {A} (m : op A) : op unit := _ ← m; mret tt.

Definition handler (c : command) : op unit :=
  match c with
  | CreatePlan id name t c price cur active => discard (create_plan id name t c price cur active)
  | DeactivatePlan k => discard (deactivate_plan k)
  | AssignLicense now id org plan expiry => discard (assign_license now id org plan expiry)
  | ActivateLicense now k org => discard (activate_license now k org)
  | SuspendLicense now k org => discard (suspend_license now k org)
  | CancelLicense now k org => discard (cancel_license now k org)
  | ChangePlan now k plan org t exceeded => discard (change_plan now k plan org t exceeded)
  | CreateCoupon id raw t value cur org cap from until active allowed =>
      discard (create_coupon id raw t value cur org cap from until active allowed)
  | UpdateCoupon k ch allowed => discard (update_coupon k ch allowed)
  | DeactivateCoupon k => discard (deactivate_coupon k)
  | CreateSubscription now id license org plan coupon =>
      discard (create_subscription trial_period_days now id license org plan coupon)
  | CancelSubscription now k org immediate => discard (cancel_subscription now k org immediate)
  | ReactivateSubscription now k org => discard (reactivate_subscription now k org)
  | PauseSubscription k org => discard (pause_subscription k org)
  | ResumeSubscription now k org => discard (resume_subscription now k org)
  | UpdateRenewalSettings k org auto => discard (update_renewal_settings k org auto)
  | ProcessRenewal charge now k => discard (process_renewal charge now k)
  | PaymentSucceeded now k => discard (confirm_renewal_payment_succeeded now k)
  | PaymentFailed now k => discard (confirm_renewal_payment_failed now k)
  | Sweep charge now => run_renewal_sweep cfg charge now
  end.

(** A request is committed when its handler returns and undone when it raises. *)
Definition request : command → database → database := transact handler.
Definition requests : list command → database → database := transactions handler.

(** ** Life cycles *)

(** The confirmations of a payment by a webhook look at no status. *)
Definition webhook (c : command) : Prop :=
  match c with PaymentSucceeded _ _ | PaymentFailed _ _ => True | _ => False end.

(** A step keeps the data consistent and moves rows along the tables. *)
Definition lawful_step (d d' : database) : Prop := consistent d → consistent d' ∧ evolves d d'.
#[local] Instance lawful_preorder : PreOrder lawful_step.
Proof.
  split; [by intros d|]. intros d1 d2 d3 H12 H23 C1. destruct (H12 C1) as [C2 E12].
  destruct (H23 C2) as [C3 E23]. split; [done|by etrans].
Qed.

(** *** The writes *)
Lemma write_license d k l f : by_id k (licenses d) = Some l → same_license f →
  rtc license_step (license_status l) (license_status (f l)) →
  lawful_step d (set_licenses (set_row f k) d).
Proof.
  intros Hl Hf Hs Hd. split.
  - enough (set_licenses (set_row f k) d = write_pair (λ x, x) 1 f k d) as ->
      by (by apply consistent_write).
    unfold write_pair, set_subscriptions. cbn. rewrite set_row_id. by destruct d.
  - split; cbn.
    + intros j m Hm. rewrite by_id_set_row by apply Hf. destruct (decide (k = j)) as [<-|].
      * simplify_eq. rewrite Hl. eexists. split; [done|]. split; [apply Hf|done].
      * by exists m.
    + intros j x Hx. by exists x.
Qed.

Lemma write_subscription_row d k x f : by_id k (subscriptions d) = Some x → same_subscription f →
  rtc subscription_step (subscription_status x) (subscription_status (f x)) →
  lawful_step d (set_subscriptions (set_row f k) d).
Proof.
  intros Hx Hf Hs Hd. split.
  - rewrite (write_subscription f k 1). by apply consistent_write.
  - split; cbn.
    + intros j l Hl. by exists l.
    + intros j y Hy. rewrite by_id_set_row by apply Hf. destruct (decide (k = j)) as [<-|].
      * simplify_eq. rewrite Hx. eexists. split; [done|]. split; [apply Hf|].
        split; [apply Hf|done].
      * by exists y.
Qed.

(** Writes to the other tables. *)
Lemma write_elsewhere d d' : licenses d' = licenses d → subscriptions d' = subscriptions d →
  lawful_step d d'.
Proof.
  intros El Es [H1 H2 H3 H4 H5]. split.
  - split; rewrite ?El, ?Es; done.
  - split; intros k r Hr; exists r; by rewrite ?El, ?Es.
Qed.

Lemma NoDup_insert {R K} (key : R → K) (t : list R) r :
  NoDup (map key t) → (∀ s, s ∈ t → key s ≠ key r) → NoDup (map key (insert_row r t)).
Proof.
  intros Hnd Hno. unfold insert_row. rewrite map_app. apply NoDup_app. split; [done|].
  split; [|apply NoDup_singleton]. intros k Hk Hr. apply list_elem_of_singleton in Hr. subst k.
  apply list_elem_of_In, in_map_iff in Hk as (s & Hs & Hin). apply (Hno s); [by apply list_elem_of_In|done].
Qed.

Lemma insert_license d l : license_of (license_org l) d = None →
  by_id (license_id l) (licenses d) = None → lawful_step d (set_licenses (insert_row l) d).
Proof.
  intros Ho Hk [H1 H2 H3 H4 H5]. split.
  - split; cbn; [by apply keyed_insert|done| |done|].
    + apply NoDup_insert; [done|]. intros m Hm E. unfold license_of in Ho.
      rewrite select_one_None in Ho. specialize (Ho m Hm). by rewrite bool_decide_true in Ho.
    + intros x Hx. destruct (H5 x Hx) as (m & Hm & Eo). exists m. split; [|done].
      by rewrite by_id_insert, Hm.
  - split; cbn.
    + intros k m Hm. exists m. by rewrite by_id_insert, Hm.
    + intros k x Hx. by exists x.
Qed.

Lemma insert_subscription d x l : subscription_of (subscription_org x) d = None →
  by_id (subscription_id x) (subscriptions d) = None →
  by_id (subscription_license x) (licenses d) = Some l → license_org l = subscription_org x →
  lawful_step d (set_subscriptions (insert_row x) d).
Proof.
  intros Ho Hk Hl Eo [H1 H2 H3 H4 H5]. split.
  - split; cbn; [done|by apply keyed_insert|done| |].
    + apply NoDup_insert; [done|]. intros y Hy E. unfold subscription_of in Ho.
      rewrite select_one_None in Ho. specialize (Ho y Hy). by rewrite bool_decide_true in Ho.
    + intros y Hy. unfold insert_row in Hy. apply elem_of_app in Hy as [Hy|Hy]; [by apply H5|].
      apply list_elem_of_singleton in Hy. subst y. by exists l.
  - split; cbn.
    + intros k m Hm. by exists m.
    + intros k y Hy. exists y. by rewrite by_id_insert, Hy.
Qed.

(** *** The operations on licenses *)
Lemma get_license_Ok d k org l d' : get_license k org d = (Ok l, d') →
  d' = d ∧ by_id k (licenses d) = Some l ∧ license_id l = k.
Proof.
  unfold get_license. intros H. ok_inv H. split; [done|]. split; [done|].
  by apply by_id_Some in Hsome as [_ ?].
Qed.
Lemma assert_transition_Ok s target d d' : assert_transition s target d = (Ok tt, d') →
  d' = d ∧ target ∈ LICENSE_TRANSITIONS s.
Proof. unfold assert_transition. intros H. ok_inv H. bools. by split. Qed.

(** A license read, its transition asserted, its row written. *)
Lemma license_write_Ok d k org target f l d' : same_license f → (∀ l, license_status (f l) = target) →
  (l ← get_license k org; _ ← assert_transition (license_status l) target; update_license l f) d
    = (Ok l, d') →
  lawful_step d d' ∧ ∃ l0, by_id k (licenses d) = Some l0 ∧ l = f l0
    ∧ d' = set_licenses (set_row f k) d.
Proof.
  intros Hf Ht H. apply bind_Ok in H as (l0 & d1 & Hg & H).
  apply get_license_Ok in Hg as (-> & Hl & Hk). apply bind_Ok in H as ([] & d2 & Ha & H).
  apply assert_transition_Ok in Ha as [-> Ha]. unfold update_license in H. ok_inv H.
  split; [|by exists l0]. apply (write_license d _ l0 f Hl Hf). apply rtc_once.
  unfold license_step. by rewrite Ht.
Qed.

Lemma activate_Ok now k org d l d' : activate_license now k org d = (Ok l, d') →
  lawful_step d d' ∧ ∃ l0, by_id k (licenses d) = Some l0 ∧ l = activated now l0
    ∧ d' = set_licenses (set_row (activated now) k) d.
Proof. by apply license_write_Ok. Qed.
Lemma suspend_Ok now k org d l d' : suspend_license now k org d = (Ok l, d') →
  lawful_step d d' ∧ ∃ l0, by_id k (licenses d) = Some l0 ∧ l = suspended now l0
    ∧ d' = set_licenses (set_row (suspended now) k) d.
Proof. by apply license_write_Ok. Qed.
Lemma cancel_license_Ok now k org d l d' : cancel_license now k org d = (Ok l, d') →
  lawful_step d d'.
Proof. intros H. by apply license_write_Ok in H as [? _]. Qed.

Lemma get_plan_Ok k d p d' : get_plan k d = (Ok p, d') → d' = d ∧ live_plan k d = Some p.
Proof. unfold get_plan. intros H. by ok_inv H. Qed.
Lemma get_active_plan_Ok k d p d' : get_active_plan k d = (Ok p, d') →
  d' = d ∧ live_plan k d = Some p ∧ plan_id p = k.
Proof.
  unfold get_active_plan. intros H. apply bind_Ok in H as (q & d1 & Hg & H).
  apply get_plan_Ok in Hg as [-> Hg]. ok_inv H. split; [done|]. split; [done|].
  apply select_one_Some in Hg as [_ Hk]. apply andb_true_iff in Hk as [Hk _].
  by apply bool_decide_eq_true in Hk.
Qed.

Lemma sync_tier_Ok k tier d d' : sync_subscription_tier k tier d = (Ok tt, d') →
  licenses d' = licenses d ∧ subscriptions d' = subscriptions d.
Proof. unfold sync_subscription_tier, get_organization. intros H. ok_inv H. by split. Qed.

Lemma assign_license_Ok now id org plan expiry d l d' : assign_license now id org plan expiry d = (Ok l, d') →
  lawful_step d d' ∧ license_id l = id ∧ license_org l = org ∧ license_status l = PENDING_ACTIVATION
  ∧ by_id id (licenses d') = Some l ∧ subscriptions d' = subscriptions d.
Proof.
  unfold assign_license. intros H. apply bind_Ok in H as (ex & d1 & Hg & H). ok_inv Hg.
  apply bind_Ok in H as ([] & d2 & Hr & H). ok_inv Hr.
  apply bind_Ok in H as (p & d3 & Hp & H). apply get_active_plan_Ok in Hp as (-> & Hp & Hk).
  ok_inv H. destruct a. apply sync_tier_Ok in Hrun as [El Es]. cbn in El, Es.
  apply negb_false_iff, andb_true_iff in Htest0 as [_ Hfresh]. bools.
  apply eq_None_not_Some in Htest. set (l := mk_license _ _ _ _ _ _ _ _) in *.
  pose proof (insert_license s0 l Htest Hfresh) as Hins.
  split_and!; try done.
  - etrans; [exact Hins|]. by apply write_elsewhere.
  - rewrite El, by_id_insert, Hfresh. by rewrite decide_True.
Qed.

Lemma update_subscription_Ok k d x f y d' : by_id k (subscriptions d) = Some x →
  update_subscription x f d = (Ok y, d') → same_subscription f →
  rtc subscription_step (subscription_status x) (subscription_status (f x)) → lawful_step d d'.
Proof.
  intros Hx H Hf Hs. pose proof (by_id_Some _ _ _ Hx) as [_ Hk].
  change (subscription_id x = k) in Hk. unfold update_subscription in H. ok_inv H.
  by eapply write_subscription_row.
Qed.

Lemma sync_plan_Ok org p d d' : consistent d → sync_subscription_plan org p d = (Ok tt, d') →
  lawful_step d d'.
Proof.
  intros Hd. unfold sync_subscription_plan. intros H. apply bind_Ok in H as (row & d1 & Hg & H).
  ok_inv Hg. destruct (subscription_of org d1) as [x|] eqn:E; [|by ok_inv H].
  destruct (_ && _); [by ok_inv H|]. apply bind_Ok in H as (y & d2 & Hw & H). ok_inv H.
  apply select_one_Some in E as [Hin _].
  eapply (update_subscription_Ok (subscription_id x)); [|exact Hw|by intros z|done].
  by apply by_id_unique; [apply Hd| |].
Qed.

Lemma change_plan_Ok now k plan org t exceeded d l d' : consistent d →
  change_plan now k plan org t exceeded d = (Ok l, d') → lawful_step d d'.
Proof.
  intros Hd. unfold change_plan. intros H. apply bind_Ok in H as (l0 & d1 & Hg & H).
  apply get_license_Ok in Hg as (-> & Hl & Hk).
  apply bind_Ok in H as ([] & e1 & Hr & H). ok_inv Hr.
  apply bind_Ok in H as ([] & e2 & Hr & H). ok_inv Hr.
  apply bind_Ok in H as (p & d3 & Hp & H). apply get_active_plan_Ok in Hp as (-> & Hp & Hpk).
  apply bind_Ok in H as ([] & e3 & Hr & H). ok_inv Hr.
  apply bind_Ok in H as (y & d4 & Hu & H). unfold update_license in Hu. ok_inv Hu.
  apply bind_Ok in H as ([] & d5 & Hm & H). ok_inv Hm.
  apply bind_Ok in H as ([] & d6 & Hsp & H). apply bind_Ok in H as ([] & d7 & Hst & H). ok_inv H.
  apply sync_tier_Ok in Hst as [El Es].
  match type of Hl with by_id _ (licenses ?e) = _ =>
    match type of Hsp with _ ?s = _ => assert (lawful_step e s) as H2 end end.
  { etrans; [eapply (write_license _ _ l0 (with_license_plan (plan_id p)) Hl); [by intros m|done]|].
    by apply write_elsewhere. }
  apply sync_plan_Ok in Hsp; [|by apply H2].
  etrans; [exact H2|]. etrans; [exact Hsp|]. by apply write_elsewhere.
Qed.

(** *** The operations on subscriptions *)
Lemma get_subscription_Ok d k org x d' : get_subscription k org d = (Ok x, d') →
  d' = d ∧ by_id k (subscriptions d) = Some x.
Proof. unfold get_subscription. intros H. by ok_inv H. Qed.
Lemma assert_move_Ok s target d d' : assert_subscription_transition s target d = (Ok tt, d') →
  d' = d ∧ subscription_step s target.
Proof. unfold assert_subscription_transition. intros H. ok_inv H. bools. by split. Qed.

Lemma validate_coupon_Ok now raw org plan d c d' : validate_coupon now raw org plan d = (Ok c, d') →
  d' = d ∧ get_coupon_by_code (normalize_coupon_code raw) d = Some c
  ∧ coupon_refusal now org plan (list_applicable_plan_ids (coupon_id c) d) c = None.
Proof.
  unfold validate_coupon. intros H. apply bind_Ok in H as (row & d1 & Hg & H). ok_inv Hg.
  apply bind_Ok in H as (c0 & d2 & Hg & H). ok_inv Hg.
  apply bind_Ok in H as (ps & d3 & Hg & H). ok_inv Hg.
  destruct (coupon_refusal _ _ _ _ _) eqn:E; ok_inv H. done.
Qed.
Lemma redeem_Ok now org sub base c d n d' : redeem_coupon now org sub base c d = (Ok n, d') →
  licenses d' = licenses d ∧ subscriptions d' = subscriptions d.
Proof. unfold redeem_coupon, create_coupon_usage, increment_current_uses. intros H. by ok_inv H. Qed.
Lemma apply_coupon_Ok now raw org sub plan base d n d' : apply_coupon now raw org sub plan base d = (Ok n, d') →
  licenses d' = licenses d ∧ subscriptions d' = subscriptions d.
Proof.
  unfold apply_coupon. intros H. apply bind_Ok in H as (c & d1 & Hv & H).
  apply validate_coupon_Ok in Hv as [-> _]. by apply redeem_Ok in H.
Qed.

Lemma create_subscription_Ok now id license org plan raw d x d' : consistent d →
  create_subscription trial_period_days now id license org plan raw d = (Ok x, d') → lawful_step d d'.
Proof.
  intros Hd. unfold create_subscription. intros H.
  apply bind_Ok in H as (ex & e1 & Hg & H). ok_inv Hg.
  apply bind_Ok in H as ([] & e2 & Hr & H). ok_inv Hr.
  apply bind_Ok in H as (p & e3 & Hp & H). apply get_active_plan_Ok in Hp as (-> & Hp & _).
  apply bind_Ok in H as (cp & e4 & Hc & H).
  assert (e4 = e2) as ->.
  { destruct raw; [|by ok_inv Hc]. apply bind_Ok in Hc as (c & e & Hv & Hc).
    apply validate_coupon_Ok in Hv as [-> _]. by ok_inv Hc. }
  apply bind_Ok in H as (l & e5 & Ha & H). apply assign_license_Ok in Ha as (L1 & Hid & Hor & Hst & Hl & Hsub).
  apply bind_Ok in H as (l2 & e6 & Ha & H). apply activate_Ok in Ha as (L2 & l0 & Hl0 & -> & ->).
  apply bind_Ok in H as (pe & e7 & Ho & H).
  assert (e7 = set_licenses (set_row (activated now) (license_id l)) e5) as -> by (by ok_inv Ho).
  apply bind_Ok in H as (fr & e8 & Hg & H). ok_inv Hg.
  apply bind_Ok in H as ([] & e9 & Hr & H). ok_inv Hr.
  apply bind_Ok in H as ([] & e10 & Hm & H). ok_inv Hm.
  apply bind_Ok in H as (n & e11 & Hap & H). ok_inv H.
  bools. apply eq_None_not_Some in Htest.
  match type of Hap with _ ?s = _ =>
    assert (licenses d' = licenses s ∧ subscriptions d' = subscriptions s) as [El Es] end.
  { destruct cp; [by apply apply_coupon_Ok in Hap|by ok_inv Hap]. }
  assert (l0 = l) as -> by congruence.
  etrans; [exact L1|]. etrans; [exact L2|].
  etrans; [|apply write_elsewhere; [exact El|exact Es]].
  eapply (insert_subscription _ _ (activated now l)); cbn.
  - unfold subscription_of. cbn. by rewrite Hsub.
  - done.
  - rewrite by_id_set_row by done. by rewrite decide_True, Hl0.
  - done.
Qed.

Lemma cancel_subscription_Ok now k org im d x d' :
  cancel_subscription now k org im d = (Ok x, d') → lawful_step d d'.
Proof.
  unfold cancel_subscription. intros H. apply bind_Ok in H as (x0 & d1 & Hg & H).
  apply get_subscription_Ok in Hg as [-> Hx].
  apply bind_Ok in H as ([] & e1 & Hr & H). ok_inv Hr. destruct im.
  - apply bind_Ok in H as ([] & e2 & Ha & H). apply assert_move_Ok in Ha as [-> Ha].
    apply bind_Ok in H as (y & e3 & Hu & H). apply bind_Ok in H as (l & e4 & Hs & H). ok_inv H.
    apply suspend_Ok in Hs as [L2 _]. etrans; [|exact L2].
    eapply update_subscription_Ok; [exact Hx|exact Hu|by intros z|]. by apply rtc_once.
  - eapply update_subscription_Ok; [exact Hx|exact H|by intros z|done].
Qed.

Lemma reactivate_Ok now k org d x d' :
  reactivate_subscription now k org d = (Ok x, d') → lawful_step d d'.
Proof.
  unfold reactivate_subscription. intros H. apply bind_Ok in H as (x0 & d1 & Hg & H).
  apply get_subscription_Ok in Hg as [-> Hx].
  apply bind_Ok in H as ([] & e2 & Ha & H). apply assert_move_Ok in Ha as [-> Ha].
  apply bind_Ok in H as (l & e3 & Hl & H). apply get_license_Ok in Hl as (-> & Hl & _).
  apply bind_Ok in H as ([] & e4 & Hr & H). ok_inv Hr.
  apply bind_Ok in H as (l2 & e5 & Hact & H). apply bind_Ok in H as (e & e6 & Ho & H).
  assert (lawful_step e4 e5 ∧ subscriptions e5 = subscriptions e4) as [L1 Es].
  { destruct (bool_decide (license_status l = SUSPENDED)); [|by ok_inv Hact].
    apply activate_Ok in Hact as (L & l0 & _ & _ & ->). by split. }
  assert (e6 = e5) as -> by (by ok_inv Ho).
  etrans; [exact L1|]. eapply update_subscription_Ok; [by rewrite Es|exact H|by intros z|].
  by apply rtc_once.
Qed.

Lemma pause_Ok k org d x d' : pause_subscription k org d = (Ok x, d') → lawful_step d d'.
Proof.
  unfold pause_subscription. intros H. apply bind_Ok in H as (x0 & d1 & Hg & H).
  apply get_subscription_Ok in Hg as [-> Hx].
  apply bind_Ok in H as ([] & e2 & Ha & H). apply assert_move_Ok in Ha as [-> Ha].
  eapply update_subscription_Ok; [exact Hx|exact H|by intros z|]. by apply rtc_once.
Qed.

Lemma resume_Ok now k org d x d' : resume_subscription now k org d = (Ok x, d') → lawful_step d d'.
Proof.
  unfold resume_subscription. intros H. apply bind_Ok in H as (x0 & d1 & Hg & H).
  apply get_subscription_Ok in Hg as [-> Hx].
  apply bind_Ok in H as ([] & e2 & Ha & H). apply assert_move_Ok in Ha as [-> Ha].
  destruct (_ <=? now).
  - apply bind_Ok in H as (e & e3 & Ho & H). assert (e3 = d) as -> by (by ok_inv Ho).
    eapply update_subscription_Ok; [exact Hx|exact H|by intros z|]. by apply rtc_once.
  - eapply update_subscription_Ok; [exact Hx|exact H|by intros z|]. by apply rtc_once.
Qed.

Lemma settings_Ok k org auto d x d' : update_renewal_settings k org auto d = (Ok x, d') →
  lawful_step d d'.
Proof.
  unfold update_renewal_settings. intros H. apply bind_Ok in H as (x0 & d1 & Hg & H).
  apply get_subscription_Ok in Hg as [-> Hx].
  eapply update_subscription_Ok; [exact Hx|exact H|by intros z|done].
Qed.

Lemma process_renewal_Ok charge now k d x d' : process_renewal charge now k d = (Ok x, d') →
  lawful_step d d'.
Proof.
  unfold process_renewal. intros H. apply bind_Ok in H as (row & e0 & Hg & H). ok_inv Hg.
  apply bind_Ok in H as (x0 & e1 & Hx & H).
  assert (e1 = e0 ∧ by_id k (subscriptions e0) = Some x0) as [-> Hx0] by (by ok_inv Hx).
  apply bind_Ok in H as ([] & e2 & Hr & H). ok_inv Hr. apply negb_false_iff in Htest.
  destruct (renewable_moves _ Htest) as (Hact & Hpd & Hcan).
  destruct (_ && _).
  - unfold finalize_scheduled_cancellation in H. apply bind_Ok in H as (y & e3 & Hu & H).
    apply bind_Ok in H as (l & e4 & Hs & H). ok_inv H. apply suspend_Ok in Hs as [L2 _].
    etrans; [|exact L2].
    by eapply update_subscription_Ok; [exact Hx0|exact Hu|intros z|].
  - apply bind_Ok in H as (p & e3 & Hp & H). apply get_plan_Ok in Hp as [-> _].
    destruct (charge _ _); [| | |discriminate H].
    + unfold mark_renewed in H. apply bind_Ok in H as (e & e4 & Ho & H).
      assert (e4 = e2) as -> by (by ok_inv Ho).
      by eapply update_subscription_Ok; [exact Hx0|exact H|intros z|].
    + by eapply update_subscription_Ok; [exact Hx0|exact H|intros z|].
    + by eapply update_subscription_Ok; [exact Hx0|exact H|intros z|].
Qed.

Lemma set_applicable_plans_Ok k ps d d' : set_applicable_plans k ps d = (Ok tt, d') →
  licenses d' = licenses d ∧ subscriptions d' = subscriptions d ∧ coupons d' = coupons d
  ∧ usages d' = usages d.
Proof. unfold set_applicable_plans. intros H. by ok_inv H. Qed.
Lemma update_coupon_Ok k ch ps d c d' : update_coupon k ch ps d = (Ok c, d') →
  licenses d' = licenses d ∧ subscriptions d' = subscriptions d
  ∧ coupons d' = set_row (changed ch) k (coupons d) ∧ usages d' = usages d.
Proof.
  unfold update_coupon. intros H. apply bind_Ok in H as (c0 & e1 & Hg & H).
  unfold get_coupon in Hg. ok_inv Hg.
  apply bind_Ok in H as ([] & e2 & Hv & H).
  assert (e2 = e1) as -> by (destruct (_ || _); by ok_inv Hv).
  apply bind_Ok in H as ([] & e3 & Hm & H). ok_inv Hm.
  apply bind_Ok in H as ([] & e4 & Hp & H). ok_inv H.
  destruct ps; [|by ok_inv Hp]. by apply set_applicable_plans_Ok in Hp.
Qed.

Lemma handler_lawful c d d' : ¬ webhook c → handler c d = (Ok tt, d') → lawful_step d d'.
Proof.
  intros Hw H Hd. destruct c; cbn [handler webhook] in *; try (by destruct Hw);
    lazymatch type of H with
    | discard _ _ = _ => apply bind_Ok in H as (a & d1 & H & Hret); ok_inv Hret
    | _ => idtac
    end.
  - unfold create_plan in H. ok_inv H. by apply write_elsewhere.
  - unfold deactivate_plan in H. apply bind_Ok in H as (p & e & Hp & H).
    apply get_plan_Ok in Hp as [-> _]. ok_inv H. by apply write_elsewhere.
  - apply assign_license_Ok in H as [L _]. by apply L.
  - apply activate_Ok in H as [L _]. by apply L.
  - apply suspend_Ok in H as [L _]. by apply L.
  - apply cancel_license_Ok in H. by apply H.
  - apply change_plan_Ok in H; [by apply H|done].
  - unfold create_coupon, set_applicable_plans in H. ok_inv H; by apply write_elsewhere.
  - apply update_coupon_Ok in H as (El & Es & _). by apply write_elsewhere.
  - unfold deactivate_coupon, get_coupon in H. ok_inv H. by apply write_elsewhere.
  - apply create_subscription_Ok in H; [by apply H|done].
  - apply cancel_subscription_Ok in H. by apply H.
  - apply reactivate_Ok in H. by apply H.
  - apply pause_Ok in H. by apply H.
  - apply resume_Ok in H. by apply H.
  - apply settings_Ok in H. by apply H.
  - apply process_renewal_Ok in H. by apply H.
  - destruct (sweep_acts cfg charge now d Hd) as (d2 & Hsw & C & _ & E & _).
    rewrite Hsw in H. injection H as <-. by split.
Qed.

Lemma license_end s s' : LICENSE_TRANSITIONS s = [] → rtc license_step s s' → s' = s.
Proof.
  intros Hs Hr. apply rtc_inv in Hr as [->|(y & Hy & _)]; [done|].
  unfold license_step in Hy. rewrite Hs in Hy. by apply not_elem_of_nil in Hy.
Qed.

(** C21: over any history of requests and sweeps, without webhook
    confirmations, every organization keeps at most one license and one
    subscription, a subscription keeps its organization's license, every
    license and every subscription only moves along its transition table, and
    an expired or cancelled license stays so. *)
Theorem life_cycles_are_respected cs d :
  consistent d → Forall (λ c, ¬ webhook c) cs →
  consistent (requests cs d) ∧ evolves d (requests cs d)
  ∧ ∀ k l, by_id k (licenses d) = Some l → license_status l ∈ [EXPIRED; LICENSE_CANCELLED] →
      ∃ l', by_id k (licenses (requests cs d)) = Some l' ∧ license_status l' = license_status l.
Proof.
  intros Hd Hcs.
  destruct (transactions_induct handler lawful_step _ cs d handler_lawful Hcs Hd) as [C E].
  split; [done|]. split; [done|]. intros k l Hl Hs.
  destruct (licenses_move _ _ E k l Hl) as (l' & Hl' & _ & Hr). exists l'. split; [done|].
  apply license_end in Hr; [done|]. clear -Hs.
  apply elem_of_cons in Hs as [-> |Hs]; [done|]. by apply list_elem_of_singleton in Hs as ->.
Qed.

(** ** Coupons *)

(** Rows of coupons and of their uses, unchanged. *)
Definition same_coupons (d d' : database) : Prop :=
  coupons d' = coupons d ∧ usages d' = usages d.
#[local] Instance same_coupons_preorder : PreOrder same_coupons.
Proof. split; [by intros d|]. intros d1 d2 d3 [] []. split; congruence. Qed.

Definition about_coupons (c : command) : bool :=
  match c with
  | CreateCoupon _ _ _ _ _ _ _ _ _ _ _ | UpdateCoupon _ _ _ | DeactivateCoupon _
  | CreateSubscription _ _ _ _ _ _ => true
  | _ => false
  end.

Lemma handler_same_coupons c : about_coupons c = false → respects same_coupons (handler c).
Proof.
  destruct c; intros [=]; cbn [handler]; unfold discard; open_services; frame_steps same_coupons.
Qed.

(** Invoices, their notes and numbers: no operation of these services writes
    them, and uses of coupons are never taken back. *)
Record keeps_documents (d d' : database) : Prop := {
  kept_documents : invoices d' = invoices d ∧ items d' = items d ∧ notes d' = notes d
    ∧ counters d' = counters d;
  kept_uses : ∀ r, r ∈ usages d → r ∈ usages d';
}.
#[local] Instance keeps_documents_preorder : PreOrder keeps_documents.
Proof.
  split; [by intros d|]. intros d1 d2 d3 [(? & ? & ? & ?) U1] [(? & ? & ? & ?) U2].
  split; [split_and!; congruence|auto].
Qed.
Lemma kept d d' : invoices d' = invoices d → items d' = items d → notes d' = notes d →
  counters d' = counters d → usages d' = usages d → keeps_documents d d'.
Proof. intros ? ? ? ? E. split; [done|]. by rewrite E. Qed.
Lemma handler_keeps_documents c : respects keeps_documents (handler c).
Proof.
  destruct c; cbn [handler]; unfold discard; open_services;
    repeat first [progress frame_steps keeps_documents
      | intros d; apply kept; reflexivity
      | intros d; split; [done|]; intros r Hr; unfold insert_row; cbn; apply elem_of_app; by left].
Qed.

(** Every use of a coupon is counted; the count stays within the cap. *)
Definition uses_of (k : uuid) (d : database) : Z :=
  rowcount (λ r, bool_decide (used_coupon r = k)) (usages d).
Record coupons_ok (d : database) : Prop := {
  keyed_coupons : keyed (coupons d);
  uses_known : ∀ r, r ∈ usages d → is_Some (by_id (used_coupon r) (coupons d));
  uses_counted : ∀ c, c ∈ coupons d → current_uses c = uses_of (coupon_id c) d;
}.
Definition capped (d : database) : Prop :=
  ∀ c n, c ∈ coupons d → max_uses c = Some n → current_uses c ≤ n.

(** What the schemas of the requests enforce of a cap, and that no cap is
    edited after its coupon was created. *)
Definition keeps_caps (c : command) : Prop :=
  match c with
  | CreateCoupon _ _ _ _ _ _ cap _ _ _ _ => ∀ n, cap = Some n → 1 ≤ n
  | UpdateCoupon _ ch _ => set_cap ch = None
  | _ => True
  end.

Definition coupon_step (P : Prop) (d d' : database) : Prop :=
  coupons_ok d → coupons_ok d' ∧ (P → capped d → capped d').
#[local] Instance coupon_step_preorder P : PreOrder (coupon_step P).
Proof.
  split; [by intros d|]. intros d1 d2 d3 H12 H23 H1. destruct (H12 H1) as [H2 C2].
  destruct (H23 H2) as [H3 C3]. split; auto.
Qed.
Lemma same_coupons_step P d d' : same_coupons d d' → coupon_step P d d'.
Proof.
  intros [Ec Eu] [H1 H2 H3]. unfold capped. split.
  - split; unfold uses_of; rewrite ?Ec, ?Eu; done.
  - intros _. by rewrite Ec.
Qed.

(** A rewrite of one coupon that keeps its identity and its count. *)
Lemma rewrite_coupon P d d' k f :
  coupons d' = set_row f k (coupons d) → usages d' = usages d →
  (∀ c, coupon_id (f c) = coupon_id c ∧ current_uses (f c) = current_uses c) →
  (P → ∀ c, max_uses (f c) = max_uses c) → coupon_step P d d'.
Proof.
  intros Ec Eu Hf Hcap [H1 H2 H3].
  assert (∀ c, c ∈ coupons d' → ∃ c0, c0 ∈ coupons d ∧ coupon_id c = coupon_id c0
    ∧ current_uses c = current_uses c0 ∧ (P → max_uses c = max_uses c0)) as Hold.
  { intros c Hc. rewrite Ec in Hc. apply elem_of_update in Hc as (c0 & Hc0 & ->). exists c0.
    split; [done|]. destruct (has_id k c0); [|done]. destruct (Hf c0). split_and!; auto. }
  split.
  - split.
    + rewrite Ec. apply keyed_set_row; [|done]. intros c. apply Hf.
    + intros r Hr. rewrite Eu in Hr. rewrite Ec, by_id_set_row by (intros c; apply Hf).
      destruct (H2 r Hr) as [c Hc]. destruct (decide _) as [E|]; rewrite ?E, Hc; by eexists.
    + intros c Hc. destruct (Hold c Hc) as (c0 & Hc0 & -> & -> & _). unfold uses_of. rewrite Eu.
      by apply H3.
  - intros HP Hcapped c n Hc Hn. destruct (Hold c Hc) as (c0 & Hc0 & _ & -> & Hm).
    apply (Hcapped c0 n Hc0). by rewrite <-Hm.
Qed.

Lemma create_coupon_step id raw t value cur org cap from until active allowed d c d' :
  create_coupon id raw t value cur org cap from until active allowed d = (Ok c, d') →
  coupon_step (∀ n, cap = Some n → 1 ≤ n) d d'.
Proof.
  unfold create_coupon. intros H. apply bind_Ok in H as (clash & e1 & Hg & H). ok_inv Hg.
  apply bind_Ok in H as ([] & e2 & Hr & H). ok_inv Hr.
  apply bind_Ok in H as ([] & e3 & Hr & H). ok_inv Hr.
  apply bind_Ok in H as (tk & e4 & Hg & H). ok_inv Hg.
  apply bind_Ok in H as ([] & e5 & Hr & H). ok_inv Hr.
  apply bind_Ok in H as ([] & e6 & Hm & H). ok_inv Hm.
  apply bind_Ok in H as ([] & e7 & Hp & H). ok_inv H.
  set (x := mk_coupon id _ _ _ _ _ _ _ _ _ _ _) in *.
  match type of Hp with _ (set_coupons _ ?e) = _ => set (e0 := e) in * end.
  assert (coupons d' = insert_row x (coupons e0) ∧ usages d' = usages e0) as [Ec Eu].
  { destruct (bool_decide (allowed = [])); [by ok_inv Hp|].
    by apply set_applicable_plans_Ok in Hp as (_ & _ & -> & ->). }
  apply Z.ltb_ge in Htest1.
  pose proof (rowcount_nonneg
    (λ x, bool_decide (code x = normalize_coupon_code raw) || has_id id x) (coupons e0)) as Hnn.
  assert (by_id id (coupons e0) = None) as Hfresh.
  { unfold by_id. rewrite select_one_None. intros y Hy.
    eapply rowcount_zero in Hy; [|apply Z.le_antisymm; [exact Htest1|exact Hnn]].
    by apply orb_false_iff in Hy as [_ ?]. }
  intros [H1 H2 H3]. split.
  - split.
    + rewrite Ec. by apply keyed_insert.
    + intros r Hr. rewrite Eu in Hr. rewrite Ec, by_id_insert. by destruct (H2 r Hr) as [y ->].
    + intros y Hy. rewrite Ec in Hy. unfold uses_of. rewrite Eu.
      unfold insert_row in Hy. apply elem_of_app in Hy as [Hy|Hy]; [by apply H3|].
      apply list_elem_of_singleton in Hy as ->. cbn. symmetry.
      apply rowcount_none. intros r Hr. apply bool_decide_eq_false. intros Hk.
      destruct (H2 r Hr) as [z Hz]. congruence.
  - intros Hcap Hcapped y n Hy Hn. rewrite Ec in Hy. unfold insert_row in Hy.
    apply elem_of_app in Hy as [Hy|Hy]; [by eapply Hcapped|].
    apply list_elem_of_singleton in Hy as ->. cbn in *. specialize (Hcap n Hn). lia.
Qed.

Lemma coupon_by_code_Some raw d c : get_coupon_by_code raw d = Some c → c ∈ coupons d.
Proof. intros H. by apply select_one_Some in H as [? _]. Qed.

Lemma refusal_None_below now org plan allowed c n :
  coupon_refusal now org plan allowed c = None → max_uses c = Some n → current_uses c < n.
Proof.
  unfold coupon_refusal. intros H Hn. rewrite Hn in H.
  destruct (negb (coupon_active c)); [done|]. destruct (now <? valid_from c); [done|].
  destruct (match valid_until c with Some t => t <=? now | None => false end); [done|].
  destruct (n <=? current_uses c) eqn:E; [done|]. by apply Z.leb_gt in E.
Qed.

(** What a redemption writes. *)
Lemma redeem_writes now org sub base c d :
  redeem_coupon now org sub base c d =
    (Ok (compute_discount_amount (discount_type c) (discount_value c) base),
     set_coupons (set_row (λ c, with_uses (current_uses c + 1) c) (coupon_id c))
       (set_usages (insert_row (mk_usage (coupon_id c) org sub now
          (compute_discount_amount (discount_type c) (discount_value c) base))) d)).
Proof. done. Qed.

Lemma uses_of_insert k r d d' : usages d' = insert_row r (usages d) →
  uses_of k d' = uses_of k d + (if bool_decide (used_coupon r = k) then 1 else 0).
Proof.
  intros E. unfold uses_of, insert_row in *. rewrite E, rowcount_app. f_equal.
  unfold rowcount, select. cbn. by destruct (bool_decide _).
Qed.

Lemma redeem_coupon_step now org sub base c d n d' :
  redeem_coupon now org sub base c d = (Ok n, d') → c ∈ coupons d →
  (∀ m, max_uses c = Some m → current_uses c < m) → coupon_step True d d'.
Proof.
  rewrite redeem_writes. intros [= _ E]. intros Hin Hroom [H1 H2 H3].
  assert (coupons d' = set_row (λ c, with_uses (current_uses c + 1) c) (coupon_id c) (coupons d)) as Ec
    by (by rewrite <-E).
  assert (usages d' = insert_row (mk_usage (coupon_id c) org sub now
    (compute_discount_amount (discount_type c) (discount_value c) base)) (usages d)) as Eu
    by (by rewrite <-E).
  clear E.
  assert (∀ y, y ∈ coupons d → has_id (coupon_id c) y = true → y = c) as Huniq.
  { intros y Hy Hk. apply bool_decide_eq_true in Hk.
    pose proof (by_id_unique _ _ _ H1 Hy eq_refl) as E1. rewrite Hk in E1.
    pose proof (by_id_unique _ _ _ H1 Hin eq_refl) as E2.
    change (by_id (coupon_id c) (coupons d) = Some c) in E2. congruence. }
  split.
  - split.
    + rewrite Ec. by apply keyed_set_row.
    + intros r Hr. rewrite Eu in Hr. rewrite Ec, by_id_set_row by done.
      assert (is_Some (by_id (used_coupon r) (coupons d))) as [y Hy].
      { unfold insert_row in Hr. apply elem_of_app in Hr as [Hr|Hr]; [by apply H2|].
        apply list_elem_of_singleton in Hr as ->. cbn. exists c. by apply by_id_unique. }
      destruct (decide _) as [E|]; [rewrite E|]; rewrite Hy; by eexists.
    + intros y Hy. rewrite Ec in Hy. apply elem_of_update in Hy as (y0 & Hy0 & ->).
      rewrite (uses_of_insert _ _ d) by exact Eu. cbn [used_coupon].
      destruct (has_id (coupon_id c) y0) eqn:Ek.
      * apply (Huniq _ Hy0) in Ek as ->. cbn. rewrite bool_decide_true by done. by rewrite H3.
      * apply bool_decide_eq_false in Ek. rewrite bool_decide_false by (intros E; by apply Ek).
        rewrite H3 by done. lia.
  - intros _ Hcapped y m Hy Hm. rewrite Ec in Hy. apply elem_of_update in Hy as (y0 & Hy0 & ->).
    destruct (has_id (coupon_id c) y0) eqn:Ek; [|by apply Hcapped].
    apply (Huniq _ Hy0) in Ek as ->. cbn in *. specialize (Hroom m Hm). lia.
Qed.

Lemma apply_coupon_step now raw org sub plan base d n d' :
  apply_coupon now raw org sub plan base d = (Ok n, d') → coupon_step True d d'.
Proof.
  unfold apply_coupon. intros H. apply bind_Ok in H as (c & d1 & Hv & H).
  apply validate_coupon_Ok in Hv as (-> & Hc & Hr). apply redeem_coupon_step in H; [done| |].
  - by eapply coupon_by_code_Some.
  - intros m. by eapply refusal_None_below.
Qed.

Lemma create_subscription_step now id license org plan raw d x d' :
  create_subscription trial_period_days now id license org plan raw d = (Ok x, d') →
  coupon_step True d d'.
Proof.
  unfold create_subscription. intros H.
  apply bind_Ok in H as (ex & e1 & Hg & H). ok_inv Hg.
  apply bind_Ok in H as ([] & e2 & Hr & H). ok_inv Hr.
  apply bind_Ok in H as (p & e3 & Hp & H). apply get_active_plan_Ok in Hp as (-> & Hp & _).
  apply bind_Ok in H as (cp & e4 & Hc & H).
  assert (e4 = e2) as ->.
  { destruct raw; [|by ok_inv Hc]. apply bind_Ok in Hc as (c & e & Hv & Hc).
    apply validate_coupon_Ok in Hv as [-> _]. by ok_inv Hc. }
  apply bind_Ok in H as (l & e5 & Ha & H).
  assert (same_coupons e2 e5) as S1.
  { pose proof (handler_same_coupons (AssignLicense now license org (plan_id p) None) eq_refl e2) as S.
    cbn [handler] in S. unfold discard in S. by rewrite (bind_step _ _ _ _ _ Ha) in S. }
  apply bind_Ok in H as (l2 & e6 & Ha2 & H).
  assert (same_coupons e5 e6) as S2.
  { pose proof (handler_same_coupons (ActivateLicense now (license_id l) None) eq_refl e5) as S.
    cbn [handler] in S. unfold discard in S. by rewrite (bind_step _ _ _ _ _ Ha2) in S. }
  apply bind_Ok in H as (pe & e7 & Ho & H).
  assert (e7 = e6) as -> by (by ok_inv Ho).
  apply bind_Ok in H as (fr & e8 & Hg & H). ok_inv Hg.
  apply bind_Ok in H as ([] & e9 & Hr & H). ok_inv Hr.
  apply bind_Ok in H as ([] & e10 & Hm & H). ok_inv Hm.
  apply bind_Ok in H as (n & e11 & Hap & H). ok_inv H.
  etrans; [by apply same_coupons_step|]. etrans; [by apply same_coupons_step|].
  destruct cp as [c|]; [|ok_inv Hap; by apply same_coupons_step].
  apply apply_coupon_step in Hap. etrans; [|exact Hap]. by apply same_coupons_step.
Qed.

Lemma handler_coupon_step c d d' : handler c d = (Ok tt, d') → coupon_step (keeps_caps c) d d'.
Proof.
  intros H. destruct (about_coupons c) eqn:E.
  - destruct c; try discriminate E; cbn [handler keeps_caps] in *;
      apply bind_Ok in H as (a & d1 & H & Hret); ok_inv Hret.
    + by apply create_coupon_step in H.
    + apply update_coupon_Ok in H as (_ & _ & Ec & Eu).
      eapply rewrite_coupon; [exact Ec|exact Eu|done|]. intros Hcap y. cbn. by rewrite Hcap.
    + unfold deactivate_coupon, get_coupon in H. ok_inv H.
      by eapply (rewrite_coupon _ _ _ k with_withdrawn).
    + by eapply create_subscription_step.
  - apply same_coupons_step. pose proof (handler_same_coupons c E d) as S. by rewrite H in S.
Qed.

(** C24: a coupon's counter of uses is the number of its recorded uses over
    any history of requests, and stays within the coupon's cap as long as no
    cap is edited; the handlers run one at a time. *)
Theorem coupon_uses_are_counted_and_capped cs d :
  coupons_ok d →
  coupons_ok (requests cs d)
  ∧ (capped d → Forall keeps_caps cs → capped (requests cs d)).
Proof.
  intros Hd. split.
  - refine (transactions_induct handler (λ d d', coupons_ok d → coupons_ok d') (λ _, True) cs d _ _ Hd).
    + split; [by intros e|]. intros d1 d2 d3 H12 H23 H1. auto.
    + intros c e e' _ H He. by apply handler_coupon_step in H; apply H.
    + by apply Forall_forall.
  - intros Hcap Hcs.
    refine (proj2 (transactions_induct handler (coupon_step True) keeps_caps cs d _ Hcs Hd) I Hcap).
    intros c e e' Hc H. apply handler_coupon_step in H. intros He. destruct (H He) as [He' Hc'].
    split; [done|]. intros _. by apply Hc'.
Qed.

(** Two requests that both validated a coupon's last use before either
    redeemed it both redeem it: the re-validation in [apply_coupon] reads the
    counter without a lock, so the coupon ends one above its cap. *)
Theorem last_use_can_be_taken_twice now1 now2 raw org1 org2 sub1 sub2 plan base d c d1 d2 :
  coupons_ok d → max_uses c = Some (current_uses c + 1) →
  validate_coupon now1 raw org1 plan d = (Ok c, d1) →
  validate_coupon now2 raw org2 plan d = (Ok c, d2) →
  ∃ n d' c', (_ ← redeem_coupon now1 org1 sub1 base c; redeem_coupon now2 org2 sub2 base c) d
      = (Ok n, d')
    ∧ by_id (coupon_id c) (coupons d') = Some c'
    ∧ max_uses c' = Some (current_uses c + 1) ∧ current_uses c' = current_uses c + 2.
Proof.
  intros Hd Hm H1 _. apply validate_coupon_Ok in H1 as (_ & Hc & _).
  apply coupon_by_code_Some in Hc.
  pose proof (by_id_unique _ _ _ (keyed_coupons _ Hd) Hc eq_refl) as Hk.
  change (row_id c) with (coupon_id c) in Hk.
  do 3 eexists. split; [|split; [|split]].
  - rewrite (bind_step _ _ _ _ _ (redeem_writes _ _ _ _ _ _)). apply redeem_writes.
  - match goal with |- _ = ?r => change (by_id (coupon_id c) (set_row (λ c, with_uses (current_uses c + 1) c) (coupon_id c)
      (set_row (λ c, with_uses (current_uses c + 1) c) (coupon_id c) (coupons d))) = r) end.
    rewrite !by_id_set_row by done. rewrite !decide_True by done. by rewrite Hk.
  - done.
  - cbn. lia.
Qed.
End requests.

Module examples.
#[local] Existing Instance ascii_only.
Import Renewal.examples.

(** A cancelled license that neither an activation nor a sweep revives. *)
Definition before : list command := [CancelLicense (days 40) 12 (Some 2%positive)].
Definition after : list command :=
  [ActivateLicense (days 41) 12 (Some 2%positive); Sweep declines (days 50)].

Lemma life_cycles_are_respected_witness :
  ∃ l, by_id 12%positive (licenses (requests week 14 after (requests week 14 before d0))) = Some l
  ∧ license_status l = LICENSE_CANCELLED.
Proof.
  destruct (life_cycles_are_respected week 14 before d0 consistent_shop) as (C & _ & _).
  { by repeat constructor; intros []. }
  destruct (life_cycles_are_respected week 14 after _ C) as (_ & _ & H).
  { by repeat constructor; intros []. }
  apply (H 12%positive (mk_license 12 2 31 LICENSE_CANCELLED None (Some 0) None (Some (days 40)))).
  - by vm_compute.
  - right. left.
Defined.

(** Ten percent off, for one organization's first subscription only. *)
Definition launch : Coupon :=
  mk_coupon 41 (u "LAUNCH10") PERCENTAGE 1000 None None (Some 1) 0 0 None true false.
Definition shop4 : Organization := mk_organization 4 false (u "four@shop.example") None.
Definition shop5 : Organization := mk_organization 5 false (u "five@shop.example") None.
Definition d2 : database :=
  Database [shop4; shop5] [monthly] [] [] [] [launch] [] [] [] [] [] [] [] [] [].

Lemma coupons_ok_d2 : coupons_ok d2.
Proof.
  split.
  - repeat constructor; set_solver.
  - intros r Hr. by apply not_elem_of_nil in Hr.
  - intros c Hc. apply list_elem_of_singleton in Hc as ->. done.
Qed.

Lemma coupon_uses_are_counted_and_capped_witness :
  let cs := [CreateSubscription 0 71 61 4 30 (Some (u "launch10 "));
             CreateSubscription 1 72 62 5 30 (Some (u "LAUNCH10"))] in
  capped (requests week 14 cs d2) ∧ length (usages (requests week 14 cs d2)) = 1%nat.
Proof.
  intros cs. destruct (coupon_uses_are_counted_and_capped week 14 cs d2 coupons_ok_d2) as [_ H].
  split; [|by vm_compute]. apply H.
  - intros c n Hc Hn. apply list_elem_of_singleton in Hc as ->. by injection Hn as <-.
  - by repeat constructor.
Defined.

Lemma last_use_can_be_taken_twice_witness :
  ∃ n d', (_ ← redeem_coupon 1 4 (Some 71%positive) 99900 launch; redeem_coupon 2 5 (Some 72%positive) 99900 launch) d2
      = (Ok n, d') ∧ ∃ c', by_id 41 (coupons d') = Some c' ∧ current_uses c' = 2.
Proof.
  destruct (last_use_can_be_taken_twice 1 2 (u "LAUNCH10") 4 5 (Some 71%positive) (Some 72%positive) 30 99900 d2 launch
    d2 d2 coupons_ok_d2 eq_refl) as (n & d' & c' & R & H1 & _ & H2); [by vm_compute..|].
  exists n, d'. split; [exact R|]. by exists c'.
Defined.
End examples.
End BillingRequests.
