(* ===== verification/Invoice.v ===== *)
(** Invoices, their numbers, and credit and debit notes.

    Models [InvoiceService], [TaxRateService] and [BillingProfileService] of
    [src/backend/app/domains/billing/service.py], [number_generator.py] and
    the repository calls they make, over the tables of [Billing.v].  Decimals
    of a request have any number of digits and are rationals; columns are in
    hundredths, rounded half up when a row is stored.  The text of a line and
    of a note is not kept. *)

From Stdlib Require Import QArith.
From S2P Require Import Prelude Table Session PyStr Digits Billing Renewal.
#[local] Open Scope Z_scope.

Module Invoice.
Import Digits Billing Renewal.

(** A [Numeric(12, 2)] column stores the nearest hundredth, half away from
    zero. *)
Definition column (x : Q) : Z := to_integral_half_up (x * 100)%Q.

(** ** [constants.py] *)
Definition INVOICE_NUMBER_PREFIX : pystr := u "INV".
Definition CREDIT_NOTE_NUMBER_PREFIX : pystr := u "CN".
Definition DEBIT_NOTE_NUMBER_PREFIX : pystr := u "DN".
Definition NUMBER_SEQUENCE_DIGITS : nat := 5.
(** The largest value of an [Integer] column. *)
Definition INT4_MAX : Z := 2147483647.

Definition with_invoice_status (s : InvoiceStatus) (pay : option uuid) (i : Invoice) : Invoice :=
  mk_invoice (invoice_id i) (invoice_org i) (invoice_subscription i) pay (invoice_number i) s
    (issue_date i) (due_date i) (subtotal i) (discount_amount i) (breakdown i)
    (tax_rate_percentage i) (total_amount i) (invoice_currency i) (billing_snapshot i).

Section service.
Context {PU : PyUnicode}.
(** [Settings.platform_gst_state], [platform_gst_country], [invoice_due_days]. *)
Variable platform : region.
Variable invoice_due_days : Z.

(** ** [number_generator.py] *)
Definition counter_key_of (prefix : pystr) (year : Z) : pystr := lower prefix ++ u ":" ++ dec year.
Definition format_number (prefix : pystr) (year sequence : Z) : pystr :=
  prefix ++ u "-" ++ dec year ++ u "-" ++ zero_pad NUMBER_SEQUENCE_DIGITS (dec sequence).

Definition counts (key : pystr) (c : InvoiceNumberCounter) : bool :=
  bool_decide (counter_key c = key).
Definition counted (c : InvoiceNumberCounter) : InvoiceNumberCounter :=
  mk_counter (counter_key c) (last_value c + 1).
(** One [INSERT ... ON CONFLICT (counter_key) DO UPDATE ... RETURNING]. *)
Definition increment_and_get_next (key : pystr) : op Z :=
  row ← gets (λ d, select_one (counts key) (counters d));
  match row with
  | None => _ ← modify (set_counters (insert_row (mk_counter key 1))); mret 1
  | Some c =>
      _ ← raise_if (INT4_MAX <=? last_value c) DataError;
      _ ← modify (set_counters (update (counts key) counted));
      mret (last_value c + 1)
  end.
Definition generate_number (prefix : pystr) (now : datetime) : op pystr :=
  let y := year (date_of now) in
  sequence ← increment_and_get_next (counter_key_of prefix y);
  mret (format_number prefix y sequence).
Definition generate_invoice_number := generate_number INVOICE_NUMBER_PREFIX.
Definition generate_credit_note_number := generate_number CREDIT_NOTE_NUMBER_PREFIX.
Definition generate_debit_note_number := generate_number DEBIT_NOTE_NUMBER_PREFIX.

(** ** [TaxRateService] *)
Definition valid_rate (r : Q) : bool := Qle_bool 0 r && Qle_bool r 100.
Definition create_tax_rate (id : uuid) (t : TaxType) (rate : Q) (country : pystr) (active : bool)
    : op TaxRate :=
  _ ← raise_if (negb (valid_rate rate)) InvalidTaxRateError;
  fresh ← gets (λ d, bool_decide (by_id id (tax_rates d) = None));
  _ ← raise_if (negb fresh) DuplicateRecordError;
  let r := mk_tax_rate id t (column rate) (upper country) active in
  _ ← modify (set_tax_rates (insert_row r));
  mret r.

(** The fields a [PATCH] sets. *)
Record tax_rate_change := mk_tax_rate_change {
  set_tax_type : option TaxType; set_rate : option Q; set_country : option pystr;
  set_rate_active : option bool }.
Definition tax_rate_changed (ch : tax_rate_change) (r : TaxRate) : TaxRate :=
  mk_tax_rate (tax_rate_id r) (default (tax_type r) (set_tax_type ch))
    (default (rate_percentage r) (column <$> set_rate ch))
    (default (country_code r) (upper <$> set_country ch))
    (default (tax_rate_active r) (set_rate_active ch)).
Definition update_tax_rate (k : uuid) (ch : tax_rate_change) : op TaxRate :=
  row ← gets (λ d, by_id k (tax_rates d));
  r ← of_option row TaxRateNotFoundError;
  _ ← raise_if (match set_rate ch with Some q => negb (valid_rate q) | None => false end)
        InvalidTaxRateError;
  _ ← modify (set_tax_rates (set_row (tax_rate_changed ch) k));
  mret (tax_rate_changed ch r).

Definition get_active_for_country (c : pystr) (d : database) : option TaxRate :=
  select_one (λ r, bool_decide (country_code r = c) && tax_rate_active r) (tax_rates d).

(** ** [BillingProfileService] *)
Definition profile_of (org : uuid) (d : database) : option BillingProfile :=
  select_one (λ p, bool_decide (profile_org p = org)) (profiles d).
Definition upsert_billing_profile (org : uuid) (address : pystr) (r : region) (exempt : bool)
    : op BillingProfile :=
  let p := mk_profile org address (mk_region (state_name r) (upper (country r))) exempt in
  existing ← gets (profile_of org);
  match existing with
  | None =>
      known ← gets (λ d, bool_decide (is_Some (by_id org (organizations d))));
      _ ← raise_if (negb known) DuplicateRecordError;
      _ ← modify (set_profiles (insert_row p));
      mret p
  | Some _ =>
      _ ← modify (set_profiles (update (λ q, bool_decide (profile_org q = org)) (λ _, p)));
      mret p
  end.

(** ** [InvoiceRepository] *)
Definition owes (s : InvoiceStatus) : bool := bool_decide (s ∈ [ISSUED; OVERDUE]).
Definition withdrawn (s : InvoiceStatus) : bool := bool_decide (s ∈ [VOID; WITHDRAWN]).
Definition of_subscription (k : uuid) (i : Invoice) : bool :=
  bool_decide (invoice_subscription i = Some k).
Definition discounts (k : uuid) (i : Invoice) : bool :=
  of_subscription k i && negb (withdrawn (invoice_status i)) && (0 <? discount_amount i).
Definition has_discounted_invoice (k : uuid) (d : database) : bool :=
  bool_decide (is_Some (select_one (discounts k) (invoices d))).
Definition list_unpaid_for_subscription (k : uuid) (d : database) : list Invoice :=
  select (λ i, of_subscription k i && owes (invoice_status i)) (invoices d).
Definition past_due (now : datetime) (i : Invoice) : bool :=
  bool_decide (invoice_status i = ISSUED) && (due_date i <=? now).
Definition list_issued_past_due (now : datetime) (d : database) : list Invoice :=
  select (past_due now) (invoices d).
(** [create_invoice]: the primary key and the number are unique. *)
Definition create_invoice (i : Invoice) : op Invoice :=
  taken ← gets (λ d, 0 <? rowcount (λ j, has_id (invoice_id i) j
                                 || bool_decide (invoice_number j = invoice_number i)) (invoices d));
  _ ← raise_if taken DuplicateRecordError;
  _ ← modify (set_invoices (insert_row i));
  mret i.
Definition create_invoice_item (x : InvoiceItem) : op unit := modify (set_items (insert_row x)).
Definition update_invoice (k : uuid) (f : Invoice → Invoice) : op unit :=
  modify (set_invoices (set_row f k)).
(** [CouponRepository.get_usage_for_subscription]: the oldest. *)
Definition get_usage_for_subscription (k : uuid) (d : database) : option CouponUsage :=
  least used_at (select (λ r, bool_decide (usage_subscription r = Some k)) (usages d)).

(** ** [InvoiceService] *)
Definition get_invoice (k : uuid) (org : option uuid) : op Invoice :=
  row ← gets (λ d, by_id k (invoices d));
  i ← of_option row InvoiceNotFoundError;
  _ ← raise_if (foreign org (invoice_org i)) InvoiceNotFoundError;
  mret i.
Definition assert_invoice_transition (current target : InvoiceStatus) : op unit :=
  raise_if (negb (bool_decide (target ∈ INVOICE_TRANSITIONS current)))
    InvalidInvoiceStatusTransitionError.

Definition resolve_coupon_discount (x : Subscription) : op Z :=
  match applied_coupon_id x with
  | None => mret 0
  | Some _ =>
      again ← gets (has_discounted_invoice (subscription_id x));
      if (again : bool) then mret 0
      else
        usage ← gets (get_usage_for_subscription (subscription_id x));
        mret (match usage with None => 0 | Some r => discount_amount_applied r end)
  end.

Definition applicable_tax_rate (p : BillingProfile) (d : database) : option TaxRate :=
  if tax_exempt p then None else get_active_for_country (country (billing_region p)) d.
Definition tax_of (taxable : Z) (r : option TaxRate) (p : BillingProfile) : GstBreakdown :=
  compute_tax_breakdown taxable (tax_type <$> r) (default 0 (rate_percentage <$> r)) (tax_exempt p)
    platform (billing_region p).
Definition total_of (taxable : Z) (b : GstBreakdown) : Z :=
  quantize (cents taxable + cents (tax_amount b))%Q.

Definition subscription_invoice (now : datetime) (id : uuid) (x : Subscription) (p : Plan)
    (profile : BillingProfile) (discount : Z) (rate : option TaxRate) (number : pystr) : Invoice :=
  let subtotal := compute_renewal_charge_amount p in
  let taxable := compute_taxable_value subtotal discount in
  let b := tax_of taxable rate profile in
  mk_invoice id (subscription_org x) (Some (subscription_id x)) None number ISSUED
    now (now + days invoice_due_days) subtotal discount b (default 0 (rate_percentage <$> rate))
    (total_of taxable b) (currency p) profile.
Definition generate_invoice_for_subscription (now : datetime) (id k : uuid) : op Invoice :=
  row ← gets (λ d, by_id k (subscriptions d));
  x ← of_option row SubscriptionNotFoundError;
  p ← get_plan (subscription_plan x);
  row ← gets (profile_of (subscription_org x));
  profile ← of_option row BillingProfileNotFoundError;
  discount ← resolve_coupon_discount x;
  rate ← gets (applicable_tax_rate profile);
  number ← generate_invoice_number now;
  i ← create_invoice (subscription_invoice now id x p profile discount rate number);
  _ ← create_invoice_item (mk_item id 100 (subtotal i) (subtotal i));
  mret i.

(** A line: quantity and unit price. *)
Definition line := (Q * Q)%type.
Definition line_item (id : uuid) (l : line) : InvoiceItem :=
  mk_item id (column l.1) (column l.2) (quantize (l.1 * l.2)%Q).
Definition subtotal_of (ls : list line) : Z :=
  quantize (foldr (λ l s, l.1 * l.2 + s) 0 ls)%Q.
Definition lines_invoice (now : datetime) (id org : uuid) (profile : BillingProfile)
    (ls : list line) (s : InvoiceStatus) (rate : option TaxRate) (number : pystr) : Invoice :=
  let subtotal := subtotal_of ls in
  let b := tax_of subtotal rate profile in
  mk_invoice id org None None number s now
    (if bool_decide (s = PAID) then now else now + days invoice_due_days) subtotal 0 b
    (default 0 (rate_percentage <$> rate)) (total_of subtotal b) (u "INR") profile.
Definition issue_invoice_from_lines (now : datetime) (id org : uuid) (profile : BillingProfile)
    (ls : list line) (s : InvoiceStatus) : op Invoice :=
  rate ← gets (applicable_tax_rate profile);
  number ← generate_invoice_number now;
  i ← create_invoice (lines_invoice now id org profile ls s rate number);
  _ ← each (λ l, create_invoice_item (line_item id l)) ls;
  mret i.

Definition create_manual_invoice (now : datetime) (id org : uuid) (ls : list line) : op Invoice :=
  row ← gets (profile_of org);
  profile ← of_option row BillingProfileNotFoundError;
  issue_invoice_from_lines now id org profile ls ISSUED.
Definition generate_invoice_for_credit_topup (now : datetime) (id org : uuid) (paid_minor : Z)
    : op Invoice :=
  row ← gets (profile_of org);
  profile ← of_option row BillingProfileMissingError;
  issue_invoice_from_lines now id org profile [(1, cents (quantize (cents paid_minor)))%Q] PAID.

Definition mark_invoice_paid (k pay : uuid) : op Invoice :=
  i ← get_invoice k None;
  _ ← assert_invoice_transition (invoice_status i) PAID;
  _ ← update_invoice (invoice_id i) (with_invoice_status PAID (Some pay));
  mret (with_invoice_status PAID (Some pay) i).
(** The latest unpaid invoice of the payment's subscription. *)
Definition mark_invoice_paid_for_payment (subscription : option uuid) (pay : uuid)
    : op (option Invoice) :=
  match subscription with
  | None => mret None
  | Some k =>
      candidates ← gets (list_unpaid_for_subscription k);
      match least (λ i, - issue_date i) candidates with
      | None => mret None
      | Some i => i ← mark_invoice_paid (invoice_id i) pay; mret (Some i)
      end
  end.

Definition void_invoice (k : uuid) (org : option uuid) : op Invoice :=
  i ← get_invoice k org;
  target ← match invoice_status i with
           | DRAFT => mret WITHDRAWN
           | ISSUED | OVERDUE => mret VOID
           | _ => raise InvalidInvoiceStatusTransitionError
           end;
  _ ← assert_invoice_transition (invoice_status i) target;
  _ ← update_invoice (invoice_id i) (λ i, with_invoice_status target (payment_id i) i);
  mret (with_invoice_status target (payment_id i) i).

Definition mark_overdue_invoices (now : datetime) : op unit :=
  due ← gets (list_issued_past_due now);
  each (λ i, _ ← guarded (update_invoice (invoice_id i)
                            (λ i, with_invoice_status OVERDUE (payment_id i) i)); mret tt) due.

Definition sent (s : InvoiceStatus) : bool := bool_decide (s ∈ [ISSUED; OVERDUE; PAID]).
(** [note_number] is unique. *)
Definition create_note (n : CreditDebitNote) : op unit :=
  taken ← gets (λ d, 0 <? rowcount (λ m, bool_decide (note_number m = note_number n)) (notes d));
  _ ← raise_if taken DuplicateRecordError;
  modify (set_notes (insert_row n)).
Definition issue_credit_note (now : datetime) (k : uuid) (org : option uuid) (amount : Q)
    : op CreditDebitNote :=
  i ← get_invoice k org;
  _ ← raise_if (negb (sent (invoice_status i))) InvalidInvoiceStatusTransitionError;
  _ ← raise_if (Qle_bool amount 0) InvalidNoteAmountError;
  _ ← raise_if (negb (Qle_bool amount (cents (total_amount i)))) InvalidNoteAmountError;
  number ← generate_credit_note_number now;
  let n := mk_note (invoice_id i) CREDIT number (column amount) now in
  _ ← create_note n;
  mret n.
Definition issue_debit_note (now : datetime) (k : uuid) (org : option uuid) (amount : Q)
    : op CreditDebitNote :=
  i ← get_invoice k org;
  _ ← raise_if (negb (sent (invoice_status i))) InvalidInvoiceStatusTransitionError;
  _ ← raise_if (Qle_bool amount 0) InvalidNoteAmountError;
  number ← generate_debit_note_number now;
  let n := mk_note (invoice_id i) DEBIT number (column amount) now in
  _ ← create_note n;
  mret n.
End service.

(** ** Document numbers *)
Section numbers.
Context {PU : PyUnicode}.

Definition PREFIXES : list pystr :=
  [INVOICE_NUMBER_PREFIX; CREDIT_NOTE_NUMBER_PREFIX; DEBIT_NOTE_NUMBER_PREFIX].

Lemma no_dash n : 0 ≤ n → 45%N ∉ dec n.
Proof. intros Hn H%dec_digits; lia. Qed.

(** A number determines its year and its place in the year. *)
Lemma format_number_inj prefix y s y' s' : 0 ≤ y → 0 ≤ y' → 0 ≤ s → 0 ≤ s' →
  format_number prefix y s = format_number prefix y' s' → y = y' ∧ s = s'.
Proof.
  intros Hy Hy' Hs Hs' H. unfold format_number in H. apply (inj (app prefix)) in H.
  apply (inj (app (u "-"))) in H.
  apply split_once in H as [E1 E2]; [|by apply no_dash..].
  apply (f_equal read_dec) in E1, E2. rewrite !read_zero_pad in E2.
  rewrite !read_dec_dec in E1, E2 by done. done.
Qed.

(** Each kind of document has counters of its own, one a year. *)
Lemma counter_key_inj p y p' y' : p ∈ PREFIXES → p' ∈ PREFIXES → 0 ≤ y → 0 ≤ y' →
  counter_key_of p y = counter_key_of p' y' → p = p' ∧ y = y'.
Proof.
  intros Hp Hp' Hy Hy'. unfold counter_key_of, PREFIXES in *.
  rewrite !elem_of_cons, elem_of_nil in Hp, Hp'.
  assert (lower INVOICE_NUMBER_PREFIX = [105; 110; 118]%N) as Ei by (by rewrite lower_ascii).
  assert (lower CREDIT_NOTE_NUMBER_PREFIX = [99; 110]%N) as Ec by (by rewrite lower_ascii).
  assert (lower DEBIT_NOTE_NUMBER_PREFIX = [100; 110]%N) as Ed by (by rewrite lower_ascii).
  change (u ":") with [58%N].
  destruct Hp as [-> |[-> |[-> |[]]]], Hp' as [-> |[-> |[-> |[]]]]; rewrite ?Ei, ?Ec, ?Ed;
    cbn [app]; intros H; try discriminate H; (split; [done|]);
    repeat apply (inj (cons _)) in H; apply (f_equal read_dec) in H; by rewrite !read_dec_dec in H.
Qed.

(** How many documents a counter has numbered. *)
Definition last_of (key : pystr) (d : database) : Z :=
  match select_one (counts key) (counters d) with Some c => last_value c | None => 0 end.

Lemma increment_Ok key d n d' : increment_and_get_next key d = (Ok n, d') →
  ∃ f, d' = set_counters f d ∧ n = last_of key d + 1 ∧ last_of key d' = n
    ∧ ∀ key', key' ≠ key → last_of key' d' = last_of key' d.
Proof.
  unfold increment_and_get_next. intros H. erewrite bind_step in H by (unfold gets; reflexivity).
  destruct (select_one (counts key) (counters d)) as [c|] eqn:E.
  - rewrite raise_if_bind in H. destruct (INT4_MAX <=? last_value c); [discriminate H|].
    injection H as <- <-. exists (update (counts key) counted). split; [done|].
    split; [unfold last_of; by rewrite E|].
    assert (∀ key', select_one (counts key') (update (counts key) counted (counters d))
      = (λ c, if counts key c then counted c else c) <$> select_one (counts key') (counters d)) as Hs.
    { intros key'. by apply select_one_update. }
    unfold last_of. cbn. split.
    + rewrite Hs, E. cbn. apply select_one_Some in E as [_ ->]. done.
    + intros key' Hne. rewrite Hs. destruct (select_one (counts key') _) as [c'|] eqn:E'; [|done]. cbn.
      apply select_one_Some in E' as [_ E']. unfold counts in *. bools.
      rewrite bool_decide_false by congruence. done.
  - injection H as <- <-. exists (insert_row (mk_counter key 1)). split; [done|].
    unfold last_of. cbn. rewrite E. split; [done|]. split.
    + rewrite select_one_insert; [done| |by apply bool_decide_eq_true].
      by apply select_one_None.
    + intros key' Hne. rewrite select_one_insert_other; [done|].
      apply bool_decide_eq_false. cbn. congruence.
Qed.

(** A number changes counters only. *)
Lemma generate_Ok prefix now d n d' : generate_number prefix now d = (Ok n, d') →
  ∃ f, d' = set_counters f d
    ∧ (Forall (λ c, 0 ≤ last_value c) (counters d) → Forall (λ c, 0 ≤ last_value c) (counters d')).
Proof.
  unfold generate_number. intros H. apply bind_Ok in H as (k & d1 & Hi & H). injection H as _ <-.
  unfold increment_and_get_next in Hi. erewrite bind_step in Hi by (unfold gets; reflexivity).
  destruct (select_one _ _) as [c|].
  - rewrite raise_if_bind in Hi. destruct (INT4_MAX <=? last_value c); [discriminate Hi|].
    injection Hi as _ <-. eexists. split; [done|]. intros Hpos. apply Forall_update; [done|].
    intros r Hr _. cbn. lia.
  - injection Hi as _ <-. eexists. split; [done|]. intros Hpos. cbn. unfold insert_row.
    apply Forall_app. split; [done|]. repeat constructor. cbn. lia.
Qed.

(** Documents of one kind: the numbers of a year, in the order of issue, are
    the first ones of its sequence, and the counter is at the last. *)
Section kind.
Context {R : Type} (number_of : R → pystr) (at_of : R → datetime) (prefix : pystr).

Definition year_of (r : R) : Z := year (date_of (at_of r)).
Definition numbers_of (y : Z) (t : list R) : list pystr :=
  map number_of (select (λ r, year_of r =? y) t).
Definition numbered (t : list R) (d : database) : Prop :=
  (∀ r, r ∈ t → 0 ≤ year_of r)
  ∧ ∀ y, 0 ≤ y → numbers_of y t = map (format_number prefix y) (seqZ 1 (last_of (counter_key_of prefix y) d)).

Lemma numbered_frame t d d' : counters d' = counters d → numbered t d → numbered t d'.
Proof. intros E [H1 H2]. split; [done|]. intros y Hy. unfold last_of. rewrite E. by apply H2. Qed.

Lemma numbered_NoDup t d : numbered t d → NoDup (map number_of t).
Proof.
  intros [Hy Hn].
  assert (∀ r, r ∈ t → ∃ s, 0 ≤ s ∧ number_of r = format_number prefix (year_of r) s) as Hform.
  { intros r Hr. assert (number_of r ∈ numbers_of (year_of r) t) as H.
    { apply list_elem_of_In, in_map, list_elem_of_In, elem_of_select. split; [done|]. apply Z.eqb_refl. }
    rewrite Hn in H by auto. apply list_elem_of_In, in_map_iff in H as (s & <- & Hs).
    apply list_elem_of_In, elem_of_seqZ in Hs. exists s. split; [lia|done]. }
  assert (∀ y, 0 ≤ y → NoDup (numbers_of y t)) as Hnd.
  { intros y Hy0. rewrite Hn by done. apply NoDup_fmap_2_strong; [|apply NoDup_seqZ].
    intros a b Ha%elem_of_seqZ Hb%elem_of_seqZ Hab. apply format_number_inj in Hab; lia. }
  clear Hn. induction t as [|r t IH]; [constructor|]. cbn [map]. constructor.
  - intros H. apply list_elem_of_In, in_map_iff in H as (r' & E & Hr').
    apply list_elem_of_In in Hr'.
    destruct (Hform r ltac:(left)) as (s & Hs & E1).
    destruct (Hform r' ltac:(by right)) as (s' & Hs' & E2). rewrite E1, E2 in E.
    apply format_number_inj in E as [Ey Es]; [|try by apply Hy; (left || right)..|done|done].
    specialize (Hnd (year_of r) ltac:(apply Hy; left)). unfold numbers_of, select in Hnd.
    cbn [List.filter] in Hnd. rewrite Z.eqb_refl in Hnd. cbn [map] in Hnd.
    apply NoDup_cons in Hnd as [Hnin _]. apply Hnin. rewrite E1, <-Ey, <-Es, <-E2.
    apply list_elem_of_In, in_map, list_elem_of_In, elem_of_select.
    split; [done|]. rewrite Ey. apply Z.eqb_refl.
  - apply IH.
    + intros x Hx. apply Hy. by right.
    + intros x Hx. apply Hform. by right.
    + intros y Hy0. specialize (Hnd y Hy0). unfold numbers_of, select in *. cbn [List.filter] in Hnd.
      destruct (year_of r =? y); [|done]. cbn [map] in Hnd. by apply NoDup_cons in Hnd as [_ Hnd].
Qed.

Lemma numbered_update p f t d : (∀ r, number_of (f r) = number_of r ∧ at_of (f r) = at_of r) →
  numbered t d → numbered (update p f t) d.
Proof.
  intros Hf [H1 H2]. split.
  - intros r Hr. apply elem_of_update in Hr as (r0 & Hr0 & ->). specialize (H1 r0 Hr0).
    unfold year_of in *. destruct (p r0); [|done]. by rewrite (proj2 (Hf r0)).
  - intros y Hy. rewrite <-H2 by done. unfold numbers_of, update, select, year_of. clear -Hf.
    induction t as [|r t IH]; [done|]. destruct (Hf r) as [E1 E2]. cbn [map List.filter].
    destruct (p r); rewrite ?E2; destruct (_ =? y); cbn [map]; rewrite IH, ?E1; done.
Qed.

(** A document with the next number joins its kind. *)
Lemma numbered_issue now d n d' t r : prefix ∈ PREFIXES → 0 ≤ year (date_of now) →
  Forall (λ c, 0 ≤ last_value c) (counters d) →
  generate_number prefix now d = (Ok n, d') → numbered t d →
  number_of r = n → at_of r = now → numbered (insert_row r t) d'.
Proof.
  intros Hp Hy Hpos H [H1 H2] En Ea. unfold generate_number in H.
  apply bind_Ok in H as (k & d1 & Hi & H). injection H as <- <-.
  apply increment_Ok in Hi as (f & _ & Hk & Hl & Hother).
  split.
  - intros x Hx. unfold insert_row in Hx. apply elem_of_app in Hx as [Hx|Hx]; [by apply H1|].
    apply list_elem_of_singleton in Hx as ->. unfold year_of. by rewrite Ea.
  - intros y' Hy'. unfold numbers_of, insert_row. rewrite select_app, map_app.
    fold (numbers_of y' t). rewrite H2 by done. unfold select. cbn [List.filter].
    unfold year_of. rewrite Ea. destruct (Z.eqb_spec (year (date_of now)) y') as [<-|Hne].
    + rewrite Hl, Hk. rewrite seqZ_app; [|unfold last_of|lia].
      * rewrite map_app. f_equal. cbn [map]. rewrite En, Hk, (Z.add_comm 1). done.
      * destruct (select_one _ _) as [c|] eqn:E; [|done]. apply select_one_Some in E as [Hin _].
        rewrite Forall_forall in Hpos. by apply Hpos.
    + rewrite app_nil_r. rewrite Hother; [done|]. intros E.
      apply counter_key_inj in E as [_ E]; [by subst|done..].
Qed.
(** Numbers of another kind take nothing from it. *)
Lemma numbered_other now d n d' t p : prefix ∈ PREFIXES → p ∈ PREFIXES → p ≠ prefix →
  0 ≤ year (date_of now) → generate_number p now d = (Ok n, d') → numbered t d → numbered t d'.
Proof.
  intros Hp Hp' Hne Hy H [H1 H2]. unfold generate_number in H.
  apply bind_Ok in H as (k & d1 & Hi & H). injection H as <- <-.
  apply increment_Ok in Hi as (f & _ & _ & _ & Hother).
  split; [done|]. intros y Hy'. rewrite H2, Hother; [done| |done]. intros E.
  by apply counter_key_inj in E as [E _].
Qed.
End kind.
End numbers.
End Invoice.
