(* ===== verification/InvoiceRequests.v ===== *)
(** The books over the life of many requests.

    The operations of [Invoice.v] as the transactions of requests and of the
    overdue sweep, in any order with the ones of [BillingRequests.v]: the
    numbers given to documents, what an invoice says once it is issued, and
    how often a coupon is granted. *)

From Stdlib Require Import QArith Qabs Lqa.
From S2P Require Import Prelude Table Session PyStr Digits Billing Renewal BillingRequests Invoice.
#[local] Open Scope Z_scope.

Module InvoiceRequests.
Import Digits Billing Renewal Invoice.

Section requests.
Context {PU : PyUnicode}.
Variable cfg : config.
Variable trial_period_days : Z.
Variable platform : region.
Variable invoice_due_days : Z.

Inductive entry :=
| CreateTaxRate (id : uuid) (t : TaxType) (rate : Q) (country : pystr) (active : bool)
| UpdateTaxRate (k : uuid) (ch : tax_rate_change)
| UpsertBillingProfile (org : uuid) (address : pystr) (r : region) (exempt : bool)
| GenerateInvoice (now : datetime) (id k : uuid)
| ManualInvoice (now : datetime) (id org : uuid) (ls : list line)
| TopupInvoice (now : datetime) (id org : uuid) (paid_minor : Z)
| MarkInvoicePaid (k pay : uuid)
| PaymentCaptured (subscription : option uuid) (pay : uuid)
| VoidInvoice (k : uuid) (org : option uuid)
| OverdueSweep (now : datetime)
| CreditNote (now : datetime) (k : uuid) (org : option uuid) (amount : Q)
| DebitNote (now : datetime) (k : uuid) (org : option uuid) (amount : Q)
| Other (c : BillingRequests.command).

Definition post (e : entry) : op unit :=
  match e with
  | CreateTaxRate id t rate country active =>
      BillingRequests.discard (create_tax_rate id t rate country active)
  | UpdateTaxRate k ch => BillingRequests.discard (update_tax_rate k ch)
  | UpsertBillingProfile org address r exempt =>
      BillingRequests.discard (upsert_billing_profile org address r exempt)
  | GenerateInvoice now id k => BillingRequests.discard
      (generate_invoice_for_subscription platform invoice_due_days now id k)
  | ManualInvoice now id org ls => BillingRequests.discard
      (create_manual_invoice platform invoice_due_days now id org ls)
  | TopupInvoice now id org paid => BillingRequests.discard
      (generate_invoice_for_credit_topup platform invoice_due_days now id org paid)
  | MarkInvoicePaid k pay => BillingRequests.discard (mark_invoice_paid k pay)
  | PaymentCaptured sub pay => BillingRequests.discard (mark_invoice_paid_for_payment sub pay)
  | VoidInvoice k org => BillingRequests.discard (void_invoice k org)
  | OverdueSweep now => mark_overdue_invoices now
  | CreditNote now k org amount => BillingRequests.discard (issue_credit_note now k org amount)
  | DebitNote now k org amount => BillingRequests.discard (issue_debit_note now k org amount)
  | Other c => BillingRequests.handler cfg trial_period_days c
  end.
Definition posted : list entry → database → database := transactions post.

(** The clock of a request that dates a document, and what the schemas
    enforce of amounts. *)
Definition admissible (e : entry) : Prop :=
  match e with
  | ManualInvoice now _ _ ls => in_python now ∧ Forall (λ l : line, (0 <= l.1)%Q ∧ (0 <= l.2)%Q) ls
  | TopupInvoice now _ _ paid => in_python now ∧ 0 ≤ paid
  | GenerateInvoice now _ _ | CreditNote now _ _ _ | DebitNote now _ _ _ => in_python now
  | _ => True
  end.

(** ** The books *)
#[local] Instance note_type_eq_dec : EqDecision NoteType.
Proof. solve_decision. Defined.
Definition of_type (t : NoteType) (n : CreditDebitNote) : bool := bool_decide (note_type n = t).
Definition lines_of (k : uuid) (d : database) : list InvoiceItem :=
  select (λ x, bool_decide (item_invoice x = k)) (items d).
Definition sum_of (xs : list InvoiceItem) : Z := foldr (λ x s, amount x + s) 0 xs.
(** The lines of an invoice and its subtotal, each rounded by itself. *)
Definition lines_close (s : Z) (xs : list InvoiceItem) : Prop :=
  2 * Z.abs (s - sum_of xs) ≤ Z.of_nat (length xs) + 1.
Definition adds_up (i : Invoice) : Prop :=
  total_amount i = compute_taxable_value (subtotal i) (discount_amount i) + tax_amount (breakdown i).

Record books_ok (d : database) : Prop := {
  keyed_invoices : keyed (invoices d);
  counters_positive : Forall (λ c, 0 ≤ last_value c) (counters d);
  invoices_numbered : numbered invoice_number issue_date INVOICE_NUMBER_PREFIX (invoices d) d;
  credits_numbered :
    numbered note_number issued_at CREDIT_NOTE_NUMBER_PREFIX (select (of_type CREDIT) (notes d)) d;
  debits_numbered :
    numbered note_number issued_at DEBIT_NOTE_NUMBER_PREFIX (select (of_type DEBIT) (notes d)) d;
  granted_once : ∀ k, rowcount (discounts k) (invoices d) ≤ 1;
  granted_redeemed : ∀ i, i ∈ invoices d → 0 < discount_amount i → ∃ r k, r ∈ usages d
    ∧ invoice_subscription i = Some k ∧ usage_subscription r = Some k
    ∧ discount_amount_applied r = discount_amount i;
  invoices_add_up : ∀ i, i ∈ invoices d → adds_up i;
  lines_add_up : ∀ i, i ∈ invoices d → lines_close (subtotal i) (lines_of (invoice_id i) d);
  lines_known : ∀ x, x ∈ items d → is_Some (by_id (item_invoice x) (invoices d));
}.

(** What is never rewritten: everything on an invoice but its status and the
    payment, and these move along the table to an end. *)
Definition terms (i : Invoice) : Invoice := with_invoice_status DRAFT None i.
Definition invoice_step (a b : InvoiceStatus) : Prop := b ∈ INVOICE_TRANSITIONS a.
Definition final (s : InvoiceStatus) : Prop := INVOICE_TRANSITIONS s = [].
Record follows (d d' : database) : Prop := {
  invoices_follow : ∀ k i, by_id k (invoices d) = Some i → ∃ i', by_id k (invoices d') = Some i'
    ∧ terms i' = terms i ∧ rtc invoice_step (invoice_status i) (invoice_status i')
    ∧ (final (invoice_status i) → i' = i)
    ∧ lines_of k d' = lines_of k d;
  notes_follow : ∃ l, notes d' = notes d ++ l;
}.
#[local] Instance follows_preorder : PreOrder follows.
Proof.
  split.
  - intros d. split; [intros k i Hi; by exists i|]. exists []. by rewrite app_nil_r.
  - intros d1 d2 d3 [I1 [l1 N1]] [I2 [l2 N2]]. split.
    + intros k i Hi. destruct (I1 k i Hi) as (i1 & H1 & T1 & R1 & F1 & L1).
      destruct (I2 k i1 H1) as (i2 & H2 & T2 & R2 & F2 & L2). exists i2. split; [done|].
      split; [congruence|]. split; [by etrans|]. split; [|congruence].
      intros Hf. pose proof (F1 Hf) as ->. by apply F2.
    + exists (l1 ++ l2). rewrite N2, N1. by rewrite app_assoc.
Qed.

Definition booked (d d' : database) : Prop := books_ok d → books_ok d' ∧ follows d d'.
#[local] Instance booked_preorder : PreOrder booked.
Proof.
  split; [by intros d|]. intros d1 d2 d3 H12 H23 B1. destruct (H12 B1) as [B2 E12].
  destruct (H23 B2) as [B3 E23]. split; [done|by etrans].
Qed.

(** *** Writes elsewhere *)
Lemma booked_frame d d' : BillingRequests.keeps_documents d d' → booked d d'.
Proof.
  intros [(Ei & Et & En & Ec) U] [H1 H2 H3 H4 H5 H6 H7 H8 H9 H10]. split.
  - split; rewrite ?Ei, ?Et, ?En, ?Ec; try done; try by eapply numbered_frame.
    + intros i Hi Hd. destruct (H7 i Hi Hd) as (r & k & Hr & ?). exists r, k. split; [by apply U|done].
    + intros i Hi. unfold lines_of. rewrite Et. by apply H9.
  - split; [|exists []; by rewrite En, app_nil_r]. intros k i Hi. exists i. unfold lines_of.
    by rewrite Ei, Et.
Qed.

(** *** Status writes *)
Lemma withdrawn_final s : withdrawn s = true → final s.
Proof.
  intros H. unfold withdrawn in H. bools. rewrite !elem_of_cons, elem_of_nil in H.
  by destruct H as [-> |[-> |[]]].
Qed.

Lemma status_move d p f :
  (∀ i, i ∈ invoices d → p i = true → invoice_step (invoice_status i) (invoice_status (f i))) →
  (∀ i, f i = with_invoice_status (invoice_status (f i)) (payment_id (f i)) i) →
  booked d (set_invoices (update p f) d).
Proof.
  intros Hstep Hf [H1 H2 H3 H4 H5 H6 H7 H8 H9 H10].
  assert (∀ i, invoice_id (f i) = invoice_id i) as Hid by (intros i; by rewrite Hf).
  assert (∀ k, by_id k (update p f (invoices d))
    = (λ i, if p i then f i else i) <$> by_id k (invoices d)) as Hby.
  { intros k. apply select_one_update. intros i. unfold has_id.
    change (row_id (f i)) with (invoice_id (f i)). by rewrite Hid. }
  assert (∀ i, i ∈ update p f (invoices d) → ∃ j, j ∈ invoices d ∧ i = (if p j then f j else j)) as Hin.
  { intros i Hi. apply elem_of_update in Hi as (j & Hj & ->). by exists j. }
  split.
  - split; cbn [set_invoices invoices counters notes usages items]; try done.
    + unfold keyed in *. rewrite map_update; [done|]. intros i. apply Hid.
    + apply numbered_update; [|done]. intros i. by rewrite Hf.
    + intros k. etrans; [|apply (H6 k)]. apply rowcount_update_le. intros i Hi Hp Hd.
      unfold discounts, of_subscription in *. rewrite Hf in Hd. cbn in Hd.
      apply andb_true_iff in Hd as [Hd ->]. apply andb_true_iff in Hd as [-> _].
      rewrite andb_true_r. cbn. destruct (withdrawn (invoice_status i)) eqn:E; [|done].
      apply withdrawn_final in E. specialize (Hstep i Hi Hp). unfold invoice_step in Hstep.
      rewrite E in Hstep. by apply not_elem_of_nil in Hstep.
    + intros i (j & Hj & ->)%Hin Hd. assert (0 < discount_amount j) as Hd'.
      { destruct (p j); [|done]. by rewrite Hf in Hd. }
      destruct (H7 j Hj Hd') as (r & k & ? & ? & ? & ?). exists r, k.
      destruct (p j); [|done]. by rewrite Hf.
    + intros i (j & Hj & ->)%Hin. destruct (p j); [|by apply H8]. rewrite Hf. apply (H8 j Hj).
    + intros i (j & Hj & ->)%Hin. unfold lines_of. cbn.
      destruct (p j); [|by apply H9]. rewrite Hf. apply (H9 j Hj).
    + intros x Hx. rewrite Hby. destruct (H10 x Hx) as [i ->]. by eexists.
  - split; [|exists []; cbn; by rewrite app_nil_r].
    intros k i Hi. cbn [set_invoices invoices]. rewrite Hby, Hi. eexists. split; [done|].
    pose proof (by_id_Some _ _ _ Hi) as [Hin' _]. unfold terms, lines_of. cbn.
    destruct (p i) eqn:Hp; [|done]. specialize (Hstep i Hin' Hp).
    split; [by rewrite Hf|]. split; [by apply rtc_once|]. split; [|done].
    intros Hfin. unfold invoice_step in Hstep. rewrite Hfin in Hstep. by apply not_elem_of_nil in Hstep.
Qed.

(** One row, found by its key. *)
Lemma status_write d k i f : by_id k (invoices d) = Some i →
  invoice_step (invoice_status i) (invoice_status (f i)) →
  (∀ i, f i = with_invoice_status (invoice_status (f i)) (payment_id (f i)) i) →
  booked d (set_invoices (set_row f k) d).
Proof.
  intros Hi Hs Hf Hd. apply status_move; [|done|done]. intros j Hj Hk.
  apply bool_decide_eq_true in Hk. pose proof (by_id_unique _ _ _ (keyed_invoices _ Hd) Hj Hk) as Hj'.
  congruence.
Qed.

Lemma get_invoice_Ok k org d i d' : get_invoice k org d = (Ok i, d') →
  d' = d ∧ by_id k (invoices d) = Some i ∧ invoice_id i = k.
Proof.
  unfold get_invoice. intros H. ok_inv H. split; [done|]. split; [done|].
  by apply by_id_Some in Hsome as [_ ?].
Qed.
Lemma assert_invoice_Ok s target d d' : assert_invoice_transition s target d = (Ok tt, d') →
  d' = d ∧ invoice_step s target.
Proof. unfold assert_invoice_transition. intros H. ok_inv H. bools. by split. Qed.

Lemma mark_paid_Ok k pay d i d' : mark_invoice_paid k pay d = (Ok i, d') → booked d d'.
Proof.
  unfold mark_invoice_paid. intros H. apply bind_Ok in H as (j & d1 & Hg & H).
  apply get_invoice_Ok in Hg as (-> & Hj & Hk). apply bind_Ok in H as ([] & d2 & Ha & H).
  apply assert_invoice_Ok in Ha as [-> Ha]. apply bind_Ok in H as ([] & d3 & Hu & H). injection H as <- <-.
  injection Hu as <-. rewrite Hk. by eapply status_write.
Qed.
Lemma paid_for_payment_Ok sub pay d i d' : mark_invoice_paid_for_payment sub pay d = (Ok i, d') →
  booked d d'.
Proof.
  unfold mark_invoice_paid_for_payment. destruct sub as [k|]; [|intros H; by ok_inv H].
  intros H. erewrite bind_step in H by (unfold gets; reflexivity).
  destruct (least _ _) as [j|]; [|by ok_inv H]. apply bind_Ok in H as (j' & d1 & H & Hr). ok_inv Hr.
  by apply mark_paid_Ok in H.
Qed.
Lemma void_Ok k org d i d' : void_invoice k org d = (Ok i, d') → booked d d'.
Proof.
  unfold void_invoice. intros H. apply bind_Ok in H as (j & d1 & Hg & H).
  apply get_invoice_Ok in Hg as (-> & Hj & Hk). apply bind_Ok in H as (target & d2 & Ht & H).
  assert (d2 = d) as -> by (destruct (invoice_status j); by ok_inv Ht).
  apply bind_Ok in H as ([] & d3 & Ha & H). apply assert_invoice_Ok in Ha as [-> Ha].
  apply bind_Ok in H as ([] & d4 & Hu & H). injection H as <- <-. injection Hu as <-. rewrite Hk.
  by eapply status_write.
Qed.

(** The sweep, row by row, is one update of what is due. *)
Lemma overdue_rows rows : ∀ d,
  each (λ i, _ ← guarded (update_invoice (invoice_id i)
                            (λ i, with_invoice_status OVERDUE (payment_id i) i)); mret tt) rows d
  = (Ok tt, set_invoices (update (λ i, bool_decide (invoice_id i ∈ map invoice_id rows))
              (λ i, with_invoice_status OVERDUE (payment_id i) i)) d).
Proof.
  induction rows as [|x rows IH]; intros d.
  - cbn [each]. unfold mret, M_ret. f_equal. unfold set_invoices, update. destruct d; cbn. f_equal.
    match goal with |- ?t = _ => rewrite <-(map_id t) at 1 end. by apply map_ext.
  - cbn [each]. rewrite bind_assoc. 
    erewrite bind_step by (unfold guarded, update_invoice, modify; reflexivity).
    rewrite ret_bind, IH. f_equal. unfold set_invoices, set_row, update. destruct d; cbn. f_equal.
    rewrite map_map. apply map_ext. intros i. unfold has_id.
    change (row_id i) with (invoice_id i).
    destruct (decide (invoice_id i = invoice_id x)) as [E|E].
    + rewrite (bool_decide_true (invoice_id i = _)) by done. cbn [invoice_id with_invoice_status].
      rewrite (bool_decide_true (invoice_id i ∈ _ :: _)) by (rewrite E; left).
      by destruct (bool_decide _).
    + rewrite (bool_decide_false (invoice_id i = _)) by done.
      rewrite (bool_decide_ext (invoice_id i ∈ _ :: _) (invoice_id i ∈ map invoice_id rows)); [done|].
      rewrite elem_of_cons. naive_solver.
Qed.
Lemma overdue_Ok now d d' : mark_overdue_invoices now d = (Ok tt, d') → booked d d'.
Proof.
  unfold mark_overdue_invoices. intros H. erewrite bind_step in H by (unfold gets; reflexivity).
  rewrite overdue_rows in H. injection H as <-. intros Hd. apply status_move; [|done|done].
  intros i Hi Hk. apply bool_decide_eq_true in Hk. apply list_elem_of_In, in_map_iff in Hk as (j & E & Hj).
  apply list_elem_of_In, elem_of_select in Hj as [Hj Hp].
  pose proof (NoDup_map_eq _ _ _ _ (keyed_invoices _ Hd) Hj Hi E) as ->.
  unfold past_due in Hp. apply andb_true_iff in Hp as [Hp _]. apply bool_decide_eq_true in Hp.
  unfold invoice_step. rewrite Hp. cbn. right. left.
Qed.

(** *** Issuing *)
Lemma select_none {R} (p : R → bool) t : (∀ r, r ∈ t → p r = false) → select p t = [].
Proof.
  intros H. destruct (select p t) as [|r rs] eqn:E; [done|].
  assert (r ∈ select p t) as Hr by (rewrite E; left).
  apply elem_of_select in Hr as [Hr Hp]. by rewrite H in Hp.
Qed.
Lemma select_all {R} (p : R → bool) t : (∀ r, r ∈ t → p r = true) → select p t = t.
Proof.
  intros H. unfold select. induction t as [|r t IH]; [done|]. cbn. rewrite H by left.
  f_equal. apply IH. intros x Hx. apply H. by right.
Qed.

(** What a new invoice has to be for the books to stay in order. *)
Record issuable (d : database) (i : Invoice) (xs : list InvoiceItem) : Prop := {
  issue_fresh : by_id (invoice_id i) (invoices d) = None;
  issue_discount : 0 < discount_amount i → ∃ r k, r ∈ usages d ∧ invoice_subscription i = Some k
    ∧ usage_subscription r = Some k ∧ discount_amount_applied r = discount_amount i
    ∧ has_discounted_invoice k d = false;
  issue_adds_up : adds_up i;
  issue_lines : ∀ x, x ∈ xs → item_invoice x = invoice_id i;
  issue_lines_close : lines_close (subtotal i) xs;
}.

Section issue.
Context (d : database) (now : datetime) (i : Invoice) (xs : list InvoiceItem) (d1 : database).
Context (Hd : books_ok d) (Hi : issuable d i xs).
Context (Hnow : in_python now) (Hgen : generate_invoice_number now d = (Ok (invoice_number i), d1)).
Context (Hdate : issue_date i = now).

Let d2 := set_items (λ t, t ++ xs) (set_invoices (insert_row i) d1).

Lemma issue_tables : invoices d2 = insert_row i (invoices d) ∧ items d2 = items d ++ xs
  ∧ notes d2 = notes d ∧ usages d2 = usages d ∧ counters d2 = counters d1.
Proof. apply generate_Ok in Hgen as (f & E & _). unfold d2. rewrite E. done. Qed.

Lemma issue_by_id k : by_id k (invoices d2)
  = match by_id k (invoices d) with
    | Some j => Some j
    | None => if decide (invoice_id i = k) then Some i else None
    end.
Proof. destruct issue_tables as (-> & _). apply by_id_insert. Qed.

Lemma issue_lines_of k : lines_of k d2
  = if decide (invoice_id i = k) then xs else lines_of k d.
Proof.
  unfold lines_of. destruct issue_tables as (_ & -> & _). rewrite select_app.
  destruct (decide (invoice_id i = k)) as [<-|Hne].
  - rewrite select_none, select_all; [done| |].
    + intros x Hx. apply bool_decide_eq_true, (issue_lines _ _ _ Hi x Hx).
    + intros x Hx. apply bool_decide_eq_false. intros E. destruct (lines_known _ Hd x Hx) as [j Hj].
      pose proof (issue_fresh _ _ _ Hi). congruence.
  - rewrite (select_none _ xs), app_nil_r; [done|]. intros x Hx. apply bool_decide_eq_false.
    rewrite (issue_lines _ _ _ Hi x Hx). done.
Qed.

Lemma issue_once k : rowcount (discounts k) (invoices d2) ≤ 1.
Proof.
  destruct issue_tables as (-> & _). unfold insert_row. rewrite rowcount_app.
  pose proof (granted_once _ Hd k) as Honce.
  unfold rowcount at 2, select. cbn. destruct (discounts k i) eqn:E; cbn; [|lia].
  unfold discounts in E. apply andb_true_iff in E as [E Hdis]. apply andb_true_iff in E as [Hk _].
  unfold of_subscription in Hk. apply bool_decide_eq_true in Hk. apply Z.ltb_lt in Hdis.
  destruct (issue_discount _ _ _ Hi Hdis) as (r & k' & _ & Hk' & _ & _ & Hno).
  assert (k' = k) as -> by congruence. unfold has_discounted_invoice in Hno.
  apply bool_decide_eq_false, eq_None_not_Some in Hno. rewrite select_one_None in Hno.
  rewrite rowcount_none by done. lia.
Qed.

Lemma issue_old j : j ∈ invoices d2 → j ∈ invoices d ∧ invoice_id j ≠ invoice_id i ∨ j = i.
Proof.
  destruct issue_tables as (-> & _). unfold insert_row. rewrite elem_of_app, list_elem_of_singleton.
  intros [Hj| ->]; [left|by right]. split; [done|]. intros E.
  pose proof (by_id_unique _ _ _ (keyed_invoices _ Hd) Hj E). pose proof (issue_fresh _ _ _ Hi).
  congruence.
Qed.

Lemma issue_move : books_ok d2 ∧ follows d d2.
Proof.
  pose proof Hd as [H1 H2 H3 H4 H5 H6 H7 H8 H9 H10].
  pose proof issue_tables as (Ei & Et & En & Eu & Ec).
  assert (0 ≤ year (date_of now)) as Hy by (unfold in_python in Hnow; lia).
  split.
  - split.
    + rewrite Ei. apply keyed_insert; [done|]. apply (issue_fresh _ _ _ Hi).
    + rewrite Ec. apply generate_Ok in Hgen as (f & _ & Hpos). by apply Hpos.
    + rewrite Ei. eapply numbered_frame; [exact Ec|].
      eapply numbered_issue; try done. left.
    + rewrite En. eapply numbered_frame; [exact Ec|].
      eapply numbered_other; [| | |exact Hy|exact Hgen|done]; [right; left|left|done].
    + rewrite En. eapply numbered_frame; [exact Ec|].
      eapply numbered_other; [| | |exact Hy|exact Hgen|done]; [right; right; left|left|done].
    + apply issue_once.
    + rewrite Eu. intros j [[Hj _]| ->]%issue_old Hdis; [by apply H7|].
      destruct (issue_discount _ _ _ Hi Hdis) as (r & k & ? & ? & ? & ? & _). by exists r, k.
    + intros j [[Hj _]| ->]%issue_old; [by apply H8|]. apply (issue_adds_up _ _ _ Hi).
    + intros j [[Hj Hne]| ->]%issue_old; rewrite issue_lines_of.
      * rewrite decide_False by done. by apply H9.
      * rewrite decide_True by done. apply (issue_lines_close _ _ _ Hi).
    + rewrite Et. intros x [Hx|Hx]%elem_of_app; rewrite issue_by_id.
      * destruct (H10 x Hx) as [j ->]. by eexists.
      * rewrite (issue_lines _ _ _ Hi x Hx), (issue_fresh _ _ _ Hi). by rewrite decide_True.
  - split; [|exists []; by rewrite En, app_nil_r]. intros k j Hj. exists j.
    rewrite issue_by_id, Hj, issue_lines_of. rewrite decide_False; [done|]. intros E.
    pose proof (issue_fresh _ _ _ Hi). congruence.
Qed.
End issue.

(** *** Notes *)
Lemma note_move d now p t k n x d1 : books_ok d → in_python now →
  (t = CREDIT ∧ p = CREDIT_NOTE_NUMBER_PREFIX ∨ t = DEBIT ∧ p = DEBIT_NOTE_NUMBER_PREFIX) →
  generate_number p now d = (Ok n, d1) →
  books_ok (set_notes (insert_row (mk_note k t n x now)) d1)
  ∧ follows d (set_notes (insert_row (mk_note k t n x now)) d1).
Proof.
  intros [H1 H2 H3 H4 H5 H6 H7 H8 H9 H10] Hnow Ht Hgen.
  assert (0 ≤ year (date_of now)) as Hy by (unfold in_python in Hnow; lia).
  pose proof (generate_Ok _ _ _ _ _ Hgen) as (f & E & Hpos). set (d2 := set_notes _ _).
  assert (invoices d2 = invoices d ∧ items d2 = items d ∧ usages d2 = usages d
    ∧ notes d2 = insert_row (mk_note k t n x now) (notes d) ∧ counters d2 = counters d1)
    as (Ei & Et & Eu & En & Ec) by (unfold d2; rewrite E; done).
  assert (p ∈ PREFIXES) as Hp by (destruct Ht as [[_ ->]|[_ ->]]; [right; left|right; right; left]).
  assert (∀ s, select (of_type s) (notes d2) = if bool_decide (t = s)
    then insert_row (mk_note k t n x now) (select (of_type s) (notes d)) else select (of_type s) (notes d))
    as Hsel.
  { intros s. rewrite En. unfold insert_row. rewrite select_app. unfold select at 2. cbn.
    unfold of_type at 2. cbn [note_type]. destruct (bool_decide (t = s)); [done|by rewrite app_nil_r]. }
  split.
  - split; rewrite ?Ei, ?Et, ?Eu, ?Ec; try done.
    + by apply Hpos.
    + eapply numbered_frame; [exact Ec|].
      eapply numbered_other; [left|exact Hp| |exact Hy|exact Hgen|done].
      by destruct Ht as [[_ ->]|[_ ->]].
    + rewrite Hsel. eapply numbered_frame; [exact Ec|]. destruct Ht as [[-> ->]|[-> ->]]; cbn.
      * eapply numbered_issue; try done.
      * by eapply numbered_other; [right; left|exact Hp| |exact Hy|exact Hgen|].
    + rewrite Hsel. eapply numbered_frame; [exact Ec|]. destruct Ht as [[-> ->]|[-> ->]]; cbn.
      * by eapply numbered_other; [right; right; left|exact Hp| |exact Hy|exact Hgen|].
      * eapply numbered_issue; try done.
    + intros i Hi. unfold lines_of. rewrite Et. by apply H9.
  - split; [|rewrite En; by eexists]. intros j i Hi. exists i. unfold lines_of. by rewrite Ei, Et.
Qed.

Lemma create_note_Ok n d d' : create_note n d = (Ok tt, d') → d' = set_notes (insert_row n) d.
Proof. unfold create_note. intros H. by ok_inv H. Qed.
Lemma note_tail now p t k x d n d' : in_python now →
  (t = CREDIT ∧ p = CREDIT_NOTE_NUMBER_PREFIX ∨ t = DEBIT ∧ p = DEBIT_NOTE_NUMBER_PREFIX) →
  (number ← generate_number p now; _ ← create_note (mk_note k t number x now);
   mret (mk_note k t number x now)) d = (Ok n, d') → booked d d'.
Proof.
  intros Hnow Ht H Hd. apply bind_Ok in H as (m & d2 & Hgen & H).
  apply bind_Ok in H as ([] & d3 & Hc & H). injection H as <- <-.
  apply create_note_Ok in Hc as ->. by eapply note_move.
Qed.
Lemma credit_note_Ok now k org amount d n d' : in_python now →
  issue_credit_note now k org amount d = (Ok n, d') → booked d d'.
Proof.
  intros Hnow H. unfold issue_credit_note in H. apply bind_Ok in H as (i & d1 & Hg & H).
  apply get_invoice_Ok in Hg as (-> & _). do 3 (apply bind_Ok in H as ([] & ? & Hr & H); ok_inv Hr).
  eapply note_tail; [done|by left|exact H].
Qed.
Lemma debit_note_Ok now k org amount d n d' : in_python now →
  issue_debit_note now k org amount d = (Ok n, d') → booked d d'.
Proof.
  intros Hnow H. unfold issue_debit_note in H. apply bind_Ok in H as (i & d1 & Hg & H).
  apply get_invoice_Ok in Hg as (-> & _). do 2 (apply bind_Ok in H as ([] & ? & Hr & H); ok_inv Hr).
  eapply note_tail; [done|by right|exact H].
Qed.

(** *** Rounding *)
Lemma quantize_near x :
  (200 * x - 1 <= inject_Z (2 * quantize x) ∧ inject_Z (2 * quantize x) <= 200 * x + 1)%Q.
Proof.
  destruct x as [n d]. unfold quantize. cbn [Qnum Qden].
  pose proof (half_even_nearest (n * 100) (Z.pos d) ltac:(lia)) as H.
  set (q := half_even (n * 100) (Z.pos d)) in *. clearbody q.
  unfold Qle, inject_Z, Qminus, Qplus, Qmult, Qopp. cbn [Qnum Qden].
  rewrite ?Pos.mul_1_l, ?Pos.mul_1_r, ?Z.mul_1_r. split; nia.
Qed.
Lemma quantize_nonneg x : (0 <= x)%Q → 0 ≤ quantize x.
Proof.
  destruct x as [n d]. unfold Qle, quantize. cbn [Qnum Qden]. intros H. apply half_even_nonneg; lia.
Qed.
Lemma quantize_cents_add a b : quantize (cents a + cents b)%Q = a + b.
Proof.
  rewrite <-(quantize_cents (a + b)). apply quantize_proper. unfold cents, Qeq, Qplus. cbn. lia.
Qed.
Lemma total_of_add a b : total_of a b = a + tax_amount b.
Proof. apply quantize_cents_add. Qed.

Definition exact_sum (ls : list line) : Q := foldr (λ l s, l.1 * l.2 + s)%Q 0%Q ls.
Lemma sum_near id ls :
  (200 * exact_sum ls - inject_Z (Z.of_nat (length ls)) <= inject_Z (2 * sum_of (map (line_item id) ls))
   ∧ inject_Z (2 * sum_of (map (line_item id) ls)) <= 200 * exact_sum ls + inject_Z (Z.of_nat (length ls)))%Q.
Proof.
  induction ls as [|l ls IH]; [by split|]. cbn [map sum_of foldr length exact_sum amount line_item].
  fold (exact_sum ls). fold (sum_of (map (line_item id) ls)).
  pose proof (quantize_near (l.1 * l.2)) as Hl.
  rewrite Nat2Z.inj_succ, <-Z.add_1_r, Z.mul_add_distr_l, !inject_Z_plus.
  change (inject_Z 1) with 1%Q. 
  destruct IH, Hl. split; lra.
Qed.
Lemma lines_close_of id ls : lines_close (subtotal_of ls) (map (line_item id) ls).
Proof.
  unfold lines_close, subtotal_of. fold (exact_sum ls). rewrite length_map.
  destruct (sum_near id ls) as [S1 S2], (quantize_near (exact_sum ls)) as [Q1 Q2].
  set (s := sum_of _) in *. set (q := quantize _) in *. set (n := Z.of_nat _) in *.
  assert (2 * q - 2 * s ≤ n + 1) by (rewrite Zle_Qle; unfold Z.sub;
    rewrite !inject_Z_plus, !inject_Z_opp; change (inject_Z 1) with 1%Q; lra).
  assert (2 * s - 2 * q ≤ n + 1) by (rewrite Zle_Qle; unfold Z.sub;
    rewrite !inject_Z_plus, !inject_Z_opp; change (inject_Z 1) with 1%Q; lra).
  lia.
Qed.

(** *** The operations that issue *)
Lemma create_invoice_Ok i d j d' : create_invoice i d = (Ok j, d') →
  j = i ∧ d' = set_invoices (insert_row i) d ∧ by_id (invoice_id i) (invoices d) = None.
Proof.
  unfold create_invoice. intros H. erewrite bind_step in H by (unfold gets; reflexivity).
  rewrite raise_if_bind in H. destruct (0 <? _) eqn:E; [discriminate H|]. injection H as <- <-.
  split; [done|]. split; [done|]. apply Z.ltb_ge in E. unfold by_id. rewrite select_one_None.
  intros y Hy. eapply rowcount_zero in Hy; [|apply Z.le_antisymm; [exact E|apply rowcount_nonneg]].
  by apply orb_false_iff in Hy as [? _].
Qed.
Lemma items_run {A} (g : A → InvoiceItem) ls : ∀ d,
  each (λ l, create_invoice_item (g l)) ls d = (Ok tt, set_items (λ t, t ++ map g ls) d).
Proof.
  induction ls as [|l ls IH]; intros d; cbn [each map].
  - unfold mret, M_ret, set_items. destruct d. cbn. by rewrite app_nil_r.
  - unfold create_invoice_item at 1. erewrite bind_step by (unfold modify; reflexivity).
    rewrite IH. unfold set_items, insert_row. destruct d. cbn. by rewrite <-app_assoc.
Qed.

(** A number, an invoice with it, its lines. *)
Lemma issue_tail now (mk : pystr → Invoice) (xs : Invoice → list InvoiceItem) d i d' :
  in_python now → (∀ n, invoice_number (mk n) = n ∧ issue_date (mk n) = now) →
  (∀ n, by_id (invoice_id (mk n)) (invoices d) = None → issuable d (mk n) (xs (mk n))) →
  (number ← generate_invoice_number now; i ← create_invoice (mk number);
   _ ← each create_invoice_item (xs i); mret i) d = (Ok i, d') → booked d d'.
Proof.
  intros Hnow Hmk Hok H Hd. apply bind_Ok in H as (n & d1 & Hgen & H).
  apply bind_Ok in H as (j & d2 & Hc & H). apply create_invoice_Ok in Hc as (-> & -> & Hfresh).
  apply bind_Ok in H as ([] & d3 & He & H). injection H as <- <-.
  rewrite (items_run (λ x, x)), map_id in He. injection He as <-.
  pose proof (generate_Ok _ _ _ _ _ Hgen) as (f & E & _). destruct (Hmk n) as [Hn Ht].
  rewrite E in Hfresh. specialize (Hok n Hfresh). rewrite <-Hn in Hgen at 1.
  by eapply issue_move.
Qed.

Lemma resolve_Ok x d n d' : resolve_coupon_discount x d = (Ok n, d') →
  d' = d ∧ (0 < n → ∃ r, r ∈ usages d ∧ usage_subscription r = Some (subscription_id x)
    ∧ discount_amount_applied r = n ∧ has_discounted_invoice (subscription_id x) d = false).
Proof.
  unfold resolve_coupon_discount. destruct (applied_coupon_id x); [|intros [= <- <-]; split; [done|lia]].
  intros H. erewrite bind_step in H by (unfold gets; reflexivity).
  destruct (has_discounted_invoice _ _) eqn:E; [injection H as <- <-; split; [done|lia]|].
  erewrite bind_step in H by (unfold gets; reflexivity). injection H as <- <-. split; [done|].
  unfold get_usage_for_subscription. destruct (least _ _) as [r|] eqn:El; [|lia]. intros _.
  apply least_Some in El as [Hr _]. apply elem_of_select in Hr as [Hr Hk].
  apply bool_decide_eq_true in Hk. by exists r.
Qed.

Lemma generate_invoice_Ok now id k d i d' : in_python now →
  generate_invoice_for_subscription platform invoice_due_days now id k d = (Ok i, d') → booked d d'.
Proof.
  intros Hnow H. unfold generate_invoice_for_subscription in H.
  apply bind_Ok in H as (row & e1 & Hg & H). injection Hg as <- <-.
  apply bind_Ok in H as (x & e2 & Hg & H). destruct (by_id k _) as [y|]; [|discriminate Hg].
  injection Hg as -> <-.
  apply bind_Ok in H as (p & e3 & Hp & H). apply BillingRequests.get_plan_Ok in Hp as [-> _].
  apply bind_Ok in H as (row & e4 & Hg & H). injection Hg as <- <-.
  apply bind_Ok in H as (b & e5 & Hg & H). destruct (profile_of _ _) as [b'|]; [|discriminate Hg].
  injection Hg as -> <-.
  apply bind_Ok in H as (n & e6 & Hr & H). apply resolve_Ok in Hr as [-> Hr].
  apply bind_Ok in H as (rate & e7 & Hg & H). injection Hg as <- <-.
  refine (issue_tail now (subscription_invoice platform invoice_due_days now id x p b n
    (applicable_tax_rate b d)) (λ i, [mk_item (invoice_id i) 100 (subtotal i) (subtotal i)]) d i d'
    Hnow _ _ _).
  - by intros m.
  - intros m Hfresh. split; [done| | | |].
    + intros Hd0. destruct (Hr Hd0) as (r & ? & ? & ? & ?). exists r, (subscription_id x). done.
    + unfold adds_up. cbn. apply total_of_add.
    + intros z ->%list_elem_of_singleton. done.
    + unfold lines_close. cbn. lia.
  - apply bind_Ok in H as (m & e8 & Hgen & H). apply bind_Ok in H as (j & e9 & Hc & H).
    rewrite (bind_step _ _ _ _ _ Hgen). rewrite (bind_step _ _ _ _ _ Hc).
    apply create_invoice_Ok in Hc as (-> & _). cbn [each]. rewrite bind_assoc. exact H.
Qed.

Lemma issue_from_lines_Ok now id org b ls s d i d' : in_python now →
  Forall (λ l : line, (0 <= l.1)%Q ∧ (0 <= l.2)%Q) ls →
  issue_invoice_from_lines platform invoice_due_days now id org b ls s d = (Ok i, d') → booked d d'.
Proof.
  intros Hnow Hls H. unfold issue_invoice_from_lines in H.
  apply bind_Ok in H as (rate & e7 & Hg & H). injection Hg as <- <-.
  refine (issue_tail now (lines_invoice platform invoice_due_days now id org b ls s
    (applicable_tax_rate b d)) (λ i, map (line_item (invoice_id i)) ls) d i d' Hnow _ _ _).
  - by intros m.
  - intros m Hfresh. split; [done|done| | |].
    + unfold adds_up. cbn. rewrite total_of_add. f_equal. unfold compute_taxable_value.
      assert (0 ≤ subtotal_of ls) as Hpos.
      { apply quantize_nonneg. clear -Hls. induction Hls as [|l ls [H1 H2] _ IH]; [done|].
        cbn [foldr]. pose proof (Qmult_le_0_compat _ _ H1 H2). lra. }
      rewrite Z.sub_0_r. destruct (Z.ltb_spec 0 (subtotal_of ls)); lia.
    + intros z Hz. apply list_elem_of_In, in_map_iff in Hz as (l & <- & _). done.
    + apply lines_close_of.
  - apply bind_Ok in H as (m & e8 & Hgen & H). apply bind_Ok in H as (j & e9 & Hc & H).
    rewrite (bind_step _ _ _ _ _ Hgen). rewrite (bind_step _ _ _ _ _ Hc).
    apply create_invoice_Ok in Hc as (-> & _). apply bind_Ok in H as ([] & e10 & He & H).
    rewrite items_run in He.
    rewrite (bind_step _ _ _ _ _ (items_run (λ x, x) _ _)), map_id. injection He as <-. exact H.
Qed.

Lemma keeps_documents_of d d' : invoices d' = invoices d → items d' = items d → notes d' = notes d →
  counters d' = counters d → usages d' = usages d → booked d d'.
Proof. intros. apply booked_frame. by apply BillingRequests.kept. Qed.

Lemma post_booked e d d' : admissible e → post e d = (Ok tt, d') → booked d d'.
Proof.
  intros He H. destruct e; cbn [post admissible] in *;
    lazymatch type of H with
    | BillingRequests.discard _ _ = _ => apply bind_Ok in H as (a & d1 & H & Hret); injection Hret as <-
    | _ => idtac
    end.
  - unfold create_tax_rate in H. ok_inv H. by apply keeps_documents_of.
  - unfold update_tax_rate in H. ok_inv H. by apply keeps_documents_of.
  - unfold upsert_billing_profile in H. apply bind_Ok in H as (row & d2 & Hg & H). ok_inv Hg.
    destruct (profile_of _ _); ok_inv H; by apply keeps_documents_of.
  - by apply generate_invoice_Ok in H.
  - destruct He as [He Hls]. unfold create_manual_invoice in H.
    apply bind_Ok in H as (row & d2 & Hg & H). injection Hg as <- <-.
    apply bind_Ok in H as (b & d2 & Hg & H). ok_inv Hg. by apply issue_from_lines_Ok in H.
  - destruct He as [He Hpaid]. unfold generate_invoice_for_credit_topup in H.
    apply bind_Ok in H as (row & d2 & Hg & H). injection Hg as <- <-.
    apply bind_Ok in H as (b & d2 & Hg & H). ok_inv Hg. apply issue_from_lines_Ok in H; [done|done|].
    rewrite quantize_cents. repeat constructor; [done|]. unfold cents, Qle. cbn. lia.
  - by apply mark_paid_Ok in H.
  - by apply paid_for_payment_Ok in H.
  - by apply void_Ok in H.
  - by apply overdue_Ok in H.
  - by apply credit_note_Ok in H.
  - by apply debit_note_Ok in H.
  - apply booked_frame. pose proof (BillingRequests.handler_keeps_documents cfg trial_period_days c d) as K.
    by rewrite H in K.
Qed.

Lemma books_after cs d : books_ok d → Forall admissible cs →
  books_ok (posted cs d) ∧ follows d (posted cs d).
Proof.
  intros Hd Hcs.
  exact (transactions_induct post booked admissible cs d post_booked Hcs Hd).
Qed.

(** ** What the books promise *)

(** C20: over any history of requests and sweeps, the invoices of every year
    carry, in the order they were issued, the numbers 1, 2, 3, ... of that
    year without a gap, and so do the credit notes and the debit notes, each
    by themselves; no invoice number occurs twice. *)
Theorem documents_are_numbered_without_gaps cs d :
  books_ok d → Forall admissible cs →
  numbered invoice_number issue_date INVOICE_NUMBER_PREFIX (invoices (posted cs d)) (posted cs d)
  ∧ numbered note_number issued_at CREDIT_NOTE_NUMBER_PREFIX
      (select (of_type CREDIT) (notes (posted cs d))) (posted cs d)
  ∧ numbered note_number issued_at DEBIT_NOTE_NUMBER_PREFIX
      (select (of_type DEBIT) (notes (posted cs d))) (posted cs d)
  ∧ NoDup (map invoice_number (invoices (posted cs d))).
Proof.
  intros Hd Hcs. destruct (books_after cs d Hd Hcs) as [[] _]. split_and!; try done.
  by eapply numbered_NoDup.
Qed.

(** Over any history a subscription's coupon is granted on at most one
    invoice that was not withdrawn, and only for the amount recorded when the
    coupon was redeemed for that subscription. *)
Theorem coupon_is_granted_once cs d :
  books_ok d → Forall admissible cs →
  (∀ k, rowcount (discounts k) (invoices (posted cs d)) ≤ 1)
  ∧ ∀ i, i ∈ invoices (posted cs d) → 0 < discount_amount i → ∃ r k, r ∈ usages (posted cs d)
      ∧ invoice_subscription i = Some k ∧ usage_subscription r = Some k
      ∧ discount_amount_applied r = discount_amount i.
Proof. intros Hd Hcs. by destruct (books_after cs d Hd Hcs) as [[] _]. Qed.

(** C31: an issued invoice is final: whatever happens later, its number, dates,
    amounts, address and lines stay, its status moves along the table only,
    and once it is paid or withdrawn not even that. *)
Theorem issued_invoices_are_final cs d k i :
  books_ok d → Forall admissible cs → by_id k (invoices d) = Some i →
  ∃ i', by_id k (invoices (posted cs d)) = Some i' ∧ terms i' = terms i
    ∧ rtc invoice_step (invoice_status i) (invoice_status i')
    ∧ (invoice_status i ∈ [PAID; VOID; WITHDRAWN] → i' = i)
    ∧ lines_of k (posted cs d) = lines_of k d.
Proof.
  intros Hd Hcs Hi. destruct (books_after cs d Hd Hcs) as [_ [F _]].
  destruct (F k i Hi) as (i' & H1 & H2 & H3 & H4 & H5). exists i'. split_and!; try done.
  intros Hs. apply H4. rewrite !elem_of_cons, elem_of_nil in Hs. unfold final.
  by destruct Hs as [-> |[-> |[-> |[]]]].
Qed.

(** Every invoice ever issued adds up: its total is what remains after the
    discount, at least nothing, and the tax; its lines sum to its subtotal up
    to the rounding of each; the three figures it prints balance exactly when
    the discount is no more than the subtotal. *)
Theorem every_invoice_adds_up cs d i :
  books_ok d → Forall admissible cs → i ∈ invoices (posted cs d) →
  total_amount i = Z.max 0 (subtotal i - discount_amount i) + tax_amount (breakdown i)
  ∧ lines_close (subtotal i) (lines_of (invoice_id i) (posted cs d))
  ∧ (subtotal i - discount_amount i + tax_amount (breakdown i) = total_amount i
     ↔ discount_amount i ≤ subtotal i).
Proof.
  intros Hd Hcs Hi. destruct (books_after cs d Hd Hcs) as [B _].
  pose proof (invoices_add_up _ B i Hi) as Ha. unfold adds_up, compute_taxable_value in Ha.
  assert (total_amount i = Z.max 0 (subtotal i - discount_amount i) + tax_amount (breakdown i)) as E.
  { rewrite Ha. destruct (Z.ltb_spec 0 (subtotal i - discount_amount i)); lia. }
  split; [done|]. split; [by apply lines_add_up|]. lia.
Qed.

(** ** Every request that should succeed does *)
Lemma increment_run key d : last_of key d < INT4_MAX →
  ∃ f, increment_and_get_next key d = (Ok (last_of key d + 1), set_counters f d).
Proof.
  intros Hl. unfold increment_and_get_next. erewrite bind_step by (unfold gets; reflexivity).
  unfold last_of in *. destruct (select_one (counts key) (counters d)) as [c|]; [|by eexists].
  rewrite raise_if_bind. apply Z.leb_gt in Hl. rewrite Hl. by eexists.
Qed.
Lemma generate_run prefix now d :
  last_of (counter_key_of prefix (year (date_of now))) d < INT4_MAX →
  ∃ f, generate_number prefix now d =
    (Ok (format_number prefix (year (date_of now))
           (last_of (counter_key_of prefix (year (date_of now))) d + 1)), set_counters f d).
Proof.
  intros Hl. destruct (increment_run _ d Hl) as [f Hf]. exists f. unfold generate_number.
  by rewrite (bind_step _ _ _ _ _ Hf).
Qed.
(** The unique index never decides: the next number is new. *)
Lemma next_number_fresh {R} (number_of : R → pystr) at_of prefix t d y :
  numbered number_of at_of prefix t d → 0 ≤ y → 0 ≤ last_of (counter_key_of prefix y) d →
  ∀ r, r ∈ t → number_of r ≠ format_number prefix y (last_of (counter_key_of prefix y) d + 1).
Proof.
  intros [Hy Hn] Hy0 Hl r Hr E.
  assert (number_of r ∈ numbers_of number_of at_of (year_of at_of r) t) as Hin.
  { apply list_elem_of_In, in_map, list_elem_of_In, elem_of_select. split; [done|]. apply Z.eqb_refl. }
  rewrite Hn in Hin by auto. apply list_elem_of_In, in_map_iff in Hin as (s & Es & Hs).
  apply list_elem_of_In, elem_of_seqZ in Hs. rewrite <-Es in E.
  apply format_number_inj in E as [Ey ->]; [|by auto|done|lia|lia]. subst y. lia.
Qed.
Lemma last_nonneg key d : Forall (λ c, 0 ≤ last_value c) (counters d) → 0 ≤ last_of key d.
Proof.
  intros H. unfold last_of. destruct (select_one _ _) as [c|] eqn:E; [|done].
  apply select_one_Some in E as [Hin _]. rewrite Forall_forall in H. by apply H.
Qed.

(** What a subscription's next invoice takes off. *)
Definition discount_due (x : Subscription) (d : database) : Z :=
  if bool_decide (is_Some (applied_coupon_id x)) && negb (has_discounted_invoice (subscription_id x) d)
  then match get_usage_for_subscription (subscription_id x) d with
       | None => 0 | Some r => discount_amount_applied r end
  else 0.
Lemma resolve_run x d : resolve_coupon_discount x d = (Ok (discount_due x d), d).
Proof.
  unfold resolve_coupon_discount, discount_due. destruct (applied_coupon_id x); [|done].
  erewrite bind_step by (unfold gets; reflexivity).
  rewrite bool_decide_true by (by eexists). destruct (has_discounted_invoice _ _); [done|].
  by erewrite bind_step by (unfold gets; reflexivity).
Qed.

(** An invoice is issued for every subscription with a live plan and a
    billing profile: it carries the next number of its year, charges the
    plan's price less the coupon's discount while that was not granted yet,
    and exactly the tax the law prescribes on the rest. *)
Theorem invoice_is_issued now id k d x p b :
  books_ok d → in_python now →
  by_id k (subscriptions d) = Some x → live_plan (subscription_plan x) d = Some p →
  profile_of (subscription_org x) d = Some b →
  by_id id (invoices d) = None →
  last_of (counter_key_of INVOICE_NUMBER_PREFIX (year (date_of now))) d < INT4_MAX →
  ∃ i d', generate_invoice_for_subscription platform invoice_due_days now id k d = (Ok i, d')
    ∧ by_id id (invoices d') = Some i ∧ invoice_status i = ISSUED
    ∧ invoice_number i = format_number INVOICE_NUMBER_PREFIX (year (date_of now))
        (last_of (counter_key_of INVOICE_NUMBER_PREFIX (year (date_of now))) d + 1)
    ∧ subtotal i = base_price p ∧ discount_amount i = discount_due x d
    ∧ (let rate := applicable_tax_rate b d in
       lawful (Z.max 0 (base_price p - discount_due x d)) (tax_type <$> rate)
         (default 0 (rate_percentage <$> rate)) (tax_exempt b) platform (billing_region b) (breakdown i))
    ∧ total_amount i = Z.max 0 (base_price p - discount_due x d) + tax_amount (breakdown i).
Proof.
  intros Hd Hnow Hx Hp Hb Hfresh Hl. unfold generate_invoice_for_subscription.
  erewrite bind_step by (unfold gets; reflexivity). rewrite Hx, of_option_bind. unfold get_plan.
  rewrite bind_assoc. erewrite bind_step by (unfold gets; reflexivity). rewrite Hp, of_option_bind.
  erewrite bind_step by (unfold gets; reflexivity). rewrite Hb, of_option_bind.
  rewrite (bind_step _ _ _ _ _ (resolve_run x d)).
  erewrite bind_step by (unfold gets; reflexivity).
  destruct (generate_run _ _ _ Hl) as [f Hf]. unfold generate_invoice_number.
  rewrite (bind_step _ _ _ _ _ Hf).
  set (i := subscription_invoice _ _ _ _ _ _ _ _ _ _).
  assert (create_invoice i (set_counters f d) = (Ok i, set_invoices (insert_row i) (set_counters f d))) as Hc.
  { unfold create_invoice. erewrite bind_step by (unfold gets; reflexivity). rewrite raise_if_bind.
    rewrite rowcount_none; [done|]. intros j Hj. apply orb_false_iff. split.
    - unfold by_id in Hfresh. rewrite select_one_None in Hfresh. by apply Hfresh.
    - apply bool_decide_eq_false.
      eapply (next_number_fresh invoice_number issue_date); [apply (invoices_numbered _ Hd)| | |done].
      + unfold in_python in Hnow. lia.
      + apply last_nonneg, (counters_positive _ Hd). }
  rewrite (bind_step _ _ _ _ _ Hc). unfold create_invoice_item.
  erewrite bind_step by (unfold modify; reflexivity). do 2 eexists. split; [reflexivity|].
  split.
  { cbn [set_items set_invoices set_counters invoices]. rewrite by_id_insert, Hfresh.
    by rewrite decide_True. }
  split; [done|]. split; [done|]. split; [done|]. split; [done|].
  assert (compute_taxable_value (base_price p) (discount_due x d)
    = Z.max 0 (base_price p - discount_due x d)) as E.
  { unfold compute_taxable_value. destruct (Z.ltb_spec 0 (base_price p - discount_due x d)); lia. }
  split.
  - cbn zeta. rewrite <-E. by apply law_of_breakdown.
  - unfold i, subscription_invoice. cbn. unfold compute_renewal_charge_amount. rewrite E.
    apply total_of_add.
Qed.

(** ** Credit notes *)
Definition credited (k : uuid) (d : database) : Z :=
  foldr (λ n s, note_amount n + s) 0
    (select (λ n, of_type CREDIT n && bool_decide (note_invoice n = k)) (notes d)).
Lemma credited_snoc k d d' n : notes d' = notes d ++ [n] → note_invoice n = k → note_type n = CREDIT →
  credited k d' = credited k d + note_amount n.
Proof.
  intros E Hk Ht. unfold credited. rewrite E, select_app. unfold select at 2. cbn. unfold of_type at 2.
  rewrite Hk, Ht, !bool_decide_true by done. cbn. clear. induction (select _ _); cbn; lia.
Qed.

Lemma column_cents c : column (cents c) = c.
Proof. exact (half_up_exact c 100 ltac:(lia)). Qed.

Lemma credit_number_fresh d y m : books_ok d → m ∈ notes d → 0 ≤ y →
  note_number m ≠ format_number CREDIT_NOTE_NUMBER_PREFIX y
    (last_of (counter_key_of CREDIT_NOTE_NUMBER_PREFIX y) d + 1).
Proof.
  intros Hd Hm Hy. assert (m ∈ select (of_type (note_type m)) (notes d)) as Hin.
  { apply elem_of_select. split; [done|]. by apply bool_decide_eq_true. }
  destruct (note_type m).
  - eapply (next_number_fresh note_number issued_at);
      [apply (credits_numbered _ Hd)|done|apply last_nonneg, (counters_positive _ Hd)|done].
  - destruct (debits_numbered _ Hd) as [Hpos Hn]. intros E.
    assert (note_number m ∈ numbers_of note_number issued_at (year_of issued_at m)
      (select (of_type DEBIT) (notes d))) as Hm'.
    { apply list_elem_of_In, in_map, list_elem_of_In, elem_of_select. split; [done|]. apply Z.eqb_refl. }
    rewrite Hn in Hm' by auto. apply list_elem_of_In, in_map_iff in Hm' as (s & Es & _).
    rewrite <-Es in E. discriminate E.
Qed.

Lemma full_credit_run now k d i : books_ok d → in_python now → by_id k (invoices d) = Some i →
  sent (invoice_status i) = true → 0 < total_amount i →
  (∀ y, last_of (counter_key_of CREDIT_NOTE_NUMBER_PREFIX y) d < INT4_MAX) →
  ∃ n d', issue_credit_note now k None (cents (total_amount i)) d = (Ok n, d')
    ∧ books_ok d' ∧ by_id k (invoices d') = Some i
    ∧ notes d' = notes d ++ [n] ∧ note_invoice n = k ∧ note_type n = CREDIT
    ∧ note_amount n = total_amount i
    ∧ ∀ key, last_of key d' ≤ last_of key d + 1.
Proof.
  intros Hd Hnow Hi Hs Ht Hl.
  assert (invoice_id i = k) as Hk by (by apply by_id_Some in Hi as [_ ?]).
  destruct (generate_run _ now _ (Hl (year (date_of now)))) as [f Hf].
  set (n := mk_note k CREDIT (format_number CREDIT_NOTE_NUMBER_PREFIX (year (date_of now))
    (last_of (counter_key_of CREDIT_NOTE_NUMBER_PREFIX (year (date_of now))) d + 1)) (total_amount i) now).
  assert (create_note n (set_counters f d) = (Ok tt, set_notes (insert_row n) (set_counters f d))) as Hc.
  { unfold create_note. erewrite bind_step by (unfold gets; reflexivity). rewrite raise_if_bind.
    rewrite rowcount_none; [done|]. intros m Hm. apply bool_decide_eq_false. 
    apply (credit_number_fresh d); [done|done|]. unfold in_python in Hnow. lia. }
  assert (issue_credit_note now k None (cents (total_amount i)) d
    = (Ok n, set_notes (insert_row n) (set_counters f d))) as Hrun.
  { unfold issue_credit_note, get_invoice. rewrite bind_assoc.
    erewrite bind_step by (unfold gets; reflexivity).
    rewrite Hi, bind_assoc, of_option_bind, bind_assoc, raise_if_bind. cbn [foreign].
    rewrite ret_bind, raise_if_bind, Hs. cbn [negb]. rewrite raise_if_bind.
    assert (Qle_bool (cents (total_amount i)) 0 = false) as ->.
    { apply not_true_is_false. rewrite Qle_bool_iff. unfold Qle, cents. cbn. lia. }
    rewrite raise_if_bind.
    assert (Qle_bool (cents (total_amount i)) (cents (total_amount i)) = true) as ->
      by (apply Qle_bool_iff, Qle_refl).
    cbn [negb]. unfold generate_credit_note_number. rewrite (bind_step _ _ _ _ _ Hf).
    rewrite column_cents, Hk. by rewrite (bind_step _ _ _ _ _ Hc). }
  exists n, (set_notes (insert_row n) (set_counters f d)). split; [done|].
  destruct (credit_note_Ok _ _ _ _ _ _ _ Hnow Hrun Hd) as [B _]. split_and!; try done.
  intros key. change (last_of key (set_notes _ ?e)) with (last_of key e).
  unfold generate_number in Hf. apply bind_Ok in Hf as (s & d1 & Hinc & Hret). injection Hret as _ <-.
  apply increment_Ok in Hinc as (g & _ & Hs1 & Hl1 & Ho).
  destruct (decide (key = counter_key_of CREDIT_NOTE_NUMBER_PREFIX (year (date_of now)))) as [->|Hne];
    [lia|]. rewrite Ho by done. lia.
Qed.

(** A credit note is compared with the invoice's total alone: two notes
    over the whole of it are both accepted, and together credit twice what
    was charged. *)
Theorem credit_notes_exceed_the_invoice n1 n2 k d i :
  books_ok d → in_python n1 → in_python n2 → by_id k (invoices d) = Some i →
  sent (invoice_status i) = true → 0 < total_amount i →
  (∀ y, last_of (counter_key_of CREDIT_NOTE_NUMBER_PREFIX y) d + 1 < INT4_MAX) →
  ∃ n d', (_ ← issue_credit_note n1 k None (cents (total_amount i));
           issue_credit_note n2 k None (cents (total_amount i))) d = (Ok n, d')
    ∧ by_id k (invoices d') = Some i
    ∧ credited k d' = credited k d + 2 * total_amount i.
Proof.
  intros Hd H1 H2 Hi Hs Ht Hl.
  destruct (full_credit_run n1 k d i) as (m1 & d1 & R1 & B1 & I1 & N1 & K1 & T1 & A1 & L1); try done.
  { intros y. specialize (Hl y). lia. }
  destruct (full_credit_run n2 k d1 i) as (m2 & d2 & R2 & _ & I2 & N2 & K2 & T2 & A2 & _); try done.
  { intros y. specialize (Hl y). specialize (L1 (counter_key_of CREDIT_NOTE_NUMBER_PREFIX y)). lia. }
  exists m2, d2. split; [by rewrite (bind_step _ _ _ _ _ R1)|]. split; [done|].
  rewrite (credited_snoc k d1 d2 m2), (credited_snoc k d d1 m1) by done. lia.
Qed.

(** [generate_invoice_for_subscription] from the number on, once what it read
    is in its hands. *)
Definition issue_read (now : datetime) (id : uuid) (x : Subscription) (p : Plan) (b : BillingProfile)
    (discount : Z) (rate : option TaxRate) : op Invoice :=
  number ← generate_invoice_number now;
  i ← create_invoice
        (subscription_invoice platform invoice_due_days now id x p b discount rate number);
  _ ← create_invoice_item (mk_item id 100 (subtotal i) (subtotal i));
  mret i.
Lemma issue_read_discounts now id x p b n rate d i d' : 0 < n →
  issue_read now id x p b n rate d = (Ok i, d') →
  rowcount (discounts (subscription_id x)) (invoices d')
  = rowcount (discounts (subscription_id x)) (invoices d) + 1.
Proof.
  intros Hn H. unfold issue_read in H. apply bind_Ok in H as (m & d1 & Hgen & H).
  apply generate_Ok in Hgen as (f & -> & _). apply bind_Ok in H as (j & d2 & Hc & H).
  apply create_invoice_Ok in Hc as (-> & -> & _).
  apply bind_Ok in H as ([] & d3 & He & H). injection He as <-. injection H as _ <-.
  cbn [set_items set_invoices set_counters invoices]. unfold insert_row. rewrite rowcount_app. f_equal.
  unfold rowcount, select, discounts, of_subscription. cbn. rewrite bool_decide_true by done.
  apply Z.ltb_lt in Hn. by rewrite Hn.
Qed.

(** Two requests that looked for a discounted invoice before either issued
    one both grant the coupon: nothing locks the subscription in between. *)
Lemma racing_invoices_both_discount now1 now2 id1 id2 x p b n rate d i1 i2 d1 d2 :
  resolve_coupon_discount x d = (Ok n, d) → 0 < n →
  issue_read now1 id1 x p b n rate d = (Ok i1, d1) →
  issue_read now2 id2 x p b n rate d1 = (Ok i2, d2) →
  2 ≤ rowcount (discounts (subscription_id x)) (invoices d2).
Proof.
  intros _ Hn H1 H2. apply issue_read_discounts in H1, H2; [|done..].
  pose proof (rowcount_nonneg (discounts (subscription_id x)) (invoices d)). lia.
Qed.

End requests.

Module examples.
#[local] Existing Instance ascii_only.
Import Renewal.examples.

(** Two organizations of Maharashtra, GST at 18%; the first redeemed a coupon
    worth 100.00 at signup. *)
Definition mumbai : region := mk_region (u "Maharashtra") (u "IN").
Definition gst18 : TaxRate := mk_tax_rate 51 GST 1800 (u "IN") true.
Definition profile4 : BillingProfile := mk_profile 4 (u "1 Sea Road") mumbai false.
Definition signed_up : Subscription :=
  mk_subscription 71 4 61 30 ACTIVE MONTHLY 0 (days 31) None true false 0 None (Some 41%positive)
    None None None.
Definition redeemed : CouponUsage := mk_usage 41 4 (Some 71%positive) 0 10000.
Definition shop4 : Organization := mk_organization 4 false (u "four@shop.example") None.
Definition books : database :=
  Database [shop4] [monthly] [] [] [signed_up] [] [] [redeemed] [gst18] [profile4] [] [] [] [] [].

Lemma books_ok_start : books_ok books.
Proof.
  split; cbn.
  - constructor.
  - constructor.
  - split; [by intros r ?%not_elem_of_nil|done].
  - split; [by intros r ?%not_elem_of_nil|done].
  - split; [by intros r ?%not_elem_of_nil|done].
  - done.
  - by intros i ?%not_elem_of_nil.
  - by intros i ?%not_elem_of_nil.
  - by intros i ?%not_elem_of_nil.
  - by intros x ?%not_elem_of_nil.
Qed.

(** Day 1 of the model is 1 January 1970. *)
Definition history : list entry :=
  [ GenerateInvoice (days 1) 81 71; GenerateInvoice (days 2) 82 71;
    CreditNote (days 3) 81 None (cents 500);
    ManualInvoice (days 4) 83 4 [(1 # 3, 100)%Q; (1 # 3, 100)%Q; (1 # 3, 100)%Q];
    VoidInvoice 82 (Some 4%positive); PaymentCaptured (Some 71%positive) 91;
    OverdueSweep (days 40); GenerateInvoice (days 400) 84 71 ].
Lemma history_admissible : Forall admissible history.
Proof.
  repeat constructor; try (by vm_compute); cbn; unfold Qle; cbn; lia.
Qed.

Lemma documents_are_numbered_without_gaps_witness :
  NoDup (map invoice_number (invoices (posted week 14 mumbai 15 history books)))
  ∧ map invoice_number (invoices (posted week 14 mumbai 15 history books))
    = map u ["INV-1970-00001"; "INV-1970-00002"; "INV-1970-00003"; "INV-1971-00001"]%string.
Proof.
  destruct (documents_are_numbered_without_gaps week 14 mumbai 15 history books books_ok_start
    history_admissible) as (_ & _ & _ & H).
  split; [exact H|by vm_compute].
Defined.

Lemma coupon_is_granted_once_witness :
  rowcount (discounts 71) (invoices (posted week 14 mumbai 15 history books)) ≤ 1
  ∧ map discount_amount (invoices (posted week 14 mumbai 15 history books)) = [10000; 0; 0; 0].
Proof.
  destruct (coupon_is_granted_once week 14 mumbai 15 history books books_ok_start
    history_admissible) as [H _].
  split; [exact (H 71%positive)|by vm_compute].
Defined.

(** The first invoice, paid by the captured payment, and what follows. *)
Definition first : list entry := [GenerateInvoice (days 1) 81 71; MarkInvoicePaid 81 91].
Definition later : list entry := [VoidInvoice 81 (Some 4%positive); OverdueSweep (days 40)].
Lemma first_admissible : Forall admissible first.
Proof. repeat constructor. all: by vm_compute. Qed.
Lemma issued_invoices_are_final_witness :
  ∃ i, by_id 81%positive (invoices (posted week 14 mumbai 15 first books)) = Some i
  ∧ by_id 81%positive (invoices (posted week 14 mumbai 15 later (posted week 14 mumbai 15 first books)))
    = Some i.
Proof.
  destruct (books_after week 14 mumbai 15 first books books_ok_start first_admissible) as [B _].
  destruct (by_id 81%positive (invoices (posted week 14 mumbai 15 first books))) as [i|] eqn:E;
    [|by vm_compute in E].
  exists i. split; [done|].
  destruct (issued_invoices_are_final week 14 mumbai 15 later _ 81 i B) as (i' & H & _ & _ & Hf & _).
  - by repeat constructor.
  - exact E.
  - rewrite Hf in H; [exact H|]. vm_compute in E. injection E as <-. left.
Defined.

(** Three thirds of a hundred: the lines print 99.99, the subtotal 100.00. *)
Lemma every_invoice_adds_up_witness :
  ∃ i, i ∈ invoices (posted week 14 mumbai 15 history books) ∧ subtotal i = 10000
  ∧ sum_of (lines_of (invoice_id i) (posted week 14 mumbai 15 history books)) = 9999
  ∧ lines_close (subtotal i) (lines_of (invoice_id i) (posted week 14 mumbai 15 history books)).
Proof.
  destruct (by_id 83%positive (invoices (posted week 14 mumbai 15 history books))) as [i|] eqn:E;
    [|by vm_compute in E].
  pose proof (by_id_Some _ _ _ E) as [Hin _]. exists i. split; [done|].
  destruct (every_invoice_adds_up week 14 mumbai 15 history books i books_ok_start
    history_admissible Hin) as (_ & H & _).
  split; [|split; [|exact H]]; vm_compute in E; injection E as <-; by vm_compute.
Defined.

Lemma invoice_is_issued_witness :
  ∃ i d', generate_invoice_for_subscription mumbai 15 (days 1) 81 71 books = (Ok i, d')
  ∧ discount_amount i = 10000 ∧ subtotal i = 99900
  ∧ total_amount i = 89900 + tax_amount (breakdown i).
Proof.
  destruct (invoice_is_issued mumbai 15 (days 1) 81 71 books signed_up monthly profile4
    books_ok_start) as (i & d' & R & _ & _ & _ & Hs & Hd & _ & Ht);
    [by vm_compute|reflexivity|reflexivity|reflexivity|reflexivity|reflexivity|].
  exists i, d'. split; [exact R|]. split; [exact Hd|]. split; [exact Hs|exact Ht].
Defined.

Lemma credit_notes_exceed_the_invoice_witness :
  ∃ i d', by_id 81%positive (invoices d') = Some i ∧ total_amount i = 106082
  ∧ credited 81 d' = 2 * 106082.
Proof.
  destruct (books_after week 14 mumbai 15 first books books_ok_start first_admissible) as [B _].
  destruct (by_id 81%positive (invoices (posted week 14 mumbai 15 first books))) as [i|] eqn:E;
    [|by vm_compute in E].
  destruct (credit_notes_exceed_the_invoice (days 3) (days 4) 81 _ i B)
    as (n & d' & _ & H & Hc); [by vm_compute..|exact E| | | |].
  - vm_compute in E. by injection E as <-.
  - vm_compute in E. by injection E as <-.
  - intros y. unfold last_of. rewrite (proj2 (select_one_None _ _)); [done|].
    intros c Hc. vm_compute in Hc. apply list_elem_of_singleton in Hc as ->.
    apply bool_decide_eq_false. unfold counter_key_of. intros H. discriminate H.
  - exists i, d'. split; [exact H|]. rewrite Hc.
    vm_compute in E. injection E as <-. split; by vm_compute.
Defined.
End examples.
End InvoiceRequests.
