(* ===== verification/Policy.v ===== *)
(** The policy engine.

    Models [src/backend/app/domains/policy]: policies, their versions and
    assignments ([models.py], [repository.py]), the operations of
    [PolicyService] and the resolution of the rules that apply to someone
    somewhere ([service.py]), and the access tiers of [access_tier.py].  A
    rules payload is the JSON object of its column; the pydantic schema it is
    validated with is the parameter [model_validate].  Names and descriptions
    are left out, since no operation reads them. *)

From Stdlib Require Import QArith Qround.
From S2P Require Import Prelude Table PyStr Rbac.

Module Policy.
Import Scope.
#[local] Open Scope Z_scope.

(** ** JSON *)
Inductive value :=
| Null | Bool (b : bool) | Int (n : Z) | Float (q : Q) | Str (s : pystr)
| Arr (l : list value) | Obj (l : list (pystr * value)).
Abbreviation rules := (gmap pystr value).
Definition rule (k : string) (r : rules) : value := default Null (r !! u k).
(** [rules.get(k)] where the reader expects an optional integer. *)
Definition int_rule (k : string) (r : rules) : option Z :=
  match rule k r with Int n => Some n | _ => None end.
Definition of_int (o : option Z) : value := match o with Some n => Int n | None => Null end.

(** ** [constants.py] *)
Inductive PolicyType :=
| AUTHN | SESSION | BANDWIDTH | FUP | BUSINESS_HOURS | ACCESS | VLAN | QOS | ROUTING
| VOUCHER_POLICY | DEVICE_POLICY.
#[export] Instance policy_type_eq_dec : EqDecision PolicyType.
Proof. solve_decision. Defined.

Inductive PolicyAssignmentTargetType := NONE | USER | ROLE | GUEST | MEMBERS.
#[export] Instance target_type_eq_dec : EqDecision PolicyAssignmentTargetType.
Proof. solve_decision. Defined.
Definition target_value (t : PolicyAssignmentTargetType) : pystr :=
  match t with
  | NONE => u "none" | USER => u "user" | ROLE => u "role" | GUEST => u "guest" | MEMBERS => u "members"
  end.
(** [PolicyAssignmentTargetType(raw)]. *)
Definition target_of_value (raw : pystr) : option PolicyAssignmentTargetType :=
  List.find (λ t, bool_decide (target_value t = raw)) [NONE; USER; ROLE; GUEST; MEMBERS].

Inductive PolicyVersionStatus := DRAFT | PUBLISHED.
#[export] Instance version_status_eq_dec : EqDecision PolicyVersionStatus.
Proof. solve_decision. Defined.
Definition POLICY_VERSION_STATUS_TRANSITIONS (s : PolicyVersionStatus) : list PolicyVersionStatus :=
  match s with DRAFT => [PUBLISHED] | PUBLISHED => [] end.

Definition PLATFORM_DEFAULT_RULES (t : PolicyType) : rules :=
  match t with
  | SESSION => list_to_map
      [(u "session_timeout_minutes", Int 240); (u "max_concurrent_sessions_per_guest", Int 20);
       (u "idle_timeout_minutes", Int 30); (u "termination_reconnect_cooldown_minutes", Int 60);
       (u "reconnect_grace_minutes", Int 30)]
  | AUTHN => list_to_map [(u "max_attempts_per_window", Int 30); (u "window_minutes", Int 1)]
  | DEVICE_POLICY => list_to_map
      [(u "max_devices_per_guest", Int 3); (u "require_known_device", Bool false)]
  | _ => ∅
  end.

(** ** [exceptions.py] *)
Inductive error :=
| PolicyNotFoundError | PolicyVersionNotFoundError | PolicyAssignmentNotFoundError
| CrossOrganizationPolicyAccessError
| InvalidPolicyVersionStatusTransitionError (current target : PolicyVersionStatus)
| PolicyRulesValidationError | PolicyAssignmentRequiresPublishedVersionError
| PolicyAssignmentScopeIdRequiredError | PolicyAssignmentScopeIdNotAllowedError
| InvalidPolicyAssignmentScopeTypeError
| PolicyAssignmentTargetIdRequiredError | PolicyAssignmentTargetIdNotAllowedError
| InvalidPolicyAssignmentTargetTypeError
| PolicyAssignmentTargetUserNotFoundError | PolicyAssignmentTargetRoleNotFoundError
| PolicyAssignmentTargetGuestNotFoundError
| PolicyAssignmentGuestAlreadyMappedError (existing : uuid)
| PolicyRollbackTargetNotPublishedError | PolicyRollbackTargetMismatchError
| OrganizationNotFoundError | LocationNotFoundError | CrossOrganizationLocationAccessError
(** The primary key of a new row is taken. *)
| DuplicateRecordError.

(** ** [models.py] *)
Record Policy := mk_policy {
  policy_id : uuid;
  policy_org : option uuid;
  policy_type : PolicyType;
  policy_active : bool;
  current_version_id : option uuid;
}.
#[export] Instance policy_has_id : HasId Policy := policy_id.

Record PolicyVersion := mk_version {
  version_id : uuid;
  version_policy : uuid;
  version_number : Z;
  version_status : PolicyVersionStatus;
  version_rules : rules;
  published_at : option datetime;
}.
#[export] Instance version_has_id : HasId PolicyVersion := version_id.

Record PolicyAssignment := mk_assignment {
  assignment_id : uuid;
  assignment_policy : uuid;
  scope_type : ScopeType;
  scope_id : option uuid;
  target_type : PolicyAssignmentTargetType;
  target_id : option uuid;
  priority : Z;
  assignment_active : bool;
  created_at : datetime;
}.
#[export] Instance assignment_has_id : HasId PolicyAssignment := assignment_id.

(** The rows of other domains that are looked up. *)
Record Organization := mk_organization { organization_id : uuid; parent_organization : option uuid }.
#[export] Instance organization_has_id : HasId Organization := organization_id.
Record Location := mk_location { location_id : uuid; location_org : uuid }.
#[export] Instance location_has_id : HasId Location := location_id.
(** A role or a guest: its organization, if it has one. *)
Record Owned := mk_owned { owned_id : uuid; owned_org : option uuid }.
#[export] Instance owned_has_id : HasId Owned := owned_id.

Record database := mk_database {
  policies : list Policy;
  versions : list PolicyVersion;
  assignments : list PolicyAssignment;
  organizations : list Organization;
  locations : list Location;
  users : list uuid;
  roles : list Owned;
  guests : list Owned;
}.
Abbreviation op := (M database error).
Definition set_policies f d := mk_database (f (policies d)) (versions d) (assignments d)
  (organizations d) (locations d) (users d) (roles d) (guests d).
Definition set_versions f d := mk_database (policies d) (f (versions d)) (assignments d)
  (organizations d) (locations d) (users d) (roles d) (guests d).
Definition set_assignments f d := mk_database (policies d) (versions d) (f (assignments d))
  (organizations d) (locations d) (users d) (roles d) (guests d).

Definition with_current (v : option uuid) (p : Policy) : Policy :=
  mk_policy (policy_id p) (policy_org p) (policy_type p) (policy_active p) v.
Definition deactivated (p : Policy) : Policy :=
  mk_policy (policy_id p) (policy_org p) (policy_type p) false (current_version_id p).
Definition published (now : datetime) (v : PolicyVersion) : PolicyVersion :=
  mk_version (version_id v) (version_policy v) (version_number v) PUBLISHED (version_rules v) (Some now).
Definition released (a : PolicyAssignment) : PolicyAssignment :=
  mk_assignment (assignment_id a) (assignment_policy a) (scope_type a) (scope_id a) (target_type a)
    (target_id a) (priority a) false (created_at a).

(** ** [repository.py] *)
Definition get_policy_by_id (k : uuid) (d : database) : option Policy := by_id k (policies d).
Definition get_version_by_id (k : uuid) (d : database) : option PolicyVersion := by_id k (versions d).
Definition get_assignment_by_id (k : uuid) (d : database) : option PolicyAssignment :=
  by_id k (assignments d).
Definition update_policy (p : Policy) (f : Policy → Policy) : op Policy :=
  _ ← modify (set_policies (set_row f (policy_id p))); mret (f p).
Definition update_version (v : PolicyVersion) (f : PolicyVersion → PolicyVersion) : op PolicyVersion :=
  _ ← modify (set_versions (set_row f (version_id v))); mret (f v).
Definition update_assignment (a : PolicyAssignment) (f : PolicyAssignment → PolicyAssignment) :
    op PolicyAssignment :=
  _ ← modify (set_assignments (set_row f (assignment_id a))); mret (f a).
Definition get_next_version_number (p : uuid) (d : database) : Z :=
  foldl Z.max 0 (map version_number (select (λ v, bool_decide (version_policy v = p)) (versions d))) + 1.
Definition list_assignments_for_policy (p : uuid) (d : database) : list PolicyAssignment :=
  select (λ a, bool_decide (assignment_policy a = p)) (assignments d).

(** A join with the policy of the assignment. *)
Definition policy_satisfies (test : Policy → bool) (d : database) (a : PolicyAssignment) : bool :=
  match get_policy_by_id (assignment_policy a) d with Some p => test p | None => false end.

Record query := mk_query {
  q_org : option uuid; q_location : option uuid; q_user : option uuid; q_roles : list uuid;
  q_guest : option uuid }.
Definition covers_scope (q : query) (a : PolicyAssignment) : bool :=
  match scope_type a with
  | GLOBAL => true
  | ORGANIZATION => match q_org q with Some o => bool_decide (scope_id a = Some o) | None => false end
  | LOCATION => match q_location q with Some l => bool_decide (scope_id a = Some l) | None => false end
  | ROUTER | DEVICE => false
  end.
Definition covers_target (q : query) (a : PolicyAssignment) : bool :=
  match target_type a with
  | NONE => true
  | USER => match q_user q with Some k => bool_decide (target_id a = Some k) | None => false end
  | GUEST => match q_guest q with Some k => bool_decide (target_id a = Some k) | None => false end
  | ROLE => match target_id a with Some k => bool_decide (k ∈ q_roles q) | None => false end
  | MEMBERS => false
  end.
Definition live_policy (t : PolicyType) (p : Policy) : bool :=
  policy_active p && bool_decide (policy_type p = t) && bool_decide (current_version_id p ≠ None).
Definition list_candidate_assignments (t : PolicyType) (q : query) (d : database) :
    list PolicyAssignment :=
  select (λ a, assignment_active a && policy_satisfies (live_policy t) d a
               && covers_scope q a && covers_target q a) (assignments d).

Definition find_active_target_assignment (t : PolicyType) (tt : PolicyAssignmentTargetType)
    (target : uuid) (exclude_policy org : option uuid) (d : database) : option PolicyAssignment :=
  least created_at (select (λ a, assignment_active a && bool_decide (target_type a = tt)
    && bool_decide (target_id a = Some target)
    && policy_satisfies (λ p, policy_active p && bool_decide (policy_type p = t)
         && match org with Some o => bool_decide (policy_org p = Some o) | None => true end) d a
    && match exclude_policy with Some k => bool_decide (assignment_policy a ≠ k) | None => true end)
    (assignments d)).
Definition get_guest_organization_id (k : uuid) (d : database) : option uuid :=
  g ← by_id k (guests d); owned_org g.

(** ** The lookups in other domains *)
Definition get_organization (k : uuid) : op Organization :=
  row ← gets (λ d, by_id k (organizations d)); of_option row OrganizationNotFoundError.
Definition get_location (k : uuid) (requesting : option uuid) : op Location :=
  row ← gets (λ d, by_id k (locations d));
  l ← of_option row LocationNotFoundError;
  match requesting with
  | None => mret l
  | Some org =>
      if bool_decide (location_org l = org) then mret l
      else
        o ← get_organization (location_org l);
        _ ← raise_if (bool_decide (parent_organization o ≠ Some org)) CrossOrganizationLocationAccessError;
        mret l
  end.

(** ** [validators.py] *)
Definition validate_assignment_scope (raw : pystr) (k : option uuid) : op ScopeType :=
  match of_value raw, k with
  | None, _ => raise InvalidPolicyAssignmentScopeTypeError
  | Some GLOBAL, Some _ => raise PolicyAssignmentScopeIdNotAllowedError
  | Some GLOBAL, None => mret GLOBAL
  | Some _, None => raise PolicyAssignmentScopeIdRequiredError
  | Some s, Some _ => mret s
  end.
Definition validate_assignment_target (raw : pystr) (k : option uuid) :
    op PolicyAssignmentTargetType :=
  match target_of_value raw, k with
  | None, _ => raise InvalidPolicyAssignmentTargetTypeError
  | Some NONE, Some _ | Some MEMBERS, Some _ => raise PolicyAssignmentTargetIdNotAllowedError
  | Some NONE, None => mret NONE
  | Some MEMBERS, None => mret MEMBERS
  | Some _, None => raise PolicyAssignmentTargetIdRequiredError
  | Some t, Some _ => mret t
  end.

(** ** [PolicyService] *)
Section service.
Variable model_validate : PolicyType → rules → option rules.

Definition fresh {R} `{HasId R} (k : uuid) (rows : database → list R) : op unit :=
  taken ← gets (λ d, bool_decide (by_id k (rows d) ≠ None));
  raise_if taken DuplicateRecordError.

Definition enforce_read_scope (org requesting : option uuid) : op unit :=
  raise_if (match org, requesting with Some o, Some r => bool_decide (o ≠ r) | _, _ => false end)
    CrossOrganizationPolicyAccessError.

Definition create_policy (id : uuid) (requesting org : option uuid) (t : PolicyType) : op Policy :=
  _ ← match org with
      | None => raise_if (bool_decide (requesting ≠ None)) CrossOrganizationPolicyAccessError
      | Some o =>
          _ ← raise_if (match requesting with Some r => bool_decide (o ≠ r) | None => false end)
                CrossOrganizationPolicyAccessError;
          _ ← get_organization o;
          mret tt
      end;
  _ ← fresh id policies;
  let p := mk_policy id org t true None in
  _ ← modify (set_policies (insert_row p));
  mret p.

Definition get_policy (k : uuid) (requesting : option uuid) : op Policy :=
  row ← gets (get_policy_by_id k);
  p ← of_option row PolicyNotFoundError;
  _ ← enforce_read_scope (policy_org p) requesting;
  mret p.

Definition deactivate_policy (k : uuid) (requesting : option uuid) : op Policy :=
  p ← get_policy k requesting;
  update_policy p deactivated.

Definition create_version (id k : uuid) (requesting : option uuid) (raw : rules) : op PolicyVersion :=
  p ← get_policy k requesting;
  r ← of_option (model_validate (policy_type p) raw) PolicyRulesValidationError;
  n ← gets (get_next_version_number (policy_id p));
  _ ← fresh id versions;
  let v := mk_version id (policy_id p) n DRAFT r None in
  _ ← modify (set_versions (insert_row v));
  mret v.

Definition publish_version (now : datetime) (k version : uuid) (requesting : option uuid) :
    op PolicyVersion :=
  p ← get_policy k requesting;
  row ← gets (get_version_by_id version);
  v ← of_option row PolicyVersionNotFoundError;
  _ ← raise_if (bool_decide (version_policy v ≠ policy_id p)) PolicyVersionNotFoundError;
  _ ← raise_if (bool_decide (PUBLISHED ∉ POLICY_VERSION_STATUS_TRANSITIONS (version_status v)))
        (InvalidPolicyVersionStatusTransitionError (version_status v) PUBLISHED);
  v ← update_version v (published now);
  _ ← update_policy p (with_current (Some (version_id v)));
  mret v.

Definition rollback (k version : uuid) (requesting : option uuid) : op Policy :=
  p ← get_policy k requesting;
  row ← gets (get_version_by_id version);
  v ← of_option row PolicyVersionNotFoundError;
  _ ← raise_if (bool_decide (version_policy v ≠ policy_id p)) PolicyRollbackTargetMismatchError;
  _ ← raise_if (bool_decide (version_status v ≠ PUBLISHED)) PolicyRollbackTargetNotPublishedError;
  update_policy p (with_current (Some (version_id v))).

(** *** Assignments *)
Definition is_owned_by (target owner : uuid) (d : database) : bool :=
  bool_decide (target = owner)
  || match by_id target (organizations d) with
     | Some o => bool_decide (parent_organization o = Some owner)
     | None => false
     end.
Definition owned_by (target : option uuid) (owner : option uuid) (d : database) : bool :=
  match target, owner with Some t, Some o => is_owned_by t o d | _, _ => true end.

Definition check_scope (s : ScopeType) (k owner : option uuid) : op unit :=
  match s, k with
  | ORGANIZATION, Some k =>
      _ ← get_organization k;
      mine ← gets (owned_by (Some k) owner);
      raise_if (negb mine) CrossOrganizationPolicyAccessError
  | LOCATION, Some k => _ ← get_location k owner; mret tt
  | _, _ => mret tt
  end.
Definition check_target (t : PolicyAssignmentTargetType) (k owner : option uuid) : op unit :=
  match t, k with
  | USER, Some k =>
      known ← gets (λ d, bool_decide (k ∈ users d));
      raise_if (negb known) PolicyAssignmentTargetUserNotFoundError
  | ROLE, Some k =>
      row ← gets (λ d, by_id k (roles d));
      r ← of_option row PolicyAssignmentTargetRoleNotFoundError;
      mine ← gets (owned_by (owned_org r) owner);
      raise_if (negb mine) PolicyAssignmentTargetRoleNotFoundError
  | GUEST, Some k =>
      org ← gets (get_guest_organization_id k);
      o ← of_option org PolicyAssignmentTargetGuestNotFoundError;
      mine ← gets (owned_by (Some o) owner);
      raise_if (negb mine) PolicyAssignmentTargetGuestNotFoundError
  | _, _ => mret tt
  end.
(** One guest, one group. *)
Definition check_group (p : Policy) (t : PolicyAssignmentTargetType) (k : option uuid) : op unit :=
  match k with
  | Some k =>
      if bool_decide (t = GUEST) && bool_decide (policy_type p = BANDWIDTH) then
        existing ← gets (find_active_target_assignment BANDWIDTH GUEST k (Some (policy_id p))
                           (policy_org p));
        match existing with
        | Some a => raise (PolicyAssignmentGuestAlreadyMappedError (assignment_id a))
        | None => mret tt
        end
      else mret tt
  | None => mret tt
  end.

Definition create_assignment (now : datetime) (id k : uuid) (requesting : option uuid)
    (raw_scope : pystr) (scope : option uuid) (priority : Z) (raw_target : pystr)
    (target : option uuid) : op PolicyAssignment :=
  p ← get_policy k requesting;
  _ ← raise_if (bool_decide (current_version_id p = None)) PolicyAssignmentRequiresPublishedVersionError;
  let owner := match policy_org p with Some o => Some o | None => requesting end in
  s ← validate_assignment_scope raw_scope scope;
  t ← validate_assignment_target raw_target target;
  _ ← raise_if (bool_decide (s = GLOBAL) && bool_decide (t = NONE) && bool_decide (owner ≠ None))
        CrossOrganizationPolicyAccessError;
  _ ← check_scope s scope owner;
  _ ← check_target t target owner;
  _ ← check_group p t target;
  _ ← fresh id assignments;
  let a := mk_assignment id (policy_id p) s scope t target priority true now in
  _ ← modify (set_assignments (insert_row a));
  mret a.

Definition names_no_one (t : PolicyAssignmentTargetType) : bool := bool_decide (t ∈ [NONE; MEMBERS]).
Definition release_members_of_unmapped_scope (p : Policy) (unmapped : PolicyAssignment) : op unit :=
  if negb (names_no_one (target_type unmapped)) || bool_decide (scope_id unmapped = None) then mret tt
  else
    rows ← gets (list_assignments_for_policy (policy_id p));
    let siblings := select (λ a, assignment_active a
      && bool_decide (assignment_id a ≠ assignment_id unmapped)
      && bool_decide (scope_type a = scope_type unmapped)
      && bool_decide (scope_id a = scope_id unmapped)) rows in
    if existsb (λ a, names_no_one (target_type a)) siblings then mret tt
    else
      _ ← collect (λ a,
            if bool_decide (target_type a ≠ GUEST) then mret None
            else b ← update_assignment a released; mret (Some b)) siblings;
      mret tt.
Definition deactivate_assignment (k assignment : uuid) (requesting : option uuid) :
    op PolicyAssignment :=
  p ← get_policy k requesting;
  row ← gets (get_assignment_by_id assignment);
  a ← of_option row PolicyAssignmentNotFoundError;
  _ ← raise_if (bool_decide (assignment_policy a ≠ policy_id p)) PolicyAssignmentNotFoundError;
  b ← update_assignment a released;
  _ ← release_members_of_unmapped_scope p b;
  mret b.

(** The group a guest is mapped into, as its organization may see it. *)
Definition get_guest_group_assignment (guest : uuid) (requesting : option uuid) (d : database) :
    option PolicyAssignment :=
  match find_active_target_assignment BANDWIDTH GUEST guest None requesting d with
  | None => None
  | Some a =>
      match requesting with
      | None => Some a
      | Some o =>
          match get_policy_by_id (assignment_policy a) d with
          | Some p => if bool_decide (policy_org p = Some o) then Some a else None
          | None => None
          end
      end
  end.
End service.

(** ** Resolution *)
Definition SCOPE_SPECIFICITY (s : ScopeType) : Z :=
  match s with GLOBAL => 0 | ORGANIZATION => 1 | LOCATION => 2 | ROUTER | DEVICE => -1 end.
Definition TARGET_SPECIFICITY (t : PolicyAssignmentTargetType) : Z :=
  match t with NONE => 0 | ROLE => 1 | USER => 2 | GUEST => 3 | MEMBERS => -1 end.
(** The canonical texts of two UUIDs compare as the UUIDs do. *)
Definition resolution_key (a : PolicyAssignment) : list Z :=
  [TARGET_SPECIFICITY (target_type a); SCOPE_SPECIFICITY (scope_type a); priority a; created_at a;
   Z.pos (assignment_id a)].
(** Tuples compare lexicographically. *)
Fixpoint lex_leb (l1 l2 : list Z) : bool :=
  match l1, l2 with
  | [], _ => true
  | _, [] => false
  | x :: l1, y :: l2 => (x <? y) || ((x =? y) && lex_leb l1 l2)
  end.
(** [max(candidates, key=...)]: the first of the greatest. *)
Definition better (best a : PolicyAssignment) : PolicyAssignment :=
  if lex_leb (resolution_key a) (resolution_key best) then best else a.
Definition resolve (candidates : list PolicyAssignment) : option PolicyAssignment :=
  match candidates with [] => None | a :: l => Some (foldl better a l) end.

Definition parent_of (org : uuid) (d : database) : option uuid :=
  o ← by_id org (organizations d); parent_organization o.
(** [_drop_foreign_candidates]; the tenant's parent is read once. *)
Definition drop_foreign_candidates (tenant : option uuid) (d : database)
    (candidates : list PolicyAssignment) : list PolicyAssignment :=
  match tenant with
  | None => candidates
  | Some org =>
      let parent := parent_of org d in
      select (λ a,
        match p ← get_policy_by_id (assignment_policy a) d; policy_org p with
        | None => true
        | Some o => bool_decide (o = org) || bool_decide (parent = Some o)
        end) candidates
  end.

Definition resolved_tenant (q : query) : op (option uuid) :=
  match q_location q, q_org q with
  | Some l, Some o => _ ← get_location l (Some o); mret (Some o)
  | Some l, None => x ← get_location l None; mret (Some (location_org x))
  | None, o => mret o
  end.
(** The rules, and the assignment they come from ([None]: the platform's). *)
Definition resolve_effective_policy (t : PolicyType) (q : query) :
    op (rules * option PolicyAssignment) :=
  tenant ← resolved_tenant q;
  candidates ← gets (list_candidate_assignments t q);
  kept ← gets (λ d, drop_foreign_candidates tenant d candidates);
  match resolve kept with
  | None => mret (PLATFORM_DEFAULT_RULES t, None)
  | Some winner =>
      policy ← gets (get_policy_by_id (assignment_policy winner));
      match p ← policy; current_version_id p with
      | None => mret (PLATFORM_DEFAULT_RULES t, None)
      | Some v =>
          version ← gets (get_version_by_id v);
          mret (match version with Some v => version_rules v | None => ∅ end, Some winner)
      end
  end.

(** ** [access_tier.py] *)
Inductive reset_period := PER_SESSION | RESET_DAILY | RESET_WEEKLY | RESET_MONTHLY.
#[export] Instance reset_period_eq_dec : EqDecision reset_period.
Proof. solve_decision. Defined.

(** [int(value)] of a float truncates. *)
Definition positive_int_or_none (allow_zero : bool) (v : value) : option Z :=
  match match v with Int n => Some n | Float q => Some (Z.quot (Qnum q) (Zpos (Qden q))) | _ => None end with
  | Some n => if (n <? 0) || ((n =? 0) && negb allow_zero) then None else Some n
  | None => None
  end.

Definition field (k : string) (l : list (pystr * value)) : value :=
  match List.find (λ e, bool_decide (e.1 = u k)) l with Some e => e.2 | None => Null end.
Definition truthy (v : value) : bool :=
  match v with
  | Null => false
  | Bool b => b
  | Int n => negb (n =? 0)
  | Float q => negb (Qnum q =? 0)
  | Str s => bool_decide (s ≠ [])
  | Arr l => negb (bool_decide (length l = 0%nat))
  | Obj l => negb (bool_decide (length l = 0%nat))
  end.

Section tiers.
Context {PU : PyUnicode}.

Definition replace_char (c by_ : N) (s : pystr) : pystr := map (λ x, if (x =? c)%N then by_ else x) s.
Definition normalize_reset_period (v : value) : option reset_period :=
  match v with
  | Str s =>
      let key := replace_char 45 32 (replace_char 95 32 (lower (strip s))) in
      if bool_decide (key ∈ [u "per session"; u "session"; u "each session"]) then Some PER_SESSION
      else if bool_decide (key ∈ [u "daily"; u "day"; u "per day"]) then Some RESET_DAILY
      else if bool_decide (key ∈ [u "weekly"; u "week"; u "per week"]) then Some RESET_WEEKLY
      else if bool_decide (key ∈ [u "monthly"; u "month"; u "per month"]) then Some RESET_MONTHLY
      else None
  | _ => None
  end.
(** The text of a unit that is no string is no unit. *)
Definition unit_to_mb (v : value) : option Z :=
  match if truthy v then v else Str (u "MB") with
  | Str s =>
      let key := lower (strip s) in
      if bool_decide (key = u "mb") then Some 1
      else if bool_decide (key = u "gb") then Some 1024
      else if bool_decide (key = u "tb") then Some (1024 * 1024)
      else None
  | _ => None
  end.
(** The factor is a power of two: the product of floats is exact. *)
Definition data_limit_to_mb (l : list (pystr * value)) : option Z :=
  match field "quota" l with
  | Int n => if n <? 0 then None else (λ f, n * f) <$> unit_to_mb (field "unit" l)
  | Float q => if Qnum q <? 0 then None
               else (λ f, Qceiling (q * inject_Z f)) <$> unit_to_mb (field "unit" l)
  | _ => None
  end.

Record AccessTier := mk_tier {
  tier_policy : uuid;
  tier_session_timeout : option Z;
  tier_idle_timeout : option Z;
  tier_devices : option Z;
  tier_daily_limit : option Z;
  tier_data_limit : option Z;
  tier_data_period : option reset_period;
  tier_login_hours : option (list (pystr * value));
}.
Definition access_tier_from_rules (policy : uuid) (r : rules) : AccessTier :=
  let data := match rule "data_limit" r with Obj l => Some l | _ => None end in
  let period := l ← data; normalize_reset_period (field "resets" l) in
  let limit := _ ← period; l ← data; data_limit_to_mb l in
  mk_tier policy (positive_int_or_none false (rule "session_timeout_minutes" r))
    (positive_int_or_none false (rule "idle_timeout_minutes" r))
    (positive_int_or_none false (rule "devices_per_user" r))
    (positive_int_or_none true (rule "daily_limit_minutes" r))
    limit (match limit with Some _ => period | None => None end)
    (match rule "login_hours" r with Obj l => Some l | _ => None end).
End tiers.

(** [session_data_limit_mb]: a zero is never stamped on a session. *)
Definition session_data_limit_mb (t : AccessTier) : option Z :=
  if bool_decide (tier_data_period t = Some PER_SESSION) then
    n ← tier_data_limit t; if n =? 0 then None else Some n
  else None.

Definition put (k : string) (v : value) (r : rules) : rules := <[u k := v]> r.
Definition nonzero (n : Z) : value := if n =? 0 then Null else Int n.
Definition period_key (p : reset_period) : option string :=
  match p with
  | PER_SESSION => None
  | RESET_DAILY => Some "daily_data_limit_mb"
  | RESET_WEEKLY => Some "weekly_data_limit_mb"
  | RESET_MONTHLY => Some "monthly_data_limit_mb"
  end%string.
(** The overrides, applied to [r]. *)
Definition with_tier_overrides (t : PolicyType) (tier : AccessTier) (r : rules) : rules :=
  let opt k (o : option Z) r := match o with Some n => put k (Int n) r | None => r end in
  match t with
  | SESSION =>
      opt "idle_timeout_minutes"%string (tier_idle_timeout tier)
        (opt "session_timeout_minutes"%string (tier_session_timeout tier) r)
  | DEVICE_POLICY => opt "max_devices_per_guest"%string (tier_devices tier) r
  | FUP =>
      let r := match tier_daily_limit tier with
               | Some n => put "daily_time_limit_minutes" (nonzero n) r
               | None => r
               end in
      match tier_data_period tier with
      | None => r
      | Some p =>
          let r := put "daily_data_limit_mb" Null
                     (put "weekly_data_limit_mb" Null (put "monthly_data_limit_mb" Null r)) in
          match period_key p, tier_data_limit tier with
          | Some k, Some n => if n =? 0 then r else put k (Int n) r
          | _, _ => r
          end
      end
  | _ => r
  end.

Section access_tier.
Context {PU : PyUnicode}.

Fixpoint insert_desc (a : PolicyAssignment) (l : list PolicyAssignment) : list PolicyAssignment :=
  match l with
  | [] => [a]
  | b :: l => if lex_leb (resolution_key b) (resolution_key a) then a :: b :: l
              else b :: insert_desc a l
  end.
Fixpoint first_tier (org : uuid) (d : database) (l : list PolicyAssignment) : option AccessTier :=
  match l with
  | [] => None
  | a :: l =>
      match get_policy_by_id (assignment_policy a) d with
      | None => first_tier org d l
      | Some p =>
          match current_version_id p with
          | None => first_tier org d l
          | Some v =>
              if match policy_org p with Some o => bool_decide (o ≠ org) | None => false end
              then first_tier org d l
              else match get_version_by_id v d with
                   | None => first_tier org d l
                   | Some v => Some (access_tier_from_rules (policy_id p) (version_rules v))
                   end
          end
      end
  end.
Definition resolve_access_tier (org location guest : option uuid) (d : database) :
    option AccessTier :=
  match guest, org with
  | Some g, Some o =>
      let mapped := select (λ a, bool_decide (target_type a = GUEST) && bool_decide (target_id a = Some g))
        (list_candidate_assignments BANDWIDTH (mk_query org location None [] guest) d) in
      first_tier o d (foldr insert_desc [] mapped)
  | _, _ => None
  end.
End access_tier.

(** ** The winner of a resolution *)
Lemma lex_leb_refl l : lex_leb l l = true.
Proof. induction l as [|x l IH]; [done|]. cbn. by rewrite Z.ltb_irrefl, Z.eqb_refl, IH. Qed.
Lemma lex_leb_total l1 : ∀ l2, lex_leb l1 l2 = true ∨ lex_leb l2 l1 = true.
Proof.
  induction l1 as [|x l1 IH]; intros [|y l2]; [by left..|by right|]. cbn.
  destruct (Z.lt_total x y) as [H|[->|H]].
  - left. by apply Z.ltb_lt in H as ->.
  - rewrite !Z.ltb_irrefl, Z.eqb_refl. apply IH.
  - right. by apply Z.ltb_lt in H as ->.
Qed.
Lemma lex_leb_trans l1 : ∀ l2 l3, lex_leb l1 l2 = true → lex_leb l2 l3 = true → lex_leb l1 l3 = true.
Proof.
  induction l1 as [|x l1 IH]; intros [|y l2] [|z l3]; try done. cbn.
  rewrite !orb_true_iff, !andb_true_iff, !Z.ltb_lt, !Z.eqb_eq.
  intros [H1|[-> H1]] [H2|[-> H2]]; [left; lia|left; lia|left; lia|right].
  split; [done|by eapply IH].
Qed.
Lemma lex_leb_antisym l1 : ∀ l2, length l1 = length l2 →
  lex_leb l1 l2 = true → lex_leb l2 l1 = true → l1 = l2.
Proof.
  induction l1 as [|x l1 IH]; intros [|y l2] Hlen; try done. cbn in *.
  rewrite !orb_true_iff, !andb_true_iff, !Z.ltb_lt, !Z.eqb_eq.
  intros [H1|[-> H1]] [H2|[Hyx H2]]; try lia. f_equal. apply IH; [congruence|done..].
Qed.

Definition outranks (b a : PolicyAssignment) : Prop :=
  lex_leb (resolution_key a) (resolution_key b) = true.
Lemma better_outranks best a : outranks (better best a) best ∧ outranks (better best a) a.
Proof.
  unfold better, outranks. destruct (lex_leb (resolution_key a) (resolution_key best)) eqn:E.
  - split; [apply lex_leb_refl|done].
  - split; [|apply lex_leb_refl]. by destruct (lex_leb_total (resolution_key a) (resolution_key best)); congruence.
Qed.
Lemma foldl_better l : ∀ best, let w := foldl better best l in
  (w = best ∨ w ∈ l) ∧ outranks w best ∧ ∀ a, a ∈ l → outranks w a.
Proof.
  induction l as [|x l IH]; intros best; cbn zeta; cbn [foldl].
  { split; [by left|]. split; [apply lex_leb_refl|]. intros a Ha. by apply not_elem_of_nil in Ha. }
  destruct (IH (better best x)) as (Hin & Hbest & Hall). destruct (better_outranks best x) as [Hb Hx].
  split; [|split].
  - destruct Hin as [->|]; [|right; by right]. unfold better. destruct (lex_leb _ _); [by left|right; left].
  - by eapply lex_leb_trans.
  - intros a [->|Ha]%elem_of_cons; [by eapply lex_leb_trans|by apply Hall].
Qed.
Lemma resolve_Some l w : resolve l = Some w → w ∈ l ∧ ∀ a, a ∈ l → outranks w a.
Proof.
  destruct l as [|x l]; [done|]. cbn. intros [= <-]. destruct (foldl_better l x) as (Hin & Hx & Hall).
  split; [destruct Hin as [->|]; [left|by right]|]. by intros a [->|Ha]%elem_of_cons; [|apply Hall].
Qed.
Lemma resolve_None l : resolve l = None → l = [].
Proof. by destruct l. Qed.

(** Rules of a policy may reach the tenant: the platform's, its own and its
    parent's. *)
Definition may_govern (tenant : option uuid) (d : database) (p : Policy) : Prop :=
  match tenant, policy_org p with
  | Some org, Some o => o = org ∨ parent_of org d = Some o
  | _, _ => True
  end.
(** The assignments that apply: the specification of the two filters. *)
Record applies (t : PolicyType) (q : query) (tenant : option uuid) (d : database)
    (a : PolicyAssignment) (p : Policy) (v : uuid) : Prop := {
  applies_row : a ∈ assignments d;
  applies_active : assignment_active a = true;
  applies_policy : get_policy_by_id (assignment_policy a) d = Some p;
  applies_live : policy_active p = true ∧ policy_type p = t ∧ current_version_id p = Some v;
  applies_scope : covers_scope q a = true;
  applies_target : covers_target q a = true;
  applies_tenant : may_govern tenant d p;
}.

Lemma kept_applies t q tenant d a :
  a ∈ drop_foreign_candidates tenant d (list_candidate_assignments t q d)
  ↔ ∃ p v, applies t q tenant d a p v.
Proof.
  assert (a ∈ list_candidate_assignments t q d ↔ a ∈ assignments d ∧ assignment_active a = true
    ∧ (∃ p v, get_policy_by_id (assignment_policy a) d = Some p ∧ policy_active p = true
         ∧ policy_type p = t ∧ current_version_id p = Some v)
    ∧ covers_scope q a = true ∧ covers_target q a = true) as Hcand.
  { unfold list_candidate_assignments. rewrite elem_of_select, !andb_true_iff.
    unfold policy_satisfies, live_policy. destruct (get_policy_by_id _ d) as [p|].
    - rewrite !andb_true_iff, !bool_decide_eq_true. split.
      + intros (? & ((? & (? & ?) & Hv) & ?) & ?). split_and!; try done.
        destruct (current_version_id p) as [v|] eqn:?; [|done]. by exists p, v.
      + intros (? & ? & (p' & v & [= <-] & ? & ? & Hv) & ? & ?). rewrite Hv. by split_and!.
    - split; [by intros (? & ((? & ?) & ?) & ?)|by intros (? & ? & (p & v & ? & _) & _)]. }
  assert (∀ p v, applies t q tenant d a p v ↔ (a ∈ assignments d ∧ assignment_active a = true
    ∧ (get_policy_by_id (assignment_policy a) d = Some p ∧ policy_active p = true
         ∧ policy_type p = t ∧ current_version_id p = Some v)
    ∧ covers_scope q a = true ∧ covers_target q a = true) ∧ may_govern tenant d p) as Happ.
  { intros p v. split; [by intros [? ? ? (? & ? & ?) ? ? ?]; split_and!|].
    intros ((? & ? & (? & ? & ? & ?) & ? & ?) & ?). by split. }
  assert (∀ p, get_policy_by_id (assignment_policy a) d = Some p →
    (a ∈ drop_foreign_candidates tenant d (list_candidate_assignments t q d)
     ↔ a ∈ list_candidate_assignments t q d ∧ may_govern tenant d p)) as Hdrop.
  { intros p Hp. unfold drop_foreign_candidates, may_govern. destruct tenant as [org|]; [|tauto].
    rewrite elem_of_select, Hp. cbn [mbind option_bind]. destruct (policy_org p) as [o|]; [|tauto].
    rewrite orb_true_iff, !bool_decide_eq_true. tauto. }
  assert (a ∈ drop_foreign_candidates tenant d (list_candidate_assignments t q d) →
    a ∈ list_candidate_assignments t q d) as Hsub.
  { unfold drop_foreign_candidates. destruct tenant; [|done]. by intros [? _]%elem_of_select. }
  split.
  - intros Ha. pose proof (proj1 Hcand (Hsub Ha)) as (? & ? & (p & v & Hp & ? & ? & ?) & ? & ?).
    exists p, v. apply Happ. apply (Hdrop p Hp) in Ha as [_ Ht]. by split_and!.
  - intros (p & v & [(? & ? & (Hp & ? & ? & ?) & ? & ?) Ht]%Happ). apply (Hdrop p Hp).
    split; [|done]. apply Hcand. split_and!; try done. by exists p, v.
Qed.

Lemma get_organization_reads k : reads (get_organization k).
Proof. apply reads_bind; [apply reads_gets|intros; apply reads_of_option]. Qed.
Lemma get_location_reads k r : reads (get_location k r).
Proof.
  apply reads_bind; [apply reads_gets|]. intros row. apply reads_bind; [apply reads_of_option|].
  intros l. destruct r; [|apply reads_ret]. case_bool_decide; [apply reads_ret|].
  apply reads_bind; [apply get_organization_reads|]. intros o.
  apply reads_bind; [apply reads_raise_if|]. intros; apply reads_ret.
Qed.
Lemma resolved_tenant_reads q : reads (resolved_tenant q).
Proof.
  unfold resolved_tenant. destruct (q_location q), (q_org q); try apply reads_ret.
  all: apply reads_bind; [apply get_location_reads|intros; apply reads_ret].
Qed.

(** C12: the rules that apply to someone somewhere are those of the live
    version of an assignment that reaches them - active, of a live policy of
    the type, covering the scope and the target, of the platform, of the
    tenant or of its parent - and that no other such assignment outranks by
    target, scope, priority and age; they are the platform's defaults exactly
    when there is none. *)
Theorem resolution_takes_the_most_specific t q d r src d' :
  resolve_effective_policy t q d = (Ok (r, src), d') →
  d' = d ∧ ∃ tenant, resolved_tenant q d = (Ok tenant, d) ∧
  match src with
  | None => r = PLATFORM_DEFAULT_RULES t ∧ ∀ a p v, ¬ applies t q tenant d a p v
  | Some a => ∃ p v, applies t q tenant d a p v
      ∧ (∀ b p' v', applies t q tenant d b p' v' → outranks a b)
      ∧ r = match get_version_by_id v d with Some w => version_rules w | None => ∅ end
  end.
Proof.
  intros H. unfold resolve_effective_policy in H. apply bind_Ok in H as (tenant & d1 & Ht & H).
  assert (d1 = d) as -> by (pose proof (resolved_tenant_reads q d) as Hr; by rewrite Ht in Hr).
  do 2 (erewrite bind_step in H by (unfold gets; reflexivity)).
  set (kept := drop_foreign_candidates tenant d (list_candidate_assignments t q d)) in *.
  destruct (resolve kept) as [w|] eqn:Hw.
  - apply resolve_Some in Hw as [Hin Hall]. apply kept_applies in Hin as (p & v & Happ).
    erewrite bind_step in H by (unfold gets; reflexivity).
    rewrite (applies_policy _ _ _ _ _ _ _ Happ) in H. cbn [mbind option_bind] in H.
    destruct (applies_live _ _ _ _ _ _ _ Happ) as (_ & _ & Hv). rewrite Hv in H.
    erewrite bind_step in H by (unfold gets; reflexivity). injection H as <- <- <-.
    split; [done|]. exists tenant. split; [done|]. exists p, v. split_and!; [done| |done].
    intros b p' v' Hb. apply Hall, kept_applies. by exists p', v'.
  - injection H as <- <- <-. split; [done|]. exists tenant. split_and!; [done..|].
    intros a p v Ha. apply resolve_None in Hw. assert (a ∈ kept) as Hk by (apply kept_applies; by exists p, v).
    rewrite Hw in Hk. by apply not_elem_of_nil in Hk.
Qed.

(** ** Examples *)
Module examples.
(** A platform policy for everyone, and the organization's for one guest. *)
Definition d : database :=
  mk_database
    [mk_policy 1 None SESSION true (Some 2%positive); mk_policy 3 (Some 10%positive) SESSION true (Some 4%positive)]
    [mk_version 2 1 1 PUBLISHED (list_to_map [(u "idle_timeout_minutes", Int 5)]) (Some 0);
     mk_version 4 3 1 PUBLISHED (list_to_map [(u "idle_timeout_minutes", Int 9)]) (Some 0)]
    [mk_assignment 5 1 GLOBAL None NONE None 100 true 0;
     mk_assignment 6 3 ORGANIZATION (Some 10%positive) GUEST (Some 50%positive) 0 true 0]
    [mk_organization 10 None] [mk_location 20 10] [] [] [].
Definition q : query := mk_query (Some 10%positive) (Some 20%positive) None [] (Some 50%positive).

Lemma resolution_takes_the_most_specific_witness :
  ∃ r a p v, resolve_effective_policy SESSION q d = (Ok (r, Some a), d)
    ∧ int_rule "idle_timeout_minutes" r = Some 9
    ∧ applies SESSION q (Some 10%positive) d a p v
    ∧ ∀ b p' v', applies SESSION q (Some 10%positive) d b p' v' → outranks a b.
Proof.
  assert (resolve_effective_policy SESSION q d = (Ok (list_to_map [(u "idle_timeout_minutes", Int 9)],
    Some (mk_assignment 6 3 ORGANIZATION (Some 10%positive) GUEST (Some 50%positive) 0 true 0)), d)) as H
    by (vm_compute; reflexivity).
  destruct (resolution_takes_the_most_specific _ _ _ _ _ _ H) as (_ & tenant & Ht & p & v & Ha & Hall & _).
  injection Ht as <-. eexists _, _, p, v. split_and!; [exact H|vm_compute; reflexivity|exact Ha|exact Hall].
Defined.

(** Another guest falls under the platform's policy. *)
Example others_get_the_default :
  int_rule "idle_timeout_minutes" <$>
    match (resolve_effective_policy SESSION (mk_query (Some 10%positive) None None [] (Some 51%positive)) d).1 with
    | Ok (r, _) => Some r | Raise _ => None end = Some (Some 5).
Proof. vm_compute. reflexivity. Qed.
End examples.

End Policy.
