(* ===== verification/PolicyRequests.v ===== *)
(** The policy engine over the life of many requests.

    The operations of [Policy.v] as the transactions of requests, and what no
    history of them can break: the live version of a policy is a published
    version of that policy, a published version never changes, a rollback
    brings back exactly the rules it names, and a guest is in one group of an
    organization at most. *)

From S2P Require Import Prelude Table Session PyStr Rbac Policy.

Module PolicyRequests.
Import Scope Policy.

Section requests.
Variable model_validate : PolicyType → rules → option rules.

Inductive command :=
| CreatePolicy (id : uuid) (requesting org : option uuid) (t : PolicyType)
| DeactivatePolicy (k : uuid) (requesting : option uuid)
| CreateVersion (id k : uuid) (requesting : option uuid) (raw : rules)
| PublishVersion (now : datetime) (k version : uuid) (requesting : option uuid)
| Rollback (k version : uuid) (requesting : option uuid)
| CreateAssignment (now : datetime) (id k : uuid) (requesting : option uuid) (scope : pystr)
    (scope_id : option uuid) (priority : Z) (target : pystr) (target_id : option uuid)
| DeactivateAssignment (k assignment : uuid) (requesting : option uuid).

Definition discard {A} (m : op A) : op unit := _ ← m; mret tt.
Definition handler (c : command) : op unit :=
  match c with
  | CreatePolicy id req org t => discard (create_policy id req org t)
  | DeactivatePolicy k req => discard (deactivate_policy k req)
  | CreateVersion id k req raw => discard (create_version model_validate id k req raw)
  | PublishVersion now k v req => discard (publish_version now k v req)
  | Rollback k v req => discard (rollback k v req)
  | CreateAssignment now id k req s sid pr t tid =>
      discard (create_assignment now id k req s sid pr t tid)
  | DeactivateAssignment k a req => discard (deactivate_assignment k a req)
  end.
Definition requests : list command → database → database := transactions handler.

(** ** What every history keeps *)
Definition points_to (d : database) (p : Policy) (v : uuid) : Prop :=
  ∃ w, get_version_by_id v d = Some w ∧ version_policy w = policy_id p ∧ version_status w = PUBLISHED.
Record consistent (d : database) : Prop := {
  keyed_policies : keyed (policies d);
  keyed_versions : keyed (versions d);
  keyed_assignments : keyed (assignments d);
  live_published : ∀ p v, p ∈ policies d → current_version_id p = Some v → points_to d p v;
  assignment_of : ∀ a, a ∈ assignments d → is_Some (get_policy_by_id (assignment_policy a) d);
}.

(** What a policy, a version and an assignment keep. *)
Record policy_step (p p' : Policy) : Prop := {
  keeps_org : policy_org p' = policy_org p;
  keeps_type : policy_type p' = policy_type p;
  keeps_inactive : policy_active p' = true → policy_active p = true;
}.
#[local] Instance policy_step_preorder : PreOrder policy_step.
Proof. split; [done|]. intros p1 p2 p3 [] []. split; [congruence..|auto]. Qed.
Record version_step (v v' : PolicyVersion) : Prop := {
  keeps_version : (version_policy v', version_number v', version_rules v')
                  = (version_policy v, version_number v, version_rules v);
  keeps_published : version_status v = PUBLISHED → v' = v;
}.
#[local] Instance version_step_preorder : PreOrder version_step.
Proof.
  split; [done|]. intros v1 v2 v3 [A1 B1] [A2 B2]. split; [congruence|].
  intros H. rewrite (B1 H) in *. by apply B2.
Qed.
Record evolves (d d' : database) : Prop := {
  policies_evolve : ∀ k p, get_policy_by_id k d = Some p →
    ∃ p', get_policy_by_id k d' = Some p' ∧ policy_step p p';
  versions_evolve : ∀ k v, get_version_by_id k d = Some v →
    ∃ v', get_version_by_id k d' = Some v' ∧ version_step v v';
}.
#[local] Instance evolves_preorder : PreOrder evolves.
Proof.
  split; [intros d; split; intros k x Hx; by exists x|]. intros d1 d2 d3 [P1 V1] [P2 V2]. split.
  - intros k x Hx. destruct (P1 k x Hx) as (y & Hy & Hxy). destruct (P2 k y Hy) as (z & Hz & Hyz).
    exists z. split; [done|by etrans].
  - intros k x Hx. destruct (V1 k x Hx) as (y & Hy & Hxy). destruct (V2 k y Hy) as (z & Hz & Hyz).
    exists z. split; [done|by etrans].
Qed.
Definition sound (d d' : database) : Prop := consistent d → consistent d' ∧ evolves d d'.
#[local] Instance sound_preorder : PreOrder sound.
Proof.
  split; [by intros d|]. intros d1 d2 d3 H12 H23 C1. destruct (H12 C1) as [C2 E12].
  destruct (H23 C2) as [C3 E23]. split; [done|by etrans].
Qed.

(** *** The writes *)
Lemma points_evolve d d' p v : evolves d d' → points_to d p v → points_to d' p v.
Proof.
  intros [_ V] (w & Hw & Hp & Hs). destruct (V v w Hw) as (w' & Hw' & [_ Heq]).
  rewrite (Heq Hs) in Hw'. by exists w.
Qed.

Lemma sound_policy d k p f : get_policy_by_id k d = Some p →
  (∀ p, policy_id (f p) = policy_id p) → policy_step p (f p) →
  (∀ v, current_version_id (f p) = Some v → current_version_id p = Some v ∨ points_to d p v) →
  sound d (set_policies (set_row f k) d).
Proof.
  intros Hp Hid Hstep Hv Hd.
  assert (∀ j, get_policy_by_id j (set_policies (set_row f k) d)
    = if decide (k = j) then f <$> get_policy_by_id k d else get_policy_by_id j d) as Hget.
  { intros j. by apply by_id_set_row. }
  assert (evolves d (set_policies (set_row f k) d)) as He.
  { split; [|intros j w Hw; by exists w]. intros j q Hq. rewrite Hget.
    destruct (decide (k = j)) as [<-|]; [|by exists q]. simplify_eq. rewrite Hp. by exists (f p). }
  split; [|done]. destruct Hd as [K1 K2 K3 L A]. split; try done.
  - by apply keyed_set_row.
  - cbn. intros q v (q0 & Hq & ->)%elem_of_update Hcur.
    apply (points_evolve d); [done|]. destruct (has_id k q0) eqn:Hk; [|by apply L].
    apply bool_decide_eq_true in Hk. assert (q0 = p) as ->.
    { apply (by_id_unique k (policies d)) in Hq; [|done..]. unfold get_policy_by_id in Hp. congruence. }
    assert (points_to d p v) as (w & ? & ? & ?); [|by exists w; rewrite Hid].
    destruct (Hv v Hcur) as [Hcur'|]; [by apply L|done].
  - cbn. intros a Ha. rewrite Hget. destruct (decide (k = assignment_policy a)); [by rewrite Hp|by apply A].
Qed.

Lemma sound_version d k v f : get_version_by_id k d = Some v →
  (∀ v, version_id (f v) = version_id v) → version_step v (f v) →
  sound d (set_versions (set_row f k) d).
Proof.
  intros Hv Hid Hstep Hd.
  assert (evolves d (set_versions (set_row f k) d)) as He.
  { split; [intros j q Hq; by exists q|]. intros j w Hw. unfold get_version_by_id in *. cbn.
    rewrite by_id_set_row by done. destruct (decide (k = j)) as [<-|]; [|by exists w].
    simplify_eq. rewrite Hv. by exists (f v). }
  split; [|done]. destruct Hd as [K1 K2 K3 L A]. split; try done.
  - by apply keyed_set_row.
  - intros p w Hp Hw. apply (points_evolve d); [done|by apply L].
Qed.

Lemma sound_insert_policy d id org t : by_id id (policies d) = None →
  sound d (set_policies (insert_row (mk_policy id org t true None)) d).
Proof.
  intros Hno Hd.
  assert (evolves d (set_policies (insert_row (mk_policy id org t true None)) d)) as He.
  { split; [|intros j w Hw; by exists w]. intros j q Hq. exists q. split; [|done].
    unfold get_policy_by_id in *. cbn. rewrite by_id_insert. by rewrite Hq. }
  split; [|done]. destruct Hd as [K1 K2 K3 L A]. split; try done.
  - by apply keyed_insert.
  - intros q v [Hq | ->%list_elem_of_singleton]%elem_of_app Hv; [|done].
    apply (points_evolve d); [done|by apply L].
  - intros a Ha. destruct (A a Ha) as [q Hq]. destruct (policies_evolve _ _ He _ _ Hq) as (q' & -> & _). by eexists.
Qed.
Lemma sound_insert_version d w : by_id (version_id w) (versions d) = None →
  sound d (set_versions (insert_row w) d).
Proof.
  intros Hno Hd. assert (evolves d (set_versions (insert_row w) d)) as He.
  { split; [intros j q Hq; by exists q|]. intros j x Hx. exists x. split; [|done].
    unfold get_version_by_id in *. cbn. rewrite by_id_insert. by rewrite Hx. }
  split; [|done]. destruct Hd as [K1 K2 K3 L A]. split; try done.
  - by apply keyed_insert.
  - intros p x Hp Hx. apply (points_evolve d); [done|by apply L].
Qed.
(** Assignments may change in any way that keeps their keys and policies. *)
Lemma sound_assignments d f : keyed (f (assignments d)) →
  (∀ a, a ∈ f (assignments d) → is_Some (get_policy_by_id (assignment_policy a) d)) →
  sound d (set_assignments f d).
Proof.
  intros Hk Hp Hd. split; [|split; intros j x Hx; by exists x].
  destruct Hd as [K1 K2 K3 L A]. by split.
Qed.

(** *** The operations *)
Definition permitted (org requesting : option uuid) : Prop :=
  match org, requesting with Some o, Some r => o = r | _, _ => True end.
Lemma get_policy_Ok k r p d d' : get_policy k r d = (Ok p, d') →
  d' = d ∧ get_policy_by_id k d = Some p ∧ permitted (policy_org p) r.
Proof.
  unfold get_policy, enforce_read_scope. erewrite bind_step by (unfold gets; reflexivity).
  rewrite of_option_bind. destruct (get_policy_by_id k d) as [x|]; [|done]. rewrite raise_if_bind.
  destruct (match policy_org x, r with Some o, Some r => bool_decide (o ≠ r) | _, _ => false end) eqn:E;
    [done|]. intros [= <- <-]. split_and!; [done..|]. unfold permitted.
  destruct (policy_org x), r; try done. apply bool_decide_eq_false in E. by apply dec_stable.
Qed.
Lemma get_policy_run k r p d : get_policy_by_id k d = Some p → permitted (policy_org p) r →
  get_policy k r d = (Ok p, d).
Proof.
  intros Hp Hr. unfold get_policy, enforce_read_scope. erewrite bind_step by (unfold gets; reflexivity).
  rewrite Hp, of_option_bind, raise_if_bind. unfold permitted in Hr.
  destruct (policy_org p), r; try done. by rewrite bool_decide_false by auto.
Qed.
Lemma fresh_Ok {R} `{HasId R} k (rows : database → list R) u d d' :
  fresh k rows d = (Ok u, d') → d' = d ∧ by_id k (rows d) = None.
Proof.
  unfold fresh. erewrite bind_step by (unfold gets; reflexivity).
  destruct (by_id k (rows d)); [by case_bool_decide|]. by intros [= _ ->].
Qed.

Lemma check_owner_reads r org : reads (E:=error) (match org with
  | None => raise_if (bool_decide (r ≠ None)) CrossOrganizationPolicyAccessError
  | Some o => _ ← raise_if (match r with Some r => bool_decide (o ≠ r) | None => false end)
                    CrossOrganizationPolicyAccessError; _ ← get_organization o; mret tt
  end).
Proof.
  destruct org; [|apply reads_raise_if]. apply reads_bind; [apply reads_raise_if|]. intros.
  apply reads_bind; [apply get_organization_reads|intros; apply reads_ret].
Qed.
Lemma create_policy_sound id r org t p d d' : create_policy id r org t d = (Ok p, d') → sound d d'.
Proof.
  intros H. unfold create_policy in H. apply bind_Ok in H as (? & d1 & Hc & H).
  assert (d1 = d) as -> by (pose proof (check_owner_reads r org d) as Hr; by rewrite Hc in Hr).
  apply bind_Ok in H as (? & d1 & [-> Hno]%fresh_Ok & H).
  injection H as _ <-. by apply sound_insert_policy.
Qed.
Lemma deactivate_policy_sound k r p d d' : deactivate_policy k r d = (Ok p, d') → sound d d'.
Proof.
  intros H. unfold deactivate_policy in H. apply bind_Ok in H as (x & d1 & (-> & Hx & _)%get_policy_Ok & H).
  injection H as _ <-. pose proof (by_id_Some _ _ _ Hx) as [_ Hk]. change (policy_id x = k) in Hk.
  rewrite Hk. apply (sound_policy d k x); [done..|]. by left.
Qed.
Lemma create_version_sound id k r raw v d d' :
  create_version model_validate id k r raw d = (Ok v, d') → sound d d'.
Proof.
  intros H. unfold create_version in H. apply bind_Ok in H as (x & d1 & (-> & Hx & _)%get_policy_Ok & H).
  rewrite of_option_bind in H. destruct (model_validate _ raw) as [rs|]; [|done].
  erewrite bind_step in H by (unfold gets; reflexivity).
  apply bind_Ok in H as (? & d1 & [-> Hno]%fresh_Ok & H).
  injection H as _ <-. by apply sound_insert_version.
Qed.

(** The version a request names, when it is one of the policy's. *)
Lemma publish_Ok now k j r v d d' : consistent d → publish_version now k j r d = (Ok v, d') →
  ∃ p w, get_policy_by_id k d = Some p ∧ get_version_by_id j d = Some w ∧ version_policy w = k
    ∧ version_status w = DRAFT ∧ v = published now w
    ∧ d' = set_policies (set_row (with_current (Some j)) k)
             (set_versions (set_row (published now) j) d).
Proof.
  intros Hd H. unfold publish_version in H.
  apply bind_Ok in H as (x & d1 & (-> & Hx & _)%get_policy_Ok & H).
  erewrite bind_step in H by (unfold gets; reflexivity). rewrite of_option_bind in H.
  destruct (get_version_by_id j d) as [w|] eqn:Hw; [|done]. rewrite raise_if_bind in H.
  case_bool_decide as Hp; [done|]. rewrite raise_if_bind in H. case_bool_decide as Hs; [done|].
  injection H as <- <-. apply by_id_Some in Hx as Hx'. apply by_id_Some in Hw as Hw'.
  destruct Hx' as [_ Hk], Hw' as [_ Hj]. change (policy_id x = k) in Hk. change (version_id w = j) in Hj.
  exists x, w. split_and!; try done; [congruence| |].
  - destruct (version_status w); [done|]. by apply not_elem_of_nil in Hs.
  - cbn [version_id published]. by rewrite Hk, Hj.
Qed.
Lemma publish_sound now k j r v d d' : publish_version now k j r d = (Ok v, d') → sound d d'.
Proof.
  intros H Hd. apply publish_Ok in H as (p & w & Hp & Hw & Hk & Hs & -> & ->); [|done].
  pose proof (by_id_Some _ _ _ Hp) as [_ Hpk]. change (policy_id p = k) in Hpk.
  assert (sound d (set_versions (set_row (published now) j) d)) as H1.
  { apply (sound_version d j w); [done..|]. split; [done|]. by rewrite Hs. }
  enough (sound (set_versions (set_row (published now) j) d)
    (set_policies (set_row (with_current (Some j)) k) (set_versions (set_row (published now) j) d)))
    as H2 by exact (transitivity H1 H2 Hd).
  apply (sound_policy _ k p); [done..|]. intros v' [= <-]. right.
  exists (published now w). split_and!; [|cbn; congruence|done].
  unfold get_version_by_id in *. cbn. rewrite by_id_set_row by done. by rewrite decide_True, Hw.
Qed.
Lemma rollback_Ok k j r p' d d' : consistent d → rollback k j r d = (Ok p', d') →
  ∃ p w, get_policy_by_id k d = Some p ∧ get_version_by_id j d = Some w ∧ version_policy w = k
    ∧ version_status w = PUBLISHED ∧ d' = set_policies (set_row (with_current (Some j)) k) d.
Proof.
  intros Hd H. unfold rollback in H.
  apply bind_Ok in H as (x & d1 & (-> & Hx & _)%get_policy_Ok & H).
  erewrite bind_step in H by (unfold gets; reflexivity). rewrite of_option_bind in H.
  destruct (get_version_by_id j d) as [w|] eqn:Hw; [|done]. rewrite raise_if_bind in H.
  case_bool_decide as Hp; [done|]. rewrite raise_if_bind in H. case_bool_decide as Hs; [done|].
  injection H as _ <-. apply by_id_Some in Hx as Hx'. apply by_id_Some in Hw as Hw'.
  destruct Hx' as [_ Hk], Hw' as [_ Hj]. change (policy_id x = k) in Hk. change (version_id w = j) in Hj.
  exists x, w. split_and!; try done; [congruence|]. by rewrite Hk, Hj.
Qed.
Lemma rollback_sound k j r p' d d' : rollback k j r d = (Ok p', d') → sound d d'.
Proof.
  intros H Hd. apply rollback_Ok in H as (p & w & Hp & Hw & Hk & Hs & ->); [|done].
  pose proof (by_id_Some _ _ _ Hp) as [_ Hpk]. change (policy_id p = k) in Hpk.
  revert Hd. apply (sound_policy _ k p); [done..|]. intros v' [= <-]. right.
  exists w. split_and!; [done|congruence|done].
Qed.

Lemma check_scope_reads s k o : reads (check_scope s k o).
Proof.
  destruct s, k; try apply reads_ret.
  - apply reads_bind; [apply get_organization_reads|]. intros _.
    apply reads_bind; [apply reads_gets|]. intros; apply reads_raise_if.
  - apply reads_bind; [apply get_location_reads|intros; apply reads_ret].
Qed.
Lemma check_target_reads t k o : reads (check_target t k o).
Proof.
  destruct t, k; try apply reads_ret; (apply reads_bind; [apply reads_gets|]); intros;
    repeat first [apply reads_raise_if | (apply reads_bind; [first [apply reads_of_option|apply reads_gets]|]; intros)].
Qed.
Lemma check_group_reads p t k : reads (check_group p t k).
Proof.
  destruct k; [|apply reads_ret]. cbn. destruct (_ && _); [|apply reads_ret].
  apply reads_bind; [apply reads_gets|]. intros [a|]; [apply reads_raise|apply reads_ret].
Qed.

(** What is known of a new assignment. *)
Lemma create_assignment_Ok now id k r rs s pr rt t a d d' :
  create_assignment now id k r rs s pr rt t d = (Ok a, d') →
  ∃ p, get_policy_by_id k d = Some p ∧ assignment_policy a = k ∧ target_id a = t
    ∧ by_id (assignment_id a) (assignments d) = None
    ∧ check_group p (target_type a) t d = (Ok tt, d)
    ∧ d' = set_assignments (insert_row a) d.
Proof.
  intros H. unfold create_assignment in H.
  apply bind_Ok in H as (p & d1 & (-> & Hp & _)%get_policy_Ok & H).
  rewrite raise_if_bind in H. case_bool_decide; [done|].
  apply bind_Ok in H as (sc & d1 & Hs & H).
  assert (d1 = d) as ->.
  { revert Hs. unfold validate_assignment_scope. destruct (of_value rs) as [[]|], s; by intros [= _ <-]. }
  apply bind_Ok in H as (tt' & d1 & Ht & H).
  assert (d1 = d) as ->.
  { revert Ht. unfold validate_assignment_target. destruct (target_of_value rt) as [[]|], t; by intros [= _ <-]. }
  rewrite raise_if_bind in H. destruct (_ && _); [done|].
  apply bind_Ok in H as ([] & d1 & Hc1 & H). pose proof (check_scope_reads sc s
    (match policy_org p with Some o => Some o | None => r end) d) as Hr1. rewrite Hc1 in Hr1. cbn in Hr1. subst d1.
  apply bind_Ok in H as ([] & d1 & Hc2 & H). pose proof (check_target_reads tt' t
    (match policy_org p with Some o => Some o | None => r end) d) as Hr2. rewrite Hc2 in Hr2. cbn in Hr2. subst d1.
  apply bind_Ok in H as ([] & d1 & Hc3 & H). pose proof (check_group_reads p tt' t d) as Hr3.
  rewrite Hc3 in Hr3. cbn in Hr3. subst d1.
  apply bind_Ok in H as (? & d1 & [-> Hno]%fresh_Ok & H). injection H as <- <-.
  pose proof (by_id_Some _ _ _ Hp) as [_ Hk]. change (policy_id p = k) in Hk.
  exists p. by split_and!.
Qed.
Lemma create_assignment_sound now id k r rs s pr rt t a d d' :
  create_assignment now id k r rs s pr rt t d = (Ok a, d') → sound d d'.
Proof.
  intros (p & Hp & Hk & _ & Hno & _ & ->)%create_assignment_Ok Hd. revert Hd.
  enough (consistent d → sound d (set_assignments (insert_row a) d)) as H by (intros Hd; by apply H).
  intros Hd. apply sound_assignments; [by apply keyed_insert; [apply Hd|]|].
  intros b [Hb | ->%list_elem_of_singleton]%elem_of_app; [by apply Hd|]. rewrite Hk, Hp. by eexists.
Qed.

(** Releasing assignments. *)
Definition releases (d d' : database) : Prop :=
  ∃ g, d' = set_assignments (map g) d ∧ ∀ a, g a = a ∨ g a = released a.
Lemma releases_trans d1 d2 d3 : releases d1 d2 → releases d2 d3 → releases d1 d3.
Proof.
  intros (f & -> & Hf) (g & -> & Hg). exists (λ a, g (f a)). split.
  - destruct d1. unfold set_assignments. cbn. by rewrite map_map.
  - intros a. destruct (Hf a) as [-> | ->]; [apply Hg|]. right. by destruct (Hg (released a)) as [-> | ->].
Qed.
Lemma releases_update d p : releases d (set_assignments (update p released) d).
Proof.
  eexists. split; [unfold update; reflexivity|]. intros a. cbn. destruct (p a); auto.
Qed.
Lemma releases_sound d d' : releases d d' → sound d d'.
Proof.
  intros (g & -> & Hg) Hd. revert Hd.
  enough (consistent d → sound d (set_assignments (map g) d)) as H by (intros Hd; by apply H).
  intros Hd. apply sound_assignments.
  - unfold keyed. rewrite map_map. erewrite map_ext; [apply Hd|]. intros a. by destruct (Hg a) as [-> | ->].
  - intros b Hb. apply list_elem_of_In, in_map_iff in Hb as (a & <- & Ha%list_elem_of_In).
    destruct (assignment_of _ Hd a Ha) as [p Hp]. exists p. by destruct (Hg a) as [-> | ->].
Qed.

Lemma release_loop d (q : PolicyAssignment → bool) : keyed (assignments d) →
  collect (λ a, if bool_decide (target_type a ≠ GUEST) then mret None
                else b ← update_assignment a released; mret (Some b)) (select q (assignments d)) d
  = (Ok (map released (select (λ a, q a && bool_decide (target_type a = GUEST)) (assignments d))),
     set_assignments (update (λ a, q a && bool_decide (target_type a = GUEST)) released) d).
Proof.
  intros Hd. apply (loop_is_update assignment_id assignments set_assignments (λ _, tt)); try done.
  - intros f g x Hfg. unfold set_assignments. by rewrite Hfg.
  - by intros [].
  - intros x d' _ _ Hx Hd'. case_bool_decide as Hg; case_bool_decide as Hg'; try done.
    erewrite bind_step by reflexivity. unfold mret, M_ret. f_equal. unfold set_assignments. f_equal.
    change (assignment_id x) with (row_id x). by apply set_row_const.
Qed.

Lemma deactivate_assignment_releases k j r a d d' : consistent d →
  deactivate_assignment k j r d = (Ok a, d') → releases d d'.
Proof.
  intros Hd H. unfold deactivate_assignment in H.
  apply bind_Ok in H as (p & d1 & (-> & Hp & _)%get_policy_Ok & H).
  erewrite bind_step in H by (unfold gets; reflexivity). rewrite of_option_bind in H.
  destruct (get_assignment_by_id j d) as [x|] eqn:Hx; [|done]. rewrite raise_if_bind in H.
  case_bool_decide; [done|]. erewrite bind_step in H by reflexivity.
  set (d1 := set_assignments (set_row released (assignment_id x)) d) in *.
  assert (releases d d1) as H1 by apply (releases_update d (has_id (assignment_id x))).
  apply bind_Ok in H as (? & d2 & Hr & [= _ <-]). eapply releases_trans; [exact H1|].
  pose proof (releases_sound _ _ H1 Hd) as [Hd1 _].
  unfold release_members_of_unmapped_scope in Hr.
  assert (releases d1 d1) as Hid.
  { exists (λ a, a). split; [|by left]. unfold set_assignments. rewrite map_id. by destruct d1. }
  destruct (negb _ || _); [by injection Hr as _ <-|].
  erewrite bind_step in Hr by (unfold gets; reflexivity). cbv zeta in Hr.
  unfold list_assignments_for_policy in Hr.
  destruct (existsb _ _); [by injection Hr as _ <-|].
  rewrite select_select in Hr. erewrite bind_step in Hr by (apply release_loop, Hd1).
  injection Hr as _ <-. apply releases_update.
Qed.

Lemma handler_sound c d d' : handler c d = (Ok tt, d') → sound d d'.
Proof.
  destruct c; cbn [handler]; unfold discard; intros (x & d1 & H & [= <-])%bind_Ok.
  - by eapply create_policy_sound.
  - by eapply deactivate_policy_sound.
  - by eapply create_version_sound.
  - by eapply publish_sound.
  - by eapply rollback_sound.
  - by eapply create_assignment_sound.
  - intros Hd. pose proof (deactivate_assignment_releases _ _ _ _ _ _ Hd H) as Hr.
    by apply (releases_sound _ _ Hr).
Qed.
Lemma requests_sound cs d : sound d (requests cs d).
Proof.
  apply (transactions_induct handler sound (λ _, True)); [|by apply Forall_true].
  intros c d1 d2 _. apply handler_sound.
Qed.

(** The rules in force: those of the version a policy points to. *)
Definition live_rules (k : uuid) (d : database) : option rules :=
  p ← get_policy_by_id k d; v ← current_version_id p; version_rules <$> get_version_by_id v d.

(** After any history of requests the version a policy points to exists,
    is a version of that policy and is published, and every version that was
    published before is the same row still, rules included. *)
Theorem live_versions_are_published_and_frozen cs d : consistent d →
  let d' := requests cs d in
  (∀ p v, p ∈ policies d' → current_version_id p = Some v →
     ∃ w, get_version_by_id v d' = Some w ∧ version_policy w = policy_id p
       ∧ version_status w = PUBLISHED)
  ∧ (∀ k w, get_version_by_id k d = Some w → version_status w = PUBLISHED →
     get_version_by_id k d' = Some w).
Proof.
  intros Hd d'. destruct (requests_sound cs d Hd) as [[] [_ V]]. split; [done|].
  intros k w Hw Hs. destruct (V k w Hw) as (w' & Hw' & [_ Heq]). by rewrite (Heq Hs) in Hw'.
Qed.

(** Publishing a version puts its rules in force, and after any history
    of requests a rollback to that version, by a caller who may see the
    policy, succeeds and puts the same rules in force again. *)
Theorem rollback_restores_the_rules now k j r v d1 d2 cs r' : consistent d1 →
  publish_version now k j r d1 = (Ok v, d2) →
  let d3 := requests cs d2 in
  permitted (p ← get_policy_by_id k d3; policy_org p) r' →
  ∃ p d4, rollback k j r' d3 = (Ok p, d4)
    ∧ live_rules k d4 = Some (version_rules v) ∧ live_rules k d2 = Some (version_rules v).
Proof.
  intros Hd H d3 Hr. pose proof (publish_sound _ _ _ _ _ _ _ H Hd) as [Hd2 _].
  apply publish_Ok in H as (p & w & Hp & Hw & Hk & Hs & -> & ->); [|done].
  set (d2 := set_policies _ _) in *.
  assert (get_policy_by_id k d2 = Some (with_current (Some j) p)) as Hp2.
  { unfold get_policy_by_id, d2. cbn [policies set_policies].
    rewrite by_id_set_row by done. rewrite decide_True by done. unfold get_policy_by_id in Hp.
    cbn. by rewrite Hp. }
  assert (get_version_by_id j d2 = Some (published now w)) as Hw2.
  { unfold get_version_by_id, d2. cbn. rewrite by_id_set_row by done.
    unfold get_version_by_id in Hw. by rewrite decide_True, Hw. }
  destruct (requests_sound cs d2 Hd2) as [Hd3 [P V]]. fold d3 in Hd3, P, V.
  destruct (P _ _ Hp2) as (p3 & Hp3 & Hstep). destruct (V _ _ Hw2) as (w3 & Hw3 & [_ Heq]).
  rewrite (Heq eq_refl) in Hw3. rewrite Hp3 in Hr. cbn in Hr.
  pose proof (by_id_Some _ _ _ Hp3) as [_ Hk3]. change (policy_id p3 = k) in Hk3.
  pose proof (by_id_Some _ _ _ Hw3) as [_ Hj3]. change (version_id w = j) in Hj3.
  eexists _, _. split_and!.
  - unfold rollback. erewrite bind_step by (by apply get_policy_run).
    erewrite bind_step by (unfold gets; reflexivity). rewrite Hw3, of_option_bind, !raise_if_bind.
    rewrite !bool_decide_false by (cbn; by rewrite ?Hk, ?Hk3; auto). reflexivity.
  - unfold live_rules, get_policy_by_id, get_version_by_id in *. cbn [policies versions set_policies].
    rewrite Hk3. cbn [version_id published] in *. rewrite Hj3.
    rewrite by_id_set_row by done. rewrite decide_True by done. rewrite Hp3. cbn. by rewrite Hw3.
  - unfold live_rules. rewrite Hp2. cbn. by rewrite Hw2.
Qed.

(** *** One group per guest *)
(** [a] puts the guest [g] in a group of [org]. *)
Definition member (org : uuid) (g : uuid) (d : database) (a : PolicyAssignment) : bool :=
  assignment_active a && bool_decide (target_type a = GUEST) && bool_decide (target_id a = Some g)
  && policy_satisfies (λ p, policy_active p && bool_decide (policy_type p = BANDWIDTH)
       && bool_decide (policy_org p = Some org)) d a.
Definition one_group (d : database) : Prop :=
  ∀ org g a b, a ∈ assignments d → b ∈ assignments d →
    member org g d a = true → member org g d b = true → assignment_policy a = assignment_policy b.
Lemma member_shrinks org g d d' a : evolves d d' →
  is_Some (get_policy_by_id (assignment_policy a) d) →
  member org g d' a = true → member org g d a = true.
Proof.
  intros [P _] [p Hp]. destruct (P _ _ Hp) as (p' & Hp' & [Ho Ht Ha]).
  unfold member, policy_satisfies. rewrite Hp, Hp', Ho, Ht, !andb_true_iff. intuition.
Qed.
Lemma one_group_shrinks d d' : consistent d → evolves d d' → one_group d →
  (∀ a, a ∈ assignments d' → a ∈ assignments d ∨ assignment_active a = false) → one_group d'.
Proof.
  intros Hd He H1 Hrows org g a b Ha Hb Hma Hmb.
  assert (∀ x, x ∈ assignments d' → member org g d' x = true → x ∈ assignments d ∧ member org g d x = true)
    as Hback.
  { intros x Hx Hm. destruct (Hrows x Hx) as [Hx'|Hx'].
    - split; [done|]. eapply member_shrinks; [done| |done]. by apply Hd.
    - unfold member in Hm. by rewrite Hx' in Hm. }
  destruct (Hback a Ha Hma), (Hback b Hb Hmb). by eapply H1.
Qed.
Lemma released_rows d g a : (∀ a, g a = a ∨ g a = released a) →
  a ∈ assignments (set_assignments (map g) d) → a ∈ assignments d ∨ assignment_active a = false.
Proof.
  intros Hg. cbn. rewrite list_elem_of_In, in_map_iff. intros (x & <- & Hx%list_elem_of_In).
  destruct (Hg x) as [-> | ->]; auto.
Qed.
(** A mapping that was let through: no other group of the organization has
    the guest. *)
Lemma check_group_Ok p g d : check_group p GUEST (Some g) d = (Ok tt, d) → policy_type p = BANDWIDTH →
  ∀ org a, policy_org p = Some org → a ∈ assignments d → member org g d a = true →
  assignment_policy a = policy_id p.
Proof.
  intros H Ht org a Ho Ha Hm. unfold check_group in H.
  rewrite (bool_decide_true (GUEST = GUEST)), (bool_decide_true (policy_type p = _)) in H by done.
  cbn in H. erewrite bind_step in H by (unfold gets; reflexivity).
  destruct (find_active_target_assignment _ _ _ _ _ d) eqn:E; [done|].
  unfold find_active_target_assignment in E. destruct (decide (assignment_policy a = policy_id p)); [done|].
  exfalso. apply least_None in E. refine (not_elem_of_nil a _). rewrite <- E. apply elem_of_select.
  split; [done|]. unfold member, policy_satisfies in *. rewrite Ho.
  destruct (get_policy_by_id _ d) as [q|]; [|by rewrite andb_false_r in Hm].
  rewrite !andb_true_iff, !bool_decide_eq_true in *. intuition.
Qed.

Lemma handler_one_group c d d' : consistent d → one_group d → handler c d = (Ok tt, d') → one_group d'.
Proof.
  intros Hd H1 H. pose proof (handler_sound _ _ _ H Hd) as [Hd' He].
  assert (assignments d' = assignments d → one_group d') as Hsame.
  { intros Heq. apply (one_group_shrinks d); [done..|]. rewrite Heq. auto. }
  destruct c; cbn [handler] in H; unfold discard in H; apply bind_Ok in H as (x & d1 & H & [= <-]).
  - apply Hsame. unfold create_policy in H. apply bind_Ok in H as (? & d2 & Hc & H).
    assert (d2 = d) as -> by (pose proof (check_owner_reads requesting org d) as Hr; by rewrite Hc in Hr).
    by apply bind_Ok in H as (? & d2 & [-> _]%fresh_Ok & [= _ <-]).
  - apply Hsame. unfold deactivate_policy in H.
    by apply bind_Ok in H as (? & d2 & (-> & _)%get_policy_Ok & [= _ <-]).
  - apply Hsame. unfold create_version in H. apply bind_Ok in H as (y & d2 & (-> & Hx & _)%get_policy_Ok & H).
    rewrite of_option_bind in H. destruct (model_validate _ raw) as [rs|]; [|done].
    erewrite bind_step in H by (unfold gets; reflexivity).
    by apply bind_Ok in H as (? & d2 & [-> Hno]%fresh_Ok & [= _ <-]).
  - apply Hsame. by apply publish_Ok in H as (p & w & _ & _ & _ & _ & _ & ->).
  - apply Hsame. by apply rollback_Ok in H as (p & w & _ & _ & _ & _ & ->).
  - apply create_assignment_Ok in H as (p & Hp & Hk & Ht & _ & Hc & ->). rename x into a.
    assert (∀ org g b, b ∈ assignments d → member org g (set_assignments (insert_row a) d) b = true →
      member org g (set_assignments (insert_row a) d) a = true → assignment_policy b = assignment_policy a)
      as Hnew.
    { intros org g b Hb Hmb Hma. change (member org g d b = true) in Hmb.
      change (member org g d a = true) in Hma. unfold member, policy_satisfies in Hma.
      rewrite Hk, Hp, !andb_true_iff, !bool_decide_eq_true in Hma.
      destruct Hma as (((_ & Ha1) & Ha2) & (_ & Ha3) & Ha4). rewrite Ha1, <- Ht, Ha2 in Hc.
      rewrite Hk. pose proof (by_id_Some _ _ _ Hp) as [_ Hpk]. change (policy_id p = k) in Hpk.
      rewrite <- Hpk. by eapply check_group_Ok. }
    intros org g x y [Hx | ->%list_elem_of_singleton]%elem_of_app
      [Hy | ->%list_elem_of_singleton]%elem_of_app Hmx Hmy; try done.
    + by eapply H1.
    + by eapply Hnew.
    + symmetry. by eapply Hnew.
  - destruct (deactivate_assignment_releases _ _ _ _ _ _ Hd H) as (f & -> & Hf).
    apply (one_group_shrinks d); [done..|]. intros b. by apply released_rows.
Qed.

(** C26: of one organization's policies, whatever the history of requests and
    however mappings are created, released and deactivated on the way, at
    most one active bandwidth policy has a given guest mapped into it. *)
Theorem guests_have_one_group_per_organization cs d : consistent d → one_group d →
  let d' := requests cs d in
  ∀ org g a b, a ∈ assignments d' → b ∈ assignments d' →
    member org g d' a = true → member org g d' b = true → assignment_policy a = assignment_policy b.
Proof.
  intros Hd H1 d'. enough (consistent d' ∧ one_group d') as [_ H] by exact H.
  revert d Hd H1 d'. induction cs as [|c cs IH]; intros d Hd H1; [done|].
  cbn zeta. change (requests (c :: cs) d) with (requests cs (transact handler c d)).
  destruct (transact_cases handler c d) as [-> | Hc]; [by apply IH|]. apply IH.
  - by apply (handler_sound _ _ _ Hc).
  - by eapply handler_one_group.
Qed.
End requests.

(** ** Examples *)
Module examples.
Definition org : uuid := 10%positive.
Definition guest : uuid := 50%positive.
Definition empty : database :=
  mk_database [] [] [] [mk_organization org None] [] [] [] [mk_owned guest (Some org)].
Definition validate (_ : PolicyType) (r : rules) : option rules := Some r.
Definition speed (n : Z) : rules := list_to_map [(u "download_kbps", Int n)].

(** Two versions of one group, the guest mapped into it. *)
Definition setup : list command :=
  [CreatePolicy 1 (Some org) (Some org) BANDWIDTH;
   CreateVersion 2 1 (Some org) (speed 100); CreateVersion 3 1 (Some org) (speed 200);
   PublishVersion 1000 1 2 (Some org);
   CreateAssignment 2000 4 1 (Some org) (u "organization") (Some org) 0 (u "guest") (Some guest)].
Definition start : database := requests validate setup empty.

Lemma empty_consistent : consistent empty.
Proof. split; try (by intros p v H; apply not_elem_of_nil in H); try constructor. intros a H; by apply not_elem_of_nil in H. Qed.
Lemma start_consistent : consistent start.
Proof. by apply (requests_sound validate setup empty), empty_consistent. Qed.
Lemma start_one_group : one_group start.
Proof.
  assert (assignments start = [mk_assignment 4 1 ORGANIZATION (Some org) GUEST (Some guest) 0 true 2000]) as Ha
    by (vm_compute; reflexivity).
  intros o g a b. rewrite Ha, !list_elem_of_singleton. by intros -> ->.
Qed.

Lemma live_versions_are_published_and_frozen_witness :
  let d' := requests validate [PublishVersion 3000 1 3 (Some org)] start in
  (∃ p, policies d' = [p] ∧ current_version_id p = Some 3%positive)
  ∧ ∃ w, get_version_by_id 3 d' = Some w ∧ version_policy w = 1%positive ∧ version_status w = PUBLISHED.
Proof.
  set (d' := requests validate [PublishVersion 3000 1 3 (Some org)] start).
  assert (policies d' = [mk_policy 1 (Some org) BANDWIDTH true (Some 3%positive)]) as Hp
    by (vm_compute; reflexivity).
  split; [by eexists|].
  destruct (live_versions_are_published_and_frozen validate [PublishVersion 3000 1 3 (Some org)] start
    start_consistent) as [H _].
  apply (H (mk_policy 1 (Some org) BANDWIDTH true (Some 3%positive)) 3%positive); [|done].
  fold d'. rewrite Hp. left.
Defined.

Lemma rollback_restores_the_rules_witness :
  let d3 := requests validate [PublishVersion 4000 1 3 (Some org)]
              (publish_version 3000 1 2 (Some org)
                 (requests validate [CreatePolicy 1 (Some org) (Some org) BANDWIDTH;
                    CreateVersion 2 1 (Some org) (speed 100); CreateVersion 3 1 (Some org) (speed 200)]
                    empty)).2 in
  live_rules 1 d3 = Some (speed 200)
  ∧ ∃ p d4, rollback 1 2 (Some org) d3 = (Ok p, d4) ∧ live_rules 1 d4 = Some (speed 100).
Proof.
  set (d1 := requests validate [CreatePolicy 1 (Some org) (Some org) BANDWIDTH;
    CreateVersion 2 1 (Some org) (speed 100); CreateVersion 3 1 (Some org) (speed 200)] empty).
  set (d2 := (publish_version 3000 1 2 (Some org) d1).2). cbn zeta.
  split; [vm_compute; reflexivity|].
  destruct (rollback_restores_the_rules validate 3000 1 2 (Some org)
    (published 3000 (mk_version 2 1 1 DRAFT (speed 100) None)) d1 d2
    [PublishVersion 4000 1 3 (Some org)] (Some org)) as (p & d4 & H & Hl & _).
  - by apply (requests_sound validate _ empty), empty_consistent.
  - vm_compute; reflexivity.
  - vm_compute; reflexivity.
  - by exists p, d4.
Defined.

Lemma guests_have_one_group_per_organization_witness :
  let d' := requests validate
    [CreatePolicy 5 (Some org) (Some org) BANDWIDTH; CreateVersion 6 5 (Some org) (speed 300);
     PublishVersion 5000 5 6 (Some org);
     CreateAssignment 6000 7 5 (Some org) (u "organization") (Some org) 0 (u "guest") (Some guest)] start in
  length (assignments d') = 1%nat ∧
  ∀ a b, a ∈ assignments d' → b ∈ assignments d' → member org guest d' a = true →
    member org guest d' b = true → assignment_policy a = assignment_policy b.
Proof.
  split; [vm_compute; reflexivity|]. intros a b.
  apply (guests_have_one_group_per_organization validate _ start start_consistent start_one_group).
Defined.

(** The same guest in a group of the platform and then one of its
    organization. *)
Lemma two_owners_two_groups :
  let d' := requests validate
    ([CreatePolicy 5 None None BANDWIDTH; CreateVersion 6 5 None (speed 300); PublishVersion 500 5 6 None;
      CreateAssignment 600 7 5 None (u "organization") (Some org) 0 (u "guest") (Some guest)] ++ setup)
    empty in
  map (λ a, (assignment_policy a, target_id a, assignment_active a)) (assignments d')
  = [(5%positive, Some guest, true); (1%positive, Some guest, true)].
Proof. vm_compute. reflexivity. Qed.
End examples.

End PolicyRequests.
