(* ===== verification/Guest.v ===== *)
(** Guests, their devices and their sessions: the data.

    The tables of [src/backend/app/domains/guest/models.py], the enumerations
    and constants of [constants.py], the transition table of a session and the
    queries of [repository.py].  The rows are written through
    [GenericRepository.update]; nothing in the guest domain deletes a guest, a
    device, a session or a quota row, so the [is_deleted] filters are left
    out.  Columns that no modelled operation reads (user agent, language,
    profile fields, review prompts) are left out too. *)

From S2P Require Import Prelude Table PyStr Tenancy.

Module Guest.

(** ** [constants.py] *)
Inductive GuestAuthMethod :=
| OTP_SMS | OTP_EMAIL | OTP_WHATSAPP | VOUCHER | USERNAME_PASSWORD | MAC_WHITELIST | PIN.
#[export] Instance auth_method_eq_dec : EqDecision GuestAuthMethod.
Proof. solve_decision. Defined.

Inductive GuestSessionStatus := ACTIVE | DISCONNECTED | EXPIRED | TERMINATED | PAUSED.
#[export] Instance status_eq_dec : EqDecision GuestSessionStatus.
Proof. solve_decision. Defined.

Definition GUEST_SESSION_STATUS_TRANSITIONS (s : GuestSessionStatus) : list GuestSessionStatus :=
  match s with
  | ACTIVE => [DISCONNECTED; EXPIRED; TERMINATED; PAUSED]
  | PAUSED => [ACTIVE; DISCONNECTED; TERMINATED]
  | DISCONNECTED | EXPIRED | TERMINATED => []
  end.

(** In the order of the enumeration. *)
Inductive QuotaPeriodType := DAILY | WEEKLY | MONTHLY.
#[export] Instance period_type_eq_dec : EqDecision QuotaPeriodType.
Proof. solve_decision. Defined.
Definition period_types : list QuotaPeriodType := [DAILY; WEEKLY; MONTHLY].

Definition DEFAULT_SESSION_TIMEOUT_MINUTES : Z := 240.
Definition DEFAULT_IDLE_TIMEOUT_MINUTES : Z := 30.
Definition TERMINATION_RECONNECT_COOLDOWN_MINUTES : Z := 60.
Definition RECONNECT_GRACE_MINUTES : Z := 30.
Definition BYTES_PER_MB : Z := 1024 * 1024.
Definition SESSION_ACTIVITY_GRACE_MINUTES : Z := 10.
Definition SESSION_PRESENCE_GRACE_MINUTES : Z := 10.
Definition DEFAULT_MAX_CONCURRENT_SESSIONS_PER_GUEST : Z := 20.
Definition DEFAULT_MAX_DEVICES_PER_GUEST : Z := 3.

(** What is written to [disconnect_reason]. *)
Definition SESSION_TIMEOUT_DISCONNECT_REASON : pystr := u "inactivity_timeout".
Definition SESSION_TIME_LIMIT_DISCONNECT_REASON : pystr := u "session_time_limit_reached".
Definition SESSION_PRESENCE_DISCONNECT_REASON : pystr := u "device_left_network".
Definition OPEN_HOURS_DISCONNECT_REASON : pystr := u "venue_closed".
Definition period_value (p : QuotaPeriodType) : pystr :=
  match p with DAILY => u "daily" | WEEKLY => u "weekly" | MONTHLY => u "monthly" end.

(** ** [exceptions.py] *)
Inductive error :=
| GuestNotFoundError | CrossLocationGuestAccessError | CrossOrganizationGuestAccessError
| GuestBlockedError (reason : option pystr) | GuestSessionNotFoundError
| InvalidSessionStatusTransitionError (current target : GuestSessionStatus)
| SessionTerminationCooldownError (retry_after_minutes : Z)
| NoReconnectableSessionError | RouterNotEligibleForGuestSessionError
| InvalidExtensionMinutesError (minutes : Z)
| GuestSelfDisconnectNotAuthorizedError
| ConcurrentSessionLimitExceededError (limit : Z) | GuestDeviceLimitExceededError (limit : Z)
| FairUsagePolicyExceededError (period : QuotaPeriodType) (data : bool) (limit used : Z)
| GuestTeamSharedQuotaExceededError
(** The primary key of a new row is taken. *)
| DuplicateRecordError
| GuestAuthMethodNotEnabledError | VenueClosedError | AccessTierOutsideLoginHoursError
| GuestAccessDeniedError (reason : option pystr) | WhitelistOnlyAccessDeniedError
| MacAddressNotAuthorizedError | GuestPasswordLoginFailedError | OtpVerificationFailed
(** Raised by a collaborator of the service. *)
| CollaboratorError.

(** ** [models.py] *)
Record Guest := mk_guest {
  guest_id : uuid;
  guest_org : uuid;
  guest_location : option uuid;
  identifier : pystr;
  first_seen_at : datetime;
  last_seen_at : datetime;
  total_visit_count : Z;
  is_blocked : bool;
  blocked_reason : option pystr;
}.
#[export] Instance guest_has_id : HasId Guest := guest_id.

Record GuestDevice := mk_device {
  device_id : uuid;
  device_guest : uuid;
  mac_address : pystr;
  device_seen_at : datetime;
}.
#[export] Instance device_has_id : HasId GuestDevice := device_id.

Record GuestSession := mk_session {
  session_id : uuid;
  session_guest : uuid;
  session_device : option uuid;
  session_router : uuid;
  session_location : uuid;
  session_org : uuid;
  auth_method : GuestAuthMethod;
  voucher_id : option uuid;
  status : GuestSessionStatus;
  started_at : datetime;
  ended_at : option datetime;
  last_activity_at : datetime;
  ip_address : option pystr;
  bytes_uploaded : Z;
  bytes_downloaded : Z;
  data_limit_mb : option Z;
  session_timeout_minutes : option Z;
  idle_timeout_minutes : option Z;
  disconnect_reason : option pystr;
  disconnect_enforced : option bool;
}.
#[export] Instance session_has_id : HasId GuestSession := session_id.
Definition total_bytes (x : GuestSession) : Z := bytes_uploaded x + bytes_downloaded x.
Definition is_active (x : GuestSession) : bool := bool_decide (status x = ACTIVE).

(** One row per guest and period: the unique index is the row's key here. *)
Record GuestQuotaUsage := mk_usage {
  usage_guest : uuid;
  usage_org : uuid;
  period_type : QuotaPeriodType;
  period_start : datetime;
  bytes_used : Z;
  minutes_used : Z;
  last_accrued_at : option datetime;
}.

(** A login attempt: the method, and why it failed if it did. *)
Record GuestLoginHistory := mk_login {
  login_guest : option uuid;
  login_identifier : pystr;
  login_method : GuestAuthMethod;
  failure : option error;
  attempted_at : datetime;
}.

Record database := mk_database {
  guests : list Guest;
  devices : list GuestDevice;
  sessions : list GuestSession;
  usages : list GuestQuotaUsage;
  login_history : list GuestLoginHistory;
}.
Abbreviation op := (M database error).

Definition set_guests f d := mk_database (f (guests d)) (devices d) (sessions d) (usages d) (login_history d).
Definition set_devices f d := mk_database (guests d) (f (devices d)) (sessions d) (usages d) (login_history d).
Definition set_sessions f d := mk_database (guests d) (devices d) (f (sessions d)) (usages d) (login_history d).
Definition set_usages f d := mk_database (guests d) (devices d) (sessions d) (f (usages d)) (login_history d).
Definition set_login_history f d :=
  mk_database (guests d) (devices d) (sessions d) (usages d) (f (login_history d)).

(** ** The columns of a session that operations write *)
Definition with_status (s : GuestSessionStatus) (e : option datetime) (r : option pystr) x :=
  mk_session (session_id x) (session_guest x) (session_device x) (session_router x)
    (session_location x) (session_org x) (auth_method x) (voucher_id x) s (started_at x) e
    (last_activity_at x) (ip_address x) (bytes_uploaded x) (bytes_downloaded x) (data_limit_mb x)
    (session_timeout_minutes x) (idle_timeout_minutes x) r (disconnect_enforced x).
Definition with_activity (t : datetime) x :=
  mk_session (session_id x) (session_guest x) (session_device x) (session_router x)
    (session_location x) (session_org x) (auth_method x) (voucher_id x) (status x) (started_at x)
    (ended_at x) t (ip_address x) (bytes_uploaded x) (bytes_downloaded x) (data_limit_mb x)
    (session_timeout_minutes x) (idle_timeout_minutes x) (disconnect_reason x)
    (disconnect_enforced x).
Definition with_bytes (up down : Z) x :=
  mk_session (session_id x) (session_guest x) (session_device x) (session_router x)
    (session_location x) (session_org x) (auth_method x) (voucher_id x) (status x) (started_at x)
    (ended_at x) (last_activity_at x) (ip_address x) up down (data_limit_mb x)
    (session_timeout_minutes x) (idle_timeout_minutes x) (disconnect_reason x)
    (disconnect_enforced x).
Definition with_limits (data timeout idle : option Z) x :=
  mk_session (session_id x) (session_guest x) (session_device x) (session_router x)
    (session_location x) (session_org x) (auth_method x) (voucher_id x) (status x) (started_at x)
    (ended_at x) (last_activity_at x) (ip_address x) (bytes_uploaded x) (bytes_downloaded x)
    data timeout idle (disconnect_reason x) (disconnect_enforced x).
Definition with_login (m : GuestAuthMethod) (voucher : option uuid) (ip : option pystr) x :=
  mk_session (session_id x) (session_guest x) (session_device x) (session_router x)
    (session_location x) (session_org x) m voucher (status x) (started_at x)
    (ended_at x) (last_activity_at x) ip (bytes_uploaded x) (bytes_downloaded x) (data_limit_mb x)
    (session_timeout_minutes x) (idle_timeout_minutes x) (disconnect_reason x)
    (disconnect_enforced x).
Definition with_enforced (b : bool) x :=
  mk_session (session_id x) (session_guest x) (session_device x) (session_router x)
    (session_location x) (session_org x) (auth_method x) (voucher_id x) (status x) (started_at x)
    (ended_at x) (last_activity_at x) (ip_address x) (bytes_uploaded x) (bytes_downloaded x)
    (data_limit_mb x) (session_timeout_minutes x) (idle_timeout_minutes x) (disconnect_reason x)
    (Some b).

(** ** [repository.py] *)
Definition get_guest_by_id (k : uuid) (d : database) : option Guest := by_id k (guests d).
Definition update_guest (x : Guest) (f : Guest → Guest) : op Guest :=
  _ ← modify (set_guests (set_row f (guest_id x))); mret (f x).

Definition create_guest (x : Guest) : op Guest :=
  taken ← gets (λ d, bool_decide (get_guest_by_id (guest_id x) d ≠ None)
    || bool_decide (select_one (λ y, bool_decide (guest_org y = guest_org x)
         && bool_decide (identifier y = identifier x)) (guests d) ≠ None));
  _ ← raise_if taken DuplicateRecordError;
  _ ← modify (set_guests (insert_row x));
  mret x.

Definition get_device_by_id (k : uuid) (d : database) : option GuestDevice := by_id k (devices d).
Definition get_device_by_mac (m : pystr) (d : database) : option GuestDevice :=
  select_one (λ x, bool_decide (mac_address x = m)) (devices d).
Definition update_device (x : GuestDevice) (f : GuestDevice → GuestDevice) : op GuestDevice :=
  _ ← modify (set_devices (set_row f (device_id x))); mret (f x).

Definition create_device (x : GuestDevice) : op GuestDevice :=
  taken ← gets (λ d, bool_decide (get_device_by_id (device_id x) d ≠ None)
    || bool_decide (get_device_by_mac (mac_address x) d ≠ None));
  _ ← raise_if taken DuplicateRecordError;
  _ ← modify (set_devices (insert_row x));
  mret x.

Definition get_session_by_id (k : uuid) (d : database) : option GuestSession := by_id k (sessions d).
Definition create_session (x : GuestSession) : op GuestSession :=
  taken ← gets (get_session_by_id (session_id x));
  _ ← raise_if (bool_decide (taken ≠ None)) DuplicateRecordError;
  _ ← modify (set_sessions (insert_row x));
  mret x.
Definition update_session (x : GuestSession) (f : GuestSession → GuestSession) : op GuestSession :=
  _ ← modify (set_sessions (set_row f (session_id x))); mret (f x).

Definition of_guest (g : uuid) (x : GuestSession) : bool := bool_decide (session_guest x = g).
Definition list_active_sessions_for_guest (g : uuid) (d : database) : list GuestSession :=
  select (λ x, of_guest g x && is_active x) (sessions d).
Definition list_active_sessions_for_router (r : uuid) (d : database) : list GuestSession :=
  select (λ x, bool_decide (session_router x = r) && is_active x) (sessions d).
Definition list_active_sessions_for_location (org location : uuid) (d : database) :
    list GuestSession :=
  select (λ x, bool_decide (session_org x = org) && bool_decide (session_location x = location)
               && is_active x) (sessions d).
Definition count_active_sessions_for_guest (g : uuid) (d : database) : Z :=
  rowcount (λ x, of_guest g x && is_active x) (sessions d).

(** [COUNT(DISTINCT device_id)]. *)
Definition active_devices_for_guest (g : uuid) (d : database) : list uuid :=
  remove_dups (omap session_device (list_active_sessions_for_guest g d)).
Definition count_active_devices_for_guest (g : uuid) (exclude : option uuid) (d : database) : Z :=
  Z.of_nat (length (match exclude with
    | Some k => List.filter (λ j, bool_decide (j ≠ k)) (active_devices_for_guest g d)
    | None => active_devices_for_guest g d
    end)).

(** [ORDER BY started_at DESC LIMIT 1]. *)
Definition get_latest_session_for_guest (g : uuid) (d : database) : option GuestSession :=
  least (λ x, - started_at x) (select (of_guest g) (sessions d)).
(** [ORDER BY ended_at DESC LIMIT 1]: PostgreSQL puts NULLs first. *)
Definition get_latest_terminated_session_for_guest (g : uuid) (d : database) :
    option GuestSession :=
  let rows := select (λ x, of_guest g x && bool_decide (status x = TERMINATED)) (sessions d) in
  match select_one (λ x, bool_decide (ended_at x = None)) rows with
  | Some x => Some x
  | None => least (λ x, match ended_at x with Some t => - t | None => 0 end) rows
  end.

(** [get_latest_ended_session_for_device]. *)
Definition get_latest_ended_session_for_device (router device : uuid)
    (statuses : list GuestSessionStatus) (ended_after : datetime) (d : database) :
    option GuestSession :=
  least (λ x, match ended_at x with Some t => - t | None => 0 end)
    (select (λ x, bool_decide (session_router x = router)
       && bool_decide (session_device x = Some device) && bool_decide (status x ∈ statuses)
       && match ended_at x with Some t => ended_after <=? t | None => false end) (sessions d)).

(** The candidates of the timeout sweep.  [LEAST] ignores NULLs. *)
Definition sql_least (a b : option Z) : option Z :=
  match a, b with Some a, Some b => Some (Z.min a b) | Some a, None => Some a | None, b => b end.
Definition idle_expired (now : datetime) (x : GuestSession) : bool :=
  last_activity_at x
    + minutes (default DEFAULT_IDLE_TIMEOUT_MINUTES
                 (sql_least (idle_timeout_minutes x) (session_timeout_minutes x))
               + SESSION_ACTIVITY_GRACE_MINUTES) <? now.
Definition time_limit_overrun (now : datetime) (x : GuestSession) : bool :=
  match session_timeout_minutes x with
  | Some m => started_at x + minutes (m + SESSION_ACTIVITY_GRACE_MINUTES) <? now
  | None => false
  end.
Definition list_timed_out_sessions (now : datetime) (d : database) : list GuestSession :=
  select (λ x, is_active x && (idle_expired now x || time_limit_overrun now x)) (sessions d).

(** [venue_activity_was_reported_since]. *)
Definition venue_activity_was_reported_since (org location : uuid) (since : datetime)
    (d : database) : bool :=
  0 <? rowcount (λ x, bool_decide (session_org x = org) && bool_decide (session_location x = location)
    && (since <=? last_activity_at x) && (started_at x <? last_activity_at x)) (sessions d).

Definition get_quota_usage (g : uuid) (p : QuotaPeriodType) (d : database) : option GuestQuotaUsage :=
  select_one (λ x, bool_decide (usage_guest x = g) && bool_decide (period_type x = p)) (usages d).
Definition same_usage (x y : GuestQuotaUsage) : bool :=
  bool_decide (usage_guest y = usage_guest x) && bool_decide (period_type y = period_type x).
Definition create_quota_usage (x : GuestQuotaUsage) : op GuestQuotaUsage :=
  _ ← modify (set_usages (insert_row x)); mret x.
Definition update_quota_usage (x : GuestQuotaUsage) (f : GuestQuotaUsage → GuestQuotaUsage) :
    op GuestQuotaUsage :=
  _ ← modify (set_usages (update (same_usage x) f)); mret (f x).
Definition create_login_history (x : GuestLoginHistory) : op GuestLoginHistory :=
  _ ← modify (set_login_history (insert_row x)); mret x.

End Guest.
