(* ===== verification/GuestSession.v ===== *)
(** The life of a guest session.

    The predicates of [src/backend/app/domains/guest/validators.py] on a
    session, and the operations of [service.py] that end, pause, resume,
    extend and restore one: those an operator or a guest asks for, and the
    sweeps that run on their own (timeouts, presence, a restarted NAS, closing
    time).  Minutes are compared exactly; the code divides
    [timedelta.total_seconds()] by 60, which for the spans of a session (less
    than a century) is the same comparison.  Writes to the audit log and the
    messages to routers are not state of this model; what the router answers
    when a session is ended on it is an argument. *)

From S2P Require Import Prelude Table PyStr Tenancy Guest.

Module GuestSession.
Import Guest.

(** ** [validators.py] *)
Section validators.
Variable now : datetime.

Definition valid_transition (current target : GuestSessionStatus) : bool :=
  bool_decide (target ∈ GUEST_SESSION_STATUS_TRANSITIONS current).
Definition validate_session_status_transition (current target : GuestSessionStatus) : op unit :=
  raise_if (negb (valid_transition current target))
    (InvalidSessionStatusTransitionError current target).

Definition session_idle_cutoff_minutes (x : GuestSession) : Z :=
  match omap id [idle_timeout_minutes x; session_timeout_minutes x] with
  | [] => DEFAULT_IDLE_TIMEOUT_MINUTES
  | m :: ms => foldl Z.min m ms
  end.
Definition is_session_timed_out (x : GuestSession) : bool :=
  minutes (session_idle_cutoff_minutes x + SESSION_ACTIVITY_GRACE_MINUTES)
    <=? now - last_activity_at x.
Definition has_session_overrun_time_limit (x : GuestSession) : bool :=
  match session_timeout_minutes x with
  | None => false
  | Some m => minutes (m + SESSION_ACTIVITY_GRACE_MINUTES) <=? now - started_at x
  end.
Definition is_session_stale (activity_is_observable : bool) (x : GuestSession) : bool :=
  if activity_is_observable then is_session_timed_out x || has_session_overrun_time_limit x
  else has_session_overrun_time_limit x.
Definition has_session_reached_time_limit (x : GuestSession) : bool :=
  match session_timeout_minutes x with
  | None => false
  | Some m => minutes m <=? now - started_at x
  end.
Definition is_session_presence_judgeable (grace_minutes : Z) (x : GuestSession) : bool :=
  (started_at x <=? now - minutes grace_minutes)
  && (last_activity_at x <=? now - minutes grace_minutes).
Definition later_session_activity (x : GuestSession) (heard_at : datetime) : option datetime :=
  let observed := Z.min heard_at now in
  if observed <=? last_activity_at x then None else Some observed.

Record RouterActivityRead := mk_read { applies : bool; read_at : option datetime }.
Definition idle_verdict_is_evidenced (x : GuestSession) (read : option RouterActivityRead) : bool :=
  match read with
  | None => true
  | Some r =>
      if negb (applies r) then true
      else if 0 <? total_bytes x then true
      else match read_at r with
           | None => false
           | Some t => last_activity_at x + minutes (session_idle_cutoff_minutes x) <=? t
           end
  end.

Definition is_quota_exceeded (x : GuestSession) : bool :=
  match data_limit_mb x with
  | None => false
  | Some mb => mb * BYTES_PER_MB <=? total_bytes x
  end.
End validators.

Section normalize.
Context {PU : PyUnicode}.
Definition normalize_mac_address (m : pystr) : pystr := upper (strip m).
End normalize.

(** ** Ending a session on its router *)

(** What [end_on_router] does: it raises, or its outcome carries these two
    counters, if it is an outcome at all. *)
Inductive end_outcome := EndRaises | EndReports (removed still_active : option Z).
Definition terminator := GuestSession → pystr → end_outcome.

Definition removals_reported (removed still_active : option Z) : option Z :=
  match removed with
  | None => None
  | Some n => match still_active with Some m => if 0 <? m then Some 0 else Some n | None => Some n end
  end.

(** What [disconnect_enforced] becomes, and what the function returns. *)
Definition live_disconnect (term : option terminator) (guest : option Guest) (x : GuestSession) :
    option bool * option bool :=
  match guest with
  | None => (Some false, None)
  | Some g =>
      match term with
      | None => (Some false, None)
      | Some end_on_router =>
          match end_on_router x (identifier g) with
          | EndRaises => (Some false, Some false)
          | EndReports removed still =>
              match removals_reported removed still with
              | None => (None, None)
              | Some n => if n <? 1 then (None, None) else (Some true, Some true)
              end
          end
      end
  end.
Definition record_enforced (o : option bool) (x : GuestSession) : GuestSession :=
  match o with Some b => with_enforced b x | None => x end.
(** Returns the session object it was given, as it is afterwards, too. *)
Definition issue_live_disconnect (term : option terminator) (already_ended_on_device : bool)
    (x : GuestSession) : op (GuestSession * option bool) :=
  if already_ended_on_device then mret (x, None)
  else
    guest ← gets (get_guest_by_id (session_guest x));
    let '(enforced, result) := live_disconnect term guest x in
    match enforced with
    | None => mret (x, result)
    | Some b => y ← update_session x (with_enforced b); mret (y, result)
    end.

Section service.
Context {PU : PyUnicode}.
(** [session_end_hook], and the caller. *)
Variable term : option terminator.
Variable scope : option (list uuid).
Variable now : datetime.

Definition other_tenant (org : uuid) (requesting : option uuid) : bool :=
  match requesting with Some o => bool_decide (org ≠ o) | None => false end.

Definition get_session (k : uuid) (requesting : option uuid) : op GuestSession :=
  row ← gets (get_session_by_id k);
  x ← of_option row GuestSessionNotFoundError;
  _ ← raise_if (other_tenant (session_org x) requesting) CrossOrganizationGuestAccessError;
  _ ← raise_if (negb (Tenancy.enforce_entity_location (Some (session_location x)) scope))
        CrossLocationGuestAccessError;
  mret x.

(** ** What operators and guests ask for *)
Definition disconnect_session (k : uuid) (requesting : option uuid) (reason : option pystr)
    (already_ended_on_device : bool) : op GuestSession :=
  x ← get_session k requesting;
  _ ← validate_session_status_transition (status x) DISCONNECTED;
  y ← update_session x (with_status DISCONNECTED (Some now) reason);
  r ← issue_live_disconnect term already_ended_on_device y;
  mret r.1.

Definition terminate_session (k : uuid) (requesting : option uuid) (reason : option pystr) :
    op GuestSession :=
  x ← get_session k requesting;
  _ ← validate_session_status_transition (status x) TERMINATED;
  y ← update_session x (with_status TERMINATED (Some now) reason);
  r ← issue_live_disconnect term false y;
  mret r.1.

(** The status and the reason change, [ended_at] does not. *)
Definition paused (reason : option pystr) (x : GuestSession) : GuestSession :=
  with_status PAUSED (ended_at x) reason x.
Definition pause_session (k : uuid) (requesting : option uuid) (reason : option pystr) :
    op GuestSession :=
  x ← get_session k requesting;
  _ ← validate_session_status_transition (status x) PAUSED;
  y ← update_session x (paused reason);
  r ← issue_live_disconnect term false y;
  mret r.1.

Definition resumed (x : GuestSession) : GuestSession :=
  with_activity now (with_status ACTIVE (ended_at x) None x).
Definition resume_session (k : uuid) (requesting : option uuid) : op GuestSession :=
  x ← get_session k requesting;
  _ ← validate_session_status_transition (status x) ACTIVE;
  update_session x resumed.

Definition extended (m : Z) (x : GuestSession) : GuestSession :=
  with_activity now (with_limits (data_limit_mb x) (Some m) (idle_timeout_minutes x) x).
Definition extend_session (k : uuid) (additional_minutes : Z) (requesting : option uuid) :
    op GuestSession :=
  _ ← raise_if (additional_minutes <=? 0) (InvalidExtensionMinutesError additional_minutes);
  x ← get_session k requesting;
  _ ← raise_if (bool_decide (status x ∉ [ACTIVE; PAUSED]))
        (InvalidSessionStatusTransitionError (status x) (status x));
  update_session x (extended (default 0 (session_timeout_minutes x) + additional_minutes)).

Definition disconnect_own_session (guest k : uuid) (reason : option pystr) : op GuestSession :=
  row ← gets (get_session_by_id k);
  x ← of_option row GuestSelfDisconnectNotAuthorizedError;
  _ ← raise_if (bool_decide (session_guest x ≠ guest)) GuestSelfDisconnectNotAuthorizedError;
  _ ← validate_session_status_transition (status x) DISCONNECTED;
  y ← update_session x (with_status DISCONNECTED (Some now)
        (Some (match reason with Some (c :: s) => c :: s | _ => u "guest_initiated" end)));
  r ← issue_live_disconnect term false y;
  mret r.1.

(** ** The sweeps *)

(** Is guest activity reported at a venue at all, and what is known about the
    reads of a router: each answers or raises. *)
Definition venue_lookup := uuid * uuid → option bool.
Definition read_lookup := uuid → option RouterActivityRead.
Definition unread : RouterActivityRead := mk_read true None.

Section timeouts.
Variable activity_reporting : option venue_lookup.
Variable activity_reads : option read_lookup.

Definition ask_venue (x : GuestSession) (seen : gmap (uuid * uuid) bool) :
    bool * gmap (uuid * uuid) bool :=
  let venue := (session_org x, session_location x) in
  match activity_reporting with
  | None => (true, seen)
  | Some venue_reports_guest_activity =>
      match seen !! venue with
      | Some b => (b, seen)
      | None => let b := default false (venue_reports_guest_activity venue) in (b, <[venue:=b]> seen)
      end
  end.
Definition ask_router (x : GuestSession) (seen : gmap uuid RouterActivityRead)
    (router_activity_read : read_lookup) : RouterActivityRead * gmap uuid RouterActivityRead :=
  match seen !! session_router x with
  | Some r => (r, seen)
  | None =>
      let r := default unread (router_activity_read (session_router x)) in
      (r, <[session_router x:=r]> seen)
  end.

Definition timeout_reason (observable : bool) : pystr :=
  if observable then SESSION_TIMEOUT_DISCONNECT_REASON else SESSION_TIME_LIMIT_DISCONNECT_REASON.
Definition expire_stale (observable : bool) (x : GuestSession) : op (option GuestSession) :=
  if negb (is_session_stale now observable x) then mret None
  else
    y ← update_session x (with_status EXPIRED (Some now) (Some (timeout_reason observable)));
    r ← issue_live_disconnect term false y;
    mret (Some r.1).

Fixpoint timeout_loop (candidates : list GuestSession) (venues : gmap (uuid * uuid) bool)
    (reads : gmap uuid RouterActivityRead) : op (list GuestSession) :=
  match candidates with
  | [] => mret []
  | x :: candidates =>
      let '(observable, venues) := ask_venue x venues in
      let '(observable, reads) :=
        match activity_reads with
        | Some lookup =>
            if observable then
              let '(r, reads) := ask_router x reads lookup in
              (idle_verdict_is_evidenced x (Some r), reads)
            else (observable, reads)
        | None => (observable, reads)
        end in
      r ← expire_stale observable x;
      expired ← timeout_loop candidates venues reads;
      mret (match r with Some y => y :: expired | None => expired end)
  end.
Definition enforce_session_timeouts : op (list GuestSession) :=
  candidates ← gets (list_timed_out_sessions now);
  timeout_loop candidates ∅ ∅.
End timeouts.

Definition close_sessions_for_nas_restart (router : uuid) (reason : pystr) :
    op (list GuestSession) :=
  rows ← gets (list_active_sessions_for_router router);
  collect (λ x, y ← update_session x (with_status DISCONNECTED (Some now) (Some reason));
                mret (Some y)) rows.

Definition refresh_session_activity_from_router (router : uuid)
    (last_heard : gmap pystr datetime) : op (list GuestSession) :=
  if bool_decide (last_heard = ∅) then mret []
  else
    rows ← gets (list_active_sessions_for_router router);
    collect (λ x,
      match session_device x with
      | None => mret None
      | Some k =>
          dev ← gets (get_device_by_id k);
          match dev with
          | None => mret None
          | Some dev =>
              match last_heard !! normalize_mac_address (mac_address dev) with
              | None => mret None
              | Some heard_at =>
                  match later_session_activity now x heard_at with
                  | None => mret None
                  | Some t => y ← update_session x (with_activity t); mret (Some y)
                  end
              end
          end
      end) rows.

Definition reconcile_sessions_with_router_presence (router : uuid) (present_macs : list pystr)
    (grace_minutes : Z) : op (list GuestSession) :=
  rows ← gets (list_active_sessions_for_router router);
  collect (λ x,
    match session_device x with
    | None => mret None
    | Some k =>
        if negb (is_session_presence_judgeable now grace_minutes x) then mret None
        else
          dev ← gets (get_device_by_id k);
          match dev with
          | None => mret None
          | Some dev =>
              if bool_decide (normalize_mac_address (mac_address dev) ∈ present_macs)
              then mret None
              else
                y ← update_session x (with_status DISCONNECTED (Some now)
                      (Some SESSION_PRESENCE_DISCONNECT_REASON));
                mret (Some y)
          end
    end) rows.

(** A venue that closes: [_end_sessions_at_location]. *)
Definition end_sessions_at_location (location org : uuid) : op (list GuestSession) :=
  rows ← gets (list_active_sessions_for_location org location);
  collect (λ x,
    y ← update_session x (with_status TERMINATED (Some now) (Some OPEN_HOURS_DISCONNECT_REASON));
    r ← issue_live_disconnect term false y;
    mret (Some r.1)) rows.
End service.

(** ** How the writes compose *)
Definition others (d : database) := (guests d, devices d, usages d, login_history d).

Lemma set_sessions_set (f g : list GuestSession → list GuestSession) d : set_sessions f (set_sessions g d) = set_sessions (λ t, f (g t)) d.
Proof. done. Qed.
Lemma set_sessions_ext (f g : list GuestSession → list GuestSession) d :
  f (sessions d) = g (sessions d) → set_sessions f d = set_sessions g d.
Proof. unfold set_sessions. by intros ->. Qed.
Lemma set_sessions_id (d : database) : set_sessions (λ t, t) d = d.
Proof. by destruct d. Qed.

(** A sweep whose turns write only their own row is one [UPDATE]. *)
Lemma session_sweep (q p : GuestSession → bool) g (body : GuestSession → op (option GuestSession)) d :
  keyed (sessions d) → (∀ x, session_id (g x) = session_id x) →
  (∀ x d', q x = true → others d' = others d → x ∈ sessions d' → keyed (sessions d') →
     body x d' = (Ok (if p x then Some (g x) else None),
                  if p x then set_sessions (set_row (λ _, g x) (session_id x)) d' else d')) →
  collect body (select q (sessions d)) d
    = (Ok (map g (select (λ x, q x && p x) (sessions d))),
       set_sessions (update (λ x, q x && p x) g) d).
Proof.
  intros Hd Hg Hbody. apply (loop_is_update session_id sessions set_sessions others); try done.
  - apply set_sessions_ext.
  - apply set_sessions_id.
Qed.

(** What [issue_live_disconnect] records and returns. *)
Definition disconnect_outcome (term : option terminator) (already : bool) (guest : option Guest)
    (x : GuestSession) : option bool * option bool :=
  if already then (None, None) else live_disconnect term guest x.

Lemma live_disconnect_eq term already x d :
  issue_live_disconnect term already x d =
    let o := disconnect_outcome term already (get_guest_by_id (session_guest x) d) x in
    (Ok (record_enforced o.1 x, o.2),
     set_sessions (set_row (record_enforced o.1) (session_id x)) d).
Proof.
  assert (∀ k, set_sessions (set_row (λ y, y) k) d = d) as Hid.
  { intros k. rewrite <-(set_sessions_id d) at 2. apply set_sessions_ext. apply set_row_id. }
  unfold issue_live_disconnect, disconnect_outcome. destruct already; [cbn; by rewrite Hid|].
  erewrite bind_step by reflexivity.
  destruct (live_disconnect term _ x) as [[b|] r]; cbn; [done|by rewrite Hid].
Qed.

(** The row an operation leaves when it writes [f] and then ends the session
    on its router. *)
Definition cut (term : option terminator) (already : bool) (f : GuestSession → GuestSession)
    (guest : option Guest) (x : GuestSession) : GuestSession :=
  record_enforced (disconnect_outcome term already guest (f x)).1 (f x).

Definition written (y x : GuestSession) (d : database) : database :=
  set_sessions (set_row (λ _, y) (session_id x)) d.

Lemma by_id_session k d x : get_session_by_id k d = Some x → x ∈ sessions d ∧ session_id x = k.
Proof. apply by_id_Some. Qed.

Lemma update_session_eq f x d : keyed (sessions d) → x ∈ sessions d →
  update_session x f d = (Ok (f x), written (f x) x d).
Proof.
  intros Hd Hx. unfold update_session, written. erewrite bind_step by reflexivity.
  unfold mret, M_ret. f_equal. apply set_sessions_ext. change (session_id x) with (row_id x).
  by rewrite (set_row_const f), (set_row_const (λ _, _)).
Qed.

Lemma write_then_disconnect {B} term already f x d (k : GuestSession * option bool → op B) :
  keyed (sessions d) → x ∈ sessions d →
  session_id (f x) = session_id x → session_guest (f x) = session_guest x →
  (y ← update_session x f; r ← issue_live_disconnect term already y; k r) d
    = let guest := get_guest_by_id (session_guest x) d in
      k (cut term already f guest x, (disconnect_outcome term already guest (f x)).2)
        (written (cut term already f guest x) x d).
Proof.
  intros Hd Hx Hid Hguest. erewrite bind_step by (by apply update_session_eq).
  erewrite bind_step by apply live_disconnect_eq. unfold cut. rewrite Hguest, Hid.
  change (get_guest_by_id (session_guest x) (written _ x d))
    with (get_guest_by_id (session_guest x) d).
  cbn zeta. generalize (disconnect_outcome term already (get_guest_by_id (session_guest x) d) (f x)).
  intros [e r]. cbn [fst snd]. f_equal. unfold written. rewrite set_sessions_set. apply set_sessions_ext.
  change (session_id x) with (row_id x).
  unfold set_row, update. rewrite map_map. apply map_ext. intros r'. unfold has_id.
  destruct (bool_decide (row_id r' = row_id x)) eqn:Hk; [|by rewrite Hk].
  change (row_id (f x)) with (session_id (f x)). rewrite Hid. by rewrite bool_decide_true.
Qed.

(** ** The timeout sweep *)
Section timeouts.
Variable term : option terminator.
Variable now : datetime.
Variable activity_reporting : option venue_lookup.
Variable activity_reads : option read_lookup.

(** The two lookups without their memory: is an idle verdict on [x] allowed? *)
Definition observable (x : GuestSession) : bool :=
  match activity_reporting with
  | None => true
  | Some ask => default false (ask (session_org x, session_location x))
  end
  && match activity_reads with
     | None => true
     | Some ask => idle_verdict_is_evidenced x (Some (default unread (ask (session_router x))))
     end.

Definition times_out (x : GuestSession) : bool :=
  is_active x && (idle_expired now x || time_limit_overrun now x)
  && is_session_stale now (observable x) x.
Definition timed_out (d : database) (x : GuestSession) : GuestSession :=
  cut term false (with_status EXPIRED (Some now) (Some (timeout_reason (observable x))))
    (get_guest_by_id (session_guest x) d) x.

Definition remembers {K A} `{Countable K} (f : K → A) (seen : gmap K A) : Prop :=
  ∀ k a, seen !! k = Some a → a = f k.
Lemma remembers_insert {K A} `{Countable K} (f : K → A) seen k :
  remembers f seen → remembers f (<[k := f k]> seen).
Proof. intros Hs j a [[<- <-]|[_ Hj]]%lookup_insert_Some; [done|by apply Hs]. Qed.
Lemma remembers_empty {K A} `{Countable K} (f : K → A) : remembers f ∅.
Proof. by intros k a ?%lookup_empty_Some. Qed.

Definition venue_answer (v : uuid * uuid) : bool :=
  match activity_reporting with None => true | Some ask => default false (ask v) end.
Definition router_answer (r : uuid) : RouterActivityRead :=
  match activity_reads with None => unread | Some ask => default unread (ask r) end.

Lemma timeout_loop_collect l : ∀ venues reads d,
  remembers venue_answer venues → remembers router_answer reads →
  timeout_loop term now activity_reporting activity_reads l venues reads d
    = collect (λ x, expire_stale term now (observable x) x) l d.
Proof.
  induction l as [|x l IH]; intros venues reads d Hv Hr; [done|]. cbn [timeout_loop collect].
  assert (∃ venues', ask_venue activity_reporting x venues
      = (venue_answer (session_org x, session_location x), venues') ∧ remembers venue_answer venues')
    as (venues' & -> & Hv').
  { unfold ask_venue, venue_answer in *. destruct activity_reporting as [ask|]; [|by eexists].
    destruct (venues !! _) as [b|] eqn:Hb.
    - rewrite (Hv _ _ Hb). by eexists.
    - eexists. split; [done|]. by apply (remembers_insert (λ v, default false (ask v))). }
  assert (observable x = venue_answer (session_org x, session_location x)
    && match activity_reads with
       | None => true
       | Some ask => idle_verdict_is_evidenced x (Some (default unread (ask (session_router x))))
       end) as -> by done.
  unfold router_answer in *. destruct activity_reads as [ask|].
  - destruct (venue_answer _); cbn [andb].
    + assert (∃ reads', ask_router x reads ask = (default unread (ask (session_router x)), reads')
        ∧ remembers (λ r, default unread (ask r)) reads') as (reads' & -> & Hr').
      { unfold ask_router. destruct (reads !! _) as [r|] eqn:Hread.
        - rewrite (Hr _ _ Hread). by eexists.
        - eexists. split; [done|]. by apply (remembers_insert (λ r, default unread (ask r))). }
      unfold mbind, M_bind. destruct (expire_stale _ _ _ _ d) as [[r|e] d1]; [|done].
      by rewrite IH.
    + unfold mbind, M_bind. destruct (expire_stale _ _ _ _ d) as [[r|e] d1]; [|done].
      by rewrite IH.
  - rewrite andb_true_r. unfold mbind, M_bind.
    destruct (expire_stale _ _ _ _ d) as [[r|e] d1]; [|done]. by rewrite IH.
Qed.

Lemma expire_stale_eq x d : keyed (sessions d) → x ∈ sessions d →
  expire_stale term now (observable x) x d
    = (Ok (if is_session_stale now (observable x) x then Some (timed_out d x) else None),
       if is_session_stale now (observable x) x then written (timed_out d x) x d else d).
Proof.
  intros Hd Hx. unfold expire_stale. destruct (is_session_stale _ _ _); [|done]. cbn [negb].
  by rewrite write_then_disconnect.
Qed.

Lemma timed_out_others d d' x : others d' = others d → timed_out d' x = timed_out d x.
Proof. unfold others, timed_out, get_guest_by_id. by intros [= -> _ _ _]. Qed.
Lemma cut_status tm al f gu x : status (cut tm al f gu x) = status (f x).
Proof. unfold cut. by destruct (disconnect_outcome _ _ _ _).1. Qed.
Lemma cut_ended tm al f gu x : ended_at (cut tm al f gu x) = ended_at (f x).
Proof. unfold cut. by destruct (disconnect_outcome _ _ _ _).1. Qed.
Lemma cut_id tm al f gu x : session_id (f x) = session_id x → session_id (cut tm al f gu x) = session_id x.
Proof. unfold cut. by destruct (disconnect_outcome _ _ _ _).1. Qed.

Lemma timeout_sweep_eq d : keyed (sessions d) →
  enforce_session_timeouts term now activity_reporting activity_reads d
    = (Ok (map (timed_out d) (select times_out (sessions d))),
       set_sessions (update times_out (timed_out d)) d).
Proof.
  intros Hd. unfold enforce_session_timeouts. erewrite bind_step by reflexivity.
  rewrite timeout_loop_collect by apply remembers_empty.
  apply (session_sweep (λ x, is_active x && (idle_expired now x || time_limit_overrun now x))
    (λ x, is_session_stale now (observable x) x)); [done|intros x; by apply cut_id|].
  intros x d' _ Ho Hx Hd'. rewrite expire_stale_eq by done. by rewrite (timed_out_others d d').
Qed.

(** The cutoff is the same in SQL and in Python. *)
Lemma cutoff_eq x :
  default DEFAULT_IDLE_TIMEOUT_MINUTES (sql_least (idle_timeout_minutes x) (session_timeout_minutes x))
    = session_idle_cutoff_minutes x.
Proof.
  unfold session_idle_cutoff_minutes. by destruct (idle_timeout_minutes x), (session_timeout_minutes x).
Qed.
Lemma idle_expired_timed_out x : idle_expired now x = true → is_session_timed_out now x = true.
Proof. unfold idle_expired, is_session_timed_out. rewrite cutoff_eq. lia. Qed.
Lemma overrun_sql x : time_limit_overrun now x = true → has_session_overrun_time_limit now x = true.
Proof.
  unfold time_limit_overrun, has_session_overrun_time_limit.
  destruct (session_timeout_minutes x); [lia|done].
Qed.

Definition silent_for (x : GuestSession) : Z := now - last_activity_at x.
Definition open_for (x : GuestSession) : Z := now - started_at x.
(** How long each may last. *)
Definition silence_allowed (x : GuestSession) : Z :=
  minutes (session_idle_cutoff_minutes x + SESSION_ACTIVITY_GRACE_MINUTES).
Definition stay_allowed (x : GuestSession) : option Z :=
  (λ m, minutes (m + SESSION_ACTIVITY_GRACE_MINUTES)) <$> session_timeout_minutes x.
Definition silent (x : GuestSession) : Prop :=
  observable x = true ∧ silence_allowed x < silent_for x.
Definition overstayed (x : GuestSession) : Prop :=
  ∃ m, stay_allowed x = Some m ∧ m < open_for x.
Definition within (x : GuestSession) : Prop :=
  (observable x = true → silent_for x < silence_allowed x)
  ∧ (∀ m, stay_allowed x = Some m → open_for x < m).

Lemma stale_times_out x : status x = ACTIVE → silent x ∨ overstayed x → times_out x = true.
Proof.
  intros Hs H. unfold times_out, is_active. rewrite bool_decide_true by done. cbn [andb].
  assert ((idle_expired now x || time_limit_overrun now x) && is_session_stale now (observable x) x = true)
    as Hgoal; [|exact Hgoal].
  destruct H as [[Ho Hi]|(m & Hm & Hlt)].
  - assert (idle_expired now x = true) as Hidle.
    { unfold idle_expired. rewrite cutoff_eq. unfold silent_for, silence_allowed in Hi. lia. }
    rewrite Hidle. unfold is_session_stale. rewrite Ho. by rewrite idle_expired_timed_out.
  - assert (time_limit_overrun now x = true) as Hover.
    { unfold time_limit_overrun, stay_allowed, open_for in *.
      destruct (session_timeout_minutes x); simplify_eq/=. lia. }
    rewrite Hover, orb_true_r. unfold is_session_stale. rewrite (overrun_sql x Hover).
    by destruct (observable x); rewrite ?orb_true_r.
Qed.
Lemma within_times_out x : within x → times_out x = false.
Proof.
  intros [Hi Ho]. unfold times_out. apply andb_false_iff. right.
  assert (has_session_overrun_time_limit now x = false) as Hlimit.
  { unfold has_session_overrun_time_limit, stay_allowed, open_for in *.
    destruct (session_timeout_minutes x) as [m|]; [|done]. specialize (Ho _ eq_refl). lia. }
  unfold is_session_stale. rewrite Hlimit. destruct (observable x); [|done].
  specialize (Hi eq_refl). unfold is_session_timed_out, silent_for, silence_allowed in *. lia.
Qed.


(** A session that has no time limit, at a venue that reports no activity, is
    out of the sweep's reach. *)
Lemma unlimited_unreported_never_times_out x :
  session_timeout_minutes x = None → observable x = false → times_out x = false.
Proof.
  intros Hm Ho. apply within_times_out. split; [by rewrite Ho|]. unfold stay_allowed. by rewrite Hm.
Qed.
End timeouts.

(** ** The other sweeps as one [UPDATE] each *)
Section sweeps.
Context {PU : PyUnicode}.
Variable term : option terminator.
Variable now : datetime.

Lemma nas_restart_eq router reason d : keyed (sessions d) →
  close_sessions_for_nas_restart now router reason d
    = let p := λ x, bool_decide (session_router x = router) && is_active x in
      let g := with_status DISCONNECTED (Some now) (Some reason) in
      (Ok (map g (select p (sessions d))), set_sessions (update p g) d).
Proof.
  intros Hd. unfold close_sessions_for_nas_restart. erewrite bind_step by reflexivity.
  unfold list_active_sessions_for_router.
  rewrite (session_sweep _ (λ _, true) (with_status DISCONNECTED (Some now) (Some reason))); try done.
  - cbn zeta. f_equal; [f_equal; f_equal; apply select_ext|apply set_sessions_ext, update_ext];
      intros x; by rewrite andb_true_r.
  - intros x d' _ _ Hx Hd'. erewrite bind_step by (by apply update_session_eq). done.
Qed.

(** The device of a session, as the router would spell it. *)
Definition session_mac (d : database) (x : GuestSession) : option pystr :=
  k ← session_device x; dev ← get_device_by_id k d; Some (normalize_mac_address (mac_address dev)).
Lemma session_mac_others d d' x : others d' = others d → session_mac d' x = session_mac d x.
Proof. unfold others, session_mac, get_device_by_id. by intros [= _ -> _ _]. Qed.

Definition heard_later (last_heard : gmap pystr datetime) (d : database) (x : GuestSession) :
    option datetime :=
  m ← session_mac d x; t ← last_heard !! m; later_session_activity now x t.
Definition refreshed (last_heard : gmap pystr datetime) (d : database) (x : GuestSession) :=
  match heard_later last_heard d x with Some t => with_activity t x | None => x end.

Lemma refresh_eq router last_heard d : keyed (sessions d) →
  (refresh_session_activity_from_router now router last_heard d).2
    = set_sessions (update (λ x, bool_decide (session_router x = router) && is_active x)
                           (refreshed last_heard d)) d.
Proof.
  intros Hd. unfold refresh_session_activity_from_router. case_bool_decide as Hnone.
  - cbn. rewrite <-(set_sessions_id d) at 1. apply set_sessions_ext. unfold update.
    rewrite <-(map_id (sessions d)) at 1. apply map_ext. intros x. unfold refreshed, heard_later.
    destruct (session_mac d x); cbn; rewrite ?Hnone, ?lookup_empty; cbn; by destruct (_ && _).
  - erewrite bind_step by reflexivity. unfold list_active_sessions_for_router.
    rewrite (session_sweep _ (λ x, bool_decide (is_Some (heard_later last_heard d x)))
               (refreshed last_heard d)); [|done|..].
    + cbn. apply set_sessions_ext, update_ext. intros x _. destruct (_ && is_active x); [|done].
      unfold refreshed. case_bool_decide as Hs; [done|]. by apply eq_None_not_Some in Hs as ->.
    + intros x. unfold refreshed. by destruct (heard_later _ _ _).
    + intros x d' _ Ho Hx Hd'. unfold refreshed, heard_later. rewrite <-(session_mac_others d d' x Ho).
      unfold session_mac. destruct (session_device x) as [k|]; [|done]. cbn [mbind option_bind].
      erewrite bind_step by reflexivity. destruct (get_device_by_id k d') as [dev|]; [|done].
      cbn [mbind option_bind]. destruct (last_heard !! _) as [t|]; [|done]. cbn [mbind option_bind].
      destruct (later_session_activity now x t) as [t'|]; [|done]. rewrite bool_decide_true by done.
      erewrite bind_step by (by apply update_session_eq). done.
Qed.

Definition gone (grace_minutes : Z) (present_macs : list pystr) (d : database) (x : GuestSession) : bool :=
  match session_mac d x with
  | None => false
  | Some m => is_session_presence_judgeable now grace_minutes x && bool_decide (m ∉ present_macs)
  end.
Definition departed : GuestSession → GuestSession :=
  with_status DISCONNECTED (Some now) (Some SESSION_PRESENCE_DISCONNECT_REASON).

Lemma presence_eq router present_macs grace_minutes d : keyed (sessions d) →
  (reconcile_sessions_with_router_presence now router present_macs grace_minutes d).2
    = set_sessions (update (λ x, bool_decide (session_router x = router) && is_active x
                                 && gone grace_minutes present_macs d x) departed) d.
Proof.
  intros Hd. unfold reconcile_sessions_with_router_presence. erewrite bind_step by reflexivity.
  unfold list_active_sessions_for_router.
  rewrite (session_sweep _ (gone grace_minutes present_macs d) departed); [done..|].
  intros x d' _ Ho Hx Hd'. unfold gone. rewrite <-(session_mac_others d d' x Ho).
  unfold session_mac. destruct (session_device x) as [k|]; [|done]. cbn [mbind option_bind].
  destruct (is_session_presence_judgeable _ _ _); cbn [negb andb].
  2: by destruct (get_device_by_id k d').
  erewrite bind_step by reflexivity. destruct (get_device_by_id k d') as [dev|]; [|done].
  cbn [mbind option_bind]. destruct (decide (normalize_mac_address (mac_address dev) ∈ present_macs)).
  - rewrite (bool_decide_true (_ ∈ _)), (bool_decide_false (_ ∉ _)) by tauto. done.
  - rewrite (bool_decide_false (_ ∈ _)), (bool_decide_true (_ ∉ _)) by done.
    erewrite bind_step by (by apply update_session_eq). done.
Qed.

Definition closed (d : database) (x : GuestSession) : GuestSession :=
  cut term false (with_status TERMINATED (Some now) (Some OPEN_HOURS_DISCONNECT_REASON))
    (get_guest_by_id (session_guest x) d) x.
Lemma closing_eq location org d : keyed (sessions d) →
  (end_sessions_at_location term now location org d).2
    = set_sessions (update (λ x, bool_decide (session_org x = org)
        && bool_decide (session_location x = location) && is_active x) (closed d)) d.
Proof.
  intros Hd. unfold end_sessions_at_location. erewrite bind_step by reflexivity.
  unfold list_active_sessions_for_location. rewrite (session_sweep _ (λ _, true) (closed d)); [|done|..].
  - cbn. apply set_sessions_ext, update_ext. intros x _. by rewrite andb_true_r.
  - intros x. by apply cut_id.
  - intros x d' _ Ho Hx Hd'. rewrite write_then_disconnect by done. cbn.
    assert (get_guest_by_id (session_guest x) d' = get_guest_by_id (session_guest x) d) as ->; [|done].
    unfold others, get_guest_by_id in *. by injection Ho as -> _ _ _.
Qed.
End sweeps.

(** ** What a session keeps through every operation *)
Definition ended (x : GuestSession) : bool :=
  bool_decide (status x ∈ [DISCONNECTED; EXPIRED; TERMINATED]).
Definition life (s t : GuestSessionStatus) : Prop := t ∈ GUEST_SESSION_STATUS_TRANSITIONS s.
Definition anchor (x : GuestSession) :=
  (session_id x, session_guest x, session_router x, session_location x, session_org x, started_at x).

Record session_step (x y : GuestSession) : Prop := {
  step_anchor : anchor x = anchor y;
  step_life : rtc life (status x) (status y);
  step_up : bytes_uploaded x ≤ bytes_uploaded y;
  step_down : bytes_downloaded x ≤ bytes_downloaded y;
  step_final : ended x = true → with_enforced false x = with_enforced false y;
}.
#[export] Instance session_step_preorder : PreOrder session_step.
Proof.
  split; [by split|]. intros x y z [A1 L1 U1 D1 F1] [A2 L2 U2 D2 F2]. split; [congruence| |lia|lia|].
  - by etrans.
  - intros He. rewrite (F1 He). apply F2. specialize (F1 He).
    assert (status x = status y) as Hs by (by apply (f_equal status) in F1).
    unfold ended in *. by rewrite <-Hs.
Qed.

(** A row, at time [t]. *)
Record well_formed (t : datetime) (x : GuestSession) : Prop := {
  wf_ended : ended_at x = None ↔ ended x = false;
  wf_up : 0 ≤ bytes_uploaded x;
  wf_down : 0 ≤ bytes_downloaded x;
  wf_started : started_at x ≤ last_activity_at x;
  wf_active : last_activity_at x ≤ t;
  wf_closed : ∀ e, ended_at x = Some e → last_activity_at x ≤ e ≤ t;
}.
Lemma well_formed_later t t' x : t ≤ t' → well_formed t x → well_formed t' x.
Proof. intros Ht [A B C D E F]. split; try done; [lia|]. intros e He. specialize (F e He). lia. Qed.

Definition settled (t : datetime) (d : database) : Prop :=
  keyed (sessions d) ∧ ∀ x, x ∈ sessions d → well_formed t x.
Definition evolves (d d' : database) : Prop :=
  ∀ k x, get_session_by_id k d = Some x →
    ∃ y, get_session_by_id k d' = Some y ∧ session_step x y.
#[export] Instance evolves_preorder : PreOrder evolves.
Proof.
  split; [intros d k x Hx; by exists x|]. intros d1 d2 d3 H12 H23 k x Hx.
  destruct (H12 k x Hx) as (y & Hy & Hxy). destruct (H23 k y Hy) as (z & Hz & Hyz).
  exists z. split; [done|by etrans].
Qed.
Definition sound (t : datetime) (d d' : database) : Prop := settled t d → settled t d' ∧ evolves d d'.
#[export] Instance sound_preorder t : PreOrder (sound t).
Proof.
  split; [by intros d|]. intros d1 d2 d3 H12 H23 S1. destruct (H12 S1) as [S2 E12].
  destruct (H23 S2) as [S3 E23]. split; [done|by etrans].
Qed.

Section sound.
Variable now : datetime.

(** A lawful new version of a row. *)
Definition advances (x y : GuestSession) : Prop :=
  session_step x y ∧ (well_formed now x → well_formed now y).
Lemma advances_trans x y z : advances x y → advances y z → advances x z.
Proof. intros [S1 W1] [S2 W2]. split; [by etrans|auto]. Qed.

Lemma sound_update p g d : (∀ x, session_id (g x) = session_id x) →
  (∀ x, x ∈ sessions d → p x = true → advances x (g x)) →
  sound now d (set_sessions (update p g) d).
Proof.
  intros Hid Hg [Hk Hw]. split; [split|].
  - cbn. unfold keyed. by rewrite map_update.
  - cbn. intros y (x & Hx & ->)%elem_of_update. destruct (p x) eqn:Hp; [|by apply Hw].
    apply Hg; auto.
  - intros k x Hx. unfold get_session_by_id in *. cbn. rewrite by_id_update by done. rewrite Hx. cbn.
    eexists. split; [done|]. apply by_id_Some in Hx as [Hx _].
    destruct (p x) eqn:Hp; [by apply Hg|done].
Qed.

Lemma step_id x y : session_step x y → session_id y = session_id x.
Proof. intros [A _ _ _ _]. by injection A. Qed.

Lemma sound_written x y d : x ∈ sessions d → advances x y → sound now d (written y x d).
Proof.
  intros Hx Ha Hd.
  assert (written y x d = set_sessions (update (has_id (session_id x))
    (λ r, if bool_decide (session_id r = session_id x) then y else r)) d) as ->.
  { apply set_sessions_ext. unfold set_row. apply update_ext. intros r _. unfold has_id.
    change (row_id r) with (session_id r). by case_bool_decide. }
  apply sound_update; [| |done].
  - intros r. case_bool_decide as Hk; [|done]. rewrite Hk. by apply step_id, Ha.
  - intros r Hr Hp. unfold has_id in Hp. change (row_id r) with (session_id r) in Hp. rewrite Hp.
    apply bool_decide_eq_true in Hp. enough (r = x) as -> by done.
    by apply (NoDup_map_eq session_id (sessions d)); [apply Hd|..].
Qed.

Lemma sound_insert x d : get_session_by_id (session_id x) d = None → well_formed now x →
  sound now d (set_sessions (insert_row x) d).
Proof.
  intros Hno Hw [Hk Hall]. split; [split|].
  - by apply keyed_insert.
  - cbn. intros y [Hy | ->%list_elem_of_singleton]%elem_of_app; [by apply Hall|done].
  - intros k z Hz. exists z. split; [|done]. unfold get_session_by_id in *. cbn.
    rewrite by_id_insert. by rewrite Hz.
Qed.

(** *** The new versions the operations write *)
Lemma ended_status x : ended x = true → GUEST_SESSION_STATUS_TRANSITIONS (status x) = [].
Proof. intros He%bool_decide_eq_true. by destruct (status x); set_solver. Qed.
Lemma live_status x t : t ∈ GUEST_SESSION_STATUS_TRANSITIONS (status x) → ended x = false.
Proof.
  intros Ht. destruct (ended x) eqn:He; [|done]. rewrite ended_status in Ht by done. set_solver.
Qed.

Lemma advances_enforced o x : advances x (record_enforced o x).
Proof.
  destruct o as [b|]; [|split; [split; try done; lia|done]].
  split; [split; try done; lia|]. by intros [A B C D E F].
Qed.

Lemma advances_ended s r x : s ∈ GUEST_SESSION_STATUS_TRANSITIONS (status x) →
  s ∈ [DISCONNECTED; EXPIRED; TERMINATED] → advances x (with_status s (Some now) r x).
Proof.
  intros Hs He. pose proof (live_status _ _ Hs) as Hl. split.
  - split; try done; [by apply rtc_once|by rewrite Hl].
  - intros [A B C D E F]. split; try done.
    + split; [done|]. intros Hn. unfold ended in Hn. cbn in Hn. by rewrite bool_decide_true in Hn.
    + intros e [= <-]. cbn. lia.
Qed.
Lemma advances_cut tm al gu s r x : s ∈ GUEST_SESSION_STATUS_TRANSITIONS (status x) →
  s ∈ [DISCONNECTED; EXPIRED; TERMINATED] →
  advances x (cut tm al (with_status s (Some now) r) gu x).
Proof. intros. eapply advances_trans; [by apply advances_ended|apply advances_enforced]. Qed.

Lemma advances_paused r x : status x = ACTIVE → advances x (paused r x).
Proof.
  intros Hs. assert (ended x = false) as Hl by (unfold ended; by rewrite Hs). split.
  - split; try done; [apply rtc_once; rewrite Hs; unfold life; cbn; set_solver|by rewrite Hl].
  - intros [A B C D E F]. split; try done.
    change (ended_at x = None ↔ ended (paused r x) = false). rewrite A, Hl. done.
Qed.
Lemma advances_resumed x : status x = PAUSED → advances x (resumed now x).
Proof.
  intros Hs. assert (ended x = false) as Hl by (unfold ended; by rewrite Hs). split.
  - split; try done; [apply rtc_once; rewrite Hs; unfold life; cbn; set_solver|by rewrite Hl].
  - intros [A B C D E F]. split; try done.
    + change (ended_at x = None ↔ ended (resumed now x) = false). rewrite A, Hl. done.
    + cbn. lia.
    + cbn. intros e He. rewrite He in A. destruct A as [_ A]. by specialize (A Hl).
Qed.

(** A write of other columns of a session that has not ended, no earlier than
    its last activity. *)
Lemma advances_columns f x : ended x = false → anchor (f x) = anchor x → status (f x) = status x →
  ended_at (f x) = ended_at x → bytes_uploaded x ≤ bytes_uploaded (f x) →
  bytes_downloaded x ≤ bytes_downloaded (f x) →
  (last_activity_at x ≤ now → last_activity_at x ≤ last_activity_at (f x) ≤ now) →
  advances x (f x).
Proof.
  intros Hl Ha Hs He Hu Hdn Ht. split.
  - split; try done; [by rewrite Hs|by rewrite Hl].
  - intros [A B C D E F]. specialize (Ht E).
    assert (started_at (f x) = started_at x) as Hst by by injection Ha.
    split; try lia.
    + rewrite He, A. unfold ended. by rewrite Hs.
    + intros e. rewrite He. intros Hend. rewrite Hend in A. destruct A as [_ A]. by specialize (A Hl).
Qed.
Lemma advances_extended m x : ended x = false → advances x (extended now m x).
Proof. intros. apply advances_columns; try done; cbn; lia. Qed.
End sound.

(** *** The operations *)
Section operations.
Context {PU : PyUnicode}.
Variable term : option terminator.
Variable scope : option (list uuid).
Variable now : datetime.

(** Who may reach a session. *)
Definition reachable (requesting : option uuid) (x : GuestSession) : bool :=
  negb (other_tenant (session_org x) requesting)
  && Tenancy.enforce_entity_location (Some (session_location x)) scope.

Lemma get_session_Ok k r x d d' : get_session scope k r d = (Ok x, d') →
  d' = d ∧ get_session_by_id k d = Some x ∧ reachable r x = true.
Proof.
  unfold get_session. erewrite bind_step by (unfold gets; reflexivity).
  rewrite of_option_bind. destruct (get_session_by_id k d) as [y|]; [|done].
  rewrite raise_if_bind. destruct (other_tenant _ _) eqn:Ho; [done|]. rewrite raise_if_bind.
  destruct (Tenancy.enforce_entity_location _ _) eqn:He; [|done]. cbn.
  intros [= <- <-]. unfold reachable. by rewrite Ho, He.
Qed.
Lemma get_session_run k r x d : get_session_by_id k d = Some x → reachable r x = true →
  get_session scope k r d = (Ok x, d).
Proof.
  intros Hx Hr. unfold get_session. erewrite bind_step by (unfold gets; reflexivity).
  rewrite Hx. apply andb_true_iff in Hr as [Ho%negb_true_iff He].
  by rewrite of_option_bind, raise_if_bind, Ho, raise_if_bind, He.
Qed.

(** Ending a session: what the three operations share. *)
Lemma ending_run s reason al k x d : keyed (sessions d) → get_session_by_id k d = Some x →
  s ∈ GUEST_SESSION_STATUS_TRANSITIONS (status x) →
  (_ ← validate_session_status_transition (status x) s;
   y ← update_session x (with_status s (Some now) reason);
   r ← issue_live_disconnect term al y; mret r.1) d
  = let y := cut term al (with_status s (Some now) reason) (get_guest_by_id (session_guest x) d) x in
    (Ok y, written y x d).
Proof.
  intros Hd [Hx _]%by_id_session Hs. unfold validate_session_status_transition, valid_transition.
  rewrite raise_if_bind, bool_decide_true by done. cbn [negb]. by rewrite write_then_disconnect.
Qed.
Lemma ending_Ok s reason al k x y d d' : keyed (sessions d) → get_session_by_id k d = Some x →
  (_ ← validate_session_status_transition (status x) s;
   y ← update_session x (with_status s (Some now) reason);
   r ← issue_live_disconnect term al y; mret r.1) d = (Ok y, d') →
  s ∈ GUEST_SESSION_STATUS_TRANSITIONS (status x)
  ∧ y = cut term al (with_status s (Some now) reason) (get_guest_by_id (session_guest x) d) x
  ∧ d' = written y x d.
Proof.
  intros Hd Hx H. destruct (decide (s ∈ GUEST_SESSION_STATUS_TRANSITIONS (status x))) as [Hs|Hs].
  - rewrite (ending_run s reason al k) in H by done. cbn zeta in H. by injection H as <- <-.
  - unfold validate_session_status_transition, valid_transition in H.
    rewrite raise_if_bind, bool_decide_false in H by done. done.
Qed.

Lemma ending_sound s reason al k x y d d' : s ∈ [DISCONNECTED; EXPIRED; TERMINATED] →
  get_session_by_id k d = Some x →
  (_ ← validate_session_status_transition (status x) s;
   y ← update_session x (with_status s (Some now) reason);
   r ← issue_live_disconnect term al y; mret r.1) d = (Ok y, d') → sound now d d'.
Proof.
  intros He Hx H Hd. pose proof (proj1 Hd) as Hk.
  apply (ending_Ok s reason al k x y) in H as (Hs & -> & ->); [|done..].
  apply by_id_session in Hx as [Hx _]. revert Hd. apply sound_written; [done|by apply advances_cut].
Qed.

Lemma disconnect_sound k r reason al y d d' :
  disconnect_session term scope now k r reason al d = (Ok y, d') → sound now d d'.
Proof.
  intros H. unfold disconnect_session in H. apply bind_Ok in H as (x & d1 & Hg & H).
  apply get_session_Ok in Hg as (-> & Hx & _). by eapply ending_sound; [|exact Hx|exact H]; set_solver.
Qed.
Lemma terminate_sound k r reason y d d' :
  terminate_session term scope now k r reason d = (Ok y, d') → sound now d d'.
Proof.
  intros H. unfold terminate_session in H. apply bind_Ok in H as (x & d1 & Hg & H).
  apply get_session_Ok in Hg as (-> & Hx & _). by eapply ending_sound; [|exact Hx|exact H]; set_solver.
Qed.
Lemma disconnect_own_sound g k reason y d d' :
  disconnect_own_session term now g k reason d = (Ok y, d') → sound now d d'.
Proof.
  intros H. unfold disconnect_own_session in H. erewrite bind_step in H by (unfold gets; reflexivity).
  rewrite of_option_bind in H. destruct (get_session_by_id k d) as [x|] eqn:Hx; [|done].
  rewrite raise_if_bind in H. case_bool_decide; [done|].
  by eapply ending_sound; [|exact Hx|exact H]; set_solver.
Qed.

Lemma pause_sound k r reason y d d' :
  pause_session term scope k r reason d = (Ok y, d') → sound now d d'.
Proof.
  intros H Hd. unfold pause_session in H. apply bind_Ok in H as (x & d1 & Hg & H).
  apply get_session_Ok in Hg as (-> & Hx & _). apply by_id_session in Hx as [Hx _].
  unfold validate_session_status_transition, valid_transition in H.
  rewrite raise_if_bind in H. case_bool_decide as Hs; [|done]. cbn [negb] in H.
  rewrite write_then_disconnect in H; [|apply Hd|done..]. cbn zeta in H. injection H as <- <-.
  assert (status x = ACTIVE) as Ha by (destruct (status x); set_solver).
  revert Hd. apply sound_written; [done|].
  eapply advances_trans; [by apply advances_paused|apply advances_enforced].
Qed.
Lemma resume_sound k r y d d' : resume_session scope now k r d = (Ok y, d') → sound now d d'.
Proof.
  intros H Hd. unfold resume_session in H. apply bind_Ok in H as (x & d1 & Hg & H).
  apply get_session_Ok in Hg as (-> & Hx & _). apply by_id_session in Hx as [Hx _].
  unfold validate_session_status_transition, valid_transition in H.
  rewrite raise_if_bind in H. case_bool_decide as Hs; [|done]. cbn [negb] in H.
  rewrite update_session_eq in H by (done || apply Hd). injection H as <- <-.
  assert (status x = PAUSED) as Ha by (destruct (status x); set_solver).
  revert Hd. apply sound_written; [done|by apply advances_resumed].
Qed.
Lemma extend_sound k m r y d d' : extend_session scope now k m r d = (Ok y, d') → sound now d d'.
Proof.
  intros H Hd. unfold extend_session in H. rewrite raise_if_bind in H.
  destruct (m <=? 0); [done|]. apply bind_Ok in H as (x & d1 & Hg & H).
  apply get_session_Ok in Hg as (-> & Hx & _). apply by_id_session in Hx as [Hx _].
  rewrite raise_if_bind in H. case_bool_decide as Hs; [done|].
  rewrite update_session_eq in H by (done || apply Hd). injection H as <- <-.
  revert Hd. apply sound_written; [done|]. apply advances_extended.
  apply bool_decide_eq_false. destruct (status x); set_solver.
Qed.

(** *** The sweeps *)
Lemma active_ends x s : is_active x = true → s ∈ [DISCONNECTED; EXPIRED; TERMINATED] →
  s ∈ GUEST_SESSION_STATUS_TRANSITIONS (status x).
Proof. intros Hx%bool_decide_eq_true Hs. rewrite Hx. cbn. set_solver. Qed.

Lemma timeouts_sound reporting reads d :
  sound now d (enforce_session_timeouts term now reporting reads d).2.
Proof.
  intros Hd. rewrite timeout_sweep_eq by apply Hd. revert Hd. apply sound_update.
  - intros x. by apply cut_id.
  - intros x _ Hx. apply advances_cut; [|set_solver]. apply active_ends; [|set_solver].
    unfold times_out in Hx. by bools.
Qed.
Lemma nas_restart_sound router reason d :
  sound now d (close_sessions_for_nas_restart now router reason d).2.
Proof.
  intros Hd. rewrite nas_restart_eq by apply Hd. revert Hd. apply sound_update; [done|].
  intros x _ [_ Hx]%andb_true_iff. apply advances_ended; [|set_solver]. apply active_ends; [done|set_solver].
Qed.
Lemma refresh_sound router last_heard d :
  sound now d (refresh_session_activity_from_router now router last_heard d).2.
Proof.
  intros Hd. rewrite refresh_eq by apply Hd. revert Hd. apply sound_update.
  - intros x. unfold refreshed. by destruct (heard_later _ _ _ _).
  - intros x _ [_ Hx%bool_decide_eq_true]%andb_true_iff. unfold refreshed.
    destruct (heard_later now last_heard d x) as [t|] eqn:Ht; [|by apply (advances_enforced now None)].
    apply (advances_columns now (with_activity t)); try done; [unfold ended; by rewrite Hx|].
    intros _. cbn. unfold heard_later in Ht. destruct (session_mac d x) as [m|]; [|done].
    cbn in Ht. destruct (last_heard !! m) as [h|]; [|done]. cbn in Ht.
    unfold later_session_activity in Ht. destruct (Z.leb_spec (Z.min h now) (last_activity_at x)); [done|].
    simplify_eq. lia.
Qed.
Lemma presence_sound router macs grace d :
  sound now d (reconcile_sessions_with_router_presence now router macs grace d).2.
Proof.
  intros Hd. rewrite presence_eq by apply Hd. revert Hd. apply sound_update; [done|].
  intros x _ Hx. apply advances_ended; [|set_solver]. apply active_ends; [by bools|set_solver].
Qed.
Lemma closing_sound location org d :
  sound now d (end_sessions_at_location term now location org d).2.
Proof.
  intros Hd. rewrite closing_eq by apply Hd. revert Hd. apply sound_update.
  - intros x. by apply cut_id.
  - intros x _ [_ Hx]%andb_true_iff. apply advances_cut; [|set_solver]. apply active_ends; [done|set_solver].
Qed.
End operations.

(** ** Witnesses *)
Module examples.
Definition running (id : uuid) (started last : datetime) (limit : option Z) : GuestSession :=
  mk_session id 50 None 60 20 10 OTP_SMS None ACTIVE started None last None 0 0 None limit (Some 30) None None.
(** Silent since the first minute; heard a minute ago. *)
Definition d : database :=
  mk_database [] [] [running 1 0 (minutes 1) (Some 240); running 2 0 (minutes 59) (Some 240)] [] [].

End examples.

End GuestSession.
