(* ===== verification/GuestQuota.v ===== *)
(** The fair usage quotas of a guest.

    The counters of [GuestQuotaUsage] in [src/backend/app/domains/guest]: when
    a period starts ([validators.compute_period_start]), how a row rolls over
    (lazily, and in the sweep [run_quota_reset]), how traffic and connected
    time are charged ([GuestService.record_usage], [run_fup_time_accrual]),
    and the gate of a sign-in ([_enforce_fup_quota]).  The caps come from the
    rules of a [FUP] policy, resolved as in [Policy.v].

    The zone database behind [ZoneInfo] is the parameter [zones]; a zone maps
    an instant to its wall clock and back. *)

From S2P Require Import Prelude Table PyStr Rbac Tenancy Calendar Policy Guest GuestSession.

Module GuestQuota.
Import Calendar Guest GuestSession.

(** ** Time zones and periods *)

(** The wall clock at an instant with its [fold], and the instant of a wall
    clock. *)
Record zone := mk_zone { fromutc : datetime → datetime * bool; toutc : datetime → bool → datetime }.
(** A zone whose offset never changes. *)
Definition fixed (offset : Z) : zone := mk_zone (λ t, (t + offset, false)) (λ t _, t - offset).
Definition UTC : zone := fixed 0.

(** Monday is 0; 1970-01-01 was a Thursday. *)
Definition weekday (t : datetime) : Z := (t / DAY + 3) mod 7.

Section periods.
(** [ZoneInfo(name)], which raises for an unknown name. *)
Variable zones : pystr → option zone.
Definition zone_of (name : pystr) : zone := default UTC (zones name).

(** A difference of [datetime]s and a [timedelta] has fold 0. *)
Definition compute_period_start (p : QuotaPeriodType) (now : datetime) (tz_name : pystr) : datetime :=
  let tz := zone_of tz_name in
  let '(local_now, fold) := fromutc tz now in
  let local_midnight := at_date (date_of local_now) 0 in
  match p with
  | DAILY => toutc tz local_midnight fold
  | WEEKLY => toutc tz (local_midnight - weekday local_midnight * DAY) false
  | MONTHLY =>
      toutc tz (at_date (mk_date (year (date_of local_now)) (month (date_of local_now)) 1) 0) fold
  end.

(** *** The boundaries of a period *)
Definition boundary (p : QuotaPeriodType) (local : datetime) : Prop :=
  time_of local = 0 ∧
  match p with DAILY => True | WEEKLY => weekday local = 0 | MONTHLY => day (date_of local) = 1 end.

Lemma midnight_eq t : at_date (date_of t) 0 = t - time_of t.
Proof.
  pose proof (at_date_of t) as H. revert H. unfold at_date.
  generalize (ordinal (date_of t)), (time_of t). intros. lia.
Qed.
Lemma midnight_div t : (t - time_of t) / DAY = t / DAY.
Proof.
  unfold time_of. pose proof (Z.div_mod t DAY ltac:(done)) as H.
  replace (t - t mod DAY) with (t / DAY * DAY) by lia. by rewrite Z.div_mul.
Qed.
Lemma boundary_days t : time_of t = 0 → t = t / DAY * DAY.
Proof. unfold time_of. intros H. pose proof (Z.div_mod t DAY ltac:(done)). lia. Qed.
Lemma time_of_days n : time_of (n * DAY) = 0.
Proof. unfold time_of. by rewrite Z.mod_mul. Qed.
Lemma days_div n : n * DAY / DAY = n.
Proof. by rewrite Z.div_mul. Qed.

(** The first of a month and any later first are apart. *)
Lemma day_in_month d k : valid_date d → 1 ≤ k ≤ day d → valid_date (mk_date (year d) (month d) k).
Proof. unfold valid_date. cbn. lia. Qed.
Lemma ordinal_in_month d k :
  ordinal (mk_date (year d) (month d) k) = ordinal d + k - day d.
Proof. unfold ordinal. cbn. lia. Qed.
Lemma first_of_month d t : valid_date d → at_date d (time_of t) = t →
  let s := at_date (mk_date (year d) (month d) 1) 0 in
  boundary MONTHLY s ∧ s ≤ t ∧ ∀ b, boundary MONTHLY b → b ≤ t → b ≤ s.
Proof.
  intros Hd Ht s.
  assert (1 ≤ day d) as Hday by (destruct Hd; lia).
  assert (0 ≤ 0 < DAY) as H0 by (unfold DAY; lia).
  assert (date_of s = mk_date (year d) (month d) 1) as Hs.
  { apply date_of_at; [|done]. apply day_in_month; [done|lia]. }
  pose proof (time_of_bounds t) as Htb. pose proof (ordinal_in_month d 1) as Ho1.
  assert (s = (ordinal d + 1 - day d - epoch) * DAY) as Hse by (unfold s, at_date; rewrite Ho1; lia).
  unfold at_date in Ht. split_and!.
  - split; [by apply time_of_at|]. by rewrite Hs.
  - rewrite Hse. revert Ht Htb Hday. clear. generalize (ordinal d), (time_of t). intros. nia.
  - intros b [Hb Hb1] Hbt. destruct (Z.le_gt_cases b s) as [|Hlt]; [done|exfalso].
    pose proof (date_of_valid b) as Hbv. pose proof (at_date_of b) as Hbe.
    generalize dependent (date_of b). intros e He1 Hev Hbe.
    unfold at_date in Hbe. rewrite Hb in Hbe.
    pose proof (ordinal_in_month d (ordinal e - ordinal d + day d)) as Hk.
    assert (2 ≤ ordinal e - ordinal d + day d ≤ day d) as Hbounds.
    { clear Hk. rewrite Hse in Hlt. revert Hbe Hlt Ht Hbt Htb H0. clear.
      generalize (ordinal e), (ordinal d), (time_of t). intros. nia. }
    remember (ordinal e - ordinal d + day d) as k eqn:Ek.
    assert (e = mk_date (year d) (month d) k) as ->; [|cbn in He1; lia].
    rewrite <-(of_ordinal_ordinal (mk_date _ _ _)) by (apply day_in_month; [done|lia]).
    rewrite <-(of_ordinal_ordinal e) by done. f_equal. rewrite Hk, Ek.
    generalize (ordinal e), (ordinal d). intros; lia.
Qed.

Lemma monday q : (q - (q + 3) mod 7 + 3) mod 7 = 0 ∧
  ∀ k, (k + 3) mod 7 = 0 → k ≤ q → k ≤ q - (q + 3) mod 7.
Proof. split; [|intros k]; Z.to_euclidean_division_equations; lia. Qed.

Lemma midnight_days t : t - time_of t = t / DAY * DAY.
Proof. unfold time_of. pose proof (Z.div_mod t DAY ltac:(done)). lia. Qed.

Lemma period_boundary p t : let s := match p with
    | DAILY => at_date (date_of t) 0
    | WEEKLY => at_date (date_of t) 0 - weekday (at_date (date_of t) 0) * DAY
    | MONTHLY => at_date (mk_date (year (date_of t)) (month (date_of t)) 1) 0
    end in
  boundary p s ∧ s ≤ t ∧ ∀ b, boundary p b → b ≤ t → b ≤ s.
Proof.
  pose proof (first_of_month (date_of t) t (date_of_valid t) (at_date_of t)) as Hfirst.
  pose proof (time_of_bounds t) as Htb. rewrite midnight_eq, midnight_days.
  assert (0 < DAY) as HD by done. pose proof (midnight_days t) as Ht.
  assert (∀ b, time_of b = 0 → b ≤ t → b / DAY ≤ t / DAY) as Hdiv by (intros; by apply Z.div_le_mono).
  destruct p; [| |exact Hfirst]; clear Hfirst; cbn zeta; unfold boundary, weekday; rewrite ?days_div.
  - split_and!; [apply time_of_days|done|lia|]. intros b [Hb _] Hbt.
    rewrite (boundary_days b Hb). specialize (Hdiv b Hb Hbt). nia.
  - destruct (monday (t / DAY)) as [Hmon Hlast].
    replace (t / DAY * DAY - (t / DAY + 3) mod 7 * DAY) with ((t / DAY - (t / DAY + 3) mod 7) * DAY) by lia.
    pose proof (Z.mod_pos_bound (t / DAY + 3) 7 ltac:(done)) as Hw. rewrite days_div.
    split_and!; [apply time_of_days|done|nia|]. intros b [Hb Hbw] Hbt.
    rewrite (boundary_days b Hb). specialize (Hdiv b Hb Hbt). specialize (Hlast _ Hbw Hdiv). nia.
Qed.

(** The start, on the wall clock of a zone whose offset does not change. *)
Lemma fixed_start p now name offset : zone_of name = fixed offset →
  compute_period_start p now name + offset = match p with
    | DAILY => at_date (date_of (now + offset)) 0
    | WEEKLY => at_date (date_of (now + offset)) 0 - weekday (at_date (date_of (now + offset)) 0) * DAY
    | MONTHLY => at_date (mk_date (year (date_of (now + offset))) (month (date_of (now + offset))) 1) 0
    end.
Proof.
  intros Hz. unfold compute_period_start. rewrite Hz. cbn [fixed fromutc toutc].
  destruct p; apply Z.sub_add.
Qed.
Lemma fixed_start_mono p now now' name offset : zone_of name = fixed offset → now ≤ now' →
  compute_period_start p now name ≤ compute_period_start p now' name.
Proof.
  intros Hz Hle. pose proof (period_boundary p (now + offset)) as (Hb & Hbefore & _).
  pose proof (period_boundary p (now' + offset)) as (_ & _ & Hlast). cbn zeta in *.
  rewrite <-(fixed_start p now name offset Hz) in Hb, Hbefore.
  rewrite <-(fixed_start p now' name offset Hz) in Hlast. specialize (Hlast _ Hb). lia.
Qed.

(** In a zone whose offset does not change (UTC, the default, is one) a
    quota period starts at a wall-clock midnight - of a Monday, or of the
    first of a month - that is not in the future, and no later one of the
    same kind has passed. *)
Theorem period_starts_at_the_last_boundary p now name offset : zone_of name = fixed offset →
  let start := compute_period_start p now name in
  boundary p (start + offset) ∧ start ≤ now ∧
  ∀ b, boundary p (b + offset) → b ≤ now → b ≤ start.
Proof.
  intros Hz start. pose proof (period_boundary p (now + offset)) as (Hb & Hle & Hlast).
  unfold start. rewrite (fixed_start p now name offset Hz). split_and!; [done| |].
  - pose proof (fixed_start p now name offset Hz). lia.
  - intros b Hbb Hbn. pose proof (fixed_start p now name offset Hz). specialize (Hlast (b + offset) Hbb). lia.
Qed.
End periods.

(** ** The rules that apply *)
Section quota.
Context {PU : PyUnicode}.
Variable zones : pystr → option zone.
(** The column [Organization.timezone]. *)
Variable timezones : gmap uuid pystr.
(** The policy engine the service was given, if it was: its database. *)
Variable policy_lookup : option Policy.database.
(** Is this router served by a controller that only a NAS speaks for?
    [None]: the lookup raises. *)
Variable nas_only : uuid → option bool.

Definition get_organization_timezone (org : uuid) : pystr :=
  match timezones !! org with Some (c :: s) => c :: s | _ => u "UTC" end.

Definition effective_rules (t : Policy.PolicyType) (org location guest : uuid)
    (pdb : Policy.database) : option Policy.rules :=
  match (Policy.resolve_effective_policy t
           (Policy.mk_query (Some org) (Some location) None [] (Some guest)) pdb).1 with
  | Ok (r, _) => Some r
  | Raise _ => None
  end.
Definition with_access_tier (t : Policy.PolicyType) (r : Policy.rules)
    (tier : option Policy.AccessTier) : Policy.rules :=
  match tier with None => r | Some tier => Policy.with_tier_overrides t tier r end.

(** [_aruba_access_tier]: never raises. *)
Definition aruba_access_tier (router org location guest : uuid) : option Policy.AccessTier :=
  match policy_lookup, nas_only router with
  | Some pdb, Some true => Policy.resolve_access_tier (Some org) (Some location) (Some guest) pdb
  | _, _ => None
  end.

Definition data_key (p : QuotaPeriodType) : string :=
  match p with
  | DAILY => "daily_data_limit_mb"
  | WEEKLY => "weekly_data_limit_mb"
  | MONTHLY => "monthly_data_limit_mb"
  end%string.
Definition FUP_TIME_LIMIT_RULE_KEYS (p : QuotaPeriodType) : string :=
  match p with
  | DAILY => "daily_time_limit_minutes"
  | WEEKLY => "weekly_time_limit_minutes"
  | MONTHLY => "monthly_time_limit_minutes"
  end%string.
Definition data_limit (r : Policy.rules) (p : QuotaPeriodType) : option Z := Policy.int_rule (data_key p) r.
Definition time_limit (r : Policy.rules) (p : QuotaPeriodType) : option Z :=
  Policy.int_rule (FUP_TIME_LIMIT_RULE_KEYS p) r.
Definition is_fup_usage_exceeded (used limit : Z) : bool := limit <=? used.
Definition exceeds (used : Z) (limit : option Z) : bool :=
  match limit with Some l => is_fup_usage_exceeded used l | None => false end.

(** ** The counters *)
Definition restarted (start : datetime) (x : GuestQuotaUsage) : GuestQuotaUsage :=
  mk_usage (usage_guest x) (usage_org x) (period_type x) start 0 0 None.
Definition charged (bytes : Z) (x : GuestQuotaUsage) : GuestQuotaUsage :=
  mk_usage (usage_guest x) (usage_org x) (period_type x) (period_start x) (bytes_used x + bytes)
    (minutes_used x) (last_accrued_at x).
Definition accrued (m : Z) (now : datetime) (x : GuestQuotaUsage) : GuestQuotaUsage :=
  mk_usage (usage_guest x) (usage_org x) (period_type x) (period_start x) (bytes_used x)
    (minutes_used x + m) (Some now).

(** The row of a period, made or rolled over when it is due. *)
Definition current_usage (g org : uuid) (p : QuotaPeriodType) (tz_name : pystr) (now : datetime)
    (usage : option GuestQuotaUsage) : op GuestQuotaUsage :=
  let start := compute_period_start zones p now tz_name in
  match usage with
  | None => create_quota_usage (mk_usage g org p start 0 0 None)
  | Some x => if period_start x <? start then update_quota_usage x (restarted start) else mret x
  end.
Definition get_or_reset_quota_usage (g org : uuid) (p : QuotaPeriodType) (tz_name : pystr)
    (now : datetime) : op GuestQuotaUsage :=
  usage ← gets (get_quota_usage g p);
  current_usage g org p tz_name now usage.

(** The rows are read once, before the first write. *)
Fixpoint current_usages (g org : uuid) (tz_name : pystr) (now : datetime)
    (existing : QuotaPeriodType → option GuestQuotaUsage) (ps : list QuotaPeriodType) :
    op (list (QuotaPeriodType * GuestQuotaUsage)) :=
  match ps with
  | [] => mret []
  | p :: ps =>
      x ← current_usage g org p tz_name now (existing p);
      l ← current_usages g org tz_name now existing ps;
      mret ((p, x) :: l)
  end.
Definition get_or_reset_quota_usages (g org : uuid) (ps : list QuotaPeriodType) (tz_name : pystr)
    (now : datetime) : op (list (QuotaPeriodType * GuestQuotaUsage)) :=
  existing ← gets (λ d p, get_quota_usage g p d);
  current_usages g org tz_name now existing ps.

(** ** Traffic *)
Fixpoint charge_loop (delta : Z) (limit : QuotaPeriodType → option Z)
    (l : list (QuotaPeriodType * GuestQuotaUsage)) (violated : option QuotaPeriodType) :
    op (option QuotaPeriodType) :=
  match l with
  | [] => mret violated
  | (p, x) :: l =>
      y ← update_quota_usage x (charged delta);
      charge_loop delta limit l
        (match violated with
         | None => if exceeds (bytes_used y) ((λ mb, mb * BYTES_PER_MB) <$> limit p) then Some p else None
         | Some _ => violated
         end)
  end.
(** The first period whose data cap is reached, if any. *)
Definition track_fup_data_usage (g org location : uuid) (delta : Z) (now : datetime)
    (tier : option Policy.AccessTier) : op (option QuotaPeriodType) :=
  match policy_lookup with
  | None => mret None
  | Some pdb =>
      if delta <=? 0 then mret None
      else
        let tz_name := get_organization_timezone org in
        match effective_rules Policy.FUP org location g pdb with
        | None => mret None
        | Some r =>
            let r := with_access_tier Policy.FUP r tier in
            l ← get_or_reset_quota_usages g org period_types tz_name now;
            charge_loop delta (data_limit r) l None
        end
  end.

(** [session_end_hook], and whether cuts on such a router are left to
    [nas_only_usage_cut_dispatcher]. *)
Variable term : option terminator.
Variable nas_only_usage_cut_dispatcher : bool.

Definition session_is_on_nas_only_router (x : GuestSession) : bool := default false (nas_only (session_router x)).
Definition end_nas_only_session_via_cloud (x : GuestSession) : op bool :=
  match term with
  | None => mret false
  | Some end_on_router =>
      guest ← gets (get_guest_by_id (session_guest x));
      match guest with
      | None => mret false
      | Some g =>
          match end_on_router x (identifier g) with
          | EndRaises => mret false
          | EndReports removed still =>
              mret (match removals_reported removed still with Some n => 1 <=? n | None => false end)
          end
      end
  end.
Definition expire_nas_only_session_over_cap (x : GuestSession) (reason : pystr) (now : datetime) :
    op GuestSession :=
  update_session x (λ x, with_enforced true (with_status EXPIRED (Some now) (Some reason) x)).

Definition used (up down : Z) (now : datetime) (x : GuestSession) : GuestSession :=
  with_activity now (with_bytes (bytes_uploaded x + Z.max up 0) (bytes_downloaded x + Z.max down 0) x).
Definition cap_reason (cap : bool) (violated : option QuotaPeriodType) : pystr :=
  if cap then u "data_limit_exceeded"
  else u "fup_data_quota_exceeded_" ++ match violated with Some p => period_value p | None => u "None" end.

(** What is left to do once the traffic is on the session's row. *)
Definition settle (now : datetime) (y : GuestSession) (violated : option QuotaPeriodType) : op GuestSession :=
  let cap := is_quota_exceeded y in
  let reason := cap_reason cap violated in
  if (cap || bool_decide (violated ≠ None)) && session_is_on_nas_only_router y then
    if nas_only_usage_cut_dispatcher then mret y
    else
      ended ← end_nas_only_session_via_cloud y;
      if (ended : bool) then expire_nas_only_session_over_cap y reason now else mret y
  else if cap || bool_decide (violated ≠ None) then
    z ← update_session y (with_status EXPIRED (Some now) (Some reason));
    r ← issue_live_disconnect term false z;
    mret r.1
  else mret y.
Definition record_usage (now : datetime) (k : uuid) (bytes_uploaded_delta bytes_downloaded_delta : Z) :
    op GuestSession :=
  row ← gets (get_session_by_id k);
  x ← of_option row GuestSessionNotFoundError;
  if negb (is_active x) then mret x
  else
    y ← update_session x (used bytes_uploaded_delta bytes_downloaded_delta now);
    let delta := Z.max bytes_uploaded_delta 0 + Z.max bytes_downloaded_delta 0 in
    let tier := if 0 <? delta
                then aruba_access_tier (session_router y) (session_org y) (session_location y) (session_guest y)
                else None in
    violated ← track_fup_data_usage (session_guest y) (session_org y) (session_location y) delta now tier;
    settle now y violated.

(** ** The gate of a sign-in *)
Variable team_quota : option (uuid → database → bool).

Definition any_set (limits : QuotaPeriodType → option Z) : bool :=
  existsb (λ p, match limits p with Some n => negb (n =? 0) | None => false end) period_types.
Fixpoint check_usages (r : Policy.rules) (l : list (QuotaPeriodType * GuestQuotaUsage)) : op unit :=
  match l with
  | [] => mret tt
  | (p, x) :: l =>
      _ ← raise_if (exceeds (bytes_used x) ((λ mb, mb * BYTES_PER_MB) <$> data_limit r p))
            (FairUsagePolicyExceededError p true (default 0 (data_limit r p)) (bytes_used x / BYTES_PER_MB));
      _ ← raise_if (exceeds (minutes_used x) (time_limit r p))
            (FairUsagePolicyExceededError p false (default 0 (time_limit r p)) (minutes_used x));
      check_usages r l
  end.
Definition enforce_fup_quota (g org location : uuid) (tier : option Policy.AccessTier) (now : datetime) :
    op unit :=
  over ← gets (λ d, match team_quota with Some is_over_shared_quota => is_over_shared_quota g d | None => false end);
  _ ← raise_if over GuestTeamSharedQuotaExceededError;
  match policy_lookup with
  | None => mret tt
  | Some pdb =>
      resolved ← of_option (effective_rules Policy.FUP org location g pdb) CollaboratorError;
      let r := with_access_tier Policy.FUP resolved tier in
      if negb (any_set (data_limit r)) && negb (any_set (time_limit r)) then mret tt
      else
        let capped := List.filter (λ p, bool_decide (data_limit r p ≠ None) || bool_decide (time_limit r p ≠ None))
                        period_types in
        l ← get_or_reset_quota_usages g org capped (get_organization_timezone org) now;
        check_usages r l
  end.

(** ** The accrual of connected time *)
Inductive connected_since := Unknown | SkipTimeAccrual | Since (t : datetime).
Definition nas_only_connected_since_lookup (g : uuid) (d : database) : connected_since :=
  match list_active_sessions_for_guest g d with
  | [] =>
      match x ← get_latest_session_for_guest g d; nas_only (session_router x) with
      | Some true => SkipTimeAccrual
      | _ => Unknown
      end
  | x :: l =>
      let answers := map (λ x, nas_only (session_router x)) (x :: l) in
      if bool_decide (Some false ∈ answers) || bool_decide (Some true ∉ answers) then Unknown
      else if bool_decide (None ∈ answers) then SkipTimeAccrual
      else Since (foldl (λ t x, Z.min t (started_at x)) (started_at x) l)
  end.
(** The routers are a set: the first that says yes, or fails, decides. *)
Fixpoint first_nas_only (routers : list uuid) : bool :=
  match routers with
  | [] => false
  | r :: routers =>
      match nas_only r with None => false | Some true => true | Some false => first_nas_only routers end
  end.
Definition aruba_access_tier_lookup (g org location : uuid) (d : database) : option Policy.AccessTier :=
  let routers := remove_dups (map session_router
    (select (λ x, bool_decide (session_location x = location)) (list_active_sessions_for_guest g d))) in
  match policy_lookup with
  | Some pdb => if first_nas_only routers
                then Policy.resolve_access_tier (Some org) (Some location) (Some g) pdb else None
  | None => None
  end.

(** Which lookups the sweep was given. *)
Variables (access_tier_lookup connected_since_lookup : bool).

Definition list_active_guest_org_pairs (d : database) : list (uuid * uuid * uuid) :=
  remove_dups (map (λ x, (session_guest x, session_org x, session_location x))
                 (select is_active (sessions d))).
Definition locations_by_guest (pairs : list (uuid * uuid * uuid)) : list (uuid * uuid * list uuid) :=
  map (λ k, (k, map snd (List.filter (λ e, bool_decide (e.1 = k)) pairs))) (remove_dups (map fst pairs)).

Definition stricter (current candidate : option Z) : option Z :=
  match candidate, current with
  | None, _ => current
  | Some n, None => Some n
  | Some n, Some m => Some (Z.min m n)
  end.
Fixpoint strictest_limits (pdb : Policy.database) (g org : uuid) (locations : list uuid)
    (limits : QuotaPeriodType → option Z) : op (QuotaPeriodType → option Z) :=
  match locations with
  | [] => mret limits
  | l :: locations =>
      resolved ← of_option (effective_rules Policy.FUP org l g pdb) CollaboratorError;
      tier ← gets (λ d, if access_tier_lookup then aruba_access_tier_lookup g org l d else None);
      let r := with_access_tier Policy.FUP resolved tier in
      strictest_limits pdb g org locations (λ p, stricter (limits p) (time_limit r p))
  end.

Fixpoint accrue_loop (g org : uuid) (tz_name : pystr) (now : datetime) (since : connected_since)
    (limits : QuotaPeriodType → option Z) (ps : list QuotaPeriodType)
    (violated : option QuotaPeriodType) (rows : Z) : op (option QuotaPeriodType * Z) :=
  match ps with
  | [] => mret (violated, rows)
  | p :: ps =>
      x ← get_or_reset_quota_usage g org p tz_name now;
      let accrue_from := default (period_start x) (last_accrued_at x) in
      let accrue_from := match since with Since t => Z.max accrue_from t | _ => accrue_from end in
      let elapsed := Z.max 0 ((now - accrue_from) / minutes 1) in
      y ← (if 0 <? elapsed then update_quota_usage x (accrued elapsed now) else mret x);
      accrue_loop g org tz_name now since limits ps
        (match violated with
         | None => if exceeds (minutes_used y) (limits p) then Some p else None
         | Some _ => violated
         end)
        (if 0 <? elapsed then rows + 1 else rows)
  end.
Definition time_reason (p : QuotaPeriodType) : pystr := u "fup_time_quota_exceeded_" ++ period_value p.

Definition accrue_guest (pdb : Policy.database) (now : datetime) (entry : uuid * uuid * list uuid) :
    op (Z * Z) :=
  let '(g, org, locations) := entry in
  let tz_name := get_organization_timezone org in
  limits ← strictest_limits pdb g org locations (λ _, None);
  if negb (any_set limits) then mret (0, 0)
  else
    since ← gets (λ d, if connected_since_lookup then nas_only_connected_since_lookup g d else Unknown);
    match since with
    | SkipTimeAccrual => mret (0, 0)
    | _ =>
        r ← accrue_loop g org tz_name now since limits period_types None 0;
        match r.1 with
        | None => mret (r.2, 0)
        | Some p =>
            rows ← gets (list_active_sessions_for_guest g);
            l ← collect (λ x,
                  y ← update_session x (with_status EXPIRED (Some now) (Some (time_reason p)));
                  r ← issue_live_disconnect term false y;
                  mret (Some r.1)) rows;
            mret (r.2, Z.of_nat (length l))
        end
    end.
Fixpoint accrue_guests (pdb : Policy.database) (now : datetime) (l : list (uuid * uuid * list uuid)) :
    op (Z * Z) :=
  match l with
  | [] => mret (0, 0)
  | e :: l =>
      a ← accrue_guest pdb now e;
      b ← accrue_guests pdb now l;
      mret (a.1 + b.1, a.2 + b.2)
  end.
(** The rows accrued and the sessions expired. *)
Definition run_fup_time_accrual (pdb : Policy.database) (now : datetime) : op (Z * Z) :=
  pairs ← gets list_active_guest_org_pairs;
  accrue_guests pdb now (locations_by_guest pairs).

(** ** The reset sweep *)
Definition list_all_quota_usages_with_org_timezone (d : database) : list GuestQuotaUsage :=
  select (λ x, bool_decide (timezones !! usage_org x ≠ None)) (usages d).
Definition run_quota_reset (now : datetime) : op Z :=
  rows ← gets list_all_quota_usages_with_org_timezone;
  l ← collect (λ x,
        let start := compute_period_start zones (period_type x) now (default [] (timezones !! usage_org x)) in
        if period_start x <? start then y ← update_quota_usage x (restarted start); mret (Some y)
        else mret None) rows;
  mret (Z.of_nat (length l)).

(** ** What the counters become *)

(** The rest of the database. *)
Definition besides (d : database) := (guests d, devices d, sessions d, login_history d).
(** [d'] is [d] with the row of [g] and [p] now [y]. *)
Definition writes (g : uuid) (p : QuotaPeriodType) (y : GuestQuotaUsage) (d d' : database) : Prop :=
  besides d' = besides d ∧
  ∀ g' p', get_quota_usage g' p' d'
    = if decide (g' = g ∧ p' = p) then Some y else get_quota_usage g' p' d.

Lemma get_quota_usage_key g p d x : get_quota_usage g p d = Some x → usage_guest x = g ∧ period_type x = p.
Proof. intros [_ H]%select_one_Some. by bools. Qed.

Lemma update_usage_writes (f : GuestQuotaUsage → GuestQuotaUsage) g p x d :
  (∀ r, usage_guest (f r) = usage_guest r ∧ period_type (f r) = period_type r) →
  get_quota_usage g p d = Some x →
  ∃ d', update_quota_usage x f d = (Ok (f x), d') ∧ writes g p (f x) d d'.
Proof.
  intros Hf Hx. eexists. split; [reflexivity|]. split; [done|]. intros g' p'.
  unfold get_quota_usage in *. cbn [usages set_usages]. rewrite select_one_update.
  2: { intros r. by destruct (Hf r) as [-> ->]. }
  pose proof (get_quota_usage_key g p d x Hx) as [Hg Hp]. unfold same_usage. rewrite Hg, Hp.
  case_decide as Hk.
  - destruct Hk as [-> ->]. rewrite Hx. cbn. by rewrite Hg, Hp, !bool_decide_true.
  - clear Hx. destruct (select_one _ (usages d)) as [r|] eqn:Hr; [|done]. cbn.
    pose proof (get_quota_usage_key g' p' d r Hr) as [Hg' Hp'].
    destruct (bool_decide (usage_guest r = g) && bool_decide (period_type r = p)) eqn:E; [|done].
    bools. destruct Hk. by subst.
Qed.
Lemma create_usage_writes y d : get_quota_usage (usage_guest y) (period_type y) d = None →
  ∃ d', create_quota_usage y d = (Ok y, d') ∧ writes (usage_guest y) (period_type y) y d d'.
Proof.
  intros Hy. eexists. split; [reflexivity|]. split; [done|]. intros g' p'.
  unfold get_quota_usage in *. cbn [usages set_usages]. case_decide as Hk.
  - destruct Hk as [-> ->]. apply select_one_insert; [by apply select_one_None|].
    by rewrite !bool_decide_true.
  - apply select_one_insert_other. apply andb_false_iff.
    destruct (decide (usage_guest y = g')); [right|left]; apply bool_decide_false; [|done].
    intros Hp. by destruct Hk.
Qed.

(** The row as the current period has it. *)
Definition rolled (g org : uuid) (p : QuotaPeriodType) (tz_name : pystr) (now : datetime) (d : database) :
    GuestQuotaUsage :=
  let start := compute_period_start zones p now tz_name in
  match get_quota_usage g p d with
  | None => mk_usage g org p start 0 0 None
  | Some x => if period_start x <? start then restarted start x else x
  end.
Lemma current_usage_writes g org p tz_name now d :
  ∃ d', current_usage g org p tz_name now (get_quota_usage g p d) d = (Ok (rolled g org p tz_name now d), d')
    ∧ writes g p (rolled g org p tz_name now d) d d'.
Proof.
  unfold current_usage, rolled. destruct (get_quota_usage g p d) as [x|] eqn:Hx.
  - destruct (period_start x <? _).
    + by apply update_usage_writes.
    + exists d. split; [done|]. split; [done|]. intros g' p'. case_decide as Hk; [|done].
      by destruct Hk as [-> ->].
  - by apply (create_usage_writes (mk_usage g org p _ 0 0 None)).
Qed.
Lemma rolled_key g org p tz_name now d :
  usage_guest (rolled g org p tz_name now d) = g ∧ period_type (rolled g org p tz_name now d) = p.
Proof.
  unfold rolled. destruct (get_quota_usage g p d) as [x|] eqn:Hx; [|done].
  pose proof (get_quota_usage_key g p d x Hx). by destruct (_ <? _).
Qed.

(** The rows of the guest [g] in the periods [ps] are now [f]. *)
Definition writes_all (g : uuid) (ps : list QuotaPeriodType) (f : QuotaPeriodType → GuestQuotaUsage)
    (d d' : database) : Prop :=
  besides d' = besides d ∧
  ∀ g' p', get_quota_usage g' p' d'
    = if decide (g' = g ∧ p' ∈ ps) then Some (f p') else get_quota_usage g' p' d.

Lemma current_usages_writes g org tz_name now ps : ∀ d existing, NoDup ps →
  (∀ p, p ∈ ps → existing p = get_quota_usage g p d) →
  ∃ d', current_usages g org tz_name now existing ps d
          = (Ok (map (λ p, (p, rolled g org p tz_name now d)) ps), d')
    ∧ writes_all g ps (λ p, rolled g org p tz_name now d) d d'.
Proof.
  induction ps as [|p ps IH]; intros d existing Hnd Hex.
  { exists d. split; [done|]. split; [done|]. intros g' p'. rewrite decide_False; [done|].
    intros [_ Hin]. by apply not_elem_of_nil in Hin. }
  apply NoDup_cons in Hnd as [Hp Hnd]. cbn [current_usages]. rewrite (Hex p) by left.
  destruct (current_usage_writes g org p tz_name now d) as (d1 & Hrun & Hb1 & Hg1).
  erewrite bind_step by exact Hrun.
  assert (∀ q, q ∈ ps → rolled g org q tz_name now d1 = rolled g org q tz_name now d) as Hrolled.
  { intros q Hq. unfold rolled. rewrite Hg1, decide_False; [done|]. by intros [_ ->]. }
  destruct (IH d1 existing Hnd) as (d2 & Hrun2 & Hb2 & Hg2).
  { intros q Hq. rewrite Hg1, decide_False by (by intros [_ ->]). apply Hex. by right. }
  erewrite bind_step by exact Hrun2. exists d2. split.
  - unfold mret, M_ret. cbn [map]. do 3 f_equal. apply map_ext_in. intros q Hq%list_elem_of_In.
    by rewrite Hrolled.
  - split; [by rewrite Hb2|]. intros g' p'. rewrite Hg2. case_decide as H2.
    + destruct H2 as [-> H2]. rewrite decide_True by (split; [done|by right]). by rewrite Hrolled.
    + rewrite Hg1. case_decide as H1.
      * destruct H1 as [-> ->]. rewrite decide_True; [done|]. split; [done|left].
      * rewrite decide_False; [done|]. intros [-> [->|Hin]%elem_of_cons]; tauto.
Qed.

Definition violates (limit : QuotaPeriodType → option Z) (f : QuotaPeriodType → GuestQuotaUsage)
    (p : QuotaPeriodType) : bool :=
  exceeds (bytes_used (f p)) ((λ mb, mb * BYTES_PER_MB) <$> limit p).

Lemma charge_loop_writes g delta limit (f : QuotaPeriodType → GuestQuotaUsage) ps : ∀ d v, NoDup ps →
  (∀ p, p ∈ ps → get_quota_usage g p d = Some (f p)) →
  ∃ d', charge_loop delta limit (map (λ p, (p, f p)) ps) v d
      = (Ok (match v with
             | Some p => Some p
             | None => List.find (violates limit (λ p, charged delta (f p))) ps
             end), d')
    ∧ writes_all g ps (λ p, charged delta (f p)) d d'.
Proof.
  induction ps as [|p ps IH]; intros d v Hnd Hf.
  { exists d. split; [by destruct v|]. split; [done|]. intros g' p'. rewrite decide_False; [done|].
    intros [_ Hin]. by apply not_elem_of_nil in Hin. }
  apply NoDup_cons in Hnd as [Hp Hnd]. cbn [map charge_loop].
  destruct (update_usage_writes (charged delta) g p (f p) d) as (d1 & Hrun & Hb1 & Hg1); [done| |].
  { apply Hf. left. }
  erewrite bind_step by exact Hrun.
  edestruct (IH d1) as (d2 & Hrun2 & Hb2 & Hg2); [done| |].
  { intros q Hq. rewrite Hg1, decide_False by (by intros [_ ->]). apply Hf. by right. }
  exists d2. split.
  - rewrite Hrun2. f_equal. f_equal. destruct v; [done|]. cbn [List.find]. unfold violates at 2.
    by destruct (exceeds _ _).
  - split; [by rewrite Hb2|]. intros g' p'. rewrite Hg2. case_decide as H2.
    + destruct H2 as [-> H2]. by rewrite decide_True by (split; [done|by right]).
    + rewrite Hg1. case_decide as H1.
      * destruct H1 as [-> ->]. rewrite decide_True; [done|]. split; [done|left].
      * rewrite decide_False; [done|]. intros [-> [->|Hin]%elem_of_cons]; tauto.
Qed.

Lemma period_types_NoDup : NoDup period_types.
Proof. by apply (bool_decide_unpack _). Qed.
Lemma elem_of_period_types p : p ∈ period_types.
Proof. destruct p; by apply (bool_decide_unpack _). Qed.

(** The counters after [delta] bytes were charged. *)
Definition after_charge (g org : uuid) (delta : Z) (now : datetime) (d : database) (p : QuotaPeriodType) :
    GuestQuotaUsage :=
  charged delta (rolled g org p (get_organization_timezone org) now d).

Lemma writes_all_trans g ps f f' d d1 d2 :
  writes_all g ps f d d1 → writes_all g ps f' d1 d2 → writes_all g ps f' d d2.
Proof.
  intros [Hb1 H1] [Hb2 H2]. split; [by rewrite Hb2|]. intros g' p'. rewrite H2.
  case_decide; [done|]. rewrite H1. by rewrite decide_False.
Qed.

Lemma track_writes pdb r g org location delta now tier d :
  policy_lookup = Some pdb → 0 < delta → effective_rules Policy.FUP org location g pdb = Some r →
  let f := after_charge g org delta now d in
  ∃ d', track_fup_data_usage g org location delta now tier d
      = (Ok (List.find (violates (data_limit (with_access_tier Policy.FUP r tier)) f) period_types), d')
    ∧ writes_all g period_types f d d'.
Proof.
  intros Hpdb Hdelta Hr f. unfold track_fup_data_usage. rewrite Hpdb, Hr.
  assert ((delta <=? 0) = false) as -> by lia.
  destruct (current_usages_writes g org (get_organization_timezone org) now period_types d
    (λ p, get_quota_usage g p d) period_types_NoDup) as (d1 & Hrun & Hw); [done|].
  unfold get_or_reset_quota_usages. rewrite bind_assoc. erewrite bind_step by (unfold gets; reflexivity).
  erewrite bind_step by exact Hrun.
  destruct (charge_loop_writes g delta (data_limit (with_access_tier Policy.FUP r tier))
    (λ p, rolled g org p (get_organization_timezone org) now d) period_types d1 None period_types_NoDup)
    as (d2 & Hrun2 & Hw2).
  { intros p Hp. destruct Hw as [_ Hg]. rewrite Hg. by rewrite decide_True by done. }
  exists d2. split; [exact Hrun2|]. by eapply writes_all_trans.
Qed.

(** Whatever the policy engine does, only this guest's counters change. *)
Lemma track_frame g org location delta now tier d :
  ∃ v d', track_fup_data_usage g org location delta now tier d = (Ok v, d') ∧ besides d' = besides d
    ∧ ∀ g' p', g' ≠ g → get_quota_usage g' p' d' = get_quota_usage g' p' d.
Proof.
  destruct policy_lookup as [pdb|] eqn:Hpdb.
  2: { exists None, d. unfold track_fup_data_usage. by rewrite Hpdb. }
  destruct (Z.leb_spec delta 0) as [Hd|Hd].
  { exists None, d. unfold track_fup_data_usage. rewrite Hpdb.
    assert ((delta <=? 0) = true) as -> by lia. done. }
  destruct (effective_rules Policy.FUP org location g pdb) as [r|] eqn:Hr.
  2: { exists None, d. unfold track_fup_data_usage. rewrite Hpdb, Hr. by destruct (delta <=? 0). }
  destruct (track_writes pdb r g org location delta now tier d Hpdb Hd Hr) as (d' & Hrun & Hb & Hg).
  eexists _, d'. split_and!; [exact Hrun|exact Hb|]. intros g' p' Hne. rewrite Hg, decide_False; [done|].
  by intros [-> _].
Qed.

(** ** A report of traffic *)
Definition reported (up down : Z) : Z := Z.max up 0 + Z.max down 0.
Definition tier_of (x : GuestSession) (delta : Z) : option Policy.AccessTier :=
  if 0 <? delta then aruba_access_tier (session_router x) (session_org x) (session_location x) (session_guest x)
  else None.

Lemma record_usage_eq now k up down x d : keyed (sessions d) → get_session_by_id k d = Some x →
  record_usage now k up down d =
    if is_active x then
      let y := used up down now x in
      (violated ← track_fup_data_usage (session_guest x) (session_org x) (session_location x)
                    (reported up down) now (tier_of x (reported up down));
       settle now y violated) (written y x d)
    else (Ok x, d).
Proof.
  intros Hk Hx. unfold record_usage. erewrite bind_step by (unfold gets; reflexivity).
  rewrite Hx, of_option_bind. destruct (is_active x); [|done]. cbn [negb].
  erewrite bind_step by (apply update_session_eq; [done|by apply by_id_session in Hx as [? _]]). done.
Qed.

Lemma written_get y x d : keyed (sessions d) → session_id y = session_id x → x ∈ sessions d →
  get_session_by_id (session_id x) (written y x d) = Some y.
Proof.
  intros Hk Hid Hx. unfold get_session_by_id, written. cbn [sessions set_sessions].
  change (session_id x) with (row_id x). unfold by_id. unfold set_row.
  assert (by_id (row_id x) (sessions d) = Some x) as Hget by (by apply by_id_unique).
  clear -Hget Hid. unfold by_id, select_one, select, update in *.
  induction (sessions d) as [|r t IH]; [done|]. cbn in *. destruct (has_id (row_id x) r) eqn:E.
  - assert (has_id (row_id x) y = true) as Hy by (unfold has_id; by apply bool_decide_eq_true). by rewrite Hy.
  - rewrite E. by apply IH.
Qed.
Lemma written_keyed y x d : keyed (sessions d) → session_id y = session_id x →
  keyed (sessions (written y x d)).
Proof.
  intros Hk Hid. unfold keyed, written in *. cbn [sessions set_sessions]. unfold set_row, update.
  rewrite map_map. erewrite map_ext; [exact Hk|]. intros r. unfold has_id. case_bool_decide as E; [|done].
  change (session_id y = row_id r). rewrite Hid. by symmetry.
Qed.

(** What settling does to the row [y]. *)
Lemma settle_spec now y violated d : keyed (sessions d) → y ∈ sessions d → status y = ACTIVE →
  session_is_on_nas_only_router y = false →
  ∃ z d', settle now y violated d = (Ok z, d') ∧ get_session_by_id (session_id y) d' = Some z
    ∧ total_bytes z = total_bytes y ∧ usages d' = usages d
    ∧ status z = (if is_quota_exceeded y || bool_decide (violated ≠ None) then EXPIRED else ACTIVE).
Proof.
  intros Hk Hy Ha Hnas. unfold settle. rewrite Hnas, andb_false_r. destruct (_ || _) eqn:E.
  - rewrite write_then_disconnect by done. cbn zeta. eexists _, _. split; [reflexivity|]. cbn [fst].
    split_and!; [| |done|by rewrite cut_status].
    + apply written_get; [done|by apply cut_id|done].
    + unfold cut. by destruct (disconnect_outcome _ _ _ _).1.
  - exists y, d. split_and!; try done. by apply by_id_unique.
Qed.

Lemma find_violates limit f :
  List.find (violates limit f) period_types ≠ None ↔
  ∃ p mb, limit p = Some mb ∧ mb * BYTES_PER_MB ≤ bytes_used (f p).
Proof.
  assert (∀ p, violates limit f p = true ↔ ∃ mb, limit p = Some mb ∧ mb * BYTES_PER_MB ≤ bytes_used (f p))
    as Hv.
  { intros p. unfold violates, exceeds, is_fup_usage_exceeded. destruct (limit p) as [mb|]; cbn.
    - rewrite Z.leb_le. split; [by exists mb|]. by intros (? & [= <-] & ?).
    - split; [done|]. by intros (? & ? & _). }
  split.
  - destruct (List.find _ _) as [p|] eqn:E; [|done]. intros _. apply find_some in E as [_ E].
    apply Hv in E as (mb & ? & ?). by exists p, mb.
  - intros (p & mb & Hmb) E. pose proof (find_none _ _ E p) as Hn.
    rewrite (proj2 (Hv p)) in Hn by (by exists mb). apply Bool.diff_true_false, Hn.
    apply list_elem_of_In, elem_of_period_types.
Qed.
Lemma quota_exceeded_iff y : is_quota_exceeded y = true ↔
  ∃ mb, data_limit_mb y = Some mb ∧ mb * BYTES_PER_MB ≤ total_bytes y.
Proof.
  unfold is_quota_exceeded. destruct (data_limit_mb y) as [mb|]; [rewrite Z.leb_le|].
  - split; [by exists mb|]. by intros (? & [= <-] & ?).
  - split; [done|]. by intros (? & ? & _).
Qed.

(** C7: a report of some traffic on an active session, on a router that is not
    reached as a RADIUS client only and at a place where a fair-use policy can
    be resolved, is added to the session and to the guest's daily, weekly and
    monthly counters, which start afresh where their period is over; and the
    session ends, there and then, if and only if it has reached its own data
    limit or one of the counters has reached the cap of its period. *)
Theorem session_ends_exactly_at_a_cap now k up down x d pdb r0 :
  keyed (sessions d) → get_session_by_id k d = Some x → status x = ACTIVE →
  session_is_on_nas_only_router x = false → policy_lookup = Some pdb → 0 < reported up down →
  effective_rules Policy.FUP (session_org x) (session_location x) (session_guest x) pdb = Some r0 →
  let delta := reported up down in
  let r := with_access_tier Policy.FUP r0 (tier_of x delta) in
  ∃ y d', record_usage now k up down d = (Ok y, d') ∧ get_session_by_id k d' = Some y
    ∧ total_bytes y = total_bytes x + delta
    ∧ (∀ p, get_quota_usage (session_guest x) p d'
            = Some (after_charge (session_guest x) (session_org x) delta now d p))
    ∧ status y ∈ [ACTIVE; EXPIRED]
    ∧ (status y = EXPIRED ↔
        (∃ mb, data_limit_mb x = Some mb ∧ mb * BYTES_PER_MB ≤ total_bytes x + delta)
        ∨ ∃ p mb usage, data_limit r p = Some mb ∧ get_quota_usage (session_guest x) p d' = Some usage
            ∧ mb * BYTES_PER_MB ≤ bytes_used usage).
Proof.
  intros Hk Hx Ha Hnas Hpdb Hdelta Hr delta r. pose proof (by_id_session _ _ _ Hx) as [Hin Hid].
  rewrite (record_usage_eq _ _ _ _ x) by done. unfold is_active. rewrite bool_decide_true by done. cbn zeta.
  set (y := used up down now x). set (d1 := written y x d).
  destruct (track_writes pdb r0 (session_guest x) (session_org x) (session_location x) delta now
    (tier_of x delta) d1 Hpdb Hdelta Hr) as (d2 & Hrun & Hb & Hg).
  fold r in Hrun. erewrite bind_step by exact Hrun.
  set (f := after_charge (session_guest x) (session_org x) delta now d1) in *.
  set (violated := List.find (violates (data_limit r) f) period_types) in *.
  assert (sessions d2 = sessions d1) as Hs by (unfold besides in Hb; by injection Hb).
  assert (keyed (sessions d2)) as Hk2 by (rewrite Hs; by apply written_keyed).
  assert (get_session_by_id k d2 = Some y) as Hy.
  { unfold get_session_by_id. rewrite Hs, <-Hid. by apply written_get. }
  pose proof (by_id_session _ _ _ Hy) as [Hyin Hyid].
  assert (total_bytes y = total_bytes x + delta) as Ht.
  { unfold total_bytes, y, delta, reported. cbn. lia. }
  assert (∀ p, get_quota_usage (session_guest x) p d2 = Some (f p)) as Hu.
  { intros p. rewrite Hg. rewrite decide_True; [done|]. split; [done|apply elem_of_period_types]. }
  assert (is_quota_exceeded y = true ↔ ∃ mb, data_limit_mb x = Some mb ∧ mb * BYTES_PER_MB ≤ total_bytes x + delta)
    as Hq by (rewrite quota_exceeded_iff, Ht; done).
  assert (violated ≠ None ↔ ∃ p mb usage, data_limit r p = Some mb
    ∧ get_quota_usage (session_guest x) p d2 = Some usage ∧ mb * BYTES_PER_MB ≤ bytes_used usage) as Hv.
  { unfold violated. rewrite find_violates. split.
    - intros (p & mb & ? & ?). by exists p, mb, (f p).
    - intros (p & mb & usage & ? & Hp & ?). rewrite Hu in Hp. injection Hp as <-. by exists p, mb. }
  destruct (settle_spec now y violated d2 Hk2 Hyin Ha Hnas) as (z & d3 & Hrun3 & Hz & Htz & Hus & Hsz).
  exists z, d3. rewrite Hrun3. split_and!; [done| | | | |].
  - by rewrite <-Hyid.
  - by rewrite Htz.
  - intros p. unfold get_quota_usage. rewrite Hus. apply Hu.
  - rewrite Hsz. destruct (_ || _); [right; left|left].
  - rewrite <-Hq. unfold get_quota_usage. rewrite Hus. rewrite <-Hv, Hsz.
    destruct (is_quota_exceeded y); [split; [by left|done]|]. cbn [orb].
    case_bool_decide; split; try done; [by right|by intros []].
Qed.

(** ** What a counter counts *)

(** The bytes a guest's sessions have carried, and the bytes on the counter
    of the period that starts at [start]: none while it holds an older one. *)
Definition carried (g : uuid) (d : database) : Z :=
  foldr (λ x n, total_bytes x + n) 0 (select (of_guest g) (sessions d)).
Definition counted (g : uuid) (p : QuotaPeriodType) (start : datetime) (d : database) : Z :=
  match get_quota_usage g p d with
  | Some x => if period_start x <? start then 0 else bytes_used x
  | None => 0
  end.

Lemma carried_ext g d d' : sessions d' = sessions d → carried g d' = carried g d.
Proof. unfold carried. by intros ->. Qed.
Lemma carried_written g x y d : keyed (sessions d) → x ∈ sessions d →
  session_id y = session_id x → session_guest y = session_guest x →
  carried g (written y x d) = carried g d + (if of_guest g x then total_bytes y - total_bytes x else 0).
Proof.
  unfold carried, written, keyed. cbn [sessions set_sessions]. intros Hk Hx Hid Hg.
  assert (of_guest g y = of_guest g x) as Hof by (unfold of_guest; by rewrite Hg).
  assert (∀ t, session_id x ∉ map row_id t → set_row (λ _, y) (session_id x) t = t) as Hno.
  { intros t Ht. unfold set_row. apply update_false. intros r Hr. unfold has_id. apply bool_decide_eq_false.
    intros E. apply Ht. rewrite <-E. by apply list_elem_of_In, in_map, list_elem_of_In. }
  assert (∀ t, foldr (λ z n, total_bytes z + n) 0 (select (of_guest g) (x :: t))
    = (if of_guest g x then total_bytes x else 0) + foldr (λ z n, total_bytes z + n) 0 (select (of_guest g) t)) as Hcons.
  { intros t. unfold select. cbn. by destruct (of_guest g x). }
  induction (sessions d) as [|r t IH]; [by apply not_elem_of_nil in Hx|].
  cbn [map] in Hk. apply NoDup_cons in Hk as [Hr Hk]. apply elem_of_cons in Hx as [<-|Hx].
  - unfold set_row, update in *. cbn [map]. unfold has_id at 1. rewrite bool_decide_true by done.
    rewrite (Hno t) by exact Hr. rewrite Hcons. unfold select. cbn [List.filter]. rewrite Hof.
    destruct (of_guest g x); cbn; lia.
  - specialize (IH Hk Hx). unfold set_row, update in *. cbn [map]. unfold has_id at 1.
    rewrite bool_decide_false.
    2: { intros E. apply Hr. rewrite E. change (session_id x) with (row_id x).
         by apply list_elem_of_In, in_map, list_elem_of_In. }
    unfold select in *. cbn [List.filter]. destruct (of_guest g r); cbn [foldr]; lia.
Qed.

(** A turn of the counter in its period. *)
Lemma counted_charge g org p delta now d d' :
  get_quota_usage g p d' = Some (after_charge g org delta now d p) →
  let start := compute_period_start zones p now (get_organization_timezone org) in
  counted g p start d' = counted g p start d + delta.
Proof.
  intros Hu start. unfold counted. rewrite Hu. unfold after_charge, rolled. fold start.
  destruct (get_quota_usage g p d) as [x|]; [|by cbn; rewrite Z.ltb_irrefl].
  destruct (period_start x <? start) eqn:E; cbn.
  - by rewrite Z.ltb_irrefl.
  - by rewrite E.
Qed.

Lemma via_cloud_reads y : reads (end_nas_only_session_via_cloud y).
Proof.
  unfold end_nas_only_session_via_cloud. destruct term as [e|]; [|apply reads_ret].
  apply reads_bind; [apply reads_gets|]. intros [gu|]; [|apply reads_ret].
  destruct (e y (identifier gu)); apply reads_ret.
Qed.
(** Settling leaves the row alone or ends it. *)
Lemma settle_writes now y violated d : keyed (sessions d) → y ∈ sessions d → status y = ACTIVE →
  ∃ z d', settle now y violated d = (Ok z, d')
    ∧ (d' = d ∨ d' = written z y d ∧ advances now y z ∧ total_bytes z = total_bytes y).
Proof.
  intros Hk Hy Ha. unfold settle.
  assert (EXPIRED ∈ GUEST_SESSION_STATUS_TRANSITIONS (status y)) as Hlive by (rewrite Ha; cbn; set_solver).
  destruct (_ && session_is_on_nas_only_router y).
  - destruct nas_only_usage_cut_dispatcher; [exists y, d; auto|].
    pose proof (via_cloud_reads y d) as Hr.
    destruct (end_nas_only_session_via_cloud y d) as [[ended|e] d1] eqn:Hrun; cbn in Hr; subst d1.
    2: { exfalso. revert Hrun. unfold end_nas_only_session_via_cloud. destruct term as [ee|]; [|done].
         erewrite bind_step by (unfold gets; reflexivity). destruct (get_guest_by_id _ d) as [gu|]; [|done].
         by destruct (ee y (identifier gu)). }
    erewrite bind_step by exact Hrun. destruct ended; [|exists y, d; auto].
    unfold expire_nas_only_session_over_cap. rewrite update_session_eq by done. eexists _, _. split; [done|].
    right. split_and!; [done| |done]. eapply advances_trans; [apply (advances_ended now EXPIRED); [done|set_solver]|].
    apply (advances_enforced now (Some true)).
  - destruct (_ || _); [|exists y, d; auto]. rewrite write_then_disconnect by done.
    eexists _, _. split; [reflexivity|]. right. split_and!; [done| |].
    + apply advances_cut; [done|set_solver].
    + cbn. unfold cut. by destruct (disconnect_outcome _ _ _ _).1.
Qed.

Lemma advances_used now up down x : status x = ACTIVE → advances now x (used up down now x).
Proof.
  intros Ha. apply (advances_columns now (used up down now)); try done; try (cbn; lia).
  unfold ended. by rewrite Ha.
Qed.

(** The policy engine answers for all the sessions of [g], in [org]. *)
Definition governed (g org : uuid) (d : database) : Prop :=
  ∃ pdb, policy_lookup = Some pdb ∧ ∀ x, x ∈ sessions d → session_guest x = g →
    session_org x = org ∧ effective_rules Policy.FUP org (session_location x) g pdb ≠ None.
(** What [g] was charged in the period of [start] is what its sessions
    carried. *)
Definition accounts (g : uuid) (p : QuotaPeriodType) (start : datetime) (d d' : database) : Prop :=
  counted g p start d' - counted g p start d = carried g d' - carried g d.

Lemma record_usage_accounts g org p now k up down d :
  keyed (sessions d) → governed g org d →
  accounts g p (compute_period_start zones p now (get_organization_timezone org)) d
    (record_usage now k up down d).2.
Proof.
  intros Hk (pdb & Hpdb & Hgov). unfold accounts. destruct (get_session_by_id k d) as [x|] eqn:Hx.
  2: { unfold record_usage. erewrite bind_step by (unfold gets; reflexivity). rewrite Hx, of_option_bind. cbn. lia. }
  rewrite (record_usage_eq _ _ _ _ x) by done. unfold is_active. case_bool_decide as Ha; [|cbn; lia]. cbn zeta.
  pose proof (by_id_session _ _ _ Hx) as [Hin Hid]. set (delta := reported up down).
  set (y := used up down now x). set (d1 := written y x d).
  assert (usages d1 = usages d) as Hu1 by done.
  pose proof (carried_written g x y d Hk Hin eq_refl eq_refl) as Hc1. fold d1 in Hc1.
  assert (total_bytes y = total_bytes x + delta) as Ht by (unfold total_bytes, y, delta, reported; cbn; lia).
  assert (∃ v d2, track_fup_data_usage (session_guest x) (session_org x) (session_location x) delta now
      (tier_of x delta) d1 = (Ok v, d2) ∧ besides d2 = besides d1
    ∧ counted g p (compute_period_start zones p now (get_organization_timezone org)) d2
      = counted g p (compute_period_start zones p now (get_organization_timezone org)) d1
        + (if of_guest g x then delta else 0)) as (v & d2 & Hrun & Hb & Hcount).
  { unfold of_guest. case_bool_decide as Hg.
    - destruct (Hgov x Hin Hg) as [Ho Hr]. rewrite Hg, Ho.
      destruct (Z.leb_spec delta 0) as [Hd|Hd].
      { exists None, d1. unfold track_fup_data_usage. rewrite Hpdb.
        assert ((delta <=? 0) = true) as -> by lia. split_and!; [done..|].
        assert (0 ≤ delta) by (unfold delta, reported; lia). lia. }
      destruct (effective_rules _ _ _ _ _) as [r|] eqn:Hr0; [|done].
      destruct (track_writes pdb r g org (session_location x) delta now (tier_of x delta) d1 Hpdb Hd Hr0)
        as (d2 & Hrun & Hb & Hw).
      eexists _, d2. split_and!; [exact Hrun|exact Hb|].
      apply (counted_charge g org). rewrite Hw. rewrite decide_True; [done|].
      split; [done|apply elem_of_period_types].
    - destruct (track_frame (session_guest x) (session_org x) (session_location x) delta now (tier_of x delta) d1)
        as (v & d2 & Hrun & Hb & Hw). exists v, d2. split_and!; [done..|].
      unfold counted. rewrite Hw by (by intros ->). lia. }
  erewrite bind_step by exact Hrun.
  assert (sessions d2 = sessions d1) as Hs by (unfold besides in Hb; by injection Hb).
  assert (keyed (sessions d2)) as Hk2 by (rewrite Hs; by apply written_keyed).
  assert (y ∈ sessions d2) as Hyin.
  { rewrite Hs. apply (by_id_session (session_id x)). by apply written_get. }
  destruct (settle_writes now y v d2 Hk2 Hyin Ha) as (z & d3 & -> & Hd3). cbn [snd].
  rewrite <-(carried_ext g d1 d2 Hs) in Hc1.
  assert (counted g p (compute_period_start zones p now (get_organization_timezone org)) d1
    = counted g p (compute_period_start zones p now (get_organization_timezone org)) d) as Hc0 by done.
  destruct Hd3 as [->|(-> & [Hstep _] & Htz)].
  - rewrite Hcount, Hc1, Hc0. destruct (of_guest g x); lia.
  - rewrite (carried_written g y z d2) by (done || apply (step_id _ _ Hstep) || (destruct Hstep as [An _ _ _ _]; by injection An)).
    change (counted g p ?s (written z y d2)) with (counted g p s d2). rewrite Hcount, Hc1, Hc0, Htz.
    change (of_guest g y) with (of_guest g x). destruct (of_guest g x); lia.
Qed.

(** ** The gate *)
Definition below (r : Policy.rules) (x : GuestQuotaUsage) (p : QuotaPeriodType) : Prop :=
  (∀ mb, data_limit r p = Some mb → bytes_used x < mb * BYTES_PER_MB)
  ∧ (∀ m, time_limit r p = Some m → minutes_used x < m).
Lemma exceeds_false n limit : exceeds n limit = false ↔ ∀ l, limit = Some l → n < l.
Proof.
  unfold exceeds, is_fup_usage_exceeded. destruct limit as [l|]; [rewrite Z.leb_gt|done].
  split; [by intros ? ? [= <-]|auto].
Qed.
Lemma below_iff r x p : below r x p ↔
  exceeds (bytes_used x) ((λ mb, mb * BYTES_PER_MB) <$> data_limit r p) = false
  ∧ exceeds (minutes_used x) (time_limit r p) = false.
Proof.
  rewrite !exceeds_false. unfold below. destruct (data_limit r p) as [mb|]; cbn; [|naive_solver].
  split; intros [H1 H2]; (split; [|done]); [intros l [= <-]|intros l [= <-]]; auto.
Qed.
Lemma check_usages_iff r (f : QuotaPeriodType → GuestQuotaUsage) ps d :
  check_usages r (map (λ p, (p, f p)) ps) d = (Ok tt, d) ↔ ∀ p, p ∈ ps → below r (f p) p.
Proof.
  induction ps as [|p ps IH].
  { split; [intros _ p Hp; by apply not_elem_of_nil in Hp|done]. }
  cbn [map check_usages]. pose proof (below_iff r (f p) p) as Hb.
  rewrite !raise_if_bind. destruct (exceeds _ _).
  { split; [done|]. intros H. by destruct (proj1 Hb (H p ltac:(left))). }
  rewrite ?raise_if_bind. destruct (exceeds _ _).
  { split; [done|]. intros H. by destruct (proj1 Hb (H p ltac:(left))). }
  rewrite IH. split.
  - intros H q [->|Hq]%elem_of_cons; [by apply Hb|by apply H].
  - intros H q Hq. apply H. by right.
Qed.

Lemma check_usages_reads r l : reads (check_usages r l).
Proof.
  induction l as [|[p x] l IH]; [apply reads_ret|]. cbn [check_usages].
  repeat (apply reads_bind; [apply reads_raise_if|intros _]). exact IH.
Qed.

Lemma any_set_false limits : any_set limits = false ↔ ∀ p, limits p = None ∨ limits p = Some 0.
Proof.
  unfold any_set, period_types. cbn [existsb]. rewrite !orb_false_iff. split.
  - intros (H1 & H2 & H3 & _) p.
    destruct p; [destruct (limits DAILY) as [n|]|destruct (limits WEEKLY) as [n|]|destruct (limits MONTHLY) as [n|]];
      auto; right; f_equal; lia.
  - intros H. split_and!; try done; [destruct (H DAILY) as [-> | ->]|destruct (H WEEKLY) as [-> | ->]|
      destruct (H MONTHLY) as [-> | ->]]; done.
Qed.


(** ** The reset sweep *)
Definition usage_key (x : GuestQuotaUsage) : uuid * QuotaPeriodType := (usage_guest x, period_type x).
(** The unique index of the table. *)
Definition usages_keyed (d : database) : Prop := NoDup (map usage_key (usages d)).

Definition sweep_start (now : datetime) (x : GuestQuotaUsage) : datetime :=
  compute_period_start zones (period_type x) now (default [] (timezones !! usage_org x)).
Definition due (now : datetime) (x : GuestQuotaUsage) : bool :=
  bool_decide (timezones !! usage_org x ≠ None) && (period_start x <? sweep_start now x).
Definition swept (now : datetime) (x : GuestQuotaUsage) : GuestQuotaUsage := restarted (sweep_start now x) x.

Lemma quota_reset_eq now d : usages_keyed d →
  run_quota_reset now d = (Ok (rowcount (due now) (usages d)),
                           set_usages (update (due now) (swept now)) d).
Proof.
  intros Hk. unfold run_quota_reset. erewrite bind_step by reflexivity.
  unfold list_all_quota_usages_with_org_timezone.
  erewrite bind_step.
  2: { apply (loop_is_update usage_key usages set_usages (λ _, tt)) with
         (p := λ x, period_start x <? sweep_start now x) (g := swept now); try done.
       - intros f f' x Hf. unfold set_usages. by rewrite Hf.
       - by intros [].
       - intros x d' _ _ Hx Hd'. fold (sweep_start now x). destruct (period_start x <? _); [|done].
         erewrite bind_step by reflexivity. unfold mret, M_ret. f_equal. unfold set_usages. f_equal.
         apply update_ext. intros r Hr. unfold same_key, usage_key, same_usage.
         destruct (bool_decide (usage_guest r = usage_guest x) && bool_decide (period_type r = period_type x)) eqn:E.
         + bools. rewrite bool_decide_true by congruence. replace r with x; [done|].
           apply (NoDup_map_eq usage_key (usages d')); [done..|]. unfold usage_key. congruence.
         + rewrite bool_decide_false; [done|]. intros [= E1 E2]. rewrite E1, E2, !bool_decide_true in E by done.
           done. }
  unfold mret, M_ret. rewrite length_map. done.
Qed.

Lemma rowcount_update_none {R} (p : R → bool) f t : (∀ r, p r = true → p (f r) = false) →
  rowcount p (update p f t) = 0.
Proof.
  intros Hf. apply rowcount_none. intros r (r0 & _ & ->)%elem_of_update.
  destruct (p r0) eqn:E; [by apply Hf|done].
Qed.

(** The sweep that starts over the periods that have ended is invisible
    to everyone who reads a counter: whoever comes after it gets the counter
    they would have got without it, and a second sweep at the same time finds
    nothing to do. *)
Theorem reset_sweep_is_invisible g org p now d : usages_keyed d →
  zones (u "") = None → zones (u "UTC") = Some UTC →
  (∀ x, get_quota_usage g p d = Some x → usage_org x = org) →
  let d' := (run_quota_reset now d).2 in
  (get_or_reset_quota_usage g org p (get_organization_timezone org) now d').1
    = (get_or_reset_quota_usage g org p (get_organization_timezone org) now d).1
  ∧ (run_quota_reset now d').1 = Ok 0.
Proof.
  intros Hk Hempty Hutc Horg d'.
  assert (d' = set_usages (update (due now) (swept now)) d) as Hd' by (unfold d'; by rewrite quota_reset_eq).
  split.
  - assert (∀ d, (get_or_reset_quota_usage g org p (get_organization_timezone org) now d).1
      = Ok (rolled g org p (get_organization_timezone org) now d)) as Hrolled.
    { intros d0. unfold get_or_reset_quota_usage. erewrite bind_step by (unfold gets; reflexivity).
      by destruct (current_usage_writes g org p (get_organization_timezone org) now d0) as (d1 & -> & _). }
    rewrite !Hrolled. f_equal. unfold rolled, get_quota_usage. rewrite Hd'. cbn [usages set_usages].
    rewrite select_one_update by done. destruct (select_one _ (usages d)) as [x|] eqn:Hx; [|done].
    specialize (Horg x Hx). destruct (get_quota_usage_key g p d x Hx) as [_ Hp].
    cbn [fmap option_fmap option_map]. destruct (due now x) eqn:Hdue; [|done].
    unfold due in Hdue. apply andb_true_iff in Hdue as [Hjoin Hlt]. apply bool_decide_eq_true in Hjoin.
    assert (sweep_start now x = compute_period_start zones p now (get_organization_timezone org)) as Hs.
    { unfold sweep_start. rewrite Hp, Horg in *. unfold get_organization_timezone.
      destruct (timezones !! org) as [[|c name]|]; [|done|done]. unfold compute_period_start, zone_of. cbn.
      change (zones []) with (zones (u "")). by rewrite Hempty, Hutc. }
    unfold swept. rewrite Hs in *. by rewrite Hlt, Z.ltb_irrefl.
  - rewrite quota_reset_eq.
    + rewrite Hd'. cbn [fst usages set_usages]. f_equal. apply rowcount_update_none. intros r _. unfold due.
      cbn. change (sweep_start now (swept now r)) with (sweep_start now r). by rewrite Z.ltb_irrefl, andb_false_r.
    + rewrite Hd'. unfold usages_keyed. cbn. by rewrite map_update.
Qed.

(** ** The pace of connected time *)

(** No more minutes than have passed in the period so far. *)
Definition paced (x : GuestQuotaUsage) : Prop :=
  0 ≤ minutes_used x ∧ minutes (minutes_used x) ≤ default (period_start x) (last_accrued_at x) - period_start x.
Definition all_paced (d : database) : Prop := ∀ g p x, get_quota_usage g p d = Some x → paced x.

Lemma writes_paced g p y d d' : writes g p y d d' → paced y → all_paced d → all_paced d'.
Proof.
  intros [_ Hw] Hy Hd g' p' x Hx. rewrite Hw in Hx. case_decide; [by simplify_eq|by eapply Hd].
Qed.
Lemma restarted_paced start x : paced (restarted start x).
Proof. unfold paced, minutes. cbn. lia. Qed.
Lemma rolled_paced g org p tz now d : all_paced d → paced (rolled g org p tz now d).
Proof.
  intros Hd. unfold rolled. destruct (get_quota_usage g p d) as [x|] eqn:Hx.
  - destruct (_ <? _); [apply restarted_paced|by eapply Hd].
  - unfold paced, minutes. cbn. lia.
Qed.
Lemma accrued_paced now from x :
  paced x → default (period_start x) (last_accrued_at x) ≤ from → 0 < (now - from) / minutes 1 →
  paced (accrued ((now - from) / minutes 1) now x).
Proof.
  intros [H0 H1] Hf He. unfold paced, minutes in *. cbn in *.
  pose proof (Z.mul_div_le (now - from) (1 * 60 * 1000000) ltac:(lia)). lia.
Qed.
(** A write that keeps every row in pace. *)
Lemma update_usage_paced x f :
  (∀ r, usage_guest (f r) = usage_guest r ∧ period_type (f r) = period_type r) →
  (∀ r, paced r → paced (f r)) → preserves all_paced (update_quota_usage x f).
Proof.
  intros Hk Hf d Hd g p y.
  change ((update_quota_usage x f d).2) with (set_usages (update (same_usage x) f) d).
  unfold get_quota_usage. cbn [usages set_usages].
  rewrite select_one_update by (intros r; by destruct (Hk r) as [-> ->]).
  destruct (select_one _ (usages d)) as [r|] eqn:Hr; [|done]. cbn. intros [= <-].
  specialize (Hd g p r Hr). destruct (same_usage x r); [by apply Hf|done].
Qed.

Lemma get_or_reset_paced g org ps tz now : NoDup ps →
  preserves all_paced (get_or_reset_quota_usages g org ps tz now).
Proof.
  intros Hnd d Hd. unfold get_or_reset_quota_usages. erewrite bind_step by (unfold gets; reflexivity).
  destruct (current_usages_writes g org tz now ps d (λ p, get_quota_usage g p d) Hnd) as (d' & -> & _ & Hw); [done|].
  intros g' p' x Hx. cbn in Hx. rewrite Hw in Hx. case_decide; [|by eapply Hd].
  simplify_eq. by apply rolled_paced.
Qed.
Lemma charge_loop_paced delta limit l : ∀ v, preserves all_paced (charge_loop delta limit l v).
Proof.
  induction l as [|[p x] l IH]; intros v; [apply preserves_ret|]. cbn [charge_loop].
  apply preserves_bind; [by apply update_usage_paced|]. intros y. apply IH.
Qed.
Lemma track_paced g org location delta now tier :
  preserves all_paced (track_fup_data_usage g org location delta now tier).
Proof.
  unfold track_fup_data_usage. destruct policy_lookup; [|apply preserves_ret].
  destruct (_ <=? _); [apply preserves_ret|]. destruct (effective_rules _ _ _ _ _); [|apply preserves_ret].
  cbv zeta. apply preserves_bind; [apply get_or_reset_paced, period_types_NoDup|]. intros l. apply charge_loop_paced.
Qed.

(** Writes of sessions do not touch the counters. *)
Lemma update_session_paced x f : preserves all_paced (update_session x f).
Proof. by intros d Hd. Qed.
Lemma live_disconnect_paced tm al x : preserves all_paced (issue_live_disconnect tm al x).
Proof. intros d Hd. by rewrite live_disconnect_eq. Qed.
Lemma settle_paced now y v : preserves all_paced (settle now y v).
Proof.
  unfold settle. cbv zeta. destruct (_ && _).
  - destruct nas_only_usage_cut_dispatcher; [apply preserves_ret|]. apply preserves_bind.
    + intros d Hd. by rewrite via_cloud_reads.
    + intros []; [apply update_session_paced|apply preserves_ret].
  - destruct (_ || _); [|apply preserves_ret]. apply preserves_bind; [apply update_session_paced|]. intros z.
    apply preserves_bind; [apply live_disconnect_paced|intros; apply preserves_ret].
Qed.
Lemma record_usage_paced now k up down : preserves all_paced (record_usage now k up down).
Proof.
  unfold record_usage. apply preserves_bind; [apply preserves_gets|]. intros row.
  apply preserves_bind; [apply preserves_of_option|]. intros x. destruct (negb _); [apply preserves_ret|].
  apply preserves_bind; [apply update_session_paced|]. intros y. cbv zeta.
  apply preserves_bind; [apply track_paced|]. intros v. apply settle_paced.
Qed.
Lemma fup_gate_paced g org location tier now : preserves all_paced (enforce_fup_quota g org location tier now).
Proof.
  unfold enforce_fup_quota. apply preserves_bind; [apply preserves_gets|]. intros over.
  apply preserves_bind; [apply preserves_raise_if|]. intros _. destruct policy_lookup; [|apply preserves_ret].
  apply preserves_bind; [apply preserves_of_option|]. intros r. cbv zeta. destruct (_ && _); [apply preserves_ret|].
  apply preserves_bind.
  - apply get_or_reset_paced, NoDup_ListNoDup, List.NoDup_filter, NoDup_ListNoDup, period_types_NoDup.
  - intros l d' Hd. by rewrite check_usages_reads.
Qed.
Lemma collect_paced {A B} (body : A → op (option B)) l :
  (∀ x, preserves all_paced (body x)) → preserves all_paced (collect body l).
Proof.
  intros Hb. induction l as [|x l IH]; [apply preserves_ret|]. cbn [collect].
  apply preserves_bind; [apply Hb|]. intros r. apply preserves_bind; [exact IH|]. intros; apply preserves_ret.
Qed.
Lemma quota_reset_paced now : preserves all_paced (run_quota_reset now).
Proof.
  apply preserves_bind; [apply preserves_gets|]. intros rows. apply preserves_bind; [|intros; apply preserves_ret].
  apply collect_paced. intros x. cbv zeta. destruct (_ <? _); [|apply preserves_ret].
  apply preserves_bind; [|intros; apply preserves_ret]. apply update_usage_paced; [done|].
  intros; apply restarted_paced.
Qed.

Lemma accrue_loop_paced g org tz now since limits ps : ∀ v n,
  preserves all_paced (accrue_loop g org tz now since limits ps v n).
Proof.
  induction ps as [|p ps IH]; intros v n; [apply preserves_ret|]. cbn [accrue_loop].
  intros d Hd. unfold get_or_reset_quota_usage at 1. rewrite bind_assoc.
  erewrite bind_step by (unfold gets; reflexivity).
  destruct (current_usage_writes g org p tz now d) as (d1 & Hrun & Hw). erewrite bind_step by exact Hrun. cbv zeta.
  set (x := rolled g org p tz now d) in *.
  pose proof (rolled_paced g org p tz now d Hd) as Hx. fold x in Hx.
  pose proof (writes_paced _ _ _ _ _ Hw Hx Hd) as Hd1.
  assert (get_quota_usage g p d1 = Some x) as Hg by (destruct Hw as [_ Hw]; by rewrite Hw, decide_True).
  set (from := match since with Since t => Z.max (default (period_start x) (last_accrued_at x)) t
                           | _ => default (period_start x) (last_accrued_at x) end).
  destruct (Z.ltb_spec 0 (Z.max 0 ((now - from) / minutes 1))) as [He|He].
  - assert (Z.max 0 ((now - from) / minutes 1) = (now - from) / minutes 1) as -> by lia.
    destruct (update_usage_writes (accrued ((now - from) / minutes 1) now) g p x d1) as (d2 & Hrun2 & Hw2); [done..|].
    erewrite bind_step by exact Hrun2. apply IH. eapply writes_paced; [exact Hw2| |done].
    apply accrued_paced; [done| |lia]. unfold from. destruct since; lia.
  - erewrite bind_step by reflexivity. by apply IH.
Qed.

Lemma strictest_limits_reads pdb g org ls : ∀ limits, reads (strictest_limits pdb g org ls limits).
Proof.
  induction ls as [|l ls IH]; intros limits; [apply reads_ret|]. cbn [strictest_limits].
  apply reads_bind; [apply reads_of_option|]. intros r. apply reads_bind; [apply reads_gets|]. intros tier. apply IH.
Qed.
Lemma time_accrual_paced pdb now : preserves all_paced (run_fup_time_accrual pdb now).
Proof.
  apply preserves_bind; [apply preserves_gets|]. intros pairs.
  induction (locations_by_guest pairs) as [|e l IH]; [apply preserves_ret|]. cbn [accrue_guests].
  apply preserves_bind; [|intros a; apply preserves_bind; [exact IH|intros; apply preserves_ret]].
  destruct e as [[g org] ls]. cbn [accrue_guest]. apply preserves_bind.
  { intros d Hd. by rewrite strictest_limits_reads. }
  intros limits. destruct (negb _); [apply preserves_ret|]. apply preserves_bind; [apply preserves_gets|].
  intros since. assert (preserves all_paced
    (r ← accrue_loop g org (get_organization_timezone org) now since limits period_types None 0;
     match r.1 with
     | None => mret (r.2, 0)
     | Some p =>
         rows ← gets (list_active_sessions_for_guest g);
         l ← collect (λ x,
               y ← update_session x (with_status EXPIRED (Some now) (Some (time_reason p)));
               r ← issue_live_disconnect term false y;
               mret (Some r.1)) rows;
         mret (r.2, Z.of_nat (length l))
     end)) as H.
  { apply preserves_bind; [apply accrue_loop_paced|]. intros [[p|] n]; [|apply preserves_ret]. cbn [fst snd].
    apply preserves_bind; [apply preserves_gets|]. intros rows. apply preserves_bind; [|intros; apply preserves_ret].
    apply collect_paced. intros x. apply preserves_bind; [apply update_session_paced|]. intros y.
    apply preserves_bind; [apply live_disconnect_paced|intros; apply preserves_ret]. }
  destruct since; [exact H|apply preserves_ret|exact H].
Qed.
End quota.
(** ** Witnesses *)
Module examples.
#[local] Existing Instance ascii_only.
(** Only UTC is known; everyone may use 5 MB a day. *)
Definition zones (name : pystr) : option zone := if bool_decide (name = u "UTC") then Some UTC else None.
Definition pdb : Policy.database :=
  Policy.mk_database [Policy.mk_policy 1 None Policy.FUP true (Some 2%positive)]
    [Policy.mk_version 2 1 1 Policy.PUBLISHED (list_to_map [(u "daily_data_limit_mb", Policy.Int 5)]) (Some 0)]
    [Policy.mk_assignment 3 1 Scope.GLOBAL None Policy.NONE None 0 true 0]
    [Policy.mk_organization 10 None] [Policy.mk_location 20 10] [] [] [].
Definition x : GuestSession :=
  mk_session 1 50 None 60 20 10 OTP_SMS None ACTIVE 0 None 0 None 0 0 None (Some 240) (Some 30) None None.
Definition used_so_far : list GuestQuotaUsage := [mk_usage 50 10 DAILY 0 (3 * BYTES_PER_MB) 0 None].
Definition d : database := mk_database [] [] [x] used_so_far [].
Definition noon : datetime := minutes 720.
Definition nowhere (_ : uuid) : option bool := None.

Lemma period_starts_at_the_last_boundary_witness :
  let start := compute_period_start zones WEEKLY (10 * DAY + noon) (u "UTC") in
  start = 4 * DAY ∧ boundary WEEKLY (start + 0).
Proof.
  split; [by vm_compute|].
  by apply (period_starts_at_the_last_boundary zones WEEKLY (10 * DAY + noon) (u "UTC") 0).
Defined.

(** What the policy says here: computed where a limit is read. *)
Definition rules_here : Policy.rules := default ∅ (effective_rules Policy.FUP 10 20 50 pdb).
Lemma found : is_ok (match effective_rules Policy.FUP 10 20 50 pdb with Some _ => Ok tt | None => Raise tt end) = true →
  effective_rules Policy.FUP 10 20 50 pdb = Some rules_here.
Proof. unfold rules_here. by destruct (effective_rules _ _ _ _ _). Qed.
Lemma session_ends_exactly_at_a_cap_witness :
  ∃ y d', record_usage zones ∅ (Some pdb) nowhere None false noon 1 BYTES_PER_MB BYTES_PER_MB d = (Ok y, d')
    ∧ status y = EXPIRED.
Proof.
  destruct (session_ends_exactly_at_a_cap zones ∅ (Some pdb) nowhere None false noon 1 BYTES_PER_MB BYTES_PER_MB
    x d pdb rules_here)
    as (y & d' & H & _ & _ & Hu & _ & Hiff); [apply (bool_decide_unpack _); by vm_compute|done|done|done|done|by vm_compute
      |apply found; by vm_compute|].
  exists y, d'. split; [exact H|]. apply Hiff. right. exists DAILY, 5. eexists.
  split; [by vm_compute|]. split; [apply Hu|]. by vm_compute.
Defined.


Definition clocks : gmap uuid pystr := {[10%positive := u "UTC"]}.
Lemma reset_sweep_is_invisible_witness :
  let d' := (run_quota_reset zones clocks (DAY + noon) (set_usages (map (λ r, mk_usage 50 10 DAILY 0 7 0 None)) d)).2 in
  map bytes_used (usages d') = [0] ∧ (run_quota_reset zones clocks (DAY + noon) d').1 = Ok 0.
Proof.
  split; [by vm_compute|].
  apply (reset_sweep_is_invisible zones clocks 50 10 DAILY (DAY + noon)); [apply (bool_decide_unpack _); by vm_compute|done|done|].
  intros r Hr. vm_compute in Hr. by injection Hr as <-.
Defined.
End examples.

End GuestQuota.
