(* ===== verification/GuestAccess.v ===== *)
(** Who may use the guest network at all.

    The access rules of [src/backend/app/domains/guest_access]: how an
    identifier is spelled and matched ([validators.py]), which rules apply
    ([repository.py]), what they decide ([AccessDecisionResolver],
    [GuestAccessService.check_access]), and how rules are written, switched
    off and deleted; the list of authorized devices of
    [domains/mac_authorization]; and the gate of a sign-in in
    [domains/guest/service.py].  The work a block rule starts on routers is
    the parameter [block_enforcer]; the bindings and blocks pushed to devices
    and their own tables are left out. *)

From S2P Require Import Prelude Table PyStr Tenancy Guest GuestSession.

Module GuestAccess.

(** ** Enumerations and errors *)
Inductive AccessRuleType := WHITELIST | BLOCKLIST | TEMPORARY | VIP.
#[export] Instance rule_type_eq_dec : EqDecision AccessRuleType.
Proof. solve_decision. Defined.
Definition ACCESS_RULE_TYPE_PRECEDENCE : list AccessRuleType := [VIP; TEMPORARY; BLOCKLIST; WHITELIST].

Inductive BlockEnforcementStatus := NOT_APPLICABLE | UNENFORCED | PENDING | ENFORCED | FAILED.
#[export] Instance enforcement_eq_dec : EqDecision BlockEnforcementStatus.
Proof. solve_decision. Defined.

Inductive error :=
| AccessRuleNotFoundError | CrossLocationAccessRuleError | InvalidAccessRuleLocationError
| OrganizationWideRuleScopeError | AccessRuleLocationUnverifiableError
| CrossOrganizationAccessRuleError | TemporaryRuleRequiresExpiryError | InvalidRuleExpiryError
| InvalidGuestIdentifierError | CountryCodeRequiredError
(** Of [domains/mac_authorization]. *)
| InvalidMacAddressError | InvalidExpiryError | MacAuthorizationAlreadyExistsError
| OrganizationRequiredError | MacAuthorizationNotFoundError | CrossOrganizationMacAuthorizationError
(** Of the gate, and of a collaborator. *)
| GuestAccessDeniedError (reason : option pystr)
| WhitelistOnlyAccessDeniedError
| DuplicateRecordError.

(** ** Rows *)
Record GuestAccessRule := mk_rule {
  rule_id : uuid;
  rule_org : uuid;
  rule_location : option uuid;
  rule_identifier : pystr;
  rule_type : AccessRuleType;
  reason : option pystr;
  expires_at : option datetime;
  is_active : bool;
  is_deleted : bool;
  enforcement_status : BlockEnforcementStatus;
}.
#[export] Instance rule_has_id : HasId GuestAccessRule := rule_id.
(** The same columns, keyed by a MAC address. *)
Record DeviceAccessRule := mk_device_rule {
  device_rule_id : uuid;
  device_rule_org : uuid;
  device_rule_location : option uuid;
  device_rule_mac : pystr;
  device_rule_type : AccessRuleType;
  device_rule_reason : option pystr;
  device_rule_expires_at : option datetime;
  device_rule_active : bool;
  device_rule_deleted : bool;
}.
#[export] Instance device_rule_has_id : HasId DeviceAccessRule := device_rule_id.
Inductive MacAuthorizationType := PERMANENT | TEMPORARY_ENTRY.
#[export] Instance authorization_type_eq_dec : EqDecision MacAuthorizationType.
Proof. solve_decision. Defined.
Record MacAuthorizationEntry := mk_entry {
  entry_id : uuid;
  entry_org : uuid;
  entry_location : option uuid;
  entry_mac : pystr;
  authorization_type : MacAuthorizationType;
  entry_expires_at : option datetime;
  is_enabled : bool;
  entry_deleted : bool;
}.
#[export] Instance entry_has_id : HasId MacAuthorizationEntry := entry_id.

Record database := mk_database {
  guest_rules : list GuestAccessRule;
  device_rules : list DeviceAccessRule;
  entries : list MacAuthorizationEntry;
  (** The organization of a location. *)
  locations : gmap uuid uuid;
}.
Abbreviation op := (M database error).
Definition set_guest_rules f d := mk_database (f (guest_rules d)) (device_rules d) (entries d) (locations d).
Definition set_device_rules f d := mk_database (guest_rules d) (f (device_rules d)) (entries d) (locations d).
Definition set_entries f d := mk_database (guest_rules d) (device_rules d) (f (entries d)) (locations d).

Section access.
Context {PU : PyUnicode}.

(** ** [validators.py] *)
Definition at_sign : N := 64.
Definition plus : N := 43.
Definition normalize_identifier (s : pystr) : pystr :=
  let stripped := strip s in if contains at_sign stripped then lower stripped else stripped.

(** [_PHONE_NOISE_RE]: spaces, parentheses, hyphens and dots, and the five
    dashes of the Unicode punctuation block. *)
Definition phone_noise (c : N) : bool :=
  is_space c || bool_decide (c ∈ [40; 41; 45; 46; 8208; 8209; 8210; 8211; 8212])%N.
Definition canonicalize_rule_identifier (s : pystr) : pystr :=
  let stripped := normalize_identifier s in
  if contains at_sign stripped then stripped else List.filter (λ c, negb (phone_noise c)) stripped.

Definition nonzero_digit (c : N) : bool := ((49 <=? c) && (c <=? 57))%N.
(** [[1-9]] and then 7 to 14 of [digit]. *)
Definition number_shape (digit : N → bool) (s : pystr) : bool :=
  match s with
  | c :: s => nonzero_digit c && bool_decide (7 ≤ length s ≤ 14)%nat && forallb digit s
  | [] => false
  end.
Definition phone_shape (s : pystr) : bool :=
  match s with c :: s => (c =? plus)%N && number_shape is_decimal s | [] => false end.
Definition bare_phone_shape : pystr → bool := number_shape ascii_digit.
(** The part before the first [@], and the part after it. *)
Fixpoint split_at (s : pystr) : pystr * pystr :=
  match s with
  | [] => ([], [])
  | c :: s => if (c =? at_sign)%N then ([], s) else let '(l, r) := split_at s in (c :: l, r)
  end.
Definition email_shape (s : pystr) : bool :=
  let '(l, r) := split_at s in
  bool_decide (l ≠ []) && forallb (λ c, negb (is_space c)) l
  && forallb (λ c, negb (is_space c) && negb (c =? at_sign)%N) r
  && contains 46%N (removelast (tl r)).
Definition validate_identifier_shape (s : pystr) : op unit :=
  if contains at_sign s then raise_if (negb (email_shape s)) InvalidGuestIdentifierError
  else if phone_shape s then mret tt
  else if bare_phone_shape s then raise CountryCodeRequiredError
  else raise InvalidGuestIdentifierError.

Definition MAX_COUNTRY_CODE_DIGITS : nat := 3.
Definition MIN_NATIONAL_DIGITS : nat := 7.
Record IdentifierMatchTerms := mk_terms {
  exact : list pystr; prefix_patterns : list pystr; casefolded : bool }.

Definition add_spelling (spellings : list pystr) (s : pystr) : list pystr :=
  if bool_decide (s ∈ spellings) then spellings else spellings ++ [s].
(** Leading digits are dropped one by one, [n] times at most. *)
Fixpoint spellings_from (n : nat) (national : pystr) (acc : list pystr) : list pystr :=
  if bool_decide (length national < MIN_NATIONAL_DIGITS)%nat then acc
  else
    let acc := add_spelling (add_spelling acc national) (plus :: national) in
    match n with O => acc | S n => spellings_from n (tl national) acc end.
Definition wildcard : N := 95.
Definition patterns (digits : pystr) : list pystr :=
  concat (map (λ len, [plus :: replicate len wildcard ++ digits; replicate len wildcard ++ digits])
            (seq 1 MAX_COUNTRY_CODE_DIGITS)).

Definition digits_of (s : pystr) : pystr := match s with c :: s' => if (c =? plus)%N then s' else s | [] => [] end.
Definition all_digits (s : pystr) : bool := bool_decide (s ≠ []) && forallb ascii_digit s.
Definition identifier_match_terms (s : pystr) : IdentifierMatchTerms :=
  let candidate := canonicalize_rule_identifier s in
  if contains at_sign candidate then mk_terms [candidate] [] true
  else
    let digits := digits_of candidate in
    if negb (all_digits digits) || bool_decide (length digits < MIN_NATIONAL_DIGITS)%nat
    then mk_terms [candidate] [] false
    else mk_terms (spellings_from MAX_COUNTRY_CODE_DIGITS digits [candidate]) (patterns digits) false.

Fixpoint like_matches (pattern value : pystr) : bool :=
  match pattern, value with
  | [], [] => true
  | p :: pattern, v :: value => ((p =? wildcard)%N || (p =? v)%N) && like_matches pattern value
  | _, _ => false
  end.
Definition identifiers_match (stored incoming : pystr) : bool :=
  let terms := identifier_match_terms incoming in
  if casefolded terms then bool_decide (lower stored ∈ exact terms)
  else bool_decide (stored ∈ exact terms) || existsb (λ p, like_matches p stored) (prefix_patterns terms).

Definition validate_rule_expiry (t : AccessRuleType) (e : option datetime) (now : datetime) : op unit :=
  _ ← raise_if (bool_decide (t = TEMPORARY) && bool_decide (e = None)) TemporaryRuleRequiresExpiryError;
  raise_if (match e with Some e => e <=? now | None => false end) InvalidRuleExpiryError.

(** ** [repository.py] *)
Definition in_scope (location at_location : option uuid) : bool :=
  match location with None => true | Some _ => bool_decide (location = at_location) end.
Definition unexpired (e : option datetime) (now : datetime) : bool :=
  match e with None => true | Some e => now <? e end.
(** [identifier_clause]. *)
Definition identifier_clause (terms : IdentifierMatchTerms) (stored : pystr) : bool :=
  bool_decide ((if casefolded terms then lower stored else stored) ∈ exact terms)
  || existsb (λ p, like_matches p stored) (prefix_patterns terms).
Definition list_matching_guest_rules (org : uuid) (location : option uuid) (s : pystr) (now : datetime)
    (d : database) : list GuestAccessRule :=
  select (λ r, bool_decide (rule_org r = org) && identifier_clause (identifier_match_terms s) (rule_identifier r)
    && is_active r && negb (is_deleted r) && in_scope (rule_location r) location
    && unexpired (expires_at r) now) (guest_rules d).
Definition list_matching_device_rules (org : uuid) (location : option uuid) (m : pystr) (now : datetime)
    (d : database) : list DeviceAccessRule :=
  select (λ r, bool_decide (device_rule_org r = org) && bool_decide (device_rule_mac r = m)
    && device_rule_active r && negb (device_rule_deleted r) && in_scope (device_rule_location r) location
    && unexpired (device_rule_expires_at r) now) (device_rules d).

(** ** The decision *)
Record AccessDecision := mk_decision {
  allowed : bool;
  decided_by : option AccessRuleType;
  matched_rule_id : option uuid;
  decision_reason : option pystr;
}.
Definition is_whitelist_only_denial (a : AccessDecision) : bool :=
  negb (allowed a) && bool_decide (decided_by a = None).
Definition is_blocklist_denial (a : AccessDecision) : bool :=
  negb (allowed a) && bool_decide (decided_by a = Some BLOCKLIST).

Definition candidate := (AccessRuleType * uuid * option pystr)%type.
Fixpoint first_of (types : list AccessRuleType) (l : list candidate) : option candidate :=
  match types with
  | [] => None
  | t :: types =>
      match List.find (λ c : candidate, bool_decide (c.1.1 = t)) l with
      | Some c => Some c
      | None => first_of types l
      end
  end.
Definition resolve (l : list candidate) (whitelist_only_enabled : bool) : AccessDecision :=
  match first_of ACCESS_RULE_TYPE_PRECEDENCE l with
  | Some (t, k, r) => mk_decision (bool_decide (t ≠ BLOCKLIST)) (Some t) (Some k) r
  | None => mk_decision (negb whitelist_only_enabled) None None None
  end.
Definition candidates (guest : list GuestAccessRule) (device : list DeviceAccessRule) : list candidate :=
  map (λ r, (rule_type r, rule_id r, reason r)) guest
  ++ map (λ r, (device_rule_type r, device_rule_id r, device_rule_reason r)) device.

Definition other_tenant (org : uuid) (requesting : option uuid) : bool :=
  match requesting with Some o => bool_decide (org ≠ o) | None => false end.
Definition check_access (now : datetime) (org : uuid) (requesting location : option uuid)
    (identifier mac : option pystr) (whitelist_only_enabled : bool) : op AccessDecision :=
  _ ← raise_if (other_tenant org requesting) CrossOrganizationAccessRuleError;
  guest ← gets (λ d, match identifier with
            | Some s => list_matching_guest_rules org location (canonicalize_rule_identifier s) now d
            | None => []
            end);
  device ← gets (λ d, match mac with
            | Some m => list_matching_device_rules org location (GuestSession.normalize_mac_address m) now d
            | None => []
            end);
  mret (resolve (candidates guest device) whitelist_only_enabled).

Definition is_blocklisted (now : datetime) (org : uuid) (location : option uuid)
    (identifier mac : option pystr) (d : database) : bool :=
  let identifier := match identifier with
                    | Some s => if startswith (u "mac:") s then None else Some s
                    | None => None
                    end in
  match identifier, mac with
  | None, None => false
  | _, _ => match (check_access now org (Some org) location identifier mac false d).1 with
            | Ok a => is_blocklist_denial a
            | Raise _ => false
            end
  end.

(** ** Writing rules *)
Section service.
Variable scope : option (list uuid).
(** What ending the live sessions of a blocked guest reports: [None] if it
    raises. *)
Variable block_enforcer : option (GuestAccessRule → option Z).
Variable now : datetime.

Definition enforce_write_location (location : option uuid) (org : uuid) : op unit :=
  match location with
  | None => raise_if (bool_decide (scope ≠ None)) OrganizationWideRuleScopeError
  | Some l =>
      _ ← raise_if (negb (Tenancy.enforce_entity_location (Some l) scope)) CrossLocationAccessRuleError;
      owner ← gets (λ d, locations d !! l);
      raise_if (bool_decide (owner ≠ Some org)) InvalidAccessRuleLocationError
  end.
Definition initial_enforcement_status (t : AccessRuleType) : BlockEnforcementStatus :=
  if bool_decide (t ≠ BLOCKLIST) then NOT_APPLICABLE
  else match block_enforcer with None => UNENFORCED | Some _ => PENDING end.
Definition with_enforcement (e : BlockEnforcementStatus) (r : GuestAccessRule) : GuestAccessRule :=
  mk_rule (rule_id r) (rule_org r) (rule_location r) (rule_identifier r) (rule_type r) (reason r)
    (expires_at r) (is_active r) (is_deleted r) e.
Definition fresh {R} `{HasId R} (k : uuid) (rows : database → list R) : op unit :=
  taken ← gets (λ d, bool_decide (by_id k (rows d) ≠ None));
  raise_if taken DuplicateRecordError.
Definition update_guest_rule (r : GuestAccessRule) (f : GuestAccessRule → GuestAccessRule) : op GuestAccessRule :=
  _ ← modify (set_guest_rules (set_row f (rule_id r))); mret (f r).

(** The failure of an enforcement is recorded on the rule and swallowed. *)
Definition create_guest_rule (id org : uuid) (requesting location : option uuid) (identifier : pystr)
    (t : AccessRuleType) (why : option pystr) (e : option datetime) : op GuestAccessRule :=
  _ ← raise_if (other_tenant org requesting) CrossOrganizationAccessRuleError;
  _ ← enforce_write_location location org;
  let identifier := canonicalize_rule_identifier identifier in
  _ ← validate_identifier_shape identifier;
  _ ← validate_rule_expiry t e now;
  _ ← fresh id guest_rules;
  let r := mk_rule id org location identifier t why e true false (initial_enforcement_status t) in
  _ ← modify (set_guest_rules (insert_row r));
  match block_enforcer with
  | Some enforce => if bool_decide (t = BLOCKLIST)
                    then update_guest_rule r (with_enforcement
                           match enforce r with Some _ => ENFORCED | None => FAILED end)
                    else mret r
  | None => mret r
  end.

Definition live_rule (k : uuid) (d : database) : option GuestAccessRule :=
  match by_id k (guest_rules d) with Some r => if is_deleted r then None else Some r | None => None end.
Definition get_guest_rule (k : uuid) (requesting : option uuid) : op GuestAccessRule :=
  row ← gets (live_rule k);
  r ← of_option row AccessRuleNotFoundError;
  _ ← raise_if (other_tenant (rule_org r) requesting) CrossOrganizationAccessRuleError;
  _ ← raise_if (negb (Tenancy.enforce_entity_location (rule_location r) scope)) CrossLocationAccessRuleError;
  mret r.
(** The location of a rule already written. *)
Definition enforce_write_on_existing_rule (location : option uuid) : op unit :=
  raise_if (bool_decide (scope ≠ None) && bool_decide (location = None)) OrganizationWideRuleScopeError.
Definition deactivated (r : GuestAccessRule) : GuestAccessRule :=
  mk_rule (rule_id r) (rule_org r) (rule_location r) (rule_identifier r) (rule_type r) (reason r)
    (expires_at r) false (is_deleted r) (enforcement_status r).
Definition deleted (r : GuestAccessRule) : GuestAccessRule :=
  mk_rule (rule_id r) (rule_org r) (rule_location r) (rule_identifier r) (rule_type r) (reason r)
    (expires_at r) (is_active r) true (enforcement_status r).
Definition deactivate_guest_rule (k : uuid) (requesting : option uuid) : op GuestAccessRule :=
  r ← get_guest_rule k requesting;
  _ ← enforce_write_on_existing_rule (rule_location r);
  update_guest_rule r deactivated.
Definition delete_guest_rule (k : uuid) (requesting : option uuid) : op unit :=
  r ← get_guest_rule k requesting;
  _ ← enforce_write_on_existing_rule (rule_location r);
  _ ← update_guest_rule r deleted;
  mret tt.

Definition update_device_rule (r : DeviceAccessRule) (f : DeviceAccessRule → DeviceAccessRule) :
    op DeviceAccessRule :=
  _ ← modify (set_device_rules (set_row f (device_rule_id r))); mret (f r).
Definition create_device_rule (id org : uuid) (requesting location : option uuid) (mac : pystr)
    (t : AccessRuleType) (why : option pystr) (e : option datetime) : op DeviceAccessRule :=
  _ ← raise_if (other_tenant org requesting) CrossOrganizationAccessRuleError;
  _ ← enforce_write_location location org;
  _ ← validate_rule_expiry t e now;
  _ ← fresh id device_rules;
  let r := mk_device_rule id org location (GuestSession.GuestSession.normalize_mac_address mac) t why e true false in
  _ ← modify (set_device_rules (insert_row r));
  mret r.
Definition get_device_rule (k : uuid) (requesting : option uuid) : op DeviceAccessRule :=
  row ← gets (λ d, match by_id k (device_rules d) with
          | Some r => if device_rule_deleted r then None else Some r
          | None => None
          end);
  r ← of_option row AccessRuleNotFoundError;
  _ ← raise_if (other_tenant (device_rule_org r) requesting) CrossOrganizationAccessRuleError;
  _ ← raise_if (negb (Tenancy.enforce_entity_location (device_rule_location r) scope))
        CrossLocationAccessRuleError;
  mret r.
Definition deactivate_device_rule (k : uuid) (requesting : option uuid) : op DeviceAccessRule :=
  r ← get_device_rule k requesting;
  _ ← enforce_write_on_existing_rule (device_rule_location r);
  update_device_rule r (λ r, mk_device_rule (device_rule_id r) (device_rule_org r) (device_rule_location r)
    (device_rule_mac r) (device_rule_type r) (device_rule_reason r) (device_rule_expires_at r) false
    (device_rule_deleted r)).
Definition delete_device_rule (k : uuid) (requesting : option uuid) : op unit :=
  r ← get_device_rule k requesting;
  _ ← enforce_write_on_existing_rule (device_rule_location r);
  _ ← update_device_rule r (λ r, mk_device_rule (device_rule_id r) (device_rule_org r) (device_rule_location r)
    (device_rule_mac r) (device_rule_type r) (device_rule_reason r) (device_rule_expires_at r)
    (device_rule_active r) true);
  mret tt.
End service.

(** ** Authorized devices *)
Definition hex (c : N) : bool :=
  (((48 <=? c) && (c <=? 57)) || ((65 <=? c) && (c <=? 70)) || ((97 <=? c) && (c <=? 102)))%N.
(** [MAC_ADDRESS_PATTERN]: six octets of two digits, one separator. *)
Fixpoint octets (n : nat) (sep : N) (s : pystr) : option (list pystr) :=
  match n, s with
  | O, [] => Some []
  | S n, c :: a :: b :: s =>
      if (c =? sep)%N && hex a && hex b then l ← octets n sep s; Some ([a; b] :: l) else None
  | _, _ => None
  end.
Definition read_mac (s : pystr) : option (list pystr) :=
  match s with
  | a :: b :: sep :: rest =>
      if hex a && hex b && bool_decide (sep ∈ [58; 45]%N)
      then l ← octets 5 sep (sep :: rest); Some ([a; b] :: l) else None
  | _ => None
  end.
Fixpoint join (sep : N) (l : list pystr) : pystr :=
  match l with [] => [] | [x] => x | x :: l => x ++ sep :: join sep l end.
Definition normalize_whitelist_mac_address (m : pystr) : option pystr :=
  join 58%N <$> (map upper <$> read_mac (strip m)).

Definition is_expired (e : option datetime) (now : datetime) : bool :=
  match e with Some e => e <=? now | None => false end.
Definition is_currently_valid (x : MacAuthorizationEntry) (now : datetime) : bool :=
  is_enabled x && negb (is_expired (entry_expires_at x) now).
Definition validate_expiry (t : MacAuthorizationType) (e : option datetime) (now : datetime) : op unit :=
  match t, e with
  | TEMPORARY_ENTRY, None => raise InvalidExpiryError
  | TEMPORARY_ENTRY, Some e => raise_if (e <=? now) InvalidExpiryError
  | PERMANENT, Some _ => raise InvalidExpiryError
  | PERMANENT, None => mret tt
  end.
Definition get_entry_by_org_and_mac (org : uuid) (m : pystr) (d : database) : option MacAuthorizationEntry :=
  select_one (λ x, bool_decide (entry_org x = org) && bool_decide (entry_mac x = m) && negb (entry_deleted x))
    (entries d).
Definition create_entry (now : datetime) (id : uuid) (requesting : option uuid) (m : pystr)
    (t : MacAuthorizationType) (location : option uuid) (e : option datetime) (enabled : bool) :
    op MacAuthorizationEntry :=
  org ← of_option requesting OrganizationRequiredError;
  m ← of_option (normalize_whitelist_mac_address m) InvalidMacAddressError;
  _ ← validate_expiry t e now;
  existing ← gets (get_entry_by_org_and_mac org m);
  _ ← raise_if (bool_decide (existing ≠ None)) MacAuthorizationAlreadyExistsError;
  _ ← fresh id entries;
  let x := mk_entry id org location m t e enabled false in
  _ ← modify (set_entries (insert_row x));
  mret x.
Definition is_mac_authorized (now : datetime) (m : pystr) (org : uuid) (location : option uuid)
    (d : database) : bool :=
  match normalize_whitelist_mac_address m with
  | None => false
  | Some m =>
      match get_entry_by_org_and_mac org m d with
      | None => false
      | Some x =>
          match location, entry_location x with
          | Some l, Some l' => bool_decide (l' = l) && is_currently_valid x now
          | _, _ => is_currently_valid x now
          end
      end
  end.

(** ** The gate of a sign-in *)

(** [whitelist_only_refusal_stands], with the list of authorized devices
    wired in; only the verdict. *)
Definition whitelist_only_refusal_stands (now : datetime) (org : uuid) (location : option uuid)
    (device_mac : option pystr) (already_authorized : bool) (d : database) : bool :=
  match device_mac with
  | None => true
  | Some m =>
      if already_authorized then false
      else match normalize_whitelist_mac_address m with
           | None => true
           | Some m => negb (is_mac_authorized now m org location d)
           end
  end.
(** The failed attempt a refusal records belongs to the guest tables. *)
Definition enforce_access_control (now : datetime) (org : uuid) (location : option uuid)
    (identifier : pystr) (device_mac : option pystr) (whitelist_only already_authorized : bool) : op unit :=
  a ← check_access now org (Some org) location (Some identifier) device_mac whitelist_only;
  if allowed a then mret tt
  else if negb (is_whitelist_only_denial a) then raise (GuestAccessDeniedError (decision_reason a))
  else
    stands ← gets (whitelist_only_refusal_stands now org location device_mac already_authorized);
    raise_if stands WhitelistOnlyAccessDeniedError.

(** ** Which spellings are the same number *)
Definition phone (s : pystr) : Prop :=
  all_digits (digits_of s) = true ∧ (MIN_NATIONAL_DIGITS ≤ length (digits_of s))%nat.

Lemma digits_of_cases s : s = digits_of s ∨ s = plus :: digits_of s.
Proof. destruct s as [|c s]; [by left|]. cbn. destruct (N.eqb_spec c plus) as [->|]; auto. Qed.
Lemma all_digits_elem s c : all_digits s = true → c ∈ s → ascii_digit c = true.
Proof.
  unfold all_digits. rewrite andb_true_iff, forallb_forall. intros [_ H] Hc. by apply H, list_elem_of_In.
Qed.
Lemma digits_of_digits s : (∀ c, c ∈ s → ascii_digit c = true) → digits_of s = s.
Proof.
  destruct s as [|c s]; [done|]. intros H. cbn. destruct (N.eqb_spec c plus) as [->|]; [|done].
  by specialize (H plus ltac:(left)).
Qed.
Definition phone_char (c : N) : bool := ascii_digit c || (c =? plus)%N.
Lemma phone_chars s c : phone s → c ∈ s → phone_char c = true.
Proof.
  intros [Hd _] Hc. unfold phone_char. destruct (digits_of_cases s) as [E|E]; rewrite E in Hc.
  - by rewrite (all_digits_elem _ c Hd Hc).
  - apply elem_of_cons in Hc as [->|Hc]; [by rewrite orb_true_r|]. by rewrite (all_digits_elem _ c Hd Hc).
Qed.
Lemma phone_char_plain c : phone_char c = true → is_space c = false ∧ phone_noise c = false ∧ c ≠ at_sign.
Proof.
  intros Hc. assert (c ∈ plus :: map (λ n, N.of_nat n) (seq 48 10)) as Hin.
  { unfold phone_char, ascii_digit in Hc. apply orb_true_iff in Hc as [Hc|Hc%N.eqb_eq]; [|subst; left].
    right. apply list_elem_of_In, in_map_iff. exists (N.to_nat c). split; [lia|].
    apply in_seq. apply andb_true_iff in Hc as [H1%N.leb_le H2%N.leb_le]. lia. }
  clear Hc. cbn in Hin. repeat (apply elem_of_cons in Hin as [->|Hin]; [by vm_compute|]).
  by apply not_elem_of_nil in Hin.
Qed.
Lemma lstrip_plain s : (∀ c, c ∈ s → is_space c = false) → lstrip s = s.
Proof. intros H. apply lstrip_fix. intros c s' ->. apply H. left. Qed.
Lemma strip_plain s : (∀ c, c ∈ s → is_space c = false) → strip s = s.
Proof.
  intros H. unfold strip, rstrip. rewrite (lstrip_plain s) by done. rewrite lstrip_plain; [apply rev_involutive|].
  intros c Hc. apply H. apply list_elem_of_In, in_rev. by apply list_elem_of_In.
Qed.
Lemma canonicalize_phone s : phone s → canonicalize_rule_identifier s = s ∧ contains at_sign s = false.
Proof.
  intros Hs. assert (∀ c, c ∈ s → is_space c = false ∧ phone_noise c = false ∧ c ≠ at_sign) as Hc.
  { intros c Hc. by apply phone_char_plain, (phone_chars s). }
  assert (contains at_sign s = false) as Hat.
  { apply not_true_iff_false. rewrite contains_elem. intros Hin. by apply Hc in Hin as (_ & _ & ?). }
  split; [|done]. unfold canonicalize_rule_identifier, normalize_identifier.
  rewrite strip_plain by (intros c Hin; by apply Hc). rewrite !Hat.
  clear Hat Hs. induction s as [|c s IH]; [done|]. cbn.
  destruct (Hc c ltac:(left)) as (_ & -> & _). cbn. f_equal. apply IH. intros d Hd. apply Hc. by right.
Qed.

Lemma elem_of_add_spelling s x l : s ∈ add_spelling l x ↔ s ∈ l ∨ s = x.
Proof.
  unfold add_spelling. case_bool_decide; [|by rewrite elem_of_app, list_elem_of_singleton].
  split; [by left|]. by intros [?| ->].
Qed.
Lemma drop_tl (s : pystr) k : drop (S k) s = drop k (tl s).
Proof. destruct s; [by destruct k|done]. Qed.
Lemma elem_of_spellings n : ∀ national acc s, s ∈ spellings_from n national acc ↔
  s ∈ acc ∨ ∃ k, (k ≤ n)%nat ∧ (MIN_NATIONAL_DIGITS ≤ length (drop k national))%nat
    ∧ (s = drop k national ∨ s = plus :: drop k national).
Proof.
  induction n as [|n IH]; intros national acc s; cbn [spellings_from]; case_bool_decide as Hlen.
  - split; [by left|]. intros [?|(k & Hk & Hl & _)]; [done|]. rewrite length_drop in Hl. lia.
  - rewrite !elem_of_add_spelling. split.
    + intros [[Hs| ->]| ->]; [by left|..]; right; exists 0%nat; rewrite drop_0; (split_and!; [lia|lia|auto]).
    + intros [?|(k & Hk & _ & [-> | ->])]; auto; replace k with 0%nat by lia; rewrite drop_0; auto.
  - split; [by left|]. intros [?|(k & Hk & Hl & _)]; [done|]. rewrite length_drop in Hl. lia.
  - rewrite IH, !elem_of_add_spelling. split.
    + intros [[[Hs| ->]| ->]|(k & Hk & Hl & Hs)]; [by left|right; exists 0%nat; rewrite drop_0; (split_and!; [lia|lia|auto])..|].
      right. exists (S k). split; [lia|]. by rewrite drop_tl.
    + intros [?|(k & Hk & Hl & Hs)]; [auto|]. destruct k as [|k].
      * rewrite drop_0 in Hs. destruct Hs as [-> | ->]; auto.
      * right. exists k. split; [lia|]. by rewrite <-drop_tl.
Qed.

Lemma like_matches_digits p : ∀ v, (∀ c, c ∈ p → c ≠ wildcard) → like_matches p v = true ↔ v = p.
Proof.
  induction p as [|c p IH]; intros [|d v] Hp; cbn; try done.
  destruct (N.eqb_spec c wildcard) as [->|Hne]; [by destruct (Hp wildcard ltac:(left))|]. cbn.
  rewrite andb_true_iff, N.eqb_eq, IH by (intros x Hx; apply Hp; by right). split; [by intros [-> ->]|by intros [= -> ->]].
Qed.
Lemma like_matches_wild n p : ∀ v, (∀ c, c ∈ p → c ≠ wildcard) →
  like_matches (replicate n wildcard ++ p) v = true ↔ ∃ pre, length pre = n ∧ v = pre ++ p.
Proof.
  induction n as [|n IH]; intros v Hp.
  - cbn. rewrite like_matches_digits by done. split; [intros ->; by exists []|].
    by intros ([|] & ? & ->).
  - cbn [replicate]. destruct v as [|d v]; cbn.
    + split; [done|]. by intros ([|] & ? & ?).
    + rewrite IH by done. split.
      * intros (pre & <- & ->). by exists (d :: pre).
      * intros ([|x pre] & Hl & Hv); [done|]. injection Hv as -> ->. exists pre. split; [by injection Hl|done].
Qed.
Lemma matches_patterns digits s : (∀ c, c ∈ digits → c ≠ wildcard) →
  existsb (λ p, like_matches p s) (patterns digits) = true ↔
  ∃ pre, (1 ≤ length pre ≤ 3)%nat ∧ (s = plus :: pre ++ digits ∨ s = pre ++ digits).
Proof.
  intros Hd.
  assert (∀ n, like_matches (plus :: replicate n wildcard ++ digits) s = true ↔
    ∃ pre, length pre = n ∧ s = plus :: pre ++ digits) as Hplus.
  { intros n. destruct s as [|c s]; [split; [done|by intros (? & _ & ?)]|].
    change (like_matches (plus :: replicate n wildcard ++ digits) (c :: s))
      with ((plus =? c)%N && like_matches (replicate n wildcard ++ digits) s).
    rewrite andb_true_iff, N.eqb_eq, like_matches_wild by done. split.
    - intros [<- (pre & <- & ->)]. by exists pre.
    - intros (pre & <- & [= -> ->]). eauto. }
  unfold patterns, MAX_COUNTRY_CODE_DIGITS. cbn [seq map concat app]. cbn [existsb]. rewrite !orb_true_iff, !Hplus, !like_matches_wild by done.
  split.
  - intros H. decompose [or ex and] H; subst; try done;
      match goal with Hl : length ?p = _ |- _ => exists p; rewrite Hl; split; [lia|auto] end.
  - intros (pre & Hl & Hs). assert (length pre = 1 ∨ length pre = 2 ∨ length pre = 3)%nat as Hn by lia.
    destruct Hs as [Hs|Hs], Hn as [Hn|[Hn|Hn]]; repeat first [by exists pre|left; by exists pre|right].
Qed.

Lemma phone_terms i : phone i → identifier_match_terms i =
  mk_terms (spellings_from MAX_COUNTRY_CODE_DIGITS (digits_of i) [i]) (patterns (digits_of i)) false.
Proof.
  intros Hi. destruct (canonicalize_phone i Hi) as [Hc Hat]. destruct Hi as [Hd Hl].
  unfold identifier_match_terms. rewrite Hc, Hat, Hd. cbn [negb orb].
  rewrite bool_decide_false by lia. done.
Qed.
(** The SQL clause and its mirror in Python say the same. *)
Lemma clause_is_mirror stored i :
  identifier_clause (identifier_match_terms i) stored = identifiers_match stored i.
Proof.
  unfold identifier_clause, identifiers_match, identifier_match_terms. cbv zeta.
  destruct (contains at_sign _); cbn [casefolded exact prefix_patterns existsb]; [by rewrite orb_false_r|].
  by destruct (negb _ || _).
Qed.

(** Two phone numbers, each written with a plus or without, are the same
    guest to an access rule exactly when their digits are equal once at most
    three leading digits of one of them are dropped; so a rule matches
    whichever of the two spellings it holds. *)
Theorem numbers_match_up_to_country_code stored i : phone stored → phone i →
  identifiers_match stored i = true ↔
  ∃ k, (k ≤ MAX_COUNTRY_CODE_DIGITS)%nat ∧
    (digits_of stored = drop k (digits_of i) ∨ digits_of i = drop k (digits_of stored)).
Proof.
  intros Hs Hi. unfold identifiers_match. rewrite (phone_terms i Hi). cbn [casefolded exact prefix_patterns].
  destruct Hs as [Hsd Hsl], Hi as [Hid Hil].
  assert (∀ k, digits_of (drop k (digits_of i)) = drop k (digits_of i)) as Hdrop.
  { intros k. apply digits_of_digits. intros c Hc. apply (all_digits_elem (digits_of i)); [done|].
    rewrite <-(take_drop k (digits_of i)). apply elem_of_app. by right. }
  assert (∀ c, c ∈ digits_of i → c ≠ wildcard) as Hw.
  { intros c Hc ->. by pose proof (all_digits_elem _ _ Hid Hc). }
  rewrite orb_true_iff, bool_decide_eq_true, elem_of_spellings, matches_patterns by done.
  assert (∀ x, digits_of (plus :: x) = x) as Hplus by done. split.
  - intros [[->%list_elem_of_singleton|(k & Hk & _ & Hsp)]|(pre & Hl & Hsp)].
    + exists 0%nat. rewrite drop_0. split; [unfold MAX_COUNTRY_CODE_DIGITS; lia|by left].
    + exists k. split; [done|]. left. destruct Hsp as [-> | ->]; [by rewrite Hdrop|by rewrite Hplus].
    + unfold MAX_COUNTRY_CODE_DIGITS. destruct Hsp as [-> | ->].
      * exists (length pre). split; [lia|]. right. rewrite Hplus. by rewrite drop_app_length.
      * destruct (digits_of_cases (pre ++ digits_of i)) as [E|E]; rewrite <-?E.
        -- exists (length pre). split; [lia|]. right. by rewrite drop_app_length.
        -- exists (length pre - 1)%nat. split; [lia|]. right. destruct pre as [|c pre]; [cbn in Hl; lia|].
           cbn in E. injection E as -> E. rewrite <-app_comm_cons, Hplus. cbn [length].
           replace (S (length pre) - 1)%nat with (length pre) by lia. by rewrite drop_app_length.
  - intros (k & Hk & [E|E]).
    + left. right. exists k. rewrite <-E. split_and!; [done|done|apply digits_of_cases].
    + destruct k as [|k].
      * left. right. exists 0%nat. rewrite drop_0 in E. rewrite drop_0, E. split_and!; [lia|done|apply digits_of_cases].
      * right. exists (take (S k) (digits_of stored)).
        assert (length (take (S k) (digits_of stored)) = S k) as Hl.
        { rewrite length_take. rewrite E, length_drop in Hil. unfold MIN_NATIONAL_DIGITS in *. lia. }
        rewrite Hl. split; [unfold MAX_COUNTRY_CODE_DIGITS in Hk; lia|].
        rewrite E, take_drop. destruct (digits_of_cases stored); auto.
Qed.

(** ** Which decision is taken *)

(** A rule of type [t] applies. *)
Definition applies (now : datetime) (org : uuid) (location : option uuid) (identifier mac : option pystr)
    (d : database) (t : AccessRuleType) : Prop :=
  (∃ s r, identifier = Some s ∧ r ∈ guest_rules d ∧ rule_type r = t ∧ rule_org r = org
     ∧ identifiers_match (rule_identifier r) (canonicalize_rule_identifier s) = true
     ∧ is_active r = true ∧ is_deleted r = false
     ∧ in_scope (rule_location r) location = true ∧ unexpired (expires_at r) now = true)
  ∨ (∃ m r, mac = Some m ∧ r ∈ device_rules d ∧ device_rule_type r = t ∧ device_rule_org r = org
     ∧ device_rule_mac r = GuestSession.normalize_mac_address m ∧ device_rule_active r = true ∧ device_rule_deleted r = false
     ∧ in_scope (device_rule_location r) location = true ∧ unexpired (device_rule_expires_at r) now = true).

Definition decided (t : AccessRuleType) (l : list candidate) : Prop := ∃ c, c ∈ l ∧ c.1.1 = t.
Lemma find_decided t l : match List.find (λ c : candidate, bool_decide (c.1.1 = t)) l with
  | Some c => c ∈ l ∧ c.1.1 = t | None => ¬ decided t l end.
Proof.
  destruct (List.find _ l) as [c|] eqn:E.
  - apply find_some in E as [Hin Ht]. apply bool_decide_eq_true in Ht. split; [by apply list_elem_of_In|done].
  - intros (c & Hin & Ht). pose proof (find_none _ _ E c (proj1 (list_elem_of_In _ _) Hin)) as Hn.
    cbn in Hn. by rewrite bool_decide_true in Hn.
Qed.
Lemma resolve_allowed l whitelist_only :
  allowed (resolve l whitelist_only) = true ↔
  decided VIP l ∨ decided TEMPORARY l ∨ ¬ decided BLOCKLIST l ∧ (decided WHITELIST l ∨ whitelist_only = false).
Proof.
  unfold resolve, ACCESS_RULE_TYPE_PRECEDENCE. cbn [first_of].
  pose proof (find_decided VIP l) as H1. destruct (List.find _ l) as [[[t k] r]|].
  { destruct H1 as [Hin Ht]. cbn in Ht. subst t. cbn. split; [intros _; left; by exists (VIP, k, r)|intros _; by apply bool_decide_eq_true]. }
  pose proof (find_decided TEMPORARY l) as H2. destruct (List.find _ l) as [[[t k] r]|].
  { destruct H2 as [Hin Ht]. cbn in Ht. subst t. cbn. split; [intros _; right; left; by exists (TEMPORARY, k, r)|intros _; by apply bool_decide_eq_true]. }
  pose proof (find_decided BLOCKLIST l) as H3. destruct (List.find _ l) as [[[t k] r]|].
  { destruct H3 as [Hin Ht]. cbn in Ht. subst t. cbn. split; [by intros H%bool_decide_eq_true|].
    intros [?|[?|[Hn _]]]; [done..|]. destruct Hn. by exists (BLOCKLIST, k, r). }
  pose proof (find_decided WHITELIST l) as H4. destruct (List.find _ l) as [[[t k] r]|].
  { destruct H4 as [Hin Ht]. cbn in Ht. subst t. cbn. split; [|intros _; by apply bool_decide_eq_true]. intros _. right; right.
    split; [done|]. left. by exists (WHITELIST, k, r). }
  cbn. rewrite negb_true_iff. split; [auto|]. intros [?|[?|[_ [?|?]]]]; done.
Qed.

Lemma decided_applies now org location identifier mac d t :
  decided t (candidates
    match identifier with
    | Some s => list_matching_guest_rules org location (canonicalize_rule_identifier s) now d
    | None => []
    end
    match mac with
    | Some m => list_matching_device_rules org location (GuestSession.normalize_mac_address m) now d
    | None => []
    end) ↔ applies now org location identifier mac d t.
Proof.
  unfold decided, applies, candidates. setoid_rewrite elem_of_app. split.
  - intros (c & [Hc|Hc] & Ht); apply list_elem_of_In, in_map_iff in Hc as (r & <- & Hr%list_elem_of_In); cbn in Ht.
    + left. destruct identifier as [s|]; [|by apply not_elem_of_nil in Hr].
      apply elem_of_select in Hr as [Hin Hr]. rewrite clause_is_mirror in Hr. bools.
      exists s, r. by split_and!.
    + right. destruct mac as [m|]; [|by apply not_elem_of_nil in Hr].
      apply elem_of_select in Hr as [Hin Hr]. bools. exists m, r. by split_and!.
  - intros [(s & r & -> & Hin & Ht & Ho & Hm & Ha & Hd & Hsc & He)|(m & r & -> & Hin & Ht & Ho & Hm & Ha & Hd & Hsc & He)].
    + exists (rule_type r, rule_id r, reason r). split; [|done]. left.
      apply list_elem_of_In, in_map_iff. exists r. split; [done|]. apply list_elem_of_In, elem_of_select.
      split; [done|]. by rewrite clause_is_mirror, Ho, Hm, Ha, Hd, Hsc, He, bool_decide_true.
    + exists (device_rule_type r, device_rule_id r, device_rule_reason r). split; [|done]. right.
      apply list_elem_of_In, in_map_iff. exists r. split; [done|]. apply list_elem_of_In, elem_of_select.
      split; [done|]. by rewrite Ho, Hm, Ha, Hd, Hsc, He, !bool_decide_true.
Qed.

(** C16: an identity and a device are let through exactly when a VIP or a
    temporary rule applies to one of them, or no blocking rule does and
    either a whitelist rule does or the venue is not for listed guests only;
    a rule applies when it is of the organization, active, not deleted, not
    expired, for the place or for all, and names the identity or device. *)
Theorem access_allowed_iff now org location identifier mac whitelist_only d a d' :
  check_access now org (Some org) location identifier mac whitelist_only d = (Ok a, d') →
  d' = d ∧
  (allowed a = true ↔
    applies now org location identifier mac d VIP ∨ applies now org location identifier mac d TEMPORARY
    ∨ ¬ applies now org location identifier mac d BLOCKLIST
      ∧ (applies now org location identifier mac d WHITELIST ∨ whitelist_only = false)).
Proof.
  unfold check_access. rewrite raise_if_bind. unfold other_tenant. case_bool_decide; [done|].
  do 2 (erewrite bind_step by (unfold gets; reflexivity)). intros [= <- <-]. split; [done|].
  by rewrite resolve_allowed, !decided_applies.
Qed.

(** A block rule wins over a whitelist rule, whatever their places. *)
Lemma blocklist_beats_whitelist l w : decided BLOCKLIST l → decided WHITELIST l →
  ¬ decided VIP l → ¬ decided TEMPORARY l → allowed (resolve l w) = false.
Proof. intros Hb _ Hv Ht. apply not_true_iff_false. rewrite resolve_allowed. tauto. Qed.

(** ** A rule reaches the guest it was written for *)
Lemma canonicalize_number s : contains at_sign (normalize_identifier s) = false →
  let c := canonicalize_rule_identifier s in
  canonicalize_rule_identifier c = c ∧ contains at_sign c = false ∧ identifiers_match c c = true.
Proof.
  intros Hat c. assert (canonicalize_rule_identifier s = List.filter (λ c, negb (phone_noise c)) (normalize_identifier s))
    as Hc by (unfold canonicalize_rule_identifier; by rewrite Hat).
  assert (∀ x, x ∈ c → phone_noise x = false ∧ x ∈ normalize_identifier s) as Hin.
  { intros x. unfold c. rewrite Hc, list_elem_of_In, filter_In, negb_true_iff, list_elem_of_In. tauto. }
  assert (contains at_sign c = false) as Hatc.
  { apply not_true_iff_false. rewrite contains_elem. intros Hx%Hin. destruct Hx as [_ Hx%contains_elem]. congruence. }
  assert (canonicalize_rule_identifier c = c) as Hcc.
  { unfold canonicalize_rule_identifier, normalize_identifier. rewrite strip_plain.
    2: { intros x Hx%Hin. destruct Hx as [Hx _]. unfold phone_noise in Hx. by apply orb_false_iff in Hx as [? _]. }
    rewrite !Hatc. clear Hatc Hc. induction c as [|x c IH]; [done|]. cbn.
    destruct (Hin x ltac:(left)) as [-> _]. cbn. f_equal. apply IH. intros y Hy. apply Hin. by right. }
  split_and!; [done..|]. unfold identifiers_match, identifier_match_terms. rewrite Hcc, Hatc.
  destruct (negb _ || _); cbn [casefolded exact].
  - rewrite bool_decide_true; [done|left].
  - rewrite bool_decide_true; [done|]. apply elem_of_spellings. left. left.
Qed.
Lemma write_location_reads scope location org : reads (enforce_write_location scope location org).
Proof.
  destruct location; [|apply reads_raise_if]. apply reads_bind; [apply reads_raise_if|]. intros _.
  apply reads_bind; [apply reads_gets|]. intros; apply reads_raise_if.
Qed.
Lemma identifier_shape_reads s : reads (validate_identifier_shape s).
Proof.
  unfold validate_identifier_shape. destruct (contains _ _); [apply reads_raise_if|].
  destruct (phone_shape s); [apply reads_ret|]. destruct (bare_phone_shape s); apply reads_raise.
Qed.
Lemma rule_expiry_reads t e now : reads (validate_rule_expiry t e now).
Proof. apply reads_bind; [apply reads_raise_if|intros; apply reads_raise_if]. Qed.
Lemma fresh_reads {R} `{HasId R} k (rows : database → list R) : reads (fresh k rows).
Proof. apply reads_bind; [apply reads_gets|intros; apply reads_raise_if]. Qed.

(** One step of a run that only reads. *)
Lemma reads_then {A B} (m : op A) (f : A → op B) d b d' : reads m → (m ≫= f) d = (Ok b, d') →
  ∃ a, m d = (Ok a, d) ∧ f a d = (Ok b, d').
Proof.
  intros Hm (a & d1 & Ha & H)%bind_Ok. specialize (Hm d). rewrite Ha in Hm. cbn in Hm. subst. by exists a.
Qed.

(** A rule that is accepted for a phone number, however that number was
    punctuated, applies to whoever signs in with it at the rule's place, at
    once and until the rule expires. *)
Theorem rule_reaches_its_number enforcer scope now id org requesting location s t why e d r d' :
  contains at_sign (normalize_identifier s) = false →
  create_guest_rule scope enforcer now id org requesting location s t why e d = (Ok r, d') →
  ∀ now', unexpired e now' = true → applies now' org location (Some s) None d' t.
Proof.
  intros Hat H now' He. destruct (canonicalize_number s Hat) as (_ & _ & Hmatch).
  unfold create_guest_rule in H. rewrite raise_if_bind in H. destruct (other_tenant org requesting); [done|].
  apply reads_then in H as (_ & _ & H); [|apply write_location_reads].
  apply reads_then in H as (_ & _ & H); [|apply identifier_shape_reads].
  apply reads_then in H as (_ & _ & H); [|apply rule_expiry_reads].
  apply reads_then in H as (_ & _ & H); [|apply fresh_reads].
  erewrite bind_step in H by reflexivity. cbv zeta in H.
  set (row := mk_rule _ _ _ _ _ _ _ _ _ _) in H.
  assert (∃ st, with_enforcement st row ∈ guest_rules d') as [st Hin].
  { destruct enforcer as [enf|]; [case_bool_decide|].
    - unfold update_guest_rule in H. erewrite bind_step in H by reflexivity. injection H as _ <-.
      eexists. cbn. unfold set_row, update, insert_row. rewrite map_app. apply elem_of_app. right.
      cbn [map]. unfold has_id. rewrite bool_decide_true by done. apply list_elem_of_singleton. reflexivity.
    - injection H as <- <-. exists (enforcement_status row). apply elem_of_app. right. by apply list_elem_of_singleton.
    - injection H as <- <-. exists (enforcement_status row). apply elem_of_app. right. by apply list_elem_of_singleton. }
  left. exists s, (with_enforcement st row). split_and!; try done.
  cbn. destruct location; [|done]. by apply bool_decide_eq_true.
Qed.
End access.

(** ** Examples *)
Module examples.
#[local] Existing Instance ascii_only.
Definition org : uuid := 10%positive.
(** A number blocked everywhere, written without its country code. *)
Definition d : database :=
  mk_database [mk_rule 1 org None (u "9876543210") BLOCKLIST None None true false UNENFORCED] [] [] ∅.

Lemma numbers_match_up_to_country_code_witness :
  identifiers_match (u "9876543210") (u "+919876543210") = true
  ∧ ∃ k, (k ≤ MAX_COUNTRY_CODE_DIGITS)%nat ∧
      (u "9876543210" = drop k (u "919876543210") ∨ u "919876543210" = drop k (u "9876543210")).
Proof.
  split; [by vm_compute|].
  apply (numbers_match_up_to_country_code (u "9876543210") (u "+919876543210"));
    [split; [by vm_compute|apply Nat.leb_le; by vm_compute]..|by vm_compute].
Defined.
Lemma access_allowed_iff_witness :
  ∃ a, check_access 5 org (Some org) None (Some (u "+91 98765 43210")) None false d = (Ok a, d)
    ∧ allowed a = false
    ∧ (allowed a = true ↔
        applies 5 org None (Some (u "+91 98765 43210")) None d VIP
        ∨ applies 5 org None (Some (u "+91 98765 43210")) None d TEMPORARY
        ∨ ¬ applies 5 org None (Some (u "+91 98765 43210")) None d BLOCKLIST
          ∧ (applies 5 org None (Some (u "+91 98765 43210")) None d WHITELIST ∨ false = false)).
Proof.
  eexists. split; [by vm_compute|]. split; [by vm_compute|].
  eapply (access_allowed_iff 5 org None (Some (u "+91 98765 43210")) None false d). by vm_compute.
Defined.
Lemma rule_reaches_its_number_witness :
  ∃ r d', create_guest_rule None None 100 2 org (Some org) None (u "+1 (415) 555-0100") VIP None (Some 900) d
      = (Ok r, d')
    ∧ applies 500 org None (Some (u "+1 (415) 555-0100")) None d' VIP.
Proof.
  eexists _, _. split; [by vm_compute|].
  eapply (rule_reaches_its_number None None 100 2 org (Some org) None (u "+1 (415) 555-0100") VIP None (Some 900) d);
    by vm_compute.
Defined.
End examples.

End GuestAccess.
