(* ===== verification/GuestLogin.v ===== *)
(** Signing in to the guest network.

    The sign-in operations of [src/backend/app/domains/guest/service.py] -
    with a one-time code, a password, an authorized device, and by
    reconnecting - from the gates (is the venue open, is the guest blocked,
    do the access rules, the concurrency and device limits and the quotas let
    them in) to the session that is reused or opened; with the opening hours
    of [domains/captive_portal/validators.py] and the login hours of an access
    tier ([domains/policy/access_tier.py]).

    The tables of other domains are read only: the access rules and the
    authorized devices, the policies, the portal configuration and the
    routers.  What verifying a code or a password answers, and the parser of
    clock times ([time.fromisoformat]), are parameters. *)

From S2P Require Import Prelude Table PyStr Tenancy Calendar Policy Guest GuestSession GuestQuota GuestAccess.

Module GuestLogin.
Import Calendar Guest GuestSession GuestQuota.

(** ** The portal of a venue *)
Record PortalConfig := mk_config {
  config_org : uuid;
  enabled_methods : list GuestAuthMethod;
  whitelist_only_enabled : bool;
  business_hours_enabled : bool;
  business_hours_timezone : pystr;
  business_hours_schedule : list (pystr * Policy.value);
}.
Inductive RouterStatus := PENDING_ROUTER | PROVISIONING | ONLINE | OFFLINE | DEGRADED | SUSPENDED | DECOMMISSIONED.
#[export] Instance router_status_eq_dec : EqDecision RouterStatus.
Proof. solve_decision. Defined.

Section login.
Context {PU : PyUnicode}.
Variable zones : pystr → option zone.
Variable timezones : gmap uuid pystr.
Variable policy_lookup : option Policy.database.
Variable nas_only : uuid → option bool.
Variable team_quota : option (uuid → database → bool).
(** [time.fromisoformat]: microseconds since midnight. *)
Variable parse_time : pystr → option Z.

(** ** Opening hours *)
Definition day_name (n : Z) : string :=
  match n with
  | 0 => "monday" | 1 => "tuesday" | 2 => "wednesday" | 3 => "thursday" | 4 => "friday" | 5 => "saturday"
  | _ => "sunday"
  end%string.
Definition is_open_now (c : PortalConfig) (now : datetime) : bool :=
  if negb (business_hours_enabled c) then true
  else
    let moment := (fromutc (zone_of zones (business_hours_timezone c)) now).1 in
    match Policy.field (day_name (weekday moment)) (business_hours_schedule c) with
    | Policy.Obj entry =>
        match Policy.field "open" entry, Policy.field "start" entry, Policy.field "end" entry with
        | Policy.Bool true, Policy.Str start, Policy.Str stop =>
            match parse_time start, parse_time stop with
            | Some s, Some e => (s <=? time_of moment) && (time_of moment <=? e)
            | _, _ => false
            end
        | _, _, _ => false
        end
    | _ => false
    end.

(** The login hours of an access tier: not limited, open for so many seconds,
    or closed. *)
Inductive standing := Unlimited | Open_for (seconds : Z) | Closed.
Definition parse_hhmm (v : Policy.value) : option Z :=
  match v with Policy.Str s => parse_time (strip s) | _ => None end.
Definition day_index (s : pystr) : option Z :=
  let key := take 3 (lower (strip s)) in
  match List.find (λ n, bool_decide (take 3 (u (day_name n)) = key)) [0; 1; 2; 3; 4; 5; 6] with
  | Some n => Some n
  | None => None
  end.
Definition day_indexes (v : Policy.value) : option (list Z) :=
  if negb (Policy.truthy v) then Some [0; 1; 2; 3; 4; 5; 6]
  else match v with
       | Policy.Arr l =>
           match omap (λ x, match x with Policy.Str s => day_index s | _ => None end) l with
           | [] => None
           | days => Some days
           end
       | _ => None
       end.
Definition to_minute (t : Z) : Z := t / minutes 1 * minutes 1.
Definition window (start stop : Z) (midnight : datetime) : datetime * datetime :=
  let opens := midnight + to_minute start in
  let closes := midnight + to_minute stop + minutes 1 - 1 in
  (opens, if start =? stop then opens + DAY - 1 else if stop <? start then closes + DAY else closes).
Fixpoint first_window (start stop : Z) (days : list Z) (moment : datetime) (back : list Z) : standing :=
  match back with
  | [] => Closed
  | n :: back =>
      let midnight := at_date (date_of (moment - n * DAY)) 0 in
      let '(opens, closes) := window start stop midnight in
      if bool_decide (weekday midnight ∈ days) && (opens <=? moment) && (moment <=? closes)
      then Open_for (Z.max (- ((moment - closes) / seconds 1)) 1)
      else first_window start stop days moment back
  end.
Definition login_hours_standing (hours : list (pystr * Policy.value)) (tz_name : pystr) (now : datetime) :
    standing :=
  match parse_hhmm (Policy.field "start_time" hours), parse_hhmm (Policy.field "end_time" hours),
        day_indexes (Policy.field "days" hours) with
  | Some start, Some stop, Some days =>
      first_window start stop days (fromutc (zone_of zones tz_name) now).1 [0; 1]
  | _, _, _ => Unlimited
  end.

(** ** Looking up *)
Variable access : GuestAccess.database.
(** [resolve_portal_config(organization, location)], which may raise. *)
Variable resolve_portal_config : option uuid → option uuid → option PortalConfig.
(** [get_router], which may raise, and the status of the router. *)
Variable router_status : uuid → option RouterStatus.
Variable verify_otp : pystr → pystr → bool.
(** The guest has a password and it is this one. *)
Variable verify_guest_password : uuid → pystr → bool.
Variable scope : option (list uuid).

(** The row spelled as asked comes first, then the oldest. *)
Definition get_guest_by_identifier (org : uuid) (s : pystr) (d : database) : option Guest :=
  let rows := select (λ g, bool_decide (guest_org g = org)
    && GuestAccess.identifier_clause (GuestAccess.identifier_match_terms s) (identifier g)) (guests d) in
  match least first_seen_at (select (λ g, bool_decide (identifier g = s)) rows) with
  | Some g => Some g
  | None => least first_seen_at rows
  end.

(** [rules] without the entries that are [None]; empty if the lookup fails. *)
Definition session_policy_rules (org location guest : uuid) : Policy.rules :=
  match policy_lookup with
  | None => ∅
  | Some pdb => default ∅ (effective_rules Policy.SESSION org location guest pdb)
  end.
Definition rule_or (k : string) (fallback : Z) (r : Policy.rules) : Z := default fallback (Policy.int_rule k r).
Definition resolve_device_limit (org location guest : uuid) : Z :=
  match policy_lookup with
  | None => DEFAULT_MAX_DEVICES_PER_GUEST
  | Some pdb =>
      match effective_rules Policy.DEVICE_POLICY org location guest pdb with
      | None => DEFAULT_MAX_DEVICES_PER_GUEST
      | Some r => rule_or "max_devices_per_guest" DEFAULT_MAX_DEVICES_PER_GUEST r
      end
  end.
(** A limit of a tier that is zero does not count. *)
Definition set_nonzero (o : option Z) : option Z := n ← o; if n =? 0 then None else Some n.
Definition resolve_session_timeout_minutes (org location guest : uuid) (tier : option Policy.AccessTier) : Z :=
  match t ← tier; set_nonzero (Policy.tier_session_timeout t) with
  | Some n => n
  | None => rule_or "session_timeout_minutes" DEFAULT_SESSION_TIMEOUT_MINUTES
              (session_policy_rules org location guest)
  end.
Definition resolve_idle_timeout_minutes (org location guest : uuid) (tier : option Policy.AccessTier) : Z :=
  match t ← tier; set_nonzero (Policy.tier_idle_timeout t) with
  | Some n => n
  | None => rule_or "idle_timeout_minutes" DEFAULT_IDLE_TIMEOUT_MINUTES
              (session_policy_rules org location guest)
  end.
Definition with_tier_session_data_limit (mb : option Z) (tier : option Policy.AccessTier) : option Z :=
  match tier with None => mb | Some t => sql_least mb (Policy.session_data_limit_mb t) end.

(** ** The gates *)
Definition record_login (g : option uuid) (s : pystr) (m : GuestAuthMethod) (why : option error)
    (now : datetime) : op unit :=
  _ ← create_login_history (mk_login g s m why now); mret tt.

Definition require_venue_open (c : PortalConfig) (now : datetime) : op unit :=
  raise_if (negb (is_open_now c now)) VenueClosedError.
Definition require_method_enabled (org location : option uuid) (m : GuestAuthMethod) (now : datetime) :
    op PortalConfig :=
  c ← of_option (resolve_portal_config org location) CollaboratorError;
  _ ← raise_if (bool_decide (m ∉ enabled_methods c)) GuestAuthMethodNotEnabledError;
  _ ← require_venue_open c now;
  mret c.
Definition reject_if_blocked (g : option Guest) : op unit :=
  match g with
  | Some g => raise_if (is_blocked g) (GuestBlockedError (blocked_reason g))
  | None => mret tt
  end.
(** A refusal by the whitelist is recorded before it is raised. *)
Definition enforce_access_control (now : datetime) (c : PortalConfig) (location : option uuid) (s : pystr)
    (mac : option pystr) (m : GuestAuthMethod) (guest : option Guest) (already_authorized : bool) : op unit :=
  match (GuestAccess.enforce_access_control now (config_org c) location s mac (whitelist_only_enabled c)
           already_authorized access).1 with
  | Ok _ => mret tt
  | Raise (GuestAccess.GuestAccessDeniedError why) => raise (GuestAccessDeniedError why)
  | Raise GuestAccess.WhitelistOnlyAccessDeniedError =>
      _ ← record_login (guest_id <$> guest) s m (Some WhitelistOnlyAccessDeniedError) now;
      raise WhitelistOnlyAccessDeniedError
  | Raise _ => if whitelist_only_enabled c then mret tt else raise CollaboratorError
  end.

Definition given (mac : option pystr) : option pystr :=
  match mac with Some (c :: s) => Some (c :: s) | _ => None end.
(** The owner of the device is blocked: only asked on routers that cannot
    enforce the block themselves. *)
Definition device_of_blocked_guest (now : datetime) (router org : uuid) (location : option uuid) (s : pystr)
    (mac : option pystr) (d : database) : bool :=
  match given mac with
  | None => false
  | Some m =>
      match nas_only router with
      | Some true =>
          match dev ← get_device_by_mac (normalize_mac_address m) d; get_guest_by_id (device_guest dev) d with
          | None => false
          | Some owner =>
              bool_decide (guest_org owner = org) && bool_decide (identifier owner ≠ s)
              && (is_blocked owner
                  || GuestAccess.is_blocklisted now org location (Some (identifier owner)) None access)
          end
      | _ => false
      end
  end.

Definition enforce_access_tier_login_hours (tier : option Policy.AccessTier) (org : uuid) (now : datetime) :
    op unit :=
  raise_if (match h ← (t ← tier; Policy.tier_login_hours t);
                  Some (login_hours_standing h (get_organization_timezone timezones org) now) with
            | Some Closed => true
            | _ => false
            end) AccessTierOutsideLoginHoursError.
Definition enforce_concurrent_session_limit (g org location : uuid) : op unit :=
  active_count ← gets (count_active_sessions_for_guest g);
  let limit := rule_or "max_concurrent_sessions_per_guest" DEFAULT_MAX_CONCURRENT_SESSIONS_PER_GUEST
                 (session_policy_rules org location g) in
  raise_if (limit <=? active_count) (ConcurrentSessionLimitExceededError limit).
(** The device limit in force, and the device the MAC address belongs to. *)
Definition device_limit (g org location : uuid) (tier : option Policy.AccessTier) : Z :=
  match t ← tier; Policy.tier_devices t with Some n => n | None => resolve_device_limit org location g end.
Definition enforce_device_limit (g : uuid) (mac : option pystr) (org location : uuid)
    (tier : option Policy.AccessTier) : op (option GuestDevice) :=
  match given mac with
  | None => mret None
  | Some m =>
      existing ← gets (get_device_by_mac (normalize_mac_address m));
      let exclude := match existing with
                     | Some dev => if bool_decide (device_guest dev = g) then Some (device_id dev) else None
                     | None => None
                     end in
      connected ← gets (count_active_devices_for_guest g exclude);
      _ ← raise_if (device_limit g org location tier <=? connected)
            (GuestDeviceLimitExceededError (device_limit g org location tier));
      mret existing
  end.
Definition get_eligible_router (r : uuid) : op uuid :=
  s ← of_option (router_status r) CollaboratorError;
  _ ← raise_if (bool_decide (s ∈ [DECOMMISSIONED; SUSPENDED])) RouterNotEligibleForGuestSessionError;
  mret r.

(** The gates a guest the venue already knows passes; the tier and the device
    they go on with. *)
Definition known_guest_gates (now : datetime) (g : Guest) (router org location : uuid) (mac : option pystr) :
    op (option Policy.AccessTier * option GuestDevice) :=
  let tier := aruba_access_tier policy_lookup nas_only router org location (guest_id g) in
  _ ← enforce_access_tier_login_hours tier org now;
  _ ← enforce_concurrent_session_limit (guest_id g) org location;
  dev ← enforce_device_limit (guest_id g) mac org location tier;
  _ ← enforce_fup_quota zones timezones policy_lookup team_quota (guest_id g) org location tier now;
  mret (tier, dev).

(** ** The session *)
Definition get_or_create_guest (now : datetime) (id : uuid) (existing : option Guest) (org location : uuid)
    (s : pystr) : op (Guest * bool) :=
  match existing with
  | Some g => mret (g, false)
  | None => g ← create_guest (mk_guest id org (Some location) s now now 0 false None); mret (g, true)
  end.
(** [known]: what was found when the limit was checked, if it was. *)
Definition get_or_create_device (now : datetime) (id g : uuid) (mac : pystr)
    (known : option (option GuestDevice)) : op GuestDevice :=
  let m := normalize_mac_address mac in
  dev ← (match known with Some dev => mret dev | None => gets (get_device_by_mac m) end);
  match dev with
  | None => create_device (mk_device id g m now)
  | Some dev => update_device dev (λ x, mk_device (device_id x) g (mac_address x) now)
  end.
Definition maybe_get_or_create_device (now : datetime) (id g : uuid) (mac : option pystr)
    (known : option (option GuestDevice)) : op (option GuestDevice) :=
  match given mac with
  | None => mret None
  | Some m => dev ← get_or_create_device now id g m known; mret (Some dev)
  end.

Definition new_session (now : datetime) (id : uuid) (g : Guest) (dev : option GuestDevice) (router location : uuid)
    (m : GuestAuthMethod) (voucher : option uuid) (ip : option pystr) (data timeout idle : option Z) : GuestSession :=
  mk_session id (guest_id g) (device_id <$> dev) router location (guest_org g) m voucher ACTIVE now None now ip
    0 0 data timeout idle None None.

(** The first session of this device here; none if it has used up its time. *)
Definition find_reusable_active_session (now : datetime) (g router : uuid) (dev : option uuid) (d : database) :
    option GuestSession :=
  match dev with
  | None => None
  | Some k =>
      x ← select_one (λ x, bool_decide (session_router x = router) && bool_decide (session_device x = Some k))
            (list_active_sessions_for_guest g d);
      if has_session_reached_time_limit now x then None else Some x
  end.
Definition reused (now : datetime) (router_is_nas_only : bool) (m : GuestAuthMethod) (voucher : option uuid)
    (ip : option pystr) (data timeout idle : option Z) (x : GuestSession) : GuestSession :=
  with_login m
    (match voucher with
     | Some v => Some v
     | None => if router_is_nas_only then None else voucher_id x
     end)
    (match ip with Some a => Some a | None => ip_address x end)
    (with_activity now (with_limits data timeout idle x)).
Definition reuse_or_create_session (now : datetime) (id : uuid) (g : Guest) (dev : option GuestDevice)
    (router location : uuid) (m : GuestAuthMethod) (voucher : option uuid) (ip : option pystr)
    (data timeout idle : option Z) : op (GuestSession * bool) :=
  found ← gets (find_reusable_active_session now (guest_id g) router (device_id <$> dev));
  match found with
  | Some x =>
      y ← update_session x (reused now (default false (nas_only router)) m voucher ip data timeout idle);
      mret (y, false)
  | None =>
      y ← create_session (new_session now id g dev router location m voucher ip data timeout idle);
      mret (y, true)
  end.
Definition visited (now : datetime) (g : Guest) : Guest :=
  mk_guest (guest_id g) (guest_org g) (guest_location g) (identifier g) (first_seen_at g) now
    (total_visit_count g + 1) (is_blocked g) (blocked_reason g).
Definition bump_guest_visit (now : datetime) (g : Guest) : op Guest := update_guest g (visited now).

(** The new keys a sign-in may use. *)
Record keys := mk_keys { new_guest : uuid; new_device : uuid; new_session_id : uuid }.

(** What a voucher gives: its key, its data limit and its minutes. *)
Record grant := mk_grant { granted_voucher : uuid; granted_data : option Z; granted_minutes : Z }.
(** From the guest to the session: what the sign-ins share. *)
Definition open_session (now : datetime) (ks : keys) (existing : option Guest) (org location router : uuid)
    (s : pystr) (mac : option pystr) (known : option (option GuestDevice)) (tier : option Policy.AccessTier)
    (m : GuestAuthMethod) (ip : option pystr) (v : option grant) : op (Guest * GuestSession) :=
  r ← get_or_create_guest now (new_guest ks) existing org location s;
  let g := r.1 in
  dev ← maybe_get_or_create_device now (new_device ks) (guest_id g) mac known;
  let timeout := match v with
                 | Some v => granted_minutes v
                 | None => resolve_session_timeout_minutes org location (guest_id g) tier
                 end in
  let idle := resolve_idle_timeout_minutes org location (guest_id g) tier in
  x ← reuse_or_create_session now (new_session_id ks) g dev router location m (granted_voucher <$> v) ip
        (with_tier_session_data_limit (v ← v; granted_data v) tier) (Some timeout) (Some idle);
  _ ← (if (x.2 : bool) then _ ← bump_guest_visit now g; mret tt else mret tt);
  _ ← record_login (Some (guest_id g)) s m None now;
  mret (g, x.1).

(** The gates of a guest who may be new, and the router. *)
Definition gates (now : datetime) (existing : option Guest) (org location router : uuid) (mac : option pystr) :
    op (option Policy.AccessTier * option (option GuestDevice)) :=
  a ← (match existing with
       | Some g => r ← known_guest_gates now g router org location mac; mret (r.1, Some r.2)
       | None => mret (None, None)
       end);
  _ ← get_eligible_router router;
  mret a.

Definition login_via_otp (now : datetime) (ks : keys) (raw code : pystr) (m : GuestAuthMethod)
    (org : option uuid) (location router : uuid) (mac ip : option pystr) : op (Guest * GuestSession) :=
  _ ← raise_if (bool_decide (m ∉ [OTP_SMS; OTP_EMAIL; OTP_WHATSAPP])) GuestAuthMethodNotEnabledError;
  let s := GuestAccess.normalize_identifier raw in
  c ← require_method_enabled org (Some location) m now;
  existing ← gets (get_guest_by_identifier (config_org c) s);
  _ ← reject_if_blocked existing;
  _ ← enforce_access_control now c (Some location) s mac m existing false;
  refused ← gets (device_of_blocked_guest now router (config_org c) (Some location) s mac);
  _ ← raise_if refused (GuestAccessDeniedError None);
  a ← gates now existing (config_org c) location router mac;
  if verify_otp s code then
    open_session now ks existing (config_org c) location router s mac a.2 a.1 m ip None
  else
    _ ← record_login (guest_id <$> existing) s m (Some OtpVerificationFailed) now;
    raise OtpVerificationFailed.

Definition login_via_password (now : datetime) (ks : keys) (raw password : pystr)
    (org : option uuid) (location router : uuid) (mac ip : option pystr) : op (Guest * GuestSession) :=
  let s := GuestAccess.normalize_identifier raw in
  c ← require_method_enabled org (Some location) USERNAME_PASSWORD now;
  existing ← gets (get_guest_by_identifier (config_org c) s);
  _ ← reject_if_blocked existing;
  _ ← enforce_access_control now c (Some location) s mac USERNAME_PASSWORD existing false;
  refused ← gets (device_of_blocked_guest now router (config_org c) (Some location) s mac);
  _ ← raise_if refused (GuestAccessDeniedError None);
  a ← gates now existing (config_org c) location router mac;
  match existing with
  | Some g =>
      if verify_guest_password (guest_id g) password then
        open_session now ks existing (config_org c) location router s mac a.2 a.1 USERNAME_PASSWORD ip None
      else
        _ ← record_login (Some (guest_id g)) s USERNAME_PASSWORD (Some GuestPasswordLoginFailedError) now;
        raise GuestPasswordLoginFailedError
  | None =>
      _ ← record_login None s USERNAME_PASSWORD (Some GuestPasswordLoginFailedError) now;
      raise GuestPasswordLoginFailedError
  end.

Definition login_via_mac_whitelist (now : datetime) (ks : keys) (raw : pystr)
    (org : option uuid) (location router : uuid) (ip : option pystr) : op (Guest * GuestSession) :=
  m ← of_option (GuestAccess.normalize_whitelist_mac_address raw) MacAddressNotAuthorizedError;
  c ← of_option (resolve_portal_config org (Some location)) CollaboratorError;
  _ ← require_venue_open c now;
  _ ← raise_if (negb (GuestAccess.is_mac_authorized now m (config_org c) (Some location) access))
        MacAddressNotAuthorizedError;
  let s := u "mac:" ++ m in
  existing ← gets (get_guest_by_identifier (config_org c) s);
  _ ← reject_if_blocked existing;
  _ ← enforce_access_control now c (Some location) s (Some m) MAC_WHITELIST existing true;
  a ← gates now existing (config_org c) location router (Some m);
  open_session now ks existing (config_org c) location router s (Some m) a.2 a.1 MAC_WHITELIST ip None.

(** ** Reconnecting *)
Definition require_guest (k : uuid) (requesting : option uuid) : op Guest :=
  row ← gets (get_guest_by_id k);
  g ← of_option row GuestNotFoundError;
  _ ← raise_if (other_tenant (guest_org g) requesting) CrossOrganizationGuestAccessError;
  _ ← raise_if (negb (Tenancy.enforce_entity_location (guest_location g) scope)) CrossLocationGuestAccessError;
  mret g.
(** When a terminated guest may come back. *)
Definition cooldown_until (x : option GuestSession) : option datetime :=
  e ← (x ← x; ended_at x); Some (e + minutes TERMINATION_RECONNECT_COOLDOWN_MINUTES).
Definition beyond_grace (now : datetime) (x : GuestSession) : bool :=
  bool_decide (status x ≠ TERMINATED)
  && (minutes RECONNECT_GRACE_MINUTES <? now - default (last_activity_at x) (ended_at x)).
(** From the latest session to the new one. *)
Definition reconnect_from (now : datetime) (ks : keys) (g : Guest) (router location : uuid)
    (mac ip : option pystr) : op GuestSession :=
  latest ← gets (get_latest_session_for_guest (guest_id g));
  prior ← of_option latest NoReconnectableSessionError;
  if bool_decide (status prior = ACTIVE) then mret prior
  else
    _ ← raise_if (beyond_grace now prior) NoReconnectableSessionError;
    _ ← (match resolve_portal_config (Some (guest_org g)) (Some location) with
         | None => mret tt
         | Some c =>
             _ ← require_venue_open c now;
             enforce_access_control now c (Some location) (identifier g) mac (auth_method prior) (Some g) false
         end);
    r ← get_eligible_router router;
    dev ← (match given mac with
           | Some m => x ← get_or_create_device now (new_device ks) (guest_id g) m None; mret (Some x)
           | None => gets (λ d, k ← session_device prior; get_device_by_id k d)
           end);
    x ← create_session (new_session now (new_session_id ks) g dev r location (auth_method prior)
          (voucher_id prior) ip (data_limit_mb prior) (session_timeout_minutes prior) (idle_timeout_minutes prior));
    _ ← bump_guest_visit now g;
    mret x.
Definition reconnect (now : datetime) (ks : keys) (guest router location : uuid) (requesting : option uuid)
    (mac ip : option pystr) : op GuestSession :=
  g ← require_guest guest requesting;
  _ ← reject_if_blocked (Some g);
  latest_terminated ← gets (get_latest_terminated_session_for_guest (guest_id g));
  _ ← (match cooldown_until latest_terminated with
       | Some t => raise_if (now <? t) (SessionTerminationCooldownError (Z.max ((t - now) / minutes 1 + 1) 1))
       | None => mret tt
       end);
  reconnect_from now ks g router location mac ip.

(** ** Blocking *)
Definition blocked (b : bool) (why : option pystr) (g : Guest) : Guest :=
  mk_guest (guest_id g) (guest_org g) (guest_location g) (identifier g) (first_seen_at g) (last_seen_at g)
    (total_visit_count g) b why.
Definition block_guest (k : uuid) (requesting : option uuid) (why : option pystr) : op Guest :=
  g ← require_guest k requesting; update_guest g (blocked true why).
Definition unblock_guest (k : uuid) (requesting : option uuid) : op Guest :=
  g ← require_guest k requesting; update_guest g (blocked false None).

(** ** What a sign-in does to the sessions *)
Definition quiet {A} (m : op A) : Prop := respects (λ d d', sessions d' = sessions d) m.
#[local] Instance quiet_preorder : PreOrder (λ d d' : database, sessions d' = sessions d).
Proof. split; [done|]. intros d1 d2 d3 H12 H23. by rewrite H23. Qed.
Lemma quiet_bind {A B} (m : op A) (f : A → op B) : quiet m → (∀ a, quiet (f a)) → quiet (m ≫= f).
Proof. intros Hm Hf. by apply (respects_bind (λ d d' : database, sessions d' = sessions d) m f). Qed.
Lemma quiet_reads {A} (m : op A) : reads m → quiet m.
Proof. intros H d. by rewrite H. Qed.
Lemma quiet_sound {A} (m : op A) now d a d' : quiet m → m d = (Ok a, d') → sound now d d'.
Proof.
  intros Hq H [Hk Hw]. specialize (Hq d). rewrite H in Hq. cbn in Hq. split.
  - split; rewrite Hq; [done|]. intros x Hx. by apply Hw.
  - intros k x Hx. exists x. split; [|done]. unfold get_session_by_id in *. by rewrite Hq.
Qed.

Lemma quiet_usages (m : op GuestQuotaUsage) : (∀ d, besides (m d).2 = besides d) → quiet m.
Proof. intros H d. specialize (H d). unfold besides in H. by injection H. Qed.
Lemma fup_gate_quiet g org location tier now :
  quiet (enforce_fup_quota zones timezones policy_lookup team_quota g org location tier now).
Proof.
  unfold enforce_fup_quota. apply quiet_bind; [apply quiet_reads, reads_gets|]. intros over.
  apply quiet_bind; [apply quiet_reads, reads_raise_if|]. intros _.
  destruct policy_lookup as [pdb|]; [|apply quiet_reads, reads_ret].
  apply quiet_bind; [apply quiet_reads, reads_of_option|]. intros r. cbv zeta.
  destruct (_ && _); [apply quiet_reads, reads_ret|]. apply quiet_bind.
  - unfold get_or_reset_quota_usages. apply quiet_bind; [apply quiet_reads, reads_gets|]. intros ex.
    induction (List.filter _ _) as [|p ps IH]; [apply quiet_reads, reads_ret|]. cbn [current_usages].
    apply quiet_bind; [|intros x; apply quiet_bind; [exact IH|intros; apply quiet_reads, reads_ret]].
    unfold current_usage. destruct (ex p) as [x|]; [|by intros d]. destruct (_ <? _); by intros d.
  - intros l. apply quiet_reads, check_usages_reads.
Qed.
Lemma known_guest_gates_quiet now g router org location mac :
  quiet (known_guest_gates now g router org location mac).
Proof.
  unfold known_guest_gates. cbv zeta. apply quiet_bind; [apply quiet_reads, reads_raise_if|]. intros _.
  apply quiet_bind.
  { apply quiet_reads, reads_bind; [apply reads_gets|intros; apply reads_raise_if]. }
  intros _. apply quiet_bind.
  { unfold enforce_device_limit. destruct (given mac); [|apply quiet_reads, reads_ret].
    apply quiet_reads. apply reads_bind; [apply reads_gets|]. intros ex. cbv zeta.
    apply reads_bind; [apply reads_gets|]. intros n. apply reads_bind; [apply reads_raise_if|intros; apply reads_ret]. }
  intros dev. apply quiet_bind; [apply fup_gate_quiet|intros; apply quiet_reads, reads_ret].
Qed.
Lemma gates_quiet now existing org location router mac : quiet (gates now existing org location router mac).
Proof.
  unfold gates. apply quiet_bind.
  - destruct existing; [|apply quiet_reads, reads_ret].
    apply quiet_bind; [apply known_guest_gates_quiet|intros; apply quiet_reads, reads_ret].
  - intros a. apply quiet_bind; [|intros; apply quiet_reads, reads_ret].
    apply quiet_reads, reads_bind; [apply reads_of_option|]. intros.
    apply reads_bind; [apply reads_raise_if|intros; apply reads_ret].
Qed.
Lemma record_login_quiet g s m why now : quiet (record_login g s m why now).
Proof. intros d. reflexivity. Qed.
Lemma access_control_quiet now c location s mac m guest already :
  quiet (enforce_access_control now c location s mac m guest already).
Proof.
  unfold enforce_access_control.
  destruct (GuestAccess.enforce_access_control _ _ _ _ _ _ _ _).1 as [|[]]; try (by intros d);
    try (destruct (whitelist_only_enabled c); by intros d).
Qed.
Lemma require_method_reads org location m now : reads (require_method_enabled org location m now).
Proof.
  apply reads_bind; [apply reads_of_option|]. intros c. apply reads_bind; [apply reads_raise_if|]. intros _.
  apply reads_bind; [apply reads_raise_if|intros; apply reads_ret].
Qed.
Lemma reject_if_blocked_reads g : reads (reject_if_blocked g).
Proof. destruct g; [apply reads_raise_if|apply reads_ret]. Qed.
Lemma create_guest_quiet x : quiet (create_guest x).
Proof.
  apply quiet_bind; [apply quiet_reads, reads_gets|]. intros. apply quiet_bind; [apply quiet_reads, reads_raise_if|].
  intros. apply quiet_bind; [by intros d|intros; apply quiet_reads, reads_ret].
Qed.
Lemma get_or_create_guest_quiet now id existing org location s :
  quiet (get_or_create_guest now id existing org location s).
Proof.
  destruct existing; [apply quiet_reads, reads_ret|]. apply quiet_bind; [apply create_guest_quiet|].
  intros; apply quiet_reads, reads_ret.
Qed.
Lemma get_or_create_device_quiet now id g mac known : quiet (get_or_create_device now id g mac known).
Proof.
  unfold get_or_create_device. cbv zeta. apply quiet_bind.
  { destruct known; [apply quiet_reads, reads_ret|apply quiet_reads, reads_gets]. }
  intros [dev|]; [by intros d|]. apply quiet_bind; [apply quiet_reads, reads_gets|]. intros.
  apply quiet_bind; [apply quiet_reads, reads_raise_if|].
  intros. apply quiet_bind; [by intros d|intros; apply quiet_reads, reads_ret].
Qed.
Lemma maybe_device_quiet now id g mac known : quiet (maybe_get_or_create_device now id g mac known).
Proof.
  unfold maybe_get_or_create_device. destruct (given mac); [|apply quiet_reads, reads_ret].
  apply quiet_bind; [apply get_or_create_device_quiet|intros; apply quiet_reads, reads_ret].
Qed.

Lemma find_reusable_Some now g router dev d x : find_reusable_active_session now g router dev d = Some x →
  x ∈ sessions d ∧ status x = ACTIVE ∧ session_guest x = g ∧ session_router x = router ∧ session_device x = dev
  ∧ has_session_reached_time_limit now x = false.
Proof.
  unfold find_reusable_active_session. destruct dev as [k|]; [|done].
  destruct (select_one _ _) as [y|] eqn:E; [|done]. cbn.
  destruct (has_session_reached_time_limit now y) eqn:Ht; [done|]. intros [= <-].
  apply select_one_Some in E as [Hin E]. apply elem_of_select in Hin as [Hin Ha].
  unfold of_guest, Guest.is_active in Ha. bools. by split_and!.
Qed.
Lemma create_session_Ok x d y d' : create_session x d = (Ok y, d') →
  y = x ∧ get_session_by_id (session_id x) d = None ∧ d' = set_sessions (insert_row x) d.
Proof.
  unfold create_session. erewrite bind_step by (unfold gets; reflexivity). rewrite raise_if_bind.
  case_bool_decide as Hn; [done|]. by intros [= <- <-].
Qed.
Lemma new_session_well_formed now id g dev router location m v ip data timeout idle :
  well_formed now (new_session now id g dev router location m v ip data timeout idle).
Proof. split; try done; cbn; lia. Qed.

(** The session a sign-in ends with: another login of a session of this
    device that is still running, or a new one. *)
Lemma reuse_or_create_Ok now id g dev router location m v ip data timeout idle d r d' :
  keyed (sessions d) →
  reuse_or_create_session now id g dev router location m v ip data timeout idle d = (Ok r, d') →
  match find_reusable_active_session now (guest_id g) router (device_id <$> dev) d with
  | Some x =>
      let y := reused now (default false (nas_only router)) m v ip data timeout idle x in
      r = (y, false) ∧ d' = written y x d
  | None =>
      let y := new_session now id g dev router location m v ip data timeout idle in
      r = (y, true) ∧ get_session_by_id id d = None ∧ d' = set_sessions (insert_row y) d
  end.
Proof.
  intros Hk H. unfold reuse_or_create_session in H. erewrite bind_step in H by (unfold gets; reflexivity).
  destruct (find_reusable_active_session _ _ _ _ d) as [x|] eqn:E.
  - apply find_reusable_Some in E as (Hin & _). erewrite bind_step in H by (by apply update_session_eq).
    by injection H as <- <-.
  - apply bind_Ok in H as (y & d1 & (-> & Hno & ->)%create_session_Ok & H). by injection H as <- <-.
Qed.
Lemma advances_reused now b m v ip data timeout idle x : status x = ACTIVE →
  advances now x (reused now b m v ip data timeout idle x).
Proof.
  intros Ha. apply (advances_columns now (reused now b m v ip data timeout idle)); try done; cbn; try lia.
  unfold ended. by rewrite Ha.
Qed.
Lemma reuse_or_create_sound now id g dev router location m v ip data timeout idle d r d' :
  reuse_or_create_session now id g dev router location m v ip data timeout idle d = (Ok r, d') →
  sound now d d'.
Proof.
  intros H Hd. apply reuse_or_create_Ok in H; [|apply Hd].
  destruct (find_reusable_active_session _ _ _ _ d) as [x|] eqn:E; cbn zeta in H.
  - destruct H as [_ ->]. apply find_reusable_Some in E as (Hin & Ha & _).
    revert Hd. apply sound_written; [done|]. by apply advances_reused.
  - destruct H as (_ & Hno & ->). revert Hd. apply sound_insert; [done|]. apply new_session_well_formed.
Qed.

(** A run of a step that changes no session and of a step that is sound. *)
Lemma quiet_then {A B} now (m : op A) (f : A → op B) d b d' : quiet m → (m ≫= f) d = (Ok b, d') →
  (∀ a d1, m d = (Ok a, d1) → f a d1 = (Ok b, d') → sound now d1 d') → sound now d d'.
Proof.
  intros Hm (a & d1 & Ha & H)%bind_Ok Hf.
  exact (transitivity (quiet_sound m now d a d1 Hm Ha) (Hf a d1 Ha H)).
Qed.
Lemma then_quiet {A B} now (m : op A) (f : A → op B) d b d' : (m ≫= f) d = (Ok b, d') →
  (∀ a d1, m d = (Ok a, d1) → sound now d d1) → (∀ a, quiet (f a)) → sound now d d'.
Proof.
  intros (a & d1 & Ha & H)%bind_Ok Hm Hf.
  exact (transitivity (Hm a d1 Ha) (quiet_sound (f a) now d1 b d' (Hf a) H)).
Qed.

Lemma open_session_sound now ks existing org location router s mac known tier m ip v d r d' :
  open_session now ks existing org location router s mac known tier m ip v d = (Ok r, d') → sound now d d'.
Proof.
  intros H. unfold open_session in H. revert H. intros H.
  eapply quiet_then; [apply get_or_create_guest_quiet|exact H|]. clear H. intros [g new] d1 _ H. cbn [fst snd] in H.
  cbv zeta in H. eapply quiet_then; [apply maybe_device_quiet|exact H|]. clear H. intros dev d2 _ H.
  eapply then_quiet; [exact H| |].
  - intros x d3. apply reuse_or_create_sound.
  - intros [x created]. apply quiet_bind; [by destruct created; intros d3|]. intros _.
    apply quiet_bind; [apply record_login_quiet|intros; apply quiet_reads, reads_ret].
Qed.

Lemma login_via_otp_sound now ks raw code m org location router mac ip d r d' :
  login_via_otp now ks raw code m org location router mac ip d = (Ok r, d') → sound now d d'.
Proof.
  intros H. unfold login_via_otp in H. rewrite raise_if_bind in H. case_bool_decide; [done|]. cbv zeta in H.
  eapply quiet_then; [apply quiet_reads, require_method_reads|exact H|]. clear H. intros c d1 _ H.
  eapply quiet_then; [apply quiet_reads, reads_gets|exact H|]. clear H. intros existing d2 _ H.
  eapply quiet_then; [apply quiet_reads, reject_if_blocked_reads|exact H|]. clear H. intros [] d3 _ H.
  eapply quiet_then; [apply access_control_quiet|exact H|]. clear H. intros [] d4 _ H.
  eapply quiet_then; [apply quiet_reads, reads_gets|exact H|]. clear H. intros refused d5 _ H.
  eapply quiet_then; [apply quiet_reads, reads_raise_if|exact H|]. clear H. intros [] d6 _ H.
  eapply quiet_then; [apply gates_quiet|exact H|]. clear H. intros a d7 _ H.
  destruct (verify_otp _ code); [by eapply open_session_sound|].
  by apply bind_Ok in H as (? & ? & _ & ?).
Qed.
Lemma login_via_password_sound now ks raw password org location router mac ip d r d' :
  login_via_password now ks raw password org location router mac ip d = (Ok r, d') → sound now d d'.
Proof.
  intros H. unfold login_via_password in H. cbv zeta in H.
  eapply quiet_then; [apply quiet_reads, require_method_reads|exact H|]. clear H. intros c d1 _ H.
  eapply quiet_then; [apply quiet_reads, reads_gets|exact H|]. clear H. intros existing d2 _ H.
  eapply quiet_then; [apply quiet_reads, reject_if_blocked_reads|exact H|]. clear H. intros [] d3 _ H.
  eapply quiet_then; [apply access_control_quiet|exact H|]. clear H. intros [] d4 _ H.
  eapply quiet_then; [apply quiet_reads, reads_gets|exact H|]. clear H. intros refused d5 _ H.
  eapply quiet_then; [apply quiet_reads, reads_raise_if|exact H|]. clear H. intros [] d6 _ H.
  eapply quiet_then; [apply gates_quiet|exact H|]. clear H. intros a d7 _ H.
  destruct existing as [g|]; [destruct (verify_guest_password _ password); [by eapply open_session_sound|]|];
    by apply bind_Ok in H as (? & ? & _ & ?).
Qed.
Lemma login_via_mac_sound now ks raw org location router ip d r d' :
  login_via_mac_whitelist now ks raw org location router ip d = (Ok r, d') → sound now d d'.
Proof.
  intros H. unfold login_via_mac_whitelist in H.
  eapply quiet_then; [apply quiet_reads, reads_of_option|exact H|]. clear H. intros m d0 _ H.
  eapply quiet_then; [apply quiet_reads, reads_of_option|exact H|]. clear H. intros c d1 _ H.
  eapply quiet_then; [apply quiet_reads, reads_raise_if|exact H|]. clear H. intros [] d2 _ H.
  eapply quiet_then; [apply quiet_reads, reads_raise_if|exact H|]. clear H. intros [] d3 _ H. cbv zeta in H.
  eapply quiet_then; [apply quiet_reads, reads_gets|exact H|]. clear H. intros existing d4 _ H.
  eapply quiet_then; [apply quiet_reads, reject_if_blocked_reads|exact H|]. clear H. intros [] d5 _ H.
  eapply quiet_then; [apply access_control_quiet|exact H|]. clear H. intros [] d6 _ H.
  eapply quiet_then; [apply gates_quiet|exact H|]. clear H. intros a d7 _ H. eapply open_session_sound. exact H.
Qed.
Lemma require_guest_reads k r : reads (require_guest k r).
Proof.
  apply reads_bind; [apply reads_gets|]. intros row. apply reads_bind; [apply reads_of_option|]. intros g.
  apply reads_bind; [apply reads_raise_if|]. intros. apply reads_bind; [apply reads_raise_if|intros; apply reads_ret].
Qed.
Lemma reconnect_sound now ks guest router location requesting mac ip d x d' :
  reconnect now ks guest router location requesting mac ip d = (Ok x, d') → sound now d d'.
Proof.
  intros H. unfold reconnect in H.
  eapply quiet_then; [apply quiet_reads, require_guest_reads|exact H|]. clear H. intros g d1 _ H.
  eapply quiet_then; [apply quiet_reads, reject_if_blocked_reads|exact H|]. clear H. intros [] d2 _ H.
  eapply quiet_then; [apply quiet_reads, reads_gets|exact H|]. clear H. intros lt d3 _ H.
  eapply quiet_then; [|exact H|]; [destruct (cooldown_until lt); [apply quiet_reads, reads_raise_if|apply quiet_reads, reads_ret]|].
  clear H. intros [] d4 _ H. unfold reconnect_from in H.
  eapply quiet_then; [apply quiet_reads, reads_gets|exact H|]. clear H. intros latest d5 _ H.
  eapply quiet_then; [apply quiet_reads, reads_of_option|exact H|]. clear H. intros prior d6 _ H.
  cbv beta in H. case_bool_decide; [by injection H as <- <-|].
  eapply quiet_then; [apply quiet_reads, reads_raise_if|exact H|]. clear H. intros [] d7 _ H.
  eapply quiet_then; [|exact H|].
  { destruct (resolve_portal_config _ _) as [c|]; [|apply quiet_reads, reads_ret].
    apply quiet_bind; [apply quiet_reads, reads_raise_if|intros; apply access_control_quiet]. }
  clear H. intros [] d8 _ H.
  eapply quiet_then; [|exact H|].
  { apply quiet_reads, reads_bind; [apply reads_of_option|]. intros.
    apply reads_bind; [apply reads_raise_if|intros; apply reads_ret]. }
  clear H. intros r d9 _ H. eapply quiet_then; [|exact H|].
  { destruct (given mac); [|apply quiet_reads, reads_gets].
    apply quiet_bind; [apply get_or_create_device_quiet|intros; apply quiet_reads, reads_ret]. }
  clear H. intros dev d10 _ H. eapply then_quiet; [exact H| |].
  - intros y d11 (-> & Hno & ->)%create_session_Ok. apply sound_insert; [done|apply new_session_well_formed].
  - intros y. by intros d11.
Qed.

(** ** Who is let in *)
Definition succeeds {A} (m : op A) (d : database) : Prop := ∃ a d', m d = (Ok a, d').
Lemma succeeds_bind {A B} (m : op A) (f : A → op B) d :
  succeeds (m ≫= f) d ↔ ∃ a d1, m d = (Ok a, d1) ∧ succeeds (f a) d1.
Proof.
  unfold succeeds. split.
  - intros (b & d' & (a & d1 & Ha & H)%bind_Ok). exists a, d1. eauto.
  - intros (a & d1 & Ha & b & d' & H). exists b, d'. apply bind_Ok. eauto.
Qed.
Lemma succeeds_raise_if {B} b e (f : unit → op B) d : succeeds (raise_if b e ≫= f) d ↔ b = false ∧ succeeds (f tt) d.
Proof. unfold succeeds. rewrite raise_if_bind. destruct b; [|naive_solver]. split; [by intros (? & ? & ?)|by intros [? _]]. Qed.
Lemma succeeds_of_option {A B} o e (f : A → op B) d :
  succeeds (of_option o e ≫= f) d ↔ ∃ a, o = Some a ∧ succeeds (f a) d.
Proof.
  unfold succeeds. rewrite of_option_bind. destruct o as [a|]; [naive_solver|].
  split; [by intros (? & ? & ?)|by intros (? & ? & _)].
Qed.
Lemma succeeds_gets {A B} (g : database → A) (f : A → op B) d : succeeds (gets g ≫= f) d ↔ succeeds (f (g d)) d.
Proof. unfold succeeds. by erewrite bind_step by (unfold gets; reflexivity). Qed.
Lemma succeeds_ret {A} (a : A) d : succeeds (mret a) d ↔ True.
Proof. split; [done|]. by exists a, d. Qed.

Definition admitted (now : datetime) (c : PortalConfig) (location : option uuid) (s : pystr) (mac : option pystr)
    (already : bool) : bool :=
  match (GuestAccess.enforce_access_control now (config_org c) location s mac (whitelist_only_enabled c)
           already access).1 with
  | Ok _ => true
  | Raise (GuestAccess.GuestAccessDeniedError _) | Raise GuestAccess.WhitelistOnlyAccessDeniedError => false
  | Raise _ => whitelist_only_enabled c
  end.
Lemma succeeds_access {B} now c location s mac m guest already (f : unit → op B) d :
  succeeds (enforce_access_control now c location s mac m guest already ≫= f) d
  ↔ admitted now c location s mac already = true ∧ succeeds (f tt) d.
Proof.
  rewrite succeeds_bind. unfold enforce_access_control, admitted.
  destruct (GuestAccess.enforce_access_control _ _ _ _ _ _ _ _).1 as [a|[]];
    try (split; [by intros (? & ? & [= <- <-] & ?)|by intros [_ ?]; exists tt, d]);
    try (split; [by intros (? & ? & ? & _)|by intros [? _]]);
    (destruct (whitelist_only_enabled c);
      [split; [by intros (? & ? & [= <- <-] & ?)|by intros [_ ?]; exists tt, d]
      |split; [by intros (? & ? & ? & _)|by intros [? _]]]).
Qed.

(** The gates of a known guest. *)
Definition concurrency_limit (g org location : uuid) : Z :=
  rule_or "max_concurrent_sessions_per_guest" DEFAULT_MAX_CONCURRENT_SESSIONS_PER_GUEST
    (session_policy_rules org location g).
Definition within_login_hours (tier : option Policy.AccessTier) (org : uuid) (now : datetime) : Prop :=
  ∀ t h, tier = Some t → Policy.tier_login_hours t = Some h →
    login_hours_standing h (get_organization_timezone timezones org) now ≠ Closed.
(** The device of the sign-in, if it is known as the guest's own. *)
Definition own_device (g : uuid) (m : pystr) (d : database) : option uuid :=
  dev ← get_device_by_mac (normalize_mac_address m) d;
  if bool_decide (device_guest dev = g) then Some (device_id dev) else None.
Record may_enter (now : datetime) (g router org location : uuid) (mac : option pystr) (d : database) : Prop := {
  in_hours : within_login_hours (aruba_access_tier policy_lookup nas_only router org location g) org now;
  sessions_left : count_active_sessions_for_guest g d < concurrency_limit g org location;
  devices_left : ∀ m, given mac = Some m → count_active_devices_for_guest g (own_device g m d) d
    < device_limit g org location (aruba_access_tier policy_lookup nas_only router org location g);
  quota_left : succeeds (enforce_fup_quota zones timezones policy_lookup team_quota g org location
    (aruba_access_tier policy_lookup nas_only router org location g) now) d;
}.
(** The rows a gate leaves alone. *)
Definition people (d : database) := (guests d, devices d, sessions d).
Lemma fup_gate_people g org location tier now d :
  people (enforce_fup_quota zones timezones policy_lookup team_quota g org location tier now d).2 = people d.
Proof.
  assert (respects (λ d d', people d' = people d)
    (enforce_fup_quota zones timezones policy_lookup team_quota g org location tier now)) as H; [|apply H].
  assert (PreOrder (λ d d' : database, people d' = people d)) as Hp.
  { split; [done|]. intros d1 d2 d3 H12 H23. by rewrite H23. }
  unfold enforce_fup_quota. apply respects_bind; [done|apply respects_gets, Hp|]. intros over.
  apply respects_bind; [done|apply respects_raise_if, Hp|]. intros _.
  destruct policy_lookup as [pdb|]; [|apply respects_ret, Hp].
  apply respects_bind; [done|apply respects_of_option, Hp|]. intros r. cbv zeta.
  destruct (_ && _); [apply respects_ret, Hp|]. apply respects_bind; [done| |].
  - unfold get_or_reset_quota_usages. apply respects_bind; [done|apply respects_gets, Hp|]. intros ex.
    induction (List.filter _ _) as [|p ps IH]; [apply respects_ret, Hp|]. cbn [current_usages].
    apply respects_bind; [done| |intros x; apply respects_bind; [done|exact IH|intros; apply respects_ret, Hp]].
    unfold current_usage. destruct (ex p) as [x|]; [|by intros d0]. destruct (_ <? _); by intros d0.
  - intros l. apply respects_pure; [done|]. apply check_usages_reads.
Qed.

(** What each gate asks for. *)
Lemma succeeds_check {B} (m : op unit) (P : Prop) (f : unit → op B) d :
  reads m → (succeeds m d ↔ P) → succeeds (m ≫= f) d ↔ P ∧ succeeds (f tt) d.
Proof.
  intros Hr HP. rewrite succeeds_bind, <-HP. unfold succeeds at 2. specialize (Hr d). split.
  - intros ([] & d1 & Hm & H). rewrite Hm in Hr. cbn in Hr. subst d1. eauto.
  - intros [([] & d1 & Hm) H]. rewrite Hm in Hr. cbn in Hr. subst d1. eauto.
Qed.
Lemma succeeds_raise b e d : succeeds (raise_if b e) d ↔ b = false.
Proof. unfold succeeds, raise_if. destruct b; [split; [by intros (? & ? & ?)|done]|split; [done|by exists tt, d]]. Qed.
Lemma succeeds_hours {B} tier org now (f : unit → op B) d :
  succeeds (enforce_access_tier_login_hours tier org now ≫= f) d
  ↔ within_login_hours tier org now ∧ succeeds (f tt) d.
Proof.
  apply succeeds_check; [apply reads_raise_if|]. unfold enforce_access_tier_login_hours. rewrite succeeds_raise.
  unfold within_login_hours. destruct tier as [t|]; cbn; [|naive_solver].
  destruct (Policy.tier_login_hours t) as [h|] eqn:E; cbn; [|naive_solver].
  destruct (login_hours_standing _ _ _) eqn:E'; split; try done; intros H.
  - intros t0 h0 [= <-] Hh. rewrite E in Hh. injection Hh as <-. by rewrite E'.
  - intros t0 h0 [= <-] Hh. rewrite E in Hh. injection Hh as <-. by rewrite E'.
  - by destruct (H t h eq_refl E).
Qed.
Lemma succeeds_concurrency {B} g org location (f : unit → op B) d :
  succeeds (enforce_concurrent_session_limit g org location ≫= f) d
  ↔ count_active_sessions_for_guest g d < concurrency_limit g org location ∧ succeeds (f tt) d.
Proof.
  apply succeeds_check; [apply reads_bind; [apply reads_gets|intros; apply reads_raise_if]|].
  unfold enforce_concurrent_session_limit. rewrite succeeds_gets. cbv beta zeta. rewrite succeeds_raise.
  unfold concurrency_limit. apply Z.leb_gt.
Qed.
Definition known_device (mac : option pystr) (d : database) : option GuestDevice :=
  m ← given mac; get_device_by_mac (normalize_mac_address m) d.
Lemma succeeds_devices {B} g mac org location tier (f : option GuestDevice → op B) d :
  succeeds (enforce_device_limit g mac org location tier ≫= f) d
  ↔ (∀ m, given mac = Some m → count_active_devices_for_guest g (own_device g m d) d < device_limit g org location tier)
    ∧ succeeds (f (known_device mac d)) d.
Proof.
  rewrite succeeds_bind. unfold enforce_device_limit, known_device. destruct (given mac) as [m|]; cbn.
  2: { split; [by intros (? & ? & [= <- <-] & ?)|]. intros [_ H]. by exists None, d. }
  split.
  - intros (a & d1 & H & Hf). erewrite bind_step in H by (unfold gets; reflexivity). cbv zeta in H.
    erewrite bind_step in H by (unfold gets; reflexivity). rewrite raise_if_bind in H.
    destruct (_ <=? _) eqn:E; [done|]. injection H as <- <-. split; [|done]. intros m' [= <-]. apply Z.leb_gt in E.
    exact E.
  - intros [H Hf]. exists (get_device_by_mac (normalize_mac_address m) d), d. split; [|done].
    erewrite bind_step by (unfold gets; reflexivity). cbv zeta.
    erewrite bind_step by (unfold gets; reflexivity). rewrite raise_if_bind.
    specialize (H m eq_refl). apply Z.leb_gt in H. unfold own_device, mbind, option_bind in H. by rewrite H.
Qed.

Definition eligible (router : uuid) : Prop :=
  ∃ st, router_status router = Some st ∧ st ≠ DECOMMISSIONED ∧ st ≠ SUSPENDED.
Lemma succeeds_router {B} router (f : uuid → op B) d :
  succeeds (get_eligible_router router ≫= f) d ↔ eligible router ∧ succeeds (f router) d.
Proof.
  unfold get_eligible_router, eligible. rewrite succeeds_bind. split.
  - intros (r & d1 & H & Hf). rewrite of_option_bind in H. destruct (router_status router) as [st|]; [|done].
    rewrite raise_if_bind in H. case_bool_decide as Hn; [done|]. injection H as <- <-. split; [|done].
    exists st. set_solver.
  - intros [(st & Hst & Hd & Hs) Hf]. exists router, d. split; [|done]. rewrite of_option_bind, Hst, raise_if_bind.
    by rewrite bool_decide_false by set_solver.
Qed.

(** Both kinds of guest, and the router. *)
Lemma known_gates_iff now g router org location mac d :
  succeeds (known_guest_gates now g router org location mac) d
  ↔ may_enter now (guest_id g) router org location mac d.
Proof.
  unfold known_guest_gates. cbv zeta. rewrite succeeds_hours, succeeds_concurrency, succeeds_devices, succeeds_bind.
  split.
  - intros (H1 & H2 & H3 & ([] & d1 & H4 & _)). split; try done. by exists tt, d1.
  - intros [H1 H2 H3 ([] & d1 & H4)]. split_and!; try done. exists tt, d1. split; [done|].
    by apply succeeds_ret.
Qed.
Lemma known_gates_Ok now g router org location mac a d d1 :
  known_guest_gates now g router org location mac d = (Ok a, d1) →
  a = (aruba_access_tier policy_lookup nas_only router org location (guest_id g), known_device mac d)
  ∧ people d1 = people d.
Proof.
  unfold known_guest_gates. cbv zeta. intros ([] & d2 & H1 & H)%bind_Ok.
  apply reads_Ok in H1 as ->; [|apply reads_raise_if]. apply bind_Ok in H as ([] & d3 & H2 & H).
  apply reads_Ok in H2 as ->; [|apply reads_bind; [apply reads_gets|intros; apply reads_raise_if]].
  apply bind_Ok in H as (dev & d4 & H3 & H).
  assert (dev = known_device mac d ∧ d4 = d) as [-> ->].
  { unfold enforce_device_limit, known_device in *. destruct (given mac) as [m|]; [|by injection H3 as <- <-].
    erewrite bind_step in H3 by (unfold gets; reflexivity). cbv zeta in H3.
    erewrite bind_step in H3 by (unfold gets; reflexivity). rewrite raise_if_bind in H3.
    destruct (_ <=? _); [done|]. by injection H3 as <- <-. }
  apply bind_Ok in H as ([] & d5 & H4 & H). injection H as <- <-. split; [done|].
  pose proof (fup_gate_people (guest_id g) org location
    (aruba_access_tier policy_lookup nas_only router org location (guest_id g)) now d) as E.
  by rewrite H4 in E.
Qed.

(** The keys drawn for new rows are new. *)
Definition fresh (ks : keys) (d : database) : Prop :=
  get_guest_by_id (new_guest ks) d = None ∧ get_device_by_id (new_device ks) d = None
  ∧ get_session_by_id (new_session_id ks) d = None.
Lemma fresh_people ks d d' : people d' = people d → fresh ks d → fresh ks d'.
Proof. unfold people, fresh, get_guest_by_id, get_device_by_id, get_session_by_id. by intros [= -> -> ->]. Qed.
(** No row is spelled this way. *)
Definition unused (org : uuid) (s : pystr) (d : database) : Prop :=
  ∀ g, g ∈ guests d → guest_org g = org → identifier g ≠ s.

(** What the limit check found is what is there. *)
Definition up_to_date (mac : option pystr) (known : option (option GuestDevice)) (d : database) : Prop :=
  match known with Some dev => dev = known_device mac d | None => True end.
Lemma device_succeeds now id g m known d : get_device_by_id id d = None → up_to_date (Some m) known d →
  given (Some m) = Some m → succeeds (get_or_create_device now id g m known) d.
Proof.
  intros Hid Hk Hm. unfold get_or_create_device. cbv zeta. rewrite succeeds_bind.
  exists (get_device_by_mac (normalize_mac_address m) d), d. split.
  { destruct known as [dev|]; [|done]. unfold up_to_date, known_device in Hk. rewrite Hm in Hk. cbn in Hk. by subst dev. }
  destruct (get_device_by_mac _ d) as [dev|] eqn:E; [by eexists _, _|].
  unfold create_device. rewrite succeeds_gets, succeeds_raise_if. cbn [device_id mac_address].
  rewrite Hid, E. split; [done|]. by eexists _, _.
Qed.
Lemma reuse_or_create_succeeds now id g dev router location m v ip data timeout idle d :
  get_session_by_id id d = None →
  succeeds (reuse_or_create_session now id g dev router location m v ip data timeout idle) d.
Proof.
  intros Hid. unfold reuse_or_create_session. rewrite succeeds_gets. cbv beta.
  destruct (find_reusable_active_session _ _ _ _ d) as [x|]; [by eexists _, _|].
  unfold create_session. rewrite succeeds_bind. eexists _, _. split; [|by eexists _, _].
  erewrite bind_step by (unfold gets; reflexivity). rewrite raise_if_bind. cbn [session_id new_session].
  by rewrite Hid.
Qed.
Lemma create_guest_succeeds {B} x (f : Guest → op B) d : get_guest_by_id (guest_id x) d = None →
  succeeds (create_guest x ≫= f) d
  ↔ unused (guest_org x) (identifier x) d ∧ succeeds (f x) (set_guests (insert_row x) d).
Proof.
  intros Hid. rewrite succeeds_bind. unfold create_guest.
  assert (select_one (λ y, bool_decide (guest_org y = guest_org x) && bool_decide (identifier y = identifier x)) (guests d) = None
    ↔ unused (guest_org x) (identifier x) d) as Hu.
  { rewrite select_one_None. unfold unused. split.
    - intros H g Hg Ho He. specialize (H g Hg). rewrite !bool_decide_true in H by done. done.
    - intros H g Hg. apply andb_false_iff. case_bool_decide; [right|by left]. apply bool_decide_eq_false. by apply H. }
  split.
  - intros (y & d1 & H & Hf). erewrite bind_step in H by (unfold gets; reflexivity). cbv beta in H.
    rewrite Hid, raise_if_bind in H.
    rewrite (bool_decide_false (@None Guest ≠ None)) in H by (by intros []). cbn [orb] in H. case_bool_decide as Hn; [done|].
    injection H as <- <-. split; [|done]. by apply Hu.
  - intros [Hun Hf]. exists x, (set_guests (insert_row x) d). split; [|done].
    erewrite bind_step by (unfold gets; reflexivity). cbv beta. rewrite Hid, raise_if_bind.
    rewrite (bool_decide_false (@None Guest ≠ None)) by (by intros []). cbn [orb].
    rewrite bool_decide_false; [done|]. intros H. apply H. by apply Hu.
Qed.

Lemma open_session_iff now ks existing org location router s mac known tier m ip v d :
  fresh ks d → up_to_date mac known d →
  succeeds (open_session now ks existing org location router s mac known tier m ip v) d
  ↔ (existing = None → unused org s d).
Proof.
  intros (Hg & Hd & Hs) Hk. unfold open_session.
  match goal with |- succeeds (_ ≫= ?f) d ↔ _ =>
    assert (∀ r d1, devices d1 = devices d → sessions d1 = sessions d → succeeds (f r) d1) as Htail end.
  { intros [g new] d1 Ed Es. cbn [fst snd]. cbv zeta. rewrite succeeds_bind.
    assert (∃ dev d2, maybe_get_or_create_device now (new_device ks) (guest_id g) mac known d1 = (Ok dev, d2)) as (dev & d2 & Hdev).
    { unfold maybe_get_or_create_device, given. destruct mac as [[|c l]|]; [by eexists _, _| |by eexists _, _].
      destruct (device_succeeds now (new_device ks) (guest_id g) (c :: l) known d1) as (dev & d2 & H).
      - unfold get_device_by_id. by rewrite Ed.
      - unfold up_to_date, known_device, get_device_by_mac in *. destruct known; [|done]. by rewrite Ed.
      - done.
      - exists (Some dev), d2. by erewrite bind_step by exact H. }
    exists dev, d2. split; [done|]. cbv beta. rewrite succeeds_bind.
    pose proof (maybe_device_quiet now (new_device ks) (guest_id g) mac known d1) as Eq. rewrite Hdev in Eq. cbn in Eq.
    destruct (reuse_or_create_succeeds now (new_session_id ks) g dev router location m (granted_voucher <$> v) ip
      (with_tier_session_data_limit (v ← v; granted_data v) tier)
      (Some (match v with Some v => granted_minutes v | None => resolve_session_timeout_minutes org location (guest_id g) tier end))
      (Some (resolve_idle_timeout_minutes org location (guest_id g) tier)) d2) as (x & d3 & H).
    { unfold get_session_by_id. by rewrite Eq, Es. }
    exists x, d3. split; [exact H|]. destruct x as [x []]; by eexists _, _. }
  destruct existing as [g|]; cbn [get_or_create_guest].
  - rewrite succeeds_bind. split; [done|]. intros _. exists (g, false), d. split; [done|]. by apply Htail.
  - rewrite succeeds_bind. split.
    + intros (r & d1 & H & _) _. assert (succeeds (create_guest (mk_guest (new_guest ks) org (Some location) s now now 0 false None)
        ≫= λ g, mret (g, true)) d) as Hs' by (by exists r, d1).
      by apply create_guest_succeeds in Hs' as [? _].
    + intros Hun. specialize (Hun eq_refl).
      assert (succeeds (create_guest (mk_guest (new_guest ks) org (Some location) s now now 0 false None)
        ≫= λ g, mret (g, true)) d) as (r & d1 & H).
      { rewrite create_guest_succeeds by done. split; [done|]. by eexists _, _. }
      exists r, d1. split; [exact H|]. unfold create_guest in H. rewrite bind_assoc in H.
      erewrite bind_step in H by (unfold gets; reflexivity). rewrite bind_assoc, raise_if_bind in H.
      case_match; [done|]. injection H as <- <-. by apply Htail.
Qed.


Lemma gates_iff now existing org location router mac d :
  succeeds (gates now existing org location router mac) d
  ↔ (∀ g, existing = Some g → may_enter now (guest_id g) router org location mac d) ∧ eligible router.
Proof.
  unfold gates. rewrite succeeds_bind. destruct existing as [g|].
  - setoid_rewrite succeeds_router. split.
    + intros (a & d1 & (r & d2 & H & _)%bind_Ok & He & _). split; [|done]. intros g' [= <-].
      rewrite <-known_gates_iff. by exists r, d2.
    + intros [Hg He]. destruct (proj2 (known_gates_iff now g router org location mac d) (Hg g eq_refl)) as (r & d1 & H).
      exists (r.1, Some r.2), d1. split; [by erewrite bind_step by exact H|]. split; [done|]. by apply succeeds_ret.
  - setoid_rewrite succeeds_router. split; [intros (a & d1 & _ & He & _); by split|].
    intros [_ He]. exists (None, None), d. split; [done|]. split; [done|]. by apply succeeds_ret.
Qed.
Lemma gates_Ok now existing org location router mac a d d1 :
  gates now existing org location router mac d = (Ok a, d1) →
  people d1 = people d ∧ a.2 = match existing with Some _ => Some (known_device mac d) | None => None end
  ∧ a.1 = (g ← existing; aruba_access_tier policy_lookup nas_only router org location (guest_id g)).
Proof.
  unfold gates. intros (b & d2 & Hb & H)%bind_Ok.
  apply bind_Ok in H as (r & d3 & Hr & H). injection H as <- <-.
  apply reads_Ok in Hr as ->.
  2: { apply reads_bind; [apply reads_of_option|]. intros. apply reads_bind; [apply reads_raise_if|intros; apply reads_ret]. }
  destruct existing as [g|]; [|by injection Hb as <- <-].
  apply bind_Ok in Hb as (r' & d4 & Hr' & H). injection H as <- <-.
  apply known_gates_Ok in Hr' as [-> ?]. done.
Qed.
Lemma gates_then {B} now existing org location router mac (f : _ → op B) d (Q : Prop) :
  (∀ a d1, gates now existing org location router mac d = (Ok a, d1) → succeeds (f a) d1 ↔ Q) →
  succeeds (gates now existing org location router mac ≫= f) d
  ↔ succeeds (gates now existing org location router mac) d ∧ Q.
Proof.
  intros Hf. rewrite succeeds_bind. split.
  - intros (a & d1 & Ha & H). split; [by exists a, d1|]. by apply (Hf a d1 Ha).
  - intros [(a & d1 & Ha) HQ]. exists a, d1. split; [done|]. by apply (Hf a d1 Ha).
Qed.

Lemma succeeds_method {B} org location m now (f : PortalConfig → op B) d :
  succeeds (require_method_enabled org location m now ≫= f) d
  ↔ ∃ c, resolve_portal_config org location = Some c ∧ m ∈ enabled_methods c ∧ is_open_now c now = true
      ∧ succeeds (f c) d.
Proof.
  unfold require_method_enabled, require_venue_open. rewrite succeeds_bind. split.
  - intros (c & d1 & H & Hf). rewrite of_option_bind in H. destruct (resolve_portal_config org location) as [c'|]; [|done].
    rewrite raise_if_bind in H. case_bool_decide as Hm; [done|]. rewrite raise_if_bind in H.
    destruct (is_open_now c' now) eqn:Ho; [|done]. injection H as <- <-. exists c'. split_and!; try done.
  - intros (c & Hc & Hm & Ho & Hf). exists c, d. split; [|done].
    rewrite of_option_bind, Hc, raise_if_bind, bool_decide_false by (by intros ?).
    by rewrite raise_if_bind, Ho.
Qed.
Lemma not_blocked_iff existing d :
  succeeds (reject_if_blocked existing) d ↔ ∀ g, existing = Some g → is_blocked g = false.
Proof.
  unfold reject_if_blocked. destruct existing as [g|]; [rewrite succeeds_raise|rewrite succeeds_ret]; [|naive_solver].
  split; [by intros ? ? [= <-]|auto].
Qed.

(** C3: a sign-in with a one-time code succeeds if and only if the portal of
    the venue offers the method and is open, the guest - if the venue knows
    one by this name - is not blocked and is within the login hours, the
    session and device limits and the quotas that hold for them, the access
    rules admit the name and the device, the device is not that of a blocked
    guest, the router takes sessions, the code is right, and - the one
    condition that is about no rule - a name that finds no guest is not yet
    in use. *)
Theorem otp_sign_in_accepts_iff now ks raw code m org location router mac ip d : fresh ks d →
  let s := GuestAccess.normalize_identifier raw in
  succeeds (login_via_otp now ks raw code m org location router mac ip) d ↔
  m ∈ [OTP_SMS; OTP_EMAIL; OTP_WHATSAPP] ∧
  ∃ c, resolve_portal_config org (Some location) = Some c ∧ m ∈ enabled_methods c ∧ is_open_now c now = true
    ∧ (∀ g, get_guest_by_identifier (config_org c) s d = Some g →
         is_blocked g = false ∧ may_enter now (guest_id g) router (config_org c) location mac d)
    ∧ admitted now c (Some location) s mac false = true
    ∧ device_of_blocked_guest now router (config_org c) (Some location) s mac d = false
    ∧ eligible router
    ∧ verify_otp s code = true
    ∧ (get_guest_by_identifier (config_org c) s d = None → unused (config_org c) s d).
Proof.
  intros Hf s.
  unfold login_via_otp. rewrite succeeds_raise_if, bool_decide_eq_false. cbv zeta. fold s.
  assert (¬ (m ∉ [OTP_SMS; OTP_EMAIL; OTP_WHATSAPP]) ↔ m ∈ [OTP_SMS; OTP_EMAIL; OTP_WHATSAPP]) as ->
    by (split; [apply dec_stable|auto]).
  apply and_iff_compat_l. rewrite succeeds_method. f_equiv. intros c. do 3 apply and_iff_compat_l.
  rewrite succeeds_gets. set (existing := get_guest_by_identifier (config_org c) s d).
  rewrite succeeds_check; [|apply reject_if_blocked_reads|apply not_blocked_iff].
  rewrite succeeds_access, succeeds_gets, succeeds_raise_if.
  rewrite (gates_then _ _ _ _ _ _ _ d (verify_otp s code = true ∧ (existing = None → unused (config_org c) s d))).
  - rewrite gates_iff. split.
    + intros (Hb & Ha & Hd & (Hm & He) & Hv & Hu). split_and!; auto.
    + intros (Hg & Ha & Hd & He & Hv & Hu). split_and!; auto; intros g E; by apply Hg.
  - intros a d1 Ha. apply gates_Ok in Ha as (Hp & Hk & _).
    destruct (verify_otp s code).
    + rewrite open_session_iff.
      * unfold unused. injection Hp as -> _ _. split; [by split|]. by intros [_ ?].
      * by eapply fresh_people.
      * rewrite Hk. destruct existing; [|done]. unfold up_to_date, known_device, get_device_by_mac.
        by injection Hp as _ -> _.
    + split; [|by intros [? _]]. by intros (? & ? & H).
Qed.

(** ** The limits hold afterwards *)
Inductive sign_in :=
| ByCode (raw code : pystr) (m : GuestAuthMethod) (org : option uuid) (location router : uuid) (mac ip : option pystr)
| ByPassword (raw password : pystr) (org : option uuid) (location router : uuid) (mac ip : option pystr)
| ByDevice (raw : pystr) (org : option uuid) (location router : uuid) (ip : option pystr).
Definition run_sign_in (now : datetime) (ks : keys) (c : sign_in) : op (Guest * GuestSession) :=
  match c with
  | ByCode raw code m org location router mac ip => login_via_otp now ks raw code m org location router mac ip
  | ByPassword raw password org location router mac ip =>
      login_via_password now ks raw password org location router mac ip
  | ByDevice raw org location router ip => login_via_mac_whitelist now ks raw org location router ip
  end.
Definition at_location (c : sign_in) : uuid :=
  match c with ByCode _ _ _ _ l _ _ _ | ByPassword _ _ _ l _ _ _ | ByDevice _ _ l _ _ => l end.
Definition at_router (c : sign_in) : uuid :=
  match c with ByCode _ _ _ _ _ r _ _ | ByPassword _ _ _ _ r _ _ | ByDevice _ _ _ r _ => r end.
Definition from_mac (c : sign_in) : option pystr :=
  match c with
  | ByCode _ _ _ _ _ _ mac _ | ByPassword _ _ _ _ _ mac _ => mac
  | ByDevice raw _ _ _ _ => GuestAccess.normalize_whitelist_mac_address raw
  end.

Lemma access_Ok now c location s mac m guest already a d d' :
  enforce_access_control now c location s mac m guest already d = (Ok a, d') → d' = d.
Proof.
  unfold enforce_access_control. destruct (GuestAccess.enforce_access_control _ _ _ _ _ _ _ _).1 as [|[]];
    try (by intros [= <-]); try done; destruct (whitelist_only_enabled c); try done; by intros [= <-].
Qed.
(** One gate of a sign-in that went through. *)
Ltac passed H :=
  let H1 := fresh "Hgate" in
  apply bind_Ok in H as (? & ? & H1 & H);
  first [apply access_Ok in H1 as -> |
    apply reads_Ok in H1 as ->;
      [|first [apply require_method_reads|apply reject_if_blocked_reads|apply reads_gets|apply reads_raise_if
              |apply reads_of_option]]].
Lemma sign_in_Ok now ks c r d d' : run_sign_in now ks c d = (Ok r, d') →
  ∃ org s m ip a d1, let existing := get_guest_by_identifier org s d in
    gates now existing org (at_location c) (at_router c) (from_mac c) d = (Ok a, d1)
    ∧ open_session now ks existing org (at_location c) (at_router c) s (from_mac c) a.2 a.1 m ip None d1 = (Ok r, d').
Proof.
  destruct c as [raw code m org location router mac ip|raw password org location router mac ip|raw org location router ip];
    cbn [run_sign_in at_location at_router from_mac]; intros H.
  - unfold login_via_otp in H. cbv zeta in H. passed H. passed H.
    apply bind_Ok in H as (existing & ? & [= <- <-] & H). do 4 passed H. apply bind_Ok in H as (a & d1 & Hg & H).
    destruct (verify_otp _ code); [|by apply bind_Ok in H as (? & ? & _ & ?)]. eexists _, _, _, _, a, d1.
    by split.
  - unfold login_via_password in H. cbv zeta in H. passed H.
    apply bind_Ok in H as (existing & ? & [= <- <-] & H). do 4 passed H. apply bind_Ok in H as (a & d1 & Hg & H).
    destruct (get_guest_by_identifier _ _ d) as [g|] eqn:E; [|by apply bind_Ok in H as (? & ? & _ & ?)].
    destruct (verify_guest_password _ password); [|by apply bind_Ok in H as (? & ? & _ & ?)].
    eexists _, _, _, _, a, d1. cbv zeta. rewrite E. by split.
  - unfold login_via_mac_whitelist in H. cbv zeta in H. apply bind_Ok in H as (m & d0 & Hm & H).
    unfold of_option in Hm. destruct (GuestAccess.normalize_whitelist_mac_address raw) as [m0|] eqn:Em; [|done].
    injection Hm as <- <-. do 3 passed H.
    apply bind_Ok in H as (existing & ? & [= <- <-] & H). do 2 passed H. apply bind_Ok in H as (a & d1 & Hg & H).
    eexists _, _, _, _, a, d1. by split.
Qed.

Lemma count_written g x y d : session_guest y = session_guest x → status y = status x → session_id y = session_id x →
  keyed (sessions d) → x ∈ sessions d →
  count_active_sessions_for_guest g (written y x d) ≤ count_active_sessions_for_guest g d.
Proof.
  intros Hg Hs Hid Hk Hin. unfold count_active_sessions_for_guest, written. cbn [sessions set_sessions].
  unfold set_row. apply rowcount_update_le. intros r Hr Hp Hq. apply bool_decide_eq_true in Hp.
  assert (r = x) as -> by (eapply NoDup_map_eq; [exact Hk|exact Hr|exact Hin|exact Hp]).
  unfold of_guest, Guest.is_active in *. by rewrite <-Hg, <-Hs.
Qed.

(** At most one more active session, on the device of the sign-in. *)
Definition one_more (g : uuid) (dev : option uuid) (d d' : database) : Prop :=
  count_active_sessions_for_guest g d' ≤ count_active_sessions_for_guest g d + 1
  ∧ ∀ x, x ∈ list_active_sessions_for_guest g d' →
      session_device x = dev ∨ ∃ y, y ∈ list_active_sessions_for_guest g d ∧ session_device y = session_device x.
Lemma reuse_or_create_one_more now id g dev router location m v ip data timeout idle d r d' :
  keyed (sessions d) →
  reuse_or_create_session now id g dev router location m v ip data timeout idle d = (Ok r, d') →
  one_more (guest_id g) (device_id <$> dev) d d'.
Proof.
  intros Hk H. apply reuse_or_create_Ok in H; [|done].
  destruct (find_reusable_active_session _ _ _ _ d) as [x|] eqn:E; cbv zeta in H.
  - destruct H as [_ ->]. apply find_reusable_Some in E as (Hin & Ha & Hg & _ & Hdev & _). split.
    + pose proof (count_written (guest_id g) x (reused now (default false (nas_only router)) m v ip data timeout idle x)
        d eq_refl eq_refl eq_refl Hk Hin). lia.
    + intros y Hy. apply elem_of_select in Hy as [Hy Hact]. cbn [written sessions set_sessions] in Hy.
      apply elem_of_update in Hy as (z & Hz & ->). destruct (has_id _ z); [by left|]. right. exists z.
      split; [|done]. by apply elem_of_select.
  - destruct H as (_ & _ & ->). split.
    + unfold count_active_sessions_for_guest, insert_row. cbn [sessions set_sessions].
      rewrite rowcount_app. unfold rowcount at 2, select. cbn. case_match; cbn; lia.
    + intros y Hy. apply elem_of_select in Hy as [Hy Hact]. cbn [sessions set_sessions] in Hy.
      apply elem_of_app in Hy as [Hy|Hy]; [right; exists y; split; [by apply elem_of_select|done]|].
      apply list_elem_of_singleton in Hy as ->. by left.
Qed.
Lemma one_more_devices g k own d d' : one_more g (Some k) d d' → (∀ j, own = Some j → k = j) →
  count_active_devices_for_guest g None d' ≤ count_active_devices_for_guest g own d + 1.
Proof.
  intros [_ H] Hown. unfold count_active_devices_for_guest.
  assert (∀ j, j ∈ active_devices_for_guest g d' → j = k ∨ j ∈ active_devices_for_guest g d) as Hin.
  { intros j Hj. unfold active_devices_for_guest in *. rewrite elem_of_remove_dups, list_elem_of_omap in *.
    destruct Hj as (x & Hx & Hj). destruct (H x Hx) as [Hk|(y & Hy & Heq)]; [left; congruence|].
    right. exists y. by rewrite Heq. }
  set (rest := match own with Some k => List.filter (λ j, bool_decide (j ≠ k)) (active_devices_for_guest g d)
    | None => active_devices_for_guest g d end).
  assert (length (active_devices_for_guest g d') ≤ length (k :: rest))%nat as Hle; [|cbn in Hle; lia].
  apply submseteq_length, NoDup_submseteq; [apply NoDup_remove_dups|]. intros j Hj. apply elem_of_cons.
  destruct (Hin j Hj) as [->|Hold]; [by left|]. unfold rest. destruct own as [k0|]; [|by right].
  destruct (decide (j = k)) as [->|Hne]; [by left|]. right. rewrite <-(Hown k0 eq_refl).
  apply list_elem_of_In, filter_In. split; [by apply list_elem_of_In|by apply bool_decide_eq_true].
Qed.
Lemma device_own now id g m known d dev d' j : given (Some m) = Some m → up_to_date (Some m) known d →
  get_or_create_device now id g m known d = (Ok dev, d') → own_device g m d = Some j → device_id dev = j.
Proof.
  intros Hm Hk H Hj. unfold get_or_create_device in H. cbv zeta in H.
  assert ((match known with Some dev => mret dev | None => gets (get_device_by_mac (normalize_mac_address m)) end : op _) d
    = (Ok (get_device_by_mac (normalize_mac_address m) d), d)) as E.
  { destruct known as [dv|]; [|done]. unfold up_to_date, known_device in Hk. rewrite Hm in Hk. cbn in Hk. by subst dv. }
  erewrite bind_step in H by exact E. unfold own_device, mbind, option_bind in Hj.
  destruct (get_device_by_mac _ d) as [dv|]; [|done]. destruct (bool_decide _); [|done]. injection Hj as <-.
  by injection H as <- <-.
Qed.
Lemma open_session_one_more now ks g org location router s mac known tier m ip v r d d' :
  keyed (sessions d) → up_to_date mac known d →
  open_session now ks (Some g) org location router s mac known tier m ip v d = (Ok r, d') →
  r.1 = g ∧ ∃ dev d1 d2, sessions d1 = sessions d ∧ sessions d2 = sessions d' ∧ one_more (guest_id g) dev d1 d2
    ∧ ∀ k, given mac = Some k → ∃ j, dev = Some j ∧ ∀ own, own_device (guest_id g) k d = Some own → j = own.
Proof.
  intros Hk Hu H. unfold open_session, get_or_create_guest in H. rewrite ret_bind in H. cbn [fst snd] in H.
  cbv zeta in H. apply bind_Ok in H as (dev & d1 & Hdev & H). apply bind_Ok in H as ([x created] & d2 & Hx & H).
  pose proof (maybe_device_quiet now (new_device ks) (guest_id g) mac known d) as Hq. rewrite Hdev in Hq. cbn in Hq.
  assert (r.1 = g ∧ sessions d' = sessions d2) as [Hr Hs].
  { destruct created; by injection H as <- <-. }
  split; [done|]. exists (device_id <$> dev), d1, d2. split_and!; [done|done| |].
  - eapply reuse_or_create_one_more; [|exact Hx]. by rewrite Hq.
  - intros k Hmac. unfold maybe_get_or_create_device in Hdev. rewrite Hmac in Hdev.
    apply bind_Ok in Hdev as (dv & d3 & Hdv & Hd). injection Hd as <- <-. exists (device_id dv). split; [done|].
    intros own Hown. destruct mac as [[|c l]|]; [done| |done]. injection Hmac as <-.
    eapply device_own; [|exact Hu|exact Hdv|exact Hown]. done.
Qed.

(** A sign-in that made a guest drew a new key. *)
Lemma open_session_new now ks org location router s mac known tier m ip v r d d' :
  open_session now ks None org location router s mac known tier m ip v d = (Ok r, d') →
  get_guest_by_id (guest_id r.1) d = None.
Proof.
  intros H. unfold open_session, get_or_create_guest in H.
  apply bind_Ok in H as ((g1 & n) & d2 & H1 & H). apply bind_Ok in H1 as (g2 & d3 & Hc & H1).
  injection H1 as <- <- <-. cbn [fst snd] in H. cbv zeta in H.
  apply bind_Ok in H as (? & ? & _ & H). apply bind_Ok in H as ((? & ?) & ? & _ & H).
  apply bind_Ok in H as (? & ? & _ & H). apply bind_Ok in H as (? & ? & _ & H). injection H as <- _.
  unfold create_guest in Hc. erewrite bind_step in Hc by (unfold gets; reflexivity). cbv beta in Hc.
  rewrite raise_if_bind in Hc. destruct (_ || _) eqn:Eor; [done|]. injection Hc as <- _.
  apply orb_false_iff in Eor as [Eor _]. by apply bool_decide_eq_false, dec_stable in Eor.
Qed.
Lemma found_guest_org org s d g : get_guest_by_identifier org s d = Some g → guest_org g = org.
Proof.
  unfold get_guest_by_identifier. set (rows := select _ (guests d)). intros E.
  assert (g ∈ rows) as Hin.
  { destruct (least first_seen_at (select _ rows)) as [z|] eqn:Ez.
    - injection E as ->. apply least_Some in Ez as [Ez _]. by apply elem_of_select in Ez as [? _].
    - by apply least_Some in E as [? _]. }
  apply elem_of_select in Hin as [_ Hin]. apply andb_true_iff in Hin as [Hin _]. by apply bool_decide_eq_true in Hin.
Qed.

(** C15: after a sign-in of a guest the venue knows - by code, by password or by
    device - the guest has no more active sessions than the concurrency limit
    that holds for them, and, if the device is known by its MAC address, no
    more devices in those sessions than their device limit. *)
Theorem sign_in_respects_limits now ks c g x d d' : keyed (sessions d) → get_guest_by_id (guest_id g) d ≠ None →
  run_sign_in now ks c d = (Ok (g, x), d') →
  count_active_sessions_for_guest (guest_id g) d' ≤ concurrency_limit (guest_id g) (guest_org g) (at_location c)
  ∧ (given (from_mac c) ≠ None →
     count_active_devices_for_guest (guest_id g) None d'
       ≤ device_limit (guest_id g) (guest_org g) (at_location c)
           (aruba_access_tier policy_lookup nas_only (at_router c) (guest_org g) (at_location c) (guest_id g))).
Proof.
  intros Hk Hknown (org & s & m & ip & a & d1 & Hg & H)%sign_in_Ok.
  pose proof Hg as (Hp & Ha & _)%gates_Ok.
  destruct (get_guest_by_identifier org s d) as [g'|] eqn:E.
  2: { exfalso. apply Hknown. apply open_session_new in H. cbn in H. unfold get_guest_by_id in *.
       by injection Hp as <- _ _. }
  pose proof (found_guest_org _ _ _ _ E) as Horg.
  subst org. assert (keyed (sessions d1)) as Hk1 by (by injection Hp as _ _ ->).
  assert (up_to_date (from_mac c) a.2 d1) as Hu.
  { rewrite Ha. unfold up_to_date, known_device, get_device_by_mac. by injection Hp as _ -> _. }
  destruct (open_session_one_more _ _ _ _ _ _ _ _ _ _ _ _ _ _ _ _ Hk1 Hu H)
    as (Hr & dev & d2 & d3 & Hs2 & Hs3 & Hmore & Hdev).
  cbn in Hr. subst g'.
  assert (may_enter now (guest_id g) (at_router c) (guest_org g) (at_location c) (from_mac c) d) as [_ Hcount Hdevs _].
  { apply (proj1 (gates_iff now (Some g) (guest_org g) (at_location c) (at_router c) (from_mac c) d)); [|done].
    by exists a, d1. }
  assert (sessions d2 = sessions d) as Hsd by (rewrite Hs2; by injection Hp).
  unfold count_active_sessions_for_guest, count_active_devices_for_guest, active_devices_for_guest,
    list_active_sessions_for_guest in *. rewrite <-Hs3, <-Hsd in *. split.
  - destruct Hmore as [Hmore _]. unfold count_active_sessions_for_guest in Hmore. lia.
  - intros Hmac. destruct (given (from_mac c)) as [k|] eqn:Ek; [|done]. destruct (Hdev k eq_refl) as (j & -> & Hj).
    pose proof (one_more_devices (guest_id g) j (own_device (guest_id g) k d) d2 d3 Hmore) as Hle.
    specialize (Hdevs k eq_refl).
    unfold count_active_devices_for_guest, active_devices_for_guest, list_active_sessions_for_guest in Hle.
    assert (∀ j0, own_device (guest_id g) k d = Some j0 → j = j0) as Hown.
    { intros j0 Hj0. apply Hj. unfold own_device, get_device_by_mac in *. by injection Hp as _ -> _. }
    specialize (Hle Hown). lia.
Qed.

(** ** Coming back after a termination *)
Definition never_waits {A} (m : op A) : Prop := ∀ d n, (m d).1 ≠ Raise (SessionTerminationCooldownError n).
Lemma never_waits_bind {A B} (m : op A) (f : A → op B) :
  never_waits m → (∀ a, never_waits (f a)) → never_waits (m ≫= f).
Proof.
  intros Hm Hf d n H. destruct (m d) as [[a|e] d1] eqn:E.
  - erewrite bind_step in H by exact E. by apply (Hf a d1 n).
  - erewrite bind_stop in H by exact E. apply (Hm d n). rewrite E. cbn in *. by injection H as ->.
Qed.
Lemma never_waits_raise_if b e : (∀ n, e ≠ SessionTerminationCooldownError n) → never_waits (raise_if b e).
Proof. intros He d n. unfold raise_if. destruct b; [|done]. intros [= H]. by apply (He n). Qed.
Lemma never_waits_access now c location s mac m guest already :
  never_waits (enforce_access_control now c location s mac m guest already).
Proof.
  intros d n. unfold enforce_access_control.
  destruct (GuestAccess.enforce_access_control _ _ _ _ _ _ _ _).1 as [|[]]; try done; by destruct (whitelist_only_enabled c).
Qed.
Lemma never_waits_device now id g m known : never_waits (get_or_create_device now id g m known).
Proof.
  unfold get_or_create_device. cbv zeta. apply never_waits_bind; [by destruct known; intros ? ?|]. intros [dev|]; [by intros ? ?|].
  apply never_waits_bind; [done|]. intros b. apply never_waits_bind; [by apply never_waits_raise_if|by intros ? ? ?].
Qed.

Lemma reconnect_from_never_waits now ks g router location mac ip :
  never_waits (reconnect_from now ks g router location mac ip).
Proof.
  unfold reconnect_from. apply never_waits_bind; [done|]. intros latest.
  apply never_waits_bind; [by destruct latest|]. intros prior. case_bool_decide; [done|].
  apply never_waits_bind; [by apply never_waits_raise_if|]. intros _. apply never_waits_bind.
  { destruct (resolve_portal_config _ _); [|done].
    apply never_waits_bind; [by apply never_waits_raise_if|intros _; apply never_waits_access]. }
  intros _. apply never_waits_bind.
  { apply never_waits_bind; [by destruct (router_status router)|]. intros st.
    apply never_waits_bind; [by apply never_waits_raise_if|by intros ? ? ?]. }
  intros r. apply never_waits_bind.
  { destruct (given mac); [|done]. apply never_waits_bind; [apply never_waits_device|by intros ? ? ?]. }
  intros dev. apply never_waits_bind; [|by intros ? ? ?]. apply never_waits_bind; [done|]. intros taken.
  apply never_waits_bind; [by apply never_waits_raise_if|by intros ? ? ?].
Qed.

(** A guest whose session was terminated cannot reconnect before the
    cooldown is over, and the refusal says how long that is: after so many
    minutes they are not refused for it, and a minute less would be too
    early (or, at the very moment, just in time); once it is over no
    reconnection is refused for the cooldown. *)
Theorem terminated_guest_waits now ks guest router location requesting mac ip d g x e :
  require_guest guest requesting d = (Ok g, d) → is_blocked g = false →
  get_latest_terminated_session_for_guest (guest_id g) d = Some x → ended_at x = Some e →
  let until := e + minutes TERMINATION_RECONNECT_COOLDOWN_MINUTES in
  (now < until → ∃ n,
     reconnect now ks guest router location requesting mac ip d = (Raise (SessionTerminationCooldownError n), d)
     ∧ 1 ≤ n ∧ now + minutes (n - 1) ≤ until
     ∧ ∀ later k, now + minutes n ≤ later →
         (reconnect later ks guest router location requesting mac ip d).1 ≠ Raise (SessionTerminationCooldownError k))
  ∧ (until ≤ now → ∀ k,
     (reconnect now ks guest router location requesting mac ip d).1 ≠ Raise (SessionTerminationCooldownError k)).
Proof.
  intros Hg Hb Hx He until.
  assert (∀ t, reconnect t ks guest router location requesting mac ip d =
    (raise_if (t <? until) (SessionTerminationCooldownError (Z.max ((until - t) / minutes 1 + 1) 1))
       ≫= λ _, reconnect_from t ks g router location mac ip) d) as Heq.
  { intros t. unfold reconnect. erewrite bind_step by exact Hg. cbn [reject_if_blocked]. rewrite raise_if_bind, Hb.
    erewrite bind_step by (unfold gets; reflexivity). cbv beta. rewrite Hx.
    unfold cooldown_until. cbn [mbind option_bind]. by rewrite He. }
  assert (∀ t, until ≤ t → ∀ k,
    (reconnect t ks guest router location requesting mac ip d).1 ≠ Raise (SessionTerminationCooldownError k)) as Hafter.
  { intros t Ht k. rewrite Heq, raise_if_bind. apply Z.ltb_ge in Ht. rewrite Ht. apply reconnect_from_never_waits. }
  split; [|apply Hafter]. intros Hnow. exists (Z.max ((until - now) / minutes 1 + 1) 1).
  rewrite Heq, raise_if_bind. apply Z.ltb_lt in Hnow as Hlt. rewrite Hlt.
  assert (0 ≤ (until - now) / minutes 1) by (apply Z.div_pos; unfold minutes; lia).
  pose proof (Z.mul_div_le (until - now) (minutes 1)) as Hlo.
  pose proof (Z.mul_succ_div_gt (until - now) (minutes 1)) as Hhi.
  assert (0 < minutes 1) as Hpos by (unfold minutes; lia). specialize (Hlo Hpos). specialize (Hhi Hpos).
  rewrite Z.max_l by lia. unfold minutes in *. split_and!; [done|lia|lia|].
  intros later k Hlater. apply Hafter. lia.
Qed.
End login.

(** ** Witnesses *)
Module examples.
#[local] Existing Instance ascii_only.
(** A venue that is always open and takes codes by SMS; the code is 1234. *)
Definition portal : PortalConfig := mk_config 10 [OTP_SMS] false false (u "UTC") [].
Definition zones (_ : pystr) : option zone := None.
Definition nowhere (_ : uuid) : option bool := None.
Definition clock (_ : pystr) : option Z := None.
Definition no_rules : GuestAccess.database := GuestAccess.mk_database [] [] [] ∅.
Definition config (_ _ : option uuid) : option PortalConfig := Some portal.
Definition online (_ : uuid) : option RouterStatus := Some ONLINE.
Definition right_code (_ code : pystr) : bool := bool_decide (code = u "1234").
Definition no_password (_ : uuid) (_ : pystr) : bool := false.
Definition known : Guest := mk_guest 50 10 (Some 20%positive) (u "+14155550100") 0 0 1 false None.
(** A session that an administrator ended at the first minute. *)
Definition old : GuestSession :=
  mk_session 1 50 None 60 20 10 OTP_SMS None TERMINATED 0 (Some (minutes 1)) 0 None 0 0 None (Some 240) (Some 30)
    None None.
Definition d : database := mk_database [known] [] [old] [] [].
Definition ks : keys := mk_keys 100 101 102.
Definition phone : option pystr := Some (u "aa:bb:cc:dd:ee:ff").
Definition by_code (now : datetime) (raw : pystr) : op (Guest * GuestSession) :=
  login_via_otp zones ∅ None nowhere None clock no_rules config online right_code now ks raw (u "1234") OTP_SMS
    None 20 60 phone None.

Lemma otp_sign_in_accepts_iff_witness :
  fresh ks d ∧ succeeds (by_code (minutes 90) (u "+14155550100")) d.
Proof.
  assert (fresh ks d) as Hf by done. split; [exact Hf|].
  apply (otp_sign_in_accepts_iff zones ∅ None nowhere None clock no_rules config online right_code no_password
    (minutes 90) ks (u "+14155550100") (u "1234") OTP_SMS None 20 60 phone None d Hf).
  split; [left|]. exists portal. split; [done|]. split; [left|]. split; [done|]. split.
  { intros g Hg. assert (g = known) as -> by (vm_compute in Hg; by injection Hg).
    split; [done|]. split; [by intros t h [=]|by vm_compute|by intros m [= <-]; vm_compute|].
    by eexists tt, _. }
  split; [by vm_compute|]. split; [by vm_compute|]. split; [by exists ONLINE|]. split; [by vm_compute|].
  intros H. by vm_compute in H.
Defined.

Lemma sign_in_respects_limits_witness :
  ∃ g x d', run_sign_in zones ∅ None nowhere None clock no_rules config online right_code no_password (minutes 90) ks
      (ByCode (u "+14155550100") (u "1234") OTP_SMS None 20 60 phone None) d = (Ok (g, x), d')
    ∧ count_active_sessions_for_guest (guest_id g) d' = 1
    ∧ count_active_devices_for_guest (guest_id g) None d' ≤ 3.
Proof.
  eexists _, _, _. split; [by vm_compute|]. split; [by vm_compute|].
  eapply (sign_in_respects_limits zones ∅ None nowhere None clock no_rules config online right_code no_password (minutes 90) ks
      (ByCode (u "+14155550100") (u "1234") OTP_SMS None 20 60 phone None) known _ d);
    [apply (bool_decide_unpack _); by vm_compute|done|by vm_compute|done].
Defined.

Lemma terminated_guest_waits_witness :
  let back now := reconnect zones clock no_rules config online None now ks 50 60 20 None None None in
  (∃ n, back (minutes 30) d = (Raise (SessionTerminationCooldownError n), d) ∧ 1 ≤ n)
  ∧ ∀ k, (back (minutes 61) d).1 ≠ Raise (SessionTerminationCooldownError k).
Proof.
  split.
  - destruct (terminated_guest_waits zones clock no_rules config online None (minutes 30) ks 50 60 20 None None None d
      known old (minutes 1)) as [H _]; [done..|]. destruct H as (n & H & Hn & _); [by vm_compute|]. by exists n.
  - by apply (terminated_guest_waits zones clock no_rules config online None (minutes 61) ks 50 60 20 None None None d
      known old (minutes 1)).
Defined.

(** A guest who was terminated half an hour ago and may not reconnect signs in
    again at once. *)
Lemma termination_does_not_keep_out :
  (reconnect zones clock no_rules config online None (minutes 30) ks 50 60 20 None None None d).1
    = Raise (SessionTerminationCooldownError 32)
  ∧ succeeds (by_code (minutes 30) (u "+14155550100")) d.
Proof. split; [by vm_compute|]. eexists _, _. by vm_compute. Qed.

(** A name with a space is stored with it and looked up without it: the guest
    who came by it once is not found again, and cannot be created again. *)
Lemma formatted_name_is_lost :
  ∃ r d', by_code (minutes 1) (u "Room 12") (mk_database [] [] [] [] []) = (Ok r, d')
    ∧ identifier r.1 = u "Room 12" ∧ get_guest_by_identifier 10 (u "Room 12") d' = None
    ∧ (login_via_otp zones ∅ None nowhere None clock no_rules config online right_code (minutes 2)
         (mk_keys 200 201 202) (u "Room 12") (u "1234") OTP_SMS None 20 60 None None d').1 = Raise DuplicateRecordError.
Proof. eexists _, _. split; [by vm_compute|]. by vm_compute. Qed.
End examples.

End GuestLogin.
