(* ===== verification/GuestOnline.v ===== *)
(** Guests who are online: RADIUS accounting, and the sweep of the venues
    that are open to their list only.

    [src/backend/app/domains/guest/service.py]: which session an accounting
    packet speaks of ([_get_session_for_nas]), what an interim update and a
    stop write ([RadiusService]), and
    [enforce_whitelist_only_online_guests].  An accounting start confirms a
    session in columns nothing here reads; on and off are
    [close_sessions_for_nas_restart] of [GuestSession.v]. *)

From stdpp Require sorting.
From S2P Require Import Prelude Table Session PyStr Rbac Tenancy Calendar Policy.
From S2P Require Import Guest GuestSession GuestQuota GuestAccess GuestLogin.

Module GuestOnline.
Import Guest GuestSession GuestQuota GuestLogin.

(** ** [GuestRepository.list_sessions_for_guest]: the latest first. *)
Definition later (x y : GuestSession) : Prop := started_at y ≤ started_at x.
#[export] Instance later_dec : RelDecision later := λ x y, decide (started_at y ≤ started_at x).
Definition list_sessions_for_guest (g : uuid) (n : database) : list GuestSession :=
  sorting.merge_sort later (select (of_guest g) (sessions n)).

Section radius.
Context {PU : PyUnicode}.

(** ** Which session *)
Definition RADIUS_ACCOUNTING_DEVICE_MATCH_SCAN_LIMIT : nat := 20.
Definition upper_hex (c : N) : bool := ascii_digit c || ((65 <=? c) && (c <=? 70))%N.
Definition canonical_mac_key (raw : pystr) : option pystr :=
  let h := List.filter (λ c, negb ((c =? 58) || (c =? 45) || (c =? 46)))%N (upper (strip raw)) in
  if (length h =? 12)%nat && forallb upper_hex h then Some h else None.
(** The devices of a guest of an organization that go by a key. *)
Definition devices_by_key (g org : uuid) (key : pystr) (d : database) : list uuid :=
  map device_id
    (select (λ x, bool_decide (device_guest x = g)
               && match get_guest_by_id g d with Some gu => bool_decide (guest_org gu = org) | None => false end
               && bool_decide (canonical_mac_key (mac_address x) = Some key)) (devices d)).
Definition session_for_calling_station (g org router : uuid) (station : option pystr) (d : database) :
    option GuestSession :=
  match s ← station; canonical_mac_key s with
  | None => None
  | Some wanted =>
      List.find (λ x, bool_decide (session_router x = router)
                 && match session_device x with
                    | Some k => bool_decide (k ∈ devices_by_key g org wanted d)
                    | None => false
                    end) (take RADIUS_ACCOUNTING_DEVICE_MATCH_SCAN_LIMIT (list_sessions_for_guest g d))
  end.
(** The router that reports: its organization, and whether it is reached as a
    RADIUS client only. *)
Variable nas_router : uuid → option (uuid * bool).
Definition get_session_for_nas (nas : uuid) (username : pystr) (station : option pystr) : op GuestSession :=
  r ← of_option (nas_router nas) CollaboratorError;
  found ← gets (λ d,
    g ← get_guest_by_identifier r.1 (GuestAccess.normalize_identifier username) d;
    if is_blocked g && negb r.2 then None
    else
      x ← get_latest_session_for_guest (guest_id g) d;
      if bool_decide (session_router x = nas)
      then Some (default x (session_for_calling_station (guest_id g) r.1 nas station d))
      else None);
  of_option found GuestSessionNotFoundError.

(** ** [accounting_interim_update]: totals are turned into what is new *)
Definition interim_delta (delta : Z) (total : option N) (recorded : Z) : Z :=
  match total with Some n => Z.max 0 (Z.of_N n - recorded) | None => delta end.
Section interim.
Variables (zones : pystr → option zone) (timezones : gmap uuid pystr) (policy_lookup : option Policy.database)
  (nas_only : uuid → option bool) (term : option terminator) (nas_only_usage_cut_dispatcher : bool).
Definition accounting_interim_update (now : datetime) (nas : uuid) (username : pystr) (station : option pystr)
    (up down : Z) (up_total down_total : option N) : op GuestSession :=
  x ← get_session_for_nas nas username station;
  record_usage zones timezones policy_lookup nas_only term nas_only_usage_cut_dispatcher now (session_id x)
    (interim_delta up up_total (bytes_uploaded x)) (interim_delta down down_total (bytes_downloaded x)).
End interim.

(** ** [accounting_stop]: the totals are written as they are *)
Definition stop_total (keep_recorded : bool) (total : option N) (recorded : Z) : Z :=
  match total with
  | None => recorded
  | Some n => if keep_recorded then Z.max (Z.of_N n) recorded else Z.of_N n
  end.
Definition stopped (keep_recorded : bool) (up down : option N) (x : GuestSession) : GuestSession :=
  with_bytes (stop_total keep_recorded up (bytes_uploaded x)) (stop_total keep_recorded down (bytes_downloaded x)) x.
Definition stop_reason (why : option pystr) : pystr :=
  match why with Some (c :: s) => c :: s | _ => u "radius_accounting_stop" end.
Definition keeps_recorded (nas : uuid) : bool := match nas_router nas with Some r => r.2 | None => false end.
Definition accounting_stop (term : option terminator) (scope : option (list uuid)) (now : datetime) (nas : uuid)
    (username : pystr) (station : option pystr) (up down : option N) (why : option pystr) : op GuestSession :=
  x ← get_session_for_nas nas username station;
  y ← match up, down with
      | None, None => mret x
      | _, _ => update_session x (stopped (keeps_recorded nas) up down)
      end;
  if is_active y then disconnect_session term scope now (session_id y) None (Some (stop_reason why)) true
  else mret y.

(** ** [enforce_whitelist_only_online_guests] *)
Definition WHITELIST_ONLY_DISCONNECT_REASON : pystr := u "whitelist_only".
Definition session_mac_address (x : GuestSession) (d : database) : option pystr :=
  k ← session_device x; dev ← get_device_by_id k d; Some (mac_address dev).
(** With the organization of the session as the caller's, no decision
    raises. *)
Definition would_refuse (access : GuestAccess.database) (now : datetime) (org location : uuid) (s : pystr)
    (mac : option pystr) : bool :=
  match (GuestAccess.check_access now org (Some org) (Some location) (Some s) mac true access).1 with
  | Ok a =>
      negb (GuestAccess.allowed a)
      && (negb (GuestAccess.is_whitelist_only_denial a)
          || GuestAccess.whitelist_only_refusal_stands now org (Some location) mac false access)
  | Raise _ => false
  end.
Section sweep.
Variables (access : GuestAccess.database) (resolve_portal_config : option uuid → option uuid → option PortalConfig)
  (term : option terminator) (now : datetime).
Definition end_unlisted_sessions_for_guest (org location g : uuid) : op (list GuestSession) :=
  row ← gets (get_guest_by_id g);
  match row with
  | None => mret []
  | Some gu =>
      rows ← gets (list_active_sessions_for_guest g);
      collect (λ x,
        mac ← gets (session_mac_address x);
        if would_refuse access now org location (identifier gu) mac then
          y ← update_session x (with_status TERMINATED (Some now) (Some WHITELIST_ONLY_DISCONNECT_REASON));
          r ← issue_live_disconnect term false y;
          mret (Some r.1)
        else mret None) (List.filter (λ x, bool_decide (session_location x = location)) rows)
  end.
(** [_live_venues_with_configs]: a venue is resolved for the first pair that
    names it; one that does not resolve is skipped. *)
Definition venue_config (pairs : list (uuid * uuid * uuid)) (location : uuid) : option PortalConfig :=
  p ← List.find (λ p, bool_decide (p.2 = location)) pairs; resolve_portal_config (Some p.1.2) (Some location).
Definition closed_to_others (pairs : list (uuid * uuid * uuid)) (location : uuid) : bool :=
  match venue_config pairs location with Some c => whitelist_only_enabled c | None => false end.
Fixpoint end_unlisted (all pairs : list (uuid * uuid * uuid)) : op (list GuestSession) :=
  match pairs with
  | [] => mret []
  | (g, org, location) :: pairs =>
      l ← (if closed_to_others all location then end_unlisted_sessions_for_guest org location g else mret []);
      rest ← end_unlisted all pairs;
      mret (l ++ rest)
  end.
Definition enforce_whitelist_only_online_guests : op (list GuestSession) :=
  pairs ← gets list_active_guest_org_pairs;
  end_unlisted pairs pairs.
End sweep.

(** ** Finding a session only reads *)
Lemma list_sessions_In g d x : x ∈ list_sessions_for_guest g d ↔ x ∈ sessions d ∧ session_guest x = g.
Proof.
  unfold list_sessions_for_guest. rewrite (sorting.merge_sort_Permutation later), elem_of_select. unfold of_guest.
  by rewrite bool_decide_eq_true.
Qed.
Lemma get_session_for_nas_reads nas s station : reads (get_session_for_nas nas s station).
Proof.
  apply reads_bind; [apply reads_of_option|]. intros r. apply reads_bind; [apply reads_gets|]. intros x. apply reads_of_option.
Qed.
Lemma get_session_for_nas_Ok nas s station d x d' : get_session_for_nas nas s station d = (Ok x, d') →
  d' = d ∧ x ∈ sessions d.
Proof.
  intros H. split; [by eapply reads_Ok; [exact H|apply get_session_for_nas_reads]|].
  unfold get_session_for_nas in H. rewrite of_option_bind in H. destruct (nas_router nas) as [r|]; [|done].
  erewrite bind_step in H by (unfold gets; reflexivity).
  destruct (get_guest_by_identifier _ _ d) as [g|]; cbn [mbind option_bind] in H; [|done].
  destruct (is_blocked g && negb r.2); [done|]. destruct (get_latest_session_for_guest (guest_id g) d) as [y|] eqn:Hy; [|done].
  cbn [mbind option_bind] in H. case_bool_decide; [|done]. injection H as <- _.
  assert (y ∈ sessions d) as Hin.
  { unfold get_latest_session_for_guest in Hy. apply least_Some in Hy as [Hy _]. by apply elem_of_select in Hy as [Hy _]. }
  unfold session_for_calling_station. destruct (s0 ← station; canonical_mac_key s0) as [key|]; [|done].
  match goal with |- default _ (List.find ?q ?l) ∈ _ => destruct (List.find q l) as [z|] eqn:Hz; [|done] end.
  apply List.find_some in Hz as [Hz _]. apply list_elem_of_In, elem_of_take in Hz as (i & Hz & _).
  apply list_elem_of_lookup_2, list_sessions_In in Hz as [Hz _]. exact Hz.
Qed.

(** ** What a stop does to the sessions *)
(** All but the byte counts moves as ever. *)
Record session_drift (x y : GuestSession) : Prop := {
  drift_anchor : anchor x = anchor y;
  drift_life : rtc life (status x) (status y);
  drift_final : ended x = true → with_bytes 0 0 (with_enforced false x) = with_bytes 0 0 (with_enforced false y);
}.
#[export] Instance session_drift_preorder : PreOrder session_drift.
Proof.
  split; [by split|]. intros x y z [A1 L1 F1] [A2 L2 F2]. split; [congruence|by etrans|].
  intros He. rewrite (F1 He). apply F2. specialize (F1 He).
  assert (status x = status y) as Hs by (by apply (f_equal status) in F1). unfold ended in *. by rewrite <-Hs.
Qed.
Lemma session_step_drift x y : session_step x y → session_drift x y.
Proof. intros [A L _ _ F]. split; [done..|]. intros He. by rewrite (F He). Qed.
Definition no_less (x y : GuestSession) : Prop :=
  bytes_uploaded x ≤ bytes_uploaded y ∧ bytes_downloaded x ≤ bytes_downloaded y.
#[export] Instance no_less_preorder : PreOrder no_less.
Proof. unfold no_less. split; [done|]. intros x y z. lia. Qed.

(** [evolves], with a relation of one's own. *)
Definition evolving (R : relation GuestSession) (d d' : database) : Prop :=
  ∀ k x, get_session_by_id k d = Some x → ∃ y, get_session_by_id k d' = Some y ∧ R x y.
#[export] Instance evolving_preorder (R : relation GuestSession) : PreOrder R → PreOrder (evolving R).
Proof.
  intros HR. split; [intros d k x Hx; by exists x|]. intros d1 d2 d3 H12 H23 k x Hx.
  destruct (H12 k x Hx) as (y & Hy & Hxy). destruct (H23 k y Hy) as (z & Hz & Hyz). exists z. split; [done|by etrans].
Qed.
Lemma evolving_mono (R R' : relation GuestSession) d d' : (∀ x y, R x y → R' x y) → evolving R d d' → evolving R' d d'.
Proof. intros HR H k x Hx. destruct (H k x Hx) as (y & Hy & Hxy). exists y. auto. Qed.
Lemma evolving_written (R : relation GuestSession) `{!Reflexive R} y x d : keyed (sessions d) → x ∈ sessions d →
  session_id y = session_id x → R x y → evolving R d (written y x d).
Proof.
  intros Hk Hx Hid HR k z Hz. destruct (decide (k = session_id x)) as [->|Hne].
  - exists y. split; [by apply written_get|]. assert (get_session_by_id (session_id x) d = Some x) as E by (by apply by_id_unique).
    rewrite E in Hz. by injection Hz as <-.
  - exists z. split; [|done]. unfold get_session_by_id, written in *. cbn [sessions set_sessions].
    assert (∀ r, row_id ((λ r, if bool_decide (session_id r = session_id x) then y else r) r) = row_id r) as Hrow.
    { intros r. cbv beta. case_bool_decide as E; [change (session_id y = session_id r); congruence|done]. }
    unfold set_row. rewrite (update_ext _ (has_id (session_id x)) _ (λ r, if bool_decide (session_id r = session_id x) then y else r)).
    + rewrite by_id_update by done. rewrite Hz. cbn. apply by_id_Some in Hz as [_ Hz]. unfold has_id.
      change (row_id z) with (session_id z) in *. by rewrite bool_decide_false by congruence.
    + intros r _. unfold has_id. change (row_id r) with (session_id r). by case_bool_decide.
Qed.
Lemma written_same x d : keyed (sessions d) → x ∈ sessions d → written x x d = d.
Proof.
  intros Hk Hx. unfold written. transitivity (set_sessions (λ t, t) d); [|by destruct d].
  unfold set_sessions. f_equal. unfold set_row, update. rewrite <-(map_id (sessions d)) at 2. apply map_ext_in.
  intros r Hr%list_elem_of_In. unfold has_id. case_bool_decide as E; [|done]. by apply (NoDup_map_eq session_id (sessions d)).
Qed.
Lemma stopped_nothing keep x : stopped keep None None x = x.
Proof. by destruct x. Qed.
Lemma stop_cases term scope now nas s station up down why d y d' : keyed (sessions d) →
  accounting_stop term scope now nas s station up down why d = (Ok y, d') →
  ∃ x, get_session_for_nas nas s station d = (Ok x, d) ∧ x ∈ sessions d
  ∧ let d1 := written (stopped (keeps_recorded nas) up down x) x d in
    (d' = d1 ∨ disconnect_session term scope now (session_id x) None (Some (stop_reason why)) true d1 = (Ok y, d')).
Proof.
  intros Hk H. unfold accounting_stop in H. apply bind_Ok in H as (x & d1 & Hget & H).
  destruct (get_session_for_nas_Ok _ _ _ _ _ _ Hget) as [-> Hx]. exists x. split_and!; [done..|]. cbv zeta.
  assert ((match up, down with
           | None, None => mret x
           | _, _ => update_session x (stopped (keeps_recorded nas) up down)
           end : op GuestSession) d
          = (Ok (stopped (keeps_recorded nas) up down x), written (stopped (keeps_recorded nas) up down x) x d)) as Hw.
  { destruct up, down; try by apply update_session_eq. rewrite stopped_nothing, written_same by done. done. }
  erewrite bind_step in H by exact Hw. destruct (is_active _); [by right|]. left. by injection H.
Qed.
Lemma stopped_settled keep up down now x d : settled now d → x ∈ sessions d →
  settled now (written (stopped keep up down x) x d).
Proof.
  intros Hd Hx. split; [apply written_keyed; [apply Hd|done]|]. unfold written. cbn [sessions set_sessions].
  intros z (r & Hr & ->)%elem_of_update. destruct (has_id (session_id x) r); [|by apply Hd].
  destruct (proj2 Hd x Hx) as [A B C D E F]. split; try done; cbn; unfold stop_total; repeat case_match; lia.
Qed.
Lemma stop_settled term scope now nas s station up down why d y d' : settled now d →
  accounting_stop term scope now nas s station up down why d = (Ok y, d') → settled now d'.
Proof.
  intros Hd H. apply stop_cases in H as (x & _ & Hx & H); [|apply Hd]. cbv zeta in H. set (d1 := written _ x d) in *.
  assert (settled now d1) as Hd1 by by apply stopped_settled.
  destruct H as [->|H]; [done|]. by apply disconnect_sound in H as [? _].
Qed.
Lemma stop_evolving (R : relation GuestSession) `{!PreOrder R} term scope now nas s station up down why d y d' : settled now d →
  accounting_stop term scope now nas s station up down why d = (Ok y, d') →
  (∀ x x', session_step x x' → R x x') → (∀ x, R x (stopped (keeps_recorded nas) up down x)) → evolving R d d'.
Proof.
  intros Hd H HR Hst. apply stop_cases in H as (x & _ & Hx & H); [|apply Hd]. cbv zeta in H.
  set (d1 := written _ x d) in *.
  assert (evolving R d d1) as H1 by (apply evolving_written; [typeclasses eauto|apply Hd|done..]).
  destruct H as [->|H]; [done|]. etrans; [exact H1|]. apply (evolving_mono session_step); [done|].
  assert (settled now d1) as Hd1 by by apply stopped_settled.
  by apply disconnect_sound in H as [_ ?].
Qed.
Lemma stopped_no_less up down x : no_less x (stopped true up down x).
Proof. split; cbn; unfold stop_total; case_match; lia. Qed.

End radius.

(** ** The sweep is sound *)
Section sweep_sound.
Context {PU : PyUnicode}.
Variables (access : GuestAccess.database) (resolve_portal_config : option uuid → option uuid → option PortalConfig)
  (term : option terminator) (now : datetime).
Lemma unlisted_run org location g d : keyed (sessions d) → ∃ l d',
  end_unlisted_sessions_for_guest access term now org location g d = (Ok l, d') ∧ sound now d d'.
Proof.
  intros Hk. unfold end_unlisted_sessions_for_guest. erewrite bind_step by (unfold gets; reflexivity).
  destruct (get_guest_by_id g d) as [gu|]; [|by eexists _, _].
  erewrite bind_step by (unfold gets; reflexivity).
  set (q := λ x, of_guest g x && is_active x && bool_decide (session_location x = location)).
  assert (List.filter (λ x, bool_decide (session_location x = location)) (list_active_sessions_for_guest g d)
          = select q (sessions d)) as ->.
  { unfold list_active_sessions_for_guest, select. unfold q. clear Hk.
    induction (sessions d) as [|x t IH]; [done|]. cbn [List.filter]. rewrite <-IH. destruct (of_guest g x && is_active x); [|done].
    cbn [List.filter andb]. done. }
  set (p := λ x, would_refuse access now org location (identifier gu) (session_mac_address x d)).
  set (f := λ x, cut term false (with_status TERMINATED (Some now) (Some WHITELIST_ONLY_DISCONNECT_REASON))
                   (get_guest_by_id (session_guest x) d) x).
  rewrite (session_sweep q p f); [| |intros x; by apply cut_id|].
  - eexists _, _. split; [done|]. apply sound_update; [intros x; by apply cut_id|]. intros x _ Hx.
    unfold q in Hx. bools. apply advances_cut; [|set_solver]. apply active_ends; [|set_solver]. by unfold is_active.
  - done.
  - intros x d' _ Ho Hx Hd'. erewrite bind_step by (unfold gets; reflexivity).
    assert (session_mac_address x d' = session_mac_address x d) as ->.
    { unfold session_mac_address, get_device_by_id, others in *. by injection Ho as _ -> _ _. }
    fold (p x). destruct (p x); [|done]. rewrite write_then_disconnect by done. cbn.
    assert (get_guest_by_id (session_guest x) d' = get_guest_by_id (session_guest x) d) as ->; [|done].
    unfold others, get_guest_by_id in *. by injection Ho as -> _ _ _.
Qed.
Lemma end_unlisted_sound all pairs : ∀ d, sound now d (end_unlisted access resolve_portal_config term now all pairs d).2.
Proof.
  induction pairs as [|[[g org] location] pairs IH]; intros d; [done|]. cbn [end_unlisted].
  intros Hd.
  assert (∃ l d', (if closed_to_others resolve_portal_config all location
                   then end_unlisted_sessions_for_guest access term now org location g else mret []) d = (Ok l, d')
                  ∧ sound now d d') as (l & d1 & Hrun & H1).
  { destruct (closed_to_others _ _ _); [apply unlisted_run, Hd|by eexists _, _]. }
  erewrite bind_step by exact Hrun. revert Hd. refine (transitivity (R:=sound now) H1 _). specialize (IH d1).
  destruct (end_unlisted _ _ _ _ all pairs d1) as [[rest|e] d2] eqn:E.
  - by erewrite bind_step by exact E.
  - by erewrite bind_stop by exact E.
Qed.
Lemma whitelist_sweep_sound d : sound now d (enforce_whitelist_only_online_guests access resolve_portal_config term now d).2.
Proof. unfold enforce_whitelist_only_online_guests. erewrite bind_step by (unfold gets; reflexivity). apply end_unlisted_sound. Qed.
End sweep_sound.
End GuestOnline.
