(* ===== verification/GuestRequests.v ===== *)
(** Histories of the guest network.

    The operations that write the modelled columns of a session or a quota
    counter, one after the other and each in a transaction of its own, as the
    requests of [src/backend/app/domains/guest/router.py] and the periodic
    tasks of [tasks.py] run them: sign-ins by code, password and device,
    reconnections, the operations on a session, the sweeps, the reports of
    traffic, RADIUS accounting, the accrual of connected time and the reset of
    quota periods.  Sign-ins by voucher and PIN, which open a session the way
    the others do, the sessions ended when a blocklist rule is written
    ([guest_access/enforcement.py]), and the late notes of a session's device
    and address are left out.  What the other domains answer - policies, access
    rules, routers, portals, verifications - may change from one request to
    the next. *)

From S2P Require Import Prelude Table Session PyStr Rbac Tenancy Calendar Policy.
From S2P Require Import Guest GuestSession GuestQuota GuestAccess GuestLogin GuestOnline.

Module GuestRequests.
Import Calendar Guest GuestSession GuestQuota GuestLogin GuestOnline.

Section requests.
Context {PU : PyUnicode}.

(** ** What a request finds *)
Record environment := mk_env {
  zones : pystr → option zone;
  timezones : gmap uuid pystr;
  policy_lookup : option Policy.database;
  nas_only : uuid → option bool;
  team_quota : option (uuid → database → bool);
  parse_time : pystr → option Z;
  access : GuestAccess.database;
  resolve_portal_config : option uuid → option uuid → option PortalConfig;
  router_status : uuid → option RouterStatus;
  verify_otp : pystr → pystr → bool;
  verify_guest_password : uuid → pystr → bool;
  scope : option (list uuid);
  term : option terminator;
  activity_reporting : option venue_lookup;
  activity_reads : option read_lookup;
  nas_only_usage_cut_dispatcher : bool;
  access_tier_lookup : bool;
  connected_since_lookup : bool;
  nas_router : uuid → option (uuid * bool);
}.

Inductive command :=
| SignIn (ks : keys) (c : sign_in)
| Reconnect (ks : keys) (guest router location : uuid) (requesting : option uuid) (mac ip : option pystr)
| Block (guest : uuid) (requesting : option uuid) (why : option pystr)
| Unblock (guest : uuid) (requesting : option uuid)
| Disconnect (k : uuid) (requesting : option uuid) (reason : option pystr) (already : bool)
| Terminate (k : uuid) (requesting : option uuid) (reason : option pystr)
| Pause (k : uuid) (requesting : option uuid) (reason : option pystr)
| Resume (k : uuid) (requesting : option uuid)
| Extend (k : uuid) (m : Z) (requesting : option uuid)
| DisconnectOwn (guest k : uuid) (reason : option pystr)
| EnforceTimeouts
| NasRestarted (router : uuid) (reason : pystr)
| RefreshActivity (router : uuid) (last_heard : gmap pystr datetime)
| ReconcilePresence (router : uuid) (macs : list pystr) (grace : Z)
| CloseVenue (location org : uuid)
| EnforceWhitelist
| ReportUsage (k : uuid) (up down : Z)
| AccountingInterim (nas : uuid) (username : pystr) (station : option pystr) (up down : Z) (up_total down_total : option N)
| AccountingStop (nas : uuid) (username : pystr) (station : option pystr) (up down : option N) (why : option pystr)
| AccrueTime
| ResetQuotas.

Record request := mk_request { env : environment; at_time : datetime; what : command }.

Definition ignore {A} (m : op A) : op unit := _ ← m; mret tt.
Definition handle (r : request) : op unit :=
  let e := env r in let now := at_time r in
  match what r with
  | SignIn ks c =>
      ignore (run_sign_in (zones e) (timezones e) (policy_lookup e) (nas_only e) (team_quota e) (parse_time e)
                (access e) (resolve_portal_config e) (router_status e) (verify_otp e) (verify_guest_password e)
                now ks c)
  | Reconnect ks guest router location requesting mac ip =>
      ignore (reconnect (zones e) (parse_time e) (access e) (resolve_portal_config e) (router_status e) (scope e)
                now ks guest router location requesting mac ip)
  | Block guest requesting why => ignore (block_guest (scope e) guest requesting why)
  | Unblock guest requesting => ignore (unblock_guest (scope e) guest requesting)
  | Disconnect k requesting reason already =>
      ignore (disconnect_session (term e) (scope e) now k requesting reason already)
  | Terminate k requesting reason => ignore (terminate_session (term e) (scope e) now k requesting reason)
  | Pause k requesting reason => ignore (pause_session (term e) (scope e) k requesting reason)
  | Resume k requesting => ignore (resume_session (scope e) now k requesting)
  | Extend k m requesting => ignore (extend_session (scope e) now k m requesting)
  | DisconnectOwn guest k reason => ignore (disconnect_own_session (term e) now guest k reason)
  | EnforceTimeouts => ignore (enforce_session_timeouts (term e) now (activity_reporting e) (activity_reads e))
  | NasRestarted router reason => ignore (close_sessions_for_nas_restart now router reason)
  | RefreshActivity router heard => ignore (refresh_session_activity_from_router now router heard)
  | ReconcilePresence router macs grace =>
      ignore (reconcile_sessions_with_router_presence now router macs grace)
  | CloseVenue location org => ignore (end_sessions_at_location (term e) now location org)
  | EnforceWhitelist =>
      ignore (enforce_whitelist_only_online_guests (access e) (resolve_portal_config e) (term e) now)
  | AccountingInterim nas s station up down up_total down_total =>
      ignore (accounting_interim_update (nas_router e) (zones e) (timezones e) (policy_lookup e) (nas_only e) (term e)
                (nas_only_usage_cut_dispatcher e) now nas s station up down up_total down_total)
  | AccountingStop nas s station up down why =>
      ignore (accounting_stop (nas_router e) (term e) (scope e) now nas s station up down why)
  | ReportUsage k up down =>
      ignore (record_usage (zones e) (timezones e) (policy_lookup e) (nas_only e) (term e)
                (nas_only_usage_cut_dispatcher e) now k up down)
  | AccrueTime =>
      match policy_lookup e with
      | None => mret tt
      | Some pdb =>
          ignore (run_fup_time_accrual (zones e) (timezones e) (policy_lookup e) (nas_only e) (term e)
                    (access_tier_lookup e) (connected_since_lookup e) pdb now)
      end
  | ResetQuotas => ignore (run_quota_reset (zones e) (timezones e) now)
  end.
Definition requests : list request → database → database := transactions handle.

(** ** Sessions over a history *)
Lemma ignore_Ok {A} (m : op A) d d' : ignore m d = (Ok tt, d') → ∃ a, m d = (Ok a, d').
Proof. intros (a & d1 & Ha & H)%bind_Ok. injection H as <-. by exists a. Qed.

Section quota.
Variable e : environment.
Variable now : datetime.
Abbreviation record_usage := (record_usage (zones e) (timezones e) (policy_lookup e) (nas_only e) (term e)
  (nas_only_usage_cut_dispatcher e)).
Abbreviation run_fup_time_accrual := (run_fup_time_accrual (zones e) (timezones e) (policy_lookup e) (nas_only e)
  (term e) (access_tier_lookup e) (connected_since_lookup e)).

Lemma same_sessions_sound d d' : sessions d' = sessions d → sound now d d'.
Proof.
  intros Hs [Hk Hw]. split; [split; rewrite Hs; [done|auto]|]. intros k x Hx. exists x. split; [|done].
  unfold get_session_by_id in *. by rewrite Hs.
Qed.
Lemma record_usage_sound k up down d : sound now d (record_usage now k up down d).2.
Proof.
  intros Hd. pose proof (proj1 Hd) as Hk. destruct (get_session_by_id k d) as [x|] eqn:Hx.
  2: { unfold GuestQuota.record_usage. erewrite bind_step by (unfold gets; reflexivity). by rewrite Hx, of_option_bind. }
  rewrite (record_usage_eq _ _ _ _ _ _ _ _ _ _ x) by done. unfold is_active. case_bool_decide as Ha; [|done].
  cbv zeta. pose proof (by_id_session _ _ _ Hx) as [Hin Hid].
  assert (sound now d (written (used up down now x) x d)) as H1 by (apply sound_written; [done|by apply advances_used]).
  destruct (track_frame (zones e) (timezones e) (policy_lookup e) (nas_only e) (session_guest x) (session_org x)
    (session_location x) (reported up down) now (tier_of (policy_lookup e) (nas_only e) x (reported up down))
    (written (used up down now x) x d)) as (v & d2 & Hrun & Hb & _).
  erewrite bind_step by exact Hrun.
  assert (sessions d2 = sessions (written (used up down now x) x d)) as Hs by (unfold besides in Hb; by injection Hb).
  assert (get_session_by_id k d2 = Some (used up down now x)) as Hy.
  { unfold get_session_by_id. rewrite Hs, <-Hid. by apply written_get. }
  refine (transitivity (R:=sound now) H1 (transitivity (R:=sound now) (same_sessions_sound _ d2 Hs) _) Hd). intros Hd2.
  pose proof (by_id_session _ _ _ Hy) as [Hyin _].
  destruct (settle_writes (nas_only e) (term e) (nas_only_usage_cut_dispatcher e) now (used up down now x) v d2
    (proj1 Hd2) Hyin Ha) as (z & d3 & -> & [->|(-> & Hz & _)]); [by split|].
  revert Hd2. by apply sound_written.
Qed.
Lemma quota_reset_sound d : sound now d (run_quota_reset (zones e) (timezones e) now d).2.
Proof.
  apply same_sessions_sound.
  assert (respects (λ d d' : database, sessions d' = sessions d) (run_quota_reset (zones e) (timezones e) now)) as H;
    [|apply H].
  apply respects_bind; [apply quiet_preorder|apply respects_gets, quiet_preorder|]. intros rows.
  apply respects_bind; [apply quiet_preorder| |intros; apply respects_ret, quiet_preorder].
  induction rows as [|x rows IH]; [apply respects_ret, quiet_preorder|]. cbn [collect].
  apply respects_bind; [apply quiet_preorder| |].
  - case_match; [|by intros d0]. by intros d0.
  - intros o. apply respects_bind; [apply quiet_preorder|exact IH|intros; by intros d0].
Qed.

(** The accrual of connected time: only the cut of the sessions of a guest
    over the cap changes sessions. *)
Lemma quiet_get_or_reset g org p tz :
  quiet (get_or_reset_quota_usage (zones e) g org p tz now).
Proof.
  apply quiet_bind; [apply quiet_reads, reads_gets|]. intros [x|]; unfold current_usage; [|by intros d].
  case_match; by intros d.
Qed.
Lemma quiet_accrue_loop g org tz since limits ps : ∀ v n,
  quiet (accrue_loop (zones e) g org tz now since limits ps v n).
Proof.
  induction ps as [|p ps IH]; intros v n; [apply quiet_reads, reads_ret|]. cbn [accrue_loop].
  apply quiet_bind; [apply quiet_get_or_reset|]. intros x. cbv zeta. apply quiet_bind; [|intros y; apply IH].
  case_match; [by intros d|apply quiet_reads, reads_ret].
Qed.
Definition timed_up (p : QuotaPeriodType) (d : database) (x : GuestSession) : GuestSession :=
  cut (term e) false (with_status EXPIRED (Some now) (Some (time_reason p)))
    (get_guest_by_id (session_guest x) d) x.
Lemma cut_over_cap p g d : keyed (sessions d) →
  collect (λ x, y ← update_session x (with_status EXPIRED (Some now) (Some (time_reason p)));
                r ← issue_live_disconnect (term e) false y; mret (Some r.1))
    (list_active_sessions_for_guest g d) d
  = (Ok (map (timed_up p d) (select (λ x, (of_guest g x && is_active x) && true) (sessions d))),
     set_sessions (update (λ x, (of_guest g x && is_active x) && true) (timed_up p d)) d).
Proof.
  intros Hd. apply (session_sweep _ (λ _, true) (timed_up p d)); [done| |].
  - intros x. by apply cut_id.
  - intros x d' _ Ho Hx Hd'. rewrite write_then_disconnect by done. cbn.
    assert (get_guest_by_id (session_guest x) d' = get_guest_by_id (session_guest x) d) as ->; [|done].
    unfold others, get_guest_by_id in *. by injection Ho as -> _ _ _.
Qed.
Lemma accrue_guest_sound pdb k d a d' :
  accrue_guest (zones e) (timezones e) (policy_lookup e) (nas_only e) (term e) (access_tier_lookup e)
    (connected_since_lookup e) pdb now k d = (Ok a, d') → sound now d d'.
Proof.
  destruct k as [[g org] ls]. cbn [accrue_guest]. cbv zeta. intros H.
  eapply quiet_then; [apply quiet_reads, strictest_limits_reads|exact H|]. clear H. intros limits d1 _ H. cbv beta in H.
  destruct (negb _); [by injection H as <- <-|].
  eapply quiet_then; [apply quiet_reads, reads_gets|exact H|]. clear H. intros since d2 _ H. cbv beta in H.
  assert (since = SkipTimeAccrual ∨ (r ← accrue_loop (zones e) g org (get_organization_timezone (timezones e) org)
      now since limits period_types None 0;
     match r.1 with
     | None => mret (r.2, 0)
     | Some p =>
         rows ← gets (list_active_sessions_for_guest g);
         l ← collect (λ x,
               y ← update_session x (with_status EXPIRED (Some now) (Some (time_reason p)));
               r ← issue_live_disconnect (term e) false y;
               mret (Some r.1)) rows;
         mret (r.2, Z.of_nat (length l))
     end) d2 = (Ok a, d')) as [->|H'] by (destruct since; auto); [by injection H as <- <-|]. clear H.
  eapply quiet_then; [apply quiet_accrue_loop|exact H'|]. clear H'. intros [[p|] n] d3 _ H; cbv beta in H; cbn [fst snd] in H.
  2: by injection H as <- <-.
  erewrite bind_step in H by (unfold gets; reflexivity). intros Hd.
  erewrite bind_step in H by (apply cut_over_cap, Hd). injection H as <- <-. revert Hd. apply sound_update.
  - intros x. by apply cut_id.
  - intros x _ Hx. apply advances_cut; [|set_solver]. apply active_ends; [by bools|set_solver].
Qed.
Lemma time_accrual_sound pdb d a d' : run_fup_time_accrual pdb now d = (Ok a, d') → sound now d d'.
Proof.
  intros H. unfold GuestQuota.run_fup_time_accrual in H. erewrite bind_step in H by (unfold gets; reflexivity).
  cbv beta in H. revert H. generalize (locations_by_guest (list_active_guest_org_pairs d)). intros l. revert d a.
  induction l as [|k l IH]; intros d a H; [by injection H as <- <-|]. cbn [accrue_guests] in H.
  apply bind_Ok in H as (x & d1 & Hx & H). apply bind_Ok in H as (y & d2 & Hy & H). injection H as <- <-.
  exact (transitivity (accrue_guest_sound pdb k d x d1 Hx) (IH d1 y Hy)).
Qed.
End quota.

Definition is_stop (c : command) : bool := match c with AccountingStop _ _ _ _ _ _ => true | _ => false end.
Lemma handle_sound r d d' : is_stop (what r) = false → handle r d = (Ok tt, d') → sound (at_time r) d d'.
Proof.
  intros Hstop.
  assert (∀ A (m : op A) d a d' (P : database → Prop), m d = (Ok a, d') → P (m d).2 → P d') as Hsnd.
  { intros A m d0 a d1 P H HP. by rewrite H in HP. }
  destruct r as [e now []]; cbn [handle env at_time what] in *; try discriminate Hstop.
  - intros ([g x] & H)%ignore_Ok. destruct c; cbn [run_sign_in] in H.
    + by eapply login_via_otp_sound.
    + by eapply login_via_password_sound.
    + by eapply login_via_mac_sound.
  - intros (x & H)%ignore_Ok. by eapply reconnect_sound.
  - intros (x & H)%ignore_Ok. eapply quiet_sound; [|exact H].
    apply quiet_bind; [apply quiet_reads, require_guest_reads|by intros g d0].
  - intros (x & H)%ignore_Ok. eapply quiet_sound; [|exact H].
    apply quiet_bind; [apply quiet_reads, require_guest_reads|by intros g d0].
  - intros (x & H)%ignore_Ok. by eapply disconnect_sound.
  - intros (x & H)%ignore_Ok. by eapply terminate_sound.
  - intros (x & H)%ignore_Ok. by eapply pause_sound.
  - intros (x & H)%ignore_Ok. by eapply resume_sound.
  - intros (x & H)%ignore_Ok. by eapply extend_sound.
  - intros (x & H)%ignore_Ok. by eapply disconnect_own_sound.
  - intros (x & H)%ignore_Ok. eapply Hsnd; [exact H|apply timeouts_sound].
  - intros (x & H)%ignore_Ok. eapply Hsnd; [exact H|apply nas_restart_sound].
  - intros (x & H)%ignore_Ok. eapply Hsnd; [exact H|apply refresh_sound].
  - intros (x & H)%ignore_Ok. eapply Hsnd; [exact H|apply presence_sound].
  - intros (x & H)%ignore_Ok. eapply Hsnd; [exact H|apply closing_sound].
  - intros (x & H)%ignore_Ok. eapply Hsnd; [exact H|apply whitelist_sweep_sound].
  - intros (x & H)%ignore_Ok. eapply Hsnd; [exact H|apply record_usage_sound].
  - intros (x & H)%ignore_Ok. unfold accounting_interim_update in H. apply bind_Ok in H as (z & d1 & Hz & H).
    destruct (get_session_for_nas_Ok _ _ _ _ _ _ _ Hz) as [-> _].
    eapply Hsnd; [exact H|apply record_usage_sound].
  - destruct (policy_lookup e) as [pdb|] eqn:E; [|by intros [= <-]].
    intros (x & H)%ignore_Ok. rewrite <-E in H. by eapply time_accrual_sound.
  - intros (x & H)%ignore_Ok. eapply Hsnd; [exact H|apply quota_reset_sound].
Qed.

(** Requests in the order of the clock, up to [t']. *)
Fixpoint chronological (t : datetime) (rs : list request) (t' : datetime) : Prop :=
  match rs with
  | [] => t ≤ t'
  | r :: rs => t ≤ at_time r ∧ chronological (at_time r) rs t'
  end.
Lemma settled_later t t' d : t ≤ t' → settled t d → settled t' d.
Proof. intros Ht [Hk Hw]. split; [done|]. intros x Hx. by apply (well_formed_later t), Hw. Qed.
(** What a stop writes keeps to [R]. *)
Definition stops_within (R : relation GuestSession) (r : request) : Prop :=
  match what r with
  | AccountingStop nas _ _ up down _ => ∀ x, R x (stopped (keeps_recorded (nas_router (env r)) nas) up down x)
  | _ => True
  end.
Section along.
Variable R : relation GuestSession.
Context `{!PreOrder R}.
Hypothesis R_step : ∀ x x', session_step x x' → R x x'.
Lemma handle_evolving r d d' : settled (at_time r) d → stops_within R r → handle r d = (Ok tt, d') →
  settled (at_time r) d' ∧ evolving R d d'.
Proof.
  intros Hd Hw H. destruct (is_stop (what r)) eqn:Hs.
  - destruct r as [e now []]; try discriminate Hs. unfold handle in H. cbn [env at_time what] in *.
    apply ignore_Ok in H as [y H]. split; [by eapply stop_settled|]. by eapply stop_evolving.
  - destruct (handle_sound r d d' Hs H Hd) as [Hd' He]. split; [done|]. by apply (evolving_mono session_step).
Qed.
Lemma history_evolving rs : ∀ t t' d, chronological t rs t' → settled t d → (∀ r, r ∈ rs → stops_within R r) →
  settled t' (requests rs d) ∧ evolving R d (requests rs d).
Proof.
  induction rs as [|r rs IH]; intros t t' d Hc Hd Hw; cbn in Hc.
  - split; [by apply (settled_later t)|]. intros k x Hx. by exists x.
  - destruct Hc as [Ht Hc]. apply (settled_later _ (at_time r)) in Hd; [|done].
    assert (settled (at_time r) (transact handle r d) ∧ evolving R d (transact handle r d)) as [Hd1 He1].
    { destruct (transact_cases handle r d) as [->|H]; [split; [done|]; intros k x Hx; by exists x|].
      apply handle_evolving; [exact Hd|apply Hw; left|exact H]. }
    destruct (IH (at_time r) t' (transact handle r d) Hc Hd1) as [Hd2 He2]; [intros q Hq; apply Hw; by right|].
    split; [exact Hd2|]. exact (transitivity He1 He2).
Qed.
End along.
Lemma history_drift rs t t' d : chronological t rs t' → settled t d →
  settled t' (requests rs d) ∧ evolving session_drift d (requests rs d).
Proof.
  intros Hc Hd. apply (history_evolving session_drift session_step_drift rs t t' d Hc Hd). intros r _. unfold stops_within.
  by destruct (what r).
Qed.

(** C14: whatever requests and sweeps run, in the order of the clock, every
    session stays well formed: it has an end exactly when its status is one
    of the three that end it, its byte counts are not negative, and it was
    started no later than it was last active, which is no later than its end
    and no later than now; and no two sessions share a key. *)
Theorem sessions_stay_well_formed rs t t' d : chronological t rs t' → settled t d →
  keyed (sessions (requests rs d)) ∧ ∀ x, x ∈ sessions (requests rs d) → well_formed t' x.
Proof. intros Hc Hd. by apply (history_drift rs t t' d). Qed.

(** A request that is not a RADIUS stop, or is one that writes no totals, or
    one of a router that is reached as a RADIUS client only. *)
Definition stop_without_totals (r : request) : Prop :=
  match what r with AccountingStop _ _ _ up down _ => up = None ∧ down = None | _ => True end.
Definition stop_keeps_recorded (r : request) : Prop :=
  match what r with AccountingStop nas _ _ _ _ _ => keeps_recorded (nas_router (env r)) nas = true | _ => True end.
Lemma without_totals_step r : stop_without_totals r → stops_within session_step r.
Proof.
  unfold stop_without_totals, stops_within. destruct (what r); try done. intros [-> ->] x. by rewrite stopped_nothing.
Qed.
Lemma kept_no_less r : stop_without_totals r ∨ stop_keeps_recorded r → stops_within no_less r.
Proof.
  unfold stop_without_totals, stop_keeps_recorded, stops_within. destruct (what r); try done.
  intros [[-> ->]| ->] x; [by rewrite stopped_nothing|apply stopped_no_less].
Qed.

(** C4: a session is never lost, never changes its guest, venue, router or
    start, and its status moves only along the transition table; once it has
    ended nothing about it changes any more but its byte counts and the note
    whether the router was told.  The counts are written over by the totals
    of a RADIUS stop, also on a session that has ended; they never go down
    where every stop is without totals or of a router that is reached as a
    RADIUS client only, and are final with the session where no stop has
    totals. *)
Theorem sessions_end_once rs t t' d k x : chronological t rs t' → settled t d →
  get_session_by_id k d = Some x →
  ∃ y, get_session_by_id k (requests rs d) = Some y
    ∧ (session_guest y, session_router y, session_location y, session_org y, started_at y)
      = (session_guest x, session_router x, session_location x, session_org x, started_at x)
    ∧ rtc (λ s s', s' ∈ GUEST_SESSION_STATUS_TRANSITIONS s) (status x) (status y)
    ∧ (status x ∈ [DISCONNECTED; EXPIRED; TERMINATED] →
       with_bytes 0 0 (with_enforced false y) = with_bytes 0 0 (with_enforced false x))
    ∧ ((∀ r, r ∈ rs → stop_without_totals r ∨ stop_keeps_recorded r) →
       bytes_uploaded x ≤ bytes_uploaded y ∧ bytes_downloaded x ≤ bytes_downloaded y)
    ∧ ((∀ r, r ∈ rs → stop_without_totals r) → status x ∈ [DISCONNECTED; EXPIRED; TERMINATED] →
       with_enforced false y = with_enforced false x).
Proof.
  intros Hc Hd Hx. destruct (history_drift rs t t' d Hc Hd) as [_ He].
  destruct (He k x Hx) as (y & Hy & [Ha Hl Hf]). exists y. split_and!; try done.
  - unfold anchor in Ha. congruence.
  - intros Hs. symmetry. apply Hf. by apply bool_decide_eq_true.
  - intros Hall. destruct (history_evolving no_less (λ x x' H, conj (step_up _ _ H) (step_down _ _ H)) rs t t' d Hc Hd) as [_ H].
    { intros r Hr. by apply kept_no_less, Hall. }
    destruct (H k x Hx) as (z & Hz & ?). rewrite Hy in Hz. by injection Hz as <-.
  - intros Hall Hs. destruct (history_evolving session_step (λ _ _ H, H) rs t t' d Hc Hd) as [_ H].
    { intros r Hr. by apply without_totals_step, Hall. }
    destruct (H k x Hx) as (z & Hz & [_ _ _ _ Hfin]). rewrite Hy in Hz. injection Hz as <-. symmetry. apply Hfin.
    by apply bool_decide_eq_true.
Qed.

(** ** The pace of connected time *)

(** Walks an operation that writes no counter but through the operations
    proved in [GuestQuota]. *)
Lemma paced_sessions f : preserves (S:=database) (E:=error) all_paced (modify (set_sessions f)).
Proof. by intros d. Qed.
Ltac paced :=
  repeat match goal with
  | |- ∀ _, _ => intros ?
  | |- preserves _ (ignore _) => unfold ignore
  | |- preserves _ (_ ≫= _) => apply preserves_bind
  | |- preserves _ (mret _) => apply preserves_ret
  | |- preserves _ (raise _) => apply preserves_raise
  | |- preserves _ (raise_if _ _) => apply preserves_raise_if
  | |- preserves _ (of_option _ _) => apply preserves_of_option
  | |- preserves _ (gets _) => apply preserves_gets
  | |- preserves _ (collect _ _) => apply collect_paced
  | |- preserves _ (get_session _ _ _) => unfold get_session
  | |- preserves _ (update_session _ _) => apply update_session_paced
  | |- preserves _ (issue_live_disconnect _ _ _) => apply live_disconnect_paced
  | |- preserves _ (enforce_fup_quota _ _ _ _ _ _ _ _ _) => apply (fup_gate_paced _ _ _ (λ _, None))
  | |- preserves _ (modify _) => by intros ?
  | |- preserves _ (if ?b then _ else _) => destruct b
  | |- preserves _ (match ?x with _ => _ end) => destruct x
  | |- preserves _ (let _ := _ in _) => cbv zeta
  end.
Lemma open_session_paced e now ks existing org location router s mac known tier m ip v :
  preserves all_paced (open_session (policy_lookup e) (nas_only e) now ks existing org location router s mac known tier m ip v).
Proof.
  unfold open_session, get_or_create_guest, create_guest, maybe_get_or_create_device, get_or_create_device,
    create_device, update_device, reuse_or_create_session, create_session, bump_guest_visit, update_guest,
    record_login, create_login_history. paced.
Qed.
Lemma gates_paced e now existing org location router mac :
  preserves all_paced (gates (zones e) (timezones e) (policy_lookup e) (nas_only e) (team_quota e) (parse_time e)
    (router_status e) now existing org location router mac).
Proof.
  unfold gates, known_guest_gates, enforce_access_tier_login_hours, enforce_concurrent_session_limit,
    enforce_device_limit, get_eligible_router. paced.
Qed.
Lemma access_control_paced e now c location s mac m guest already :
  preserves all_paced (enforce_access_control (access e) now c location s mac m guest already).
Proof. unfold enforce_access_control, record_login, create_login_history. paced. Qed.
Lemma require_method_paced e org location m now :
  preserves all_paced (require_method_enabled (zones e) (parse_time e) (resolve_portal_config e) org location m now).
Proof. unfold require_method_enabled, require_venue_open. paced. Qed.
Lemma timeout_loop_paced e now l : ∀ venues reads,
  preserves all_paced (timeout_loop (term e) now (activity_reporting e) (activity_reads e) l venues reads).
Proof.
  induction l as [|x l IH]; intros venues reads; [apply preserves_ret|]. cbn [timeout_loop].
  destruct (ask_venue _ _ _) as [ans venues']. try destruct (ask_router _ _ _) as [ans' reads'].
  unfold expire_stale. paced; apply IH.
Qed.
Lemma end_unlisted_paced e now all l :
  preserves all_paced (end_unlisted (access e) (resolve_portal_config e) (term e) now all l).
Proof.
  induction l as [|[[g org] location] l IH]; [apply preserves_ret|]. cbn [end_unlisted].
  unfold end_unlisted_sessions_for_guest. paced; apply IH.
Qed.
Ltac paced' :=
  paced;
  first [apply access_control_paced|apply require_method_paced|apply gates_paced|apply open_session_paced
        |apply end_unlisted_paced|apply record_usage_paced|apply time_accrual_paced|apply quota_reset_paced|apply timeout_loop_paced].
Lemma sign_in_paced e now ks c :
  preserves all_paced (run_sign_in (zones e) (timezones e) (policy_lookup e) (nas_only e) (team_quota e) (parse_time e)
    (access e) (resolve_portal_config e) (router_status e) (verify_otp e) (verify_guest_password e) now ks c).
Proof.
  destruct c; cbn [run_sign_in]; unfold login_via_otp, login_via_password, login_via_mac_whitelist, require_venue_open,
    reject_if_blocked, record_login, create_login_history; paced'.
Qed.
Lemma reconnect_paced e now ks guest router location requesting mac ip :
  preserves all_paced (reconnect (zones e) (parse_time e) (access e) (resolve_portal_config e) (router_status e)
    (scope e) now ks guest router location requesting mac ip).
Proof.
  unfold reconnect, reconnect_from, require_guest, reject_if_blocked, require_venue_open, get_eligible_router,
    get_or_create_device, create_device, update_device, create_session, bump_guest_visit, update_guest; paced'.
Qed.
Lemma handle_paced r : preserves all_paced (handle r).
Proof.
  destruct r as [e now []]; unfold handle; cbn [env at_time what]; cbv zeta; unfold ignore.
  1: apply preserves_bind; [apply sign_in_paced|intros; apply preserves_ret].
  1: apply preserves_bind; [apply reconnect_paced|intros; apply preserves_ret].
  all: unfold block_guest, unblock_guest, require_guest, update_guest, disconnect_session, terminate_session,
    pause_session, resume_session, extend_session, disconnect_own_session, validate_session_status_transition,
    enforce_session_timeouts, close_sessions_for_nas_restart, refresh_session_activity_from_router,
    reconcile_sessions_with_router_presence, end_sessions_at_location, enforce_whitelist_only_online_guests,
    accounting_interim_update, accounting_stop, get_session_for_nas, disconnect_session, validate_session_status_transition; paced'.
Qed.

(** Over any history the connected time charged to a guest in a period is
    never negative and never more than what has passed between the start of
    the period and the last charge. *)
Theorem connected_minutes_fit rs d g p x : all_paced d → get_quota_usage g p (requests rs d) = Some x →
  0 ≤ minutes_used x
  ∧ minutes (minutes_used x) ≤ default (period_start x) (last_accrued_at x) - period_start x.
Proof.
  intros Hd. revert x. revert g p. unfold requests.
  assert (all_paced (transactions handle rs d)) as H; [|exact H].
  revert d Hd. induction rs as [|r rs IH]; intros d Hd; [done|]. cbn [transactions]. apply IH.
  destruct (transact_cases handle r d) as [->|H]; [done|]. pose proof (handle_paced r d Hd) as Hp. by rewrite H in Hp.
Qed.
End requests.

(** ** Witnesses *)
Module examples.
#[local] Existing Instance ascii_only.
Import GuestLogin.examples.
(** The venue of [GuestLogin.examples], where everyone has ten minutes of
    network a day. *)
Definition pdb : Policy.database :=
  Policy.mk_database [Policy.mk_policy 1 None Policy.FUP true (Some 2%positive)]
    [Policy.mk_version 2 1 1 Policy.PUBLISHED (list_to_map [(u "daily_time_limit_minutes", Policy.Int 10)]) (Some 0)]
    [Policy.mk_assignment 3 1 Scope.GLOBAL None Policy.NONE None 0 true 0]
    [Policy.mk_organization 10 None] [Policy.mk_location 20 10] [] [] [].
Definition now_and_then : environment :=
  mk_env zones ∅ (Some pdb) nowhere None clock no_rules config online right_code no_password None None None None
    false false false (λ _, Some (10%positive, false)).
Definition request_at (t : datetime) (c : command) : request := mk_request now_and_then t c.

(** In by code, some traffic, a quarter of an hour of connected time. *)
Definition day : list request :=
  [request_at (minutes 90) (SignIn ks (ByCode (u "+14155550100") (u "1234") OTP_SMS None 20 60 phone None));
   request_at (minutes 95) (ReportUsage 102 1000 2000);
   request_at (minutes 105) AccrueTime;
   request_at (minutes 106) (Extend 102 30 None)].
Lemma start_settled : settled (minutes 80) d.
Proof.
  split; [apply (bool_decide_unpack _); by vm_compute|]. intros x Hx. unfold d in Hx. cbn [sessions] in Hx.
  apply list_elem_of_singleton in Hx as ->. split; cbn; unfold minutes; try lia; [done|]. intros e [= <-]. lia.
Qed.

Lemma sessions_stay_well_formed_witness :
  map status (sessions (requests day d)) = [TERMINATED; EXPIRED]
  ∧ keyed (sessions (requests day d))
  ∧ ∀ x, x ∈ sessions (requests day d) → well_formed (minutes 106) x.
Proof.
  split; [by vm_compute|]. apply (sessions_stay_well_formed day (minutes 80) (minutes 106) d); [by vm_compute|].
  exact start_settled.
Defined.
Lemma sessions_end_once_witness :
  ∃ y, get_session_by_id 1 (requests day d) = Some y ∧ with_enforced false y = with_enforced false old.
Proof.
  destruct (sessions_end_once day (minutes 80) (minutes 106) d 1 old) as (y & Hy & _ & _ & _ & _ & Hf);
    [by vm_compute|exact start_settled|by vm_compute|]. exists y. split; [exact Hy|]. apply Hf; [|by right; right; left].
  unfold day. intros r Hr. rewrite !elem_of_cons in Hr.
  destruct Hr as [->|[->|[->|[->|Hr%not_elem_of_nil]]]]; [exact I..|contradiction].
Defined.
(** In by code, some traffic, and out: the router reports an interim total and
    then the totals of the stop. *)
Definition leaving (up down : N) : list request :=
  take 2 day
  ++ [request_at (minutes 96) (AccountingInterim 60 (u " +14155550100") (Some (u "AA-BB-CC-DD-EE-FF")) 0 0 (Some 1500%N) (Some 2500%N));
      request_at (minutes 97) (AccountingStop 60 (u "+14155550100") None (Some up) (Some down) None)].
(** The totals of a stop replace the counts, be they lower. *)
Lemma stop_lowers_the_counts :
  (λ x, (status x, bytes_uploaded x, bytes_downloaded x)) <$> get_session_by_id 102 (requests (take 3 (leaving 1200 2600)) d)
    = Some (ACTIVE, 1500, 2500)
  ∧ (λ x, (status x, bytes_uploaded x, bytes_downloaded x)) <$> get_session_by_id 102 (requests (leaving 1200 2600) d)
    = Some (DISCONNECTED, 1200, 2600).
Proof. by split; vm_compute. Qed.
Lemma connected_minutes_fit_witness :
  ∃ x, get_quota_usage 50 DAILY (requests day d) = Some x ∧ minutes_used x = 105
    ∧ minutes (minutes_used x) ≤ default (period_start x) (last_accrued_at x) - period_start x.
Proof.
  eexists. split; [by vm_compute|]. split; [by vm_compute|].
  eapply (connected_minutes_fit day d 50 DAILY); [|by vm_compute]. intros g p x H. by vm_compute in H.
Defined.
End examples.

End GuestRequests.
