(* ===== verification/GuestMeter.v ===== *)
(** What the quota counters count.

    Over any history of the guest network ([GuestRequests.v]) that stays
    within one quota period of one guest, the data counter of that period
    moves by exactly the bytes that the guest's sessions carried, but for
    those that the totals of RADIUS stops put on a session
    ([src/backend/app/domains/guest/service.py]: [record_usage] writes both,
    [accounting_stop] the session only, every other operation neither). *)

From S2P Require Import Prelude Table Session PyStr Rbac Tenancy Calendar Policy.
From S2P Require Import Guest GuestSession GuestQuota GuestAccess GuestLogin GuestOnline GuestRequests.

Module GuestMeter.
Import Calendar Guest GuestSession GuestQuota GuestLogin GuestOnline GuestRequests.

Section meter.
Context {PU : PyUnicode}.
(** A guest of an organization, the kind of period and its start, and the
    locations the requests are about. *)
Variables (g org : uuid) (p : QuotaPeriodType) (start : datetime) (places : list uuid).

(** The rows agree on whose guest this is. *)
Record ours (d : database) : Prop := {
  ours_known : get_guest_by_id g d ≠ None;
  ours_guest : ∀ gu, gu ∈ guests d → guest_id gu = g → guest_org gu = org;
  ours_keyed : keyed (sessions d);
  ours_sessions : ∀ x, x ∈ sessions d → session_guest x = g → session_org x = org ∧ session_location x ∈ places;
  ours_usages : usages_keyed d;
  ours_usage : ∀ x, x ∈ usages d → usage_guest x = g → usage_org x = org;
}.
Definition metered (d d' : database) : Prop := ours d → ours d' ∧ accounts g p start d d'.
#[local] Instance metered_preorder : PreOrder metered.
Proof.
  split; [intros d Hd; split; [done|unfold accounts; lia]|].
  intros d1 d2 d3 H12 H23 H1. destruct (H12 H1) as [H2 A12]. destruct (H23 H2) as [H3 A23].
  split; [done|]. unfold accounts in *. lia.
Qed.

(** ** Rows of sessions *)
(** What a session's new version must keep. *)
Definition meter (x : GuestSession) := (session_id x, session_guest x, session_org x, session_location x, total_bytes x).
Lemma carried_update q f d : (∀ x, meter (f x) = meter x) →
  carried g (set_sessions (update q f) d) = carried g d.
Proof.
  intros Hf. unfold carried. cbn [sessions set_sessions]. unfold select, update.
  induction (sessions d) as [|x t IH]; [done|]. cbn [map List.filter].
  set (y := if q x then f x else x). assert (meter y = meter x) as Hy by (unfold y; by destruct (q x)).
  unfold meter in Hy. injection Hy as _ Hg _ _ Hb. assert (of_guest g y = of_guest g x) as -> by (unfold of_guest; by rewrite Hg).
  destruct (of_guest g x); cbn [foldr]; rewrite IH; [by rewrite Hb|done].
Qed.
Lemma metered_sessions q f d : (∀ x, meter (f x) = meter x) → metered d (set_sessions (update q f) d).
Proof.
  intros Hf [Hn Hg Hk Hs Hu Ho].
  assert (∀ x, session_id (f x) = session_id x) as Hid by (intros x; specialize (Hf x); by injection Hf).
  split; [split; try done|].
  - cbn [sessions set_sessions]. unfold keyed. by rewrite map_update.
  - cbn [sessions set_sessions]. intros y (x & Hx & ->)%elem_of_update Hy.
    assert (meter (if q x then f x else x) = meter x) as Hm by (by destruct (q x)).
    unfold meter in Hm. injection Hm as _ Hg' -> -> _. apply Hs; [done|]. by rewrite <-Hg'.
  - unfold accounts. rewrite carried_update by done. change (counted g p start (set_sessions (update q f) d)) with (counted g p start d). lia.
Qed.
Lemma metered_insert x d : get_session_by_id (session_id x) d = None →
  (session_guest x = g → session_org x = org ∧ session_location x ∈ places) → total_bytes x = 0 →
  metered d (set_sessions (insert_row x) d).
Proof.
  intros Hno Hx Hz [Hn Hg Hk Hs Hu Ho]. split; [split; try done|].
  - by apply keyed_insert.
  - cbn [sessions set_sessions]. intros y [Hy| ->%list_elem_of_singleton]%elem_of_app; [by apply Hs|done].
  - unfold accounts, carried. change (counted g p start (set_sessions (insert_row x) d)) with (counted g p start d).
    cbn [sessions set_sessions]. unfold insert_row. rewrite select_app, foldr_app.
    assert (foldr (λ x n, total_bytes x + n) 0 (select (of_guest g) [x]) = 0) as ->; [|lia].
    unfold select. cbn. unfold total_bytes in *. destruct (of_guest g x); cbn; lia.
Qed.

(** ** Counters *)
Lemma metered_usages f d :
  (∀ x, usage_guest (f x) = usage_guest x ∧ usage_org (f x) = usage_org x ∧ period_type (f x) = period_type x
        ∧ period_start (f x) = period_start x ∧ bytes_used (f x) = bytes_used x) →
  ∀ q, metered d (set_usages (update q f) d).
Proof.
  intros Hf q [Hn Hg Hk Hs Hu Ho]. split; [split; try done|].
  - unfold usages_keyed. cbn [usages set_usages]. rewrite map_update; [done|]. intros x. unfold usage_key.
    by destruct (Hf x) as (-> & _ & -> & _).
  - cbn [usages set_usages]. intros y (x & Hx & ->)%elem_of_update. destruct (q x); [|by apply Ho].
    destruct (Hf x) as (-> & -> & _). by apply Ho.
  - unfold accounts, counted, get_quota_usage. cbn [usages set_usages]. rewrite select_one_update.
    2: { intros x. by destruct (Hf x) as (-> & _ & -> & _). }
    change (carried g (set_usages (update q f) d)) with (carried g d).
    destruct (select_one _ (usages d)) as [x|]; cbn; [|lia]. destruct (q x); [|lia].
    destruct (Hf x) as (_ & _ & _ & -> & ->). lia.
Qed.

(** Starting a period over when it is due. *)
Section zone.
Variable zones : pystr → option zone.
(** A counter of [g'], in [org'], whose periods are those of the zone [tz]. *)
Variables (g' org' : uuid) (tz : pystr) (now : datetime).
Hypothesis same_period : g' = g → org' = org ∧ compute_period_start zones p now tz = start.

Lemma metered_restart x d : get_quota_usage g' (period_type x) d = Some x →
  period_start x < compute_period_start zones (period_type x) now tz →
  metered d (set_usages (update (same_usage x) (restarted (compute_period_start zones (period_type x) now tz))) d).
Proof.
  intros Hx Hlt [Hn Hg Hk Hs Hu Ho]. split; [split; try done|].
  - unfold usages_keyed. cbn [usages set_usages]. by rewrite map_update.
  - cbn [usages set_usages]. intros y (z & Hz & ->)%elem_of_update Hy. destruct (same_usage x z); exact (Ho z Hz Hy).
  - unfold accounts, counted. set (f := restarted _).
    change (carried g (set_usages (update (same_usage x) f) d)) with (carried g d).
    unfold get_quota_usage in *. cbn [usages set_usages]. rewrite select_one_update by done.
    destruct (select_one (λ y, bool_decide (usage_guest y = g) && bool_decide (period_type y = p)) (usages d)) as [r|] eqn:Hr;
      [|cbn; lia]. cbn [fmap option_fmap option_map]. destruct (same_usage x r) eqn:E; [|lia].
    pose proof (get_quota_usage_key g p d r Hr) as [Hrg Hrp].
    pose proof (get_quota_usage_key g' (period_type x) d x Hx) as [Hxg _].
    unfold same_usage in E. bools. assert (g' = g) as Hgg by congruence.
    destruct (same_period Hgg) as [_ Hst]. assert (period_type x = p) as Hpp by congruence.
    rewrite Hpp in Hlt. rewrite Hgg, Hpp in Hx. rewrite Hr in Hx. injection Hx as <-. unfold f. rewrite Hpp, Hst in *. cbn.
    assert ((period_start r <? start) = true) as -> by lia. rewrite Z.ltb_irrefl. lia.
Qed.
Lemma metered_new_usage q d : get_quota_usage g' q d = None →
  metered d (set_usages (insert_row (mk_usage g' org' q (compute_period_start zones q now tz) 0 0 None)) d).
Proof.
  intros Hno [Hn Hg Hk Hs Hu Ho]. set (y := mk_usage g' org' q _ 0 0 None).
  assert (∀ z, z ∈ usages d → usage_key z ≠ (g', q)) as Hnew.
  { intros z Hz Hkey. unfold usage_key in Hkey. injection Hkey as Hzg Hzp.
    unfold get_quota_usage in Hno. pose proof (proj1 (select_one_None _ _) Hno z Hz) as E. cbv beta in E.
    by rewrite !bool_decide_true in E. }
  split; [split; try done|].
  - unfold usages_keyed. cbn [usages set_usages]. unfold insert_row. rewrite map_app. apply NoDup_app.
    split_and!; [exact Hu| |apply NoDup_singleton].
    intros k (z & -> & Hz)%list_elem_of_fmap. cbn. rewrite list_elem_of_singleton. by apply Hnew.
  - cbn [usages set_usages]. intros z [Hz| ->%list_elem_of_singleton]%elem_of_app Hzg; [by apply Ho|].
    by apply same_period.
  - unfold accounts, counted. change (carried g (set_usages (insert_row y) d)) with (carried g d).
    unfold get_quota_usage in *. cbn [usages set_usages].
    destruct (decide (g' = g ∧ q = p)) as [[-> ->]|Hne].
    + rewrite Hno. rewrite (select_one_insert _ _ y); [|by apply select_one_None|by rewrite !bool_decide_true].
      cbn. destruct (same_period eq_refl) as [_ ->]. rewrite Z.ltb_irrefl. lia.
    + rewrite select_one_insert_other; [lia|]. apply andb_false_iff.
      destruct (decide (g' = g)) as [->|]; [right|left]; apply bool_decide_false; [|done]. intros E. by destruct Hne.
Qed.
Lemma metered_current q d :
  metered d (current_usage zones g' org' q tz now (get_quota_usage g' q d) d).2.
Proof.
  unfold current_usage. destruct (get_quota_usage g' q d) as [x|] eqn:Hx; [|by apply metered_new_usage].
  destruct (Z.ltb_spec (period_start x) (compute_period_start zones q now tz)) as [Hlt|]; [|done].
  pose proof (get_quota_usage_key g' q d x Hx) as [_ <-]. by apply metered_restart.
Qed.
Lemma metered_get_or_reset q : respects metered (get_or_reset_quota_usage zones g' org' q tz now).
Proof.
  intros d. unfold get_or_reset_quota_usage. erewrite bind_step by (unfold gets; reflexivity). apply metered_current.
Qed.
(** The rows are read before the first of them is written. *)
Lemma metered_current_usages ps : ∀ d existing, NoDup ps →
  (∀ q, q ∈ ps → existing q = get_quota_usage g' q d) →
  metered d (current_usages zones g' org' tz now existing ps d).2.
Proof.
  induction ps as [|q ps IH]; intros d existing Hnd Hex; [done|].
  apply NoDup_cons in Hnd as [Hq Hnd]. cbn [current_usages]. rewrite (Hex q) by left.
  pose proof (metered_current q d) as H1.
  destruct (current_usage_writes zones g' org' q tz now d) as (d1 & Hrun & _ & Hw). rewrite Hrun in H1. cbn [snd] in H1.
  erewrite bind_step by exact Hrun. etrans; [exact H1|].
  assert (metered d1 (current_usages zones g' org' tz now existing ps d1).2) as H2.
  { apply IH; [done|]. intros q' Hq'. rewrite Hw, decide_False; [apply Hex; by right|]. by intros [_ ->]. }
  destruct (current_usages zones g' org' tz now existing ps d1) as [[l|e] d2] eqn:Hrun2.
  - by erewrite bind_step by exact Hrun2.
  - by erewrite bind_stop by exact Hrun2.
Qed.
Lemma metered_get_or_reset_all ps : NoDup ps → respects metered (get_or_reset_quota_usages zones g' org' ps tz now).
Proof.
  intros Hnd d. unfold get_or_reset_quota_usages. erewrite bind_step by (unfold gets; reflexivity).
  by apply metered_current_usages.
Qed.
End zone.

(** What a row puts on the counter of the period. *)
Definition tally (x : GuestQuotaUsage) : Z := if period_start x <? start then 0 else bytes_used x.
Lemma metered_rows q f d :
  (∀ x, usage_guest (f x) = usage_guest x ∧ usage_org (f x) = usage_org x ∧ period_type (f x) = period_type x) →
  (∀ x, x ∈ usages d → usage_guest x = g → period_type x = p → q x = true → tally (f x) = tally x) →
  metered d (set_usages (update q f) d).
Proof.
  intros Hf Ht [Hn Hg Hk Hs Hu Ho]. split; [split; try done|].
  - unfold usages_keyed. cbn [usages set_usages]. rewrite map_update; [done|]. intros x. unfold usage_key.
    by destruct (Hf x) as (-> & _ & ->).
  - cbn [usages set_usages]. intros y (x & Hx & ->)%elem_of_update. destruct (q x); [|by apply Ho].
    destruct (Hf x) as (-> & -> & _). by apply Ho.
  - unfold accounts, counted, get_quota_usage. cbn [usages set_usages]. rewrite select_one_update.
    2: { intros x. by destruct (Hf x) as (-> & _ & ->). }
    change (carried g (set_usages (update q f) d)) with (carried g d).
    destruct (select_one _ (usages d)) as [x|] eqn:E; cbn; [|lia]. destruct (q x) eqn:Eq; [|lia].
    apply select_one_Some in E as [Hx E]. bools. specialize (Ht x Hx). unfold tally in Ht. rewrite Ht by done. lia.
Qed.

(** ** The other tables *)
Lemma metered_guests f d : get_guest_by_id g (set_guests f d) ≠ None →
  (∀ y, y ∈ f (guests d) → guest_id y = g → guest_org y = org) → metered d (set_guests f d).
Proof.
  intros Hg Ho [Hn Hg0 Hk Hs Hu Hu']. split; [by split|]. unfold accounts.
  change (counted g p start (set_guests f d)) with (counted g p start d). change (carried g (set_guests f d)) with (carried g d). lia.
Qed.
Lemma metered_frame d d' : guests d' = guests d → sessions d' = sessions d → usages d' = usages d → metered d d'.
Proof.
  intros Hg Hs Hu [H1 H2 H3 H4 H5 H6]. split.
  - split; unfold get_guest_by_id, usages_keyed in *; rewrite ?Hg, ?Hs, ?Hu; done.
  - unfold accounts, counted, carried, get_quota_usage. rewrite Hs, Hu. destruct (select_one _ _); lia.
Qed.
Abbreviation meters := (respects (E:=error) metered).
Lemma meters_bind {A B} (m : op A) (f : A → op B) : meters m → (∀ a, meters (f a)) → meters (m ≫= f).
Proof. apply respects_bind. typeclasses eauto. Qed.
Lemma meters_reads {A} (m : op A) : reads m → meters m.
Proof. intros H d. rewrite H. reflexivity. Qed.
Lemma meters_collect {A B} (body : A → op (option B)) l : (∀ x, meters (body x)) → meters (collect body l).
Proof.
  intros Hb. induction l as [|x l IH]; [by apply meters_reads, reads_ret|]. cbn [collect].
  apply meters_bind; [apply Hb|]. intros r. apply meters_bind; [exact IH|]. intros rs. by apply meters_reads, reads_ret.
Qed.
Lemma meters_session f x : (∀ y, meter (f y) = meter y) → meters (update_session x f).
Proof. intros Hf d. by apply metered_sessions. Qed.
Lemma meters_guest f x : (∀ y, guest_id (f y) = guest_id y ∧ guest_org (f y) = guest_org y) → meters (update_guest x f).
Proof.
  intros Hf d Hd. cbn. apply metered_guests; [| |done].
  - unfold get_guest_by_id. cbn [guests set_guests]. rewrite by_id_set_row by (intros y; apply Hf).
    pose proof (ours_known _ Hd) as Hn. unfold get_guest_by_id in Hn.
    case_decide as E; [rewrite E|]; destruct (by_id g (guests d)); first [done|by destruct Hn].
  - intros y (z & Hz & ->)%elem_of_update Hy. destruct (has_id (guest_id x) z); [|by apply (ours_guest _ Hd)].
    destruct (Hf z) as [Hi Ho]. rewrite Ho. apply (ours_guest _ Hd z); [done|]. by rewrite <-Hi.
Qed.
Lemma meters_device x f : meters (update_device x f).
Proof. intros d. by apply metered_frame. Qed.
Lemma meters_login x : meters (create_login_history x).
Proof. intros d. by apply metered_frame. Qed.
Lemma meters_new_device x : meters (create_device x).
Proof.
  unfold create_device. apply meters_bind; [by apply meters_reads, reads_gets|]. intros.
  apply meters_bind; [by apply meters_reads, reads_raise_if|]. intros.
  apply meters_bind; [intros d; by apply metered_frame|]. intros. by apply meters_reads, reads_ret.
Qed.

(** ** Operations that carry nothing and count nothing *)
Ltac metered :=
  repeat match goal with
  | |- ∀ _, _ => intros ?
  | |- respects _ (ignore _) => unfold ignore
  | |- respects _ (_ ≫= _) => apply meters_bind
  | |- respects _ (mret _) => apply meters_reads, reads_ret
  | |- respects _ (raise _) => intros ?; reflexivity
  | |- respects _ (raise_if _ _) => apply meters_reads, reads_raise_if
  | |- respects _ (of_option _ _) => apply meters_reads, reads_of_option
  | |- respects _ (gets _) => apply meters_reads, reads_gets
  | |- respects _ (collect _ _) => apply meters_collect
  | |- respects _ (reject_if_blocked _) => apply meters_reads, reject_if_blocked_reads
  | |- respects _ (get_session _ _ _) => unfold get_session
  | |- respects _ (update_session _ _) => apply meters_session; intros ?; reflexivity
  | |- respects _ (update_guest _ _) => apply meters_guest; intros ?; by split
  | |- respects _ (update_device _ _) => apply meters_device
  | |- respects _ (create_device _) => apply meters_new_device
  | |- respects _ (create_login_history _) => apply meters_login
  | |- respects _ (issue_live_disconnect _ _ _) => unfold issue_live_disconnect
  | |- respects _ (if ?b then _ else _) => destruct b
  | |- respects _ (match ?x with _ => _ end) => destruct x
  | |- respects _ (let _ := _ in _) => cbv zeta
  end.
Lemma meters_timeout_loop term now reporting activity l : ∀ venues reads,
  meters (timeout_loop term now reporting activity l venues reads).
Proof.
  induction l as [|x l IH]; intros venues reads; [by apply meters_reads, reads_ret|]. cbn [timeout_loop].
  destruct (ask_venue _ _ _) as [ans venues']. try destruct (ask_router _ _ _) as [ans' reads'].
  unfold expire_stale. metered; apply IH.
Qed.
Lemma meters_record_login guest s m why now : meters (record_login guest s m why now).
Proof. unfold record_login. metered. Qed.
Lemma meters_access_control access now c location s mac m guest already :
  meters (enforce_access_control access now c location s mac m guest already).
Proof. unfold enforce_access_control, record_login. metered. Qed.
Lemma meters_get_or_create_device now id guest mac known : meters (get_or_create_device now id guest mac known).
Proof. unfold get_or_create_device. metered. Qed.
Lemma meters_eligible status router : meters (get_eligible_router status router).
Proof. unfold get_eligible_router. metered. Qed.
Lemma meters_open zones parse c now : meters (require_venue_open zones parse c now).
Proof. unfold require_venue_open. metered. Qed.
Lemma meters_require_method zones parse portals o location m now :
  meters (require_method_enabled zones parse portals o location m now).
Proof. unfold require_method_enabled, require_venue_open. metered. Qed.

(** ** New sessions *)
Lemma new_session_Ok x d a d' : create_session x d = (Ok a, d') →
  (session_guest x = g → session_org x = org ∧ session_location x ∈ places) → total_bytes x = 0 → metered d d'.
Proof.
  intros H Hx Hz. unfold create_session in H. erewrite bind_step in H by (unfold gets; reflexivity).
  rewrite raise_if_bind in H. case_bool_decide as E; [done|]. injection H as _ <-.
  apply metered_insert; [|done..]. by destruct (get_session_by_id _ _).
Qed.
Definition owner (x : Guest) : Prop := guest_id x = g → guest_org x = org.
Lemma known_owner x d : ours d → x ∈ guests d → owner x.
Proof. intros Hd Hx Hg. by apply (ours_guest _ Hd). Qed.
Lemma new_guest_Ok x d a d' : create_guest x d = (Ok a, d') → ours d → metered d d' ∧ a = x ∧ guest_id x ≠ g.
Proof.
  intros H Hd. unfold create_guest in H. erewrite bind_step in H by (unfold gets; reflexivity).
  rewrite raise_if_bind in H. destruct (bool_decide _ || _) eqn:E; [done|]. injection H as <- <-.
  apply orb_false_iff in E as [E _]. apply bool_decide_eq_false in E.
  assert (guest_id x ≠ g) as Hne by (intros Hx; apply E; rewrite Hx; apply (ours_known _ Hd)).
  split_and!; [|done..]. apply metered_guests.
  - unfold get_guest_by_id. cbn [guests set_guests]. rewrite by_id_insert.
    pose proof (ours_known _ Hd) as Hn. unfold get_guest_by_id in Hn. by destruct (by_id g (guests d)).
  - intros y [Hy| ->%list_elem_of_singleton]%elem_of_app Hg; [by apply (ours_guest _ Hd)|done].
Qed.

Section request.
Variable e : environment.
Variable now : datetime.
(** The request falls into the period. *)
Hypothesis in_period : compute_period_start (zones e) p now (get_organization_timezone (timezones e) org) = start.

Lemma same_period_here g' org' : (g' = g → org' = org) →
  g' = g → org' = org ∧ compute_period_start (zones e) p now (get_organization_timezone (timezones e) org') = start.
Proof. intros H Hg. by rewrite (H Hg). Qed.
Lemma meters_fup_gate g' org' location tier : (g' = g → org' = org) →
  meters (enforce_fup_quota (zones e) (timezones e) (policy_lookup e) (team_quota e) g' org' location tier now).
Proof.
  intros Ho. unfold enforce_fup_quota. metered.
  - apply metered_get_or_reset_all; [by apply same_period_here|].
    apply NoDup_ListNoDup, List.NoDup_filter, NoDup_ListNoDup, period_types_NoDup.
  - apply meters_reads, check_usages_reads.
Qed.
Lemma meters_gates existing o location router mac : (∀ x, existing = Some x → guest_id x = g → o = org) →
  meters (gates (zones e) (timezones e) (policy_lookup e) (nas_only e) (team_quota e) (parse_time e) (router_status e)
            now existing o location router mac).
Proof.
  intros Ho. unfold gates, known_guest_gates, enforce_access_tier_login_hours, enforce_concurrent_session_limit,
    enforce_device_limit. metered; [|apply meters_eligible..].
  apply meters_fup_gate. by apply Ho.
Qed.
Lemma reuse_metered id x dev router location m v ip data timeout idle d a d' : owner x → location ∈ places →
  reuse_or_create_session (nas_only e) now id x dev router location m v ip data timeout idle d = (Ok a, d') → metered d d'.
Proof.
  intros Hx Hl H. unfold reuse_or_create_session in H. erewrite bind_step in H by (unfold gets; reflexivity).
  destruct (find_reusable_active_session _ _ _ _ _) as [y|].
  - apply bind_Ok in H as (z & d1 & Hz & H). injection H as _ <-.
    assert (meters (update_session y (reused now (default false (nas_only e router)) m v ip data timeout idle))) as Hm
      by (apply meters_session; intros ?; reflexivity).
    specialize (Hm d). by rewrite Hz in Hm.
  - apply bind_Ok in H as (z & d1 & Hz & H). injection H as _ <-. apply (new_session_Ok _ _ _ _ Hz); [|done].
    intros Hg. split; [by apply Hx|done].
Qed.
Lemma meters_Ok {A} (m : op A) d a d' : meters m → m d = (Ok a, d') → metered d d'.
Proof. intros Hm H. specialize (Hm d). by rewrite H in Hm. Qed.
Lemma open_session_metered ks existing o location router s mac known tier m ip v d a d' :
  (∀ x, existing = Some x → owner x) → location ∈ places →
  open_session (policy_lookup e) (nas_only e) now ks existing o location router s mac known tier m ip v d = (Ok a, d') →
  metered d d'.
Proof.
  intros Hx Hl H Hd. unfold open_session in H. apply bind_Ok in H as ([x fresh] & d1 & H1 & H).
  assert (metered d d1 ∧ owner x) as [M1 Hown].
  { unfold get_or_create_guest in H1. destruct existing as [y|].
    - injection H1 as <- <- <-. split; [reflexivity|by apply Hx].
    - apply bind_Ok in H1 as (y & d2 & Hy & H1). injection H1 as <- _ <-.
      destruct (new_guest_Ok _ _ _ _ Hy Hd) as (M & -> & Hne). split; [exact M|]. by intros E. }
  cbv zeta in H. apply bind_Ok in H as (dev & d2 & H2 & H). apply meters_Ok in H2.
  2: { unfold maybe_get_or_create_device. metered. apply meters_get_or_create_device. }
  apply bind_Ok in H as (y & d3 & H3 & H). apply reuse_metered in H3; [|done..].
  apply meters_Ok in H; [|unfold bump_guest_visit; metered; apply meters_record_login].
  revert Hd. change (metered d d'). etrans; [exact M1|]. etrans; [exact H2|]. by etrans.
Qed.
(** A step of a request that carries and counts nothing. *)
Lemma knowing d d' : (ours d → metered d d') → metered d d'.
Proof. intros H Hd. by apply H. Qed.
Lemma then_Ok {A B} (m : op A) (f : A → op B) d b d' : (m ≫= f) d = (Ok b, d') → meters m →
  (∀ a d1, f a d1 = (Ok b, d') → metered d1 d') → metered d d'.
Proof. intros (a & d1 & H1 & H2)%bind_Ok Hm Hf. etrans; [by eapply meters_Ok|by eapply Hf]. Qed.
Create HintDb meter.
#[local] Hint Resolve meters_open meters_access_control meters_require_method meters_eligible meters_get_or_create_device : meter.
Ltac pass H := refine (then_Ok _ _ _ _ _ H ltac:(metered; auto with meter) _); clear H; intros ? ? H.
Lemma identified o s d x : get_guest_by_identifier o s d = Some x → x ∈ guests d ∧ guest_org x = o.
Proof.
  intros H. unfold get_guest_by_identifier in H.
  assert (x ∈ select (λ y, bool_decide (guest_org y = o)
    && GuestAccess.identifier_clause (GuestAccess.identifier_match_terms s) (identifier y)) (guests d)) as Hx.
  { destruct (least _ _) as [y|] eqn:E.
    - injection H as <-. apply least_Some in E as [E _]. by apply elem_of_select in E as [E _].
    - by apply least_Some in H as [H _]. }
  apply elem_of_select in Hx as [Hx Ho]. by bools.
Qed.
Definition placed (o : uuid) (existing : option Guest) : Prop :=
  ∀ x, existing = Some x → owner x ∧ guest_org x = o.
Lemma placed_identified o s d : ours d → placed o (get_guest_by_identifier o s d).
Proof. intros Hd x [Hx Ho]%identified. split; [by apply (known_owner _ d)|done]. Qed.
Lemma meters_placed_gates existing o location router mac : placed o existing →
  meters (gates (zones e) (timezones e) (policy_lookup e) (nas_only e) (team_quota e) (parse_time e) (router_status e)
            now existing o location router mac).
Proof. intros Hp. apply meters_gates. intros x Hx Hg. destruct (Hp x Hx) as [Hown <-]. by apply Hown. Qed.
Lemma open_placed_Ok ks existing o location router s mac known tier m ip v d a d' :
  placed o existing → location ∈ places →
  open_session (policy_lookup e) (nas_only e) now ks existing o location router s mac known tier m ip v d = (Ok a, d') →
  metered d d'.
Proof. intros Hp. apply open_session_metered. intros x Hx. by apply Hp. Qed.
#[local] Hint Resolve meters_placed_gates : meter.
Ltac identify H :=
  erewrite bind_step in H by (unfold gets; reflexivity); apply knowing;
  match goal with |- ours ?d → _ => let Hd := fresh "Hd" in let Hp := fresh "Hplaced" in
    intros Hd; match type of H with context [get_guest_by_identifier ?o ?s d] =>
      pose proof (placed_identified o s d Hd) as Hp; revert Hp H; generalize (get_guest_by_identifier o s d) end;
    intros existing Hp H end.
Lemma sign_in_metered ks c d a d' : at_location c ∈ places →
  run_sign_in (zones e) (timezones e) (policy_lookup e) (nas_only e) (team_quota e) (parse_time e)
    (access e) (resolve_portal_config e) (router_status e) (verify_otp e) (verify_guest_password e) now ks c d = (Ok a, d') →
  metered d d'.
Proof.
  intros Hl H. destruct c; cbn [run_sign_in at_location] in *.
  - unfold login_via_otp in H. cbv zeta in H. do 2 pass H. identify H.
    do 5 pass H.
    destruct (verify_otp e _ _); [by apply open_placed_Ok in H|]. by apply bind_Ok in H as (? & ? & _ & H).
  - unfold login_via_password in H. cbv zeta in H. pass H. identify H.
    do 5 pass H.
    destruct existing as [x|]; [|by apply bind_Ok in H as (? & ? & _ & H)].
    destruct (verify_guest_password e _ _); [by apply open_placed_Ok in H|]. by apply bind_Ok in H as (? & ? & _ & H).
  - unfold login_via_mac_whitelist in H. cbv zeta in H. do 4 pass H. identify H.
    do 3 pass H.
    by apply open_placed_Ok in H.
Qed.
Lemma required sc k q d x d1 : require_guest sc k q d = (Ok x, d1) → d1 = d ∧ x ∈ guests d.
Proof.
  intros H. pose proof (require_guest_reads sc k q d) as Hr. rewrite H in Hr. cbn in Hr. subst d1. split; [done|].
  unfold require_guest in H. erewrite bind_step in H by (unfold gets; reflexivity). rewrite of_option_bind in H.
  destruct (get_guest_by_id k d) as [y|] eqn:Hy; [|done]. rewrite raise_if_bind in H. destruct (other_tenant _ _); [done|].
  rewrite raise_if_bind in H. destruct (negb _); [done|]. injection H as <-.
  unfold get_guest_by_id in Hy. by apply by_id_Some in Hy as [? _].
Qed.
Lemma reconnect_metered ks guest router location requesting mac ip d a d' : location ∈ places →
  reconnect (zones e) (parse_time e) (access e) (resolve_portal_config e) (router_status e) (scope e)
    now ks guest router location requesting mac ip d = (Ok a, d') → metered d d'.
Proof.
  intros Hl H. unfold reconnect in H. apply bind_Ok in H as (x & d1 & Hx & H). apply required in Hx as [-> Hx].
  apply knowing. intros Hd. pose proof (known_owner _ d Hd Hx) as Hown. clear Hd Hx.
  do 3 pass H.
  unfold reconnect_from in H. pass H. rewrite of_option_bind in H.
  match type of H with context [match ?o with _ => _ end] => destruct o as [prior|]; [|done] end.
  case_bool_decide; [by injection H as _ <-|]. pass H.
  do 3 pass H. apply bind_Ok in H as (y & dy & Hy & H).
  apply new_session_Ok in Hy; [| |done].
  - apply meters_Ok in H; [by etrans|]. unfold bump_guest_visit. metered.
  - intros Hg. split; [by apply Hown|done].
Qed.

(** ** Traffic, connected time, and the reset *)

(** What keeps the rows the guest's, whatever is counted. *)
Definition owned (d d' : database) : Prop := ours d → ours d'.
#[local] Instance owned_preorder : PreOrder owned.
Proof. split; [by intros d H|]. intros d1 d2 d3 H12 H23 H. auto. Qed.
Lemma metered_owned {A} (m : op A) : meters m → respects owned m.
Proof. intros Hm d Hd. by apply Hm. Qed.
Lemma owned_written x y d : x ∈ sessions d → session_id y = session_id x → session_guest y = session_guest x →
  session_org y = session_org x → session_location y = session_location x → owned d (written y x d).
Proof.
  intros Hx Hid Hg Ho Hl [H1 H2 H3 H4 H5 H6]. split; try done; [by apply written_keyed|].
  unfold written. cbn [sessions set_sessions]. intros z (r & Hr & ->)%elem_of_update Hz.
  destruct (has_id (session_id x) r); [|by apply H4]. rewrite Ho, Hl. apply H4; [done|]. by rewrite <-Hg.
Qed.
Lemma owned_charge x delta : respects (E:=error) owned (update_quota_usage x (charged delta)).
Proof.
  intros d [H1 H2 H3 H4 H5 H6]. split; try done.
  - change (NoDup (map usage_key (update (same_usage x) (charged delta) (usages d)))).
    rewrite map_update; [done|]. by intros [].
  - change (∀ y, y ∈ update (same_usage x) (charged delta) (usages d) → usage_guest y = g → usage_org y = org). intros y (z & Hz & ->)%elem_of_update. 
    destruct (same_usage x z); exact (H6 z Hz).
Qed.
Lemma owned_charge_loop delta limit l : ∀ v, respects owned (charge_loop delta limit l v).
Proof.
  induction l as [|[q x] l IH]; intros v; [by apply metered_owned, meters_reads, reads_ret|]. cbn [charge_loop].
  apply respects_bind; [typeclasses eauto|apply owned_charge|]. intros y. apply IH.
Qed.
Lemma owned_track g' org' location delta tier : (g' = g → org' = org) →
  respects owned (track_fup_data_usage (zones e) (timezones e) (policy_lookup e) g' org' location delta now tier).
Proof.
  intros Ho. unfold track_fup_data_usage. destruct (policy_lookup e) as [pdb|]; [|by apply metered_owned, meters_reads, reads_ret].
  destruct (delta <=? 0); [by apply metered_owned, meters_reads, reads_ret|]. cbv zeta.
  destruct (effective_rules _ _ _ _ _) as [r|]; [|by apply metered_owned, meters_reads, reads_ret].
  apply respects_bind; [typeclasses eauto| |intros; apply owned_charge_loop].
  apply metered_owned, metered_get_or_reset_all; [by apply same_period_here|apply period_types_NoDup].
Qed.
Lemma meters_settle y v : meters (settle (nas_only e) (term e) (nas_only_usage_cut_dispatcher e) now y v).
Proof.
  unfold settle, expire_nas_only_session_over_cap. metered. apply meters_reads, via_cloud_reads.
Qed.
Lemma meters_report k up down d : governed (policy_lookup e) g org d →
  metered d (record_usage (zones e) (timezones e) (policy_lookup e) (nas_only e) (term e)
    (nas_only_usage_cut_dispatcher e) now k up down d).2.
Proof.
  intros Hgov Hd. pose proof (ours_keyed _ Hd) as Hk. split.
  2: { pose proof (record_usage_accounts (zones e) (timezones e) (policy_lookup e) (nas_only e) (term e)
         (nas_only_usage_cut_dispatcher e) g org p now k up down d Hk Hgov) as H. by rewrite in_period in H. }
  destruct (get_session_by_id k d) as [x|] eqn:Hx.
  2: { unfold record_usage. erewrite bind_step by (unfold gets; reflexivity). by rewrite Hx, of_option_bind. }
  rewrite (record_usage_eq _ _ _ _ _ _ _ _ _ _ x) by done. destruct (is_active x); [|done]. cbv zeta.
  pose proof (by_id_session _ _ _ Hx) as [Hin _].
  assert (ours (written (used up down now x) x d)) as Hd1 by (revert Hd; by apply owned_written).
  revert Hd1. apply (respects_bind owned); [apply owned_track|intros; apply metered_owned, meters_settle].
  intros Hg. by destruct (ours_sessions _ Hd x Hin Hg).
Qed.
Lemma meters_accrue_loop g' org' since limits ps : (g' = g → org' = org) → ∀ v n,
  meters (accrue_loop (zones e) g' org' (get_organization_timezone (timezones e) org') now since limits ps v n).
Proof.
  intros Ho. induction ps as [|q ps IH]; intros v n; [by apply meters_reads, reads_ret|]. cbn [accrue_loop].
  apply meters_bind; [apply metered_get_or_reset; by apply same_period_here|]. intros x. cbv zeta.
  apply meters_bind; [|intros y; apply IH]. destruct (_ <? _); [|by apply meters_reads, reads_ret].
  intros d. by apply metered_rows.
Qed.
Lemma meters_accrue_guest pdb k : (k.1.1 = g → k.1.2 = org) →
  meters (accrue_guest (zones e) (timezones e) (policy_lookup e) (nas_only e) (term e) (access_tier_lookup e)
    (connected_since_lookup e) pdb now k).
Proof.
  destruct k as [[g' org'] ls]. cbn [fst snd accrue_guest]. intros Ho. cbv zeta. metered.
  all: first [by apply meters_accrue_loop | apply meters_reads, strictest_limits_reads].
Qed.
Lemma meters_accrue_guests pdb l : (∀ k, k ∈ l → k.1.1 = g → k.1.2 = org) →
  meters (accrue_guests (zones e) (timezones e) (policy_lookup e) (nas_only e) (term e) (access_tier_lookup e)
    (connected_since_lookup e) pdb now l).
Proof.
  induction l as [|k l IH]; intros Hl; [by apply meters_reads, reads_ret|]. cbn [accrue_guests].
  apply meters_bind; [apply meters_accrue_guest, Hl; left|]. intros a.
  apply meters_bind; [apply IH; intros k' Hk; apply Hl; by right|]. intros b. by apply meters_reads, reads_ret.
Qed.
Lemma pairs_owned d k : ours d → k ∈ locations_by_guest (list_active_guest_org_pairs d) → k.1.1 = g → k.1.2 = org.
Proof.
  intros Hd Hk. unfold locations_by_guest in Hk. apply list_elem_of_fmap in Hk as (q & -> & Hq).
  apply elem_of_remove_dups, list_elem_of_fmap in Hq as (z & -> & Hz).
  unfold list_active_guest_org_pairs in Hz. apply elem_of_remove_dups, list_elem_of_fmap in Hz as (x & -> & Hx).
  cbn. apply elem_of_select in Hx as [Hx _]. intros Hg. by destruct (ours_sessions _ Hd x Hx Hg).
Qed.
Lemma meters_accrual pdb : meters (run_fup_time_accrual (zones e) (timezones e) (policy_lookup e) (nas_only e) (term e)
  (access_tier_lookup e) (connected_since_lookup e) pdb now).
Proof.
  intros d. apply knowing. intros Hd. unfold run_fup_time_accrual. erewrite bind_step by (unfold gets; reflexivity).
  apply meters_accrue_guests. intros k. by apply (pairs_owned d).
Qed.
(** The column is not empty where there is one. *)
Hypothesis named_zone : timezones e !! org ≠ Some [].
Lemma meters_reset : meters (run_quota_reset (zones e) (timezones e) now).
Proof.
  intros d. apply knowing. intros Hd. rewrite quota_reset_eq by apply Hd. cbn [snd]. apply metered_rows; [done|].
  intros x Hx Hg Hp Hdue. unfold due in Hdue. bools. pose proof (ours_usage _ Hd x Hx Hg) as Ho.
  assert (sweep_start (zones e) (timezones e) now x = start) as Hs.
  { rewrite <-in_period. unfold sweep_start, get_organization_timezone. rewrite Hp, Ho in *.
    by destruct (timezones e !! org) as [[]|]. }
  unfold tally, swept. rewrite Hs in *. cbn. rewrite Z.ltb_irrefl. destruct (Z.ltb_spec (period_start x) start); [done|lia].
Qed.
End request.

(** ** Histories *)

(** A request within the period, at one of the places, under a policy. *)
Record covered (r : request) : Prop := {
  covered_period : compute_period_start (zones (env r)) p (at_time r) (get_organization_timezone (timezones (env r)) org) = start;
  covered_zone : timezones (env r) !! org ≠ Some [];
  covered_policy : ∃ pdb, policy_lookup (env r) = Some pdb
    ∧ ∀ l, l ∈ places → effective_rules Policy.FUP org l g pdb ≠ None;
  covered_place : match what r with
                  | SignIn _ c => at_location c ∈ places
                  | Reconnect _ _ _ location _ _ _ => location ∈ places
                  | _ => True
                  end;
}.
Lemma meters_unlisted e now all l : meters (end_unlisted (access e) (resolve_portal_config e) (term e) now all l).
Proof.
  induction l as [|[[g' org'] location] l IH]; [by apply meters_reads, reads_ret|]. cbn [end_unlisted].
  unfold end_unlisted_sessions_for_guest. metered; exact IH.
Qed.
Lemma handle_metered r d d' : is_stop (what r) = false → covered r → handle r d = (Ok tt, d') → metered d d'.
Proof.
  intros Hstop [Hp Hz (pdb & Hpdb & Hrules) Hl]. destruct r as [e now c]. cbn [env at_time what] in *. unfold handle. cbn [env at_time what].
  assert (∀ A (m : op A), meters m → ignore m d = (Ok tt, d') → metered d d') as Hm.
  { intros A m Hm (a & H)%ignore_Ok. by eapply meters_Ok. }
  assert (∀ k up down y d2, record_usage (zones e) (timezones e) (policy_lookup e) (nas_only e) (term e)
    (nas_only_usage_cut_dispatcher e) now k up down d = (Ok y, d2) → metered d d2) as Hreport.
  { intros k up down y d2 H. apply knowing. intros Hd.
    pose proof (meters_report e now Hp k up down d) as M. rewrite H in M. apply M. exists pdb. split; [done|].
    intros x Hx Hg. destruct (ours_sessions _ Hd x Hx Hg) as [Ho Hin]. split; [done|by apply Hrules]. }
  destruct c; try discriminate Hstop;
    try (apply Hm; unfold block_guest, unblock_guest, disconnect_session, terminate_session, pause_session, resume_session,
    extend_session, disconnect_own_session, validate_session_status_transition, enforce_session_timeouts,
    close_sessions_for_nas_restart, refresh_session_activity_from_router, reconcile_sessions_with_router_presence,
    end_sessions_at_location, enforce_whitelist_only_online_guests;
    solve [metered; first [apply meters_timeout_loop|apply meters_unlisted|apply meters_reads, require_guest_reads]]).
  - intros (a & H)%ignore_Ok. by eapply sign_in_metered.
  - intros (a & H)%ignore_Ok. by eapply reconnect_metered.
  - intros (a & H)%ignore_Ok. by eapply Hreport.
  - intros (a & H)%ignore_Ok. unfold accounting_interim_update in H. apply bind_Ok in H as (z & d1 & Hz' & H).
    destruct (get_session_for_nas_Ok _ _ _ _ _ _ _ Hz') as [-> _]. by eapply Hreport.
  - rewrite Hpdb. apply Hm. rewrite <-Hpdb. by apply meters_accrual.
  - apply Hm. by apply meters_reset.
Qed.

(** *** Stops *)
(** What the totals of a stop put on a session of the guest, if the request
    is one and is committed. *)
Definition put_by_stop (r : request) (d : database) : Z :=
  match what r with
  | AccountingStop nas s station up down _ =>
      match get_session_for_nas (nas_router (env r)) nas s station d, handle r d with
      | (Ok x, _), (Ok _, _) =>
          if of_guest g x then total_bytes (stopped (keeps_recorded (nas_router (env r)) nas) up down x) - total_bytes x else 0
      | _, _ => 0
      end
  | _ => 0
  end.
Fixpoint put_by_stops (rs : list request) (d : database) : Z :=
  match rs with
  | [] => 0
  | r :: rs => put_by_stop r d + put_by_stops rs (transact handle r d)
  end.
Definition settles (put : Z) (d d' : database) : Prop :=
  ours d → ours d' ∧ counted g p start d' - counted g p start d = carried g d' - carried g d - put.
Lemma stop_settles r d d' : is_stop (what r) = true → handle r d = (Ok tt, d') → settles (put_by_stop r d) d d'.
Proof.
  intros Hs H Hd. unfold put_by_stop. destruct r as [e now []]; try discriminate Hs. cbn [env at_time what]. rewrite H.
  unfold handle in H. cbn [env at_time what] in H. apply ignore_Ok in H as [y H].
  apply stop_cases in H as (x & -> & Hx & H); [|apply Hd]. cbv zeta in H. set (x' := stopped _ _ _ x) in *.
  assert (ours (written x' x d)) as Hd1 by (revert Hd; by apply owned_written).
  pose proof (carried_written g x x' d (ours_keyed _ Hd) Hx eq_refl eq_refl) as Hc.
  assert (counted g p start (written x' x d) = counted g p start d) as Hn by done.
  destruct H as [->|H]; [split; [done|]; rewrite Hc, Hn; destruct (of_guest g x); lia|].
  apply meters_Ok in H; [|unfold disconnect_session, validate_session_status_transition; metered].
  destruct (H Hd1) as [Hd' Ha]. split; [done|]. unfold accounts in Ha. rewrite Hc, Hn in Ha. destruct (of_guest g x); lia.
Qed.
Lemma request_settles r d d' : covered r → handle r d = (Ok tt, d') → settles (put_by_stop r d) d d'.
Proof.
  intros Hr H. destruct (is_stop (what r)) eqn:Hs; [by apply stop_settles|]. intros Hd.
  destruct (handle_metered r d d' Hs Hr H Hd) as [Hd' Ha]. split; [done|].
  assert (put_by_stop r d = 0) as -> by (unfold put_by_stop; revert Hs; by destruct (what r)). unfold accounts in Ha. lia.
Qed.
(** C8: Over any history of the guest network that falls into one quota period
    of a guest, at places where a fair-use policy can be resolved, the guest's
    counter of data for that period moves by exactly the bytes that all of the
    guest's sessions carried meanwhile, less what the totals of RADIUS stops
    put on them: nothing else is charged twice or lost when periods roll over,
    sessions end or new ones begin, and what a stop adds is never charged. *)
Theorem counter_follows_traffic rs d : ours d → (∀ r, r ∈ rs → covered r) →
  counted g p start (requests rs d) - counted g p start d
  = carried g (requests rs d) - carried g d - put_by_stops rs d.
Proof.
  intros Hd Hrs. enough (settles (put_by_stops rs d) d (requests rs d)) as H by by apply H. clear Hd. unfold requests. revert d.
  induction rs as [|r rs IH]; intros d Hd; cbn [transactions put_by_stops]; [split; [done|lia]|].
  assert (settles (put_by_stop r d) d (transact handle r d)) as H1.
  { unfold transact, get_db_session, on_db, zoom. cbn [db]. destruct (handle r d) as [[[]|e] d1] eqn:E; [by apply request_settles; [apply Hrs; left|]|].
    assert (put_by_stop r d = 0) as ->.
    { unfold put_by_stop. rewrite E. destruct (what r); try done. by destruct (get_session_for_nas _ _ _ _ d) as [[]]. }
    split; [done|]. cbn. lia. }
  destruct (H1 Hd) as [Hd1 E1]. destruct (IH ltac:(intros; apply Hrs; by right) (transact handle r d) Hd1) as [Hd2 E2].
  split; [done|]. lia.
Qed.
End meter.

(** ** Witness *)
Module examples.
#[local] Existing Instance ascii_only.
Import GuestLogin.examples GuestRequests.examples.
Lemma all_ours : ours 50 10 [20%positive] d.
Proof.
  split; [done| | | | |].
  - intros gu Hgu. unfold d in Hgu. cbn [guests] in Hgu. by apply list_elem_of_singleton in Hgu as ->.
  - by apply (bool_decide_unpack _); vm_compute.
  - intros x Hx _. unfold d in Hx. cbn [sessions] in Hx. apply list_elem_of_singleton in Hx as ->. split; [done|left].
  - by apply (bool_decide_unpack _); vm_compute.
  - by intros x Hx%not_elem_of_nil.
Qed.
Lemma day_covered r : r ∈ day → covered 50 10 DAILY 0 [20%positive] r.
Proof.
  intros Hr. assert (env r = now_and_then ∧ compute_period_start zones DAILY (at_time r) (u "UTC") = 0
    ∧ match what r with SignIn _ c => at_location c = 20%positive | Reconnect _ _ _ _ _ _ _ => False | _ => True end) as (He & Ht & Hw).
  { unfold day in Hr. rewrite !elem_of_cons in Hr. destruct Hr as [->|[->|[->|[->|Hr%not_elem_of_nil]]]]; [..|done];
      (split; [done|]); (split; [by vm_compute|done]). }
  split; rewrite ?He; [exact Ht|done| |].
  - exists pdb. split; [done|]. intros l ->%list_elem_of_singleton.
    assert (∀ o : option Policy.rules, match o with Some _ => true | None => false end = true → o ≠ None) as Hsome by by intros [].
    apply Hsome. by vm_compute.
  - destruct (what r); try done. rewrite Hw. left.
Qed.
(** That day, with a stop by the router when the guest leaves. *)
Definition farewell : request :=
  request_at (minutes 107) (AccountingStop 60 (u "+14155550100") None (Some 5000%N) (Some 9000%N) None).
Lemma farewell_covered : covered 50 10 DAILY 0 [20%positive] farewell.
Proof.
  destruct (day_covered (request_at (minutes 105) AccrueTime)) as [_ Hz Hp _]; [by do 2 right; left|].
  split; [by vm_compute|exact Hz|exact Hp|exact I].
Qed.
Lemma counter_follows_traffic_witness :
  carried 50 (requests (day ++ [farewell]) d) - carried 50 d = 14000
  ∧ put_by_stops 50 (day ++ [farewell]) d = 11000
  ∧ counted 50 DAILY 0 (requests (day ++ [farewell]) d) = 3000.
Proof.
  assert (carried 50 (requests (day ++ [farewell]) d) - carried 50 d = 14000) as H by by vm_compute.
  assert (put_by_stops 50 (day ++ [farewell]) d = 11000) as Hs by by vm_compute.
  split; [exact H|]. split; [exact Hs|].
  pose proof (counter_follows_traffic 50 10 DAILY 0 [20%positive] (day ++ [farewell]) d all_ours) as Hc.
  rewrite H, Hs in Hc. replace (counted 50 DAILY 0 d) with 0 in Hc by done. enough (∀ r, r ∈ day ++ [farewell] → covered 50 10 DAILY 0 [20%positive] r) as Hall by (specialize (Hc Hall); lia).
  intros r [Hr| ->%list_elem_of_singleton]%elem_of_app; [by apply day_covered|exact farewell_covered].
Defined.
(** The bytes of the last minutes, which only the stop reports, are on the
    session and on no counter. *)
Lemma last_bytes_are_not_charged :
  carried 50 (requests (leaving 5000 9000) d) - carried 50 d = 14000
  ∧ counted 50 DAILY 0 (requests (leaving 5000 9000) d) = 4000.
Proof. by split; vm_compute. Qed.
End examples.
End GuestMeter.
