(* ===== verification/GuestTeams.v ===== *)
(** Guest teams: groups of guests behind one join code and one data limit.

    [src/backend/app/domains/guest_teams]: creating, revoking and joining a
    team, removing a member ([service.py]), and the limit the members share
    ([quota.py]), which the sign-ins of [GuestLogin.v] ask for.  The sessions
    belong to the guest domain: they are ended with its own operations, and
    its requests are part of the histories.  Names, descriptions, audit rows
    and the administrators' listings are left out; those write nothing but the
    expiry that looking at a team writes. *)

From stdpp Require sorting.
From S2P Require Import Prelude Table Session PyStr Tenancy.
From S2P Require Import Guest GuestSession GuestQuota GuestAccess GuestLogin GuestOnline GuestRequests.

Module GuestTeams.
Import GuestSession GuestLogin GuestOnline.
#[local] Existing Instances Guest.session_has_id Guest.guest_has_id.

(** ** [constants.py] *)
Inductive GuestTeamStatus := ACTIVE | EXPIRED | REVOKED.
#[export] Instance team_status_eq_dec : EqDecision GuestTeamStatus.
Proof. solve_decision. Defined.
Definition GUEST_TEAM_STATUS_TRANSITIONS (s : GuestTeamStatus) : list GuestTeamStatus :=
  match s with ACTIVE => [EXPIRED; REVOKED] | EXPIRED | REVOKED => [] end.
Definition TEAM_CODE_GENERATION_MAX_ROUNDS : nat := 20.

(** ** [exceptions.py] *)
Inductive error :=
| GuestTeamNotFoundError | CrossLocationGuestTeamAccessError | CrossOrganizationGuestTeamAccessError
| InvalidGuestTeamStatusTransitionError (current requested : GuestTeamStatus)
| GuestTeamNotActiveError (s : GuestTeamStatus)
| GuestTeamMemberCapExceededError (max_members : Z) | GuestTeamMemberNotFoundError
| GuestTeamCodeGenerationExhaustedError
| InvalidMaxMembersError | InvalidSharedDataLimitError | InvalidGuestTeamExpiryError
(** Of other domains. *)
| OrganizationError | LocationError | DuplicateRecordError | OfGuest (e : Guest.error).
(** [except CloudGuestError]. *)
Definition is_cloud_guest_error (e : error) : bool :=
  match e with OfGuest Guest.CollaboratorError => false | _ => true end.

(** ** [models.py] *)
Record GuestTeam := mk_team {
  team_id : uuid;
  team_org : uuid;
  team_location : option uuid;
  team_code : pystr;
  team_status : GuestTeamStatus;
  max_members : option Z;
  shared_data_limit_mb : option Z;
  expires_at : option datetime;
  revoked_at : option datetime;
}.
#[export] Instance team_has_id : HasId GuestTeam := team_id.
Definition is_team_expired (now : datetime) (t : GuestTeam) : bool :=
  match expires_at t with Some e => e <? now | None => false end.
(** One stint of a guest in a team. *)
Record GuestTeamMember := mk_member {
  member_id : uuid;
  member_team : uuid;
  member_guest : uuid;
  joined_at : datetime;
  member_active : bool;
  left_at : option datetime;
  removal_reason : option pystr;
}.
#[export] Instance member_has_id : HasId GuestTeamMember := member_id.
Record database := mk_database {
  network : Guest.database;
  teams : list GuestTeam;
  members : list GuestTeamMember;
}.
Definition set_network n d := mk_database n (teams d) (members d).
Definition set_teams f d := mk_database (network d) (f (teams d)) (members d).
Definition set_members f d := mk_database (network d) (teams d) (f (members d)).
Definition with_team_status (s : GuestTeamStatus) (r : option datetime) (t : GuestTeam) : GuestTeam :=
  mk_team (team_id t) (team_org t) (team_location t) (team_code t) s (max_members t) (shared_data_limit_mb t)
    (expires_at t) r.
Definition left_team (now : datetime) (reason : option pystr) (m : GuestTeamMember) : GuestTeamMember :=
  mk_member (member_id m) (member_team m) (member_guest m) (joined_at m) false (Some now) reason.

(** ** [validators.py] *)
Definition validate_max_members {S} (n : option Z) : M S error unit :=
  raise_if (match n with Some n => n <? 1 | None => false end) InvalidMaxMembersError.
Definition validate_shared_data_limit {S} (n : option Z) : M S error unit :=
  raise_if (match n with Some n => n <? 1 | None => false end) InvalidSharedDataLimitError.
Definition validate_team_expiry {S} (e : option datetime) (now : datetime) : M S error unit :=
  raise_if (match e with Some e => e <=? now | None => false end) InvalidGuestTeamExpiryError.
Definition validate_team_status_transition {S} (s s' : GuestTeamStatus) : M S error unit :=
  raise_if (bool_decide (s' ∉ GUEST_TEAM_STATUS_TRANSITIONS s)) (InvalidGuestTeamStatusTransitionError s s').

(** ** [repository.py] *)
Abbreviation op := (M database error).
(** A call of the guest domain, its exceptions passed on. *)
Definition on_network {A} (m : M Guest.database Guest.error A) : op A := λ d,
  let '(o, n) := m (network d) in
  (match o with Ok a => Ok a | Raise e => Raise (OfGuest e) end, set_network n d).
Definition create_team (t : GuestTeam) : op GuestTeam :=
  clash ← gets (λ d, bool_decide (by_id (team_id t) (teams d) ≠ None)
                     || bool_decide (team_code t ∈ map team_code (teams d)));
  _ ← raise_if clash DuplicateRecordError;
  _ ← modify (set_teams (insert_row t));
  mret t.
Definition get_team_by_id (k : uuid) (d : database) : option GuestTeam := by_id k (teams d).
Definition get_team_by_code (c : pystr) (d : database) : option GuestTeam :=
  select_one (λ t, bool_decide (team_code t = c)) (teams d).
Definition update_team (f : GuestTeam → GuestTeam) (t : GuestTeam) : op GuestTeam :=
  _ ← modify (set_teams (set_row f (team_id t))); mret (f t).
Definition find_existing_codes (c : pystr) (d : database) : bool := bool_decide (c ∈ map team_code (teams d)).
Definition seated (k : uuid) (m : GuestTeamMember) : bool := bool_decide (member_team m = k) && member_active m.
(** The partial unique index is [uq_guest_team_members_team_guest_active]. *)
Definition create_member (m : GuestTeamMember) : op GuestTeamMember :=
  clash ← gets (λ d, bool_decide (by_id (member_id m) (members d) ≠ None)
                     || (0 <? rowcount (λ x, seated (member_team m) x && bool_decide (member_guest x = member_guest m)) (members d)));
  _ ← raise_if clash DuplicateRecordError;
  _ ← modify (set_members (insert_row m));
  mret m.
Definition get_active_membership (k g : uuid) (d : database) : option GuestTeamMember :=
  select_one (λ m, seated k m && bool_decide (member_guest m = g)) (members d).
Definition update_member (f : GuestTeamMember → GuestTeamMember) (m : GuestTeamMember) : op GuestTeamMember :=
  _ ← modify (set_members (set_row f (member_id m))); mret (f m).
Definition count_active_members (k : uuid) (d : database) : Z := rowcount (seated k) (members d).
Definition earlier (m m' : GuestTeamMember) : Prop := joined_at m ≤ joined_at m'.
#[export] Instance earlier_dec : RelDecision earlier := λ m m', decide (joined_at m ≤ joined_at m').
Definition list_active_members (k : uuid) (d : database) : list GuestTeamMember :=
  sorting.merge_sort earlier (select (seated k) (members d)).
Definition list_active_memberships_for_guest (g : uuid) (d : database) : list GuestTeamMember :=
  select (λ m, bool_decide (member_guest m = g) && member_active m) (members d).

(** ** [quota.py] *)
Definition active_bytes (l : list Guest.GuestSession) : Z :=
  foldr (λ x n, (if Guest.is_active x then Guest.total_bytes x else 0) + n) 0 l.
Definition team_usage_bytes (k : uuid) (d : database) : Z :=
  foldr (λ m n, active_bytes (list_sessions_for_guest (member_guest m) (network d)) + n) 0 (list_active_members k d).
Definition is_over_shared_quota (g : uuid) (d : database) : bool :=
  existsb (λ m, match get_team_by_id (member_team m) d with
                | None => false
                | Some t =>
                    match shared_data_limit_mb t with
                    | None => false
                    | Some mb => mb * Guest.BYTES_PER_MB <=? team_usage_bytes (team_id t) d
                    end
                end) (list_active_memberships_for_guest g d).

(** ** [service.py] *)
Section service.
Context {PU : PyUnicode}.
(** The caller's locations, for teams and for guests, and who ends a session
    on a router. *)
Variables (caller_location_scope guest_scope : option (list uuid)).
Variable term : option terminator.
Variable now : datetime.

Definition _enforce_tenant_scope (org : uuid) (requesting : option uuid) : op unit :=
  raise_if (other_tenant org requesting) CrossOrganizationGuestTeamAccessError.
Definition _refresh_team_expiry (t : GuestTeam) : op GuestTeam :=
  if bool_decide (team_status t = ACTIVE) && is_team_expired now t
  then update_team (λ t, with_team_status EXPIRED (revoked_at t) t) t
  else mret t.
(** The codes that are drawn, one after the other. *)
Fixpoint _generate_team_code (draws : list pystr) : op pystr :=
  match draws with
  | [] => raise GuestTeamCodeGenerationExhaustedError
  | c :: draws =>
      existing ← gets (find_existing_codes c);
      match existing with true => _generate_team_code draws | false => mret c end
  end.
(** Which organizations there are, and the locations of each. *)
Variable organization_exists : uuid → bool.
Variable location_exists : uuid → uuid → bool.
Definition new_team (id org : uuid) (requesting location : option uuid) (max limit : option Z) (e : option datetime)
    (draw : nat → pystr) : op GuestTeam :=
  _ ← validate_max_members max;
  _ ← validate_shared_data_limit limit;
  _ ← validate_team_expiry e now;
  _ ← raise_if (negb (organization_exists org)) OrganizationError;
  _ ← raise_if (other_tenant org requesting) CrossOrganizationGuestTeamAccessError;
  _ ← raise_if (match location with Some l => negb (location_exists l org) | None => false end) LocationError;
  c ← _generate_team_code (map draw (seq 0 TEAM_CODE_GENERATION_MAX_ROUNDS));
  create_team (mk_team id org location c ACTIVE max limit e None).
Definition get_team (k : uuid) (requesting : option uuid) : op GuestTeam :=
  found ← gets (get_team_by_id k);
  t ← of_option found GuestTeamNotFoundError;
  _ ← _enforce_tenant_scope (team_org t) requesting;
  _ ← raise_if (negb (Tenancy.enforce_entity_location (team_location t) caller_location_scope))
        CrossLocationGuestTeamAccessError;
  _refresh_team_expiry t.
(** What is offered at a portal, with the seats taken; the order, by name, is
    left out. *)
Fixpoint open_teams (l : list GuestTeam) : op (list (GuestTeam * Z)) :=
  match l with
  | [] => mret []
  | t :: l =>
      t ← _refresh_team_expiry t;
      n ← gets (count_active_members (team_id t));
      rest ← open_teams l;
      mret (if bool_decide (team_status t = ACTIVE) && match max_members t with None => true | Some m => n <? m end
            then (t, n) :: rest else rest)
  end.
Definition list_open_teams (org : uuid) (location : option uuid) : op (list (GuestTeam * Z)) :=
  l ← gets (λ d, select (λ t, bool_decide (team_org t = org) && bool_decide (team_status t = ACTIVE)
                  && (bool_decide (team_location t = None)
                      || bool_decide (location ≠ None) && bool_decide (team_location t = location))) (teams d));
  open_teams l.

(** [try ... except CloudGuestError]. *)
Definition tried {A} (m : op A) : op (option A) := λ d,
  match m d with
  | (Ok a, d') => (Ok (Some a), d')
  | (Raise e, d') => if is_cloud_guest_error e then (Ok None, d') else (Raise e, d')
  end.
Definition get_guest_sessions (g : uuid) (requesting : option uuid) : M Guest.database Guest.error (list Guest.GuestSession) :=
  x ← require_guest guest_scope g requesting;
  gets (list_sessions_for_guest (Guest.guest_id x)).
(** The sessions that were ended, and whether one could not be. *)
Fixpoint end_sessions (org : uuid) (reason : pystr) (l : list Guest.GuestSession) : op (list uuid * bool) :=
  match l with
  | [] => mret ([], false)
  | x :: l =>
      if negb (Guest.is_active x) then end_sessions org reason l
      else
        ended ← tried (on_network (terminate_session term guest_scope now (Guest.session_id x) (Some org) (Some reason)));
        rest ← end_sessions org reason l;
        mret (match ended with
              | Some _ => (Guest.session_id x :: rest.1, rest.2)
              | None => (rest.1, true)
              end)
  end.
Definition end_sessions_of (org : uuid) (reason : pystr) (g : uuid) : op (list uuid * bool) :=
  l ← on_network (get_guest_sessions g (Some org));
  end_sessions org reason l.
Definition reason_or (fallback : pystr) (r : option pystr) : pystr :=
  match r with Some (c :: s) => c :: s | _ => fallback end.
(** The sessions that were ended, and the members some session of whom could
    not be. *)
Fixpoint revoke_members (org : uuid) (reason : pystr) (l : list GuestTeamMember) : op (list uuid * list uuid) :=
  match l with
  | [] => mret ([], [])
  | m :: l =>
      r ← tried (end_sessions_of org reason (member_guest m));
      rest ← revoke_members org reason l;
      mret (match r with
            | Some (ended, failed) => (ended ++ rest.1, if failed : bool then member_guest m :: rest.2 else rest.2)
            | None => (rest.1, member_guest m :: rest.2)
            end)
  end.
Definition revoke_team (k : uuid) (requesting : option uuid) (reason : option pystr)
    : op (GuestTeam * Z * list uuid * list uuid) :=
  t ← get_team k requesting;
  _ ← validate_team_status_transition (team_status t) REVOKED;
  updated ← update_team (with_team_status REVOKED (Some now)) t;
  l ← gets (list_active_members (team_id t));
  r ← revoke_members (team_org t) (reason_or (u "guest_team_revoked") reason) l;
  mret (updated, Z.of_nat (length l), r.1, r.2).

(** ** Joining and leaving *)
Definition get_or_create_guest (id : uuid) (existing : option Guest.Guest) (org : uuid) (location : option uuid)
    (s : pystr) : M Guest.database Guest.error (Guest.Guest * bool) :=
  match existing with
  | Some g => mret (g, false)
  | None => g ← Guest.create_guest (Guest.mk_guest id org location s now now 0 false None); mret (g, true)
  end.
(** Up to the check of the cap: the team, the guest, and their seat if they
    have one. *)
Definition seat_for (ids : keys) (code s : pystr) (mac : option pystr) : op (GuestTeam * uuid * option GuestTeamMember) :=
  found ← gets (get_team_by_code code);
  t ← of_option found GuestTeamNotFoundError;
  t ← _refresh_team_expiry t;
  _ ← raise_if (bool_decide (team_status t ≠ ACTIVE)) (GuestTeamNotActiveError (team_status t));
  let s := strip s in
  existing ← gets (λ d, get_guest_by_identifier (team_org t) s (network d));
  _ ← on_network (reject_if_blocked existing);
  r ← on_network (get_or_create_guest (new_guest ids) existing (team_org t) (team_location t) s);
  let g := Guest.guest_id r.1 in
  _ ← on_network (maybe_get_or_create_device now (new_device ids) g mac None);
  seat ← gets (get_active_membership (team_id t) g);
  match seat with
  | Some m => mret (t, g, Some m)
  | None =>
      n ← gets (count_active_members (team_id t));
      _ ← match max_members t with
          | Some m => raise_if (m <=? n) (GuestTeamMemberCapExceededError m)
          | None => mret tt
          end;
      mret (t, g, None)
  end.
Definition join_team (ids : keys) (id : uuid) (code s : pystr) (mac : option pystr) : op (GuestTeamMember * bool) :=
  '(t, g, seat) ← seat_for ids code s mac;
  match seat with
  | Some m => mret (m, false)
  | None => m ← create_member (mk_member id (team_id t) g now true None None); mret (m, true)
  end.
Definition remove_team_member (k g : uuid) (requesting : option uuid) (reason : option pystr)
    : op (GuestTeamMember * list uuid) :=
  t ← get_team k requesting;
  found ← gets (get_active_membership (team_id t) g);
  m ← of_option found GuestTeamMemberNotFoundError;
  m ← update_member (left_team now reason) m;
  ended ← tried (end_sessions_of (team_org t) (reason_or (u "removed_from_guest_team") reason) g);
  mret (m, match ended with Some r => r.1 | None => [] end).
Fixpoint pooled_bytes (org : uuid) (l : list GuestTeamMember) : op Z :=
  match l with
  | [] => mret 0
  | m :: l =>
      xs ← on_network (get_guest_sessions (member_guest m) (Some org));
      n ← pooled_bytes org l;
      mret (active_bytes xs + n)
  end.
(** The limit, what is used of it, and whether it is reached. *)
Definition check_shared_quota (k : uuid) (requesting : option uuid) : op (option Z * Z * bool) :=
  t ← get_team k requesting;
  match shared_data_limit_mb t with
  | None => mret (None, 0, false)
  | Some mb =>
      l ← gets (list_active_members (team_id t));
      n ← pooled_bytes (team_org t) l;
      mret (Some mb, n, mb * Guest.BYTES_PER_MB <=? n)
  end.
End service.

(** ** Histories

    Requests about teams, and everything that happens on the network in
    between, where sign-ins ask the teams for their limits. *)
Section histories.
Context {PU : PyUnicode}.
Record caller := mk_caller {
  teams_scope : option (list uuid);
  guests_scope : option (list uuid);
  ends_sessions : option terminator;
  organizations : uuid → bool;
  locations : uuid → uuid → bool;
}.
Inductive command :=
| CreateTeam (id org : uuid) (requesting location : option uuid) (max limit : option Z) (e : option datetime) (draw : nat → pystr)
| GetTeam (k : uuid) (requesting : option uuid)
| ListOpenTeams (org : uuid) (location : option uuid)
| RevokeTeam (k : uuid) (requesting : option uuid) (reason : option pystr)
| JoinTeam (ids : keys) (id : uuid) (code s : pystr) (mac : option pystr)
| RemoveTeamMember (k g : uuid) (requesting : option uuid) (reason : option pystr)
| CheckSharedQuota (k : uuid) (requesting : option uuid)
| OnNetwork (e : GuestRequests.environment) (c : GuestRequests.command).
Record request := mk_request { who : caller; at_time : datetime; what : command }.
Definition ignore {A} (m : op A) : op unit := _ ← m; mret tt.
(** [get_shared_quota_resolver]. *)
Definition with_quota (d : database) (e : GuestRequests.environment) : GuestRequests.environment :=
  GuestRequests.mk_env (GuestRequests.zones e) (GuestRequests.timezones e) (GuestRequests.policy_lookup e)
    (GuestRequests.nas_only e) (Some (λ g n, is_over_shared_quota g (set_network n d))) (GuestRequests.parse_time e)
    (GuestRequests.access e) (GuestRequests.resolve_portal_config e) (GuestRequests.router_status e)
    (GuestRequests.verify_otp e) (GuestRequests.verify_guest_password e) (GuestRequests.scope e) (GuestRequests.term e)
    (GuestRequests.activity_reporting e) (GuestRequests.activity_reads e) (GuestRequests.nas_only_usage_cut_dispatcher e)
    (GuestRequests.access_tier_lookup e) (GuestRequests.connected_since_lookup e) (GuestRequests.nas_router e).
Definition handle (r : request) : op unit :=
  let c := who r in let now := at_time r in
  match what r with
  | CreateTeam id org q l m n e draw => ignore (new_team now (organizations c) (locations c) id org q l m n e draw)
  | GetTeam k q => ignore (get_team (teams_scope c) now k q)
  | ListOpenTeams org l => ignore (list_open_teams now org l)
  | RevokeTeam k q why => ignore (revoke_team (teams_scope c) (guests_scope c) (ends_sessions c) now k q why)
  | JoinTeam ids id code s mac => ignore (join_team now ids id code s mac)
  | RemoveTeamMember k g q why =>
      ignore (remove_team_member (teams_scope c) (guests_scope c) (ends_sessions c) now k g q why)
  | CheckSharedQuota k q => ignore (check_shared_quota (teams_scope c) (guests_scope c) now k q)
  | OnNetwork e x => d ← get; on_network (GuestRequests.handle (GuestRequests.mk_request (with_quota d e) now x))
  end.
Definition requests : list request → database → database := transactions handle.
End histories.

(** * Properties *)
(** ** What a request does to teams and members *)
Record rostered (d : database) : Prop := {
  rost_teams : keyed (teams d);
  rost_members : keyed (members d);
  rost_cap : ∀ t n, t ∈ teams d → max_members t = Some n → count_active_members (team_id t) d ≤ n;
  rost_seat : ∀ k g, rowcount (λ x, seated k x && bool_decide (member_guest x = g)) (members d) ≤ 1;
  rost_stint : ∀ m, m ∈ members d → member_active m = true ↔ left_at m = None;
  rost_home : ∀ m, m ∈ members d → get_team_by_id (member_team m) d ≠ None;
}.
(** What never changes of a team and of a stint. *)
Definition founding (t : GuestTeam) :=
  (team_id t, team_org t, team_location t, team_code t, max_members t, shared_data_limit_mb t, expires_at t).
Definition stint (m : GuestTeamMember) := (member_id m, member_team m, member_guest m, joined_at m).
Definition edge (s s' : GuestTeamStatus) : Prop := s' ∈ GUEST_TEAM_STATUS_TRANSITIONS s.
Record evolves (d d' : database) : Prop := {
  ev_teams : ∀ t, t ∈ teams d → ∃ t', t' ∈ teams d' ∧ founding t' = founding t ∧ rtc edge (team_status t) (team_status t');
  ev_members : ∀ m, m ∈ members d → ∃ m', m' ∈ members d' ∧ stint m' = stint m ∧ (member_active m = false → m' = m);
}.
#[local] Instance evolves_preorder : PreOrder evolves.
Proof.
  split.
  - intros d. split; [by intros t Ht; exists t|by intros m Hm; exists m].
  - intros d1 d2 d3 [T12 M12] [T23 M23]. split.
    + intros t (t2 & Ht2 & E2 & S2)%T12. destruct (T23 t2 Ht2) as (t3 & Ht3 & E3 & S3).
      exists t3. split_and!; [done|congruence|by etrans].
    + intros m (m2 & Hm2 & E2 & S2)%M12. destruct (M23 m2 Hm2) as (m3 & Hm3 & E3 & S3).
      exists m3. split_and!; [done|congruence|]. intros Ha. pose proof (S2 Ha) as ->. by apply S3.
Qed.
Definition step (d d' : database) : Prop := rostered d → rostered d' ∧ evolves d d'.
#[export] Instance step_preorder : PreOrder step.
Proof.
  split; [intros d Hd; by split|]. intros d1 d2 d3 H12 H23 H1. destruct (H12 H1) as [H2 E12].
  destruct (H23 H2) as [H3 E23]. split; [done|by etrans].
Qed.
Lemma step_network n d : step d (set_network n d).
Proof. intros []. split; [by split|split; [by intros t Ht; exists t|by intros m Hm; exists m]]. Qed.
Lemma step_set_team f t d : t ∈ teams d → (∀ x, founding (f x) = founding x) → edge (team_status t) (team_status (f t)) →
  step d (set_teams (set_row f (team_id t)) d).
Proof.
  intros Ht Hf He [Hk Hm Hc Hs Hst Hh].
  assert (∀ x, row_id (f x) = row_id x) as Hid by (intros x; specialize (Hf x); by injection Hf).
  split; [split; try done|split].
  - by apply keyed_set_row.
  - cbn [teams set_teams]. intros y n (x & Hx & ->)%elem_of_update Hy.
    assert (founding (if has_id (team_id t) x then f x else x) = founding x) as E by (by destruct (has_id _ _)).
    injection E as E1 _ _ _ E2 _ _. rewrite E1. rewrite E2 in Hy. by apply Hc.
  - cbn [members set_teams]. intros m Hin. unfold get_team_by_id in *. cbn [teams set_teams]. rewrite by_id_set_row by done.
    specialize (Hh m Hin). case_decide as E; [rewrite E|done]. by destruct (by_id (member_team m) (teams d)).
  - cbn [teams set_teams]. intros x Hx. exists (if has_id (team_id t) x then f x else x).
    split; [apply elem_of_update; by exists x|]. unfold has_id. case_bool_decide as E; [|done]. split; [done|].
    assert (x = t) as -> by (by apply (NoDup_map_eq row_id (teams d))). by apply rtc_once.
  - intros m Hin. by exists m.
Qed.
Lemma rowcount_split {R} (p : R → bool) x t : rowcount p (insert_row x t) = rowcount p t + (if p x then 1 else 0).
Proof. unfold insert_row. rewrite rowcount_app. unfold rowcount at 2, select. cbn. by destruct (p x). Qed.
Lemma step_insert_team t d : get_team_by_id (team_id t) d = None → (∀ n, max_members t = Some n → 1 ≤ n) →
  step d (set_teams (insert_row t) d).
Proof.
  intros Hno Hn [Hk Hm Hc Hs Hst Hh]. split; [split; try done|split].
  - by apply keyed_insert.
  - cbn [teams set_teams]. intros x n [Hx| ->%list_elem_of_singleton]%elem_of_app Hmax; [by apply Hc|].
    change (rowcount (seated (team_id t)) (members d) ≤ n). specialize (Hn n Hmax).
    rewrite rowcount_none; [lia|]. intros m Hin. unfold seated. case_bool_decide as E; [|done].
    destruct (Hh m Hin). by rewrite E.
  - cbn [members set_teams]. intros m Hin. unfold get_team_by_id. cbn [teams set_teams]. rewrite by_id_insert.
    specialize (Hh m Hin). unfold get_team_by_id in Hh. by destruct (by_id (member_team m) (teams d)).
  - intros x Hx. exists x. split; [apply elem_of_app; by left|done].
  - intros m Hin. by exists m.
Qed.
Lemma step_insert_member m d : by_id (member_id m) (members d) = None → member_active m = true → left_at m = None →
  (∃ t, get_team_by_id (member_team m) d = Some t
    ∧ ∀ n, max_members t = Some n → count_active_members (team_id t) d < n) →
  rowcount (λ x, seated (member_team m) x && bool_decide (member_guest x = member_guest m)) (members d) = 0 →
  step d (set_members (insert_row m) d).
Proof.
  intros Hno Ha Hl (t & Ht & Hn) H0 [Hk Hm Hc Hs Hst Hh]. pose proof (by_id_Some _ _ _ Ht) as [Hin Hid].
  change (team_id t = member_team m) in Hid. split; [split; try done|split].
  - by apply keyed_insert.
  - cbn [teams set_members]. intros x n Hx Hmax. unfold count_active_members. cbn [members set_members].
    rewrite rowcount_split. specialize (Hc x n Hx Hmax). unfold count_active_members in Hc.
    unfold seated at 2. rewrite Ha, andb_true_r. case_bool_decide as E; [|lia].
    assert (x = t) as -> by (apply (NoDup_map_eq row_id (teams d)); [done..|]; change (team_id x = team_id t); congruence).
    specialize (Hn n Hmax). unfold count_active_members in Hn. lia.
  - intros k g. cbn [members set_members]. rewrite rowcount_split. specialize (Hs k g).
    destruct (seated k m && bool_decide (member_guest m = g)) eqn:E; [|lia].
    unfold seated in E. bools. subst. rewrite H0. lia.
  - cbn [members set_members]. intros x [Hx| ->%list_elem_of_singleton]%elem_of_app; [by apply Hst|]. by rewrite Ha, Hl.
  - cbn [members set_members]. intros x [Hx| ->%list_elem_of_singleton]%elem_of_app; [by apply Hh|].
    change (get_team_by_id (member_team m) d ≠ None). by rewrite Ht.
  - intros x Hx. by exists x.
  - intros x Hx. exists x. split; [apply elem_of_app; by left|done].
Qed.
Lemma step_leave now why m d : m ∈ members d → member_active m = true →
  step d (set_members (set_row (left_team now why) (member_id m)) d).
Proof.
  intros Hin Ha [Hk Hm Hc Hs Hst Hh].
  assert (∀ x, x ∈ members d → row_id x = member_id m → x = m) as Huniq.
  { intros x Hx E. by apply (NoDup_map_eq row_id (members d)). }
  assert (∀ q : GuestTeamMember → bool, (∀ x, q x = true → member_active x = true) →
    rowcount q (set_row (left_team now why) (member_id m) (members d)) ≤ rowcount q (members d)) as Hless.
  { intros q Hq. apply rowcount_update_le. intros r Hr Hid E. by apply Hq in E. }
  split; [split; try done|split].
  - by apply keyed_set_row.
  - intros t n Ht Hmax. specialize (Hc t n Ht Hmax). unfold count_active_members in *. cbn [members set_members].
    etrans; [apply Hless|exact Hc]. intros x Hx. unfold seated in Hx. by bools.
  - intros k g. cbn [members set_members]. etrans; [apply Hless|apply (Hs k g)]. intros x Hx. unfold seated in Hx. by bools.
  - cbn [members set_members]. intros y (x & Hx & ->)%elem_of_update. destruct (has_id _ x); [done|by apply Hst].
  - cbn [members set_members]. intros y (x & Hx & ->)%elem_of_update. specialize (Hh x Hx). by destruct (has_id _ x).
  - intros t Ht. by exists t.
  - cbn [members set_members]. intros x Hx. exists (if has_id (member_id m) x then left_team now why x else x).
    split; [apply elem_of_update; by exists x|]. unfold has_id. case_bool_decide as E; [|done].
    rewrite (Huniq x Hx E). split; [done|]. intros Ha'. by rewrite Ha in Ha'.
Qed.
(** ** The operations *)
Lemma network_respects {A} (m : M Guest.database Guest.error A) : respects step (on_network m).
Proof. intros d. unfold on_network. destruct (m (network d)). apply step_network. Qed.
Lemma tried_respects {A} (m : op A) : respects step m → respects step (tried m).
Proof. intros Hm d. specialize (Hm d). unfold tried. destruct (m d) as [[a|e] d']; [done|]. by destruct (is_cloud_guest_error e). Qed.
Lemma reads_step {A} (m : op A) : reads m → respects step m.
Proof. intros Hm d. rewrite Hm. reflexivity. Qed.
Lemma respects_Ok {A} (m : op A) d a d' : respects step m → m d = (Ok a, d') → step d d'.
Proof. intros Hm H. specialize (Hm d). by rewrite H in Hm. Qed.
Ltac walks :=
  repeat match goal with
  | |- respects _ (_ ≫= _) => apply respects_bind; [typeclasses eauto| |intros ?]
  | |- respects _ (on_network _) => apply network_respects
  | |- respects _ (tried _) => apply tried_respects
  | |- respects _ (match ?x with _ => _ end) => destruct x
  | |- respects _ _ => solve [apply reads_step; auto with pres]
  end.
Section operations.
Context {PU : PyUnicode}.
Variables (teams_scope guest_scope : option (list uuid)) (term : option terminator) (now : datetime).

Lemma end_sessions_respects org why l : respects step (end_sessions guest_scope term now org why l).
Proof. induction l as [|x l IH]; cbn [end_sessions]; [walks|]. destruct (negb _); [exact IH|]. walks; exact IH. Qed.
Lemma end_sessions_of_respects org why g : respects step (end_sessions_of guest_scope term now org why g).
Proof. unfold end_sessions_of. apply respects_bind; [typeclasses eauto|walks|intros; apply end_sessions_respects]. Qed.
Lemma revoke_members_respects org why l : respects step (revoke_members guest_scope term now org why l).
Proof.
  induction l as [|m l IH]; cbn [revoke_members]; [walks|].
  apply respects_bind; [typeclasses eauto|apply tried_respects, end_sessions_of_respects|intros r].
  apply respects_bind; [typeclasses eauto|exact IH|intros; walks].
Qed.
Lemma pooled_bytes_respects org l : respects step (pooled_bytes guest_scope org l).
Proof. induction l as [|m l IH]; cbn [pooled_bytes]; [walks|]. walks; exact IH. Qed.

Lemma refresh_Ok t d t' d' : t ∈ teams d → _refresh_team_expiry now t d = (Ok t', d') →
  step d d' ∧ t' ∈ teams d' ∧ founding t' = founding t ∧ network d' = network d ∧ members d' = members d
  ∧ ∀ x, x ∈ teams d → team_id x ≠ team_id t → x ∈ teams d'.
Proof.
  intros Ht H. unfold _refresh_team_expiry in H. destruct (bool_decide _ && _) eqn:E.
  - apply andb_true_iff in E as [E%bool_decide_eq_true _]. injection H as <- <-. split_and!; try done.
    + apply step_set_team; [done..|]. unfold edge. rewrite E. cbn. set_solver.
    + cbn [teams set_teams]. apply elem_of_update. exists t. split; [done|]. unfold has_id. by rewrite bool_decide_true.
    + intros x Hx Hne. cbn [teams set_teams]. apply elem_of_update. exists x. split; [done|]. unfold has_id.
      by rewrite bool_decide_false.
  - injection H as <- <-. by split_and!.
Qed.
Lemma get_team_Ok k q d t d' : get_team teams_scope now k q d = (Ok t, d') →
  step d d' ∧ t ∈ teams d' ∧ team_id t = k ∧ network d' = network d ∧ members d' = members d.
Proof.
  intros H. unfold get_team in H. erewrite bind_step in H by (unfold gets; reflexivity). rewrite of_option_bind in H.
  destruct (get_team_by_id k d) as [x|] eqn:Hx; [|done]. apply by_id_Some in Hx as [Hx Hid].
  unfold _enforce_tenant_scope in H. rewrite raise_if_bind in H. destruct (other_tenant _ _); [done|].
  rewrite raise_if_bind in H. destruct (negb _); [done|].
  apply refresh_Ok in H as (H1 & H2 & H3 & H4 & H5 & _); [|done]. split_and!; try done.
  injection H3 as H3 _. by rewrite H3.
Qed.
Lemma team_code_Ok l d c d' : _generate_team_code l d = (Ok c, d') → d' = d.
Proof.
  induction l as [|x l IH]; [done|]. cbn [_generate_team_code]. erewrite bind_step by (unfold gets; reflexivity).
  destruct (find_existing_codes x d); [exact IH|by intros [= _ <-]].
Qed.
Lemma new_team_Ok orgs locs id org q l max limit e draw d t d' :
  new_team now orgs locs id org q l max limit e draw d = (Ok t, d') → step d d'.
Proof.
  intros H. unfold new_team, validate_max_members, validate_shared_data_limit, validate_team_expiry in H.
  rewrite raise_if_bind in H. destruct (match max with Some n => n <? 1 | None => false end) eqn:Hmax; [done|].
  repeat (rewrite raise_if_bind in H; match type of H with (if ?b then _ else _) = _ => destruct b; [done|] end).
  apply bind_Ok in H as (c & d1 & ->%team_code_Ok & H). unfold create_team in H.
  erewrite bind_step in H by (unfold gets; reflexivity). rewrite raise_if_bind in H.
  destruct (bool_decide _ || _) eqn:E; [done|]. injection H as _ <-. apply orb_false_iff in E as [E _].
  apply bool_decide_eq_false in E. cbn in E. apply step_insert_team; cbn.
  - unfold get_team_by_id. destruct (by_id _ _); [by destruct E|done].
  - intros n ->. apply Z.ltb_ge in Hmax. lia.
Qed.
Lemma open_teams_Ok l : ∀ d r d', NoDup (map team_id l) → (∀ t, t ∈ l → t ∈ teams d) →
  open_teams now l d = (Ok r, d') → step d d'.
Proof.
  induction l as [|t l IH]; intros d r d' Hnd Hl H; [by injection H as _ <-|]. cbn [open_teams] in H.
  cbn [map] in Hnd. apply NoDup_cons in Hnd as [Ht Hnd].
  apply bind_Ok in H as (t' & d1 & (H1 & _ & _ & _ & _ & Hother)%refresh_Ok & H); [|apply Hl; left].
  apply bind_Ok in H as (n & d2 & Hn & H). injection Hn as _ <-.
  apply bind_Ok in H as (rest & d2 & H2 & H). injection H as _ <-.
  etrans; [exact H1|]. eapply IH; [done| |exact H2]. intros x Hx. apply Hother; [apply Hl; by right|].
  intros E. apply Ht. rewrite <-E. by apply list_elem_of_In, in_map, list_elem_of_In.
Qed.
Lemma list_open_teams_Ok org loc d r d' : rostered d → list_open_teams now org loc d = (Ok r, d') → step d d'.
Proof.
  intros Hd H. unfold list_open_teams in H. erewrite bind_step in H by (unfold gets; reflexivity).
  eapply open_teams_Ok in H; [exact H| |].
  - apply NoDup_map_select, (rost_teams _ Hd).
  - intros t [Ht _]%elem_of_select. done.
Qed.
Lemma seat_for_Ok ids code who mac d t g seat d' : seat_for now ids code who mac d = (Ok (t, g, seat), d') →
  step d d' ∧ t ∈ teams d' ∧ team_status t = ACTIVE ∧ get_active_membership (team_id t) g d' = seat
  ∧ (seat = None → ∀ n, max_members t = Some n → count_active_members (team_id t) d' < n).
Proof.
  intros H. unfold seat_for in H. erewrite bind_step in H by (unfold gets; reflexivity). rewrite of_option_bind in H.
  destruct (get_team_by_code code d) as [t0|] eqn:Ht; [|done]. apply select_one_Some in Ht as [Ht _].
  apply bind_Ok in H as (t1 & d1 & (H1 & Ht1 & _)%refresh_Ok & H); [|done].
  rewrite raise_if_bind in H. case_bool_decide as Hst; [done|]. cbv zeta in H.
  erewrite bind_step in H by (unfold gets; reflexivity).
  assert (∀ A (m : M Guest.database Guest.error A) a e e', on_network m e = (Ok a, e') → step e e' ∧ teams e' = teams e) as Hnet.
  { intros A m a e e' Hm. unfold on_network in Hm. destruct (m (network e)) as [[x|x] n]; [|done]. injection Hm as _ <-.
    split; [apply step_network|done]. }
  apply bind_Ok in H as (u & d2 & [H2 E2]%Hnet & H). apply bind_Ok in H as (r & d3 & [H3 E3]%Hnet & H).
  apply bind_Ok in H as (dev & d4 & [H4 E4]%Hnet & H). erewrite bind_step in H by (unfold gets; reflexivity).
  assert (step d d4) as Hstep by (etrans; [exact H1|]; etrans; [exact H2|]; by etrans).
  assert (teams d4 = teams d1) as Ht4 by congruence. rewrite <-Ht4 in Ht1.
  destruct (get_active_membership _ _ d4) as [m|] eqn:Hm.
  - injection H as <- <- <- <-. by split_and!.
  - erewrite bind_step in H by (unfold gets; reflexivity). destruct (max_members t1) as [n|] eqn:Hmax.
    + rewrite raise_if_bind in H. destruct (n <=? _) eqn:E; [done|]. injection H as <- <- <- <-.
      split_and!; try done. intros _ n' Hn'. rewrite Hmax in Hn'. injection Hn' as <-. by apply Z.leb_gt.
    + injection H as <- <- <- <-. split_and!; try done. intros _ n' Hn'. by rewrite Hmax in Hn'.
Qed.
Lemma join_team_Ok ids id code who mac d r d' : join_team now ids id code who mac d = (Ok r, d') → step d d'.
Proof.
  intros H Hd. unfold join_team in H. apply bind_Ok in H as ([[t g] seat] & d1 & H1 & H).
  apply seat_for_Ok in H1 as (H1 & Ht & _ & Hseat & Hcap). cbn [fst snd] in *.
  destruct seat as [m|]; [injection H as _ <-; by apply H1|]. revert Hd. change (step d d'). etrans; [exact H1|].
  apply bind_Ok in H as (m & d2 & H2 & H). injection H as _ <-. unfold create_member in H2.
  erewrite bind_step in H2 by (unfold gets; reflexivity). rewrite raise_if_bind in H2.
  destruct (bool_decide _ || _) eqn:E; [done|]. injection H2 as _ <-. apply orb_false_iff in E as [E1 E2].
  apply bool_decide_eq_false in E1. cbn in E1, E2. apply Z.ltb_ge in E2. intros Hd. revert Hd. intros Hd.
  apply step_insert_member; try done; cbn.
  - destruct (by_id id (members d1)); [by destruct E1|done].
  - exists t. split; [apply by_id_unique; [apply Hd|done..]|by apply Hcap].
  - apply Z.le_antisymm; [exact E2|apply rowcount_nonneg].
Qed.
Lemma remove_Ok k g q why d r d' : remove_team_member teams_scope guest_scope term now k g q why d = (Ok r, d') → step d d'.
Proof.
  intros H. unfold remove_team_member in H. apply bind_Ok in H as (t & d1 & (H1 & _)%get_team_Ok & H).
  erewrite bind_step in H by (unfold gets; reflexivity). rewrite of_option_bind in H.
  destruct (get_active_membership (team_id t) g d1) as [m|] eqn:Hm; [|done]. apply select_one_Some in Hm as [Hm Hs].
  unfold seated in Hs. bools. etrans; [exact H1|]. etrans; [by apply (step_leave now why m)|].
  apply bind_Ok in H as (m' & d2 & Hm' & H). injection Hm' as _ <-.
  eapply respects_Ok; [|exact H]. apply respects_bind; [typeclasses eauto| |intros; walks].
  apply tried_respects, end_sessions_of_respects.
Qed.
Lemma revoke_team_Ok k q why d r d' : revoke_team teams_scope guest_scope term now k q why d = (Ok r, d') → step d d'.
Proof.
  intros H. unfold revoke_team in H. apply bind_Ok in H as (t & d1 & (H1 & Ht & _)%get_team_Ok & H).
  unfold validate_team_status_transition in H. rewrite raise_if_bind in H. case_bool_decide as E; [done|].
  apply bind_Ok in H as (t' & d2 & H2 & H). injection H2 as _ <-. etrans; [exact H1|].
  etrans; [apply (step_set_team (with_team_status REVOKED (Some now)) t); [done..|exact E]|].
  eapply respects_Ok; [|exact H]. walks. apply revoke_members_respects.
Qed.
Lemma check_shared_quota_Ok k q d r d' : check_shared_quota teams_scope guest_scope now k q d = (Ok r, d') → step d d'.
Proof.
  intros H. unfold check_shared_quota in H. apply bind_Ok in H as (t & d1 & (H1 & _)%get_team_Ok & H).
  etrans; [exact H1|]. eapply respects_Ok; [|exact H]. walks. apply pooled_bytes_respects.
Qed.
End operations.

Section claims.
Context {PU : PyUnicode}.
Lemma done_quietly {A} (m : op A) d d' : ignore m d = (Ok tt, d') → ∃ a, m d = (Ok a, d').
Proof. intros (a & d1 & H & H1)%bind_Ok. injection H1 as <-. by exists a. Qed.
Lemma team_request_step r d d' : rostered d → handle r d = (Ok tt, d') → rostered d' ∧ evolves d d'.
Proof.
  intros Hd. enough (handle r d = (Ok tt, d') → step d d') as H by (intros Hr; by apply H). unfold handle.
  destruct (what r); cbv zeta; try intros [a H]%done_quietly.
  - by eapply new_team_Ok.
  - by apply get_team_Ok in H as [H _].
  - by eapply list_open_teams_Ok.
  - by eapply revoke_team_Ok.
  - by eapply join_team_Ok.
  - by eapply remove_Ok.
  - by eapply check_shared_quota_Ok.
  - apply respects_Ok. walks. by intros d0.
Qed.
Lemma team_history_step rs d : rostered d → rostered (requests rs d) ∧ evolves d (requests rs d).
Proof.
  revert d. induction rs as [|r rs IH]; intros d Hd; [by split|]. unfold requests in *. cbn [transactions].
  destruct (transact_cases handle r d) as [->|H]; [by apply IH|]. destruct (team_request_step _ _ _ Hd H) as [H1 E1].
  destruct (IH _ H1) as [H2 E2]. split; [done|by etrans].
Qed.

(** C11: Over any history of requests about teams and of everything else on
    the network, no team ever has more members than it may, nobody has two
    seats in one team, no team is lost or changes what it was founded with,
    its status moves along the table and is final once it has ended, and a
    stint that has ended is never changed or resumed. *)
Theorem teams_stay_within_their_cap rs d : rostered d → let d' := requests rs d in
  (∀ t n, t ∈ teams d' → max_members t = Some n → count_active_members (team_id t) d' ≤ n)
  ∧ (∀ k g, rowcount (λ m, seated k m && bool_decide (member_guest m = g)) (members d') ≤ 1)
  ∧ (∀ t, t ∈ teams d → ∃ t', t' ∈ teams d' ∧ founding t' = founding t
      ∧ rtc edge (team_status t) (team_status t') ∧ (team_status t ≠ ACTIVE → team_status t' = team_status t))
  ∧ ∀ m, m ∈ members d → ∃ m', m' ∈ members d' ∧ stint m' = stint m ∧ (member_active m = false → m' = m).
Proof.
  intros Hd d'. destruct (team_history_step rs d Hd) as [Hr [Ht Hm]]. fold d' in Hr, Ht, Hm. split_and!; [apply Hr..| |done].
  intros t (t' & Hin & Hf & Hs)%Ht. exists t'. split_and!; [done..|]. intros Hne. clear -Hs Hne.
  destruct Hs as [|s s' s'' He _]; [done|]. unfold edge in He. destruct s; [done|..]; by apply not_elem_of_nil in He.
Qed.

(** ** The limit a team shares *)
Definition total {A} (f : A → Z) (l : list A) : Z := foldr (λ x n, f x + n) 0 l.
Lemma total_ext {A} (f h : A → Z) l : (∀ x, f x = h x) → total f l = total h l.
Proof. intros E. unfold total. induction l as [|x l IH]; cbn; [done|]. by rewrite E, IH. Qed.
Lemma total_perm {A} (f : A → Z) l l' : l ≡ₚ l' → total f l = total f l'.
Proof. unfold total. induction 1; cbn; lia. Qed.
Lemma total_select {A} (f : A → Z) q l : total f (select q l) = total (λ x, if q x then f x else 0) l.
Proof. unfold total, select. induction l as [|x l IH]; cbn; [done|]. destruct (q x); cbn; by rewrite IH. Qed.
Lemma total_add {A} (f h : A → Z) l : total (λ x, f x + h x) l = total f l + total h l.
Proof. unfold total. induction l as [|x l IH]; cbn; [done|]. rewrite IH. lia. Qed.
Lemma total_zero {A} (l : list A) : total (λ _, 0) l = 0.
Proof. unfold total. by induction l. Qed.
Lemma total_swap {A B} (f : A → B → Z) l l' : total (λ x, total (f x) l') l = total (λ y, total (λ x, f x y) l) l'.
Proof.
  induction l as [|x l IH]; [symmetry; apply (total_zero l')|].
  change (total (f x) l' + total (λ x, total (f x) l') l = total (λ y, f x y + total (λ x, f x y) l) l').
  by rewrite total_add, IH.
Qed.
Lemma total_indicator {A} (q : A → bool) c l : total (λ x, if q x then c else 0) l = rowcount q l * c.
Proof.
  unfold total, rowcount, select. induction l as [|x l IH]; cbn [foldr List.filter]; [done|]. rewrite IH.
  destruct (q x); cbn [length]; lia.
Qed.
Definition is_member (k g : uuid) (d : database) : bool :=
  0 <? rowcount (λ m, seated k m && bool_decide (member_guest m = g)) (members d).
(** The bytes of the active sessions of a team's members. *)
Definition pooled (k : uuid) (d : database) : Z :=
  total (λ x, if Guest.is_active x && is_member k (Guest.session_guest x) d then Guest.total_bytes x else 0)
    (Guest.sessions (network d)).
Lemma usage_is_pooled k d : rostered d → team_usage_bytes k d = pooled k d.
Proof.
  intros Hd. unfold team_usage_bytes, pooled.
  change (total (λ m, active_bytes (list_sessions_for_guest (member_guest m) (network d))) (list_active_members k d)
    = total (λ x, if Guest.is_active x && is_member k (Guest.session_guest x) d then Guest.total_bytes x else 0)
        (Guest.sessions (network d))).
  set (act := λ x, if Guest.is_active x then Guest.total_bytes x else 0).
  unfold list_active_members. rewrite (total_perm _ _ _ (sorting.merge_sort_Permutation _ _)), total_select.
  transitivity (total (λ m, total (λ x, if seated k m && bool_decide (member_guest m = Guest.session_guest x) then act x else 0)
    (Guest.sessions (network d))) (members d)).
  { apply total_ext. intros m. destruct (seated k m); [|by rewrite total_zero]. unfold list_sessions_for_guest.
    change (active_bytes ?l) with (total act l). rewrite (total_perm _ _ _ (sorting.merge_sort_Permutation _ _)), total_select.
    apply total_ext. intros x. unfold Guest.of_guest. cbn [andb].
    by rewrite (bool_decide_ext (Guest.session_guest x = member_guest m) (member_guest m = Guest.session_guest x)). }
  rewrite total_swap. apply total_ext. intros x. rewrite total_indicator. unfold is_member.
  pose proof (rost_seat _ Hd k (Guest.session_guest x)) as Hone.
  pose proof (rowcount_nonneg (λ m, seated k m && bool_decide (member_guest m = Guest.session_guest x)) (members d)) as Hpos.
  destruct (Z.ltb_spec 0 (rowcount (λ m, seated k m && bool_decide (member_guest m = Guest.session_guest x)) (members d))) as [E|E].
  - rewrite andb_true_r. unfold act in *. assert (rowcount (λ m, seated k m && bool_decide (member_guest m = Guest.session_guest x)) (members d) = 1) as -> by lia.
    destruct (Guest.is_active x); lia.
  - rewrite andb_false_r. assert (rowcount (λ m, seated k m && bool_decide (member_guest m = Guest.session_guest x)) (members d) = 0) as -> by lia. lia.
Qed.
Lemma over_iff g d : rostered d → is_over_shared_quota g d = true ↔
  ∃ t mb, t ∈ teams d ∧ shared_data_limit_mb t = Some mb ∧ is_member (team_id t) g d = true
    ∧ mb * Guest.BYTES_PER_MB ≤ pooled (team_id t) d.
Proof.
  intros Hd. unfold is_over_shared_quota. rewrite existsb_exists. split.
  - intros (m & Hm & H). apply list_elem_of_In, elem_of_select in Hm as [Hm Hg]. bools.
    destruct (get_team_by_id (member_team m) d) as [t|] eqn:Ht; [|done]. apply by_id_Some in Ht as [Ht Hid].
    destruct (shared_data_limit_mb t) as [mb|] eqn:Hmb; [|done]. exists t, mb. split_and!; [done..| |].
    + unfold is_member. apply Z.ltb_lt. apply (rowcount_pos _ _ m Hm). unfold seated. change (team_id t = member_team m) in Hid.
      rewrite Hid, !bool_decide_true by done. match goal with Ha : member_active m = true |- _ => by rewrite Ha end.
    + rewrite <-usage_is_pooled by done. by apply Z.leb_le.
  - intros (t & mb & Ht & Hmb & Hmem & Hle). unfold is_member in Hmem. apply Z.ltb_lt in Hmem.
    destruct (select (λ m, seated (team_id t) m && bool_decide (member_guest m = g)) (members d)) as [|m l] eqn:E;
      [unfold rowcount in Hmem; rewrite E in Hmem; cbn in Hmem; lia|].
    assert (m ∈ select (λ m, seated (team_id t) m && bool_decide (member_guest m = g)) (members d)) as Hm by (rewrite E; left).
    apply elem_of_select in Hm as [Hm Hs]. unfold seated in Hs. bools. exists m. split.
    + apply list_elem_of_In, elem_of_select. split; [done|]. by rewrite bool_decide_true.
    + assert (get_team_by_id (member_team m) d = Some t) as -> by (apply by_id_unique; [apply Hd|done|done]).
      rewrite Hmb. apply Z.leb_le. by rewrite usage_is_pooled.
Qed.
(** An exception an operation does not raise. *)
Definition never (e : Guest.error) {A} (m : M Guest.database Guest.error A) : Prop := ∀ n, (m n).1 ≠ Raise e.
Lemma never_bind e {A B} (m : M Guest.database Guest.error A) (f : A → M Guest.database Guest.error B) :
  never e m → (∀ a, never e (f a)) → never e (m ≫= f).
Proof.
  intros Hm Hf n H. specialize (Hm n). unfold mbind, M_bind in H. destruct (m n) as [[a|x] n']; [exact (Hf a n' H)|].
  cbn in H. injection H as ->. by apply Hm.
Qed.
Lemma check_usages_never r l : never Guest.GuestTeamSharedQuotaExceededError (GuestQuota.check_usages r l).
Proof.
  induction l as [|[p x] l IH]; [by intros n|]. cbn [GuestQuota.check_usages].
  repeat (apply never_bind; [intros n; unfold raise_if; by case_match|intros _]). exact IH.
Qed.
Lemma current_usages_never zones g org tz now existing ps :
  never Guest.GuestTeamSharedQuotaExceededError (GuestQuota.current_usages zones g org tz now existing ps).
Proof.
  induction ps as [|p ps IH]; [by intros n|]. cbn [GuestQuota.current_usages]. apply never_bind.
  - intros n. unfold GuestQuota.current_usage. destruct (existing p) as [x|]; [|done]. by destruct (_ <? _).
  - intros x. apply never_bind; [exact IH|by intros l n].
Qed.
(** C9: A sign-in is refused for the limit a team shares exactly when the
    guest holds a seat in a team that has such a limit and the active
    sessions of all of its members together have carried that much: every
    session of every member counts once, in whatever order and however the
    seats came about. *)
Theorem shared_limit_closes_the_gate e now g org location tier d : rostered d →
  (GuestQuota.enforce_fup_quota (GuestRequests.zones e) (GuestRequests.timezones e) (GuestRequests.policy_lookup e)
     (GuestRequests.team_quota (with_quota d e)) g org location tier now (network d)).1
    = Raise Guest.GuestTeamSharedQuotaExceededError
  ↔ ∃ t mb, t ∈ teams d ∧ shared_data_limit_mb t = Some mb ∧ is_member (team_id t) g d = true
      ∧ mb * Guest.BYTES_PER_MB ≤ pooled (team_id t) d.
Proof.
  intros Hd. rewrite <-over_iff by done. unfold GuestQuota.enforce_fup_quota. cbn [GuestRequests.team_quota with_quota].
  erewrite bind_step by (unfold gets; reflexivity). assert (set_network (network d) d = d) as -> by by destruct d.
  rewrite raise_if_bind. destruct (is_over_shared_quota g d); [done|]. split; [|done].
  intros H. exfalso. revert H. destruct (GuestRequests.policy_lookup e) as [pdb|]; [|done]. rewrite of_option_bind.
  destruct (GuestQuota.effective_rules _ _ _ _ _) as [r|]; [|done]. destruct (_ && _); [done|]. revert d Hd. intros d _.
  generalize (network d). refine (never_bind _ _ _ _ _).
  - unfold GuestQuota.get_or_reset_quota_usages. apply never_bind; [by intros n|intros existing; apply current_usages_never].
  - intros l. apply check_usages_never.
Qed.

(** ** Ending the sessions of the members *)
Section ending.
Variables (guest_scope : option (list uuid)) (term : option terminator) (now : datetime) (org : uuid) (why : pystr).
(** What a session becomes, which can be ended, and whose can be looked up. *)
Definition terminated (n : Guest.database) (x : Guest.GuestSession) : Guest.GuestSession :=
  cut term false (Guest.with_status Guest.TERMINATED (Some now) (Some why)) (Guest.get_guest_by_id (Guest.session_guest x) n) x.
Definition endable (x : Guest.GuestSession) : bool := Guest.is_active x && reachable guest_scope (Some org) x.
Definition stuck (x : Guest.GuestSession) : bool := Guest.is_active x && negb (reachable guest_scope (Some org) x).
Definition visible (g : uuid) (n : Guest.database) : bool :=
  match Guest.get_guest_by_id g n with
  | Some gu => negb (other_tenant (Guest.guest_org gu) (Some org)) && Tenancy.enforce_entity_location (Guest.guest_location gu) guest_scope
  | None => false
  end.
Definition ending (p : Guest.GuestSession → bool) (n : Guest.database) : Guest.database :=
  Guest.set_sessions (update p (terminated n)) n.
Lemma terminated_id n x : Guest.session_id (terminated n x) = Guest.session_id x.
Proof. by apply cut_id. Qed.
Lemma terminated_guest n x : Guest.session_guest (terminated n x) = Guest.session_guest x.
Proof. unfold terminated, cut, record_enforced. by destruct (disconnect_outcome _ _ _ _).1. Qed.
Lemma terminated_inactive n x : Guest.is_active (terminated n x) = false.
Proof. unfold terminated, Guest.is_active. by rewrite cut_status. Qed.
Lemma update_update {R} (p q : R → bool) f t : (∀ r, r ∈ t → p r = true → q (f r) = false) →
  update q f (update p f t) = update (λ r, p r || q r) f t.
Proof.
  intros H. unfold update. rewrite map_map. apply map_ext_in. intros r Hr%list_elem_of_In. specialize (H r Hr).
  destruct (p r); cbn; [by rewrite H|done].
Qed.
Lemma ending_ending p q n : (∀ x, p x = true → q (terminated n x) = false) →
  ending q (ending p n) = ending (λ x, p x || q x) n.
Proof.
  intros H. unfold ending. rewrite set_sessions_set. apply set_sessions_ext.
  change (terminated (Guest.set_sessions ?f n)) with (terminated n). apply update_update. auto.
Qed.
Lemma ending_ext p q n : (∀ x, x ∈ Guest.sessions n → p x = q x) → ending p n = ending q n.
Proof.
  intros H. unfold ending, Guest.set_sessions. f_equal. apply update_ext. intros r Hr. by rewrite H.
Qed.
Lemma ending_none n : ending (λ _, false) n = n.
Proof. unfold ending, Guest.set_sessions. rewrite update_false by done. by destruct n. Qed.
Lemma ending_keyed p n : keyed (Guest.sessions n) → keyed (Guest.sessions (ending p n)).
Proof. unfold keyed, ending. cbn. rewrite map_update; [done|]. intros x. apply terminated_id. Qed.

Lemma end_one x d : keyed (Guest.sessions (network d)) → x ∈ Guest.sessions (network d) → Guest.is_active x = true →
  tried (on_network (terminate_session term guest_scope now (Guest.session_id x) (Some org) (Some why))) d
  = if reachable guest_scope (Some org) x
    then (Ok (Some (terminated (network d) x)), set_network (ending (λ y, bool_decide (Guest.session_id y = Guest.session_id x)) (network d)) d)
    else (Ok None, d).
Proof.
  intros Hk Hx Ha. assert (Guest.get_session_by_id (Guest.session_id x) (network d) = Some x) as Hget by by apply by_id_unique.
  unfold tried, on_network, terminate_session. destruct (reachable guest_scope (Some org) x) eqn:Hr.
  - assert (Guest.TERMINATED ∈ Guest.GUEST_SESSION_STATUS_TRANSITIONS (Guest.status x)) as Hs.
    { unfold Guest.is_active in Ha. apply bool_decide_eq_true in Ha. rewrite Ha. cbn. set_solver. }
    pose proof (ending_run term now Guest.TERMINATED (Some why) false (Guest.session_id x) x (network d) Hk Hget Hs) as Hrun.
    erewrite bind_step by (by apply get_session_run). rewrite Hrun.
    cbv zeta. f_equal. f_equal. unfold ending, written, Guest.set_sessions. f_equal.
    unfold set_row. apply update_ext. intros r Hin. unfold has_id. change (row_id r) with (Guest.session_id r).
    case_bool_decide as E; [|done]. assert (r = x) as -> by (by apply (NoDup_map_eq row_id (Guest.sessions (network d)))). done.
  - unfold get_session. rewrite bind_assoc. erewrite bind_step by (unfold gets; reflexivity). rewrite Hget.
    rewrite bind_assoc, of_option_bind, bind_assoc. unfold reachable in Hr. apply andb_false_iff in Hr.
    destruct d as [n ts ms]. cbn [network set_network teams members] in *. rewrite raise_if_bind.
    destruct (other_tenant _ _) eqn:Ho; [done|]. rewrite bind_assoc, raise_if_bind.
    destruct Hr as [Hr|Hr]; [done|]. by rewrite Hr.
Qed.
Definition among (l : list Guest.GuestSession) (x : Guest.GuestSession) : bool :=
  bool_decide (Guest.session_id x ∈ map Guest.session_id l) && endable x.
Lemma set_network_set n n' d : set_network n (set_network n' d) = set_network n d.
Proof. done. Qed.
Lemma set_network_same d : set_network (network d) d = d.
Proof. by destruct d. Qed.
Lemma end_sessions_eq l : ∀ d, keyed (Guest.sessions (network d)) → NoDup (map Guest.session_id l) →
  (∀ x, x ∈ l → x ∈ Guest.sessions (network d)) →
  end_sessions guest_scope term now org why l d
  = (Ok (map Guest.session_id (select endable l), existsb stuck l), set_network (ending (among l) (network d)) d).
Proof.
  induction l as [|x l IH]; intros d Hk Hnd Hl.
  { cbn [end_sessions map]. rewrite (ending_ext _ (λ _, false)), ending_none, set_network_same; [done|]. intros x _. unfold among.
    rewrite bool_decide_false; [done|]. apply not_elem_of_nil. }
  cbn [map] in Hnd. apply NoDup_cons in Hnd as [Hx Hnd]. assert (x ∈ Guest.sessions (network d)) as Hin by (apply Hl; left).
  assert (∀ y, y ∈ Guest.sessions (network d) → Guest.session_id y = Guest.session_id x → y = x) as Huniq.
  { intros y Hy E. by apply (NoDup_map_eq row_id (Guest.sessions (network d))). }
  assert (∀ y, y ∈ Guest.sessions (network d) → endable x = false → among l y = among (x :: l) y) as Hskip.
  { intros y Hy Hno. unfold among. cbn [map]. destruct (decide (Guest.session_id y = Guest.session_id x)) as [E|E].
    - rewrite (Huniq y Hy E), Hno. by rewrite !andb_false_r.
    - f_equal. apply bool_decide_ext. rewrite elem_of_cons. tauto. }
  assert (∀ y, y ∈ l → y ∈ Guest.sessions (network d)) as Hl' by (intros y Hy; apply Hl; by right).
  cbn [end_sessions]. destruct (Guest.is_active x) eqn:Ha; cbn [negb].
  2: { assert (endable x = false) as Hno by (unfold endable; by rewrite Ha).
       rewrite IH by done. unfold select. cbn [List.filter existsb]. rewrite Hno. unfold stuck at 2. rewrite Ha. cbn [andb orb].
       by rewrite (ending_ext _ (among (x :: l))) by auto. }
  pose proof (end_one x d Hk Hin Ha) as Hone. destruct (reachable guest_scope (Some org) x) eqn:Hr.
  - erewrite bind_step by exact Hone. set (n := ending _ (network d)) in *.
    assert (endable x = true) as Hyes by (unfold endable; by rewrite Ha).
    erewrite bind_step.
    2: { apply IH; [by apply ending_keyed|done|]. intros y Hy. cbn [network set_network]. unfold n, ending. cbn [Guest.sessions Guest.set_sessions].
         apply elem_of_update. exists y. split; [by apply Hl'|]. rewrite bool_decide_false; [done|]. intros E. apply Hx. rewrite <-E.
         by apply list_elem_of_In, in_map, list_elem_of_In. }
    unfold mret, M_ret. cbn [fst snd network set_network]. unfold select. cbn [List.filter existsb map]. rewrite Hyes. unfold stuck at 2. rewrite Ha, Hr.
    f_equal. rewrite set_network_set. f_equal. unfold n. rewrite ending_ending.
    + apply ending_ext. intros y Hy. unfold among. cbn [map]. destruct (decide (Guest.session_id y = Guest.session_id x)) as [E|E].
      * rewrite (Huniq y Hy E), Hyes. rewrite (bool_decide_true (_ = _)) by done. symmetry. cbn [orb]. apply andb_true_iff. split; [|done].
        apply bool_decide_true. left.
      * rewrite (bool_decide_false (Guest.session_id y = _)) by done. cbn [orb]. f_equal. apply bool_decide_ext. rewrite elem_of_cons. tauto.
    + intros y _. unfold among, endable. by rewrite terminated_inactive, andb_false_r.
  - assert (endable x = false) as Hno by (unfold endable; by rewrite Ha, Hr).
    erewrite bind_step by exact Hone. erewrite bind_step by (by apply IH).
    unfold mret, M_ret. cbn [fst snd]. unfold select. cbn [List.filter existsb]. rewrite Hno. unfold stuck at 1. rewrite Ha, Hr. cbn [andb orb negb].
    by rewrite (ending_ext _ (among (x :: l))) by auto.
Qed.
(** Of one guest, and of the members of a list. *)
Definition theirs (g : uuid) (x : Guest.GuestSession) : bool := Guest.of_guest g x && endable x.
Lemma require_visible g n : ∃ e, is_cloud_guest_error (OfGuest e) = true ∧
  require_guest guest_scope g (Some org) n
  = (match Guest.get_guest_by_id g n with
     | Some gu => if visible g n then Ok gu else Raise e
     | None => Raise e
     end, n).
Proof.
  unfold visible, require_guest. destruct (Guest.get_guest_by_id g n) as [gu|] eqn:Hgu.
  - destruct (other_tenant (Guest.guest_org gu) (Some org)) eqn:Ho.
    + exists Guest.CrossOrganizationGuestAccessError. split; [done|]. erewrite bind_step by (unfold gets; reflexivity).
      by rewrite Hgu, of_option_bind, raise_if_bind, Ho.
    + exists Guest.CrossLocationGuestAccessError. split; [done|]. erewrite bind_step by (unfold gets; reflexivity).
      rewrite Hgu, of_option_bind, raise_if_bind, Ho, raise_if_bind. cbn [negb andb]. by destruct (Tenancy.enforce_entity_location _ _).
  - exists Guest.GuestNotFoundError. split; [done|]. erewrite bind_step by (unfold gets; reflexivity). by rewrite Hgu, of_option_bind.
Qed.
Lemma end_sessions_of_eq g d : keyed (Guest.sessions (network d)) →
  tried (end_sessions_of guest_scope term now org why g) d
  = if visible g (network d)
    then (Ok (Some (map Guest.session_id (select endable (list_sessions_for_guest g (network d))),
                    existsb (λ x, Guest.of_guest g x && stuck x) (Guest.sessions (network d)))),
          set_network (ending (theirs g) (network d)) d)
    else (Ok None, d).
Proof.
  intros Hk. unfold tried, end_sessions_of.
  assert (∀ x, x ∈ list_sessions_for_guest g (network d) ↔ x ∈ Guest.sessions (network d) ∧ Guest.of_guest g x = true) as Hlist.
  { intros x. unfold list_sessions_for_guest. rewrite (sorting.merge_sort_Permutation later). apply elem_of_select. }
  destruct (require_visible g (network d)) as (e & He & Hrun).
  destruct (Guest.get_guest_by_id g (network d)) as [gu|] eqn:Hgu.
  2: { unfold visible. rewrite Hgu. unfold on_network, get_guest_sessions, mbind, M_bind. rewrite Hrun.
       cbn [fst snd]. rewrite set_network_same. by rewrite He. }
  pose proof (by_id_Some _ _ _ Hgu) as [_ Hid]. change (Guest.guest_id gu = g) in Hid.
  destruct (visible g (network d)).
  2: { unfold on_network, get_guest_sessions, mbind, M_bind. rewrite Hrun. cbn [fst snd]. rewrite set_network_same. by rewrite He. }
  erewrite bind_step.
  2: { unfold on_network, get_guest_sessions, mbind, M_bind. rewrite Hrun. unfold gets. rewrite Hid. reflexivity. }
  rewrite set_network_same. rewrite end_sessions_eq; [|done| |by intros x [? _]%Hlist].
  2: { unfold list_sessions_for_guest. rewrite (sorting.merge_sort_Permutation later). by apply NoDup_map_select. }
  f_equal; [f_equal; f_equal|].
  - f_equal. apply eq_true_iff_eq. rewrite !existsb_exists. split.
    + intros (x & Hx%list_elem_of_In & Hs). apply Hlist in Hx as [Hx Hg]. exists x. rewrite Hg. by rewrite <-list_elem_of_In.
    + intros (x & Hx & Hs). apply andb_true_iff in Hs as [Hg Hs]. exists x. split; [|done]. apply list_elem_of_In, Hlist.
      by rewrite list_elem_of_In.
  - f_equal. apply ending_ext. intros x Hx. unfold among, theirs. f_equal. apply eq_true_iff_eq. rewrite bool_decide_eq_true. split.
    + intros (y & E & Hy)%list_elem_of_fmap. apply Hlist in Hy as [Hy Hg].
      assert (x = y) as -> by (by apply (NoDup_map_eq row_id (Guest.sessions (network d)))). done.
    + intros Hg. apply list_elem_of_In, in_map, list_elem_of_In, Hlist. done.
Qed.
Definition hit (n : Guest.database) (l : list GuestTeamMember) (x : Guest.GuestSession) : bool :=
  existsb (λ m, visible (member_guest m) n && Guest.of_guest (member_guest m) x) l && endable x.
Definition held (n : Guest.database) (m : GuestTeamMember) : bool :=
  negb (visible (member_guest m) n)
  || existsb (λ x, Guest.of_guest (member_guest m) x && stuck x) (Guest.sessions n).
Lemma held_ending q n m : (∀ x, q x = true → endable x = true) → held (ending q n) m = held n m.
Proof.
  intros Hq. unfold held. change (visible ?g (ending q n)) with (visible g n). f_equal. unfold ending. cbn [Guest.sessions Guest.set_sessions].
  induction (Guest.sessions n) as [|x t IH]; [done|]. cbn [existsb update map]. unfold update in IH. rewrite IH. f_equal.
  destruct (q x) eqn:E; [|done]. unfold stuck. rewrite terminated_inactive. apply Hq in E. unfold endable in E.
  apply andb_true_iff in E as [_ E]. rewrite E. by rewrite !andb_false_r.
Qed.
Lemma revoke_members_eq l : ∀ d, keyed (Guest.sessions (network d)) →
  ∃ ended, revoke_members guest_scope term now org why l d
    = (Ok (ended, map member_guest (select (held (network d)) l)), set_network (ending (hit (network d) l) (network d)) d)
  ∧ ∀ k, k ∈ ended ↔ ∃ x, x ∈ Guest.sessions (network d) ∧ Guest.session_id x = k ∧ hit (network d) l x = true.
Proof.
  induction l as [|m l IH]; intros d Hk.
  { exists []. cbn [revoke_members]. rewrite (ending_ext _ (λ _, false)), ending_none, set_network_same by done. split; [done|].
    intros k. split; [by intros H%not_elem_of_nil|]. by intros (x & _ & _ & ?). }
  cbn [revoke_members]. pose proof (end_sessions_of_eq (member_guest m) d Hk) as Hone.
  destruct (visible (member_guest m) (network d)) eqn:Hv.
  - erewrite bind_step by exact Hone. set (n := ending (theirs (member_guest m)) (network d)) in *.
    destruct (IH (set_network n d)) as (ended & Hrun & Hended); [by apply ending_keyed|].
    erewrite bind_step by exact Hrun. cbn [network set_network fst snd] in *.
    assert (∀ x, theirs (member_guest m) x = true → hit n l (terminated (network d) x) = false) as Hdone.
    { intros x _. unfold hit, endable. by rewrite terminated_inactive, andb_false_r. }
    assert (∀ x, theirs (member_guest m) x || hit n l x = hit (network d) (m :: l) x) as Hhit.
    { intros x. unfold hit, theirs. change (λ m0 : GuestTeamMember, visible (member_guest m0) n && Guest.of_guest (member_guest m0) x)
        with (λ m0 : GuestTeamMember, visible (member_guest m0) (network d) && Guest.of_guest (member_guest m0) x).
      cbn [existsb]. rewrite Hv. cbn [andb]. by destruct (Guest.of_guest _ x), (existsb _ l), (endable x). }
    eexists. split.
    + unfold mret, M_ret. f_equal.
      * f_equal. f_equal. unfold select. cbn [List.filter]. rewrite (filter_ext (held n) (held (network d))).
        2: { intros y. apply held_ending. intros x Hx. unfold theirs in Hx. by apply andb_true_iff in Hx as [_ ?]. }
        assert (held (network d) m = existsb (λ x, Guest.of_guest (member_guest m) x && stuck x) (Guest.sessions (network d))) as ->
          by (unfold held; by rewrite Hv). by destruct (existsb _ _).
      * rewrite set_network_set. f_equal. unfold n at 2. rewrite ending_ending by done. by apply ending_ext.
    + intros k. rewrite elem_of_app, Hended. split.
      * intros [(x & -> & Hx)%list_elem_of_fmap|(y & Hy & <- & Hh)].
        -- apply elem_of_select in Hx as [Hx He]. unfold list_sessions_for_guest in Hx.
           rewrite (sorting.merge_sort_Permutation later) in Hx. apply elem_of_select in Hx as [Hx Hg].
           exists x. split_and!; [done..|]. rewrite <-Hhit. unfold theirs. by rewrite Hg, He.
        -- unfold n, ending in Hy. cbn [Guest.sessions Guest.set_sessions] in Hy. apply elem_of_update in Hy as (x & Hx & ->).
           destruct (theirs (member_guest m) x) eqn:Et; [by rewrite Hdone in Hh|]. exists x. split_and!; [done..|].
           by rewrite <-Hhit, Et.
      * intros (x & Hx & <- & Hh). rewrite <-Hhit in Hh. destruct (theirs (member_guest m) x) eqn:Et.
        -- left. unfold theirs in Et. apply andb_true_iff in Et as [Hg He]. apply list_elem_of_In, in_map, list_elem_of_In.
           apply elem_of_select. split; [|done]. unfold list_sessions_for_guest. rewrite (sorting.merge_sort_Permutation later).
           by apply elem_of_select.
        -- right. exists x. split_and!; [|done..]. unfold n, ending. cbn [Guest.sessions Guest.set_sessions]. apply elem_of_update.
           exists x. by rewrite Et.
  - erewrite bind_step by exact Hone. destruct (IH d Hk) as (ended & Hrun & Hended). erewrite bind_step by exact Hrun.
    assert (∀ x, hit (network d) (m :: l) x = hit (network d) l x) as Hhit by (intros x; unfold hit; cbn [existsb]; by rewrite Hv).
    exists ended. split.
    + unfold mret, M_ret, select. cbn [fst snd List.filter].
      assert (held (network d) m = true) as -> by (unfold held; by rewrite Hv). cbn [map].
      by rewrite (ending_ext (hit (network d) (m :: l)) (hit (network d) l)) by auto.
    + intros k. rewrite Hended. by setoid_rewrite Hhit.
Qed.
End ending.

(** The members of a team, by their rows. *)
Lemma is_member_iff k g d : is_member k g d = true ↔ ∃ m, m ∈ list_active_members k d ∧ member_guest m = g.
Proof.
  unfold is_member, list_active_members. setoid_rewrite (sorting.merge_sort_Permutation earlier). rewrite Z.ltb_lt. split.
  - intros H. destruct (select (λ m, seated k m && bool_decide (member_guest m = g)) (members d)) as [|m l] eqn:E;
      [unfold rowcount in H; rewrite E in H; cbn in H; lia|].
    assert (m ∈ select (λ m, seated k m && bool_decide (member_guest m = g)) (members d)) as Hm by (rewrite E; left).
    apply elem_of_select in Hm as [Hm [Hs Hg%bool_decide_eq_true]%andb_true_iff]. exists m. by rewrite elem_of_select.
  - intros (m & [Hm Hs]%elem_of_select & Hg). apply (rowcount_pos _ _ m Hm). rewrite Hs. by apply bool_decide_eq_true.
Qed.
Lemma count_is_length k d : Z.of_nat (length (list_active_members k d)) = count_active_members k d.
Proof. unfold list_active_members, count_active_members, rowcount. by rewrite (sorting.merge_sort_Permutation earlier). Qed.
(** Whose session is ended, and whose member is left over. *)
Definition ended_by (gs : option (list uuid)) (k org : uuid) (d : database) (x : Guest.GuestSession) : bool :=
  endable gs org x && is_member k (Guest.session_guest x) d && visible gs org (Guest.session_guest x) (network d).
Lemma hit_ended_by gs k org d x : hit gs org (network d) (list_active_members k d) x = ended_by gs k org d x.
Proof.
  unfold hit, ended_by. rewrite andb_comm. rewrite <-andb_assoc. f_equal. apply eq_true_iff_eq.
  rewrite existsb_exists, andb_true_iff, is_member_iff. unfold Guest.of_guest. setoid_rewrite andb_true_iff. setoid_rewrite bool_decide_eq_true.
  setoid_rewrite <-list_elem_of_In. split.
  - intros (m & Hm & Hv & E). rewrite E. eauto.
  - intros [(m & Hm & E) Hv]. exists m. by rewrite E.
Qed.
Lemma held_iff gs k org d g : g ∈ map member_guest (select (held gs org (network d)) (list_active_members k d)) ↔
  is_member k g d = true ∧ (visible gs org g (network d) = false
    ∨ ∃ x, x ∈ Guest.sessions (network d) ∧ Guest.session_guest x = g ∧ stuck gs org x = true).
Proof.
  assert (∀ m, held gs org (network d) m = true ↔ visible gs org (member_guest m) (network d) = false
    ∨ ∃ x, x ∈ Guest.sessions (network d) ∧ Guest.session_guest x = member_guest m ∧ stuck gs org x = true) as Hheld.
  { intros m. unfold held. rewrite orb_true_iff, negb_true_iff, existsb_exists. apply or_iff_compat_l, exist_proper. intros x.
    rewrite andb_true_iff, <-list_elem_of_In. unfold Guest.of_guest. by rewrite bool_decide_eq_true. }
  rewrite is_member_iff, list_elem_of_fmap. setoid_rewrite elem_of_select. setoid_rewrite Hheld. split.
  - intros (m & -> & Hm & H). split; [by exists m|exact H].
  - intros [(m & Hm & <-) H]. exists m. by split_and!.
Qed.
(** What a revocation that succeeds has done. *)
Lemma revoke_run caller_scope gs term now k q why d r d' : rostered d → keyed (Guest.sessions (network d)) →
  revoke_team caller_scope gs term now k q why d = (Ok r, d') →
  ∃ t org ended, let why := reason_or (u "guest_team_revoked") why in
    r = (t, count_active_members k d, ended, map member_guest (select (held gs org (network d)) (list_active_members k d)))
  ∧ get_team_by_id k d' = Some t ∧ team_org t = org ∧ team_status t = REVOKED ∧ members d' = members d
  ∧ network d' = ending term now why (ended_by gs k org d) (network d)
  ∧ ∀ i, i ∈ ended ↔ ∃ x, x ∈ Guest.sessions (network d) ∧ Guest.session_id x = i ∧ ended_by gs k org d x = true.
Proof.
  intros Hd Hk H. unfold revoke_team in H. apply bind_Ok in H as (t & d1 & (H1 & Ht & Hid & Hn & Hm)%get_team_Ok & H).
  destruct (H1 Hd) as [Hd1 _]. unfold validate_team_status_transition in H. rewrite raise_if_bind in H. case_bool_decide as E; [done|].
  apply bind_Ok in H as (t' & d2 & H2 & H). injection H2 as <- <-. erewrite bind_step in H by (unfold gets; reflexivity).
  set (d2 := set_teams _ d1) in *. assert (network d2 = network d) as Hn2 by exact Hn.
  assert (list_active_members (team_id t) d2 = list_active_members k d) as Hl2 by (rewrite Hid; unfold list_active_members; cbn [members d2 set_teams]; by rewrite Hm).
  rewrite Hl2 in H. destruct (revoke_members_eq gs term now (team_org t) (reason_or (u "guest_team_revoked") why) (list_active_members k d) d2)
    as (ended & Hrun & Hended); [by rewrite Hn2|].
  erewrite bind_step in H by exact Hrun. injection H as <- <-. change (network d2) with (network d1) in *. rewrite Hn in *.
  exists (with_team_status REVOKED (Some now) t), (team_org t), ended. cbv zeta. rewrite count_is_length. split_and!; try done.
  - unfold get_team_by_id, d2. cbn [teams set_network set_teams]. rewrite by_id_set_row by done. rewrite decide_True by done.
    assert (by_id (team_id t) (teams d1) = Some t) as -> by (by apply by_id_unique; [apply Hd1|..]). done.
  - cbn [network set_network]. apply ending_ext. intros x _. apply hit_ended_by.
  - intros i. rewrite Hended. by setoid_rewrite hit_ended_by.
Qed.
(** C10: When a team is revoked it is REVOKED afterwards with its roll of
    members intact, and nobody is left online unnoticed: of the members, those
    reported as failed are exactly the ones whose guest the caller may not see
    or who have an active session out of reach, and no other member has an
    active session any more.  The sessions reported as ended are exactly the
    active, reachable ones of visible members; each of them is TERMINATED,
    and every other session, of a member or not, is as it was. *)
Theorem revoked_team_is_offline caller_scope gs term now k q why d t n ended failed d' :
  rostered d → keyed (Guest.sessions (network d)) →
  revoke_team caller_scope gs term now k q why d = (Ok (t, n, ended, failed), d') →
  let org := team_org t in
  get_team_by_id k d' = Some t ∧ team_status t = REVOKED ∧ members d' = members d ∧ n = count_active_members k d
  ∧ (∀ g, g ∈ failed ↔ is_member k g d = true ∧ (visible gs org g (network d) = false
       ∨ ∃ x, x ∈ Guest.sessions (network d) ∧ Guest.session_guest x = g ∧ stuck gs org x = true))
  ∧ (∀ x, x ∈ Guest.sessions (network d') → is_member k (Guest.session_guest x) d = true →
       Guest.session_guest x ∉ failed → Guest.is_active x = false)
  ∧ (∀ i, i ∈ ended ↔ ∃ x, x ∈ Guest.sessions (network d) ∧ Guest.session_id x = i ∧ endable gs org x = true
       ∧ is_member k (Guest.session_guest x) d = true ∧ visible gs org (Guest.session_guest x) (network d) = true)
  ∧ (∀ y, y ∈ Guest.sessions (network d') → ∃ x, x ∈ Guest.sessions (network d) ∧ Guest.session_id y = Guest.session_id x
       ∧ Guest.session_guest y = Guest.session_guest x
       ∧ if bool_decide (Guest.session_id x ∈ ended) then Guest.status y = Guest.TERMINATED else y = x)
  ∧ map Guest.session_id (Guest.sessions (network d')) = map Guest.session_id (Guest.sessions (network d)).
Proof.
  intros Hd Hk H. apply revoke_run in H as (t0 & org & ended0 & E & Ht & <- & Hs & Hm & Hn & Hended); [|done..].
  cbv zeta in *. injection E as <- -> <- ->. set (why' := reason_or _ _) in *.
  assert (∀ x, ended_by gs k (team_org t) d x = true ↔ endable gs (team_org t) x = true ∧ is_member k (Guest.session_guest x) d = true
    ∧ visible gs (team_org t) (Guest.session_guest x) (network d) = true) as Hby.
  { intros x. unfold ended_by. rewrite !andb_true_iff. tauto. }
  assert (∀ y, y ∈ Guest.sessions (network d') → ∃ x, x ∈ Guest.sessions (network d)
    ∧ y = if ended_by gs k (team_org t) d x then terminated term now why' (network d) x else x) as Hback.
  { intros y. rewrite Hn. unfold ending. cbn [Guest.sessions Guest.set_sessions]. apply elem_of_update. }
  split_and!; try done.
  - intros g. apply held_iff.
  - intros y (x & Hx & ->)%Hback. destruct (ended_by _ _ _ _ x) eqn:Eb; [intros _ _; apply terminated_inactive|].
    intros Hmem Hnot. apply not_true_iff_false. intros Ha. apply Hnot, held_iff. split; [done|].
    destruct (visible gs (team_org t) (Guest.session_guest x) (network d)) eqn:Hv; [|by left]. right. exists x. split_and!; [done..|].
    apply not_true_iff_false in Eb. unfold stuck. rewrite Ha. destruct (reachable _ _ x) eqn:Hr; [|done].
    exfalso. apply Eb, Hby. unfold endable. by rewrite Ha, Hr.
  - intros i. rewrite Hended. setoid_rewrite Hby. done.
  - intros y (x & Hx & ->)%Hback. exists x. case_bool_decide as Ei.
    + apply Hended in Ei as (z & Hz & Eid & Eb). assert (z = x) as -> by (by apply (NoDup_map_eq row_id (Guest.sessions (network d)))).
      rewrite Eb. split_and!; [done|apply terminated_id|apply terminated_guest|]. unfold terminated. apply cut_status.
    + destruct (ended_by _ _ _ _ x) eqn:Eb; [|done]. exfalso. apply Ei, Hended. eauto.
  - rewrite Hn. unfold ending. cbn [Guest.sessions Guest.set_sessions]. apply map_update. intros x. apply terminated_id.
Qed.
End claims.

Module examples.
#[local] Existing Instance ascii_only.
Import GuestLogin.examples.
(** The venue of [GuestLogin.examples], and who asks. *)
Definition start : database := mk_database GuestLogin.examples.d [] [].
Definition desk : caller := mk_caller None None None (λ o, bool_decide (o = 10%positive)) (λ _ _, true).
Definition ask (t : datetime) (c : command) : request := mk_request desk (minutes t) c.
Definition open_house : GuestRequests.environment :=
  GuestRequests.mk_env zones ∅ None nowhere None clock no_rules config online right_code no_password None None None None
    false false false (λ _, Some (10%positive, false)).
Definition keys_from (k : uuid) : keys := mk_keys k (k + 1) (k + 2).
Definition join (t : datetime) (k : uuid) (n : pystr) : request := ask t (JoinTeam (keys_from k) (k + 3) (u "TEAM01") n None).
(** A team of two, which shares one megabyte: its first member is online when
    the second comes, a third finds no seat, and then the limit is reached. *)
Definition day : list request :=
  [ask 80 (CreateTeam 200 10 None (Some 20%positive) (Some 2) (Some 1) None (λ _, u "TEAM01"));
   ask 90 (OnNetwork open_house (GuestRequests.SignIn (mk_keys 100 101 102)
     (ByCode (u "+14155550100") (u "1234") Guest.OTP_SMS None 20 60 phone None)));
   join 91 300 (u "+14155550100"); join 92 400 (u "+14155550101"); join 93 500 (u "+14155550102");
   ask 95 (OnNetwork open_house (GuestRequests.ReportUsage 102 1000000 48576))].
Definition evening : database := requests day start.
Lemma start_rostered : rostered start.
Proof.
  split; [apply (bool_decide_unpack _); by vm_compute|apply (bool_decide_unpack _); by vm_compute| |done| |];
    [intros t n H|intros m H|intros m H]; by apply not_elem_of_nil in H.
Qed.
Lemma evening_rostered : rostered evening.
Proof. by apply team_history_step, start_rostered. Qed.

Lemma teams_stay_within_their_cap_witness :
  count_active_members 200 evening = 2 ∧ map max_members (teams evening) = [Some 2]
  ∧ ∀ t n, t ∈ teams evening → max_members t = Some n → count_active_members (team_id t) evening ≤ n.
Proof.
  split; [by vm_compute|]. split; [by vm_compute|]. by apply (teams_stay_within_their_cap day start start_rostered).
Defined.
Definition gate (g : uuid) (d : database) : outcome Guest.error unit :=
  (GuestQuota.enforce_fup_quota zones ∅ None (GuestRequests.team_quota (with_quota d open_house)) g 10 20 None
     (minutes 96) (network d)).1.
Lemma shared_limit_closes_the_gate_witness :
  gate 400 evening = Raise Guest.GuestTeamSharedQuotaExceededError ∧ pooled 200 evening = 1048576.
Proof.
  split; [|by vm_compute].
  apply (shared_limit_closes_the_gate open_house (minutes 96) 400 10 20 None evening evening_rostered).
  destruct (teams evening) as [|t l] eqn:E; [by vm_compute in E|].
  vm_compute in E. injection E as <- _. eexists _, 1. split; [left|]. split; [done|]. split; by vm_compute.
Defined.
Definition revocation := revoke_team None None None (minutes 100) 200 None None evening.
Lemma revoked_team_is_offline_witness :
  ∃ t d', revocation = (Ok (t, 2, [102%positive], []), d') ∧ team_status t = REVOKED
    ∧ ∀ x, x ∈ Guest.sessions (network d') → Guest.session_guest x = 50%positive → Guest.is_active x = false.
Proof.
  eexists _, _. split; [by vm_compute|].
  edestruct (revoked_team_is_offline None None None (minutes 100) 200 None None evening) as (_ & Hs & _ & _ & _ & Hoff & _);
    [exact evening_rostered|apply (bool_decide_unpack _); by vm_compute|by vm_compute|]. split; [exact Hs|].
  intros x Hx E. apply (Hoff x Hx); [rewrite E; by vm_compute|apply not_elem_of_nil].
Defined.

(** Two guests who ask for the last seat at once both get it. *)
Definition before_noon : database := requests (take 3 day) start.
Lemma racing_joins_exceed_the_cap :
  ∃ t g g' d1 d2 m m', seat_for (minutes 92) (keys_from 400) (u "TEAM01") (u "+14155550101") None before_noon = (Ok (t, g, None), d1)
  ∧ seat_for (minutes 92) (keys_from 500) (u "TEAM01") (u "+14155550102") None before_noon = (Ok (t, g', None), d2)
  ∧ max_members t = Some 2
  ∧ let d := (_ ← create_member (mk_member m (team_id t) g (minutes 92) true None None);
              create_member (mk_member m' (team_id t) g' (minutes 92) true None None)) d2 in
    (∃ x, d.1 = Ok x) ∧ count_active_members (team_id t) d.2 = 3.
Proof.
  eexists _, _, _, _, _, 403%positive, 503%positive. split; [by vm_compute|]. split; [by vm_compute|]. split; [done|].
  split; [eexists; by vm_compute|by vm_compute].
Qed.
(** A team that is revoked still holds its members to its limit. *)
Lemma revoked_team_still_closes_the_gate :
  let d := requests (take 5 day ++ [ask 94 (RevokeTeam 200 None None);
    ask 95 (OnNetwork open_house (GuestRequests.SignIn (mk_keys 600 601 602)
      (ByCode (u "+14155550101") (u "1234") Guest.OTP_SMS None 20 60 phone None)));
    ask 96 (OnNetwork open_house (GuestRequests.ReportUsage 602 1048576 0))]) start in
  map team_status (teams d) = [REVOKED] ∧ gate 400 d = Raise Guest.GuestTeamSharedQuotaExceededError.
Proof. split; by vm_compute. Qed.
End examples.

End GuestTeams.
