(* ===== verification/Router.v ===== *)
(** The fleet: which routers exist, in what state, and whether they talk to us.

    [src/backend/app/domains/router]: registration, the life cycle of a
    router ([enums.py], [service.py]), its single-use provisioning tokens and
    heartbeats, and the three sweeps of [tasks.py] — expired tokens, stale
    heartbeats, and the two-minute reachability verdict with its guards.  The
    agents' credentials and the controllers' integrations are tables other
    domains write.  Audit rows, SNMP, local administrator passwords, the
    bootstrap script and listings are left out. *)

From S2P Require Import Prelude Table Session PyStr Auth Ip.

Module Router.

(** ** Enumerations and errors *)
Inductive RouterStatus :=
| PENDING_PROVISIONING | PROVISIONING | ONLINE | OFFLINE | SUSPENDED | DECOMMISSIONED.
#[export] Instance status_eq_dec : EqDecision RouterStatus.
Proof. solve_decision. Defined.
Definition ROUTER_STATUS_TRANSITIONS (s : RouterStatus) : list RouterStatus :=
  match s with
  | PENDING_PROVISIONING => [PROVISIONING; DECOMMISSIONED]
  | PROVISIONING => [ONLINE; DECOMMISSIONED]
  | ONLINE => [OFFLINE; SUSPENDED; DECOMMISSIONED; PENDING_PROVISIONING]
  | OFFLINE => [ONLINE; SUSPENDED; DECOMMISSIONED; PENDING_PROVISIONING]
  | SUSPENDED => [OFFLINE; DECOMMISSIONED]
  | DECOMMISSIONED => []
  end.
Inductive RouterHealthStatus := HEALTHY | UNHEALTHY.
Inductive RouterReachabilityState := REACHABLE | UNREACHABLE | UNKNOWN.
#[export] Instance reachability_eq_dec : EqDecision RouterReachabilityState.
Proof. solve_decision. Defined.

Inductive error :=
| RouterNotFoundError | DuplicateSerialNumberError | DuplicateMacAddressError | RouterDecommissionedError
| InvalidRouterStatusTransitionError | CrossOrganizationRouterAccessError
| ProvisioningTokenNotFoundError | ProvisioningTokenExpiredError | ProvisioningTokenAlreadyUsedError
| ProvisioningTokenRouterStateError | ProvisioningTokenGenerationNotAllowedError
| RouterVendorNotProvisionableError | RouterLiveCredentialRotationFailedError
| RouterVendorNotSupportedError | RouterVendorChangeRefusedError | RouterCredentialDecryptionError
| NasOnlySiteRefusedError
(** Of collaborators and of the database. *)
| LocationNotFoundError | LocationArchivedError | CrossOrganizationLocationAccessError
| OrganizationNotFoundError | DuplicateRecordError.

(** ** Rows *)
(** The columns the reachability sweep owns, and no other code reads. *)
Record reachability := mk_reachability {
  reachability_state : option RouterReachabilityState;
  state_changed_at : option datetime;
  consecutive_misses : Z;
  consecutive_hits : Z;
}.
Record presence := mk_presence {
  status : RouterStatus;
  last_seen_at : option datetime;
  last_health_check_at : option datetime;
  health_status : option RouterHealthStatus;
}.
(** What the platform needs to log in to the device. *)
Record access := mk_access {
  management_ip_address : option pystr;
  public_ip_address : option pystr;
  api_username : option pystr;
  api_credentials_encrypted : option pystr;
}.
Record Router := mk_router {
  router_id : uuid;
  router_location : uuid;
  router_org : uuid;
  router_name : pystr;
  serial_number : pystr;
  mac_address : pystr;
  model : pystr;
  vendor : pystr;
  routeros_version : option pystr;
  router_access : access;
  router_presence : presence;
  router_reachability : reachability;
  router_deleted : bool;
}.
#[export] Instance router_has_id : HasId Router := router_id.
Record RouterProvisioningToken := mk_token {
  token_id : uuid;
  token_router : uuid;
  token_hash : pystr;
  expires_at : datetime;
  used_at : option datetime;
  token_deleted : bool;
}.
#[export] Instance token_has_id : HasId RouterProvisioningToken := token_id.
(** [router_agent_credentials]. *)
Record RouterAgentCredential := mk_credential {
  credential_router : uuid;
  credential_expires_at : datetime;
  last_used_at : option datetime;
  revoked_at : option datetime;
  credential_deleted : bool;
}.
Record Location := mk_location {
  location_id : uuid; location_org : uuid; archived : bool; location_deleted : bool }.
#[export] Instance location_has_id : HasId Location := location_id.
Record NetworkIntegration := mk_integration {
  integration_router : option uuid; integration_location : option uuid; integration_deleted : bool }.

Record database := mk_database {
  routers : list Router;
  tokens : list RouterProvisioningToken;
  credentials : list RouterAgentCredential;
  locations : list Location;
  integrations : list NetworkIntegration;
  (** The parent of each organization there is. *)
  organizations : gmap uuid (option uuid);
}.
Definition set_routers f d :=
  mk_database (f (routers d)) (tokens d) (credentials d) (locations d) (integrations d) (organizations d).
Definition set_tokens f d :=
  mk_database (routers d) (f (tokens d)) (credentials d) (locations d) (integrations d) (organizations d).
Abbreviation op := (M database error).

Definition with_presence (f : presence → presence) (r : Router) : Router :=
  mk_router (router_id r) (router_location r) (router_org r) (router_name r) (serial_number r) (mac_address r)
    (model r) (vendor r) (routeros_version r) (router_access r) (f (router_presence r))
    (router_reachability r) (router_deleted r).
Definition with_access (f : access → access) (r : Router) : Router :=
  mk_router (router_id r) (router_location r) (router_org r) (router_name r) (serial_number r) (mac_address r)
    (model r) (vendor r) (routeros_version r) (f (router_access r)) (router_presence r)
    (router_reachability r) (router_deleted r).
Definition with_reachability (f : reachability → reachability) (r : Router) : Router :=
  mk_router (router_id r) (router_location r) (router_org r) (router_name r) (serial_number r) (mac_address r)
    (model r) (vendor r) (routeros_version r) (router_access r) (router_presence r)
    (f (router_reachability r)) (router_deleted r).
Definition with_identity (s m : pystr) (r : Router) : Router :=
  mk_router (router_id r) (router_location r) (router_org r) (router_name r) s m
    (model r) (vendor r) (routeros_version r) (router_access r) (router_presence r)
    (router_reachability r) (router_deleted r).
Definition with_name_model (n m : pystr) (r : Router) : Router :=
  mk_router (router_id r) (router_location r) (router_org r) n (serial_number r) (mac_address r)
    m (vendor r) (routeros_version r) (router_access r) (router_presence r)
    (router_reachability r) (router_deleted r).
Definition with_vendor (v : pystr) (r : Router) : Router :=
  mk_router (router_id r) (router_location r) (router_org r) (router_name r) (serial_number r) (mac_address r)
    (model r) v (routeros_version r) (router_access r) (router_presence r)
    (router_reachability r) (router_deleted r).
Definition with_version (v : option pystr) (r : Router) : Router :=
  mk_router (router_id r) (router_location r) (router_org r) (router_name r) (serial_number r) (mac_address r)
    (model r) (vendor r) v (router_access r) (router_presence r)
    (router_reachability r) (router_deleted r).
Definition soft_deleted (r : Router) : Router :=
  mk_router (router_id r) (router_location r) (router_org r) (router_name r) (serial_number r) (mac_address r)
    (model r) (vendor r) (routeros_version r) (router_access r) (router_presence r)
    (router_reachability r) true.
Definition with_status (s : RouterStatus) : Router → Router :=
  with_presence (λ p, mk_presence s (last_seen_at p) (last_health_check_at p) (health_status p)).
Definition state (r : Router) : RouterStatus := status (router_presence r).
Definition used (at_time : datetime) (t : RouterProvisioningToken) : RouterProvisioningToken :=
  mk_token (token_id t) (token_router t) (token_hash t) (expires_at t) (Some at_time) (token_deleted t).
Definition token_soft_deleted (t : RouterProvisioningToken) : RouterProvisioningToken :=
  mk_token (token_id t) (token_router t) (token_hash t) (expires_at t) (used_at t) true.

(** ** Vendors: [vendor_capabilities.py] *)
Definition MIKROTIK : pystr := u "mikrotik".
Definition ARUBA_INSTANT_ON_VENDOR : pystr := u "aruba_instant_on".
Definition CONTROLLER_MANAGED_VENDORS : list pystr := [u "tplink_omada"; ARUBA_INSTANT_ON_VENDOR].
Definition NAS_ONLY_VENDORS : list pystr := [ARUBA_INSTANT_ON_VENDOR].
Definition SUPPORTED_ROUTER_VENDORS : list pystr := [MIKROTIK; u "tplink_omada"; ARUBA_INSTANT_ON_VENDOR].
Definition MIKROTIK_MODEL_MARKERS : list pystr :=
  [u "mikrotik"; u "routerboard"; u "hex"; u "hap"; u "ccr"; u "crs"; u "rb"].
Definition is_controller_managed (v : pystr) : bool := bool_decide (v ∈ CONTROLLER_MANAGED_VENDORS).
Definition is_nas_only (r : Router) : bool := bool_decide (vendor r ∈ NAS_ONLY_VENDORS).
Definition has_agent_evidence (r : Router) : bool :=
  bool_decide (last_seen_at (router_presence r) ≠ None) || bool_decide (routeros_version r ≠ None)
  || bool_decide (last_health_check_at (router_presence r) ≠ None)
  || bool_decide (api_credentials_encrypted (router_access r) ≠ None).
Definition supports_zero_touch_provisioning (r : Router) : bool :=
  negb (is_controller_managed (vendor r) && negb (has_agent_evidence r)).
(** [marker in folded]. *)
Fixpoint occurs (p s : pystr) : bool :=
  startswith p s || match s with [] => false | _ :: s => occurs p s end.
Section model.
Context {PU : PyUnicode}.
Definition looks_like_mikrotik_hardware (m : pystr) : bool :=
  negb (bool_decide (m = [])) && existsb (λ p, occurs p (lower m)) MIKROTIK_MODEL_MARKERS.
End model.

(** ** [repository.py] *)
Definition get_by_id (k : uuid) (include_deleted : bool) (d : database) : option Router :=
  match by_id k (routers d) with
  | Some r => if router_deleted r && negb include_deleted then None else Some r
  | None => None
  end.
Definition get_by_serial_number (s : pystr) (d : database) : option Router :=
  select_one (λ r, negb (router_deleted r) && bool_decide (serial_number r = s)) (routers d).
Definition get_by_mac_address (m : pystr) (d : database) : option Router :=
  select_one (λ r, negb (router_deleted r) && bool_decide (mac_address r = m)) (routers d).
Definition count_integrations_referencing_router (k : uuid) (d : database) : Z :=
  rowcount (λ i, bool_decide (integration_router i = Some k) && negb (integration_deleted i)) (integrations d).
Definition count_live_integrations_at_location (k : uuid) (d : database) : Z :=
  rowcount (λ i, bool_decide (integration_location i = Some k) && negb (integration_deleted i)) (integrations d).
Definition routers_holding_identity (s m : pystr) (d : database) : list Router :=
  select (λ r, bool_decide (serial_number r = s) || bool_decide (mac_address r = m)) (routers d).
(** The columns declared [unique]: a flush that breaks them raises. *)
Definition taken (k : uuid) (s m : pystr) (d : database) : bool :=
  existsb (λ r, bool_decide (router_id r ≠ k)
                && (bool_decide (serial_number r = s) || bool_decide (mac_address r = m))) (routers d).
Definition create_row (r : Router) : op Router :=
  clash ← gets (λ d, bool_decide (by_id (router_id r) (routers d) ≠ None)
                     || taken (router_id r) (serial_number r) (mac_address r) d);
  _ ← raise_if clash DuplicateRecordError;
  _ ← modify (set_routers (insert_row r));
  mret r.
(** [update_router] of the repository: one ORM instance is written. *)
Definition write (f : Router → Router) (r : Router) : op Router :=
  let r' := f r in
  clash ← gets (taken (router_id r) (serial_number r') (mac_address r'));
  _ ← raise_if clash DuplicateRecordError;
  _ ← modify (set_routers (update (same_key row_id r) (λ _, r')));
  mret r'.

(** ** Scope and life cycle *)
Definition parent_is (org o : uuid) (d : database) : op unit :=
  match organizations d !! org with
  | None => raise OrganizationNotFoundError
  | Some parent => raise_if (bool_decide (parent ≠ Some o)) CrossOrganizationRouterAccessError
  end.
Definition _enforce_organization_scope (r : Router) (requesting : option uuid) : op unit :=
  match requesting with
  | None => mret tt
  | Some o =>
      if bool_decide (router_org r = o) then mret tt
      else d ← get; parent_is (router_org r) o d
  end.
Definition get_router (k : uuid) (requesting : option uuid) (include_deleted : bool) : op Router :=
  found ← gets (get_by_id k include_deleted);
  r ← of_option found RouterNotFoundError;
  _ ← _enforce_organization_scope r requesting;
  mret r.
Definition get_location (k : uuid) (requesting : option uuid) : op Location :=
  found ← gets (λ d, match by_id k (locations d) with
                     | Some l => if location_deleted l then None else Some l
                     | None => None
                     end);
  l ← of_option found LocationNotFoundError;
  match requesting with
  | None => mret l
  | Some o =>
      if bool_decide (location_org l = o) then mret l
      else
        d ← get;
        match organizations d !! location_org l with
        | None => raise OrganizationNotFoundError
        | Some parent =>
            _ ← raise_if (bool_decide (parent ≠ Some o)) CrossOrganizationLocationAccessError;
            mret l
        end
  end.
Definition allowed_transition (s s' : RouterStatus) : bool := bool_decide (s' ∈ ROUTER_STATUS_TRANSITIONS s).
Definition _validate_transition (r : Router) (s : RouterStatus) : op unit :=
  raise_if (negb (allowed_transition (state r) s)) InvalidRouterStatusTransitionError.
Definition _set_status (k : uuid) (requesting : option uuid) (s : RouterStatus) : op Router :=
  r ← get_router k requesting false;
  _ ← _validate_transition r s;
  write (with_status s) r.
Definition suspend_router k requesting := _set_status k requesting SUSPENDED.
Definition reinstate_router k requesting := _set_status k requesting OFFLINE.
Definition reset_to_pending_provisioning k requesting := _set_status k requesting PENDING_PROVISIONING.
Definition decommission_router (k : uuid) (requesting : option uuid) : op Router :=
  r ← get_router k requesting false;
  _ ← _validate_transition r DECOMMISSIONED;
  r ← write (with_status DECOMMISSIONED) r;
  write soft_deleted r.

Section service.
Context {PU : PyUnicode} {CR : Auth.Crypto} {P6 : Ip.PyIpv6}.

Definition _normalize_mac (m : pystr) : pystr := upper (strip m).
Definition nothing_known : reachability := mk_reachability None None 0 0.
Record new_router := {
  new_name : pystr; new_serial : pystr; new_mac : pystr; new_model : pystr; new_vendor : pystr;
  new_management_ip : option pystr; new_public_ip : option pystr;
  new_username : option pystr; new_secret : option pystr }.
Definition given (s : option pystr) : option pystr := match s with Some [] => None | _ => s end.
(** [nonce] is the randomness of the encryption. *)
Definition registered (k : uuid) (nonce : N) (l : Location) (n : new_router) (s m : pystr) : Router :=
  mk_router k (location_id l) (location_org l) (new_name n) s m (new_model n) (new_vendor n) None
    (mk_access (new_management_ip n) (new_public_ip n) (new_username n)
       (Auth.fernet_encrypt nonce <$> given (new_secret n)))
    (mk_presence PENDING_PROVISIONING None None None) nothing_known false.
Definition create_router (k : uuid) (nonce : N) (location : uuid) (requesting : option uuid)
    (n : new_router) : op Router :=
  l ← get_location location requesting;
  _ ← raise_if (archived l) LocationArchivedError;
  let s := strip (new_serial n) in
  let m := _normalize_mac (new_mac n) in
  same_serial ← gets (get_by_serial_number s);
  _ ← raise_if (bool_decide (same_serial ≠ None)) DuplicateSerialNumberError;
  same_mac ← gets (get_by_mac_address m);
  _ ← raise_if (bool_decide (same_mac ≠ None)) DuplicateMacAddressError;
  create_row (registered k nonce l n s m).

(** *** [update_router]: the keys the request carries *)
Record router_patch := {
  patch_name : option pystr; patch_model : option pystr;
  patch_mac : option pystr; patch_serial : option pystr;
  patch_routeros : option (option pystr);
  patch_management_ip : option (option pystr); patch_public_ip : option (option pystr);
  patch_username : option (option pystr); patch_secret : option pystr }.
Definition put {A} (o : option A) (a : A) : A := default a o.
Definition patched (nonce : N) (m s : option pystr) (p : router_patch) (r : Router) : Router :=
  with_name_model (put (patch_name p) (router_name r)) (put (patch_model p) (model r))
    (with_identity (put s (serial_number r)) (put m (mac_address r))
      (with_version (put (patch_routeros p) (routeros_version r)) (with_access (λ a, mk_access
         (put (patch_management_ip p) (management_ip_address a))
         (put (patch_public_ip p) (public_ip_address a))
         (put (patch_username p) (api_username a))
         (match given (patch_secret p) with
          | Some x => Some (Auth.fernet_encrypt nonce x)
          | None => api_credentials_encrypted a
          end)) r))).
Definition get_decrypted_api_secret (r : Router) : op (option pystr) :=
  match api_credentials_encrypted (router_access r) with
  | None => mret None
  | Some c => s ← of_option (Auth.fernet_decrypt c) RouterCredentialDecryptionError; mret (Some s)
  end.
(** The first address that is not empty. *)
Definition host (r : Router) : option pystr :=
  match given (management_ip_address (router_access r)) with
  | Some h => Some h
  | None => given (public_ip_address (router_access r))
  end.
(** The rotator changes the password on the device: what it answers to the
    host, the user, the old and the new password. *)
Variable credential_rotator : option (pystr → pystr → pystr → pystr → bool).
Definition _rotate_live_api_secret_if_needed (p : router_patch) (r : Router) (new_secret : pystr) : op unit :=
  match credential_rotator with
  | None => mret tt
  | Some rotate =>
      if bool_decide (patch_management_ip p ≠ None) || bool_decide (patch_public_ip p ≠ None)
         || bool_decide (patch_username p ≠ None)
      then mret tt
      else
        old ← get_decrypted_api_secret r;
        match host r, given (api_username (router_access r)), given old with
        | Some h, Some n, Some o => raise_if (negb (rotate h n o new_secret)) RouterLiveCredentialRotationFailedError
        | _, _, _ => mret tt
        end
  end.
Definition other (k : uuid) (o : option Router) : bool :=
  match o with Some r => bool_decide (router_id r ≠ k) | None => false end.
Definition update_router (nonce : N) (k : uuid) (requesting : option uuid) (p : router_patch) : op Router :=
  r ← get_router k requesting false;
  _ ← raise_if (bool_decide (state r = DECOMMISSIONED)) RouterDecommissionedError;
  let m := _normalize_mac <$> patch_mac p in
  let s := strip <$> patch_serial p in
  same_mac ← gets (λ d, match m with Some m => get_by_mac_address m d | None => None end);
  _ ← raise_if (other (router_id r) same_mac) DuplicateMacAddressError;
  same_serial ← gets (λ d, match s with Some s => get_by_serial_number s d | None => None end);
  _ ← raise_if (other (router_id r) same_serial) DuplicateSerialNumberError;
  _ ← match given (patch_secret p) with
      | Some x => _rotate_live_api_secret_if_needed p r x
      | None => mret tt
      end;
  write (patched nonce m s p) r.

Definition change_router_vendor (k : uuid) (v : pystr) (override_contradicting_evidence : bool) : op Router :=
  _ ← raise_if (bool_decide (v ∉ SUPPORTED_ROUTER_VENDORS)) RouterVendorNotSupportedError;
  r ← get_router k None false;
  _ ← raise_if (bool_decide (state r = DECOMMISSIONED)) RouterDecommissionedError;
  if bool_decide (vendor r = v) then mret r
  else
    n ← gets (count_integrations_referencing_router k);
    _ ← raise_if (negb (n =? 0)) RouterVendorChangeRefusedError;
    let contradicted := is_controller_managed v
      && (has_agent_evidence r || looks_like_mikrotik_hardware (model r)) in
    _ ← raise_if (contradicted && negb override_contradicting_evidence) RouterVendorChangeRefusedError;
    write (with_vendor v) r.

(** *** Heartbeats *)
Definition _HEARTBEAT_ELIGIBLE_STATUSES : list RouterStatus := [PROVISIONING; ONLINE; OFFLINE].
Definition _is_routable_public_ip (s : pystr) : bool :=
  match Ip.ip_address (strip s) with Some a => negb (Ip.special a) | None => false end.
Definition heard_access (management public : option pystr) (a : access) : access :=
  mk_access (match management with Some m => Some m | None => management_ip_address a end)
    (match public with
     | Some p =>
         if _is_routable_public_ip p then Some p
         else match public_ip_address a with
              | Some old => if _is_routable_public_ip old then Some old else None
              | None => None
              end
     | None => public_ip_address a
     end) (api_username a) (api_credentials_encrypted a).
Definition heartbeat (now : datetime) (k : uuid) (requesting : option uuid)
    (version management public : option pystr) : op Router :=
  r ← get_router k requesting false;
  _ ← raise_if (bool_decide (state r ∉ _HEARTBEAT_ELIGIBLE_STATUSES)) InvalidRouterStatusTransitionError;
  _ ← (if bool_decide (state r = ONLINE) then mret tt else _validate_transition r ONLINE);
  write (λ r, with_version (match version with Some v => Some v | None => routeros_version r end)
          (with_access (heard_access management public)
            (with_presence (λ _, mk_presence ONLINE (Some now) (Some now) (Some HEALTHY)) r))) r.

(** *** Provisioning tokens *)
Definition get_provisioning_token_by_hash (h : pystr) (d : database) : option RouterProvisioningToken :=
  select_one (λ t, negb (token_deleted t) && bool_decide (token_hash t = h)) (tokens d).
Definition insert_token (t : RouterProvisioningToken) : op unit :=
  clash ← gets (λ d, bool_decide (by_id (token_id t) (tokens d) ≠ None)
                     || existsb (λ t', bool_decide (token_hash t' = token_hash t)) (tokens d));
  _ ← raise_if clash DuplicateRecordError;
  modify (set_tokens (insert_row t)).
(** [token_urlsafe] draws [plaintext]; [ttl] is a setting, in hours. *)
Definition generate_provisioning_token (ttl : Z) (now : datetime) (k t : uuid) (requesting : option uuid)
    (plaintext : pystr) : op (RouterProvisioningToken * pystr) :=
  r ← get_router k requesting false;
  _ ← raise_if (negb (supports_zero_touch_provisioning r)) RouterVendorNotProvisionableError;
  _ ← raise_if (bool_decide (state r ∉ [PENDING_PROVISIONING; PROVISIONING])) ProvisioningTokenGenerationNotAllowedError;
  r ← (if bool_decide (state r = PROVISIONING) then write (with_status PENDING_PROVISIONING) r else mret r);
  let token := mk_token t (router_id r) (Auth.sha256 plaintext) (now + minutes (60 * ttl)) None false in
  _ ← insert_token token;
  mret (token, plaintext).
(** [UPDATE ... WHERE id = :id AND used_at IS NULL]. *)
Definition unused (k : uuid) (t : RouterProvisioningToken) : bool :=
  has_id k t && bool_decide (used_at t = None).
Definition mark_provisioning_token_used (t : RouterProvisioningToken) (now : datetime) : op bool :=
  n ← gets (λ d, rowcount (unused (token_id t)) (tokens d));
  _ ← modify (set_tokens (update (unused (token_id t)) (used now)));
  mret (0 <? n).
Definition is_expired (t : RouterProvisioningToken) (now : datetime) : bool := expires_at t <? now.
Definition check_in (now : datetime) (plaintext : pystr) : op Router :=
  found ← gets (get_provisioning_token_by_hash (Auth.sha256 plaintext));
  t ← of_option found ProvisioningTokenNotFoundError;
  _ ← raise_if (bool_decide (used_at t ≠ None)) ProvisioningTokenAlreadyUsedError;
  _ ← raise_if (is_expired t now) ProvisioningTokenExpiredError;
  found ← gets (get_by_id (token_router t) true);
  r ← of_option found RouterNotFoundError;
  _ ← raise_if (bool_decide (state r ≠ PENDING_PROVISIONING)) ProvisioningTokenRouterStateError;
  consumed ← mark_provisioning_token_used t now;
  _ ← raise_if (negb consumed) ProvisioningTokenAlreadyUsedError;
  write (with_presence (λ p, mk_presence PROVISIONING (Some now) (last_health_check_at p) (health_status p))) r.
Definition expired_unused (now : datetime) (t : RouterProvisioningToken) : bool :=
  negb (token_deleted t) && bool_decide (used_at t = None) && (expires_at t <? now).
Definition sweep_expired_provisioning_tokens (now : datetime) : op Z :=
  expired ← gets (λ d, select (expired_unused now) (tokens d));
  cleaned ← collect (λ t, _ ← modify (set_tokens (update (same_key row_id t) (λ _, token_soft_deleted t)));
                          mret (Some (token_soft_deleted t))) expired;
  mret (Z.of_nat (length cleaned)).
End service.

(** ** Sites that are only a RADIUS NAS *)
(** [list_routers] of a location, newest first; the page holds a hundred. *)
Definition routers_at (location : uuid) (d : database) : list Router :=
  take 100 (rev (select (λ r, negb (router_deleted r) && bool_decide (router_location r = location)) (routers d))).
Definition _location_is_deleted (k : uuid) (d : database) : bool :=
  match by_id k (locations d) with Some l => location_deleted l | None => false end.
Section nas_only.
Context {PU : PyUnicode}.
(** [synthesize_nas_only_identity]: a serial and a MAC hashed from a seed. *)
Variable synthesize_nas_only_identity : uuid → pystr * pystr.

Definition _decommission_orphan (r : Router) : op (option Router) :=
  r ← write (with_status DECOMMISSIONED) r;
  r ← write soft_deleted r;
  mret (Some r).
(** The first loop writes the objects the other two read. *)
Definition _release_decommissioned_identity (s m : pystr) : op unit :=
  holders ← gets (routers_holding_identity s m);
  d ← get;
  _ ← collect _decommission_orphan
        (List.filter (λ h, negb (router_deleted h) && is_nas_only h && _location_is_deleted (router_location h) d) holders);
  holders ← gets (routers_holding_identity s m);
  _ ← match List.find (λ h, negb (router_deleted h) || negb (is_nas_only h)) holders with
      | Some h => if bool_decide (serial_number h = s) then raise DuplicateSerialNumberError else raise DuplicateMacAddressError
      | None => mret tt
      end;
  _ ← collect (λ h, let '(s', m') := synthesize_nas_only_identity (router_id h) in
                    h ← write (with_identity s' m') h; mret (Some h)) holders;
  mret tt.
Definition NAS_ONLY_SITE_MODEL : pystr := u "Aruba Instant On".
(** [minted] is the identifier drawn for a synthetic identity. *)
Definition create_nas_only_site (k minted organization location : uuid) (name : pystr)
    (serial mac : option pystr) : op (Router * bool * bool) :=
  l ← get_location location None;
  _ ← raise_if (bool_decide (location_org l ≠ organization)) NasOnlySiteRefusedError;
  _ ← raise_if (archived l) LocationArchivedError;
  existing ← gets (routers_at location);
  _ ← raise_if (existsb is_nas_only existing) NasOnlySiteRefusedError;
  _ ← raise_if (bool_decide (existing ≠ [])) NasOnlySiteRefusedError;
  n ← gets (count_live_integrations_at_location location);
  _ ← raise_if (negb (n =? 0)) NasOnlySiteRefusedError;
  let '(minted_serial, minted_mac) := synthesize_nas_only_identity minted in
  let s := match serial with Some s => strip s | None => minted_serial end in
  let m := match mac with Some m => _normalize_mac m | None => minted_mac end in
  _ ← _release_decommissioned_identity s m;
  r ← create_row (mk_router k location (location_org l) name s m NAS_ONLY_SITE_MODEL ARUBA_INSTANT_ON_VENDOR None
        (mk_access None None None None) (mk_presence PENDING_PROVISIONING None None None) nothing_known false);
  mret (r, bool_decide (serial = None), bool_decide (mac = None)).
End nas_only.

(** ** Routers that stopped calling *)
Definition ROUTER_HEARTBEAT_OFFLINE_STALE_MINUTES : Z := 15.
Definition stale_heartbeat (cutoff : datetime) (r : Router) : bool :=
  negb (router_deleted r) && bool_decide (state r = ONLINE)
  && match last_seen_at (router_presence r) with None => true | Some t => t <? cutoff end.
Definition gone_offline (now : datetime) : Router → Router :=
  with_presence (λ p, mk_presence OFFLINE (last_seen_at p) (Some now) (Some UNHEALTHY)).
Definition sweep_stale_heartbeats (now : datetime) : op Z :=
  stale ← gets (λ d, select (stale_heartbeat (now - minutes ROUTER_HEARTBEAT_OFFLINE_STALE_MINUTES)) (routers d));
  marked ← collect (λ r, r ← write (gone_offline now) r; mret (Some r)) stale;
  mret (Z.of_nat (length marked)).

(** *** The reachability verdict *)
Definition ROUTER_REACHABILITY_SILENCE_SECONDS : Z := 90.
Definition ROUTER_REACHABILITY_MISSES_TO_ALERT : Z := 2.
Definition ROUTER_REACHABILITY_HITS_TO_RESOLVE : Z := 20.
Definition ROUTER_REACHABILITY_FLEET_OUTAGE_MIN_ROUTERS : Z := 3.
Definition REACHABILITY_ELIGIBLE_STATUSES : list RouterStatus := [ONLINE; OFFLINE].
Definition usable (now : datetime) (c : RouterAgentCredential) : bool :=
  negb (credential_deleted c) && bool_decide (revoked_at c = None) && (now <? credential_expires_at c).
(** [max(last_used_at)] over the usable credentials; nulls do not count. *)
Definition later (a b : option datetime) : option datetime :=
  match a, b with Some a, Some b => Some (Z.max a b) | Some a, None => Some a | None, b => b end.
Definition last_agent_contact_at (now : datetime) (k : uuid) (d : database) : option datetime :=
  foldr (λ c, later (last_used_at c)) None
    (select (λ c, bool_decide (credential_router c = k) && usable now c) (credentials d)).
Definition eligible (r : Router) : bool :=
  negb (router_deleted r) && bool_decide (state r ∈ REACHABILITY_ELIGIBLE_STATUSES).
Definition reachability_candidate (now : datetime) (d : database) (r : Router) : bool :=
  eligible r && bool_decide (last_agent_contact_at now (router_id r) d ≠ None).
Definition awake_for : Z := seconds ROUTER_REACHABILITY_SILENCE_SECONDS.
Definition quiet_at (now : datetime) (d : database) (r : Router) : bool :=
  match last_agent_contact_at now (router_id r) d with None => true | Some t => t <? now - awake_for end.

Definition missed (now : datetime) (x : reachability) : reachability :=
  let misses := consecutive_misses x + 1 in
  if (ROUTER_REACHABILITY_MISSES_TO_ALERT <=? misses) && negb (bool_decide (reachability_state x = Some UNREACHABLE))
  then mk_reachability (Some UNREACHABLE) (Some now) misses 0
  else mk_reachability (reachability_state x) (state_changed_at x) misses 0.
Definition contacted (now : datetime) (x : reachability) : reachability :=
  if bool_decide (reachability_state x = Some UNREACHABLE) then
    let hits := consecutive_hits x + 1 in
    if hits <? ROUTER_REACHABILITY_HITS_TO_RESOLVE
    then mk_reachability (Some UNREACHABLE) (state_changed_at x) 0 hits
    else mk_reachability (Some REACHABLE) (Some now) 0 hits
  else if bool_decide (reachability_state x = Some REACHABLE)
  then mk_reachability (Some REACHABLE) (state_changed_at x) 0 0
  else mk_reachability (Some REACHABLE) (Some now) 0 0.
Definition _record_reachability_miss (now : datetime) (r : Router) : op (option Router) :=
  r ← write (with_reachability (missed now)) r; mret (Some r).
(** A settled row is not written. *)
Definition settled (x : reachability) : bool :=
  bool_decide (reachability_state x = Some REACHABLE) && (consecutive_misses x =? 0) && (consecutive_hits x =? 0).
Definition _record_reachability_hit (now : datetime) (r : Router) : op (option Router) :=
  if settled (router_reachability r) then mret None
  else r ← write (with_reachability (contacted now)) r; mret (Some r).

(** What the tunnels say of the routers that are silent. *)
Inductive sweep_result := SkippedNothing | SkippedPlatformGap | SkippedFleetOutage | Judged (routers : list Router).
Section sweep.
(** [TunnelLivenessProbe]: [None] when it was not wired or failed. *)
Variable tunnel_probe : option (list Router → uuid → option bool).
Definition tunnel_alive (silent : list Router) (r : Router) : bool :=
  match tunnel_probe with Some p => bool_decide (p silent (router_id r) = Some true) | None => false end.
Definition sweep_router_reachability (now : datetime) (previous_sweep_at : option datetime) : op sweep_result :=
  d ← get;
  let candidates := select (reachability_candidate now d) (routers d) in
  if bool_decide (candidates = []) then mret SkippedNothing
  else if match previous_sweep_at with None => true | Some t => awake_for <? now - t end
  then mret SkippedPlatformGap
  else
    let silent := List.filter (quiet_at now d) candidates in
    let n := Z.of_nat (length candidates) in
    if (ROUTER_REACHABILITY_FLEET_OUTAGE_MIN_ROUTERS <=? n) && (n <=? 2 * Z.of_nat (length silent))
    then mret SkippedFleetOutage
    else
      judged ← collect (λ r, if quiet_at now d r
                             then if tunnel_alive silent r then mret None else _record_reachability_miss now r
                             else _record_reachability_hit now r) candidates;
      mret (Judged judged).
End sweep.

(** [_run_router_reachability_sweep_async]: the instant the last pass finished
    is kept in Redis for an hour, outside of the pass's own transaction. *)
Definition ROUTER_REACHABILITY_LAST_SWEEP_TTL_SECONDS : Z := 3600.
Definition remembered (now : datetime) (x : option datetime) : option datetime :=
  match x with
  | Some t => if now <? t + seconds ROUTER_REACHABILITY_LAST_SWEEP_TTL_SECONDS then Some t else None
  | None => None
  end.
Definition run_router_reachability_sweep (tunnel_probe : option (list Router → uuid → option bool))
    (now finished : datetime) : M (world database (option datetime)) error sweep_result :=
  previous ← on_ext (gets (remembered now));
  r ← get_db_session (on_db (sweep_router_reachability tunnel_probe now previous));
  _ ← on_ext (modify (λ _, Some finished));
  mret r.

(** * Properties *)
(** ** The invariant *)
Definition identity (r : Router) : uuid * pystr * pystr := (router_id r, serial_number r, mac_address r).
(** The constraints of the tables, and that decommissioning and deletion go
    together. *)
Record sound (d : database) : Prop := {
  sound_routers : keyed (routers d);
  sound_serials : NoDup (map serial_number (routers d));
  sound_macs : NoDup (map mac_address (routers d));
  sound_tokens : keyed (tokens d);
  sound_hashes : NoDup (map token_hash (tokens d));
  sound_deleted : ∀ r, r ∈ routers d → router_deleted r = true ↔ state r = DECOMMISSIONED;
}.

Lemma taken_false k s m d :
  taken k s m d = false ↔ ∀ r, r ∈ routers d → router_id r ≠ k → serial_number r ≠ s ∧ mac_address r ≠ m.
Proof.
  unfold taken. rewrite <-not_true_iff_false, existsb_exists. split.
  - intros Hn r Hr Hk. split; intros He; apply Hn; exists r; (split; [by apply list_elem_of_In|]);
      rewrite bool_decide_true by done; [by rewrite bool_decide_true|by rewrite (bool_decide_true (_ = m)), orb_true_r].
  - intros Hf (r & Hr%list_elem_of_In & Ht). bools. destruct (Hf r Hr ltac:(done)) as [H1 H2].
    by destruct H0 as [H0|H0]; apply bool_decide_eq_true in H0.
Qed.
Lemma taken_identity r d : sound d → r ∈ routers d → taken (router_id r) (serial_number r) (mac_address r) d = false.
Proof.
  intros Hd Hr. apply taken_false. intros r' Hr' Hk. split; intros He; apply Hk.
  - by rewrite (NoDup_map_eq serial_number _ r' r (sound_serials d Hd) Hr' Hr He).
  - by rewrite (NoDup_map_eq mac_address _ r' r (sound_macs d Hd) Hr' Hr He).
Qed.

(** One write of a row that is there. *)
Definition rewritten (r r' : Router) : database → database := set_routers (update (same_key row_id r) (λ _, r')).
Lemma write_ext f f' r : f r = f' r → write f r = write f' r.
Proof. unfold write. by intros ->. Qed.
Lemma write_Ok f r d r' d' : write f r d = (Ok r', d') ↔
  taken (router_id r) (serial_number (f r)) (mac_address (f r)) d = false ∧ r' = f r ∧ d' = rewritten r (f r) d.
Proof.
  unfold write. erewrite bind_step by (unfold gets; reflexivity). rewrite raise_if_bind.
  destruct (taken _ _ _ d); [by split; [|intros [? _]]|]. cbn. split.
  - intros [= <- <-]. done.
  - by intros (_ & -> & ->).
Qed.
Lemma write_identity f r d : sound d → r ∈ routers d → identity (f r) = identity r →
  write f r d = (Ok (f r), rewritten r (f r) d).
Proof.
  intros Hd Hr Hi. apply write_Ok. unfold identity in Hi. injection Hi as _ -> ->.
  by rewrite taken_identity.
Qed.
Lemma elem_of_rewritten d r r' x : keyed (routers d) → r ∈ routers d →
  x ∈ routers (rewritten r r' d) ↔ x = r' ∨ (x ∈ routers d ∧ x ≠ r).
Proof.
  intros Hk Hr. unfold rewritten. cbn. rewrite elem_of_update. unfold same_key. split.
  - intros (y & Hy & ->). case_bool_decide as E; [by left|right]. split; [done|]. by intros ->.
  - intros [->|[Hx Hne]].
    + exists r. split; [done|]. by rewrite bool_decide_true.
    + exists x. split; [done|]. rewrite bool_decide_false; [done|]. intros E. apply Hne. by apply (NoDup_map_eq row_id (routers d)).
Qed.
(** A key kept apart from the others by a write. *)
Lemma NoDup_rewritten {K} `{EqDecision K} (key : Router → K) (l : list Router) r r' :
  NoDup (map row_id l) → NoDup (map key l) → r ∈ l →
  (∀ x, x ∈ l → row_id x ≠ row_id r → key x ≠ key r') →
  NoDup (map key (update (same_key row_id r) (λ _, r') l)).
Proof.
  induction l as [|x l IH]; intros Hid Hkey Hr Hfresh; [done|].
  cbn [map] in Hid, Hkey. apply NoDup_cons in Hid as [Hx Hid], Hkey as [Hkx Hkey].
  unfold update. cbn [map]. fold (update (same_key row_id r) (λ _, r') l).
  assert (∀ y, y ∈ map key (update (same_key row_id r) (λ _, r') l) →
    y = key r' ∨ y ∈ map key l) as Hin.
  { intros y (z & -> & Hz)%list_elem_of_fmap. apply elem_of_update in Hz as (w & Hw & ->).
    destruct (same_key _ _ _); [by left|right]. apply list_elem_of_fmap. eauto. }
  apply elem_of_cons in Hr as [<-|Hr].
  - unfold same_key at 1. rewrite bool_decide_true by done.
    assert (update (same_key row_id r) (λ _, r') l = l) as ->.
    { apply update_false. intros y Hy. unfold same_key. apply bool_decide_false. intros E. apply Hx. rewrite <-E.
      apply list_elem_of_fmap. eauto. }
    apply NoDup_cons. split; [|done]. intros (y & Hy & Hyl)%list_elem_of_fmap.
    apply (Hfresh y); [by right| |done]. intros E. apply Hx. rewrite <-E. apply list_elem_of_fmap. eauto.
  - assert (row_id x ≠ row_id r) as Hne.
    { intros E. apply Hx. rewrite E. apply list_elem_of_fmap. eauto. }
    unfold same_key at 1. rewrite bool_decide_false by done. apply NoDup_cons. split.
    + intros [H|H]%Hin; [|done]. apply (Hfresh x); [by left|done|done].
    + apply IH; [done..|]. intros y Hy. apply Hfresh. by right.
Qed.

(** What a write of the services does to a row. *)
Definition written (r r' : Router) : Prop :=
  router_id r' = router_id r ∧ router_location r' = router_location r ∧ router_org r' = router_org r
  ∧ (router_deleted r' = true ↔ state r' = DECOMMISSIONED).
Lemma sound_rewritten d r r' : sound d → r ∈ routers d → written r r' →
  taken (router_id r) (serial_number r') (mac_address r') d = false → sound (rewritten r r' d).
Proof.
  intros Hd Hr (Hid & _ & _ & Hdel) Ht. pose proof Hd as [Hk Hs Hm Htok Hh Hx].
  rewrite taken_false in Ht. constructor; try done.
  - unfold keyed, rewritten. cbn. unfold update. rewrite map_map. erewrite map_ext; [exact Hk|].
    intros x. unfold same_key. case_bool_decide as E; [|done]. by rewrite E.
  - unfold rewritten. cbn. apply NoDup_rewritten; try done. intros x Hxr Hne. by apply Ht.
  - unfold rewritten. cbn. apply NoDup_rewritten; try done. intros x Hxr Hne. by apply Ht.
  - intros x [->|[Hxr _]]%elem_of_rewritten; [done|by apply Hx|done|done].
Qed.

(** ** The life cycle *)
(** The table, and the rewinding of a router whose set-up was not finished. *)
Definition moves (s s' : RouterStatus) : Prop :=
  allowed_transition s s' = true ∨ (s = PROVISIONING ∧ s' = PENDING_PROVISIONING).
Record descends (r r' : Router) : Prop := {
  same_router : router_id r' = router_id r;
  same_location : router_location r' = router_location r;
  same_org : router_org r' = router_org r;
  moved : rtc moves (state r) (state r');
}.
#[export] Instance descends_preorder : PreOrder descends.
Proof.
  split; [by intros r|]. intros r1 r2 r3 [] []. split; try congruence. by etrans.
Qed.
(** Routers are never lost; tokens stay, and one that was used stays used. *)
Record evolves (d d' : database) : Prop := {
  routers_evolve : ∀ r, r ∈ routers d → ∃ r', r' ∈ routers d' ∧ descends r r';
  tokens_evolve : ∀ t, t ∈ tokens d → ∃ t', t' ∈ tokens d' ∧ token_id t' = token_id t ∧ token_router t' = token_router t
    ∧ token_hash t' = token_hash t ∧ expires_at t' = expires_at t ∧ (used_at t ≠ None → used_at t' = used_at t);
}.
#[export] Instance evolves_preorder : PreOrder evolves.
Proof.
  split.
  - intros d. split; [intros r Hr; exists r; split; [done|reflexivity]|]. intros t Ht. exists t. done.
  - intros d1 d2 d3 [R1 T1] [R2 T2]. split.
    + intros r (r2 & Hr2 & H12)%R1. apply R2 in Hr2 as (r3 & Hr3 & H23). exists r3. split; [done|]. by etrans.
    + intros t (t2 & Ht2 & ? & ? & ? & ? & Hu1)%T1. apply T2 in Ht2 as (t3 & Ht3 & ? & ? & ? & ? & Hu2).
      exists t3. split_and!; try congruence. intros Hu. rewrite Hu2; [by apply Hu1|]. by rewrite Hu1.
Qed.
Definition step (d d' : database) : Prop := sound d → sound d' ∧ evolves d d'.
#[export] Instance step_preorder : PreOrder step.
Proof.
  split; [by intros d|]. intros d1 d2 d3 H12 H23 H1. destruct (H12 H1) as [H2 E12]. destruct (H23 H2) as [H3 E23].
  split; [done|]. by etrans.
Qed.

Lemma rewritten_evolves d r r' : keyed (routers d) → r ∈ routers d → descends r r' → evolves d (rewritten r r' d).
Proof.
  intros Hk Hr Hdes. split; [|intros t Ht; by exists t].
  intros x Hx. destruct (decide (router_id x = router_id r)) as [E|Hne].
  - assert (x = r) as -> by by apply (NoDup_map_eq row_id (routers d)).
    exists r'. split; [apply elem_of_rewritten; auto|done].
  - exists x. split; [|done]. apply elem_of_rewritten; [done..|]. right. split; [done|]. by intros ->.
Qed.
Lemma write_step f r d r' d' : r ∈ routers d → descends r (f r) →
  (router_deleted (f r) = true ↔ state (f r) = DECOMMISSIONED) →
  write f r d = (Ok r', d') → step d d' ∧ r' ∈ routers d' ∧ r' = f r.
Proof.
  intros Hr Hdes Hdel (Ht & -> & ->)%write_Ok. split.
  - intros Hd. split; [|by apply rewritten_evolves; [apply Hd|..]].
    apply sound_rewritten; try done. destruct Hdes. by split_and!.
  - split; [|done]. unfold rewritten. cbn. apply elem_of_update. exists r. split; [done|].
    unfold same_key. by rewrite bool_decide_true.
Qed.
(** A write that leaves the status and the deletion as they are. *)
Lemma write_quiet f r d r' d' : sound d → r ∈ routers d →
  router_id (f r) = router_id r → router_location (f r) = router_location r → router_org (f r) = router_org r →
  router_presence (f r) = router_presence r → router_deleted (f r) = router_deleted r →
  write f r d = (Ok r', d') → step d d' ∧ r' ∈ routers d' ∧ r' = f r.
Proof.
  intros Hd Hr H1 H2 H3 H4 H5. apply write_step; [done|split; [done..|]|].
  - unfold state. by rewrite H4.
  - unfold state. rewrite H4, H5. by apply (sound_deleted d).
Qed.

Lemma get_by_id_Some k b d r : get_by_id k b d = Some r → r ∈ routers d ∧ router_id r = k ∧ (b = false → router_deleted r = false).
Proof.
  unfold get_by_id. destruct (by_id k (routers d)) as [x|] eqn:E; [|done]. apply by_id_Some in E as [Hx <-].
  destruct (router_deleted x && negb b) eqn:E; [done|]. intros [= <-]. split_and!; [done..|]. intros ->.
  rewrite andb_true_r in E. done.
Qed.
Lemma scope_reads r requesting : reads (_enforce_organization_scope r requesting).
Proof.
  intros d. unfold _enforce_organization_scope. destruct requesting as [o|]; [|done]. case_bool_decide; [done|].
  erewrite bind_step by (unfold get; reflexivity). unfold parent_is. destruct (organizations d !! router_org r); [|done].
  by destruct (bool_decide _).
Qed.
Lemma get_router_reads k requesting b : reads (get_router k requesting b).
Proof.
  unfold get_router. apply reads_bind; [apply reads_gets|]. intros o. apply reads_bind; [apply reads_of_option|].
  intros r. apply reads_bind; [apply scope_reads|]. intros _. apply reads_ret.
Qed.
Lemma get_router_Ok k requesting b d r d' : get_router k requesting b d = (Ok r, d') →
  d' = d ∧ r ∈ routers d ∧ router_id r = k ∧ get_by_id k b d = Some r ∧ (b = false → router_deleted r = false).
Proof.
  intros H. pose proof (reads_Ok _ _ _ _ H (get_router_reads k requesting b)) as ->. split; [done|].
  unfold get_router in H. erewrite bind_step in H by (unfold gets; reflexivity). rewrite of_option_bind in H.
  destruct (get_by_id k b d) as [x|] eqn:E; [|done]. apply bind_Ok in H as ([] & d1 & _ & H).
  injection H as <- _. pose proof (get_by_id_Some _ _ _ _ E) as (? & ? & ?). by split_and!.
Qed.
Lemma site_reads k requesting : reads (get_location k requesting).
Proof.
  unfold get_location. apply reads_bind; [apply reads_gets|]. intros o. apply reads_bind; [apply reads_of_option|].
  intros l d. destruct requesting as [o'|]; [|done]. case_bool_decide; [done|].
  erewrite bind_step by (unfold get; reflexivity). destruct (organizations d !! location_org l); [|done].
  rewrite raise_if_bind. by case_bool_decide.
Qed.

Lemma allowed_moves s s' : allowed_transition s s' = true → rtc moves s s'.
Proof. intros H. apply rtc_once. by left. Qed.
(** A status change that the table allows, to a status that is not final. *)
Lemma write_status f r d r' d' : r ∈ routers d →
  router_id (f r) = router_id r → router_location (f r) = router_location r → router_org (f r) = router_org r →
  router_deleted (f r) = false → state (f r) ≠ DECOMMISSIONED → rtc moves (state r) (state (f r)) →
  write f r d = (Ok r', d') → step d d' ∧ r' ∈ routers d' ∧ r' = f r.
Proof.
  intros Hr H1 H2 H3 Hdel Hst Hm. apply write_step; [done|by split|]. rewrite Hdel. by split.
Qed.
Lemma set_status_step k requesting s d r d' : s ≠ DECOMMISSIONED →
  _set_status k requesting s d = (Ok r, d') → step d d'.
Proof.
  intros Hs H. unfold _set_status in H. apply bind_Ok in H as (x & d1 & Hg & H).
  apply get_router_Ok in Hg as (-> & Hx & _ & _ & Hdel). unfold _validate_transition in H. rewrite raise_if_bind in H.
  destruct (allowed_transition (state x) s) eqn:E; [|done]. cbn [negb] in H. specialize (Hdel eq_refl).
  eapply write_status in H as [H _]; [exact H|done..|]. by apply allowed_moves.
Qed.

Lemma rewritten_twice r r' r'' d : router_id r' = router_id r →
  rewritten r' r'' (rewritten r r' d) = rewritten r r'' d.
Proof.
  intros Hid. unfold rewritten, set_routers. cbn. f_equal. unfold update. rewrite map_map. apply map_ext. intros y.
  unfold same_key, row_id, router_has_id. rewrite Hid. destruct (decide (router_id y = router_id r)) as [E|E].
  - rewrite (bool_decide_true _ E). by rewrite Hid, bool_decide_true.
  - by rewrite !(bool_decide_false _ E).
Qed.
Lemma decommission_step k requesting d r d' : decommission_router k requesting d = (Ok r, d') → step d d'.
Proof.
  intros H. unfold decommission_router in H. apply bind_Ok in H as (x & d1 & Hg & H).
  apply get_router_Ok in Hg as (-> & Hx & _ & _ & Hdel). unfold _validate_transition in H. rewrite raise_if_bind in H.
  destruct (allowed_transition (state x) DECOMMISSIONED) eqn:E; [|done]. cbn [negb] in H.
  apply bind_Ok in H as (y & d1 & Hw1 & H). intros Hd.
  apply write_Ok in Hw1 as (Ht1 & -> & ->). apply write_Ok in H as (Ht2 & -> & ->).
  rewrite rewritten_twice by done.
  split.
  - by apply sound_rewritten.
  - apply rewritten_evolves; [apply Hd|done|]. split; [done..|]. by apply allowed_moves.
Qed.

Section steps.
Context {PU : PyUnicode} {CR : Auth.Crypto} {P6 : Ip.PyIpv6}.
Lemma create_row_step x d r d' : router_deleted x = false →
  state x ≠ DECOMMISSIONED → create_row x d = (Ok r, d') → step d d'.
Proof.
  intros Hdel Hst H Hd. unfold create_row in H. erewrite bind_step in H by (unfold gets; reflexivity).
  rewrite raise_if_bind in H. destruct (_ || _) eqn:Ht; [done|]. cbn in H. injection H as <- <-.
  apply orb_false_iff in Ht as [Hno Ht]. apply bool_decide_eq_false, dec_stable in Hno.
  rewrite taken_false in Ht.
  assert (∀ y, y ∈ routers d → serial_number y ≠ serial_number x ∧ mac_address y ≠ mac_address x) as Hfresh.
  { intros y Hy. apply Ht; [done|]. intros E. unfold by_id in Hno. rewrite select_one_None in Hno.
    specialize (Hno y Hy). unfold has_id in Hno. by rewrite bool_decide_true in Hno. }
  pose proof Hd as [Hk Hs Hm Htok Hh Hx]. split.
  - constructor; try done.
    + by apply keyed_insert.
    + cbn. unfold insert_row. rewrite map_app. apply NoDup_app. split_and!; [done| |apply NoDup_singleton].
      intros s (y & -> & Hy)%list_elem_of_fmap. cbn. rewrite list_elem_of_singleton. by apply Hfresh.
    + cbn. unfold insert_row. rewrite map_app. apply NoDup_app. split_and!; [done| |apply NoDup_singleton].
      intros s (y & -> & Hy)%list_elem_of_fmap. cbn. rewrite list_elem_of_singleton. by apply Hfresh.
    + intros y [Hy| ->%list_elem_of_singleton]%elem_of_app; [by apply Hx|]. rewrite Hdel. by split.
  - split; [|intros t ?; by exists t]. intros y Hy. exists y. split; [|done]. apply elem_of_app. by left.
Qed.
Lemma create_router_step k nonce location requesting n d r d' :
  create_router k nonce location requesting n d = (Ok r, d') → step d d'.
Proof.
  intros H. unfold create_router in H. apply bind_Ok in H as (l & d1 & Hl & H).
  apply reads_Ok in Hl as ->; [|apply site_reads].
  rewrite raise_if_bind in H. destruct (archived l); [done|]. cbv zeta in H.
  erewrite bind_step in H by (unfold gets; reflexivity). rewrite raise_if_bind in H. case_bool_decide; [done|].
  erewrite bind_step in H by (unfold gets; reflexivity). rewrite raise_if_bind in H. case_bool_decide; [done|].
  by eapply create_row_step in H.
Qed.
Lemma decrypted_reads r : reads (get_decrypted_api_secret r).
Proof.
  unfold get_decrypted_api_secret. intros d. destruct (api_credentials_encrypted _); [|done].
  rewrite of_option_bind. by destruct (Auth.fernet_decrypt _).
Qed.
Lemma rotate_reads rotator p r s : reads (_rotate_live_api_secret_if_needed rotator p r s).
Proof.
  unfold _rotate_live_api_secret_if_needed. destruct rotator as [f|]; [|apply reads_ret].
  destruct (_ || _); [apply reads_ret|]. apply reads_bind; [apply decrypted_reads|]. intros o.
  destruct (host r), (given (api_username (router_access r))), (given o); try apply reads_ret. apply reads_raise_if.
Qed.
Lemma update_router_step rotator nonce k requesting p d r d' :
  update_router rotator nonce k requesting p d = (Ok r, d') → step d d'.
Proof.
  intros H Hd. unfold update_router in H. apply bind_Ok in H as (x & d1 & Hg & H).
  apply get_router_Ok in Hg as (-> & Hx & _). rewrite raise_if_bind in H. case_bool_decide; [done|]. cbv zeta in H.
  erewrite bind_step in H by (unfold gets; reflexivity). rewrite raise_if_bind in H. destruct (other _ _); [done|].
  erewrite bind_step in H by (unfold gets; reflexivity). rewrite raise_if_bind in H. destruct (other _ _); [done|].
  apply bind_Ok in H as ([] & d1 & Hrot & H).
  assert (d1 = d) as ->.
  { destruct (given (patch_secret p)); [by apply reads_Ok in Hrot; [|apply rotate_reads]|by injection Hrot]. }
  apply write_quiet in H as [H _]; [by apply H|done..].
Qed.
Lemma change_vendor_step k v o d r d' : change_router_vendor k v o d = (Ok r, d') → step d d'.
Proof.
  intros H Hd. unfold change_router_vendor in H. rewrite raise_if_bind in H. case_bool_decide; [done|].
  apply bind_Ok in H as (x & d1 & Hg & H). apply get_router_Ok in Hg as (-> & Hx & _).
  rewrite raise_if_bind in H. case_bool_decide; [done|]. case_bool_decide; [by injection H as _ <-|].
  erewrite bind_step in H by (unfold gets; reflexivity). rewrite raise_if_bind in H. destruct (negb _); [done|].
  cbv zeta in H. rewrite raise_if_bind in H. destruct (_ && _); [done|].
  apply write_quiet in H as [H _]; [by apply H|done..].
Qed.
Lemma heartbeat_step now k requesting v m p d r d' : heartbeat now k requesting v m p d = (Ok r, d') → step d d'.
Proof.
  intros H Hd. unfold heartbeat in H. apply bind_Ok in H as (x & d1 & Hg & H).
  apply get_router_Ok in Hg as (-> & Hx & _ & _ & Hdel). specialize (Hdel eq_refl).
  rewrite raise_if_bind in H. case_bool_decide as He; [done|]. apply bind_Ok in H as ([] & d1 & Hv & H).
  assert (d1 = d ∧ rtc moves (state x) ONLINE) as [-> Hm].
  { case_bool_decide as Ho; [injection Hv as <-; by rewrite Ho|]. unfold _validate_transition in Hv.
    destruct (allowed_transition (state x) ONLINE) eqn:E; [|done]. injection Hv as <-. split; [done|]. by apply allowed_moves. }
  eapply write_status in H as [H _]; [by apply H|done..].
Qed.

(** *** Tokens *)
Lemma tokens_step f d : (∀ t, token_id (f t) = token_id t ∧ token_router (f t) = token_router t
    ∧ token_hash (f t) = token_hash t ∧ expires_at (f t) = expires_at t) →
  ∀ q, (∀ t, t ∈ tokens d → q t = true → used_at t ≠ None → used_at (f t) = used_at t) →
  step d (set_tokens (update q f) d).
Proof.
  intros Hf q Hq Hd. pose proof Hd as [Hk Hs Hm Htok Hh Hx]. split.
  - constructor; try done.
    + unfold keyed. cbn. rewrite map_update; [done|]. intros t. by apply Hf.
    + cbn. rewrite map_update; [done|]. intros t. by apply Hf.
  - split; [intros r ?; by exists r|]. intros t Ht. exists (if q t then f t else t). split.
    + cbn. apply elem_of_update. eauto.
    + destruct (q t) eqn:E; [|done]. destruct (Hf t) as (? & ? & ? & ?). split_and!; try done. by apply Hq.
Qed.
Lemma insert_token_step t d r d' :
  insert_token t d = (Ok r, d') → step d d'.
Proof.
  intros H Hd. unfold insert_token in H. erewrite bind_step in H by (unfold gets; reflexivity).
  rewrite raise_if_bind in H. destruct (_ || _) eqn:E; [done|]. injection H as _ <-.
  apply orb_false_iff in E as [Hno E]. apply bool_decide_eq_false, dec_stable in Hno.
  pose proof Hd as [Hk Hs Hm Htok Hh Hx]. split.
  - constructor; try done; [by apply keyed_insert|]. cbn. unfold insert_row. rewrite map_app. apply NoDup_app.
    split_and!; [done| |apply NoDup_singleton]. intros h (x & -> & Hxt)%list_elem_of_fmap. cbn.
    rewrite list_elem_of_singleton. intros He. apply not_true_iff_false in E. apply E, existsb_exists.
    exists x. split; [by apply list_elem_of_In|]. by apply bool_decide_true.
  - split; [intros r' ?; by exists r'|]. intros x Hxt. exists x. split; [|done]. apply elem_of_app. by left.
Qed.
Lemma generate_token_step ttl now k t requesting plaintext d x d' :
  generate_provisioning_token ttl now k t requesting plaintext d = (Ok x, d') → step d d'.
Proof.
  intros H. unfold generate_provisioning_token in H. apply bind_Ok in H as (r & d1 & Hg & H).
  apply get_router_Ok in Hg as (-> & Hx & _ & _ & Hdel). specialize (Hdel eq_refl).
  rewrite raise_if_bind in H. destruct (negb _); [done|]. rewrite raise_if_bind in H. case_bool_decide; [done|].
  apply bind_Ok in H as (r1 & d1 & Hr & H). cbv zeta in H. apply bind_Ok in H as ([] & d2 & Hi & H).
  injection H as _ <-.
  etrans; [|by eapply insert_token_step].
  case_bool_decide as Hp; [|by injection Hr as _ <-].
  eapply write_status in Hr as [Hr _]; [exact Hr|done..|]. apply rtc_once. by right.
Qed.
Lemma check_in_step now plaintext d r d' : check_in now plaintext d = (Ok r, d') → step d d'.
Proof.
  intros H Hd. unfold check_in in H. erewrite bind_step in H by (unfold gets; reflexivity). rewrite of_option_bind in H.
  destruct (get_provisioning_token_by_hash _ d) as [t|] eqn:Ht; [|done].
  rewrite raise_if_bind in H. case_bool_decide as Hu; [done|]. rewrite raise_if_bind in H. destruct (is_expired _ _); [done|].
  erewrite bind_step in H by (unfold gets; reflexivity). rewrite of_option_bind in H.
  destruct (get_by_id (token_router t) true d) as [x|] eqn:Hx; [|done]. apply get_by_id_Some in Hx as (Hx & _).
  rewrite raise_if_bind in H. case_bool_decide as Hst; [done|].
  apply bind_Ok in H as (b & d1 & Hm & H). rewrite raise_if_bind in H. destruct b; [|done]. cbn [negb] in H.
  unfold mark_provisioning_token_used in Hm. erewrite bind_step in Hm by (unfold gets; reflexivity).
  erewrite bind_step in Hm by (unfold modify; reflexivity). injection Hm as _ <-.
  assert (step d (set_tokens (update (unused (token_id t)) (used now)) d)) as H1.
  { apply tokens_step; [by intros y|]. intros y _ Hy Hn. unfold unused in Hy. by bools. }
  destruct (H1 Hd) as [Hd1 E1].
  assert (router_deleted x = false) as Hdel.
  { apply not_true_iff_false. rewrite (sound_deleted d Hd x Hx), Hst. done. }
  eapply write_status in H as [H _]; [|done..|].
  - destruct (H Hd1) as [Hd2 E2]. split; [done|]. by etrans.
  - rewrite Hst. by apply allowed_moves.
Qed.
End steps.

(** ** A sweep is one [UPDATE] *)
Lemma collect_ext {S E A B} (body body' : A → M S E (option B)) (I : S → Prop) (l : list A) :
  (∀ x s, x ∈ l → I s → body x s = body' x s ∧ I (body' x s).2) →
  ∀ s, I s → collect body l s = collect body' l s.
Proof.
  induction l as [|x l IH]; intros Hb s Hs; [done|]. cbn [collect].
  destruct (Hb x s ltac:(left) Hs) as [Heq HI]. unfold mbind, M_bind. rewrite Heq.
  destruct (body' x s) as [[o|e] s']; [|done]. rewrite IH; [done| |exact HI]. intros y t Hy. apply Hb. by right.
Qed.
Section loops.
Variables (p : Router → bool) (g : Router → Router).
Hypothesis same_identity : ∀ r, identity (g r) = identity r.
Definition guarded_write (r : Router) : op (option Router) :=
  if p r then r ← write g r; mret (Some r) else mret None.
Definition bare_write (r : Router) (d : database) : outcome error (option Router) * database :=
  (Ok (if p r then Some (g r) else None), if p r then rewritten r (g r) d else d).
Lemma identities_rewritten r d : r ∈ routers d → keyed (routers d) →
  map identity (routers (rewritten r (g r) d)) = map identity (routers d).
Proof.
  intros Hr Hk. unfold rewritten. cbn. unfold update. rewrite map_map. apply map_ext_in. intros x Hx%list_elem_of_In.
  unfold same_key. case_bool_decide as E; [|done].
  assert (x = r) as -> by by apply (NoDup_map_eq row_id (routers d)). apply same_identity.
Qed.
(** The columns that must be unique are those of the rows at the start. *)
Lemma guarded_is_bare d0 r d : sound d0 → r ∈ routers d0 → map identity (routers d) = map identity (routers d0) →
  guarded_write r d = bare_write r d ∧ map identity (routers (bare_write r d).2) = map identity (routers d0).
Proof.
  intros Hd Hr Hi.
  assert (∀ x, x ∈ routers d → ∃ y, y ∈ routers d0 ∧ identity y = identity x) as Hin.
  { intros x Hx. assert (identity x ∈ map identity (routers d0)) as H by (rewrite <-Hi; apply list_elem_of_fmap; eauto).
    apply list_elem_of_fmap in H as (y & Hy & Hy'). eauto. }
  unfold guarded_write, bare_write. destruct (p r) eqn:Hp; [|done].
  assert (taken (router_id r) (serial_number r) (mac_address r) d = false) as Ht.
  { pose proof (taken_identity r d0 Hd Hr) as H. rewrite taken_false in *. intros x Hx Hne.
    destruct (Hin x Hx) as (y & Hy & Hyx). unfold identity in Hyx. injection Hyx as H1 H2 H3.
    rewrite <-H2, <-H3. apply H; [done|]. by rewrite H1. }
  pose proof (same_identity r) as Hs. unfold identity in Hs. injection Hs as _ Hs Hm. split.
  - erewrite bind_step; [reflexivity|]. apply write_Ok. by rewrite Hs, Hm.
  - cbn [snd]. rewrite <-Hi. unfold rewritten. cbn. unfold update. rewrite map_map. apply map_ext_in.
    intros x Hx%list_elem_of_In. unfold same_key. case_bool_decide as E; [|done].
    destruct (Hin x Hx) as (y & Hy & Hyx). unfold identity in Hyx. injection Hyx as H1 H2 H3.
    assert (y = r) as ->. { apply (NoDup_map_eq row_id (routers d0)); [apply Hd|done..|]. by rewrite <-E. }
    rewrite same_identity. unfold identity. by rewrite H1, H2, H3.
Qed.
Lemma sweep_is_update q d : sound d →
  collect guarded_write (select q (routers d)) d
  = (Ok (map g (select (λ x, q x && p x) (routers d))), set_routers (update (λ x, q x && p x) g) d).
Proof.
  intros Hd. rewrite (collect_ext _ bare_write (λ d', map identity (routers d') = map identity (routers d))); [|..|done].
  - refine (loop_is_update row_id routers set_routers
      (λ d, (tokens d, credentials d, locations d, integrations d, organizations d)) _ _ _ _ _ bare_write p g _ q d _ (sound_routers d Hd)).
    + done.
    + done.
    + done.
    + intros f h d' E. unfold set_routers. by rewrite E.
    + by intros [].
    + intros x. pose proof (same_identity x) as E. by injection E.
    + intros x d' _ _ _ _. reflexivity.
  - intros x d' [Hx _]%elem_of_select. by apply guarded_is_bare.
Qed.
End loops.
Lemma update_step q f d : (∀ r, r ∈ routers d → q r = true → identity (f r) = identity r ∧ descends r (f r)
    ∧ (router_deleted (f r) = true ↔ state (f r) = DECOMMISSIONED)) → step d (set_routers (update q f) d).
Proof.
  intros Hf Hd. pose proof Hd as [Hk Hs Hm Htok Hh Hx].
  assert (map identity (update q f (routers d)) = map identity (routers d)) as Hi.
  { unfold update. rewrite map_map. apply map_ext_in. intros r Hr%list_elem_of_In. destruct (q r) eqn:E; [|done].
    by apply Hf. }
  assert (∀ {K} (k : uuid * pystr * pystr → K), map (λ r, k (identity r)) (update q f (routers d)) = map (λ r, k (identity r)) (routers d)) as Hik.
  { intros K k. by rewrite <-!(map_map identity k), Hi. }
  split.
  - constructor; try done; cbn.
    + unfold keyed. change (NoDup (map (λ r, (identity r).1.1) (update q f (routers d)))). by rewrite (Hik _ (λ i, i.1.1)).
    + change (NoDup (map (λ r, (identity r).1.2) (update q f (routers d)))). by rewrite (Hik _ (λ i, i.1.2)).
    + change (NoDup (map (λ r, (identity r).2) (update q f (routers d)))). by rewrite (Hik _ (λ i, i.2)).
    + intros r (x & Hxr & ->)%elem_of_update. destruct (q x) eqn:E; [by apply Hf|by apply Hx].
  - split; [|intros t ?; by exists t]. intros r Hr. exists (if q r then f r else r). split.
    + cbn. apply elem_of_update. eauto.
    + destruct (q r) eqn:E; [by apply Hf|reflexivity].
Qed.
Lemma sweep_stale_eq now d : sound d → let cutoff := now - minutes ROUTER_HEARTBEAT_OFFLINE_STALE_MINUTES in
  sweep_stale_heartbeats now d
  = (Ok (rowcount (stale_heartbeat cutoff) (routers d)), set_routers (update (stale_heartbeat cutoff) (gone_offline now)) d).
Proof.
  intros Hd cutoff. unfold sweep_stale_heartbeats. erewrite bind_step by (unfold gets; reflexivity). fold cutoff.
  rewrite (bind_step _ _ _ _ _ (sweep_is_update (λ _, true) (gone_offline now) ltac:(done) (stale_heartbeat cutoff) d Hd)).
  cbv beta. rewrite length_map, (select_ext _ (stale_heartbeat cutoff)) by (intros r; apply andb_true_r).
  unfold mret, M_ret, rowcount, set_routers.
  by rewrite (update_ext _ (stale_heartbeat cutoff) _ (gone_offline now)) by (intros r _; by rewrite andb_true_r).
Qed.
Lemma sweep_stale_step now d n d' : sound d → sweep_stale_heartbeats now d = (Ok n, d') → step d d'.
Proof.
  intros Hd H. rewrite sweep_stale_eq in H by done. injection H as _ <-. apply update_step. intros r Hr Hq.
  unfold stale_heartbeat in Hq. bools. split_and!; [done| |].
  - split; [done..|]. unfold state in *. rewrite H1. by apply allowed_moves.
  - change (router_deleted (gone_offline now r)) with (router_deleted r). by rewrite H.
Qed.
Lemma sweep_tokens_eq now d : sound d → sweep_expired_provisioning_tokens now d
  = (Ok (rowcount (expired_unused now) (tokens d)), set_tokens (update (expired_unused now) token_soft_deleted) d).
Proof.
  intros Hd. unfold sweep_expired_provisioning_tokens. erewrite bind_step by (unfold gets; reflexivity).
  erewrite bind_step.
  2: { refine (loop_is_update row_id tokens set_tokens
        (λ d, (routers d, credentials d, locations d, integrations d, organizations d)) _ _ _ _ _ _
        (λ _, true) token_soft_deleted _ (expired_unused now) d _ (sound_tokens d Hd)).
    - done.
    - done.
    - done.
    - intros f h d' E. unfold set_tokens. by rewrite E.
    - by intros [].
    - done.
    - intros x d' _ _ _ _. reflexivity. }
  cbv beta. rewrite length_map, (select_ext _ (expired_unused now)) by (intros r; apply andb_true_r).
  unfold mret, M_ret, rowcount, set_tokens.
  by rewrite (update_ext _ (expired_unused now) _ token_soft_deleted) by (intros r _; by rewrite andb_true_r).
Qed.
Lemma sweep_tokens_step now d n d' : sound d → sweep_expired_provisioning_tokens now d = (Ok n, d') → step d d'.
Proof.
  intros Hd H. rewrite sweep_tokens_eq in H by done. injection H as _ <-. by apply tokens_step.
Qed.

(** *** NAS-only sites *)
Lemma collect_step {B} (body : Router → op (option B)) (l : list Router) :
  (∀ x d r d', x ∈ l → x ∈ routers d → sound d → body x d = (Ok r, d') →
     step d d' ∧ ∀ y, y ∈ routers d → router_id y ≠ router_id x → y ∈ routers d') →
  ∀ d r d', NoDup (map router_id l) → (∀ x, x ∈ l → x ∈ routers d) → sound d →
  collect body l d = (Ok r, d') → step d d'.
Proof.
  induction l as [|x l IH]; intros Hb d r d' Hnd Hin Hd H; [by injection H as _ <-|].
  cbn [collect] in H. cbn [map] in Hnd. apply NoDup_cons in Hnd as [Hx Hnd].
  apply bind_Ok in H as (o & d1 & H1 & H). apply bind_Ok in H as (rs & d2 & H2 & H). injection H as _ <-.
  destruct (Hb x d o d1 ltac:(left) (Hin x ltac:(left)) Hd H1) as [Hs Hkeep]. etrans; [exact Hs|].
  eapply IH; [|exact Hnd| |by apply Hs|exact H2].
  - intros y e s e' Hy. apply Hb. by right.
  - intros y Hy. apply Hkeep; [by apply Hin; right|]. intros E. apply Hx. rewrite <-E. apply list_elem_of_fmap. eauto.
Qed.
Lemma others_kept r r' d y : y ∈ routers d → router_id y ≠ router_id r → y ∈ routers (rewritten r r' d).
Proof.
  intros Hy Hne. unfold rewritten. cbn. apply elem_of_update. exists y. split; [done|].
  unfold same_key. by rewrite bool_decide_false.
Qed.
Lemma decommission_moves s : s ≠ DECOMMISSIONED → rtc moves s DECOMMISSIONED.
Proof. intros Hs. by apply allowed_moves; destruct s. Qed.
Section nas_steps.
Context {PU : PyUnicode}.
Variable synthesize : uuid → pystr * pystr.
Lemma orphan_step x d r d' : x ∈ routers d → router_deleted x = false → sound d →
  _decommission_orphan x d = (Ok r, d') → step d d' ∧ ∀ y, y ∈ routers d → router_id y ≠ router_id x → y ∈ routers d'.
Proof.
  intros Hx Hdel Hd H. unfold _decommission_orphan in H.
  apply bind_Ok in H as (y & d1 & H1 & H). apply bind_Ok in H as (z & d2 & H2 & H). injection H as _ <-.
  apply write_Ok in H1 as (Ht1 & -> & ->). apply write_Ok in H2 as (Ht2 & -> & ->).
  rewrite rewritten_twice by done. split; [|intros y; apply others_kept].
  intros _. split; [by apply sound_rewritten|]. apply rewritten_evolves; [apply Hd|done|]. split; [done..|].
  apply decommission_moves. intros E. apply (sound_deleted d Hd x Hx) in E. by rewrite Hdel in E.
Qed.
Lemma release_step s m d r d' : sound d → _release_decommissioned_identity synthesize s m d = (Ok r, d') → step d d'.
Proof.
  intros Hd H. unfold _release_decommissioned_identity in H. erewrite bind_step in H by (unfold gets; reflexivity).
  erewrite bind_step in H by (unfold get; reflexivity). apply bind_Ok in H as (l1 & d1 & H1 & H).
  assert (∀ q, NoDup (map router_id (List.filter q (routers_holding_identity s m d)))) as Hnd.
  { intros q. apply NoDup_map_select, NoDup_map_select, Hd. }
  assert (step d d1) as S1.
  { eapply collect_step; [|apply Hnd| |exact Hd|exact H1].
    - intros x e o e' Hx%elem_of_select Hxe He. destruct Hx as [_ Hx]. bools. by apply orphan_step.
    - intros x Hx%elem_of_select. destruct Hx as [Hx%elem_of_select _]. by destruct Hx. }
  etrans; [exact S1|]. destruct (S1 Hd) as [Hd1 _].
  erewrite bind_step in H by (unfold gets; reflexivity). apply bind_Ok in H as ([] & d2 & H2 & H).
  assert (d2 = d1) as ->. { destruct (List.find _ _) as [h|]; [by case_bool_decide|by injection H2]. }
  apply bind_Ok in H as (l2 & d2 & H3 & H). injection H as _ <-.
  eapply collect_step; [|by apply NoDup_map_select, Hd1| |exact Hd1|exact H3].
  - intros x e o e' _ Hxe He Hw. cbv beta in Hw. destruct (synthesize (router_id x)) as [s' m'].
    apply bind_Ok in Hw as (y & e1 & Hw & Hr). injection Hr as _ <-. split.
    + by apply write_quiet in Hw as [Hw _].
    + apply write_Ok in Hw as (_ & _ & ->). intros z. apply others_kept.
  - intros x Hx%elem_of_select. by destruct Hx.
Qed.
Lemma create_nas_step k minted organization location name serial mac d r d' : sound d →
  create_nas_only_site synthesize k minted organization location name serial mac d = (Ok r, d') → step d d'.
Proof.
  intros Hd H. unfold create_nas_only_site in H. apply bind_Ok in H as (l & d1 & Hl & H).
  apply reads_Ok in Hl as ->; [|apply site_reads].
  rewrite raise_if_bind in H. case_bool_decide; [done|]. rewrite raise_if_bind in H. destruct (archived l); [done|].
  erewrite bind_step in H by (unfold gets; reflexivity). rewrite raise_if_bind in H. destruct (existsb _ _); [done|].
  rewrite raise_if_bind in H. case_bool_decide; [done|].
  erewrite bind_step in H by (unfold gets; reflexivity). rewrite raise_if_bind in H. destruct (negb _); [done|].
  destruct (synthesize minted) as [ms mm]. cbv zeta in H. apply bind_Ok in H as ([] & d1 & Hr & H).
  apply bind_Ok in H as (x & d2 & Hc & H). injection H as _ <-.
  etrans; [by eapply release_step|]. by eapply create_row_step in Hc.
Qed.
End nas_steps.

(** ** One pass judges each router on its own *)
Inductive judgement := Miss | Hit.
Definition candidates (now : datetime) (d : database) : list Router :=
  select (reachability_candidate now d) (routers d).
Definition silent (now : datetime) (d : database) : list Router := List.filter (quiet_at now d) (candidates now d).
Definition platform_gap (now : datetime) (previous : option datetime) : bool :=
  match previous with None => true | Some t => awake_for <? now - t end.
Definition fleet_outage (now : datetime) (d : database) : bool :=
  (ROUTER_REACHABILITY_FLEET_OUTAGE_MIN_ROUTERS <=? Z.of_nat (length (candidates now d)))
  && (Z.of_nat (length (candidates now d)) <=? 2 * Z.of_nat (length (silent now d))).
Definition verdict probe (now : datetime) (previous : option datetime) (d : database) (r : Router) : option judgement :=
  if negb (reachability_candidate now d r) || platform_gap now previous || fleet_outage now d then None
  else if quiet_at now d r then if tunnel_alive probe (silent now d) r then None else Some Miss
  else Some Hit.
Definition judged (now : datetime) (j : judgement) : reachability → reachability :=
  match j with Miss => missed now | Hit => contacted now end.
Definition after_pass probe now previous d (r : Router) : Router :=
  match verdict probe now previous d r with
  | Some j => with_reachability (judged now j) r
  | None => r
  end.
Lemma settled_contacted now x : settled x = true → contacted now x = x.
Proof.
  unfold settled, contacted. destruct x as [s c m h]. cbn. intros H. bools. subst. reflexivity.
Qed.
Lemma after_pass_identity probe now previous d r : identity (after_pass probe now previous d r) = identity r.
Proof. unfold after_pass. by destruct (verdict _ _ _ _ r). Qed.
Lemma with_reachability_same f r : f (router_reachability r) = router_reachability r → with_reachability f r = r.
Proof. unfold with_reachability. destruct r; cbn. by intros ->. Qed.

Lemma pass_is_map probe now previous d : sound d → ∃ res,
  sweep_router_reachability probe now previous d
  = (Ok res, set_routers (map (after_pass probe now previous d)) d).
Proof.
  intros Hd. unfold sweep_router_reachability. erewrite bind_step by (unfold get; reflexivity). cbv zeta.
  fold (candidates now d). fold (silent now d). fold (platform_gap now previous).
  assert (∀ f : Router → Router, (∀ r, r ∈ routers d → f r = r) → set_routers (map f) d = d) as Hid.
  { intros f Hf. unfold set_routers. rewrite (map_ext_in f id); [rewrite map_id; by destruct d|].
    intros r Hr%list_elem_of_In. by apply Hf. }
  case_bool_decide as Hc.
  { eexists. unfold mret, M_ret. f_equal. symmetry. apply Hid. intros r Hr. unfold after_pass, verdict.
    assert (reachability_candidate now d r = false) as ->; [|done]. apply not_true_iff_false. intros E.
    assert (r ∈ candidates now d) as H by (by apply elem_of_select). rewrite Hc in H. by apply not_elem_of_nil in H. }
  destruct (platform_gap now previous) eqn:Hg.
  { eexists. unfold mret, M_ret. f_equal. symmetry. apply Hid. intros r Hr. unfold after_pass, verdict.
    by rewrite Hg, orb_true_r. }
  fold (fleet_outage now d). destruct (fleet_outage now d) eqn:Ho.
  { eexists. unfold mret, M_ret. f_equal. symmetry. apply Hid. intros r Hr. unfold after_pass, verdict.
    by rewrite Ho, orb_true_r. }
  set (p := λ r, match verdict probe now previous d r with
                 | Some Miss => true | Some Hit => negb (settled (router_reachability r)) | None => false end).
  set (body := λ r, if quiet_at now d r then if tunnel_alive probe (silent now d) r then mret None else _record_reachability_miss now r
                    else _record_reachability_hit now r).
  assert (∀ r, r ∈ candidates now d → body r = guarded_write p (after_pass probe now previous d) r) as Hbody.
  { intros r [Hr Hcand]%elem_of_select.
    assert (verdict probe now previous d r = if quiet_at now d r then if tunnel_alive probe (silent now d) r then None
              else Some Miss else Some Hit) as Hv by (unfold verdict; by rewrite Hcand, Hg, Ho).
    unfold body, guarded_write, p. rewrite Hv. destruct (quiet_at now d r).
    - destruct (tunnel_alive _ _ _); [done|]. unfold _record_reachability_miss.
      rewrite (write_ext _ (after_pass probe now previous d)); [done|]. unfold after_pass. by rewrite Hv.
    - unfold _record_reachability_hit. destruct (settled _); [done|]. cbn [negb].
      rewrite (write_ext _ (after_pass probe now previous d)); [done|]. unfold after_pass. by rewrite Hv. }
  assert (∀ l s, (∀ r, r ∈ l → r ∈ candidates now d) → collect body l s = collect (guarded_write p (after_pass probe now previous d)) l s) as Hcol.
  { intros l s Hl. apply (collect_ext _ _ (λ _, True)); [|done]. intros x s' Hx _. by rewrite Hbody by by apply Hl. }
  eexists. erewrite bind_step; [reflexivity|]. rewrite Hcol by done. unfold candidates.
  rewrite (sweep_is_update p _ (after_pass_identity probe now previous d) _ d Hd). f_equal.
  unfold set_routers. f_equal. unfold update. apply map_ext. intros r.
  unfold p, after_pass. destruct (verdict probe now previous d r) as [j|] eqn:Hv; [|by rewrite andb_false_r].
  assert (reachability_candidate now d r = true) as ->.
  { unfold verdict in Hv. by destruct (reachability_candidate now d r). }
  destruct j; [done|]. cbn [andb judged]. destruct (settled _) eqn:E; [|done]. cbn [negb].
  symmetry. apply with_reachability_same. by apply settled_contacted.
Qed.
Lemma pass_step probe now previous d res d' :
  sweep_router_reachability probe now previous d = (Ok res, d') → step d d'.
Proof.
  intros H Hd. destruct (pass_is_map probe now previous d Hd) as [x Hx]. rewrite H in Hx. injection Hx as _ ->.
  assert (set_routers (map (after_pass probe now previous d)) d
          = set_routers (update (λ _, true) (after_pass probe now previous d)) d) as ->; [done|].
  apply update_step; [|done]. intros r Hr _. split_and!; [apply after_pass_identity| |].
  - unfold after_pass. by destruct (verdict _ _ _ _ r).
  - unfold after_pass. destruct (verdict _ _ _ _ r); by apply (sound_deleted d Hd r Hr).
Qed.

(** ** A site that goes dark *)
(** One run of the task, after whatever other requests did since the last. *)
Record pass := mk_pass {
  at_time : datetime;
  finished_at : datetime;
  probe : option (list Router → uuid → option bool);
  between : database → database;
}.
Abbreviation fleet := (world database (option datetime)).
Definition seen (p : pass) (w : fleet) : fleet := World (between p (db w)) (ext w).
Definition run_pass (p : pass) (w : fleet) : fleet :=
  (run_router_reachability_sweep (probe p) (at_time p) (finished_at p) (seen p w)).2.
Fixpoint passes (ps : list pass) (w : fleet) : fleet :=
  match ps with [] => w | p :: ps => passes ps (run_pass p w) end.
(** What holds of the fleet at each of the passes. *)
Fixpoint throughout (P : pass → database → Prop) (ps : list pass) (w : fleet) : Prop :=
  match ps with
  | [] => True
  | p :: ps => P p (db (seen p w)) ∧ throughout P ps (run_pass p w)
  end.
Definition reachability_of (k : uuid) (d : database) : option reachability :=
  router_reachability <$> by_id k (routers d).

(** The router [k] last called at [c]; its tunnel is not known to be up, and
    its silence is not that of the whole fleet. *)
Record dark (k : uuid) (c : datetime) (p : pass) (d : database) : Prop := {
  dark_sound : sound d;
  dark_watched : ∃ r, r ∈ routers d ∧ router_id r = k ∧ eligible r = true;
  dark_contact : last_agent_contact_at (at_time p) k d = Some c;
  dark_alone : fleet_outage (at_time p) d = false;
  dark_tunnel : ∀ r, router_id r = k → tunnel_alive (probe p) (silent (at_time p) d) r = false;
}.
(** Passes follow each other within [cadence]; a pass ends before the next. *)
Fixpoint steady (cadence : Z) (from : datetime) (ps : list pass) : Prop :=
  match ps with
  | [] => True
  | p :: ps => from ≤ at_time p ≤ from + cadence ∧ at_time p ≤ finished_at p
               ∧ match ps with [] => True | q :: _ => finished_at p ≤ at_time q end
               ∧ steady cadence (at_time p) ps
  end.

Lemma run_pass_eq p w : sound (db (seen p w)) →
  run_pass p w = World (set_routers (map (after_pass (probe p) (at_time p) (remembered (at_time p) (ext w)) (db (seen p w)))) (db (seen p w)))
                   (Some (finished_at p)).
Proof.
  intros Hs. unfold run_pass, run_router_reachability_sweep.
  destruct (pass_is_map (probe p) (at_time p) (remembered (at_time p) (ext w)) _ Hs) as [res Hr].
  erewrite bind_step by (unfold on_ext, zoom, gets; cbn; reflexivity). erewrite bind_step.
  2: { unfold get_db_session, on_db, zoom. cbn [db ext seen]. cbn [db seen] in Hr. rewrite Hr. reflexivity. }
  reflexivity.
Qed.
Lemma reachability_of_map (f : Router → Router) k d : (∀ r, router_id (f r) = router_id r) →
  reachability_of k (set_routers (map f) d) = (λ r, router_reachability (f r)) <$> by_id k (routers d).
Proof.
  intros Hf. unfold reachability_of.
  change (set_routers (map f) d) with (set_routers (update (λ _, true) f) d). cbn.
  rewrite by_id_update by done. by destruct (by_id k (routers d)).
Qed.
Lemma pass_reachability k p w : sound (db (seen p w)) →
  reachability_of k (db (run_pass p w))
  = (λ r, router_reachability (after_pass (probe p) (at_time p) (remembered (at_time p) (ext w)) (db (seen p w)) r))
      <$> by_id k (routers (db (seen p w))).
Proof.
  intros Hs. rewrite run_pass_eq by done. cbn [db]. apply reachability_of_map. intros x.
  pose proof (after_pass_identity (probe p) (at_time p) (remembered (at_time p) (ext w)) (db (seen p w)) x) as E.
  by injection E.
Qed.
Lemma pass_nonneg k p w : sound (db (seen p w)) →
  (∃ y, reachability_of k (db (seen p w)) = Some y ∧ 0 ≤ consecutive_misses y) →
  ∃ y, reachability_of k (db (run_pass p w)) = Some y ∧ 0 ≤ consecutive_misses y.
Proof.
  intros Hs (y & Hy & Hm). rewrite pass_reachability by done. unfold reachability_of in Hy.
  destruct (by_id k (routers (db (seen p w)))) as [r|]; [|done]. cbn in Hy. injection Hy as <-.
  eexists. split; [done|]. unfold after_pass. destruct (verdict _ _ _ _ r) as [j|]; [|done].
  destruct j; cbn.
  - unfold missed. destruct (_ && _); cbn; lia.
  - unfold contacted. case_bool_decide; [destruct (_ <? _)|case_bool_decide]; cbn; lia.
Qed.
(** A judged pass over a site that is dark is a miss. *)
Lemma dark_pass k c p w : dark k c p (db (seen p w)) → platform_gap (at_time p) (remembered (at_time p) (ext w)) = false →
  c < at_time p - awake_for →
  reachability_of k (db (run_pass p w)) = missed (at_time p) <$> reachability_of k (db (seen p w)).
Proof.
  intros [Hs (r & Hr & Hk & He) Hc Ho Ht] Hg Hq. rewrite pass_reachability by done.
  unfold reachability_of. rewrite (by_id_unique k _ r) by (try apply Hs; done).
  cbn [fmap option_fmap option_map]. f_equal. unfold after_pass.
  assert (verdict (probe p) (at_time p) (remembered (at_time p) (ext w)) (db (seen p w)) r = Some Miss) as ->; [|done].
  unfold verdict, reachability_candidate, quiet_at.
  rewrite He, Hk, Hc, Hg, Ho, bool_decide_true, (proj2 (Z.ltb_lt _ _) Hq) by done. by rewrite Ht.
Qed.
Lemma remembered_recent now t : now < t + seconds 3600 → remembered now (Some t) = Some t.
Proof. intros H. unfold remembered, ROUTER_REACHABILITY_LAST_SWEEP_TTL_SECONDS. by rewrite (proj2 (Z.ltb_lt _ _) H). Qed.

Definition declared (x : option reachability) : Prop := ∃ y, x = Some y ∧ reachability_state y = Some UNREACHABLE.
Definition suspected (x : option reachability) : Prop := ∃ y, x = Some y ∧ 1 ≤ consecutive_misses y.
Lemma missed_declared now x : declared x ∨ suspected x → declared (missed now <$> x).
Proof.
  intros [(y & -> & Hy)|(y & -> & Hy)]; cbn; (eexists; split; [done|]); unfold missed, ROUTER_REACHABILITY_MISSES_TO_ALERT.
  - rewrite (bool_decide_true _ Hy), andb_false_r. done.
  - rewrite (proj2 (Z.leb_le _ _)) by lia. destruct (bool_decide _) eqn:E; [|done]. by bools.
Qed.
Lemma missed_suspected now x : (∃ y, x = Some y ∧ 0 ≤ consecutive_misses y) → suspected (missed now <$> x).
Proof.
  intros (y & -> & Hy). eexists. split; [done|]. unfold missed. destruct (_ && _); cbn; lia.
Qed.
Section dark.
Variables (k : uuid) (c : datetime).
(** Other requests leave the columns of the verdict alone. *)
Definition untouched (ps : list pass) : Prop :=
  Forall (λ p, ∀ d, reachability_of k (between p d) = reachability_of k d) ps.
Lemma no_gap cadence from p (w : fleet) t : from ≤ t → at_time p ≤ from + cadence → t ≤ at_time p → cadence ≤ awake_for →
  ext w = Some t → platform_gap (at_time p) (remembered (at_time p) (ext w)) = false.
Proof.
  intros H1 H2 H3 H4 ->. unfold awake_for, ROUTER_REACHABILITY_SILENCE_SECONDS, seconds in *.
  rewrite remembered_recent by (unfold seconds; lia). unfold platform_gap. apply Z.ltb_ge.
  unfold awake_for, ROUTER_REACHABILITY_SILENCE_SECONDS, seconds. lia.
Qed.
(** Once declared, or suspected and passed over again, it stays declared. *)
Lemma stays_declared cadence ps : cadence ≤ awake_for → ∀ from t (w : fleet), c + awake_for < from →
  ext w = Some t → from ≤ t → match ps with [] => True | p :: _ => t ≤ at_time p end →
  steady cadence from ps → throughout (dark k c) ps w → untouched ps →
  (declared (reachability_of k (db w)) ∨ (ps ≠ [] ∧ suspected (reachability_of k (db w)))) →
  declared (reachability_of k (db (passes ps w))).
Proof.
  intros Hcad. induction ps as [|p ps IH]; intros from t w Hfrom Hext Hft Hnext Hst Hall Hun Hx.
  { cbn. destruct Hx as [Hx|[Hne _]]; [done|]. by destruct Hne. }
  cbn [passes]. destruct Hst as (Hp & Hfin & Hseq & Hst). destruct Hall as [Hdark Hall].
  apply Forall_cons in Hun as [Hp1 Hun].
  assert (declared (reachability_of k (db (run_pass p w)))) as Hd.
  { rewrite (dark_pass k c p w Hdark); [|by apply (no_gap cadence from p w t); try lia|lia].
    apply missed_declared. cbn [db seen]. rewrite Hp1. destruct Hx as [Hx|[_ Hx]]; auto. }
  apply (IH (at_time p) (finished_at p)); try done; [lia| |].
  - rewrite run_pass_eq by apply Hdark. done.
  - by left.
Qed.
Lemma dark_from cadence ps : cadence ≤ awake_for → ∀ from t (w : fleet) final, ext w = Some t → from ≤ t →
  match ps with [] => True | p :: _ => t ≤ at_time p end →
  steady cadence from ps → throughout (dark k c) ps w → untouched ps →
  from ≤ c + awake_for → last (at_time <$> ps) = Some final → c + awake_for + cadence < final →
  (∃ y, reachability_of k (db w) = Some y ∧ 0 ≤ consecutive_misses y) →
  declared (reachability_of k (db (passes ps w))).
Proof.
  intros Hcad. induction ps as [|p ps IH]; intros from t w final Hext Hft Hnext Hst Hall Hun Hfrom Hlast Hfinal (y & Hy & Hm); [done|].
  cbn [passes]. destruct Hst as (Hp & Hfin & Hseq & Hst). destruct Hall as [Hdark Hall].
  apply Forall_cons in Hun as [Hp1 Hun].
  assert (platform_gap (at_time p) (remembered (at_time p) (ext w)) = false) as Hgap by (apply (no_gap cadence from p w t); try lia; done).
  destruct ps as [|q ps]; [cbn in Hlast; injection Hlast as <-; lia|].
  assert (ext (run_pass p w) = Some (finished_at p)) as Hext' by (by rewrite run_pass_eq by apply Hdark).
  destruct (Z.le_gt_cases (at_time p) (c + awake_for)) as [Hle|Hgt].
  - apply (IH (at_time p) (finished_at p) _ final); try done.
    apply pass_nonneg; [apply Hdark|]. cbn [db seen]. rewrite Hp1. eauto.
  - apply (stays_declared cadence (q :: ps) Hcad (at_time p) (finished_at p)); try done; try lia. right. split; [done|].
    rewrite (dark_pass k c p w Hdark Hgap) by lia. apply missed_suspected. cbn [db seen]. rewrite Hp1. eauto.
Qed.
End dark.

(** A pass over a router that called lately declares nothing. *)
Lemma early_pass k c p w : dark k c p (db (seen p w)) → at_time p ≤ c + awake_for →
  ¬ declared (reachability_of k (db (seen p w))) → ¬ declared (reachability_of k (db (run_pass p w))).
Proof.
  intros [Hs (r & Hr & Hk & He) Hc _ _] Hp Hno. rewrite pass_reachability by done. unfold reachability_of in Hno.
  rewrite (by_id_unique k _ r) in * by (try apply Hs; done). cbn [fmap option_fmap option_map] in *.
  intros (y & [= <-] & Hy). apply Hno. eexists. split; [reflexivity|]. revert Hy. unfold after_pass.
  destruct (verdict _ _ _ _ r) as [j|] eqn:Ev; [|done]. assert (j = Hit) as ->.
  { unfold verdict in Ev. destruct (_ || _); [done|]. unfold quiet_at in Ev.
    cbn [db seen] in Hc. rewrite Hk, Hc, (proj2 (Z.ltb_ge _ _)) in Ev by lia. by injection Ev. }
  cbn. unfold contacted. case_bool_decide as E; [by intros _|]. by case_bool_decide.
Qed.
Lemma early_passes k c ps : ∀ w, throughout (dark k c) ps w → untouched k ps → Forall (λ p, at_time p ≤ c + awake_for) ps →
  ¬ declared (reachability_of k (db w)) → ¬ declared (reachability_of k (db (passes ps w))).
Proof.
  induction ps as [|p ps IH]; intros w; [done|]. intros [Hdark Hall] [Hp1 Hun]%Forall_cons [Hp Hps]%Forall_cons Hno. cbn [passes].
  apply IH; try done. apply (early_pass k c); try done. cbn [db seen]. by rewrite Hp1.
Qed.
Lemma steady_last cadence ps : ∀ from final, steady cadence from ps → last (at_time <$> ps) = Some final →
  Forall (λ p, at_time p ≤ final) ps.
Proof.
  induction ps as [|p ps IH]; intros from final; [done|]. intros (_ & _ & _ & Hst) Hlast.
  destruct ps as [|q ps]; [injection Hlast as <-; by repeat constructor|].
  assert (Forall (λ p, at_time p ≤ final) (q :: ps)) as Hall by by apply (IH (at_time p)).
  constructor; [|done]. apply Forall_cons in Hall as [Hq _]. destruct Hst as (Hq' & _). lia.
Qed.

(** C32: the sweep declares a router unreachable two minutes into its silence
    and not before a minute and a half.  Let passes follow each other within
    30 seconds, the first no later than 90 seconds after the router's last
    call at [c]; and let the router at every pass be watched, silent since
    [c], without a tunnel known to be up, in a fleet that is not silent as a
    whole, its alert columns written by the sweep only.  If the last of the passes
    comes later than 120 seconds after [c], it is declared unreachable - so by
    150 seconds after [c], since a pass falls into those thirty; and if it
    comes no later than 90 seconds after [c], it is not, unless it was
    before. *)
Theorem dark_site_is_declared k c p ps w final :
  at_time p ≤ c + seconds 90 → steady (seconds 30) (at_time p - seconds 30) (p :: ps) →
  throughout (dark k c) (p :: ps) w → untouched k (p :: ps) →
  (∃ y, reachability_of k (db w) = Some y ∧ 0 ≤ consecutive_misses y) →
  last (at_time <$> p :: ps) = Some final →
  (c + seconds 120 < final → declared (reachability_of k (db (passes (p :: ps) w))))
  ∧ (final ≤ c + seconds 90 → ¬ declared (reachability_of k (db w)) →
     ¬ declared (reachability_of k (db (passes (p :: ps) w)))).
Proof.
  intros Hp Hsteady Hdarks Huns Hw Hlast. pose proof (steady_last _ _ _ _ Hsteady Hlast) as Hle.
  assert (awake_for = seconds 90) as Hawake by done. split.
  2: { intros Hfinal Hno. apply (early_passes k c); try done. rewrite Hawake. eapply Forall_impl; [exact Hle|]. cbn. intros q. lia. }
  intros Hfinal. destruct Hsteady as (_ & Hfin & Hseq & Hst). destruct Hdarks as [Hdark Hall].
  apply Forall_cons in Huns as [Hp1 Hun]. destruct Hw as (y & Hy & Hm). cbn [passes]. unfold seconds in *.
  destruct ps as [|q ps]; [cbn in Hlast; injection Hlast as <-; lia|].
  apply (dark_from k c (seconds 30) (q :: ps) ltac:(done) (at_time p) (finished_at p) _ final); try done.
  - by rewrite run_pass_eq by apply Hdark.
  - rewrite Hawake. unfold seconds. lia.
  - apply pass_nonneg; [apply Hdark|]. cbn [db seen]. rewrite Hp1. eauto.
Qed.

(** ** Histories *)
Section requests.
Context {PU : PyUnicode} {CR : Auth.Crypto} {P6 : Ip.PyIpv6}.
Variable credential_rotator : option (pystr → pystr → pystr → pystr → bool).
Variable synthesize : uuid → pystr * pystr.
(** [router_provisioning_token_expire_hours]. *)
Variable ttl : Z.
Inductive command :=
| Create (k : uuid) (nonce : N) (location : uuid) (requesting : option uuid) (n : new_router)
| CreateNasOnly (k minted organization location : uuid) (name : pystr) (serial mac : option pystr)
| Update (nonce : N) (k : uuid) (requesting : option uuid) (p : router_patch)
| ChangeVendor (k : uuid) (v : pystr) (override : bool)
| Decommission (k : uuid) (requesting : option uuid)
| Suspend (k : uuid) (requesting : option uuid)
| Reinstate (k : uuid) (requesting : option uuid)
| Reset (k : uuid) (requesting : option uuid)
| Heartbeat (k : uuid) (requesting : option uuid) (version management public : option pystr)
| GenerateToken (k t : uuid) (requesting : option uuid) (plaintext : pystr)
| CheckIn (plaintext : pystr)
| SweepTokens
| SweepStale
| SweepReachability (p : option (list Router → uuid → option bool)) (previous : option datetime).
Definition ignore {A} (m : op A) : op unit := _ ← m; mret tt.
(** A request and the time it runs at. *)
Definition handle (x : datetime * command) : op unit :=
  let '(now, c) := x in
  match c with
  | Create k nonce location requesting n => ignore (create_router k nonce location requesting n)
  | CreateNasOnly k minted organization location name serial mac =>
      ignore (create_nas_only_site synthesize k minted organization location name serial mac)
  | Update nonce k requesting p => ignore (update_router credential_rotator nonce k requesting p)
  | ChangeVendor k v override => ignore (change_router_vendor k v override)
  | Decommission k requesting => ignore (decommission_router k requesting)
  | Suspend k requesting => ignore (suspend_router k requesting)
  | Reinstate k requesting => ignore (reinstate_router k requesting)
  | Reset k requesting => ignore (reset_to_pending_provisioning k requesting)
  | Heartbeat k requesting version management public => ignore (heartbeat now k requesting version management public)
  | GenerateToken k t requesting plaintext => ignore (generate_provisioning_token ttl now k t requesting plaintext)
  | CheckIn plaintext => ignore (check_in now plaintext)
  | SweepTokens => ignore (sweep_expired_provisioning_tokens now)
  | SweepStale => ignore (sweep_stale_heartbeats now)
  | SweepReachability p previous => ignore (sweep_router_reachability p now previous)
  end.
Definition requests : list (datetime * command) → database → database := transactions handle.

Lemma ignored_Ok {A} (m : op A) d d' : ignore m d = (Ok tt, d') → ∃ a, m d = (Ok a, d').
Proof. unfold ignore. intros (a & d1 & Hm & H)%bind_Ok. injection H as <-. eauto. Qed.
Lemma handle_step x d d' : handle x d = (Ok tt, d') → step d d'.
Proof.
  intros H Hd. revert Hd. destruct x as [now c]. destruct c; cbn [handle] in H; apply ignored_Ok in H as [a H]; intros Hd.
  - by apply create_router_step in H; apply H.
  - by apply create_nas_step in H; [apply H|].
  - by apply update_router_step in H; apply H.
  - by apply change_vendor_step in H; apply H.
  - by apply decommission_step in H; apply H.
  - by apply set_status_step in H; [apply H|].
  - by apply set_status_step in H; [apply H|].
  - by apply set_status_step in H; [apply H|].
  - by apply heartbeat_step in H; apply H.
  - by apply generate_token_step in H; apply H.
  - by apply check_in_step in H; apply H.
  - by apply sweep_tokens_step in H; [apply H|].
  - by apply sweep_stale_step in H; [apply H|].
  - by apply pass_step in H; apply H.
Qed.
Lemma requests_step cs d : step d (requests cs d).
Proof.
  apply (transactions_induct handle step (λ _, True)); [|by apply Forall_forall].
  intros c d1 d2 _. apply handle_step.
Qed.
Lemma moves_from_decommissioned s : rtc moves DECOMMISSIONED s → s = DECOMMISSIONED.
Proof. intros H. apply rtc_inv in H as [|(s' & [H|[H _]] & _)]; done. Qed.

(** C34: over any history, routers are never lost, and a router keeps its
    location and organization; it is deleted exactly when decommissioned, and
    then for good; serial numbers and MAC addresses stay unique. *)
Theorem routers_are_never_lost cs d : sound d →
  sound (requests cs d)
  ∧ ∀ r, r ∈ routers d → ∃ r', by_id (router_id r) (routers (requests cs d)) = Some r'
      ∧ router_location r' = router_location r ∧ router_org r' = router_org r
      ∧ rtc moves (state r) (state r')
      ∧ (router_deleted r = true → router_deleted r' = true ∧ state r' = DECOMMISSIONED).
Proof.
  intros Hd. destruct (requests_step cs d Hd) as [Hd' [Hr _]]. split; [done|].
  intros r Hrd. destruct (Hr r Hrd) as (r' & Hr' & [Hk Hl Ho Hm]). exists r'. split_and!; try done.
  - apply by_id_unique; [apply Hd'|done|done].
  - intros Hdel. apply (sound_deleted d Hd) in Hdel; [|done]. rewrite Hdel in Hm. apply moves_from_decommissioned in Hm.
    split; [|done]. by apply (sound_deleted _ Hd').
Qed.

(** ** Tokens *)
Lemma token_by_hash h t d : sound d → t ∈ tokens d → token_hash t = h →
  get_provisioning_token_by_hash h d = if token_deleted t then None else Some t.
Proof.
  intros Hd Ht Hh. unfold get_provisioning_token_by_hash.
  assert (∀ x, x ∈ tokens d → token_hash x = h → x = t) as Huniq.
  { intros x Hx Hxh. apply (NoDup_map_eq token_hash (tokens d)); [apply Hd|done..|congruence]. }
  destruct (token_deleted t) eqn:Hdel.
  - apply select_one_None. intros x Hx. destruct (decide (token_hash x = h)) as [E|E].
    + by rewrite (Huniq x Hx E), Hdel.
    + by rewrite (bool_decide_false _ E), andb_false_r.
  - destruct (select_one _ (tokens d)) as [x|] eqn:E.
    + apply select_one_Some in E as [Hx E]. bools. by rewrite (Huniq x Hx).
    + apply (proj1 (select_one_None _ _)) with (r := t) in E; [|done]. cbv beta in E.
      by rewrite Hdel, bool_decide_true in E.
Qed.
Lemma check_in_iff now plaintext d : sound d →
  (∃ r d', check_in now plaintext d = (Ok r, d')) ↔
  ∃ t r, t ∈ tokens d ∧ token_hash t = Auth.sha256 plaintext ∧ token_deleted t = false ∧ used_at t = None
    ∧ now ≤ expires_at t ∧ r ∈ routers d ∧ router_id r = token_router t ∧ state r = PENDING_PROVISIONING.
Proof.
  intros Hd. unfold check_in. erewrite bind_step by (unfold gets; reflexivity). rewrite of_option_bind. split.
  - intros (r & d' & H). destruct (get_provisioning_token_by_hash _ d) as [t|] eqn:Ht; [|done].
    unfold get_provisioning_token_by_hash in Ht. apply select_one_Some in Ht as [Ht Hq]. bools.
    rewrite raise_if_bind in H. case_bool_decide as Hu; [done|].
    rewrite raise_if_bind in H. destruct (is_expired _ _) eqn:He; [done|].
    erewrite bind_step in H by (unfold gets; reflexivity). rewrite of_option_bind in H.
    destruct (get_by_id _ true d) as [x|] eqn:Hx; [|done]. apply get_by_id_Some in Hx as (Hx & Hk & _).
    rewrite raise_if_bind in H. case_bool_decide as Hst; [done|]. unfold is_expired in He. bools.
    exists t, x. split_and!; try done.
  - intros (t & r & Ht & Hh & Hdel & Hu & He & Hr & Hk & Hst). rewrite (token_by_hash _ t) by done. rewrite Hdel.
    rewrite raise_if_bind, bool_decide_false by (rewrite Hu; by intros []).
    rewrite raise_if_bind. unfold is_expired. rewrite (proj2 (Z.ltb_ge _ _)) by done.
    erewrite bind_step by (unfold gets; reflexivity).
    assert (get_by_id (token_router t) true d = Some r) as ->.
    { unfold get_by_id. rewrite (by_id_unique _ _ r) by (try apply Hd; done). by rewrite andb_false_r. }
    rewrite of_option_bind, raise_if_bind, bool_decide_false by (rewrite Hst; by intros []).
    assert ((0 <? rowcount (unused (token_id t)) (tokens d)) = true) as Hpos.
    { apply Z.ltb_lt, (rowcount_pos _ _ t Ht). unfold unused, has_id. rewrite Hu. by rewrite !bool_decide_true. }
    set (d1 := set_tokens (update (unused (token_id t)) (used now)) d).
    erewrite bind_step.
    2: { unfold mark_provisioning_token_used. erewrite bind_step by (unfold gets; reflexivity).
         erewrite bind_step by (unfold modify; reflexivity). rewrite Hpos. reflexivity. }
    rewrite raise_if_bind. cbn [negb]. fold d1. set (f := with_presence _).
    eexists _, _. apply write_Ok. split_and!; [|done|done].
    change (taken (router_id r) (serial_number r) (mac_address r) d = false). by apply taken_identity.
Qed.

(** C33: a router checks in with a provisioning token exactly when the token
    is known, unused and unexpired and its router waits for provisioning; and
    over any later history the same token is never accepted again. *)
Theorem provisioning_token_is_single_use now plaintext d : sound d →
  ((∃ r d', check_in now plaintext d = (Ok r, d')) ↔
     ∃ t r, t ∈ tokens d ∧ token_hash t = Auth.sha256 plaintext ∧ token_deleted t = false ∧ used_at t = None
       ∧ now ≤ expires_at t ∧ r ∈ routers d ∧ router_id r = token_router t ∧ state r = PENDING_PROVISIONING)
  ∧ ∀ r d', check_in now plaintext d = (Ok r, d') →
      router_presence r = mk_presence PROVISIONING (Some now) (last_health_check_at (router_presence r)) (health_status (router_presence r))
      ∧ ∀ cs later, ∃ e, (check_in later plaintext (requests cs d')).1 = Raise e.
Proof.
  intros Hd. split; [by apply check_in_iff|]. intros r d' H.
  destruct (check_in_step _ _ _ _ _ H Hd) as [Hd' _].
  assert (∃ t, t ∈ tokens d' ∧ token_hash t = Auth.sha256 plaintext ∧ used_at t ≠ None
    ∧ router_presence r = mk_presence PROVISIONING (Some now) (last_health_check_at (router_presence r)) (health_status (router_presence r)))
    as (t & Ht & Hh & Hu & Hp).
  { unfold check_in in H. erewrite bind_step in H by (unfold gets; reflexivity). rewrite of_option_bind in H.
    destruct (get_provisioning_token_by_hash _ d) as [t|] eqn:Ht; [|done].
    rewrite raise_if_bind in H. case_bool_decide as Hu; [done|].
    rewrite raise_if_bind in H. destruct (is_expired _ _); [done|].
    erewrite bind_step in H by (unfold gets; reflexivity). rewrite of_option_bind in H.
    destruct (get_by_id _ true d) as [x|]; [|done]. rewrite raise_if_bind in H. case_bool_decide; [done|].
    apply bind_Ok in H as (b & d1 & Hm & H). rewrite raise_if_bind in H. destruct b; [|done]. cbn [negb] in H.
    unfold mark_provisioning_token_used in Hm. erewrite bind_step in Hm by (unfold gets; reflexivity).
    erewrite bind_step in Hm by (unfold modify; reflexivity). injection Hm as _ <-.
    apply write_Ok in H as (_ & -> & ->). unfold get_provisioning_token_by_hash in Ht.
    apply select_one_Some in Ht as [Ht Hq]. bools. exists (used now t). split_and!; try done.
    cbn. apply elem_of_update. exists t. split; [done|]. unfold unused, has_id. rewrite Hu. by rewrite !bool_decide_true. }
  split; [exact Hp|]. intros cs later. destruct (requests_step cs d' Hd') as [Hc [_ Htok]].
  destruct (Htok t Ht) as (t' & Ht' & _ & _ & Hh' & _ & Hu').
  unfold check_in. erewrite bind_step by (unfold gets; reflexivity).
  rewrite (token_by_hash _ t') by (try done; congruence). destruct (token_deleted t'); [by eexists|].
  rewrite of_option_bind, raise_if_bind, bool_decide_true; [by eexists|]. by rewrite Hu'.
Qed.
End requests.

(** ** A fleet of one, watched *)
Module examples.
#[local] Existing Instance ascii_only.
#[local] Existing Instance Auth.examples.toy.
#[local] Existing Instance Ip.no_v6.
Definition site : Router := mk_router 1 5 7 (u "r") (u "s1") (u "AA:BB") (u "hEX") MIKROTIK None
  (mk_access None None None None) (mk_presence ONLINE (Some 0) (Some 0) (Some HEALTHY))
  (mk_reachability (Some REACHABLE) None 0 0) false.
Definition waiting : Router := mk_router 2 5 7 (u "q") (u "s2") (u "AA:CC") (u "hEX") MIKROTIK None
  (mk_access None None None None) (mk_presence PENDING_PROVISIONING None None None) nothing_known false.
Definition token : RouterProvisioningToken := mk_token 9 2 (u "secret") (minutes 60) None false.
Definition d : database := mk_database [site; waiting] [token] [mk_credential 1 (minutes 60) (Some 0) None false]
  [mk_location 5 7 false false] [] {[7%positive := None]}.
Definition pass_at (t : Z) : pass := mk_pass (seconds t) (seconds t) None (λ d, d).
Lemma sound_d : sound d.
Proof.
  constructor; try (apply (bool_decide_unpack _); by vm_compute).
  cbn. intros r [->|[->|[]%not_elem_of_nil]%elem_of_cons]%elem_of_cons; by split.
Qed.
Definition fleet_with (x : reachability) : database := set_routers (λ _, [with_reachability (λ _, x) site; waiting]) d.
Lemma sound_with x : sound (fleet_with x).
Proof.
  constructor; try (apply (bool_decide_unpack _); by vm_compute).
  cbn. intros y [->|[->|[]%not_elem_of_nil]%elem_of_cons]%elem_of_cons; by split.
Qed.
Lemma dark_at t x : seconds t < minutes 60 → dark 1 0 (pass_at t) (fleet_with x).
Proof.
  intros Ht. constructor.
  - apply sound_with.
  - exists (with_reachability (λ _, x) site). split_and!; [by left|done|by vm_compute].
  - unfold last_agent_contact_at, select. cbn [at_time pass_at credentials fleet_with set_routers d List.filter credential_router].
    unfold usable. cbn [credential_deleted revoked_at credential_expires_at negb andb].
    rewrite !bool_decide_true by done. cbn [andb]. by rewrite (proj2 (Z.ltb_lt _ _) Ht).
  - unfold fleet_outage, candidates, reachability_candidate, select. cbn [routers fleet_with set_routers List.filter].
    assert (eligible waiting = false) as -> by done. rewrite andb_false_l. by destruct (eligible _ && bool_decide _).
  - done.
Qed.
Definition w : world database (option datetime) := World d None.
(** The sweeps of a minute and a half and later, every thirty seconds. *)
Definition timeline : list pass := [pass_at 90; pass_at 120; pass_at 150].
Lemma dark_site_is_declared_witness : declared (reachability_of 1 (db (passes timeline w))).
Proof.
  apply (dark_site_is_declared 1 0 (pass_at 90) [pass_at 120; pass_at 150] w (seconds 150)); [| | | | | |by vm_compute].
  - by vm_compute.
  - cbn. unfold seconds. lia.
  - split; [exact (dark_at 90 (mk_reachability (Some REACHABLE) None 0 0) ltac:(done))|].
    split; [exact (dark_at 120 (mk_reachability (Some REACHABLE) None 0 0) ltac:(done))|].
    split; [|done]. exact (dark_at 150 (mk_reachability (Some REACHABLE) None 1 0) ltac:(done)).
  - by repeat constructor.
  - exists (mk_reachability (Some REACHABLE) None 0 0). by split.
  - done.
Defined.
(** Two minutes are not always enough: a router that called at the instant
    it went dark is still reachable at the pass two minutes later. *)
Lemma dark_site_undeclared_after_two_minutes :
  reachability_state <$> reachability_of 1 (db (passes [pass_at 90; pass_at 120] w)) = Some (Some REACHABLE).
Proof. by vm_compute. Qed.
(** After a gap of an hour one pass is skipped; the next, thirty seconds
    later, already counts a silence of ninety. *)
Lemma window_judged_after_a_gap :
  consecutive_misses <$> reachability_of 1 (db (passes [pass_at 3000] (World d (Some 0)))) = Some 0
  ∧ consecutive_misses <$> reachability_of 1 (db (passes [pass_at 3000; pass_at 3030] (World d (Some 0)))) = Some 1.
Proof. by vm_compute. Qed.

Definition morning : list (datetime * command) :=
  [(seconds 10, CheckIn (u "secret")); (seconds 20, Heartbeat 2 None None None None); (seconds 30, Decommission 1 (Some 7%positive))].
Lemma routers_are_never_lost_witness :
  sound (requests None (λ _, ([], [])) 24 morning d)
  ∧ state <$> by_id 2 (routers (requests None (λ _, ([], [])) 24 morning d)) = Some ONLINE
  ∧ state <$> by_id 1 (routers (requests None (λ _, ([], [])) 24 morning d)) = Some DECOMMISSIONED.
Proof.
  split; [exact (proj1 (routers_are_never_lost None (λ _, ([], [])) 24 morning d sound_d))|]. by vm_compute.
Defined.
Lemma provisioning_token_is_single_use_witness :
  ∃ r d', check_in (seconds 10) (u "secret") d = (Ok r, d')
    ∧ ∀ cs later, ∃ e, (check_in later (u "secret") (requests None (λ _, ([], [])) 24 cs d')).1 = Raise e.
Proof.
  destruct (proj2 (proj1 (provisioning_token_is_single_use None (λ _, ([], [])) 24 (seconds 10) (u "secret") d sound_d)))
    as (r & d' & H).
  - exists token, waiting. split_and!; try done; by repeat constructor.
  - exists r, d'. split; [exact H|].
    exact (proj2 (proj2 (provisioning_token_is_single_use None (λ _, ([], [])) 24 (seconds 10) (u "secret") d sound_d) r d' H)).
Defined.
End examples.
End Router.
