(* ===== verification/Provisioning.v ===== *)
(** Router configuration: templates, variables, versions and the jobs that
    apply them.

    [src/backend/app/domains/router_provisioning]: what a template renders to
    ([render_template], [resolve_variables]), the numbered versions of a
    router's configuration, applying one, rolling back, backups and restores,
    the enrollment of unknown devices ([service.py]), over the statements of
    [repository.py].  Pushing a configuration is what the device answers to
    it; events, audit rows, listings and diffs are left out. *)

From S2P Require Import Prelude Table Session PyStr Auth Ip Router.

Module Provisioning.
#[local] Existing Instances Router.status_eq_dec Router.router_has_id Router.step_preorder.

(** ** Enumerations and errors *)
Inductive ConfigVariableScope := ORGANIZATION | LOCATION | ROUTER.
#[export] Instance scope_eq_dec : EqDecision ConfigVariableScope.
Proof. solve_decision. Defined.
Inductive ConfigVersionStatus := DRAFT | PENDING_APPLY | APPLIED | FAILED | ROLLED_BACK.
#[export] Instance version_status_eq_dec : EqDecision ConfigVersionStatus.
Proof. solve_decision. Defined.
Definition CONFIG_VERSION_STATUS_TRANSITIONS (s : ConfigVersionStatus) : list ConfigVersionStatus :=
  match s with
  | DRAFT => [PENDING_APPLY]
  | PENDING_APPLY => [APPLIED; FAILED]
  | APPLIED => [ROLLED_BACK]
  | FAILED => [PENDING_APPLY]
  | ROLLED_BACK => []
  end.
Inductive EnrollmentStatus := PENDING | APPROVED | REJECTED.
#[export] Instance enrollment_status_eq_dec : EqDecision EnrollmentStatus.
Proof. solve_decision. Defined.
Inductive ProvisioningJobType := INITIAL_CONFIG | CONFIG_PUSH | BACKUP | RESTORE | FACTORY_RESET.
#[export] Instance job_type_eq_dec : EqDecision ProvisioningJobType.
Proof. solve_decision. Defined.
Inductive ProvisioningJobStatus := QUEUED | RUNNING | SUCCEEDED | JOB_FAILED.
#[export] Instance job_status_eq_dec : EqDecision ProvisioningJobStatus.
Proof. solve_decision. Defined.
Definition PROVISIONING_JOB_STATUS_TRANSITIONS (s : ProvisioningJobStatus) : list ProvisioningJobStatus :=
  match s with
  | QUEUED => [RUNNING]
  | RUNNING => [SUCCEEDED; JOB_FAILED]
  | JOB_FAILED => [QUEUED]
  | SUCCEEDED => []
  end.

Inductive error :=
| ConfigTemplateNotFoundError | ConfigTemplateScopeMismatchError | CrossOrganizationTemplateAccessError
| InvalidConfigVariableScopeError | CrossOrganizationVariableAccessError | ConfigVariableNotFoundError
| DuplicateConfigVariableError | ConfigVersionNotFoundError | ConfigVersionRouterMismatchError
| InvalidConfigVersionStatusTransitionError | UnresolvedTemplateVariablesError (missing : list pystr)
| RouterNotEligibleForConfigError | RouterNotEligibleForFactoryResetError | BackupVersionExpectedError
| NoAppliedConfigToBackupError | RouterEnrollmentNotFoundError | RouterEnrollmentNotPendingError
| RouterAlreadyRegisteredError | DuplicatePendingEnrollmentError | ProvisioningJobNotFoundError
| InvalidProvisioningJobStatusTransitionError | TemplateVendorMismatchError | UnsupportedVendorError
| ValueError | KeyError
(** Of the fleet, and of the database. *)
| OfRouter (e : Router.error) | DuplicateRecordError.

(** ** Rows *)
Record ConfigTemplate := mk_template {
  template_id : uuid;
  template_org : option uuid;
  is_system_template : bool;
  template_vendor : pystr;
  template_content : pystr;
  template_active : bool;
  template_deleted : bool;
}.
#[export] Instance template_has_id : HasId ConfigTemplate := template_id.
Record ConfigVariable := mk_variable {
  variable_id : uuid;
  variable_scope : ConfigVariableScope;
  variable_org : option uuid;
  variable_location : option uuid;
  variable_router : option uuid;
  variable_key : pystr;
  variable_value : pystr;
  is_secret : bool;
  variable_deleted : bool;
}.
#[export] Instance variable_has_id : HasId ConfigVariable := variable_id.
Record ConfigProfile := mk_profile {
  profile_id : uuid; profile_router : uuid; profile_template : uuid }.
#[export] Instance profile_has_id : HasId ConfigProfile := profile_id.
Record ConfigVersion := mk_version {
  version_id : uuid;
  version_router : uuid;
  version_profile : option uuid;
  version_number : Z;
  rendered_content : pystr;
  version_status : ConfigVersionStatus;
  applied_at : option datetime;
  rollback_of_version_id : option uuid;
  is_backup : bool;
}.
#[export] Instance version_has_id : HasId ConfigVersion := version_id.
(** The one version the payload of a job names, if its type has any. *)
Record ProvisioningJob := mk_job {
  job_id : uuid;
  job_router : uuid;
  job_type : ProvisioningJobType;
  job_status : ProvisioningJobStatus;
  payload : option uuid;
  attempts : Z;
}.
#[export] Instance job_has_id : HasId ProvisioningJob := job_id.
Record RouterEnrollmentRequest := mk_enrollment {
  enrollment_id : uuid;
  enrollment_serial : pystr;
  enrollment_mac : pystr;
  enrollment_model : pystr;
  enrollment_status : EnrollmentStatus;
  approved_router_id : option uuid;
}.
#[export] Instance enrollment_has_id : HasId RouterEnrollmentRequest := enrollment_id.
Record RouterHealthSnapshot := mk_snapshot {
  snapshot_router : uuid; recorded_at : datetime; snapshot_health : option Router.RouterHealthStatus }.

Record database := mk_database {
  fleet : Router.database;
  templates : list ConfigTemplate;
  variables : list ConfigVariable;
  profiles : list ConfigProfile;
  versions : list ConfigVersion;
  jobs : list ProvisioningJob;
  enrollments : list RouterEnrollmentRequest;
  snapshots : list RouterHealthSnapshot;
}.
Definition set_fleet f d := mk_database f (templates d) (variables d) (profiles d) (versions d) (jobs d) (enrollments d) (snapshots d).
Definition set_templates f d := mk_database (fleet d) (f (templates d)) (variables d) (profiles d) (versions d) (jobs d) (enrollments d) (snapshots d).
Definition set_variables f d := mk_database (fleet d) (templates d) (f (variables d)) (profiles d) (versions d) (jobs d) (enrollments d) (snapshots d).
Definition set_profiles f d := mk_database (fleet d) (templates d) (variables d) (f (profiles d)) (versions d) (jobs d) (enrollments d) (snapshots d).
Definition set_versions f d := mk_database (fleet d) (templates d) (variables d) (profiles d) (f (versions d)) (jobs d) (enrollments d) (snapshots d).
Definition set_jobs f d := mk_database (fleet d) (templates d) (variables d) (profiles d) (versions d) (f (jobs d)) (enrollments d) (snapshots d).
Definition set_enrollments f d := mk_database (fleet d) (templates d) (variables d) (profiles d) (versions d) (jobs d) (f (enrollments d)) (snapshots d).
Definition set_snapshots f d := mk_database (fleet d) (templates d) (variables d) (profiles d) (versions d) (jobs d) (enrollments d) (f (snapshots d)).

(** ** [render_template]

    The pattern matches [{{], white space, a name, white space, [}}]; the
    name is greedy and a match has no other reading. *)
Definition open_brace : N := 123.
Definition close_brace : N := 125.
Definition name_start (c : N) : bool := ((65 <=? c) && (c <=? 90) || (97 <=? c) && (c <=? 122) || (c =? 95))%N.
Definition name_char (c : N) : bool := name_start c || ascii_digit c.
Fixpoint span (p : N → bool) (s : pystr) : pystr * pystr :=
  match s with
  | c :: s' => if p c then let '(l, r) := span p s' in (c :: l, r) else ([], s)
  | [] => ([], [])
  end.
(** A placeholder at the start of [s]: its name, and what follows it. *)
Definition placeholder (s : pystr) : option (pystr * pystr) :=
  match s with
  | a :: b :: s =>
      if (a =? open_brace)%N && (b =? open_brace)%N then
        let '(_, s) := span is_space s in
        match s with
        | c :: _ =>
            if name_start c then
              let '(name, s) := span name_char s in
              let '(_, s) := span is_space s in
              match s with
              | x :: y :: s => if (x =? close_brace)%N && (y =? close_brace)%N then Some (name, s) else None
              | _ => None
              end
            else None
        | [] => None
        end
      else None
  | _ => None
  end.
Inductive piece := Text (c : N) | Slot (name : pystr).
(** The pieces of a template; [n] is at least its length. *)
Fixpoint scan (n : nat) (s : pystr) : list piece :=
  match n with
  | O => []
  | S n =>
      match s with
      | [] => []
      | c :: s' =>
          match placeholder s with
          | Some (name, rest) => Slot name :: scan n rest
          | None => Text c :: scan n s'
          end
      end
  end.
Definition pieces (s : pystr) : list piece := scan (length s) s.
Abbreviation environment := (gmap (list N) (list N)).
Definition unresolved (vars : environment) (p : piece) : option pystr :=
  match p with Slot name => if bool_decide (vars !! name = None) then Some name else None | Text _ => None end.
Definition fill (vars : environment) (p : piece) : pystr :=
  match p with Slot name => default [] (vars !! name) | Text c => [c] end.
Definition render_template (content : pystr) (vars : environment) : outcome error pystr :=
  match omap (unresolved vars) (pieces content) with
  | [] => Ok (concat (map (fill vars) (pieces content)))
  | missing => Raise (UnresolvedTemplateVariablesError missing)
  end.

(** ** Devices *)
Record DeviceCredentials := mk_credentials { device_host : pystr; username : pystr; password : pystr }.
(** What a push comes to: any exception of the adapter is a failure. *)
Inductive push_result := Pushed | PushFailed.
Definition PROVISIONING_VENDORS : list pystr := [Router.MIKROTIK].

(** ** [repository.py] *)
Abbreviation op := (M database error).
(** A call of the fleet's service, its exceptions passed on. *)
Definition on_fleet {A} (m : Router.op A) : op A := λ d,
  let '(o, f) := m (fleet d) in
  (match o with Ok a => Ok a | Raise e => Raise (OfRouter e) end, set_fleet f d).

Definition with_status (s : ConfigVersionStatus) (a : option datetime) (v : ConfigVersion) : ConfigVersion :=
  mk_version (version_id v) (version_router v) (version_profile v) (version_number v) (rendered_content v)
    s a (rollback_of_version_id v) (is_backup v).
Definition with_job (s : ProvisioningJobStatus) (n : Z) (j : ProvisioningJob) : ProvisioningJob :=
  mk_job (job_id j) (job_router j) (job_type j) s (payload j) n.

Definition template_by_id (k : uuid) (d : database) : option ConfigTemplate :=
  match by_id k (templates d) with Some t => if template_deleted t then None else Some t | None => None end.
Definition variable_by_id (k : uuid) (d : database) : option ConfigVariable :=
  match by_id k (variables d) with Some v => if variable_deleted v then None else Some v | None => None end.
Definition find_variable (s : ConfigVariableScope) (o l r : option uuid) (key : pystr) (d : database) : option ConfigVariable :=
  select_one (λ v, negb (variable_deleted v) && bool_decide (variable_scope v = s) && bool_decide (variable_org v = o)
                   && bool_decide (variable_location v = l) && bool_decide (variable_router v = r)
                   && bool_decide (variable_key v = key)) (variables d).
Definition list_global_variables (d : database) : list ConfigVariable :=
  select (λ v, negb (variable_deleted v) && bool_decide (variable_scope v = ORGANIZATION)
               && bool_decide (variable_org v = None)) (variables d).
(** [get_all]: the newest first. *)
Definition list_organization_variables (o : uuid) (d : database) : list ConfigVariable :=
  rev (select (λ v, negb (variable_deleted v) && bool_decide (variable_scope v = ORGANIZATION)
               && bool_decide (variable_org v = Some o)) (variables d)).
Definition list_location_variables (l : uuid) (d : database) : list ConfigVariable :=
  rev (select (λ v, negb (variable_deleted v) && bool_decide (variable_scope v = LOCATION)
               && bool_decide (variable_location v = Some l)) (variables d)).
Definition list_router_variables (r : uuid) (d : database) : list ConfigVariable :=
  rev (select (λ v, negb (variable_deleted v) && bool_decide (variable_scope v = ROUTER)
               && bool_decide (variable_router v = Some r)) (variables d)).
Definition get_profile_for_router (k : uuid) (d : database) : option ConfigProfile :=
  select_one (λ p, bool_decide (profile_router p = k)) (profiles d).
Definition of_router (k : uuid) (v : ConfigVersion) : bool := bool_decide (version_router v = k).
(** The constraint [(router_id, version_number)] is in the schema. *)
Definition create_version (v : ConfigVersion) : op ConfigVersion :=
  clash ← gets (λ d, bool_decide (by_id (version_id v) (versions d) ≠ None)
                     || existsb (λ x, of_router (version_router v) x && (version_number x =? version_number v)) (versions d));
  _ ← raise_if clash DuplicateRecordError;
  _ ← modify (set_versions (insert_row v));
  mret v.
Definition update_version (f : ConfigVersion → ConfigVersion) (v : ConfigVersion) : op ConfigVersion :=
  _ ← modify (set_versions (set_row f (version_id v)));
  mret (f v).
Fixpoint greatest (l : list Z) : option Z :=
  match l with
  | [] => None
  | x :: l => Some (match greatest l with Some y => Z.max x y | None => x end)
  end.
Definition get_next_version_number (k : uuid) (d : database) : Z :=
  default 0 (greatest (map version_number (select (of_router k) (versions d)))) + 1.
Definition current (k : uuid) (exclude : option uuid) (v : ConfigVersion) : bool :=
  of_router k v && negb (is_backup v) && bool_decide (version_status v = APPLIED)
  && bool_decide (exclude ≠ Some (version_id v)).
Definition get_latest_applied_version (k : uuid) (exclude : option uuid) (d : database) : option ConfigVersion :=
  least (λ v, - version_number v) (select (current k exclude) (versions d)).
Definition create_job (j : ProvisioningJob) : op ProvisioningJob :=
  clash ← gets (λ d, bool_decide (by_id (job_id j) (jobs d) ≠ None));
  _ ← raise_if clash DuplicateRecordError;
  _ ← modify (set_jobs (insert_row j));
  mret j.
Definition update_job (f : ProvisioningJob → ProvisioningJob) (j : ProvisioningJob) : op ProvisioningJob :=
  _ ← modify (set_jobs (set_row f (job_id j)));
  mret (f j).
Definition find_pending_enrollment (s m : pystr) (d : database) : option RouterEnrollmentRequest :=
  select_one (λ e, bool_decide (enrollment_status e = PENDING)
                   && (bool_decide (enrollment_serial e = s) || bool_decide (enrollment_mac e = m))) (enrollments d).

(** ** [validators.py] *)
Definition validate_variable_scope (s : ConfigVariableScope) (o l r : option uuid) : op unit :=
  match s with
  | ROUTER => raise_if (bool_decide (r = None)) InvalidConfigVariableScopeError
  | LOCATION =>
      _ ← raise_if (bool_decide (l = None)) InvalidConfigVariableScopeError;
      raise_if (bool_decide (r ≠ None)) InvalidConfigVariableScopeError
  | ORGANIZATION => raise_if (bool_decide (l ≠ None) || bool_decide (r ≠ None)) InvalidConfigVariableScopeError
  end.
Definition ineligible : list Router.RouterStatus := [Router.DECOMMISSIONED; Router.SUSPENDED].
Definition validate_router_can_receive_config (r : Router.Router) : op unit :=
  raise_if (bool_decide (Router.state r ∈ ineligible)) RouterNotEligibleForConfigError.
Definition validate_router_eligible_for_factory_reset (r : Router.Router) : op unit :=
  raise_if (bool_decide (Router.state r ∉ [Router.ONLINE; Router.OFFLINE])) RouterNotEligibleForFactoryResetError.
Definition validate_version_belongs_to_router (v : ConfigVersion) (k : uuid) : op unit :=
  raise_if (bool_decide (version_router v ≠ k)) ConfigVersionRouterMismatchError.
Definition validate_config_version_transition (s s' : ConfigVersionStatus) : op unit :=
  raise_if (bool_decide (s' ∉ CONFIG_VERSION_STATUS_TRANSITIONS s)) InvalidConfigVersionStatusTransitionError.
Definition validate_job_transition (s s' : ProvisioningJobStatus) : op unit :=
  raise_if (bool_decide (s' ∉ PROVISIONING_JOB_STATUS_TRANSITIONS s)) InvalidProvisioningJobStatusTransitionError.
Definition hex_digit (c : N) : bool := (ascii_digit c || (65 <=? c) && (c <=? 70) || (97 <=? c) && (c <=? 102))%N.
(** [^([0-9A-Fa-f]{2}:){5}[0-9A-Fa-f]{2}$], of a text that has been stripped. *)
Fixpoint mac_pairs (n : nat) (s : pystr) : bool :=
  match n, s with
  | O, [a; b] => hex_digit a && hex_digit b
  | S n, a :: b :: c :: s => hex_digit a && hex_digit b && (c =? 58)%N && mac_pairs n s
  | _, _ => false
  end.

Section service.
Context {PU : PyUnicode} {CR : Auth.Crypto} {P6 : Ip.PyIpv6}.
Definition validate_mac_address_format (m : pystr) : op pystr :=
  let m := Router._normalize_mac m in
  _ ← raise_if (negb (mac_pairs 5 m)) ValueError;
  mret m.

(** ** Templates *)
Definition _enforce_template_scope (t : ConfigTemplate) (requesting : option uuid) : op unit :=
  match template_org t, requesting with
  | Some o, Some q => raise_if (bool_decide (o ≠ q)) CrossOrganizationTemplateAccessError
  | _, _ => mret tt
  end.
Definition create_template (k : uuid) (requesting : option uuid) (content vendor : pystr) (active : bool) : op ConfigTemplate :=
  let system := bool_decide (requesting = None) in
  _ ← raise_if (negb (eqb system (bool_decide (requesting = None)))) ConfigTemplateScopeMismatchError;
  clash ← gets (λ d, bool_decide (by_id k (templates d) ≠ None));
  _ ← raise_if clash DuplicateRecordError;
  let t := mk_template k requesting system vendor content active false in
  _ ← modify (set_templates (insert_row t));
  mret t.
Definition get_template (k : uuid) (requesting : option uuid) : op ConfigTemplate :=
  found ← gets (template_by_id k);
  t ← of_option found ConfigTemplateNotFoundError;
  _ ← _enforce_template_scope t requesting;
  mret t.
Definition write_template (f : ConfigTemplate → ConfigTemplate) (t : ConfigTemplate) : op ConfigTemplate :=
  _ ← modify (set_templates (set_row f (template_id t)));
  mret (f t).
(** The keys of the request; the owner of a template is never among them. *)
Definition update_template (k : uuid) (requesting : option uuid) (content vendor : option pystr) (active : option bool) : op ConfigTemplate :=
  t ← get_template k requesting;
  write_template (λ t, mk_template (template_id t) (template_org t) (is_system_template t)
    (default (template_vendor t) vendor) (default (template_content t) content) (default (template_active t) active)
    (template_deleted t)) t.
Definition delete_template (k : uuid) (requesting : option uuid) : op ConfigTemplate :=
  t ← get_template k requesting;
  t ← write_template (λ t, mk_template (template_id t) (template_org t) (is_system_template t)
        (template_vendor t) (template_content t) false (template_deleted t)) t;
  write_template (λ t, mk_template (template_id t) (template_org t) (is_system_template t)
    (template_vendor t) (template_content t) (template_active t) true) t.

(** ** Variables *)
Definition _resolve_variable_scope_fks (s : ConfigVariableScope) (o l r requesting : option uuid)
    : op (option uuid * option uuid * option uuid) :=
  match s, r, l with
  | ROUTER, Some r, _ =>
      x ← on_fleet (Router.get_router r requesting false);
      mret (Some (Router.router_org x), Some (Router.router_location x), Some (Router.router_id x))
  | ROUTER, None, _ => raise (OfRouter Router.RouterNotFoundError)
  | LOCATION, _, Some l =>
      x ← on_fleet (Router.get_location l requesting);
      mret (Some (Router.location_org x), Some (Router.location_id x), None)
  | LOCATION, _, None => raise (OfRouter Router.LocationNotFoundError)
  | ORGANIZATION, _, _ =>
      _ ← match o, requesting with
          | Some o, Some q => raise_if (bool_decide (o ≠ q)) CrossOrganizationVariableAccessError
          | None, Some _ => raise InvalidConfigVariableScopeError
          | _, None => mret tt
          end;
      mret (o, None, None)
  end.
(** [nonce] is the randomness of the encryption. *)
Definition stored (nonce : N) (secret : bool) (value : pystr) : pystr :=
  if secret then Auth.fernet_encrypt nonce value else value.
Definition create_variable (k : uuid) (nonce : N) (s : ConfigVariableScope) (key value : pystr) (secret : bool)
    (o l r requesting : option uuid) : op ConfigVariable :=
  _ ← validate_variable_scope s o l r;
  '(o, l, r) ← _resolve_variable_scope_fks s o l r requesting;
  existing ← gets (find_variable s o l r key);
  _ ← raise_if (bool_decide (existing ≠ None)) DuplicateConfigVariableError;
  clash ← gets (λ d, bool_decide (by_id k (variables d) ≠ None));
  _ ← raise_if clash DuplicateRecordError;
  let v := mk_variable k s o l r key (stored nonce secret value) secret false in
  _ ← modify (set_variables (insert_row v));
  mret v.
Definition _enforce_variable_scope (v : ConfigVariable) (requesting : option uuid) : op unit :=
  match requesting with
  | None => mret tt
  | Some _ => raise_if (bool_decide (variable_org v ≠ requesting)) CrossOrganizationVariableAccessError
  end.
Definition get_variable (k : uuid) (requesting : option uuid) : op ConfigVariable :=
  found ← gets (variable_by_id k);
  v ← of_option found ConfigVariableNotFoundError;
  _ ← _enforce_variable_scope v requesting;
  mret v.
Definition write_variable (f : ConfigVariable → ConfigVariable) (v : ConfigVariable) : op ConfigVariable :=
  _ ← modify (set_variables (set_row f (variable_id v)));
  mret (f v).
Definition update_variable (k : uuid) (nonce : N) (requesting : option uuid) (value : option pystr) (secret : option bool)
    : op ConfigVariable :=
  v ← get_variable k requesting;
  let new_is_secret := default (is_secret v) secret in
  write_variable (λ v, mk_variable (variable_id v) (variable_scope v) (variable_org v) (variable_location v)
    (variable_router v) (variable_key v)
    (match value with Some x => stored nonce new_is_secret x | None => variable_value v end)
    (default (is_secret v) secret) (variable_deleted v)) v.
Definition delete_variable (k : uuid) (requesting : option uuid) : op ConfigVariable :=
  v ← get_variable k requesting;
  write_variable (λ v, mk_variable (variable_id v) (variable_scope v) (variable_org v) (variable_location v)
    (variable_router v) (variable_key v) (variable_value v) (is_secret v) true) v.

(** *** [resolve_variables] *)
Definition _plain_value (v : ConfigVariable) : outcome error pystr :=
  if is_secret v then
    match Auth.fernet_decrypt (variable_value v) with
    | Some s => Ok s
    | None => Raise (OfRouter Router.RouterCredentialDecryptionError)
    end
  else Ok (variable_value v).
Definition builtins (r : Router.Router) : environment :=
  list_to_map [(u "router_name", Router.router_name r); (u "router_serial_number", Router.serial_number r);
               (u "router_mac_address", Router.mac_address r); (u "router_model", Router.model r)].
Fixpoint overlay (rows : list ConfigVariable) (e : environment) : outcome error environment :=
  match rows with
  | [] => Ok e
  | v :: rows => match _plain_value v with Ok x => overlay rows (<[variable_key v := x]> e) | Raise x => Raise x end
  end.
(** The rows in the order they are read: the later ones win. *)
Definition layers (r : Router.Router) (d : database) : list ConfigVariable :=
  list_global_variables d ++ list_organization_variables (Router.router_org r) d
  ++ list_location_variables (Router.router_location r) d ++ list_router_variables (Router.router_id r) d.
Definition resolve_variables (r : Router.Router) : op environment := λ d, (overlay (layers r d) (builtins r), d).
Definition render (content : pystr) (e : environment) : op pystr := λ d, (render_template content e, d).

(** ** Profiles and drafts *)
Definition assign_profile (p v : uuid) (k template : uuid) (requesting : option uuid) : op (ConfigProfile * ConfigVersion) :=
  r ← on_fleet (Router.get_router k requesting false);
  _ ← validate_router_can_receive_config r;
  found ← gets (template_by_id template);
  t ← of_option found ConfigTemplateNotFoundError;
  _ ← raise_if (negb (template_active t)) ConfigTemplateNotFoundError;
  _ ← _enforce_template_scope t (Some (Router.router_org r));
  _ ← raise_if (bool_decide (Router.vendor r ∉ PROVISIONING_VENDORS)) UnsupportedVendorError;
  _ ← raise_if (bool_decide (template_vendor t ≠ Router.vendor r)) TemplateVendorMismatchError;
  e ← resolve_variables r;
  content ← render (template_content t) e;
  existing ← gets (get_profile_for_router (Router.router_id r));
  profile ← match existing with
            | Some x =>
                let x' := mk_profile (profile_id x) (profile_router x) (template_id t) in
                _ ← modify (set_profiles (set_row (λ _, x') (profile_id x)));
                mret x'
            | None =>
                let x := mk_profile p (Router.router_id r) (template_id t) in
                clash ← gets (λ d, bool_decide (by_id p (profiles d) ≠ None));
                _ ← raise_if clash DuplicateRecordError;
                _ ← modify (set_profiles (insert_row x));
                mret x
            end;
  n ← gets (get_next_version_number (Router.router_id r));
  version ← create_version (mk_version v (Router.router_id r) (Some (profile_id profile)) n content DRAFT None None false);
  mret (profile, version).
Definition create_version_from_content (v : uuid) (k : uuid) (content : pystr) (requesting : option uuid) : op ConfigVersion :=
  r ← on_fleet (Router.get_router k requesting false);
  _ ← validate_router_can_receive_config r;
  n ← gets (get_next_version_number (Router.router_id r));
  create_version (mk_version v (Router.router_id r) None n content DRAFT None None false).
Definition create_pre_apply_backup_from_content (now : datetime) (v : uuid) (k : uuid) (content : pystr) (requesting : option uuid)
    : op ConfigVersion :=
  r ← on_fleet (Router.get_router k requesting false);
  _ ← validate_router_can_receive_config r;
  n ← gets (get_next_version_number (Router.router_id r));
  create_version (mk_version v (Router.router_id r) None n content APPLIED (Some now) None true).
Definition get_version (k v : uuid) (requesting : option uuid) : op ConfigVersion :=
  r ← on_fleet (Router.get_router k requesting false);
  found ← gets (λ d, by_id v (versions d));
  x ← of_option found ConfigVersionNotFoundError;
  _ ← validate_version_belongs_to_router x (Router.router_id r);
  mret x.

(** ** Jobs *)
(** The job is also pushed on a Redis list that nothing here reads. *)
Definition _enqueue_job (r : Router.Router) (t : ProvisioningJobType) (j : uuid) (names : option uuid) : op ProvisioningJob :=
  _ ← raise_if (bool_decide (Router.vendor r ∉ PROVISIONING_VENDORS)) UnsupportedVendorError;
  create_job (mk_job j (Router.router_id r) t QUEUED names 0).
Definition get_job (j : uuid) : op ProvisioningJob :=
  found ← gets (λ d, by_id j (jobs d));
  of_option found ProvisioningJobNotFoundError.
Definition start_provisioning_job (j : uuid) : op ProvisioningJob :=
  job ← get_job j;
  _ ← validate_job_transition (job_status job) RUNNING;
  update_job (λ x, with_job RUNNING (attempts x + 1) x) job.
Definition named (job : ProvisioningJob) : op uuid := of_option (payload job) KeyError.
(** [x] is the identifier drawn for a version the job creates. *)
Definition _complete_job_success (now : datetime) (x : uuid) (r : Router.Router) (t : ProvisioningJobType) (job : ProvisioningJob) : op unit :=
  let k := Router.router_id r in
  match t with
  | INITIAL_CONFIG | CONFIG_PUSH =>
      i ← named job;
      found ← gets (λ d, by_id i (versions d));
      v ← of_option found ConfigVersionNotFoundError;
      _ ← validate_config_version_transition (version_status v) APPLIED;
      previous ← gets (get_latest_applied_version k (Some (version_id v)));
      _ ← update_version (with_status APPLIED (Some now)) v;
      match rollback_of_version_id v, previous with
      | Some _, Some p =>
          _ ← validate_config_version_transition (version_status p) ROLLED_BACK;
          _ ← update_version (λ p, with_status ROLLED_BACK (applied_at p) p) p;
          mret tt
      | _, _ => mret tt
      end
  | RESTORE =>
      i ← named job;
      found ← gets (λ d, by_id i (versions d));
      b ← of_option found ConfigVersionNotFoundError;
      previous ← gets (get_latest_applied_version k None);
      n ← gets (get_next_version_number k);
      _ ← create_version (mk_version x k (version_profile b) n (rendered_content b) APPLIED (Some now)
                            (Some (version_id b)) false);
      match previous with
      | Some p => _ ← update_version (λ p, with_status ROLLED_BACK (applied_at p) p) p; mret tt
      | None => mret tt
      end
  | FACTORY_RESET => _ ← on_fleet (Router.reset_to_pending_provisioning k None); mret tt
  | BACKUP =>
      i ← named job;
      found ← gets (λ d, by_id i (versions d));
      b ← of_option found ConfigVersionNotFoundError;
      n ← gets (get_next_version_number k);
      _ ← create_version (mk_version x k (version_profile b) n (rendered_content b) APPLIED (Some now) None true);
      mret tt
  end.
Definition _complete_job_failure (t : ProvisioningJobType) (job : ProvisioningJob) : op unit :=
  match t with
  | INITIAL_CONFIG | CONFIG_PUSH =>
      i ← named job;
      found ← gets (λ d, by_id i (versions d));
      match found with
      | Some v =>
          _ ← validate_config_version_transition (version_status v) FAILED;
          _ ← update_version (λ v, with_status FAILED (applied_at v) v) v;
          mret tt
      | None => mret tt
      end
  | _ => mret tt
  end.
Definition complete_provisioning_job (now : datetime) (x : uuid) (j : uuid) (success : bool) : op ProvisioningJob :=
  job ← get_job j;
  let target := if success then SUCCEEDED else JOB_FAILED in
  _ ← validate_job_transition (job_status job) target;
  job ← update_job (λ y, with_job target (attempts y) y) job;
  r ← on_fleet (Router.get_router (job_router job) None true);
  _ ← (if success then _complete_job_success now x r (job_type job) job else _complete_job_failure (job_type job) job);
  mret job.
Definition _complete_job_immediately (now : datetime) (x : uuid) (job : ProvisioningJob) : op ProvisioningJob :=
  started ← start_provisioning_job (job_id job);
  complete_provisioning_job now x (job_id started) true.
(** ** Backups, restores and resets *)
Definition create_backup (now : datetime) (j x : uuid) (k : uuid) (requesting : option uuid) : op ProvisioningJob :=
  r ← on_fleet (Router.get_router k requesting false);
  found ← gets (get_latest_applied_version (Router.router_id r) None);
  source ← of_option found NoAppliedConfigToBackupError;
  job ← _enqueue_job r BACKUP j (Some (version_id source));
  _complete_job_immediately now x job.
Definition restore_backup (now : datetime) (j x : uuid) (k backup : uuid) (requesting : option uuid) : op ProvisioningJob :=
  r ← on_fleet (Router.get_router k requesting false);
  _ ← validate_router_can_receive_config r;
  found ← gets (λ d, by_id backup (versions d));
  b ← of_option found ConfigVersionNotFoundError;
  _ ← validate_version_belongs_to_router b (Router.router_id r);
  _ ← raise_if (negb (is_backup b)) BackupVersionExpectedError;
  job ← _enqueue_job r RESTORE j (Some (version_id b));
  _complete_job_immediately now x job.
Definition factory_reset (now : datetime) (j x : uuid) (k : uuid) (requesting : option uuid) : op ProvisioningJob :=
  r ← on_fleet (Router.get_router k requesting false);
  _ ← validate_router_eligible_for_factory_reset r;
  job ← _enqueue_job r FACTORY_RESET j None;
  _complete_job_immediately now x job.
Variable credential_rotator : option (pystr → pystr → pystr → pystr → bool).
(** [token_urlsafe] draws [new_secret]. *)
Definition rotate_secret (nonce : N) (new_secret : pystr) (k : uuid) (requesting : option uuid) : op (Router.Router * pystr) :=
  r ← on_fleet (Router.get_router k requesting false);
  _ ← raise_if (bool_decide (Router.state r = Router.DECOMMISSIONED)) (OfRouter Router.RouterDecommissionedError);
  r ← on_fleet (Router.update_router credential_rotator nonce (Router.router_id r) requesting
        {| Router.patch_name := None; Router.patch_model := None; Router.patch_mac := None; Router.patch_serial := None; Router.patch_routeros := None;
           Router.patch_management_ip := None; Router.patch_public_ip := None; Router.patch_username := None;
           Router.patch_secret := Some new_secret |});
  mret (r, new_secret).

(** ** Enrollment *)
(** [get_by_mac_address] of the fleet normalizes. *)
Definition conflicting (serial mac : pystr) (d : database) : bool :=
  bool_decide (Router.get_by_serial_number serial (fleet d) ≠ None)
  || bool_decide (Router.get_by_mac_address (Router._normalize_mac mac) (fleet d) ≠ None).
Definition submit_enrollment (e : uuid) (serial mac model : pystr) : op RouterEnrollmentRequest :=
  let serial := strip serial in
  mac ← validate_mac_address_format mac;
  conflict ← gets (conflicting serial mac);
  _ ← raise_if conflict RouterAlreadyRegisteredError;
  duplicate ← gets (find_pending_enrollment serial mac);
  _ ← raise_if (bool_decide (duplicate ≠ None)) DuplicatePendingEnrollmentError;
  clash ← gets (λ d, bool_decide (by_id e (enrollments d) ≠ None));
  _ ← raise_if clash DuplicateRecordError;
  let x := mk_enrollment e serial mac model PENDING None in
  _ ← modify (set_enrollments (insert_row x));
  mret x.
Definition get_enrollment (e : uuid) : op RouterEnrollmentRequest :=
  found ← gets (λ d, by_id e (enrollments d));
  of_option found RouterEnrollmentNotFoundError.
Definition review (s : EnrollmentStatus) (k : option uuid) (e : RouterEnrollmentRequest) : op RouterEnrollmentRequest :=
  let e' := mk_enrollment (enrollment_id e) (enrollment_serial e) (enrollment_mac e) (enrollment_model e) s k in
  _ ← modify (set_enrollments (set_row (λ _, e') (enrollment_id e)));
  mret e'.
Definition approve_enrollment (e k : uuid) (nonce : N) (location : uuid) (requesting : option uuid) (name : pystr)
    (management public user secret : option pystr) : op (RouterEnrollmentRequest * Router.Router) :=
  x ← get_enrollment e;
  _ ← raise_if (bool_decide (enrollment_status x ≠ PENDING)) RouterEnrollmentNotPendingError;
  conflict ← gets (conflicting (enrollment_serial x) (enrollment_mac x));
  _ ← raise_if conflict RouterAlreadyRegisteredError;
  r ← on_fleet (Router.create_router k nonce location requesting
        {| Router.new_name := name; Router.new_serial := enrollment_serial x; Router.new_mac := enrollment_mac x;
           Router.new_model := enrollment_model x; Router.new_vendor := Router.MIKROTIK;
           Router.new_management_ip := management; Router.new_public_ip := public;
           Router.new_username := user; Router.new_secret := secret |});
  x ← review APPROVED (Some (Router.router_id r)) x;
  mret (x, r).
Definition reject_enrollment (e : uuid) : op RouterEnrollmentRequest :=
  x ← get_enrollment e;
  _ ← raise_if (bool_decide (enrollment_status x ≠ PENDING)) RouterEnrollmentNotPendingError;
  review REJECTED (approved_router_id x) x.

(** ** Health *)
Definition record_health_snapshot (now : datetime) (k : uuid) (requesting : option uuid)
    (version management : option pystr) (call_heartbeat : bool) : op (Router.Router * RouterHealthSnapshot) :=
  r ← (if call_heartbeat then on_fleet (Router.heartbeat now k requesting version management None)
       else on_fleet (Router.get_router k requesting false));
  let x := mk_snapshot (Router.router_id r) now (Router.health_status (Router.router_presence r)) in
  _ ← modify (set_snapshots (insert_row x));
  mret (r, x).
Definition record_failed_health_check (now : datetime) (k : uuid) (requesting : option uuid) : op RouterHealthSnapshot :=
  r ← on_fleet (Router.get_router k requesting false);
  let x := mk_snapshot (Router.router_id r) now (Some Router.UNHEALTHY) in
  _ ← modify (set_snapshots (insert_row x));
  mret x.

(** ** Applying a version

    The device is outside of the transaction: what it answers to a push
    depends on its state and changes it. *)
Section device.
Context {dev : Type}.
Variable push_config : DeviceCredentials → pystr → dev → push_result * dev.
Abbreviation device_op := (M (world database dev) error).
(** [_resolve_device_credentials]; its exceptions are failures of the push. *)
Definition _resolve_device_credentials (r : Router.Router) : option DeviceCredentials :=
  let a := Router.router_access r in
  let secret := match Router.api_credentials_encrypted a with
                | Some c => Auth.fernet_decrypt c
                | None => None
                end in
  match Router.host r, Router.given (Router.api_username a), Router.given secret with
  | Some h, Some n, Some s => Some (mk_credentials h n s)
  | _, _, _ => None
  end.
Definition answer (r : Router.Router) (content : pystr) (x : dev) : push_result * dev :=
  match _resolve_device_credentials r with Some c => push_config c content x | None => (PushFailed, x) end.
Definition attempt (r : Router.Router) (content : pystr) : M dev error push_result :=
  λ x, let '(a, x) := answer r content x in (Ok a, x).
Definition pushed (a : push_result) : bool := match a with Pushed => true | PushFailed => false end.
Definition _push_version_and_complete (now : datetime) (x : uuid) (r : Router.Router) (job : ProvisioningJob)
    (v : ConfigVersion) : device_op ProvisioningJob :=
  started ← on_db (start_provisioning_job (job_id job));
  a ← on_ext (attempt r (rendered_content v));
  on_db (complete_provisioning_job now x (job_id started) (pushed a)).
Definition apply_version (now : datetime) (j x : uuid) (k v : uuid) (requesting : option uuid)
    : device_op (ConfigVersion * ProvisioningJob) :=
  r ← on_db (on_fleet (Router.get_router k requesting false));
  _ ← on_db (validate_router_can_receive_config r);
  found ← on_db (gets (λ d, by_id v (versions d)));
  version ← of_option found ConfigVersionNotFoundError;
  _ ← on_db (validate_version_belongs_to_router version (Router.router_id r));
  _ ← on_db (validate_config_version_transition (version_status version) PENDING_APPLY);
  prior ← on_db (gets (get_latest_applied_version (Router.router_id r) None));
  let t := match prior with Some _ => CONFIG_PUSH | None => INITIAL_CONFIG end in
  job ← on_db (_enqueue_job r t j (Some (version_id version)));
  updated ← on_db (update_version (λ y, with_status PENDING_APPLY (applied_at y) y) version);
  final_job ← _push_version_and_complete now x r job updated;
  final ← on_db (gets (λ d, by_id (version_id updated) (versions d)));
  mret (default updated final, final_job).
Definition rollback_to_version (now : datetime) (v j x : uuid) (k target : uuid) (requesting : option uuid)
    : device_op ConfigVersion :=
  r ← on_db (on_fleet (Router.get_router k requesting false));
  _ ← on_db (validate_router_can_receive_config r);
  found ← on_db (gets (λ d, by_id target (versions d)));
  t ← of_option found ConfigVersionNotFoundError;
  _ ← on_db (validate_version_belongs_to_router t (Router.router_id r));
  n ← on_db (gets (get_next_version_number (Router.router_id r)));
  draft ← on_db (create_version (mk_version v (Router.router_id r) (version_profile t) n (rendered_content t)
                   DRAFT None (Some (version_id t)) false));
  '(applied, _) ← apply_version now j x (Router.router_id r) (version_id draft) requesting;
  mret applied.

(** ** Histories *)
Inductive command :=
| Fleet (c : datetime * Router.command)
| CreateTemplate (k : uuid) (requesting : option uuid) (content vendor : pystr) (active : bool)
| UpdateTemplate (k : uuid) (requesting : option uuid) (content vendor : option pystr) (active : option bool)
| DeleteTemplate (k : uuid) (requesting : option uuid)
| CreateVariable (k : uuid) (nonce : N) (s : ConfigVariableScope) (key value : pystr) (secret : bool)
    (o l r requesting : option uuid)
| UpdateVariable (k : uuid) (nonce : N) (requesting : option uuid) (value : option pystr) (secret : option bool)
| DeleteVariable (k : uuid) (requesting : option uuid)
| AssignProfile (p v k template : uuid) (requesting : option uuid)
| DraftFromContent (v k : uuid) (content : pystr) (requesting : option uuid)
| BackupFromContent (v k : uuid) (content : pystr) (requesting : option uuid)
| Apply (j x k v : uuid) (requesting : option uuid)
| Rollback (v j x k target : uuid) (requesting : option uuid)
| StartJob (j : uuid)
| CompleteJob (x j : uuid) (success : bool)
| Backup (j x k : uuid) (requesting : option uuid)
| RestoreBackup (j x k backup : uuid) (requesting : option uuid)
| FactoryReset (j x k : uuid) (requesting : option uuid)
| RotateSecret (nonce : N) (new_secret : pystr) (k : uuid) (requesting : option uuid)
| SubmitEnrollment (e : uuid) (serial mac model : pystr)
| ApproveEnrollment (e k : uuid) (nonce : N) (location : uuid) (requesting : option uuid) (name : pystr)
    (management public user secret : option pystr)
| RejectEnrollment (e : uuid)
| HealthSnapshot (k : uuid) (requesting : option uuid) (version management : option pystr) (call_heartbeat : bool)
| FailedHealthCheck (k : uuid) (requesting : option uuid).
Definition done_with {S A} (m : M S error A) : M S error unit := _ ← m; mret tt.
Variable synthesize : uuid → pystr * pystr.
Variable ttl : Z.
(** A request of this module or of the fleet's, and the time it runs at. *)
Definition handle (x : datetime * command) : device_op unit :=
  let '(now, c) := x in
  match c with
  | Fleet y => on_db (on_fleet (Router.handle credential_rotator synthesize ttl y))
  | CreateTemplate k q content v active => on_db (done_with (create_template k q content v active))
  | UpdateTemplate k q content v active => on_db (done_with (update_template k q content v active))
  | DeleteTemplate k q => on_db (done_with (delete_template k q))
  | CreateVariable k nonce s key value secret o l r q => on_db (done_with (create_variable k nonce s key value secret o l r q))
  | UpdateVariable k nonce q value secret => on_db (done_with (update_variable k nonce q value secret))
  | DeleteVariable k q => on_db (done_with (delete_variable k q))
  | AssignProfile p v k t q => on_db (done_with (assign_profile p v k t q))
  | DraftFromContent v k content q => on_db (done_with (create_version_from_content v k content q))
  | BackupFromContent v k content q => on_db (done_with (create_pre_apply_backup_from_content now v k content q))
  | Apply j x k v q => done_with (apply_version now j x k v q)
  | Rollback v j x k target q => done_with (rollback_to_version now v j x k target q)
  | StartJob j => on_db (done_with (start_provisioning_job j))
  | CompleteJob x j success => on_db (done_with (complete_provisioning_job now x j success))
  | Backup j x k q => on_db (done_with (create_backup now j x k q))
  | RestoreBackup j x k backup q => on_db (done_with (restore_backup now j x k backup q))
  | FactoryReset j x k q => on_db (done_with (factory_reset now j x k q))
  | RotateSecret nonce secret k q => on_db (done_with (rotate_secret nonce secret k q))
  | SubmitEnrollment e serial mac model => on_db (done_with (submit_enrollment e serial mac model))
  | ApproveEnrollment e k nonce l q name management public user secret =>
      on_db (done_with (approve_enrollment e k nonce l q name management public user secret))
  | RejectEnrollment e => on_db (done_with (reject_enrollment e))
  | HealthSnapshot k q version management beat => on_db (done_with (record_health_snapshot now k q version management beat))
  | FailedHealthCheck k q => on_db (done_with (record_failed_health_check now k q))
  end.
Definition request (w : world database dev) (c : datetime * command) : world database dev :=
  (get_db_session (handle c) w).2.
Definition requests (cs : list (datetime * command)) (w : world database dev) : world database dev :=
  fold_left request cs w.
End device.
End service.

(** * Properties *)
(** ** The invariant *)
Definition settled_version (v : ConfigVersion) : Prop := version_status v ≠ PENDING_APPLY.
Definition settled_job (j : ProvisioningJob) : Prop := job_status j ∈ [SUCCEEDED; JOB_FAILED] ∧ attempts j = 1.
(** The versions of a router are numbered from one without a gap, in the order
    they were created, and nothing is left in flight. *)
Record consistent (d : database) : Prop := {
  cons_versions : keyed (versions d);
  cons_jobs : keyed (jobs d);
  cons_numbers : ∀ k, map version_number (select (of_router k) (versions d))
                      = map Z.of_nat (seq 1 (length (select (of_router k) (versions d))));
  cons_settled : Forall settled_version (versions d);
  cons_jobs_settled : Forall settled_job (jobs d);
}.
Definition moves (s s' : ConfigVersionStatus) : Prop := s' ∈ CONFIG_VERSION_STATUS_TRANSITIONS s.
(** What of a version never changes, and how its status may. *)
Record descends (v v' : ConfigVersion) : Prop := {
  desc_id : version_id v' = version_id v;
  desc_router : version_router v' = version_router v;
  desc_profile : version_profile v' = version_profile v;
  desc_number : version_number v' = version_number v;
  desc_content : rendered_content v' = rendered_content v;
  desc_rollback : rollback_of_version_id v' = rollback_of_version_id v;
  desc_backup : is_backup v' = is_backup v;
  desc_moves : rtc moves (version_status v) (version_status v');
}.
#[export] Instance descends_preorder : PreOrder descends.
Proof.
  split; [by intros v; split|]. intros v1 v2 v3 [] []. split; try congruence. by etrans.
Qed.
Record evolves (d d' : database) : Prop := {
  ev_versions : ∀ v, v ∈ versions d → ∃ v', v' ∈ versions d' ∧ descends v v';
  ev_jobs : ∀ j, j ∈ jobs d → ∃ j', j' ∈ jobs d' ∧ job_id j' = job_id j;
  ev_fleet : Router.step (fleet d) (fleet d');
}.
#[export] Instance evolves_preorder : PreOrder evolves.
Proof.
  split; [intros d; split; eauto|].
  - intros v Hv. by exists v.
  - by reflexivity.
  - intros d1 d2 d3 [V1 J1 F1] [V2 J2 F2]. split; [| |by etrans].
    + intros v (v2 & Hv2 & H2)%V1. apply V2 in Hv2 as (v3 & Hv3 & H3). exists v3. split; [done|by etrans].
    + intros j (j2 & Hj2 & <-)%J1. apply J2 in Hj2 as (j3 & Hj3 & H3). by exists j3.
Qed.
Definition step (d d' : database) : Prop := consistent d → consistent d' ∧ evolves d d'.
#[export] Instance step_preorder : PreOrder step.
Proof.
  split; [by intros d|]. intros d1 d2 d3 H12 H23 H1. destruct (H12 H1) as [H2 E12]. destruct (H23 H2) as [H3 E23].
  split; [done|]. by etrans.
Qed.
(** Requests that leave versions and jobs alone. *)
Record quiet (d d' : database) : Prop := {
  quiet_versions : versions d' = versions d;
  quiet_jobs : jobs d' = jobs d;
  quiet_fleet : Router.step (fleet d) (fleet d');
}.
#[export] Instance quiet_preorder : PreOrder quiet.
Proof. split; [intros d; split; [done..|reflexivity]|]. intros d1 d2 d3 [] []. split; [congruence..|by etrans]. Qed.
Lemma quiet_step d d' : quiet d d' → step d d'.
Proof.
  intros [Hv Hj Hf] [? ? ? ? ?]. split; [by split; rewrite ?Hv, ?Hj|]. split; [..|done].
  - intros v Hv'. exists v. by rewrite Hv.
  - intros j Hj'. exists j. by rewrite Hj.
Qed.

(** ** Numbers *)
Lemma greatest_seq n : greatest (map Z.of_nat (seq 1 n)) = if decide (n = O) then None else Some (Z.of_nat n).
Proof.
  enough (∀ a, greatest (map Z.of_nat (seq a n)) = if decide (n = O) then None else Some (Z.of_nat (a + n - 1))) as H.
  { rewrite H. destruct (decide _); [done|]. do 2 f_equal. lia. }
  induction n as [|n IH]; intros a; [done|]. cbn [seq map greatest]. rewrite IH.
  destruct (decide (n = O)) as [->|Hn], (decide (S _ = O)); try done; f_equal; lia.
Qed.
Lemma next_number k d : consistent d → get_next_version_number k d = Z.of_nat (length (select (of_router k) (versions d))) + 1.
Proof.
  intros Hd. unfold get_next_version_number. rewrite (cons_numbers d Hd), greatest_seq.
  destruct (decide _) as [E|E]; cbn; lia.
Qed.
Lemma numbers_insert (vs : list ConfigVersion) v : version_number v = Z.of_nat (length (select (of_router (version_router v)) vs)) + 1 →
  (∀ k, map version_number (select (of_router k) vs) = map Z.of_nat (seq 1 (length (select (of_router k) vs)))) →
  ∀ k, map version_number (select (of_router k) (insert_row v vs))
       = map Z.of_nat (seq 1 (length (select (of_router k) (insert_row v vs)))).
Proof.
  intros Hn Hvs k. unfold insert_row. rewrite !select_app. unfold select at 2 4. cbn [List.filter].
  unfold of_router at 2 4. case_bool_decide as E; [|by rewrite !app_nil_r].
  rewrite map_app, length_app. cbn [length]. rewrite Nat.add_1_r, seq_S, map_app, <-Hvs. subst k. cbn. do 2 f_equal. lia.
Qed.
Lemma number_bound d v : consistent d → v ∈ versions d → 1 ≤ version_number v < get_next_version_number (version_router v) d.
Proof.
  intros Hd Hv. rewrite next_number by done.
  assert (version_number v ∈ map version_number (select (of_router (version_router v)) (versions d))) as Hin.
  { apply list_elem_of_In, in_map, list_elem_of_In, elem_of_select. split; [done|]. by apply bool_decide_eq_true. }
  rewrite (cons_numbers d Hd), list_elem_of_In, in_map_iff in Hin. destruct Hin as (n & <- & Hn%in_seq). lia.
Qed.
Lemma number_determines d v v' : consistent d → v ∈ versions d → v' ∈ versions d →
  version_router v = version_router v' → version_number v = version_number v' → v = v'.
Proof.
  intros Hd Hv Hv' Hr Hn.
  apply (NoDup_map_eq version_number (select (of_router (version_router v)) (versions d))).
  - rewrite (cons_numbers d Hd). apply (NoDup_fmap_2 Z.of_nat), NoDup_ListNoDup, seq_NoDup.
  - apply elem_of_select. split; [done|]. by apply bool_decide_eq_true.
  - apply elem_of_select. split; [done|]. by apply bool_decide_eq_true.
  - done.
Qed.
(** Writing rows without moving them leaves the numbers. *)
Lemma numbers_update p f (vs : list ConfigVersion) k :
  (∀ v, version_router (f v) = version_router v ∧ version_number (f v) = version_number v) →
  map version_number (select (of_router k) (update p f vs)) = map version_number (select (of_router k) vs)
  ∧ length (select (of_router k) (update p f vs)) = length (select (of_router k) vs).
Proof.
  intros Hf. unfold select, update. induction vs as [|v vs [IH1 IH2]]; [done|]. cbn.
  assert (of_router k (if p v then f v else v) = of_router k v) as ->.
  { destruct (p v); [|done]. unfold of_router. by destruct (Hf v) as [-> _]. }
  destruct (of_router k v); [|done]. cbn. split; [|by rewrite IH2]. f_equal; [|done]. destruct (p v); [|done]. apply Hf.
Qed.

(** ** Rows *)
Lemma set_row_insert {R} `{HasId R} f k (x : R) t : by_id k t = None → row_id x = k →
  set_row f k (insert_row x t) = insert_row (f x) t.
Proof.
  intros Hn Hk. unfold set_row, insert_row, update. rewrite map_app. cbn. f_equal.
  - rewrite <-(map_id t) at 2. apply map_ext_in. intros y Hy%list_elem_of_In.
    by rewrite (proj1 (select_one_None _ _) Hn y Hy).
  - unfold has_id. by rewrite bool_decide_true.
Qed.
Lemma set_row_set_row {R} `{HasId R} f g k (t : list R) : (∀ r, row_id (g r) = row_id r) →
  set_row f k (set_row g k t) = set_row (λ r, f (g r)) k t.
Proof.
  intros Hg. unfold set_row, update. rewrite map_map. apply map_ext. intros r. destruct (has_id k r) eqn:E.
  - unfold has_id in *. rewrite Hg. by rewrite E.
  - by rewrite E.
Qed.
(** ** Statements *)
Lemma on_fleet_Ok {A} (m : Router.op A) d a d' : on_fleet m d = (Ok a, d') ↔
  ∃ f, m (fleet d) = (Ok a, f) ∧ d' = set_fleet f d.
Proof.
  unfold on_fleet. destruct (m (fleet d)) as [[x|e] f]; split; [|by intros (f' & [= -> ->] & ->)|done|by intros (f' & [=] & _)].
  intros [= -> <-]. by exists f.
Qed.
Lemma set_fleet_same d : set_fleet (fleet d) d = d.
Proof. by destruct d. Qed.
Lemma on_fleet_reads {A} (m : Router.op A) : reads m → reads (on_fleet m).
Proof.
  intros Hm d. unfold on_fleet. specialize (Hm (fleet d)). destruct (m (fleet d)) as [[x|e] f]; cbn in *; subst; apply set_fleet_same.
Qed.
Lemma look_up k q b d r d' : on_fleet (Router.get_router k q b) d = (Ok r, d') ↔
  d' = d ∧ Router.get_router k q b (fleet d) = (Ok r, fleet d).
Proof.
  rewrite on_fleet_Ok. split.
  - intros (f & H & ->). pose proof (Router.get_router_Ok _ _ _ _ _ _ H) as (-> & _). by rewrite set_fleet_same.
  - intros [-> H]. exists (fleet d). by rewrite set_fleet_same.
Qed.
Lemma on_fleet_quiet {A} (m : Router.op A) d a d' : (∀ f f', m f = (Ok a, f') → Router.step f f') →
  on_fleet m d = (Ok a, d') → quiet d d'.
Proof. intros Hm (f & H & ->)%on_fleet_Ok. split; [done..|]. by eapply Hm. Qed.
Lemma raised_if (b : bool) e (d d' : database) : raise_if (E:=error) b e d = (Ok tt, d') ↔ b = false ∧ d' = d.
Proof. destruct b; cbn; split; [done|by intros [? _]|by intros [= <-]|by intros [_ ->]]. Qed.
Lemma create_version_Ok v d v' d' : create_version v d = (Ok v', d') ↔
  by_id (version_id v) (versions d) = None
  ∧ existsb (λ x, of_router (version_router v) x && (version_number x =? version_number v)) (versions d) = false
  ∧ v' = v ∧ d' = set_versions (insert_row v) d.
Proof.
  unfold create_version. erewrite bind_step by (unfold gets; reflexivity). rewrite raise_if_bind.
  destruct (by_id (version_id v) (versions d)) eqn:E; [rewrite bool_decide_true by done; split; [done|by intros (? & _)]|].
  rewrite bool_decide_false by auto. cbn [orb]. destruct (existsb _ _); [split; [done|by intros (_ & ? & _)]|].
  erewrite bind_step by (unfold modify; reflexivity). split; [by intros [= <- <-]|by intros (_ & _ & -> & ->)].
Qed.
Lemma number_is_free d k n : consistent d → n = get_next_version_number k d →
  existsb (λ x, of_router k x && (version_number x =? n)) (versions d) = false.
Proof.
  intros Hd ->. apply not_true_iff_false. rewrite existsb_exists. intros (v & Hv%list_elem_of_In & H).
  apply andb_true_iff in H as [Hk%bool_decide_eq_true Hn%Z.eqb_eq]. subst k. pose proof (number_bound d v Hd Hv). lia.
Qed.
Lemma enqueue_Ok r t j n d job d' : _enqueue_job r t j n d = (Ok job, d') ↔
  Router.vendor r ∈ PROVISIONING_VENDORS ∧ by_id j (jobs d) = None
  ∧ job = mk_job j (Router.router_id r) t QUEUED n 0 ∧ d' = set_jobs (insert_row job) d.
Proof.
  unfold _enqueue_job. rewrite raise_if_bind. case_bool_decide as E; [split; [done|by intros [? _]]|].
  unfold create_job. erewrite bind_step by (unfold gets; reflexivity). rewrite raise_if_bind. cbn [job_id].
  case_bool_decide as E'; [split; [done|by intros (_ & ? & _)]|].
  erewrite bind_step by (unfold modify; reflexivity).
  split; [by intros [= <- <-]|by intros (_ & _ & -> & ->)].
Qed.
Lemma start_Ok j d job' d' : start_provisioning_job j d = (Ok job', d') ↔
  ∃ job, by_id j (jobs d) = Some job ∧ job_status job = QUEUED
  ∧ job' = with_job RUNNING (attempts job + 1) job
  ∧ d' = set_jobs (set_row (λ x, with_job RUNNING (attempts x + 1) x) (job_id job)) d.
Proof.
  unfold start_provisioning_job, get_job. rewrite bind_assoc. erewrite bind_step by (unfold gets; reflexivity).
  rewrite of_option_bind. destruct (by_id j (jobs d)) as [job|] eqn:E; [|split; [done|by intros (? & ? & _)]].
  unfold validate_job_transition. rewrite raise_if_bind. case_bool_decide as Ht.
  - split; [done|]. intros (y & [= <-] & Hq & _). rewrite Hq in Ht. destruct Ht. left.
  - split.
    + intros [= <- <-]. exists job. split_and!; [done| |done..]. destruct (job_status job); cbn in Ht; set_solver.
    + by intros (y & [= <-] & _ & -> & ->).
Qed.
(** *** Requests that leave versions and jobs alone *)
(** A preorder that every returning run of [m] relates its states by. *)
Definition keeps (R : database → database → Prop) {A} (m : op A) : Prop := ∀ d a d', m d = (Ok a, d') → R d d'.
Lemma keeps_reads R `{!PreOrder R} {A} (m : op A) : reads m → keeps R m.
Proof. intros Hm d a d' H. by rewrite (reads_Ok _ _ _ _ H Hm). Qed.
Lemma keeps_bind R `{!PreOrder R} {A B} (m : op A) (f : A → op B) : keeps R m → (∀ a, keeps R (f a)) → keeps R (m ≫= f).
Proof. intros Hm Hf d b d' (a & d1 & H1 & H2)%bind_Ok. etrans; [by eapply Hm|by eapply Hf]. Qed.
Lemma keeps_modify R f : (∀ d, R d (f d)) → keeps R (modify f).
Proof. intros Hf d a d' [= _ <-]. apply Hf. Qed.
Lemma keeps_done_with R `{!PreOrder R} {A} (m : op A) : keeps R m → keeps R (done_with m).
Proof. intros Hm. apply keeps_bind; [done..|]. intros a. by apply keeps_reads, reads_ret. Qed.
Lemma keeps_fleet {A} (m : Router.op A) : (∀ f a f', m f = (Ok a, f') → Router.step f f') → keeps quiet (on_fleet m).
Proof. intros Hm d a d' (f & H & ->)%on_fleet_Ok. split; [done..|]. by eapply Hm. Qed.
Lemma keeps_run R {A} (m : op A) d a d' : keeps R m → m d = (Ok a, d') → R d d'.
Proof. intros Hm. apply Hm. Qed.
Ltac keep :=
  repeat match goal with
  | |- keeps _ (gets (get_next_version_number _) ≫= _) => fail 1
  | |- keeps _ (_enqueue_job _ _ _ _ ≫= _) => fail 1
  | |- keeps _ (_ ≫= _) => apply keeps_bind; [typeclasses eauto| |intros ?]
  | |- keeps _ (let _ := _ in _) => cbv zeta
  | |- keeps _ (match ?x with _ => _ end) => destruct x
  | |- keeps _ (modify _) => apply keeps_modify; intros ?; try apply quiet_step; split; [done..|reflexivity]
  | |- keeps _ _ => apply keeps_reads; [typeclasses eauto|solve [auto with pres]]
  end.
Lemma get_template_reads k q : reads (get_template k q).
Proof.
  unfold get_template. apply reads_bind; [apply reads_gets|]. intros o. apply reads_bind; [apply reads_of_option|].
  intros t. apply reads_bind; [|intros _; apply reads_ret]. unfold _enforce_template_scope.
  destruct (template_org t), q; auto with pres.
Qed.
Lemma get_variable_reads k q : reads (get_variable k q).
Proof.
  unfold get_variable. apply reads_bind; [apply reads_gets|]. intros o. apply reads_bind; [apply reads_of_option|].
  intros t. apply reads_bind; [|intros _; apply reads_ret]. unfold _enforce_variable_scope.
  destruct q; auto with pres.
Qed.
Lemma router_reads k q b : reads (on_fleet (Router.get_router k q b)).
Proof. apply on_fleet_reads, Router.get_router_reads. Qed.
Lemma fks_reads s o l r q : reads (_resolve_variable_scope_fks s o l r q).
Proof.
  unfold _resolve_variable_scope_fks. destruct s.
  - apply reads_bind; [|intros _; apply reads_ret]. destruct o, q; auto with pres.
  - destruct r, l; auto with pres; (apply reads_bind; [apply on_fleet_reads, Router.site_reads|intros; apply reads_ret]).
  - destruct r; [|auto with pres]. apply reads_bind; [apply router_reads|intros; apply reads_ret].
Qed.
#[local] Hint Resolve get_template_reads get_variable_reads router_reads fks_reads : pres.
Section quiet.
Context {PU : PyUnicode} {CR : Auth.Crypto} {P6 : Ip.PyIpv6}.
Lemma create_template_quiet k q content v active : keeps quiet (create_template k q content v active).
Proof. unfold create_template. keep. Qed.
Lemma update_template_quiet k q content v active : keeps quiet (update_template k q content v active).
Proof. unfold update_template, write_template. keep. Qed.
Lemma delete_template_quiet k q : keeps quiet (delete_template k q).
Proof. unfold delete_template, write_template. keep. Qed.
Lemma create_variable_quiet k nonce s key value secret o l r q : keeps quiet (create_variable k nonce s key value secret o l r q).
Proof. unfold create_variable, validate_variable_scope. keep. Qed.
Lemma update_variable_quiet k nonce q value secret : keeps quiet (update_variable k nonce q value secret).
Proof. unfold update_variable, write_variable. keep. Qed.
Lemma delete_variable_quiet k q : keeps quiet (delete_variable k q).
Proof. unfold delete_variable, write_variable. keep. Qed.
Lemma rotate_secret_quiet rotator nonce secret k q : keeps quiet (rotate_secret rotator nonce secret k q).
Proof. unfold rotate_secret. keep. apply keeps_fleet. intros f x f'. apply Router.update_router_step. Qed.
Lemma submit_enrollment_quiet e serial mac model : keeps quiet (submit_enrollment e serial mac model).
Proof. unfold submit_enrollment, validate_mac_address_format. keep. Qed.
Lemma get_enrollment_reads e : reads (get_enrollment e).
Proof. unfold get_enrollment. auto with pres. Qed.
#[local] Hint Resolve get_enrollment_reads : pres.
Lemma approve_enrollment_quiet e k nonce l q name m p us secret :
  keeps quiet (approve_enrollment e k nonce l q name m p us secret).
Proof. unfold approve_enrollment, review. keep. apply keeps_fleet. intros f x f'. apply Router.create_router_step. Qed.
Lemma reject_enrollment_quiet e : keeps quiet (reject_enrollment e).
Proof. unfold reject_enrollment, review. keep. Qed.
Lemma snapshot_quiet now k q version m beat : keeps quiet (record_health_snapshot now k q version m beat).
Proof. unfold record_health_snapshot. keep. apply keeps_fleet. intros f x f'. apply Router.heartbeat_step. Qed.
Lemma failed_check_quiet now k q : keeps quiet (record_failed_health_check now k q).
Proof. unfold record_failed_health_check. keep. Qed.
Lemma fleet_quiet rotator synthesize ttl y : keeps quiet (on_fleet (Router.handle rotator synthesize ttl y)).
Proof. apply keeps_fleet. intros f [] f'. apply Router.handle_step. Qed.
End quiet.

Definition target_of (success : bool) : ProvisioningJobStatus := if success then SUCCEEDED else JOB_FAILED.
Section operations.
Context {PU : PyUnicode} {CR : Auth.Crypto} {P6 : Ip.PyIpv6}.
Definition completion (now : datetime) (x : uuid) (success : bool) (r : Router.Router) (job : ProvisioningJob) : op unit :=
  if success then _complete_job_success now x r (job_type job) job else _complete_job_failure (job_type job) job.
Lemma complete_Ok now x j success d job' d' : complete_provisioning_job now x j success d = (Ok job', d') ↔
  ∃ job r, by_id j (jobs d) = Some job ∧ job_status job = RUNNING
  ∧ job' = with_job (target_of success) (attempts job) job
  ∧ Router.get_router (job_router job) None true (fleet d) = (Ok r, fleet d)
  ∧ completion now x success r job' (set_jobs (set_row (λ y, with_job (target_of success) (attempts y) y) (job_id job)) d) = (Ok tt, d').
Proof.
  unfold complete_provisioning_job, get_job. rewrite bind_assoc. erewrite bind_step by (unfold gets; reflexivity).
  rewrite of_option_bind. destruct (by_id j (jobs d)) as [job|] eqn:E; [|split; [done|by intros (? & ? & ? & _)]].
  unfold validate_job_transition. fold (target_of success). rewrite raise_if_bind. case_bool_decide as Ht.
  - split; [done|]. intros (y & r & [= <-] & Hq & _). rewrite Hq in Ht. destruct Ht. destruct success; set_solver.
  - assert (job_status job = RUNNING) as Hrun.
    { destruct success, (job_status job); cbn in Ht; set_solver. }
    unfold update_job. rewrite bind_assoc. erewrite bind_step by (unfold modify; reflexivity). rewrite ret_bind.
    rewrite bind_Ok. split.
    + intros (r & d1 & [-> Hr]%look_up & H). apply bind_Ok in H as ([] & d2 & Hc & H). injection H as <- <-.
      by exists job, r.
    + intros (y & r & [= <-] & _ & -> & Hr & Hc). exists r. eexists. split; [by apply look_up|].
      apply bind_Ok. by exists tt, d'.
Qed.

(** *** Versions created *)
Lemma evolves_more d d' v : versions d' = insert_row v (versions d) → (∀ j, j ∈ jobs d → ∃ j', j' ∈ jobs d' ∧ job_id j' = job_id j) →
  Router.step (fleet d) (fleet d') → evolves d d'.
Proof. intros Hv Hj Hf. split; [|done..]. intros y Hy. exists y. split; [|done]. rewrite Hv. apply elem_of_app. by left. Qed.
Lemma created_step v v' d d' : version_number v = get_next_version_number (version_router v) d → settled_version v →
  create_version v d = (Ok v', d') → step d d'.
Proof.
  intros Hn Hset (Hid & _ & -> & ->)%create_version_Ok Hd. split.
  - split; cbn; [by apply keyed_insert; [apply Hd|]|apply Hd| | |apply Hd].
    + apply numbers_insert; [|apply Hd]. rewrite Hn. by apply next_number.
    + apply Forall_app. split; [apply Hd|by apply Forall_singleton].
  - eapply evolves_more; [done| |reflexivity]. intros j Hj. by exists j.
Qed.
Lemma numbered_step {A} k (mk : Z → ConfigVersion) (f : ConfigVersion → op A) :
  (∀ n, version_router (mk n) = k ∧ version_number (mk n) = n ∧ settled_version (mk n)) → (∀ v, keeps step (f v)) →
  keeps step (n ← gets (get_next_version_number k); v ← create_version (mk n); f v).
Proof.
  intros Hmk Hf d a d' H. erewrite bind_step in H by (unfold gets; reflexivity).
  destruct (Hmk (get_next_version_number k d)) as (Hk & Hn & Hs).
  apply bind_Ok in H as (v & d1 & Hc & H). etrans; [|by eapply Hf]. eapply created_step; [|done..]. by rewrite Hn, Hk.
Qed.
Lemma assign_profile_step p v k t q : keeps step (assign_profile p v k t q).
Proof.
  unfold assign_profile, validate_router_can_receive_config, _enforce_template_scope.
  keep; try (by apply keeps_reads; [typeclasses eauto|intros ?]).
  all: refine (numbered_step _ (λ n, mk_version v _ _ n _ DRAFT None None false) _ _ _); [intros n; by split_and!|intros; keep].
Qed.
Lemma numbered_only_step k (mk : Z → ConfigVersion) :
  (∀ n, version_router (mk n) = k ∧ version_number (mk n) = n ∧ settled_version (mk n)) →
  keeps step (n ← gets (get_next_version_number k); create_version (mk n)).
Proof.
  intros Hmk d a d' H. erewrite bind_step in H by (unfold gets; reflexivity).
  destruct (Hmk (get_next_version_number k d)) as (Hk & Hn & Hs). eapply created_step; [|done..]. by rewrite Hn, Hk.
Qed.
Lemma draft_step v k content q : keeps step (create_version_from_content v k content q).
Proof.
  unfold create_version_from_content, validate_router_can_receive_config. keep.
  refine (numbered_only_step _ (λ n, mk_version v _ None n _ DRAFT None None false) _). intros n. by split_and!.
Qed.
Lemma pre_apply_backup_step now v k content q : keeps step (create_pre_apply_backup_from_content now v k content q).
Proof.
  unfold create_pre_apply_backup_from_content, validate_router_can_receive_config. keep.
  refine (numbered_only_step _ (λ n, mk_version v _ None n _ APPLIED _ None true) _). intros n. by split_and!.
Qed.

(** *** Rows rewritten *)
Lemma written_step s f k d : (∀ v, f v = with_status s (applied_at (f v)) v) →
  (∀ v, v ∈ versions d → version_id v = k → rtc moves (version_status v) s) → s ≠ PENDING_APPLY →
  step d (set_versions (set_row f k) d).
Proof.
  intros Hf Hm Hs Hd.
  assert (∀ v, version_id (f v) = version_id v) as Hfid by (intros v; by rewrite Hf).
  split.
  - split; cbn [versions jobs set_versions]; [by apply keyed_set_row, Hd|apply Hd| | |apply Hd].
    + intros k'. edestruct (numbers_update (has_id k) f (versions d) k') as [E1 E2]; [|unfold set_row; rewrite E1, E2; apply Hd].
      intros v. by rewrite Hf.
    + apply Forall_update; [apply Hd|]. intros v _ _. unfold settled_version. by rewrite Hf.
  - split; [|intros j Hj; by exists j|reflexivity]. intros v Hv. exists (if has_id k v then f v else v). split.
    + apply elem_of_update. by exists v.
    + destruct (has_id k v) eqn:E; [|done]. apply bool_decide_eq_true in E. rewrite Hf. split; try done. by apply Hm.
Qed.
Lemma latest_applied_Some k e d v : get_latest_applied_version k e d = Some v →
  v ∈ versions d ∧ version_router v = k ∧ is_backup v = false ∧ version_status v = APPLIED.
Proof.
  intros [Hv _]%least_Some. apply elem_of_select in Hv as [Hv Hc]. unfold current, of_router in Hc. bools. done.
Qed.
Lemma rolled_back_step d p : consistent d → p ∈ versions d → version_status p = APPLIED →
  step d (set_versions (set_row (λ p, with_status ROLLED_BACK (applied_at p) p) (version_id p)) d).
Proof.
  intros Hd Hp Hs. apply (written_step ROLLED_BACK); [done| |done].
  intros y Hy Hid. assert (y = p) as -> by (by apply (NoDup_map_eq row_id (versions d)); [apply Hd|..]).
  rewrite Hs. apply rtc_once. left.
Qed.
Lemma job_inserted_step job d : by_id (job_id job) (jobs d) = None → settled_job job → step d (set_jobs (insert_row job) d).
Proof.
  intros Hn Hj Hd. split.
  - split; cbn; [apply Hd|by apply keyed_insert; [apply Hd|]|apply Hd|apply Hd|].
    apply Forall_app. split; [apply Hd|by apply Forall_singleton].
  - split; [intros v Hv; by exists v| |reflexivity]. intros j Hj'. exists j. split; [|done]. apply elem_of_app. by left.
Qed.

(** ** Jobs that are completed at once *)
Lemma immediate_Ok now x r t j names d job' d' :
  (job ← _enqueue_job r t j names; _complete_job_immediately now x job) d = (Ok job', d') ↔
  Router.vendor r ∈ PROVISIONING_VENDORS ∧ by_id j (jobs d) = None
  ∧ job' = mk_job j (Router.router_id r) t SUCCEEDED names 1
  ∧ ∃ r', Router.get_router (Router.router_id r) None true (fleet d) = (Ok r', fleet d)
  ∧ _complete_job_success now x r' t job' (set_jobs (insert_row job') d) = (Ok tt, d').
Proof.
  set (queued := mk_job j (Router.router_id r) t QUEUED names 0).
  assert (∀ f g : ProvisioningJob → ProvisioningJob, by_id j (jobs d) = None → job_id (f queued) = j →
    set_jobs (set_row g j) (set_jobs (set_row f j) (set_jobs (insert_row queued) d)) = set_jobs (insert_row (g (f queued))) d) as Hjobs.
  { intros f g Hn Hf. unfold set_jobs. cbn [fleet templates variables profiles versions jobs enrollments snapshots]. f_equal.
    by rewrite !set_row_insert. }
  split.
  - intros (job & d1 & (Hv & Hn & -> & ->)%enqueue_Ok & H)%bind_Ok. split; [done|]. split; [done|].
    apply bind_Ok in H as (s & d2 & (y & Hy & _ & -> & ->)%start_Ok & H). change (by_id j (insert_row queued (jobs d)) = Some y) in Hy.
    rewrite by_id_insert, Hn, decide_True in Hy by done. injection Hy as <-.
    apply complete_Ok in H as (y & r' & Hy & _ & -> & Hr & Hc).
    change (by_id j (set_row (λ x, with_job RUNNING (attempts x + 1) x) j (insert_row queued (jobs d))) = Some y) in Hy.
    rewrite set_row_insert, by_id_insert, Hn, decide_True in Hy by done. injection Hy as <-.
    split; [done|]. exists r'. split; [exact Hr|]. cbn in Hc. by rewrite (Hjobs _ _ Hn) in Hc.
  - intros (Hv & Hn & -> & r' & Hr & Hc). apply bind_Ok. exists queued. eexists. split; [by apply enqueue_Ok|].
    apply bind_Ok. eexists. eexists. split.
    { apply start_Ok. exists queued. split_and!; [|done..].
      change (by_id j (insert_row queued (jobs d)) = Some queued). by rewrite by_id_insert, Hn, decide_True. }
    apply complete_Ok. exists (with_job RUNNING 1 queued), r'. split_and!; [|done..|].
    { change (by_id j (set_row (λ x, with_job RUNNING (attempts x + 1) x) j (insert_row queued (jobs d))) = Some (with_job RUNNING 1 queued)).
      by rewrite set_row_insert, by_id_insert, Hn, decide_True. }
    cbn. by rewrite (Hjobs _ _ Hn).
Qed.

Lemma elem_of_by_id {R} `{HasId R} k (t : list R) x : by_id k t = Some x → x ∈ t.
Proof. by intros [? _]%by_id_Some. Qed.
Lemma success_step now x r t job d d' : t ∉ [INITIAL_CONFIG; CONFIG_PUSH] →
  _complete_job_success now x r t job d = (Ok tt, d') → step d d'.
Proof.
  intros Ht H. destruct t; try (by destruct Ht; set_solver); cbn [_complete_job_success] in H.
  - revert H. apply keeps_run. apply keeps_bind; [typeclasses eauto|by unfold named; keep|intros i].
    keep. refine (numbered_step _ (λ n, mk_version x _ _ n _ APPLIED _ None true) _ _ _); [intros n; by split_and!|intros; keep].
  - intros Hd. revert H. unfold named. rewrite of_option_bind. destruct (payload job) as [i|]; [|done].
    erewrite bind_step by (unfold gets; reflexivity). rewrite of_option_bind. destruct (by_id _ _) as [b|]; [|done].
    erewrite bind_step by (unfold gets; reflexivity). erewrite bind_step by (unfold gets; reflexivity).
    intros (v & d1 & Hc & H)%bind_Ok.
    assert (consistent d1 ∧ evolves d d1) as [Hd1 He1] by (eapply created_step; [| |exact Hc|]; done).
    destruct (get_latest_applied_version _ _ d) as [p|] eqn:Ep; [|by injection H as <-].
    apply latest_applied_Some in Ep as (Hp & _ & _ & Hs). erewrite bind_step in H by (unfold update_version, mbind, M_bind, modify, mret, M_ret; reflexivity).
    injection H as <-. apply create_version_Ok in Hc as (_ & _ & _ & ->).
    destruct (rolled_back_step _ p Hd1 ltac:(apply elem_of_app; by left) Hs Hd1) as [Hd2 He2].
    split; [done|by etrans].
  - revert H. apply keeps_run. apply keeps_bind; [typeclasses eauto| |intros; keep].
    intros d1 a d2 H1. apply quiet_step. revert H1. apply keeps_fleet. intros f y f'. by apply Router.set_status_step.
Qed.
Lemma immediate_step now x r t j names : t ∉ [INITIAL_CONFIG; CONFIG_PUSH] →
  keeps step (job ← _enqueue_job r t j names; _complete_job_immediately now x job).
Proof.
  intros Ht d job d' (_ & Hn & -> & r' & _ & Hc)%immediate_Ok. etrans; [|by eapply success_step].
  apply job_inserted_step; [done|]. split; [cbn; left|done].
Qed.
Lemma create_backup_step now j x k q : keeps step (create_backup now j x k q).
Proof. unfold create_backup. keep. apply immediate_step. set_solver. Qed.
Lemma restore_backup_step now j x k b q : keeps step (restore_backup now j x k b q).
Proof.
  unfold restore_backup, validate_router_can_receive_config, validate_version_belongs_to_router. keep.
  apply immediate_step. set_solver.
Qed.
Lemma factory_reset_step now j x k q : keeps step (factory_reset now j x k q).
Proof.
  unfold factory_reset, validate_router_eligible_for_factory_reset. keep. apply immediate_step. set_solver.
Qed.
(** Nothing is queued or running between requests. *)
Lemma start_refused j d job d' : consistent d → start_provisioning_job j d = (Ok job, d') → False.
Proof.
  intros Hd (y & Hy%elem_of_by_id & Hq & _)%start_Ok.
  pose proof (proj1 (Forall_forall _ _) (cons_jobs_settled d Hd) y Hy) as [Hs _]. rewrite Hq in Hs. set_solver.
Qed.
Lemma complete_refused now x j success d job d' : consistent d → complete_provisioning_job now x j success d = (Ok job, d') → False.
Proof.
  intros Hd (y & r & Hy%elem_of_by_id & Hq & _)%complete_Ok.
  pose proof (proj1 (Forall_forall _ _) (cons_jobs_settled d Hd) y Hy) as [Hs _]. rewrite Hq in Hs. set_solver.
Qed.
End operations.
(** ** What applying a version comes to *)
Section applying.
Context {PU : PyUnicode} {CR : Auth.Crypto} {P6 : Ip.PyIpv6} {dev : Type}.
Variable push_config : DeviceCredentials → pystr → dev → push_result * dev.
(** The version [y] of the router [r] may be applied under the new job [j]. *)
Record admissible (k v j : uuid) (q : option uuid) (d : database) (r : Router.Router) (y : ConfigVersion) : Prop := {
  adm_router : Router.get_router k q false (fleet d) = (Ok r, fleet d);
  adm_state : Router.state r ∉ ineligible;
  adm_version : by_id v (versions d) = Some y;
  adm_belongs : version_router y = Router.router_id r;
  adm_status : version_status y ∈ [DRAFT; FAILED];
  adm_vendor : Router.vendor r ∈ PROVISIONING_VENDORS;
  adm_job : by_id j (jobs d) = None;
}.
Definition rolled : ConfigVersion → ConfigVersion := λ p, with_status ROLLED_BACK (applied_at p) p.
Definition applied_row (now : datetime) (a : push_result) (y : ConfigVersion) : ConfigVersion :=
  if pushed a then with_status APPLIED (Some now) y else with_status FAILED (applied_at y) y.
Definition applied_job (j : uuid) (a : push_result) (prior : option ConfigVersion) (y : ConfigVersion) : ProvisioningJob :=
  mk_job j (version_router y) (match prior with Some _ => CONFIG_PUSH | None => INITIAL_CONFIG end)
    (target_of (pushed a)) (Some (version_id y)) 1.
Definition applied_versions (now : datetime) (a : push_result) (prior : option ConfigVersion) (y : ConfigVersion)
    (vs : list ConfigVersion) : list ConfigVersion :=
  let vs := set_row (applied_row now a) (version_id y) vs in
  match a, rollback_of_version_id y, prior with
  | Pushed, Some _, Some p => set_row rolled (version_id p) vs
  | _, _, _ => vs
  end.
(** Writing a row that is no candidate before or after. *)
Lemma latest_frame k e e' y f d : keyed (versions d) → y ∈ versions d →
  current k e (f y) = false → current k e' y = false →
  (∀ v, version_id v ≠ version_id y → current k e v = current k e' v) →
  get_latest_applied_version k e (set_versions (set_row f (version_id y)) d) = get_latest_applied_version k e' d.
Proof.
  intros Hk Hin Hf Hy He. unfold get_latest_applied_version. f_equal. cbn [versions set_versions].
  unfold set_row, update, select.
  assert (∀ vs, (∀ v, v ∈ vs → v ∈ versions d) →
    List.filter (current k e) (map (λ r, if has_id (version_id y) r then f r else r) vs)
    = List.filter (current k e') vs) as H; [|by apply H].
  induction vs as [|v vs IH]; intros Hvs; [done|]. cbn [map List.filter].
  rewrite IH by (intros u Hu; apply Hvs; by right). unfold has_id, row_id, version_has_id.
  destruct (decide (version_id v = version_id y)) as [E|E].
  - rewrite bool_decide_true by done.
    assert (v = y) as -> by (by apply (NoDup_map_eq row_id (versions d)); [|apply Hvs; left|..]).
    by rewrite Hf, Hy.
  - rewrite bool_decide_false by done. by rewrite (He v E).
Qed.
Lemma not_current k e y : version_status y ≠ APPLIED → current k e y = false.
Proof. intros Hs. unfold current. rewrite (bool_decide_false (version_status y = APPLIED)) by done. by rewrite andb_false_r. Qed.
Definition pending : ConfigVersion → ConfigVersion := λ y, with_status PENDING_APPLY (applied_at y) y.
Lemma completion_applies now x a r (job : ProvisioningJob) J y d : keyed (versions d) →
  by_id (version_id y) (versions d) = Some y → version_status y ∈ [DRAFT; FAILED] →
  job_type job ∈ [INITIAL_CONFIG; CONFIG_PUSH] → payload job = Some (version_id y) →
  completion now x (pushed a) r job (set_jobs J (set_versions (set_row pending (version_id y)) d))
  = (Ok tt, set_jobs J (set_versions (applied_versions now a (get_latest_applied_version (Router.router_id r) None d) y) d)).
Proof.
  intros Hk Hy Hs Ht Hp. set (d1 := set_jobs J _).
  assert (by_id (version_id y) (versions d1) = Some (pending y)) as Hy1.
  { cbn [d1 versions set_jobs set_versions]. by rewrite by_id_set_row, decide_True, Hy. }
  assert (get_latest_applied_version (Router.router_id r) (Some (version_id y)) d1
          = get_latest_applied_version (Router.router_id r) None d) as Hprev.
  { change (get_latest_applied_version (Router.router_id r) (Some (version_id y)) (set_versions (set_row pending (version_id y)) d)
            = get_latest_applied_version (Router.router_id r) None d).
    apply latest_frame; [done|by eapply elem_of_by_id|by apply not_current| |].
    - apply not_current. intros E. rewrite E in Hs. set_solver.
    - intros v Hv. unfold current. f_equal. rewrite !bool_decide_true; [done..|]. by intros [=]. }
  destruct a; cbn [pushed completion].
  - assert (_complete_job_success now x r (job_type job) job = _complete_job_success now x r CONFIG_PUSH job) as ->.
    { destruct (job_type job); try done; set_solver. }
    cbn [_complete_job_success]. unfold named. rewrite Hp, of_option_bind.
    erewrite bind_step by (unfold gets; reflexivity). rewrite Hy1, of_option_bind.
    unfold validate_config_version_transition. rewrite raise_if_bind, bool_decide_false by (cbn; set_solver).
    erewrite bind_step by (unfold gets; reflexivity). cbn [version_id pending with_status].
    rewrite Hprev. unfold update_version. rewrite bind_assoc. erewrite bind_step by (unfold modify; reflexivity). rewrite ret_bind.
    cbn [version_id rollback_of_version_id pending with_status]. unfold applied_versions.
    assert (∀ f, set_versions (set_row (with_status APPLIED (Some now)) (version_id y)) d1
                 = set_jobs J (set_versions (set_row (applied_row now Pushed) (version_id y)) d)
                 ∧ set_versions f (set_versions (set_row (with_status APPLIED (Some now)) (version_id y)) d1)
                 = set_jobs J (set_versions (λ vs, f (set_row (applied_row now Pushed) (version_id y) vs)) d)) as Hd.
    { intros f. unfold d1, set_versions, set_jobs.
      cbn [fleet templates variables profiles versions jobs enrollments snapshots]. by rewrite set_row_set_row. }
    destruct (rollback_of_version_id y) as [o|]; [|by rewrite (proj1 (Hd id))].
    destruct (get_latest_applied_version _ None d) as [p|] eqn:Ep; [|by rewrite (proj1 (Hd id))].
    apply latest_applied_Some in Ep as (_ & _ & _ & Hps).
    rewrite raise_if_bind, Hps, bool_decide_false by (cbn; set_solver). rewrite bind_assoc.
    erewrite bind_step by (unfold modify; reflexivity). rewrite ret_bind. unfold mret, M_ret. f_equal. apply Hd.
  - assert (_complete_job_failure (job_type job) job = _complete_job_failure CONFIG_PUSH job) as ->.
    { destruct (job_type job); try done; set_solver. }
    cbn [_complete_job_failure]. unfold named. rewrite Hp, of_option_bind.
    erewrite bind_step by (unfold gets; reflexivity). rewrite Hy1.
    unfold validate_config_version_transition. rewrite raise_if_bind, bool_decide_false by (cbn; set_solver).
    unfold update_version. rewrite bind_assoc. erewrite bind_step by (unfold modify; reflexivity). rewrite ret_bind.
    unfold mret, M_ret. f_equal. unfold d1, applied_versions, set_versions, set_jobs.
    cbn [fleet templates variables profiles versions jobs enrollments snapshots]. by rewrite set_row_set_row.
Qed.
Abbreviation apply := (apply_version push_config).
Abbreviation device := (world database dev).
Definition after_apply (now : datetime) (j : uuid) (a : push_result) (k : uuid) (y : ConfigVersion) (d : database) : database :=
  let prior := get_latest_applied_version k None d in
  set_jobs (insert_row (applied_job j a prior y)) (set_versions (applied_versions now a prior y) d).
Lemma run_job now x j a r y d : keyed (versions d) →
  Router.get_router (version_router y) None true (fleet d) = (Ok r, fleet d) →
  by_id j (jobs d) = None → by_id (version_id y) (versions d) = Some y → version_status y ∈ [DRAFT; FAILED] →
  let prior := get_latest_applied_version (Router.router_id r) None d in
  let queued := mk_job j (version_router y) (match prior with Some _ => CONFIG_PUSH | None => INITIAL_CONFIG end)
                  QUEUED (Some (version_id y)) 0 in
  ∃ d1, start_provisioning_job j (set_versions (set_row pending (version_id y)) (set_jobs (insert_row queued) d))
        = (Ok (with_job RUNNING 1 queued), d1)
  ∧ complete_provisioning_job now x j (pushed a) d1
    = (Ok (applied_job j a prior y), after_apply now j a (Router.router_id r) y d).
Proof.
  intros Hk Hr Hj Hy Hs prior queued. eexists. split.
  { apply start_Ok. exists queued. split_and!; [|done..].
    change (by_id j (insert_row queued (jobs d)) = Some queued). by rewrite by_id_insert, Hj, decide_True. }
  apply complete_Ok. exists (with_job RUNNING 1 queued), r. split_and!; [|done..|].
  { change (by_id j (set_row (λ x, with_job RUNNING (attempts x + 1) x) j (insert_row queued (jobs d))) = Some (with_job RUNNING 1 queued)).
    by rewrite set_row_insert, by_id_insert, Hj, decide_True. }
  assert (∀ f g, job_id (f queued) = j →
    set_jobs (set_row g j) (set_jobs (set_row f j) (set_versions (set_row pending (version_id y)) (set_jobs (insert_row queued) d)))
    = set_jobs (insert_row (g (f queued))) (set_versions (set_row pending (version_id y)) d)) as Hjobs.
  { intros f g Hf. unfold set_jobs, set_versions. cbn [fleet templates variables profiles versions jobs enrollments snapshots]. f_equal.
    by rewrite !set_row_insert. }
  change (job_id (with_job RUNNING 1 queued)) with j. rewrite Hjobs by done.
  change (with_job (target_of (pushed a)) (attempts (with_job RUNNING 1 queued)) (with_job RUNNING 1 queued)) with (applied_job j a prior y).
  apply (completion_applies now x a r); [done..| |done]. cbn. destruct prior; set_solver.
Qed.
Lemma looked_up_again k q r f : Router.get_router k q false f = (Ok r, f) →
  Router.router_id r = k ∧ Router.get_router k None true f = (Ok r, f).
Proof.
  intros (_ & Hr & Hk & Hg & Hdel)%Router.get_router_Ok. split; [done|]. unfold Router.get_router.
  erewrite bind_step by (unfold gets; reflexivity). rewrite of_option_bind. unfold Router.get_by_id in *.
  destruct (by_id k (Router.routers f)) as [z|]; [|done]. destruct (Router.router_deleted z && negb false); [done|].
  injection Hg as ->. by rewrite andb_false_r.
Qed.
Lemma by_id_applied now a prior y d : keyed (versions d) → by_id (version_id y) (versions d) = Some y →
  version_status y ≠ APPLIED → (∀ p, prior = Some p → p ∈ versions d ∧ version_status p = APPLIED) →
  by_id (version_id y) (applied_versions now a prior y (versions d)) = Some (applied_row now a y).
Proof.
  intros Hk Hy Hs Hp. unfold applied_versions.
  assert (∀ v, row_id (applied_row now a v) = row_id v) as Hid by (intros v; by destruct a).
  assert (by_id (version_id y) (set_row (applied_row now a) (version_id y) (versions d)) = Some (applied_row now a y)) as H.
  { by rewrite by_id_set_row, decide_True, Hy. }
  destruct a; [|done]. destruct (rollback_of_version_id y) as [o|]; [|done]. destruct prior as [p|]; [|done].
  rewrite by_id_set_row by done. rewrite decide_False; [done|]. intros E. destruct (Hp p eq_refl) as [Hin Hps].
  assert (p = y) as -> by (apply (NoDup_map_eq row_id (versions d)); [done..|by eapply elem_of_by_id|done]). done.
Qed.
Lemma apply_run now j x k v q (w : device) r y : consistent (db w) → admissible k v j q (db w) r y →
  apply now j x k v q w =
  let '(a, x') := answer push_config r (rendered_content y) (ext w) in
  (Ok (applied_row now a y, applied_job j a (get_latest_applied_version (version_router y) None (db w)) y),
   World (after_apply now j a (version_router y) y (db w)) x').
Proof.
  intros Hd [Hr Hst Hv Hb Hs Hven Hj]. destruct (looked_up_again _ _ _ _ Hr) as [Hk Hr'].
  pose proof (by_id_Some _ _ _ Hv) as [Hin <-]. change (row_id y) with (version_id y) in *.
  unfold apply_version. rewrite (on_db_step _ _ _ _ _ (proj2 (look_up _ _ _ _ _ _) (conj eq_refl Hr))).
  destruct w as [d z]. cbn [db ext] in *.
  unfold validate_router_can_receive_config, validate_version_belongs_to_router, validate_config_version_transition.
  rewrite on_db_guard, bool_decide_false, on_db_gets by done. cbn [db]. rewrite Hv, of_option_bind.
  rewrite on_db_guard, bool_decide_false by (by intros H).
  rewrite on_db_guard, bool_decide_false.
  2:{ intros Hn. apply Hn. apply elem_of_cons in Hs as [->|Hs%list_elem_of_singleton]; [left|rewrite Hs; left]. }
  rewrite on_db_gets. cbn [db]. rewrite <-Hb. set (prior := get_latest_applied_version _ _ _).
  set (queued := mk_job j (version_router y) (match prior with Some _ => CONFIG_PUSH | None => INITIAL_CONFIG end)
                  QUEUED (Some (version_id y)) 0).
  rewrite (on_db_step _ _ _ queued (set_jobs (insert_row queued) d)) by (apply enqueue_Ok; by rewrite <-Hb).
  erewrite (on_db_step (update_version _ _)) by reflexivity. cbn [db ext].
  unfold _push_version_and_complete. rewrite bind_assoc.
  assert (Router.get_router (version_router y) None true (fleet d) = (Ok r, fleet d)) as Hr2 by (by rewrite Hb, Hk).
  destruct (answer push_config r (rendered_content y) z) as [a z'] eqn:Ea.
  destruct (run_job now x j a r y d) as (d1 & Hstart & Hend); [apply Hd|done..|].
  rewrite <-Hb in Hstart, Hend. fold prior queued in Hstart, Hend.
  erewrite on_db_step by exact Hstart. cbn [db ext]. rewrite bind_assoc.
  assert (on_ext (D:=database) (attempt push_config r (rendered_content y)) (World d1 z) = (Ok a, World d1 z')) as Hpush.
  { unfold on_ext, zoom, attempt. cbn [ext db]. by rewrite Ea. }
  erewrite bind_step by exact Hpush. erewrite on_db_step by exact Hend. rewrite on_db_gets. cbn [db ext].
  unfold mret, M_ret. do 3 f_equal.
  unfold after_apply. cbn [versions set_jobs set_versions version_id with_status].
  rewrite by_id_applied; [done|apply Hd|done|intros E; rewrite E in Hs; set_solver|].
  intros p Hp. by apply latest_applied_Some in Hp as (? & _ & _ & ?).
Qed.
Lemma apply_cases now j x k v q (w : device) :
  (∃ r y, admissible k v j q (db w) r y) ∨ ∃ e, apply now j x k v q w = (Raise e, w).
Proof.
  destruct w as [d z]. cbn [db] in *. unfold apply_version.
  pose proof (router_reads k q false d) as Hreads.
  destruct (on_fleet (Router.get_router k q false) d) as [[r|e] d1] eqn:Hr; cbn in Hreads; subst d1.
  2:{ right. exists e. by apply on_db_stop. }
  erewrite on_db_step by exact Hr. apply look_up in Hr as [_ Hr]. cbn [db ext].
  unfold validate_router_can_receive_config, validate_version_belongs_to_router, validate_config_version_transition.
  rewrite on_db_guard. case_bool_decide as Hst; [right; by eexists|]. rewrite on_db_gets. cbn [db].
  destruct (by_id v (versions d)) as [y|] eqn:Hv; [|right; by eexists]. rewrite of_option_bind.
  rewrite on_db_guard. case_bool_decide as Hb; [right; by eexists|].
  rewrite on_db_guard. case_bool_decide as Hs; [right; by eexists|]. rewrite on_db_gets. cbn [db].
  match goal with |- context [_enqueue_job r ?t j ?n] => destruct (_enqueue_job r t j n d) as [[job|e] d1] eqn:He end.
  - left. exists r, y. apply enqueue_Ok in He as (Hven & Hj & _ & _). split; try done.
    destruct (version_status y); cbn in Hs; set_solver.
  - right. exists e. erewrite on_db_stop by exact He. f_equal. cbn [ext]. f_equal.
    unfold _enqueue_job, create_job in He. rewrite raise_if_bind in He. case_bool_decide; [by injection He as _ <-|].
    erewrite bind_step in He by (unfold gets; reflexivity). rewrite raise_if_bind in He. case_bool_decide; [by injection He as _ <-|done].
Qed.
Lemma settles_rtc (a : push_result) s : s ∈ [DRAFT; FAILED] → rtc moves s (if pushed a then APPLIED else FAILED).
Proof.
  intros Hs. apply rtc_l with PENDING_APPLY.
  - apply elem_of_cons in Hs as [->|Hs%list_elem_of_singleton]; [left|rewrite Hs; left].
  - apply rtc_once. unfold moves. destruct a; cbn; [left|right; left].
Qed.
Lemma after_apply_step now j a k y d : by_id j (jobs d) = None → by_id (version_id y) (versions d) = Some y →
  version_status y ∈ [DRAFT; FAILED] → step d (after_apply now j a k y d).
Proof.
  intros Hj Hy Hs. set (f := applied_row now a). set (prior := get_latest_applied_version k None d).
  assert (step d (set_versions (set_row f (version_id y)) d)) as Hwrite.
  { intros Hd. revert Hd. intros Hd. apply (written_step (if pushed a then APPLIED else FAILED)); [by intros v; destruct a| |by destruct a|done].
    intros v Hv Hid. assert (v = y) as -> by (apply (NoDup_map_eq row_id (versions d)); [apply Hd|done|by eapply elem_of_by_id|done]).
    by apply settles_rtc. }
  unfold after_apply. fold prior. etrans; [|apply job_inserted_step; [done|split; [by destruct a; cbn; set_solver|done]]].
  unfold applied_versions. fold f. destruct a; [|done]. destruct (rollback_of_version_id y) as [o|]; [|done].
  destruct prior as [p|] eqn:Ep; [|done]. intros Hd. destruct (Hwrite Hd) as [Hd1 He1].
  apply latest_applied_Some in Ep as (Hp & _ & _ & Hps).
  assert (version_id p ≠ version_id y) as Hne.
  { intros E. assert (p = y) as -> by (apply (NoDup_map_eq row_id (versions d)); [apply Hd|done|by eapply elem_of_by_id|done]).
    rewrite Hps in Hs. set_solver. }
  assert (p ∈ versions (set_versions (set_row f (version_id y)) d)) as Hp1.
  { apply elem_of_update. exists p. split; [done|]. unfold has_id. by rewrite bool_decide_false. }
  destruct (rolled_back_step _ p Hd1 Hp1 Hps Hd1) as [Hd2 He2]. split; [done|by etrans].
Qed.
Lemma apply_step now j x k v q (w : device) a w' : apply now j x k v q w = (Ok a, w') → step (db w) (db w').
Proof.
  intros H Hd. destruct (apply_cases now j x k v q w) as [(r & y & Hadm)|[e He]]; [|by rewrite He in H].
  rewrite (apply_run now j x k v q w r y Hd Hadm) in H. destruct (answer _ _ _ _) as [b z]. injection H as <- <-.
  pose proof (by_id_Some _ _ _ (adm_version _ _ _ _ _ _ _ Hadm)) as [_ <-]. destruct Hadm.
  by apply after_apply_step.
Qed.

(** *** Rolling back *)
Lemma latest_is k d y : consistent d → y ∈ versions d → current k None y = true →
  version_number y = get_next_version_number k d - 1 → get_latest_applied_version k None d = Some y.
Proof.
  intros Hd Hy Hc Hn. assert (version_router y = k) as Hk.
  { unfold current, of_router in Hc. bools. done. }
  assert (y ∈ select (current k None) (versions d)) as Hsel by (by apply elem_of_select).
  destruct (get_latest_applied_version k None d) as [z|] eqn:E.
  - unfold get_latest_applied_version in E. pose proof (latest_applied_Some _ _ _ _ E) as (Hz & Hzk & _).
    apply least_Some in E as [_ Hmin]. specialize (Hmin y Hsel). pose proof (number_bound d z Hd Hz) as Hb. rewrite Hzk in Hb.
    f_equal. apply (number_determines d); [done..|congruence|lia].
  - apply least_None in E. rewrite E in Hsel. by apply not_elem_of_nil in Hsel.
Qed.
Lemma length_applied k now a prior y vs :
  length (select (of_router k) (applied_versions now a prior y vs)) = length (select (of_router k) vs).
Proof.
  assert (length (select (of_router k) (set_row (applied_row now a) (version_id y) vs)) = length (select (of_router k) vs)) as H.
  { apply numbers_update. intros v. by destruct a. }
  unfold applied_versions. destruct a; [|done]. destruct (rollback_of_version_id y) as [o|]; [|done].
  destruct prior as [p|]; [|done]. rewrite <-H. by apply numbers_update.
Qed.
Lemma latest_draft k d y : version_status y ≠ APPLIED →
  get_latest_applied_version k None (set_versions (insert_row y) d) = get_latest_applied_version k None d.
Proof.
  intros Hs. unfold get_latest_applied_version. f_equal. cbn [versions set_versions]. unfold insert_row. rewrite select_app.
  unfold select at 2. cbn [List.filter]. rewrite not_current by done. by rewrite app_nil_r.
Qed.
(** The router [r] may go back to its version [t]; [v] and [j] are new. *)
Record restorable (k v j t : uuid) (q : option uuid) (d : database) (r : Router.Router) (target : ConfigVersion) : Prop := {
  res_router : Router.get_router k q false (fleet d) = (Ok r, fleet d);
  res_state : Router.state r ∉ ineligible;
  res_target : by_id t (versions d) = Some target;
  res_belongs : version_router target = k;
  res_vendor : Router.vendor r ∈ PROVISIONING_VENDORS;
  res_version : by_id v (versions d) = None;
  res_job : by_id j (jobs d) = None;
}.
Definition rollback_draft (k v : uuid) (target : ConfigVersion) (d : database) : ConfigVersion :=
  mk_version v k (version_profile target) (get_next_version_number k d) (rendered_content target) DRAFT None
    (Some (version_id target)) false.
Lemma rollback_run now v j x k t q (w : device) r target : consistent (db w) → restorable k v j t q (db w) r target →
  let draft := rollback_draft k v target (db w) in
  let d1 := set_versions (insert_row draft) (db w) in
  step (db w) d1 ∧ consistent d1 ∧ by_id v (versions d1) = Some draft ∧
  rollback_to_version push_config now v j x k t q w =
  let '(a, x') := answer push_config r (rendered_content target) (ext w) in
  (Ok (applied_row now a draft), World (after_apply now j a k draft d1) x').
Proof.
  intros Hd [Hr Hst Ht Hb Hven Hv Hj] draft d1. destruct (looked_up_again _ _ _ _ Hr) as [Hk Hr'].
  destruct w as [d z]. cbn [db ext] in *.
  assert (create_version draft d = (Ok draft, d1)) as Hc.
  { apply create_version_Ok. split_and!; [done| |done..]. by apply number_is_free. }
  assert (step d d1) as Hstep by (eapply created_step; [..|exact Hc]; done).
  destruct (Hstep Hd) as [Hd1 _].
  assert (by_id v (versions d1) = Some draft) as Hdraft.
  { cbn [versions set_versions d1]. by rewrite by_id_insert, Hv, decide_True. }
  split_and!; [done..|].
  unfold rollback_to_version. erewrite on_db_step by (apply look_up; split; [reflexivity|exact Hr]). cbn [db ext].
  unfold validate_router_can_receive_config, validate_version_belongs_to_router.
  rewrite on_db_guard, bool_decide_false, on_db_gets by done. cbn [db ext]. rewrite Ht, of_option_bind.
  rewrite on_db_guard, bool_decide_false by (rewrite Hk; by intros H). rewrite on_db_gets. cbn [db]. rewrite Hk.
  erewrite on_db_step by exact Hc. cbn [ext version_id draft rollback_draft].
  assert (admissible k v j q d1 r draft) as Hadm.
  { split; [exact Hr|done|exact Hdraft|by rewrite Hk|left|done|done]. }
  pose proof (apply_run now j x k v q (World d1 z) r draft Hd1 Hadm) as Hrun. cbn [db ext rendered_content draft rollback_draft] in Hrun.
  destruct (answer push_config r (rendered_content target) z) as [a z']. by erewrite bind_step by exact Hrun.
Qed.

(** ** Every request keeps the invariant *)
Definition steps {A} (m : M device error A) : Prop := ∀ w a w', m w = (Ok a, w') → step (db w) (db w').
Lemma steps_bind {A B} (m : M device error A) (f : A → M device error B) : steps m → (∀ a, steps (f a)) → steps (m ≫= f).
Proof. intros Hm Hf w b w' (a & w1 & H1 & H2)%bind_Ok. etrans; [by eapply Hm|by eapply Hf]. Qed.
Lemma steps_on_db {A} (m : op A) : keeps step m → steps (on_db m).
Proof. intros Hm w a w' (d & H & ->)%on_db_Ok. by eapply Hm. Qed.
Lemma steps_quiet {A} (m : op A) : keeps quiet m → steps (on_db (done_with m)).
Proof. intros Hm. apply steps_on_db, keeps_done_with; [typeclasses eauto|]. intros d a d' H. by eapply quiet_step, Hm. Qed.
Lemma steps_kept {A} (m : op A) : keeps step m → steps (on_db (done_with m)).
Proof. intros Hm. apply steps_on_db, keeps_done_with; [typeclasses eauto|done]. Qed.
Lemma steps_done_with {A} (m : M device error A) : steps m → steps (done_with m).
Proof. intros Hm. apply steps_bind; [done|]. intros a w b w' [= _ <-]. reflexivity. Qed.
Lemma steps_reads {A} (m : op A) : reads m → steps (on_db m).
Proof. intros Hm. apply steps_on_db, keeps_reads; [typeclasses eauto|done]. Qed.
Lemma rollback_step now v j x k t q : steps (rollback_to_version push_config now v j x k t q).
Proof.
  unfold rollback_to_version. apply steps_bind; [apply steps_reads, router_reads|intros r].
  apply steps_bind; [apply steps_reads; unfold validate_router_can_receive_config; auto with pres|intros _].
  apply steps_bind; [apply steps_reads, reads_gets|intros o].
  apply steps_bind; [intros w a w' H; destruct o; [injection H as _ <-; reflexivity|done]|intros target].
  apply steps_bind; [apply steps_reads; unfold validate_version_belongs_to_router; auto with pres|intros _].
  intros w a w' H. rewrite on_db_gets in H. apply bind_Ok in H as (draft & w1 & (d1 & Hc & ->)%on_db_Ok & H).
  apply bind_Ok in H as ([y job] & w2 & Ha & H). injection H as _ <-. apply apply_step in Ha.
  etrans; [|exact Ha]. by eapply created_step; [..|exact Hc].
Qed.
(** ** What a template is filled with *)
Definition last_row (key : pystr) (rows : list ConfigVariable) : option ConfigVariable :=
  last (List.filter (λ v, bool_decide (variable_key v = key)) rows).
Definition plain (v : ConfigVariable) : option pystr := match _plain_value v with Ok x => Some x | Raise _ => None end.
(** The value a router sees for a key: its own row, else its site's, else its
    organization's, else the platform's, else what the router is. *)
Definition most_specific (r : Router.Router) (d : database) (key : pystr) : option pystr :=
  match last_row key (list_router_variables (Router.router_id r) d) with Some v => plain v | None =>
  match last_row key (list_location_variables (Router.router_location r) d) with Some v => plain v | None =>
  match last_row key (list_organization_variables (Router.router_org r) d) with Some v => plain v | None =>
  match last_row key (list_global_variables d) with Some v => plain v | None => builtins r !! key
  end end end end.
Lemma last_row_app key l1 l2 : last_row key (l1 ++ l2) = match last_row key l2 with Some v => Some v | None => last_row key l1 end.
Proof. unfold last_row. rewrite List.filter_app. apply last_app. Qed.
Lemma overlay_lookup rows : ∀ e e' key, overlay rows e = Ok e' →
  e' !! key = match last_row key rows with Some v => plain v | None => e !! key end.
Proof.
  induction rows as [|v rows IH]; intros e e' key; cbn [overlay]; [by intros [= ->]|].
  destruct (_plain_value v) as [x|] eqn:Ex; [|done]. intros H. rewrite (IH _ _ key H).
  change (v :: rows) with ([v] ++ rows). rewrite last_row_app. destruct (last_row key rows); [done|].
  unfold last_row. cbn [List.filter]. destruct (decide (variable_key v = key)) as [E|E].
  - rewrite bool_decide_true by done. cbn. subst key. rewrite lookup_insert_eq. unfold plain. by rewrite Ex.
  - rewrite bool_decide_false by done. cbn. by rewrite lookup_insert_ne.
Qed.
Lemma resolved r d e key : overlay (layers r d) (builtins r) = Ok e → e !! key = most_specific r d key.
Proof.
  intros H. rewrite (overlay_lookup _ _ _ key H). unfold layers, most_specific. rewrite !last_row_app.
  by repeat (destruct (last_row key _)).
Qed.
Lemma rendered content e out : render_template content e = Ok out →
  (∀ name, Slot name ∈ pieces content → e !! name ≠ None) ∧ out = concat (map (fill e) (pieces content)).
Proof.
  unfold render_template. destruct (omap (unresolved e) (pieces content)) as [|x l] eqn:E; [|done]. intros [= <-]. split; [|done].
  intros name Hn He. assert (name ∈ omap (unresolved e) (pieces content)) as Hin; [|rewrite E in Hin; by apply not_elem_of_nil in Hin].
  apply list_elem_of_omap. exists (Slot name). split; [done|]. cbn. by rewrite bool_decide_true.
Qed.
(** Every failure to render names a placeholder that has no value. *)
Lemma not_rendered content e missing : render_template content e = Raise (UnresolvedTemplateVariablesError missing) →
  missing ≠ [] ∧ ∀ name, name ∈ missing → Slot name ∈ pieces content ∧ e !! name = None.
Proof.
  unfold render_template. destruct (omap (unresolved e) (pieces content)) as [|x l] eqn:E; [done|]. intros [= <-]. split; [done|].
  intros name Hn. rewrite <-E in Hn. apply list_elem_of_omap in Hn as (p & Hp & Hu). destruct p as [c|n]; [done|].
  cbn in Hu. case_bool_decide; [|done]. by injection Hu as <-.
Qed.

Record assignable (p v k t : uuid) (q : option uuid) (d : database) (r : Router.Router) (x : ConfigTemplate) : Prop := {
  asg_router : Router.get_router k q false (fleet d) = (Ok r, fleet d);
  asg_state : Router.state r ∉ ineligible;
  asg_template : template_by_id t d = Some x;
  asg_active : template_active x = true;
  asg_scope : template_org x = None ∨ template_org x = Some (Router.router_org r);
  asg_vendor : Router.vendor r ∈ PROVISIONING_VENDORS;
  asg_same : template_vendor x = Router.vendor r;
  asg_readable : ∀ y, y ∈ layers r d → plain y ≠ None;
  asg_filled : ∀ name, Slot name ∈ pieces (template_content x) → most_specific r d name ≠ None;
  asg_profile : get_profile_for_router k d = None → by_id p (profiles d) = None;
  asg_version : by_id v (versions d) = None;
}.
Lemma overlay_readable rows : ∀ e, (∃ e', overlay rows e = Ok e') ↔ ∀ y, y ∈ rows → plain y ≠ None.
Proof.
  induction rows as [|v rows IH]; intros e; cbn [overlay].
  - split; [by intros _ y Hy%not_elem_of_nil|by eexists].
  - unfold plain. destruct (_plain_value v) as [x|x] eqn:Ex.
    + rewrite (IH (<[variable_key v:=x]> e)). split.
      * intros H y [->|Hy]%elem_of_cons; [by rewrite Ex|by apply H].
      * intros H y Hy. apply H. by right.
    + split; [by intros [? ?]|]. intros H. specialize (H v ltac:(left)). by rewrite Ex in H.
Qed.
Lemma fully_rendered content e : (∀ name, Slot name ∈ pieces content → e !! name ≠ None) →
  render_template content e = Ok (concat (map (fill e) (pieces content))).
Proof.
  intros H. unfold render_template. destruct (omap (unresolved e) (pieces content)) as [|x l] eqn:E; [done|].
  assert (x ∈ omap (unresolved e) (pieces content)) as Hx by (rewrite E; left).
  apply list_elem_of_omap in Hx as (p & Hp & Hu). destruct p as [c|n]; [done|]. cbn in Hu. case_bool_decide as Hn; [|done].
  by destruct (H n).
Qed.
(** The front of [assign_profile], which only reads. *)
Definition chosen (k t : uuid) (q : option uuid) : op (Router.Router * ConfigTemplate * pystr) :=
  r ← on_fleet (Router.get_router k q false);
  _ ← validate_router_can_receive_config r;
  found ← gets (template_by_id t);
  t ← of_option found ConfigTemplateNotFoundError;
  _ ← raise_if (negb (template_active t)) ConfigTemplateNotFoundError;
  _ ← _enforce_template_scope t (Some (Router.router_org r));
  _ ← raise_if (bool_decide (Router.vendor r ∉ PROVISIONING_VENDORS)) UnsupportedVendorError;
  _ ← raise_if (bool_decide (template_vendor t ≠ Router.vendor r)) TemplateVendorMismatchError;
  e ← resolve_variables r;
  content ← render (template_content t) e;
  mret (r, t, content).
Definition drafted (p v : uuid) (c : Router.Router * ConfigTemplate * pystr) : op (ConfigProfile * ConfigVersion) :=
  let '(r, t, content) := c in
  existing ← gets (get_profile_for_router (Router.router_id r));
  profile ← match existing with
            | Some x =>
                let x' := mk_profile (profile_id x) (profile_router x) (template_id t) in
                _ ← modify (set_profiles (set_row (λ _, x') (profile_id x)));
                mret x'
            | None =>
                let x := mk_profile p (Router.router_id r) (template_id t) in
                clash ← gets (λ d, bool_decide (by_id p (profiles d) ≠ None));
                _ ← raise_if clash DuplicateRecordError;
                _ ← modify (set_profiles (insert_row x));
                mret x
            end;
  n ← gets (get_next_version_number (Router.router_id r));
  version ← create_version (mk_version v (Router.router_id r) (Some (profile_id profile)) n content DRAFT None None false);
  mret (profile, version).
Lemma bind_ext {A B} (m : op A) (f g : A → op B) d : (∀ a d, f a d = g a d) → (m ≫= f) d = (m ≫= g) d.
Proof. intros H. unfold mbind, M_bind. by destruct (m d) as [[a|e] d1]. Qed.
Lemma assign_split p v k t q d : assign_profile p v k t q d = (chosen k t q ≫= (drafted p v)) d.
Proof.
  unfold assign_profile, chosen. do 10 (rewrite bind_assoc; apply bind_ext; clear d; intros ? d). reflexivity.
Qed.
Lemma chosen_iff k t q d a d' : chosen k t q d = (Ok a, d') ↔
  d' = d ∧ ∃ r x e, a = (r, x, concat (map (fill e) (pieces (template_content x))))
  ∧ Router.get_router k q false (fleet d) = (Ok r, fleet d) ∧ Router.state r ∉ ineligible
  ∧ template_by_id t d = Some x ∧ template_active x = true
  ∧ (template_org x = None ∨ template_org x = Some (Router.router_org r))
  ∧ Router.vendor r ∈ PROVISIONING_VENDORS ∧ template_vendor x = Router.vendor r
  ∧ overlay (layers r d) (builtins r) = Ok e
  ∧ (∀ name, Slot name ∈ pieces (template_content x) → e !! name ≠ None).
Proof.
  unfold chosen. split.
  - intros (r & d1 & [-> Hr]%look_up & H)%bind_Ok. unfold validate_router_can_receive_config in H.
    rewrite raise_if_bind in H. case_bool_decide as Hst; [done|]. erewrite bind_step in H by (unfold gets; reflexivity).
    rewrite of_option_bind in H. destruct (template_by_id t d) as [x|] eqn:Hx; [|done].
    rewrite raise_if_bind in H. destruct (template_active x) eqn:Hact; [|done]. cbn [negb] in H.
    apply bind_Ok in H as ([] & d1 & Hs & H).
    assert (d1 = d ∧ (template_org x = None ∨ template_org x = Some (Router.router_org r))) as [-> Hscope].
    { unfold _enforce_template_scope in Hs. destruct (template_org x) as [o|]; [|injection Hs as <-; auto].
      apply raised_if in Hs as [Hs ->]. apply bool_decide_eq_false in Hs. apply dec_stable in Hs. subst o. auto. }
    rewrite raise_if_bind in H. case_bool_decide as Hv; [done|]. rewrite raise_if_bind in H. case_bool_decide as Hsame; [done|].
    apply bind_Ok in H as (e & d1 & He & H). injection He as He <-.
    apply bind_Ok in H as (content & d1 & Hc & H). injection Hc as Hc <-. injection H as <- <-.
    apply rendered in Hc as [Hslots ->]. split; [done|]. exists r, x, e. by split_and!.
  - intros (-> & r & x & e & -> & Hr & Hst & Hx & Hact & Hscope & Hv & Hsame & He & Hslots).
    erewrite bind_step by (apply look_up; split; [reflexivity|exact Hr]). unfold validate_router_can_receive_config.
    rewrite raise_if_bind, bool_decide_false by done. erewrite bind_step by (unfold gets; reflexivity).
    rewrite Hx, of_option_bind, raise_if_bind, Hact. cbn [negb].
    erewrite bind_step.
    2:{ unfold _enforce_template_scope. destruct Hscope as [->| ->]; [reflexivity|].
        rewrite bool_decide_false by (intros Hn; by apply Hn). reflexivity. }
    rewrite raise_if_bind, bool_decide_false by (by intros Hn). rewrite raise_if_bind, bool_decide_false by (by intros Hn).
    erewrite bind_step by (unfold resolve_variables; rewrite He; reflexivity).
    erewrite bind_step by (unfold render; rewrite fully_rendered by done; reflexivity). reflexivity.
Qed.
Definition written_profile (p k : uuid) (x : ConfigTemplate) (existing : option ConfigProfile) : ConfigProfile :=
  match existing with
  | Some y => mk_profile (profile_id y) (profile_router y) (template_id x)
  | None => mk_profile p k (template_id x)
  end.
Definition written_profiles (p k : uuid) (x : ConfigTemplate) (existing : option ConfigProfile) : list ConfigProfile → list ConfigProfile :=
  match existing with
  | Some y => set_row (λ _, written_profile p k x existing) (profile_id y)
  | None => insert_row (written_profile p k x existing)
  end.
Lemma drafted_iff p v r x content d pr y d' : consistent d →
  let k := Router.router_id r in let existing := get_profile_for_router k d in
  drafted p v (r, x, content) d = (Ok (pr, y), d') ↔
  (existing = None → by_id p (profiles d) = None) ∧ by_id v (versions d) = None
  ∧ pr = written_profile p k x existing
  ∧ y = mk_version v k (Some (profile_id pr)) (get_next_version_number k d) content DRAFT None None false
  ∧ d' = set_versions (insert_row y) (set_profiles (written_profiles p k x existing) d).
Proof.
  intros Hd k existing. unfold drafted. erewrite bind_step by (unfold gets; reflexivity). fold k existing.
  assert (∀ pr d1 f, d1 = set_profiles f d →
    (n ← gets (get_next_version_number k); version ← create_version (mk_version v k (Some (profile_id pr)) n content DRAFT None None false);
     mret (pr, version)) d1 = (Ok (pr, y), d') ↔
    by_id v (versions d) = None
    ∧ y = mk_version v k (Some (profile_id pr)) (get_next_version_number k d) content DRAFT None None false
    ∧ d' = set_versions (insert_row y) d1) as Htail.
  { intros pr0 d1 f ->. erewrite bind_step by (unfold gets; reflexivity).
    change (get_next_version_number k (set_profiles f d)) with (get_next_version_number k d). rewrite bind_Ok. split.
    - intros (z & d2 & (Hv & _ & -> & ->)%create_version_Ok & H). by injection H as <- <-.
    - intros (Hv & -> & ->). eexists _, _. split; [|reflexivity]. apply create_version_Ok. split_and!; [done| |done..].
      by apply (number_is_free d). }
  destruct existing as [z|]; cbn [written_profile written_profiles].
  - rewrite bind_assoc. erewrite bind_step by (unfold modify; reflexivity). rewrite ret_bind. split.
    + intros H. assert (pr = mk_profile (profile_id z) (profile_router z) (template_id x)) as ->.
      { apply bind_Ok in H as (n & d1 & _ & H). apply bind_Ok in H as (w & d2 & _ & H). by injection H. }
      apply (Htail _ _ _ eq_refl) in H as (? & ? & ?). by split_and!.
    + intros (_ & Hv & -> & Hy & Hd'). by apply (Htail _ _ _ eq_refl).
  - rewrite bind_assoc. erewrite bind_step by (unfold gets; reflexivity). rewrite bind_assoc, raise_if_bind.
    case_bool_decide as Hp; [split; [done|by intros (Hp' & _); destruct Hp; apply Hp']|].
    rewrite bind_assoc. erewrite bind_step by (unfold modify; reflexivity). rewrite ret_bind. split.
    + intros H. assert (pr = mk_profile p k (template_id x)) as ->.
      { apply bind_Ok in H as (n & d1 & _ & H). apply bind_Ok in H as (w & d2 & _ & H). by injection H. }
      apply (Htail _ _ _ eq_refl) in H as (? & ? & ?). split_and!; try done.
    + intros (_ & Hv & -> & Hy & Hd'). by apply (Htail _ _ _ eq_refl).
Qed.

(** * Claims *)
(** C36: A request to apply a version is refused, and then changes neither the
    rows nor the device, or else it settles what it started before it
    returns: the device is asked once, with the content of the version and
    the credentials of the router, and the version is applied and its job
    succeeded when the device took it, both failed otherwise.  It is accepted
    exactly for a draft or failed version of a live router that may be
    configured. *)
Theorem apply_version_settles now j x k v q (w : device) : consistent (db w) →
  let '(o, w') := get_db_session (apply now j x k v q) w in
  match o with
  | Ok (y', job) =>
      ∃ r y, admissible k v j q (db w) r y
      ∧ ∃ a, answer push_config r (rendered_content y) (ext w) = (a, ext w')
      ∧ version_status y' = (if pushed a then APPLIED else FAILED)
      ∧ job_status job = (if pushed a then SUCCEEDED else JOB_FAILED)
      ∧ rendered_content y' = rendered_content y ∧ version_number y' = version_number y
      ∧ by_id v (versions (db w')) = Some y' ∧ by_id j (jobs (db w')) = Some job
      ∧ consistent (db w')
  | Raise _ => w' = w ∧ ¬ ∃ r y, admissible k v j q (db w) r y
  end.
Proof.
  intros Hd. unfold get_db_session. destruct (apply_cases now j x k v q w) as [(r & y & Hadm)|[e He]].
  - destruct (answer push_config r (rendered_content y) (ext w)) as [a z] eqn:Ha.
    pose proof (apply_run now j x k v q w r y Hd Hadm) as Hrun. rewrite Ha in Hrun. rewrite Hrun.
    exists r, y. split; [done|]. exists a. pose proof (apply_step _ _ _ _ _ _ _ _ _ Hrun Hd) as [Hd' _].
    destruct Hadm as [_ _ Hv _ Hs _ Hj]. pose proof (by_id_Some _ _ _ Hv) as [_ <-].
    split_and!; [done|by destruct a..| | |exact Hd'].
    + unfold after_apply. cbn [db versions set_jobs set_versions].
      apply by_id_applied; [apply Hd|done|intros E; rewrite E in Hs; set_solver|].
      intros p Hp. by apply latest_applied_Some in Hp as (? & _ & _ & ?).
    + unfold after_apply. cbn [db jobs set_jobs set_versions]. by rewrite by_id_insert, Hj, decide_True.
  - rewrite He. split; [by destruct w|]. intros (r & y & Hadm). pose proof (apply_run now j x k v q w r y Hd Hadm) as Hrun.
    rewrite He in Hrun. by destruct (answer _ _ _ _).
Qed.

(** C37: Rolling back to a version sends exactly its content to the device.
    When the device takes it, the new version holds that content and is the
    router's current one, and the one it replaces is marked rolled back; when
    it does not, the new version has failed and the current one is still the
    one it was. *)
Theorem rollback_restores_content now v j x k t q (w : device) r target :
  consistent (db w) → restorable k v j t q (db w) r target →
  ∃ y w' a, rollback_to_version push_config now v j x k t q w = (Ok y, w')
  ∧ answer push_config r (rendered_content target) (ext w) = (a, ext w')
  ∧ rendered_content y = rendered_content target ∧ rollback_of_version_id y = Some t ∧ y ∈ versions (db w')
  ∧ match a with
    | Pushed => get_latest_applied_version k None (db w') = Some y
                ∧ ∀ p, get_latest_applied_version k None (db w) = Some p → rolled p ∈ versions (db w')
    | PushFailed => version_status y = FAILED
                    ∧ get_latest_applied_version k None (db w') = get_latest_applied_version k None (db w)
    end.
Proof.
  intros Hd Hres. destruct (rollback_run now v j x k t q w r target Hd Hres) as (_ & Hd1 & Hdraft & Hrun).
  set (draft := rollback_draft k v target (db w)) in *. set (d1 := set_versions (insert_row draft) (db w)) in *.
  destruct (answer _ _ _ _) as [a z] eqn:Ha.
  assert (by_id j (jobs d1) = None) as Hj by apply Hres.
  assert (version_id target = t) as Htid by (by destruct (by_id_Some _ _ _ (res_target _ _ _ _ _ _ _ _ Hres))).
  destruct (after_apply_step now j a k draft d1 Hj Hdraft ltac:(left) Hd1) as [Hd2 _].
  assert (by_id v (versions (after_apply now j a k draft d1)) = Some (applied_row now a draft)) as Hy.
  { unfold after_apply. cbn [versions set_jobs set_versions].
    apply (by_id_applied now a _ draft d1); [apply Hd1|exact Hdraft|done|].
    intros p Hp. by apply latest_applied_Some in Hp as (? & _ & _ & ?). }
  pose proof (elem_of_by_id _ _ _ Hy) as Hin.
  assert (get_latest_applied_version k None d1 = get_latest_applied_version k None (db w)) as Hprior by (by apply latest_draft).
  eexists _, _, a. split; [exact Hrun|]. split_and!; [done|by destruct a|by destruct a; cbn; rewrite Htid|exact Hin|].
  destruct a; cbn [db].
  - split.
    + apply latest_is; [done|exact Hin| |].
      * unfold current, of_router. cbn. by rewrite !bool_decide_true.
      * rewrite next_number by done. unfold after_apply. cbn [versions set_jobs set_versions]. rewrite length_applied.
        cbn [d1 versions set_versions]. unfold insert_row. rewrite select_app, length_app.
        unfold select at 2. cbn [List.filter]. assert (of_router k draft = true) as -> by (by apply bool_decide_eq_true).
        cbn. rewrite next_number by done. lia.
    + intros p Hp. unfold after_apply. rewrite Hprior, Hp. cbn [versions set_jobs set_versions applied_versions rollback_of_version_id draft rollback_draft].
      apply latest_applied_Some in Hp as (Hp & _ & _ & Hps). apply elem_of_update. exists p. unfold has_id.
      rewrite (bool_decide_true (row_id p = version_id p)) by done. split; [|done].
      apply elem_of_update. exists p. split; [apply elem_of_app; by left|].
      unfold has_id. rewrite bool_decide_false; [done|]. intros E.
      pose proof (res_version _ _ _ _ _ _ _ _ Hres) as Hno. apply (proj1 (select_one_None _ _)) with (r := p) in Hno; [|done].
      apply bool_decide_eq_false in Hno. by apply Hno.
  - split; [done|]. rewrite <-Hprior. unfold after_apply. cbn [applied_versions].
    transitivity (get_latest_applied_version k None (set_versions (set_row (applied_row now PushFailed) (version_id draft)) d1)); [done|].
    apply latest_frame; [apply Hd1|by eapply elem_of_by_id|by apply not_current|by apply not_current|done].
Qed.

(** C38: A template is assigned to a router exactly when the router may be
    configured, the template is active, of its vendor and of its organization
    or the platform's, every row it sees can be read and every placeholder has
    a value.  The draft this leaves, numbered next, holds the template with
    each placeholder replaced, once, by the most specific value there is: the
    router's own row, else its site's, its organization's, the platform's,
    else the router's name, serial, MAC or model. *)
Theorem draft_takes_the_most_specific_values p v k t q d : consistent d →
  ((∃ profile y d', assign_profile p v k t q d = (Ok (profile, y), d')) ↔ ∃ r x, assignable p v k t q d r x)
  ∧ ∀ profile y d', assign_profile p v k t q d = (Ok (profile, y), d') →
    ∃ r x, assignable p v k t q d r x
    ∧ profile_router profile = k ∧ profile_template profile = t ∧ version_profile y = Some (profile_id profile)
    ∧ version_router y = k ∧ version_status y = DRAFT ∧ version_number y = get_next_version_number k d
    ∧ versions d' = insert_row y (versions d)
    ∧ rendered_content y = concat (map (λ piece, match piece with
                                                 | Slot name => default [] (most_specific r d name)
                                                 | Text c => [c]
                                                 end) (pieces (template_content x))).
Proof.
  intros Hd. rewrite (assign_split p v k t q d).
  assert (∀ r x e, Router.get_router k q false (fleet d) = (Ok r, fleet d) → Router.state r ∉ ineligible → template_by_id t d = Some x →
    template_active x = true → (template_org x = None ∨ template_org x = Some (Router.router_org r)) →
    Router.vendor r ∈ PROVISIONING_VENDORS → template_vendor x = Router.vendor r → overlay (layers r d) (builtins r) = Ok e →
    (∀ name, Slot name ∈ pieces (template_content x) → e !! name ≠ None) →
    (get_profile_for_router k d = None → by_id p (profiles d) = None) → by_id v (versions d) = None → assignable p v k t q d r x) as Hasg.
  { intros r x e Hr Hst Hx Hact Hsc Hv Hsame He Hslots Hp Hver. split; try done.
    - apply (overlay_readable _ (builtins r)). by exists e.
    - intros name Hn. rewrite <-(resolved r d e) by done. by apply Hslots. }
  split; [split|].
  - intros (profile & y & d' & H).
    apply bind_Ok in H as (a & d1 & (-> & r & x & e & -> & Hr & Hst & Hx & Hact & Hsc & Hv & Hsame & He & Hslots)%chosen_iff & H).
    apply (drafted_iff p v r x _ d profile y d' Hd) in H as (Hp & Hver & _).
    exists r, x. eapply Hasg; try done. by rewrite <-(proj1 (looked_up_again _ _ _ _ Hr)).
  - intros (r & x & [Hr Hst Hx Hact Hsc Hv Hsame Hread Hfill Hp Hver]). destruct (looked_up_again _ _ _ _ Hr) as [Hk _].
    destruct (proj2 (overlay_readable _ (builtins r)) Hread) as [e He]. eexists _, _, _. apply bind_Ok.
    eexists _, d. split.
    + apply chosen_iff. split; [done|]. exists r, x, e. split_and!; try done. intros name Hn. rewrite (resolved r d e) by done. by apply Hfill.
    + apply drafted_iff; [done|]. rewrite Hk. split_and!; done.
  - intros profile y d' H.
    apply bind_Ok in H as (a & d1 & (-> & r & x & e & -> & Hr & Hst & Hx & Hact & Hsc & Hv & Hsame & He & Hslots)%chosen_iff & H).
    apply (drafted_iff p v r x _ d profile y d' Hd) in H as (Hp & Hver & Hpr & Hy & ->).
    pose proof (proj1 (looked_up_again _ _ _ _ Hr)) as Hk. rewrite Hk in *.
    exists r, x. split; [by eapply Hasg|]. subst y. cbn.
    assert (template_id x = t) as Ht.
    { unfold template_by_id in Hx. destruct (by_id t (templates d)) as [z|] eqn:E; [|done]. apply by_id_Some in E as [_ E].
      destruct (template_deleted z); [done|]. by injection Hx as <-. }
    assert (profile_router profile = k) as Hpk.
    { rewrite Hpr. unfold written_profile. destruct (get_profile_for_router k d) as [z|] eqn:E; [|done].
      apply select_one_Some in E as [_ E]. by apply bool_decide_eq_true in E. }
    split_and!; try done; [rewrite Hpr; unfold written_profile; by destruct (get_profile_for_router k d)|].
    f_equal. apply map_ext. intros [c|name]; [done|]. cbn. by rewrite (resolved r d e).
Qed.
End applying.

(** ** Histories *)
Section histories.
Context {PU : PyUnicode} {CR : Auth.Crypto} {P6 : Ip.PyIpv6} {dev : Type}.
Variable push_config : DeviceCredentials → pystr → dev → push_result * dev.
Variable credential_rotator : option (pystr → pystr → pystr → pystr → bool).
Variable synthesize : uuid → pystr * pystr.
Variable ttl : Z.
Lemma command_step c : steps (dev:=dev) (handle credential_rotator push_config synthesize ttl c).
Proof.
  destruct c as [now c]. destruct c; cbn [handle].
  - apply steps_on_db. intros d a d' H. by eapply quiet_step, fleet_quiet.
  - apply steps_quiet, create_template_quiet.
  - apply steps_quiet, update_template_quiet.
  - apply steps_quiet, delete_template_quiet.
  - apply steps_quiet, create_variable_quiet.
  - apply steps_quiet, update_variable_quiet.
  - apply steps_quiet, delete_variable_quiet.
  - apply steps_kept, assign_profile_step.
  - apply steps_kept, draft_step.
  - apply steps_kept, pre_apply_backup_step.
  - apply steps_done_with. intros w a w'. apply apply_step.
  - apply steps_done_with, rollback_step.
  - apply steps_kept. intros d a d' H Hd. by destruct (start_refused j d a d').
  - apply steps_kept. intros d a d' H Hd. by destruct (complete_refused now x j success d a d').
  - apply steps_kept, create_backup_step.
  - apply steps_kept, restore_backup_step.
  - apply steps_kept, factory_reset_step.
  - apply steps_quiet, rotate_secret_quiet.
  - apply steps_quiet, submit_enrollment_quiet.
  - apply steps_quiet, approve_enrollment_quiet.
  - apply steps_quiet, reject_enrollment_quiet.
  - apply steps_quiet, snapshot_quiet.
  - apply steps_quiet, failed_check_quiet.
Qed.
Lemma request_step c w : step (db w) (db (request credential_rotator push_config synthesize ttl w c)).
Proof.
  unfold request, get_db_session. destruct (handle _ _ _ _ c w) as [[[]|e] w'] eqn:H; [|reflexivity]. by eapply command_step.
Qed.
Lemma history_step cs w : step (db w) (db (requests credential_rotator push_config synthesize ttl cs w)).
Proof.
  revert w. induction cs as [|c cs IH]; intros w; [reflexivity|]. cbn. etrans; [apply request_step|apply IH].
Qed.

(** C35: Over any history of requests of this module and of the fleet, from any
    consistent database: the versions of every router stay numbered 1, 2, 3,
    ... in the order they were created, none is left pending and no job
    queued or running, and a version that exists is never lost, keeps its
    number and content, and its status only moves along the table. *)
Theorem configurations_are_numbered_and_settled cs (w : world database dev) : consistent (db w) →
  let d := db (requests credential_rotator push_config synthesize ttl cs w) in
  (∀ k, map version_number (select (of_router k) (versions d)) = map Z.of_nat (seq 1 (length (select (of_router k) (versions d)))))
  ∧ (∀ v, v ∈ versions d → version_status v ≠ PENDING_APPLY)
  ∧ (∀ j, j ∈ jobs d → job_status j ≠ QUEUED ∧ job_status j ≠ RUNNING)
  ∧ (∀ v, v ∈ versions (db w) → ∃ v', v' ∈ versions d ∧ descends v v').
Proof.
  intros Hd. cbv zeta. destruct (history_step cs w Hd) as [[_ _ Hn Hs Hj] [Hv _ _]]. split_and!; [done| | |done].
  - intros v Hin. by apply (proj1 (Forall_forall _ _) Hs v).
  - intros j Hin. destruct (proj1 (Forall_forall _ _) Hj j Hin) as [Hst _]. split; intros E; rewrite E in Hst; set_solver.
Qed.
End histories.

(** * Examples *)
Module examples.
#[local] Existing Instance ascii_only.
#[local] Existing Instance Auth.examples.toy.
#[local] Existing Instance Ip.no_v6.
(** A device that remembers what was imported, and refuses an empty script
    while it has nothing. *)
Definition push (c : DeviceCredentials) (content : pystr) (x : list (list N)) : push_result * list (list N) :=
  if bool_decide (content = u "bad" ∧ x = []) then (PushFailed, x) else (Pushed, content :: x).
Definition site : Router.Router := Router.mk_router 1 5 7 (u "r") (u "s1") (u "AA:BB") (u "hEX") Router.MIKROTIK None
  (Router.mk_access (Some (u "10.0.0.1")) None (Some (u "admin")) (Some (Auth.fernet_encrypt 1 (u "pw"))))
  (Router.mk_presence Router.ONLINE (Some 0) (Some 0) (Some Router.HEALTHY)) Router.nothing_known false.
Definition f : Router.database := Router.mk_database [site] [] [] [Router.mk_location 5 7 false false] [] {[7%positive := None]}.
Definition hello : ConfigTemplate := mk_template 20 None true Router.MIKROTIK (u "set {{ssid}} on {{ router_name }}") true false.
Definition everywhere : ConfigVariable := mk_variable 30 ORGANIZATION None None None (u "ssid") (u "guest") false false.
Definition here : ConfigVariable := mk_variable 31 ROUTER (Some 7%positive) (Some 5%positive) (Some 1%positive)
  (u "ssid") (Auth.fernet_encrypt 1 (u "lobby")) true false.
Definition d : database := mk_database f [hello] [everywhere; here] [] [] [] [] [].
Definition w : world database (list (list N)) := World d [].
Definition run (cs : list (datetime * command)) : world database (list (list N)) → world database (list (list N)) :=
  requests None push (λ _, ([], [])) 24 cs.
Lemma consistent_d : consistent d.
Proof. by split; try (apply (bool_decide_unpack _); by vm_compute). Qed.
Definition morning : list (datetime * command) :=
  [(1, DraftFromContent 40 1 (u "bad") None); (2, AssignProfile 50 41 1 20 None); (3, Apply 60 61 1 40 None);
   (4, Apply 62 63 1 41 None); (5, Backup 64 42 1 None)].
Lemma draft_takes_the_most_specific_values_witness :
  ∃ profile y d', assign_profile 50 41 1 20 None d = (Ok (profile, y), d') ∧ rendered_content y = u "set lobby on r".
Proof.
  destruct (draft_takes_the_most_specific_values 50 41 1 20 None d consistent_d) as [_ H].
  eexists _, _, _. split; [by vm_compute|]. edestruct H as (r & x & _ & _ & _ & _ & _ & _ & _ & _ & _); [by vm_compute|]. by vm_compute.
Defined.
Lemma configurations_are_numbered_and_settled_witness :
  map version_number (versions (db (run morning w))) = [1; 2; 3]
  ∧ map version_status (versions (db (run morning w))) = [FAILED; APPLIED; APPLIED]
  ∧ ∀ v, v ∈ versions (db (run morning w)) → version_status v ≠ PENDING_APPLY.
Proof.
  split; [by vm_compute|]. split; [by vm_compute|].
  exact (proj1 (proj2 (configurations_are_numbered_and_settled push None (λ _, ([], [])) 24 morning w consistent_d))).
Defined.
Definition one : ConfigVersion := mk_version 40 1 None 1 (u "one") APPLIED (Some 1) None false.
Definition two : ConfigVersion := mk_version 41 1 None 2 (u "two") APPLIED (Some 2) None false.
Definition three : ConfigVersion := mk_version 42 1 None 3 (u "three") DRAFT None None false.
Definition d3 : database := set_versions (λ _, [one; two; three]) d.
Definition w3 : world database (list (list N)) := World d3 [u "two"; u "one"].
Lemma consistent_d3 : consistent d3.
Proof.
  split; try (apply (bool_decide_unpack _); by vm_compute).
  intros k. unfold select. cbn [versions d3 set_versions List.filter]. unfold of_router. cbn [version_router one two three].
  by case_bool_decide.
Qed.
Lemma apply_version_settles_witness :
  match get_db_session (apply_version push 5 60 61 1 42 None) w3 with
  | (Ok (y, job), w') => version_status y = APPLIED ∧ ext w' = [u "three"; u "two"; u "one"] ∧ consistent (db w')
  | (Raise _, _) => False
  end.
Proof.
  pose proof (apply_version_settles push 5 60 61 1 42 None w3 consistent_d3) as H.
  assert (is_ok (get_db_session (apply_version push 5 60 61 1 42 None) w3).1 = true) as Hok by (by vm_compute).
  assert (ext (get_db_session (apply_version push 5 60 61 1 42 None) w3).2 = [u "three"; u "two"; u "one"]) as Hext by (by vm_compute).
  assert (match (get_db_session (apply_version push 5 60 61 1 42 None) w3).1 with
          | Ok (y, _) => version_status y = APPLIED | Raise _ => True end) as Hst by (by vm_compute).
  destruct (get_db_session (apply_version push 5 60 61 1 42 None) w3) as [[[y job]|e] w']; [|done].
  split_and!; [done..|]. by destruct H as (? & ? & _ & ? & _ & _ & _ & _ & _ & _ & _ & Hc).
Defined.
Lemma rollback_restores_content_witness :
  ∃ y w', rollback_to_version push 5 43 60 61 1 40 None w3 = (Ok y, w')
  ∧ rendered_content y = u "one" ∧ ext w' = [u "one"; u "two"; u "one"] ∧ rolled two ∈ versions (db w').
Proof.
  destruct (rollback_restores_content push 5 43 60 61 1 40 None w3 site one consistent_d3) as (y & w' & a & Hrun & Ha & Hc & _ & _ & H).
  - split; try done; try (by vm_compute); apply (bool_decide_unpack _); by vm_compute.
  - exists y, w'. split; [done|]. split; [done|].
    assert (answer push site (rendered_content one) (ext w3) = (Pushed, [u "one"; u "two"; u "one"])) as He by (by vm_compute).
    rewrite He in Ha. injection Ha as <- Hext. split; [done|]. apply H. by vm_compute.
Defined.
(** The secret flag of a row may change without its value: what was encrypted
    is then rendered as it is stored. *)
Lemma unflagged_secret_renders_ciphertext :
  ∃ y d', update_variable 31 2 None None (Some false) d = (Ok y, d')
  ∧ most_specific site d (u "ssid") = Some (u "lobby")
  ∧ most_specific site d' (u "ssid") = Some (Auth.fernet_encrypt 1 (u "lobby")).
Proof. eexists _, _. split; [by vm_compute|]. by vm_compute. Qed.
(** And a plain text that becomes secret is decrypted although it never was
    encrypted: here the router cannot be configured any more. *)
Lemma flagged_plain_text_is_not_readable :
  ∃ y d', update_variable 32 2 None None (Some true) (set_variables (insert_row (mk_variable 32 ORGANIZATION None None None (u "x") [] false false)) d) = (Ok y, d')
  ∧ (resolve_variables site d').1 = Raise (OfRouter Router.RouterCredentialDecryptionError).
Proof. eexists _, _. split; by vm_compute. Qed.
(** A version that failed and is applied again later than its successor: what
    the device runs is not the version of record, and the backup made of it
    holds the other one. *)
Definition retried : list (datetime * command) :=
  [(1, DraftFromContent 40 1 (u "bad") None); (2, DraftFromContent 41 1 (u "good") None); (3, Apply 60 61 1 40 None);
   (4, Apply 62 63 1 41 None); (5, Apply 64 65 1 40 None); (6, Backup 66 42 1 None)].
Lemma version_of_record_is_not_what_runs :
  head (ext (run retried w)) = Some (u "bad")
  ∧ rendered_content <$> get_latest_applied_version 1 None (db (run retried w)) = Some (u "good")
  ∧ rendered_content <$> by_id 42 (versions (db (run retried w))) = Some (u "good").
Proof. by vm_compute. Qed.
(** A restore writes an applied version, which can then not be applied. *)
Definition restored : list (datetime * command) :=
  [(1, DraftFromContent 40 1 (u "good") None); (2, Apply 60 61 1 40 None); (3, Backup 62 41 1 None); (4, RestoreBackup 63 42 1 41 None)].
Lemma restored_version_cannot_be_pushed :
  version_status <$> by_id 42 (versions (db (run restored w))) = Some APPLIED
  ∧ (apply_version push 5 64 65 1 42 None (run restored w)).1 = Raise InvalidConfigVersionStatusTransitionError
  ∧ ext (run restored w) = [u "good"].
Proof. by vm_compute. Qed.
End examples.
End Provisioning.
