(* ===== verification/ProvisioningJobs.v ===== *)
(** The provisioning engine: jobs that configure a router step by step.

    [src/backend/app/domains/provisioning_engine]: creating, starting,
    cancelling, retrying and rolling back jobs ([service.py]), the seven steps
    of a run, and the task that drains the queue of jobs ([tasks.py]), over
    the configuration service of [Provisioning.v].  What the device answers
    and whether a RADIUS client could be registered are arguments; the policy
    snapshot, logs, events and audit rows are left out. *)

From stdpp Require sorting.
From S2P Require Import Prelude Table Session PyStr Auth Ip Router Provisioning.

Module ProvisioningJobs.
#[local] Existing Instances Router.status_eq_dec Router.router_has_id Provisioning.step_preorder Provisioning.quiet_preorder.

(** ** [constants.py] *)
Inductive ProvisionJobStatus :=
| PENDING | QUEUED | RUNNING | VALIDATING | CONFIGURING | VERIFYING | SUCCESS | FAILED | ROLLED_BACK | CANCELLED.
#[export] Instance provision_job_status_eq_dec : EqDecision ProvisionJobStatus.
Proof. solve_decision. Defined.
Definition PROVISION_JOB_STATUS_TRANSITIONS (s : ProvisionJobStatus) : list ProvisionJobStatus :=
  match s with
  | PENDING => [QUEUED; CANCELLED]
  | QUEUED => [RUNNING; CANCELLED]
  | RUNNING => [VALIDATING; FAILED; CANCELLED]
  | VALIDATING => [CONFIGURING; FAILED; CANCELLED]
  | CONFIGURING => [VERIFYING; FAILED; CANCELLED]
  | VERIFYING => [SUCCESS; FAILED; CANCELLED]
  | SUCCESS => [ROLLED_BACK]
  | FAILED | ROLLED_BACK | CANCELLED => []
  end.
Definition RETRYABLE_JOB_STATUSES : list ProvisionJobStatus := [FAILED].
Definition ROLLBACKABLE_JOB_STATUSES : list ProvisionJobStatus := [SUCCESS].
Inductive ProvisionStepType :=
| DISCOVER | VALIDATE | GENERATE_CONFIG | PUSH_CONFIG | VERIFY_CONFIG | HEALTH_CHECK | REGISTER_MONITORING.
#[export] Instance step_type_eq_dec : EqDecision ProvisionStepType.
Proof. solve_decision. Defined.
Definition PROVISION_STEP_SEQUENCE : list ProvisionStepType :=
  [DISCOVER; VALIDATE; GENERATE_CONFIG; PUSH_CONFIG; VERIFY_CONFIG; HEALTH_CHECK; REGISTER_MONITORING].
Definition STEP_TYPE_TO_JOB_STATUS (t : ProvisionStepType) : ProvisionJobStatus :=
  match t with
  | DISCOVER => RUNNING
  | VALIDATE => VALIDATING
  | GENERATE_CONFIG | PUSH_CONFIG => CONFIGURING
  | VERIFY_CONFIG | HEALTH_CHECK | REGISTER_MONITORING => VERIFYING
  end.
Inductive ProvisionStepStatus := STEP_PENDING | STEP_RUNNING | STEP_SUCCEEDED | STEP_FAILED | STEP_SKIPPED.
#[export] Instance step_status_eq_dec : EqDecision ProvisionStepStatus.
Proof. solve_decision. Defined.
Definition PROVISION_QUEUE_DRAIN_BATCH_SIZE : nat := 50.

(** ** [exceptions.py] *)
Inductive error :=
| ProvisionDeviceConnectionError | ProvisionDeviceOperationError | UnsupportedDeviceVendorError
| ProvisionJobNotFoundError | InvalidProvisionJobStatusTransitionError | ProvisionJobNotRetryableError
| ProvisionJobRetryLimitExceededError | ProvisionJobNotRollbackableError | ProvisionJobHasNoAppliedVersionError
| ProvisionNoPriorVersionToRollBackToError | ProvisionTemplateNotFoundError | ProvisionNoConfigurationSourceError
| ProvisionMissingCredentialsError
(** Of other components: no [ProvisioningEngineError]. *)
| ControllerManagedFeatureUnavailableError | UnexpectedError | DuplicateRecordError | OfNas
| OfConfiguration (e : Provisioning.error).
(** [except ProvisioningEngineError]. *)
Definition is_engine_error (e : error) : bool :=
  match e with
  | ControllerManagedFeatureUnavailableError | UnexpectedError | DuplicateRecordError | OfNas | OfConfiguration _ => false
  | _ => true
  end.
(** The exceptions a step may fail by. *)
Definition fails_the_step (e : error) : bool :=
  match e with
  | ProvisionDeviceConnectionError | ProvisionDeviceOperationError | ProvisionMissingCredentialsError
  | ProvisionNoConfigurationSourceError | ProvisionNoPriorVersionToRollBackToError => true
  | _ => false
  end.

(** ** [models.py] *)
Record ProvisionJob := mk_job {
  job_id : uuid;
  job_org : uuid;
  job_router : uuid;
  provision_template_id : option uuid;
  job_status : ProvisionJobStatus;
  current_step : option ProvisionStepType;
  progress_percent : Z;
  retry_count : Z;
  max_retries : Z;
  retry_of_job_id : option uuid;
  is_rollback : bool;
  rollback_of_job_id : option uuid;
  applied_config_version_id : option uuid;
  rollback_target_version_id : option uuid;
}.
#[export] Instance job_has_id : HasId ProvisionJob := job_id.
Record ProvisionStep := mk_step {
  step_id : uuid;
  step_job : uuid;
  step_type : ProvisionStepType;
  sequence_number : Z;
  step_status : ProvisionStepStatus;
}.
#[export] Instance step_has_id : HasId ProvisionStep := step_id.
(** [settings] holds what [_flatten_settings] and [str] make of the column. *)
Record ProvisionTemplate := mk_template {
  template_id : uuid;
  config_template_id : option uuid;
  settings : list (pystr * pystr);
}.
#[export] Instance template_has_id : HasId ProvisionTemplate := template_id.
Record database := mk_database {
  config : Provisioning.database;
  jobs : list ProvisionJob;
  steps : list ProvisionStep;
  templates : list ProvisionTemplate;
}.
Definition set_config c d := mk_database c (jobs d) (steps d) (templates d).
Definition set_jobs f d := mk_database (config d) (f (jobs d)) (steps d) (templates d).
Definition set_steps f d := mk_database (config d) (jobs d) (f (steps d)) (templates d).
Definition set_templates f d := mk_database (config d) (jobs d) (steps d) (f (templates d)).
Definition with_status (s : ProvisionJobStatus) (j : ProvisionJob) : ProvisionJob :=
  mk_job (job_id j) (job_org j) (job_router j) (provision_template_id j) s (current_step j) (progress_percent j)
    (retry_count j) (max_retries j) (retry_of_job_id j) (is_rollback j) (rollback_of_job_id j)
    (applied_config_version_id j) (rollback_target_version_id j).
Definition with_progress (c : option ProvisionStepType) (p : Z) (j : ProvisionJob) : ProvisionJob :=
  mk_job (job_id j) (job_org j) (job_router j) (provision_template_id j) (job_status j) c p
    (retry_count j) (max_retries j) (retry_of_job_id j) (is_rollback j) (rollback_of_job_id j)
    (applied_config_version_id j) (rollback_target_version_id j).
Definition with_applied (v : uuid) (j : ProvisionJob) : ProvisionJob :=
  mk_job (job_id j) (job_org j) (job_router j) (provision_template_id j) (job_status j) (current_step j) (progress_percent j)
    (retry_count j) (max_retries j) (retry_of_job_id j) (is_rollback j) (rollback_of_job_id j)
    (Some v) (rollback_target_version_id j).
Definition with_step_status (s : ProvisionStepStatus) (x : ProvisionStep) : ProvisionStep :=
  mk_step (step_id x) (step_job x) (step_type x) (sequence_number x) s.

(** ** The device *)
Inductive device_failure := ConnectionFailed | OperationFailed | FailedUnexpectedly.
Definition raised_as (f : device_failure) : error :=
  match f with
  | ConnectionFailed => ProvisionDeviceConnectionError
  | OperationFailed => ProvisionDeviceOperationError
  | FailedUnexpectedly => UnexpectedError
  end.
Abbreviation DeviceCredentials := Provisioning.DeviceCredentials.
(** [BaseProvisionAdapter]: what a device in some state answers.  [discover]
    tells the firmware version, [verify_config] whether the content is there,
    [health_check] whether the device is healthy. *)
Class Adapter (dev : Type) := {
  discover : DeviceCredentials → dev → outcome device_failure (option pystr) * dev;
  push_config : DeviceCredentials → pystr → dev → outcome device_failure unit * dev;
  verify_config : DeviceCredentials → pystr → dev → outcome device_failure bool * dev;
  health_check : DeviceCredentials → dev → outcome device_failure bool * dev;
}.

Definition newer (v v' : Provisioning.ConfigVersion) : Prop := Provisioning.version_number v' ≤ Provisioning.version_number v.
#[export] Instance newer_dec : RelDecision newer := λ v v', decide (Provisioning.version_number v' ≤ Provisioning.version_number v).

Section engine.
Context {PU : PyUnicode} {CR : Auth.Crypto} {P6 : Ip.PyIpv6} {dev : Type} {AD : Adapter dev}.
(** Whether [register_nas] takes the router. *)
Variable nas_registers : uuid → bool.
(** Outside of the transaction: the device, and the Redis list of job ids,
    its head first. *)
Definition outside : Type := dev * list uuid.
Abbreviation op := (M database error).
Abbreviation device_op := (M (world database outside) error).

(** The push as the configuration service sees it. *)
Definition push_for_config (c : DeviceCredentials) (content : pystr) (x : dev) : Provisioning.push_result * dev :=
  let '(o, x) := push_config c content x in
  (match o with Ok _ => Provisioning.Pushed | Raise _ => Provisioning.PushFailed end, x).
(** A call of the configuration service, its exceptions passed on. *)
Definition on_config {A} (m : M (world Provisioning.database dev) Provisioning.error A) : device_op A := λ w,
  let '(o, w') := m (World (config (db w)) (ext w).1) in
  (match o with Ok a => Ok a | Raise e => Raise (OfConfiguration e) end,
   World (set_config (Session.db w') (db w)) (Session.ext w', (ext w).2)).
Definition on_fleet {A} (m : Router.op A) : device_op A := on_config (on_db (Provisioning.on_fleet m)).
Definition on_device {A} (f : dev → outcome device_failure A * dev) : device_op A := λ w,
  let '(o, x) := f (ext w).1 in
  (match o with Ok a => Ok a | Raise e => Raise (raised_as e) end, World (db w) (x, (ext w).2)).

(** ** [repository.py] *)
Definition create_job (j : ProvisionJob) : op ProvisionJob :=
  clash ← gets (λ d, bool_decide (by_id (job_id j) (jobs d) ≠ None));
  _ ← raise_if clash DuplicateRecordError;
  _ ← modify (set_jobs (insert_row j));
  mret j.
Definition update_job (f : ProvisionJob → ProvisionJob) (j : ProvisionJob) : op ProvisionJob :=
  _ ← modify (set_jobs (set_row f (job_id j)));
  found ← gets (λ d, by_id (job_id j) (jobs d));
  mret (default (f j) found).
Definition create_step (x : ProvisionStep) : op ProvisionStep :=
  clash ← gets (λ d, bool_decide (by_id (step_id x) (steps d) ≠ None));
  _ ← raise_if clash DuplicateRecordError;
  _ ← modify (set_steps (insert_row x));
  mret x.
Definition update_step (s : ProvisionStepStatus) (x : ProvisionStep) : op unit :=
  modify (set_steps (set_row (with_step_status s) (step_id x))).
(** [lpush], [rpop]. *)
Definition enqueue (j : uuid) : device_op unit := on_ext (modify (λ x, (x.1, j :: x.2))).
Definition rpop (q : list uuid) : option (uuid * list uuid) :=
  match rev q with [] => None | j :: q => Some (j, rev q) end.

(** ** Jobs *)
Definition _validate_job_transition (s s' : ProvisionJobStatus) : op unit :=
  raise_if (bool_decide (s' ∉ PROVISION_JOB_STATUS_TRANSITIONS s)) InvalidProvisionJobStatusTransitionError.
Definition get_job (j : uuid) (requesting : option uuid) : op ProvisionJob :=
  found ← gets (λ d, by_id j (jobs d));
  job ← of_option found ProvisionJobNotFoundError;
  _ ← raise_if (match requesting with Some o => bool_decide (job_org job ≠ o) | None => false end) ProvisionJobNotFoundError;
  mret job.
Definition ensure_not_controller_managed (r : Router.Router) : op unit :=
  raise_if (Router.is_controller_managed (Router.vendor r)) ControllerManagedFeatureUnavailableError.
Definition new_create_job (j k : uuid) (requesting template : option uuid) (retries : Z) : device_op ProvisionJob :=
  r ← on_fleet (Router.get_router k requesting false);
  _ ← on_db (ensure_not_controller_managed r);
  _ ← on_db (match template with
             | Some t => found ← gets (λ d, by_id t (templates d));
                         _ ← of_option found ProvisionTemplateNotFoundError; mret tt
             | None => mret tt
             end);
  on_db (create_job (mk_job j (Router.router_org r) (Router.router_id r) template PENDING None 0 1 retries None false None None None)).
Definition start_job (j : uuid) (requesting : option uuid) : device_op ProvisionJob :=
  job ← on_db (get_job j requesting);
  _ ← on_db (_validate_job_transition (job_status job) QUEUED);
  updated ← on_db (update_job (with_status QUEUED) job);
  _ ← enqueue (job_id updated);
  mret updated.
Definition unfinished (j : uuid) (x : ProvisionStep) : bool :=
  bool_decide (step_job x = j) && bool_decide (step_status x ∈ [STEP_PENDING; STEP_RUNNING]).
Definition cancel_job (j : uuid) (requesting : option uuid) : op ProvisionJob :=
  job ← get_job j requesting;
  _ ← _validate_job_transition (job_status job) CANCELLED;
  updated ← update_job (with_status CANCELLED) job;
  _ ← modify (set_steps (update (unfinished (job_id job)) (with_step_status STEP_SKIPPED)));
  mret updated.
Definition retry_job (n j : uuid) (requesting : option uuid) : device_op ProvisionJob :=
  job ← on_db (get_job j requesting);
  _ ← on_db (raise_if (bool_decide (job_status job ∉ RETRYABLE_JOB_STATUSES)) ProvisionJobNotRetryableError);
  _ ← on_db (raise_if (max_retries job <=? retry_count job) ProvisionJobRetryLimitExceededError);
  new ← on_db (create_job (mk_job n (job_org job) (job_router job) (provision_template_id job) PENDING None 0
                 (retry_count job + 1) (max_retries job) (Some (job_id job)) false None None None));
  start_job (job_id new) requesting.
(** [list_versions]: the newest first. *)
Definition newest_first (k : uuid) (d : Provisioning.database) : list Provisioning.ConfigVersion :=
  let vs := select (Provisioning.of_router k) (Provisioning.versions d) in
  sorting.merge_sort newer vs.
Definition list_versions (k : uuid) (requesting : option uuid) (page_size : nat) : device_op (list Provisioning.ConfigVersion) :=
  r ← on_fleet (Router.get_router k requesting false);
  d ← on_db get;
  mret (take page_size (newest_first (Router.router_id r) (config d))).
Definition rollback_job (n j : uuid) (requesting : option uuid) : device_op ProvisionJob :=
  job ← on_db (get_job j requesting);
  _ ← on_db (raise_if (bool_decide (job_status job ∉ ROLLBACKABLE_JOB_STATUSES)) ProvisionJobNotRollbackableError);
  applied ← of_option (applied_config_version_id job) ProvisionJobHasNoAppliedVersionError;
  vs ← list_versions (job_router job) requesting 100;
  v ← of_option (List.find (λ v, bool_decide (Provisioning.version_id v = applied)) vs) ProvisionJobHasNoAppliedVersionError;
  t ← of_option (List.find (λ x, Provisioning.version_number x =? Provisioning.version_number v - 1) vs)
        ProvisionNoPriorVersionToRollBackToError;
  new ← on_db (create_job (mk_job n (job_org job) (job_router job) (provision_template_id job) PENDING None 0
                 1 (max_retries job) None true (Some (job_id job)) None (Some (Provisioning.version_id t))));
  start_job (job_id new) requesting.
(** ** The steps of a run

    [fresh] gives the identifiers a run draws. *)
Definition _resolve_device_credentials (r : Router.Router) : device_op DeviceCredentials :=
  secret ← on_fleet (Router.get_decrypted_api_secret r);
  match Router.host r, Router.given (Router.api_username (Router.router_access r)), Router.given secret with
  | Some h, Some n, Some s => mret (Provisioning.mk_credentials h n s)
  | _, _, _ => raise ProvisionMissingCredentialsError
  end.
Definition DEVICE_VENDORS : list pystr := [Router.MIKROTIK].
Definition get_device_adapter (r : Router.Router) : op unit :=
  raise_if (bool_decide (Router.vendor r ∉ DEVICE_VENDORS)) UnsupportedDeviceVendorError.
Definition _get_provision_template (t : option uuid) : op ProvisionTemplate :=
  found ← gets (λ d, match t with Some t => by_id t (templates d) | None => None end);
  of_option found ProvisionTemplateNotFoundError.
Definition discover_device (now : datetime) (k : uuid) (requesting : option uuid) : device_op unit :=
  r ← on_fleet (Router.get_router k requesting false);
  _ ← on_db (ensure_not_controller_managed r);
  c ← _resolve_device_credentials r;
  _ ← on_db (get_device_adapter r);
  version ← on_device (discover c);
  _ ← on_fleet (Router.heartbeat now (Router.router_id r) requesting version
        (Router.management_ip_address (Router.router_access r)) None);
  mret tt.
Definition validate_device (k : uuid) (requesting template : option uuid) : device_op unit :=
  r ← on_fleet (Router.get_router k requesting false);
  _ ← _resolve_device_credentials r;
  _ ← on_db (get_device_adapter r);
  match template with
  | None => mret tt
  | Some _ =>
      t ← on_db (_get_provision_template template);
      match config_template_id t with
      | None => mret tt
      | Some c =>
          x ← on_config (on_db (Provisioning.get_template c requesting));
          on_config (on_db (raise_if (bool_decide (Provisioning.template_vendor x ≠ Router.vendor r))
                              Provisioning.TemplateVendorMismatchError))
      end
  end.
(** [contextlib.suppress(DuplicateConfigVariableError)] around one row. *)
Definition suppress_duplicate (m : Provisioning.op Provisioning.ConfigVariable) : Provisioning.op unit := λ d,
  match m d with
  | (Ok _, d') => (Ok tt, d')
  | (Raise Provisioning.DuplicateConfigVariableError, d') => (Ok tt, d')
  | (Raise e, d') => (Raise e, d')
  end.
Fixpoint seed_variables (fresh : nat → uuid) (i : nat) (l : list (pystr * pystr)) (k : uuid) (requesting : option uuid)
    : Provisioning.op unit :=
  match l with
  | [] => mret tt
  | (key, value) :: l =>
      _ ← suppress_duplicate (Provisioning.create_variable (fresh i) 0 Provisioning.ROUTER key value false
                                None None (Some k) requesting);
      seed_variables fresh (S i) l k requesting
  end.
Definition generate_configuration (fresh : nat → uuid) (k : uuid) (requesting template : option uuid) : device_op unit :=
  r ← on_fleet (Router.get_router k requesting false);
  t ← on_db (_get_provision_template template);
  c ← of_option (config_template_id t) ProvisionTemplateNotFoundError;
  _ ← on_config (on_db (seed_variables fresh 20 (settings t) (Router.router_id r) requesting));
  _ ← raise_if (negb (nas_registers (Router.router_id r))) OfNas;
  x ← on_config (on_db (Provisioning.get_template c requesting));
  e ← on_config (on_db (Provisioning.resolve_variables r));
  _ ← on_config (on_db (Provisioning.render (Provisioning.template_content x) e));
  mret tt.
(** What [_step_push_config] is about to apply. *)
Definition chosen_version (now : datetime) (fresh : nat → uuid) (k : uuid) (job : ProvisionJob) : device_op Provisioning.ConfigVersion :=
  let q := Some (job_org job) in
  if is_rollback job then
    t ← of_option (rollback_target_version_id job) ProvisionNoPriorVersionToRollBackToError;
    on_config (Provisioning.rollback_to_version push_for_config now (fresh 10%nat) (fresh 11%nat) (fresh 12%nat) k t q)
  else match provision_template_id job with
  | Some _ =>
      t ← on_db (_get_provision_template (provision_template_id job));
      c ← of_option (config_template_id t) (OfConfiguration Provisioning.ConfigTemplateNotFoundError);
      '(_, v) ← on_config (on_db (Provisioning.assign_profile (fresh 13%nat) (fresh 10%nat) k c q));
      mret v
  | None =>
      vs ← list_versions k q 1;
      of_option (head vs) ProvisionNoConfigurationSourceError
  end.
Definition _step_push_config (now : datetime) (fresh : nat → uuid) (job : ProvisionJob) : device_op unit :=
  let q := Some (job_org job) in
  r ← on_fleet (Router.get_router (job_router job) q false);
  c ← _resolve_device_credentials r;
  _ ← on_db (get_device_adapter r);
  let k := Router.router_id r in
  version ← chosen_version now fresh k job;
  '(_, rp_job) ← on_config (Provisioning.apply_version push_for_config now (fresh 14%nat) (fresh 15%nat) k (Provisioning.version_id version) q);
  _ ← on_config (on_db (Provisioning.start_provisioning_job (Provisioning.job_id rp_job)));
  pushed ← on_device (λ x, let '(o, x) := push_config c (Provisioning.rendered_content version) x in
                           (match o with
                            | Raise FailedUnexpectedly => Raise FailedUnexpectedly
                            | Raise f => Ok (Some f)
                            | Ok _ => Ok None
                            end, x));
  match pushed with
  | Some f =>
      _ ← on_config (on_db (Provisioning.complete_provisioning_job now (fresh 15%nat) (Provisioning.job_id rp_job) false));
      raise (raised_as f)
  | None =>
      _ ← on_config (on_db (Provisioning.complete_provisioning_job now (fresh 15%nat) (Provisioning.job_id rp_job) true));
      _ ← on_db (update_job (with_applied (Provisioning.version_id version)) job);
      mret tt
  end.
Definition _step_verify_config (job : ProvisionJob) : device_op unit :=
  let q := Some (job_org job) in
  r ← on_fleet (Router.get_router (job_router job) q false);
  c ← _resolve_device_credentials r;
  _ ← on_db (get_device_adapter r);
  vs ← list_versions (Router.router_id r) q 1;
  matched ← on_device (verify_config c (match vs with v :: _ => Provisioning.rendered_content v | [] => [] end));
  raise_if (negb matched) ProvisionDeviceOperationError.
Definition _step_health_check (job : ProvisionJob) : device_op unit :=
  r ← on_fleet (Router.get_router (job_router job) (Some (job_org job)) false);
  c ← _resolve_device_credentials r;
  _ ← on_db (get_device_adapter r);
  healthy ← on_device (health_check c);
  raise_if (negb healthy) ProvisionDeviceOperationError.
Definition _step_register_monitoring (now : datetime) (job : ProvisionJob) : device_op unit :=
  _ ← on_config (on_db (Provisioning.record_health_snapshot now (job_router job) (Some (job_org job)) None None true));
  mret tt.
Definition _run_step (now : datetime) (fresh : nat → uuid) (job : ProvisionJob) (t : ProvisionStepType) : device_op unit :=
  match t with
  | DISCOVER => discover_device now (job_router job) (Some (job_org job))
  | VALIDATE => validate_device (job_router job) (Some (job_org job)) (provision_template_id job)
  | GENERATE_CONFIG =>
      if is_rollback job then mret tt
      else match provision_template_id job with
           | None => mret tt
           | Some _ => generate_configuration fresh (job_router job) (Some (job_org job)) (provision_template_id job)
           end
  | PUSH_CONFIG => _step_push_config now fresh job
  | VERIFY_CONFIG => _step_verify_config job
  | HEALTH_CHECK => _step_health_check job
  | REGISTER_MONITORING => _step_register_monitoring now job
  end.
(** [try ... except (ProvisionDeviceConnectionError, ...)]: [Some e] is a
    failure of the step, other exceptions go on. *)
Definition attempted (m : device_op unit) : device_op (option error) := λ w,
  match m w with
  | (Ok _, w') => (Ok None, w')
  | (Raise e, w') => if fails_the_step e then (Ok (Some e), w') else (Raise e, w')
  end.
Definition total_steps : Z := Z.of_nat (length PROVISION_STEP_SEQUENCE).
(** The loop from the [i]-th step on: whether it got to its end. *)
Fixpoint run_steps (now : datetime) (fresh : nat → uuid) (i : nat) (l : list ProvisionStepType) (job : ProvisionJob)
    : device_op (ProvisionJob * bool) :=
  match l with
  | [] => mret (job, true)
  | t :: l =>
      job ← on_db (update_job (λ j, with_status (STEP_TYPE_TO_JOB_STATUS t)
              (with_progress (Some t) (Z.of_nat i * 100 / total_steps) j)) job);
      x ← on_db (create_step (mk_step (fresh i) (job_id job) t (Z.of_nat i + 1) STEP_RUNNING));
      failure ← attempted (_run_step now fresh job t);
      match failure with
      | Some _ =>
          _ ← on_db (update_step STEP_FAILED x);
          job ← on_db (update_job (with_status FAILED) job);
          mret (job, false)
      | None =>
          _ ← on_db (update_step STEP_SUCCEEDED x);
          run_steps now fresh (S i) l job
      end
  end.
Definition run_provision_job (now : datetime) (fresh : nat → uuid) (j : uuid) : device_op ProvisionJob :=
  found ← on_db (gets (λ d, by_id j (jobs d)));
  job ← of_option found ProvisionJobNotFoundError;
  job ← on_db (update_job (with_status RUNNING) job);
  '(job, finished) ← run_steps now fresh 0 PROVISION_STEP_SEQUENCE job;
  match finished with
  | true =>
      completed ← on_db (update_job (λ j, with_status SUCCESS (with_progress None 100 j)) job);
      _ ← on_db (match is_rollback completed, rollback_of_job_id completed with
                 | true, Some o =>
                     original ← gets (λ d, by_id o (jobs d));
                     match original with
                     | Some x => _ ← update_job (with_status ROLLED_BACK) x; mret tt
                     | None => mret tt
                     end
                 | _, _ => mret tt
                 end);
      mret completed
  | false => mret job
  end.

(** ** The task that drains the queue

    Every job runs in the session of the task, committed after each and
    rolled back when an exception of this module leaves it; any other ends the
    task, and with it the session. *)
Inductive drained := Drained (processed failed : Z) | Aborted (e : error).
Fixpoint drain (draw : nat → datetime * (nat → uuid)) (n i : nat) (processed failed : Z) (w : world database outside)
    : drained * world database outside :=
  match n with
  | O => (Drained processed failed, w)
  | S n =>
      match rpop (ext w).2 with
      | None => (Drained processed failed, w)
      | Some (j, q) =>
          let w := World (db w) ((ext w).1, q) in
          let '(now, fresh) := draw i in
          match get_db_session (run_provision_job now fresh j) w with
          | (Ok _, w') => drain draw n (S i) (processed + 1) failed w'
          | (Raise e, w') =>
              if is_engine_error e then drain draw n (S i) (processed + 1) (failed + 1) w' else (Aborted e, w')
          end
      end
  end.
Definition drain_provision_queue (draw : nat → datetime * (nat → uuid)) : world database outside → drained * world database outside :=
  drain draw PROVISION_QUEUE_DRAIN_BATCH_SIZE 0 0 0.

(** ** Histories *)
Variable credential_rotator : option (pystr → pystr → pystr → pystr → bool).
Variable synthesize : uuid → pystr * pystr.
Variable ttl : Z.
Inductive command :=
| Configure (c : datetime * Provisioning.command)
| CreateJob (j k : uuid) (requesting template : option uuid) (retries : Z)
| StartJob (j : uuid) (requesting : option uuid)
| CancelJob (j : uuid) (requesting : option uuid)
| RetryJob (n j : uuid) (requesting : option uuid)
| RollbackJob (n j : uuid) (requesting : option uuid)
| PutTemplate (t : ProvisionTemplate).
Definition done_with {A} (m : device_op A) : device_op unit := _ ← m; mret tt.
Definition create_template (t : ProvisionTemplate) : op ProvisionTemplate :=
  clash ← gets (λ d, bool_decide (by_id (template_id t) (templates d) ≠ None));
  _ ← raise_if clash DuplicateRecordError;
  _ ← modify (set_templates (insert_row t));
  mret t.
Definition handle (c : command) : device_op unit :=
  match c with
  | Configure y => on_config (Provisioning.handle credential_rotator push_for_config synthesize ttl y)
  | CreateJob j k q t n => done_with (new_create_job j k q t n)
  | StartJob j q => done_with (start_job j q)
  | CancelJob j q => done_with (on_db (cancel_job j q))
  | RetryJob n j q => done_with (retry_job n j q)
  | RollbackJob n j q => done_with (rollback_job n j q)
  | PutTemplate t => done_with (on_db (create_template t))
  end.
(** A request, or a tick of the task. *)
Inductive event := Request (c : command) | Tick (draw : nat → datetime * (nat → uuid)).
Definition react (w : world database outside) (e : event) : world database outside :=
  match e with
  | Request c => (get_db_session (handle c) w).2
  | Tick draw => (drain_provision_queue draw w).2
  end.
Definition history (es : list event) (w : world database outside) : world database outside := fold_left react es w.

(** * Properties *)
(** ** What a run may change *)
Definition lineage (x : ProvisionJob) :=
  (job_id x, job_org x, job_router x, provision_template_id x, retry_count x, max_retries x, retry_of_job_id x,
   is_rollback x, rollback_of_job_id x, rollback_target_version_id x).
Record advances (j : uuid) (d d' : database) : Prop := {
  adv_jobs : ∃ g, (∀ x, lineage (g x) = lineage x) ∧ jobs d' = set_row g j (jobs d);
  adv_config : Provisioning.step (config d) (config d');
}.
#[local] Instance advances_preorder j : PreOrder (advances j).
Proof.
  split.
  - intros d. split; [|reflexivity]. exists (λ x, x). split; [done|]. by rewrite set_row_id.
  - intros d1 d2 d3 [(g & Hg & E1) C1] [(h & Hh & E2) C2]. split; [|by etrans]. exists (λ x, h (g x)).
    split; [intros x; by rewrite Hh, Hg|]. rewrite E2, E1. apply Provisioning.set_row_set_row.
    intros r. change (job_id (g r) = job_id r). specialize (Hg r). unfold lineage in Hg. congruence.
Qed.
(** Every run of [m] that returns, or raises what a step may fail by, relates
    its databases by [R]. *)
Definition settles_by (R : database → database → Prop) {A} (m : device_op A) : Prop :=
  ∀ w o w', m w = (o, w') → match o with Ok _ => True | Raise e => fails_the_step e = true end → R (db w) (db w').
Section settles.
Context (R : database → database → Prop) `{!PreOrder R}.
Lemma sb_bind {A B} (m : device_op A) (f : A → device_op B) : settles_by R m → (∀ a, settles_by R (f a)) → settles_by R (m ≫= f).
Proof.
  intros Hm Hf w o w' H Ho. unfold mbind, M_bind in H. destruct (m w) as [[a|e] w1] eqn:E.
  - etrans; [by apply (Hm _ _ _ E)|by eapply Hf].
  - injection H as <- <-. by apply (Hm _ _ _ E).
Qed.
Lemma sb_same {A} (m : device_op A) : (∀ w, db (m w).2 = db w) → settles_by R m.
Proof. intros Hm w o w' H _. specialize (Hm w). rewrite H in Hm. cbn in Hm. by rewrite Hm. Qed.
Lemma sb_ret {A} (a : A) : settles_by R (mret a).
Proof. by apply sb_same. Qed.
Lemma sb_raise {A} e : settles_by R (raise (A:=A) e).
Proof. by apply sb_same. Qed.
Lemma sb_raise_if b e : settles_by R (raise_if b e).
Proof. apply sb_same. by destruct b. Qed.
Lemma sb_of_option {A} (o : option A) e : settles_by R (of_option o e).
Proof. apply sb_same. by destruct o. Qed.
Lemma sb_device {A} (f : dev → outcome device_failure A * dev) : settles_by R (on_device f).
Proof. apply sb_same. intros w. unfold on_device. by destruct (f (ext w).1). Qed.
Lemma sb_reads {A} (m : op A) : reads m → settles_by R (on_db m).
Proof. intros Hm. apply sb_same. intros w. unfold on_db, zoom. specialize (Hm (db w)). destruct (m (db w)). by cbn in *. Qed.
Lemma sb_write {A} (m : op A) : (∀ d, R d (m d).2) → settles_by R (on_db m).
Proof.
  intros Hm w o w' H _. unfold on_db, zoom in H. specialize (Hm (db w)). destruct (m (db w)). by injection H as _ <-.
Qed.
End settles.
Lemma sb_config R {A} (m : M (world Provisioning.database dev) Provisioning.error A) :
  (∀ d d', Provisioning.step (config d) (config d') → jobs d' = jobs d → R d d') →
  (∀ w a w', m w = (Ok a, w') → Provisioning.step (Session.db w) (Session.db w')) → settles_by R (on_config m).
Proof.
  intros HR Hm w o w' H Ho. unfold on_config in H.
  destruct (m (World (config (db w)) (ext w).1)) as [[a|e] w1] eqn:E; injection H as <- <-; [|done].
  apply HR; [by apply (Hm _ _ _ E)|done].
Qed.
Section advancing.
Variable j : uuid.
Abbreviation adv := (settles_by (advances j)).
Lemma config_advances d d' : Provisioning.step (config d) (config d') → jobs d' = jobs d → advances j d d'.
Proof. intros Hc Hj. split; [|done]. exists (λ x, x). split; [done|]. by rewrite set_row_id. Qed.
Lemma adv_config_op {A} (m : Provisioning.op A) : Provisioning.keeps Provisioning.step m → adv (on_config (on_db m)).
Proof.
  intros Hm. apply sb_config; [apply config_advances|]. intros w a w' (d & H & ->)%on_db_Ok. by eapply Hm.
Qed.
Lemma adv_quiet {A} (m : Provisioning.op A) : Provisioning.keeps Provisioning.quiet m → adv (on_config (on_db m)).
Proof. intros Hm. apply adv_config_op. intros d a d' H. by eapply Provisioning.quiet_step, Hm. Qed.
Lemma adv_reads {A} (m : Provisioning.op A) : reads m → adv (on_config (on_db m)).
Proof. intros Hm. apply adv_config_op, Provisioning.keeps_reads; [typeclasses eauto|done]. Qed.
Lemma adv_fleet {A} (m : Router.op A) : (∀ f a f', m f = (Ok a, f') → Router.step f f') → adv (on_fleet m).
Proof. intros Hm. apply adv_quiet, Provisioning.keeps_fleet, Hm. Qed.
Lemma adv_router k q b : adv (on_fleet (Router.get_router k q b)).
Proof. apply adv_reads, Provisioning.router_reads. Qed.
Lemma adv_secret r : adv (on_fleet (Router.get_decrypted_api_secret r)).
Proof. apply adv_reads, Provisioning.on_fleet_reads, Router.decrypted_reads. Qed.
Ltac settle :=
  repeat match goal with
  | |- settles_by _ (_ ≫= _) => apply sb_bind; [typeclasses eauto| |intros ?]
  | |- settles_by _ (mret _) => apply sb_ret; typeclasses eauto
  | |- settles_by _ (raise _) => apply sb_raise; typeclasses eauto
  | |- settles_by _ (raise_if _ _) => apply sb_raise_if; typeclasses eauto
  | |- settles_by _ (of_option _ _) => apply sb_of_option; typeclasses eauto
  | |- settles_by _ (on_device _) => apply sb_device; typeclasses eauto
  | |- settles_by _ (on_fleet (Router.get_router _ _ _)) => apply adv_router
  | |- settles_by _ (on_fleet (Router.get_decrypted_api_secret _)) => apply adv_secret
  | |- settles_by _ (on_db _) => apply sb_reads; [typeclasses eauto|solve [auto with pres | by intros ?]]
  | |- settles_by _ (match ?x with _ => _ end) => destruct x
  end.
Lemma adv_credentials r : adv (_resolve_device_credentials r).
Proof. unfold _resolve_device_credentials. settle. Qed.
Lemma adv_discover now k q : adv (discover_device now k q).
Proof.
  unfold discover_device, ensure_not_controller_managed, get_device_adapter. settle; [apply adv_credentials|].
  apply adv_fleet. intros f z f'. apply Router.heartbeat_step.
Qed.
Lemma template_row_reads t : reads (_get_provision_template t).
Proof. unfold _get_provision_template. auto with pres. Qed.
Lemma adv_validate k q t : adv (validate_device k q t).
Proof.
  unfold validate_device, get_device_adapter. settle; [apply adv_credentials|apply sb_reads; [typeclasses eauto|apply template_row_reads]|..].
  - apply adv_reads, Provisioning.get_template_reads.
  - apply adv_reads. auto with pres.
Qed.
(** Reads, and then perhaps a write: nothing is written before an exception. *)
Definition clean {A} (m : Provisioning.op A) : Prop := ∀ d e d', m d = (Raise e, d') → d' = d.
Lemma clean_bind {A B} (m : Provisioning.op A) (f : A → Provisioning.op B) : reads m → (∀ a, clean (f a)) → clean (m ≫= f).
Proof.
  intros Hm Hf d e d' [H|(a & d1 & H1 & H2)]%bind_Raise.
  - specialize (Hm d). by rewrite H in Hm.
  - pose proof (reads_Ok _ _ _ _ H1 Hm) as ->. by eapply Hf.
Qed.
Lemma create_variable_clean k nonce s key value secret o l r q : clean (Provisioning.create_variable k nonce s key value secret o l r q).
Proof.
  unfold Provisioning.create_variable. apply clean_bind.
  { unfold Provisioning.validate_variable_scope. destruct s; auto with pres. }
  intros _. apply clean_bind; [apply Provisioning.fks_reads|]. intros [[o' l'] r'].
  repeat (apply clean_bind; [solve [auto with pres]|intros ?]). intros d e d' H. discriminate H.
Qed.
Lemma seed_keeps fresh l : ∀ i k q, Provisioning.keeps Provisioning.quiet (seed_variables fresh i l k q).
Proof.
  induction l as [|[key value] l IH]; intros i k q; cbn [seed_variables].
  - apply Provisioning.keeps_reads; [typeclasses eauto|apply reads_ret].
  - apply Provisioning.keeps_bind; [typeclasses eauto| |intros _; apply IH]. intros d a d' H. unfold suppress_duplicate in H.
    destruct (Provisioning.create_variable _ _ _ _ _ _ _ _ _ _ d) as [[v|e] d1] eqn:E.
    + injection H as _ <-. by eapply Provisioning.create_variable_quiet.
    + apply create_variable_clean in E as ->. destruct e; try done. injection H as _ <-. reflexivity.
Qed.
Lemma adv_generate fresh k q t : adv (generate_configuration fresh k q t).
Proof.
  unfold generate_configuration. settle; [apply sb_reads; [typeclasses eauto|apply template_row_reads]|..].
  - apply adv_quiet, seed_keeps.
  - apply adv_reads, Provisioning.get_template_reads.
  - by apply adv_reads.
  - by apply adv_reads.
Qed.
Lemma adv_apply now i x k v q : adv (on_config (Provisioning.apply_version push_for_config now i x k v q)).
Proof. apply sb_config; [apply config_advances|]. intros w a w'. apply Provisioning.apply_step. Qed.
Lemma adv_rollback now v i x k t q : adv (on_config (Provisioning.rollback_to_version push_for_config now v i x k t q)).
Proof. apply sb_config; [apply config_advances|]. apply Provisioning.rollback_step. Qed.
Lemma adv_list_versions k q n : adv (list_versions k q n).
Proof. unfold list_versions. settle. Qed.
Lemma adv_chosen now fresh k job : adv (chosen_version now fresh k job).
Proof.
  unfold chosen_version. settle; [apply adv_rollback|apply sb_reads; [typeclasses eauto|apply template_row_reads]|..].
  - apply adv_config_op, Provisioning.assign_profile_step.
  - apply adv_list_versions.
Qed.
(** Applying a version settles its job, which can then not be started. *)
Lemma refused_start now fresh k v q (w : world database outside) f w' : Provisioning.consistent (config (db w)) →
  ('(_, rp_job) ← on_config (Provisioning.apply_version push_for_config now (fresh 14%nat) (fresh 15%nat) k v q);
   _ ← on_config (on_db (Provisioning.start_provisioning_job (Provisioning.job_id rp_job))); f rp_job) w
  ≠ (Ok tt, w').
Proof.
  intros Hw H. apply bind_Ok in H as ([y rp_job] & w1 & Ha & H). apply bind_Ok in H as (started & w2 & Hs & _).
  unfold on_config in Ha. destruct (Provisioning.apply_version _ _ _ _ _ _ _ _) as [[p|e] x] eqn:E; [|done].
  injection Ha as -> <-. apply Provisioning.apply_step in E. destruct (E Hw) as [Hc _].
  unfold on_config, on_db, zoom in Hs. cbn [Session.db config set_config] in Hs.
  destruct (Provisioning.start_provisioning_job _ _) as [[z|e] d1] eqn:E'; [|done].
  by eapply Provisioning.start_refused.
Qed.
Lemma push_never_returns now fresh job (w : world database outside) w' : Provisioning.consistent (config (db w)) →
  _step_push_config now fresh job w ≠ (Ok tt, w').
Proof.
  intros Hw H. unfold _step_push_config in H. cbv zeta in H.
  apply bind_Ok in H as (r & w1 & H1 & H). apply bind_Ok in H as (c & w2 & H2 & H). apply bind_Ok in H as ([] & w3 & H3 & H).
  apply bind_Ok in H as (v & w4 & H4 & H).
  assert (advances j (db w) (db w4)) as Hadv.
  { assert (adv (on_db (get_device_adapter r))) as Hg
      by (apply sb_reads; [typeclasses eauto|unfold get_device_adapter; auto with pres]).
    etrans; [exact (adv_router _ _ _ _ _ _ H1 I)|]. etrans; [exact (adv_credentials _ _ _ _ H2 I)|].
    etrans; [exact (Hg _ _ _ H3 I)|]. exact (adv_chosen _ _ _ _ _ _ _ H4 I). }
  eapply refused_start; [|exact H]. by apply (adv_config j _ _ Hadv).
Qed.
Lemma adv_update f job : job_id job = j → (∀ x, lineage (f x) = lineage x) → adv (on_db (update_job f job)).
Proof.
  intros Hj Hf. apply sb_write. intros d. split; [|reflexivity]. exists f. split; [done|]. by rewrite <-Hj.
Qed.
Lemma adv_push now fresh job : job_id job = j → adv (_step_push_config now fresh job).
Proof.
  intros Hj. unfold _step_push_config, get_device_adapter. settle; [apply adv_credentials|apply adv_chosen|apply adv_apply|..].
  - apply adv_config_op. intros d1 z d2 H Hd. by destruct (Provisioning.start_refused _ _ _ _ Hd H).
  - apply adv_config_op. intros d1 z d2 H Hd. by destruct (Provisioning.complete_refused _ _ _ _ _ _ _ Hd H).
  - apply adv_config_op. intros d1 z d2 H Hd. by destruct (Provisioning.complete_refused _ _ _ _ _ _ _ Hd H).
  - by apply adv_update.
Qed.
Lemma adv_run_step now fresh job t : job_id job = j → adv (_run_step now fresh job t).
Proof.
  intros Hj. unfold _run_step. destruct t.
  - apply adv_discover.
  - apply adv_validate.
  - settle. apply adv_generate.
  - by apply adv_push.
  - unfold _step_verify_config, get_device_adapter. settle; [apply adv_credentials|apply adv_list_versions].
  - unfold _step_health_check, get_device_adapter. settle. apply adv_credentials.
  - unfold _step_register_monitoring. settle. apply adv_quiet, Provisioning.snapshot_quiet.
Qed.
Lemma adv_attempted m : adv m → adv (attempted m).
Proof.
  intros Hm w o w' H Ho. unfold attempted in H. destruct (m w) as [[[]|e] w1] eqn:E.
  - injection H as <- <-. by apply (Hm _ _ _ E).
  - destruct (fails_the_step e) eqn:Ef; injection H as <- <-; [by apply (Hm _ _ _ E)|].
    rewrite Ef in Ho. done.
Qed.
Lemma update_job_Ok f job (w : world database outside) job' w' : (∀ x, lineage (f x) = lineage x) →
  on_db (update_job f job) w = (Ok job', w') →
  job_id job' = job_id job ∧ w' = World (set_jobs (set_row f (job_id job)) (db w)) (ext w).
Proof.
  intros Hf (d & H & ->)%on_db_Ok. unfold update_job in H. erewrite bind_step in H by (unfold modify; reflexivity).
  erewrite bind_step in H by (unfold gets; reflexivity). injection H as <- <-. split; [|done].
  destruct (by_id _ _) as [x|] eqn:E; [by apply by_id_Some in E as [_ E]|]. specialize (Hf job). unfold lineage in Hf. cbn. congruence.
Qed.
Lemma advances_has_row d d' : advances j d d' → by_id j (jobs d) ≠ None → by_id j (jobs d') ≠ None.
Proof.
  intros [(g & Hg & ->) _] Hj. rewrite by_id_set_row, decide_True; [|done|].
  - destruct (by_id j (jobs d)); [done|]. by destruct Hj.
  - intros x. change (job_id (g x) = job_id x). specialize (Hg x). unfold lineage in Hg. congruence.
Qed.
Lemma advances_consistent d d' : advances j d d' → Provisioning.consistent (config d) → Provisioning.consistent (config d').
Proof. intros [_ Hc] H. by apply Hc. Qed.
(** A run does not get past the push. *)
Lemma run_steps_fail now fresh l : ∀ i job (w : world database outside) job' b w', PUSH_CONFIG ∈ l → job_id job = j →
  Provisioning.consistent (config (db w)) → by_id j (jobs (db w)) ≠ None →
  run_steps now fresh i l job w = (Ok (job', b), w') →
  b = false ∧ advances j (db w) (db w') ∧ job_status <$> by_id j (jobs (db w')) = Some FAILED.
Proof.
  induction l as [|t l IH]; intros i job w job' b w' Hpush Hj Hw Hrow H; [by apply not_elem_of_nil in Hpush|].
  cbn [run_steps] in H. apply bind_Ok in H as (job1 & w1 & H1 & H).
  assert (∀ x, lineage (with_status (STEP_TYPE_TO_JOB_STATUS t) (with_progress (Some t) (Z.of_nat i * 100 / total_steps) x)) = lineage x)
    as Hf by done.
  pose proof (adv_update _ job Hj Hf _ _ _ H1 I) as A1. apply (update_job_Ok _ _ _ _ _ Hf) in H1 as [Hj1 _]. rewrite Hj in Hj1.
  apply bind_Ok in H as (x & w2 & H2 & H). apply bind_Ok in H as (failure & w3 & H3 & H).
  assert (advances j (db w1) (db w2)) as A2.
  { apply on_db_Ok in H2 as (d & H2 & ->). unfold create_step in H2.
    erewrite bind_step in H2 by (unfold gets; reflexivity). rewrite raise_if_bind in H2. case_bool_decide; [done|].
    erewrite bind_step in H2 by (unfold modify; reflexivity). injection H2 as _ <-. apply config_advances; [reflexivity|done]. }
  pose proof (adv_attempted _ (adv_run_step now fresh job1 t Hj1) _ _ _ H3 I) as A3.
  assert (advances j (db w) (db w3)) as A by (etrans; [done|]; by etrans).
  destruct failure as [e|].
  - apply bind_Ok in H as ([] & w4 & H4 & H). apply bind_Ok in H as (job2 & w5 & H5 & H). injection H as <- <- <-.
    assert (jobs (db w4) = jobs (db w3) ∧ config (db w4) = config (db w3)) as [Hjobs4 Hcfg4].
    { apply on_db_Ok in H4 as (d & H4 & ->). by injection H4 as <-. }
    apply (update_job_Ok (with_status FAILED)) in H5 as [_ ->]; [|done]. rewrite Hj1. split; [done|]. cbn [db]. split.
    + etrans; [exact A|]. split; [|cbn; rewrite Hcfg4; reflexivity]. exists (with_status FAILED). split; [done|]. cbn. by rewrite Hjobs4.
    + cbn [jobs set_jobs]. rewrite by_id_set_row, decide_True, Hjobs4 by done.
      pose proof (advances_has_row _ _ A Hrow). by destruct (by_id j (jobs (db w3))).
  - apply bind_Ok in H as ([] & w4 & H4 & H).
    assert (jobs (db w4) = jobs (db w3) ∧ config (db w4) = config (db w3)) as [Hjobs4 Hcfg4].
    { apply on_db_Ok in H4 as (d & H4 & ->). by injection H4 as <-. }
    assert (advances j (db w) (db w4)) as A4 by (etrans; [exact A|]; apply config_advances; [rewrite Hcfg4; reflexivity|done]).
    apply elem_of_cons in Hpush as [<-|Hpush].
    + exfalso. unfold attempted in H3. destruct (_run_step _ _ _ _ _) as [[[]|e] w5] eqn:E; [|by destruct (fails_the_step e)].
      apply push_never_returns in E; [done|]. eapply advances_consistent; [|exact Hw]. by transitivity (db w1).
    + destruct (IH _ _ _ _ _ _ Hpush Hj1 (advances_consistent _ _ A4 Hw) (advances_has_row _ _ A4 Hrow) H) as (-> & A5 & Hst).
      split; [done|]. split; [by etrans|done].
Qed.
Lemma run_fails now fresh (w : world database outside) job w' : Provisioning.consistent (config (db w)) →
  run_provision_job now fresh j w = (Ok job, w') →
  advances j (db w) (db w') ∧ job_status <$> by_id j (jobs (db w')) = Some FAILED.
Proof.
  intros Hw H. unfold run_provision_job in H. rewrite on_db_gets in H. cbv beta in H.
  destruct (by_id j (jobs (db w))) as [x|] eqn:Hx; [|done]. apply bind_Ok in H as (x' & wx & Hgx & H). injection Hgx as <- <-.
  pose proof (by_id_Some _ _ _ Hx) as [_ Hid]. change (job_id x = j) in Hid.
  apply bind_Ok in H as (job1 & w1 & H1 & H).
  pose proof (adv_update (with_status RUNNING) x Hid ltac:(done) _ _ _ H1 I) as A1.
  apply update_job_Ok in H1 as [Hj1 _]; [|done]. rewrite Hid in Hj1.
  apply bind_Ok in H as ([job2 b] & w2 & H2 & H).
  apply run_steps_fail in H2 as (-> & A2 & Hst); [|right; right; right; left|done|by eapply advances_consistent|].
  - injection H as <- <-. split; [by etrans|done].
  - eapply advances_has_row; [exact A1|]. by rewrite Hx.
Qed.
End advancing.

(** ** The queue, which a run leaves alone *)
Definition same_queue (w w' : world database outside) : Prop := (ext w').2 = (ext w).2.
#[local] Instance same_queue_preorder : PreOrder same_queue.
Proof. split; [by intros w|]. intros w1 w2 w3 H1 H2. unfold same_queue in *. congruence. Qed.
Abbreviation idle := (respects same_queue).
Lemma idle_db {A} (m : op A) : idle (on_db m).
Proof. intros w. unfold on_db, zoom, same_queue. by destruct (m (db w)). Qed.
Lemma idle_config {A} (m : M (world Provisioning.database dev) Provisioning.error A) : idle (on_config m).
Proof. intros w. unfold on_config, same_queue. by destruct (m _). Qed.
Lemma idle_device {A} (f : dev → outcome device_failure A * dev) : idle (on_device f).
Proof. intros w. unfold on_device, same_queue. by destruct (f _). Qed.
Ltac idles :=
  repeat match goal with
  | |- respects _ (_ ≫= _) => apply respects_bind; [typeclasses eauto| |intros ?]
  | |- respects _ (on_db _) => apply idle_db
  | |- respects _ (on_config _) => apply idle_config
  | |- respects _ (on_fleet _) => apply idle_config
  | |- respects _ (on_device _) => apply idle_device
  | |- respects _ (match ?x with _ => _ end) => destruct x
  | |- respects _ _ => solve [auto with pres]
  end.
Lemma idle_credentials r : idle (_resolve_device_credentials r).
Proof. unfold _resolve_device_credentials. idles. Qed.
Lemma idle_list_versions k q n : idle (list_versions k q n).
Proof. unfold list_versions. idles. Qed.
Lemma idle_step now fresh job t : idle (_run_step now fresh job t).
Proof.
  unfold _run_step, discover_device, validate_device, generate_configuration, _step_push_config, chosen_version, _step_verify_config,
    _step_health_check, _step_register_monitoring.
  destruct t; repeat first [apply idle_credentials | apply idle_list_versions | progress idles].
Qed.
Lemma idle_attempted m : idle m → idle (attempted m).
Proof. intros Hm w. specialize (Hm w). unfold attempted. destruct (m w) as [[[]|e] w']; [done|]. by destruct (fails_the_step e). Qed.
Lemma idle_steps now fresh l : ∀ i job, idle (run_steps now fresh i l job).
Proof.
  induction l as [|t l IH]; intros i job; cbn [run_steps]; [idles|].
  idles; first [apply idle_attempted, idle_step | apply IH].
Qed.
Lemma idle_run now fresh j : idle (run_provision_job now fresh j).
Proof. unfold run_provision_job. idles. apply idle_steps. Qed.
Lemma rpop_snoc q : match rpop q with None => q = [] | Some (j, q') => q = q' ++ [j] end.
Proof.
  unfold rpop. destruct (rev q) as [|j l] eqn:E.
  - by rewrite <-(rev_involutive q), E.
  - rewrite <-(rev_involutive q), E. done.
Qed.
(** A tick takes something off a queue that is not empty, and puts nothing on
    it. *)
Lemma drain_shrinks draw n : ∀ i processed failed (w : world database outside),
  ∃ rest, (ext w).2 = (ext (drain draw n i processed failed w).2).2 ++ rest ∧ (length rest ≤ n)%nat
  ∧ ((ext w).2 ≠ [] → n ≠ O → rest ≠ [])
  ∧ match (drain draw n i processed failed w).1 with
    | Drained p f => p = processed + Z.of_nat (length rest) ∧ (length rest = n ∨ (ext (drain draw n i processed failed w).2).2 = [])
    | Aborted e => is_engine_error e = false
    end.
Proof.
  induction n as [|n IH]; intros i processed failed w; cbn [drain].
  { exists []. rewrite app_nil_r. split_and!; cbn; first [done | lia | by left | split; [lia|by left]]. }
  pose proof (rpop_snoc (ext w).2) as Hq. destruct (rpop (ext w).2) as [[j q]|].
  2:{ exists []. rewrite app_nil_r. split_and!; cbn; first [done | lia | by right | split; [lia|by right]]. }
  cbv zeta. destruct (draw i) as [now fresh]. set (w0 := World (db w) ((ext w).1, q)).
  pose proof (idle_run now fresh j w0) as Hidle. unfold get_db_session.
  destruct (run_provision_job now fresh j w0) as [[job|e] w1] eqn:E; unfold same_queue in Hidle; cbn [fst snd ext w0] in Hidle.
  - destruct (IH (S i) (processed + 1) failed w1) as (rest & H1 & H2 & _ & H3). exists (rest ++ [j]). rewrite app_assoc, <-H1, Hidle.
    rewrite length_app. cbn [length]. split_and!; [done|lia|by destruct rest|].
    destruct (drain draw n (S i) (processed + 1) failed w1) as [[p f|e] w2]; [|done]. cbn [fst snd] in *. destruct H3 as [-> H3]. split; [lia|].
    destruct H3; [left; lia|by right].
  - destruct (is_engine_error e) eqn:Ee.
    + match goal with |- context [drain draw n (S i) _ _ ?x] => set (w2 := x) end.
      destruct (IH (S i) (processed + 1) (failed + 1) w2) as (rest & H1 & H2 & _ & H3).
      exists (rest ++ [j]). change (ext w2) with (ext w1) in H1. rewrite app_assoc, <-H1, Hidle.
      rewrite length_app. cbn [length]. split_and!; [done|lia|by destruct rest|].
      destruct (drain draw n (S i) (processed + 1) (failed + 1) w2) as [[p f|e'] w3]; [|done]. cbn [fst snd] in *.
      destruct H3 as [-> H3]. split; [lia|]. destruct H3; [left; lia|by right].
    + exists [j]. cbn [fst snd ext]. rewrite Hidle. split_and!; [done|cbn; lia|done|done].
Qed.

Lemma tick_shrinks draw (w : world database outside) :
  ∃ rest, (ext w).2 = (ext (drain_provision_queue draw w).2).2 ++ rest ∧ (length rest ≤ PROVISION_QUEUE_DRAIN_BATCH_SIZE)%nat
  ∧ ((ext w).2 ≠ [] → rest ≠ []).
Proof.
  unfold drain_provision_queue. assert (PROVISION_QUEUE_DRAIN_BATCH_SIZE ≠ O) as Hn by done. revert Hn.
  generalize PROVISION_QUEUE_DRAIN_BATCH_SIZE. intros n Hn. destruct (drain_shrinks draw n 0 0 0 w) as (rest & H1 & H2 & H3 & _). exists rest.
  split_and!; [done|done|]. intros Hq. by apply H3.
Qed.

(** ** The invariant *)
Definition committed : list ProvisionJobStatus := [PENDING; QUEUED; FAILED; CANCELLED].
(** What [x] inherits from the job it retries. *)
Definition retries (d : database) (x : ProvisionJob) : Prop :=
  match retry_of_job_id x with
  | None => retry_count x = 1
  | Some p => ∃ y, by_id p (jobs d) = Some y ∧ retry_count x = retry_count y + 1 ∧ max_retries x = max_retries y
              ∧ job_router x = job_router y ∧ retry_count x ≤ max_retries x
  end.
Record governed (d : database) : Prop := {
  gov_config : Provisioning.consistent (config d);
  gov_jobs : keyed (jobs d);
  gov_status : ∀ x, x ∈ jobs d → job_status x ∈ committed;
  gov_retries : ∀ x, x ∈ jobs d → retries d x;
}.
Lemma lineage_id x y : lineage x = lineage y → job_id x = job_id y.
Proof. unfold lineage. congruence. Qed.
Lemma retries_ext d d' x x' : lineage x' = lineage x → (∀ p y, by_id p (jobs d) = Some y → ∃ y', by_id p (jobs d') = Some y' ∧ lineage y' = lineage y) →
  retries d x → retries d' x'.
Proof.
  intros Hx Hj H. unfold lineage in Hx. injection Hx as ? ? Hr ? Hc Hm Hp ? ? ?. unfold retries in *. rewrite Hp, Hc, Hm, Hr.
  destruct (retry_of_job_id x) as [p|]; [|done]. destruct H as (y & Hy & ? & ? & ? & ?).
  apply Hj in Hy as (y' & Hy' & Hl). exists y'. unfold lineage in Hl. injection Hl as ? ? ? ? ? ? ? ? ? ?.
  split_and!; congruence || lia.
Qed.
Lemma governed_written g j d d' : governed d → (∀ x, lineage (g x) = lineage x) → jobs d' = set_row g j (jobs d) →
  (∀ x, by_id j (jobs d) = Some x → job_status (g x) ∈ committed) →
  Provisioning.step (config d) (config d') → governed d'.
Proof.
  intros [Hc Hk Hs Hr] Hg Hj Hst Hcfg.
  assert (∀ x, row_id (g x) = row_id x) as Hid by (intros x; by apply lineage_id).
  assert (∀ x, x ∈ jobs d' → ∃ y, y ∈ jobs d ∧ lineage x = lineage y ∧ job_status x ∈ committed) as Hrow.
  { rewrite Hj. intros x (y & Hy & ->)%elem_of_update. exists y. split; [done|]. unfold has_id. case_bool_decide as E; [|auto].
    split; [apply Hg|]. apply Hst. by apply by_id_unique. }
  split.
  - by apply Hcfg.
  - rewrite Hj. by apply keyed_set_row.
  - intros x (y & _ & _ & H)%Hrow. done.
  - intros x (y & Hy & Hl & _)%Hrow. eapply (retries_ext d); [done| |by apply Hr].
    intros p z Hz. rewrite Hj, by_id_set_row by done. destruct (decide (j = p)) as [->|]; [|by exists z].
    exists (g z). by rewrite Hz.
Qed.
Lemma governed_same d d' : governed d → jobs d' = jobs d → Provisioning.step (config d) (config d') → governed d'.
Proof.
  intros Hd Hj Hc. eapply (governed_written (λ x, x) 1); [done|done|by rewrite set_row_id| |done].
  intros x Hx%Provisioning.elem_of_by_id. by apply (gov_status d).
Qed.
Lemma governed_insert x d : governed d → by_id (job_id x) (jobs d) = None → job_status x ∈ committed → retries d x →
  governed (set_jobs (insert_row x) d).
Proof.
  intros [Hc Hk Hs Hr] Hx Hst Hre. split; cbn [config jobs set_jobs].
  - done.
  - by apply keyed_insert.
  - intros y [Hy| ->%list_elem_of_singleton]%elem_of_app; [by apply Hs|done].
  - intros y Hy. assert (retries d y) as Hy' by (apply elem_of_app in Hy as [Hy|Hy%list_elem_of_singleton]; [by apply Hr|by subst y]).
    eapply (retries_ext d); [done| |done]. intros p z Hz. cbn [jobs set_jobs]. rewrite by_id_insert, Hz. by exists z.
Qed.
Lemma create_job_Ok x d y d' : create_job x d = (Ok y, d') → by_id (job_id x) (jobs d) = None ∧ y = x ∧ d' = set_jobs (insert_row x) d.
Proof.
  unfold create_job. erewrite bind_step by (unfold gets; reflexivity). rewrite raise_if_bind. case_bool_decide as E; [done|].
  erewrite bind_step by (unfold modify; reflexivity). intros [= <- <-]. split_and!; [|done..]. by destruct (by_id _ _).
Qed.
Lemma governed_start j q (w : world database outside) x w' : governed (db w) → start_job j q w = (Ok x, w') → governed (db w').
Proof.
  intros Hd H. unfold start_job in H. apply bind_Ok in H as (job & w1 & H1 & H). apply bind_Ok in H as ([] & w2 & H2 & H).
  assert (db w2 = db w) as Hw2.
  { transitivity (db w1).
    - apply on_db_Ok in H2 as (d & H2 & ->). cbn. by rewrite (reads_Ok _ _ _ _ H2) by (unfold _validate_job_transition; auto with pres).
    - apply on_db_Ok in H1 as (d & H1 & ->). cbn. rewrite (reads_Ok _ _ _ _ H1); [done|]. unfold get_job. auto with pres. }
  apply bind_Ok in H as (updated & w3 & H3 & H). apply update_job_Ok in H3 as [_ ->]; [|done].
  apply bind_Ok in H as ([] & w4 & H4 & H). injection H as _ <-.
  assert (db w4 = set_jobs (set_row (with_status QUEUED) (job_id job)) (db w2)) as ->.
  { unfold enqueue, on_ext, zoom, modify in H4. by injection H4 as <-. }
  eapply (governed_written (with_status QUEUED)); [exact Hd|done|by rewrite Hw2| |rewrite Hw2; reflexivity].
  intros y _. cbn. unfold committed. set_solver.
Qed.
(** *** Requests *)
Definition kept {A} (m : device_op A) : Prop := ∀ w a w', m w = (Ok a, w') → db w' = db w.
Lemma kept_reads {A} (m : op A) : reads m → kept (on_db m).
Proof. intros Hm w a w' (d & H & ->)%on_db_Ok. by rewrite (reads_Ok _ _ _ _ H Hm). Qed.
Lemma kept_bind {A B} (m : device_op A) (f : A → device_op B) : kept m → (∀ a, kept (f a)) → kept (m ≫= f).
Proof. intros Hm Hf w b w' (a & w1 & H1%Hm & H2%Hf)%bind_Ok. congruence. Qed.
Lemma kept_of_option {A} (o : option A) e : kept (of_option o e).
Proof. intros w a w'. destruct o; [by intros [= _ <-]|done]. Qed.
Lemma kept_router k q b : kept (on_fleet (Router.get_router k q b)).
Proof.
  intros w r w' H. unfold on_fleet, on_config, on_db, zoom in H. cbn in H.
  destruct (Provisioning.on_fleet _ _) as [[x|e] d] eqn:E; [|done]. apply Provisioning.look_up in E as [-> _].
  injection H as _ <-. by destruct (db w).
Qed.
Lemma kept_list_versions k q n : kept (list_versions k q n).
Proof.
  unfold list_versions. apply kept_bind; [apply kept_router|intros r]. apply kept_bind; [by apply kept_reads|intros d w a w' [= _ <-]]. done.
Qed.
Lemma get_job_Ok j q (w : world database outside) x w' : on_db (get_job j q) w = (Ok x, w') → db w' = db w ∧ by_id j (jobs (db w)) = Some x.
Proof.
  intros (d & H & ->)%on_db_Ok. unfold get_job in H. erewrite bind_step in H by (unfold gets; reflexivity). rewrite of_option_bind in H.
  destruct (by_id j (jobs (db w))) as [y|]; [|done]. apply bind_Ok in H as ([] & d1 & H1 & H).
  pose proof (reads_Ok _ _ _ _ H1 (reads_raise_if _ _)) as ->. by injection H as <- <-.
Qed.
Lemma governed_create x (w : world database outside) y w' : governed (db w) → job_status x ∈ committed → retries (db w) x →
  on_db (create_job x) w = (Ok y, w') → governed (db w') ∧ y = x ∧ db w' = set_jobs (insert_row x) (db w).
Proof.
  intros Hd Hs Hr (d & (Hn & -> & ->)%create_job_Ok & ->)%on_db_Ok. split_and!; [|done..]. by apply governed_insert.
Qed.
Lemma done_with_Ok {A} (m : device_op A) w w' : done_with m w = (Ok tt, w') → ∃ a, m w = (Ok a, w').
Proof. intros (a & w1 & H & Hw)%bind_Ok. injection Hw as <-. by exists a. Qed.
Lemma governed_new j k q t n (w : world database outside) x w' : governed (db w) → new_create_job j k q t n w = (Ok x, w') → governed (db w').
Proof.
  intros Hd H. unfold new_create_job in H. apply bind_Ok in H as (r & w1 & H1%kept_router & H).
  apply bind_Ok in H as ([] & w2 & H2 & H). pose proof (kept_reads _ (reads_raise_if _ _) _ _ _ H2) as E2.
  apply bind_Ok in H as ([] & w3 & H3 & H).
  assert (db w3 = db w2) as E3 by (eapply kept_reads, H3; destruct t; auto with pres).
  assert (db w3 = db w) as E by congruence. rewrite <-E in Hd. eapply governed_create in H as [H _]; [exact H|exact Hd|left|done].
Qed.
Lemma governed_cancel j q (w : world database outside) x w' : governed (db w) → on_db (cancel_job j q) w = (Ok x, w') → governed (db w').
Proof.
  intros Hd (d & H & ->)%on_db_Ok. cbn. unfold cancel_job in H. apply bind_Ok in H as (job & d1 & H1 & H).
  pose proof (reads_Ok _ _ _ _ H1 ltac:(unfold get_job; auto with pres)) as ->.
  apply bind_Ok in H as ([] & d1 & H2 & H). pose proof (reads_Ok _ _ _ _ H2 ltac:(unfold _validate_job_transition; auto with pres)) as ->.
  apply bind_Ok in H as (y & d2 & H3 & H). apply bind_Ok in H as ([] & d3 & H4 & H). injection H as _ <-. injection H4 as <-.
  unfold update_job in H3. erewrite bind_step in H3 by (unfold modify; reflexivity).
  erewrite bind_step in H3 by (unfold gets; reflexivity). injection H3 as _ <-.
  eapply (governed_written (with_status CANCELLED)); [exact Hd|done|done| |reflexivity].
  intros z _. cbn. unfold committed. set_solver.
Qed.
Lemma governed_retry n j q (w : world database outside) x w' : governed (db w) → retry_job n j q w = (Ok x, w') → governed (db w').
Proof.
  intros Hd H. unfold retry_job in H. apply bind_Ok in H as (job & w1 & [E1 Hjob]%get_job_Ok & H).
  apply bind_Ok in H as ([] & w2 & H2 & H). pose proof (kept_reads _ (reads_raise_if _ _) _ _ _ H2) as E2.
  apply bind_Ok in H as ([] & w3 & H3 & H). pose proof (kept_reads _ (reads_raise_if _ _) _ _ _ H3) as E3.
  assert (db w3 = db w) as E by congruence. apply on_db_Ok in H3 as (d3 & H3 & _).
  destruct (max_retries job <=? retry_count job) eqn:Hlim; [done|]. apply Z.leb_gt in Hlim.
  apply bind_Ok in H as (new & w4 & H4 & H). rewrite <-E in Hd, Hjob. pose proof (by_id_Some _ _ _ Hjob) as [_ Hid].
  eapply governed_create in H4 as (H4 & _); [|done|left|].
  - by eapply governed_start.
  - exists job. cbn. split_and!; [by change (job_id job = j) in Hid; rewrite Hid|done..|lia].
Qed.
Lemma governed_rollback n j q (w : world database outside) x w' : governed (db w) → rollback_job n j q w ≠ (Ok x, w').
Proof.
  intros Hd H. unfold rollback_job in H. apply bind_Ok in H as (job & w1 & [E1 Hjob]%get_job_Ok & H).
  rewrite on_db_guard in H. case_bool_decide as Hs; [done|]. apply Provisioning.elem_of_by_id in Hjob.
  apply (gov_status _ Hd) in Hjob. unfold committed, ROLLBACKABLE_JOB_STATUSES in *. apply list_elem_of_singleton in Hs. rewrite Hs in Hjob. set_solver.
Qed.
Lemma handle_governed c (w : world database outside) w' : governed (db w) → handle c w = (Ok tt, w') → governed (db w').
Proof.
  intros Hd H. destruct c; cbn [handle] in H; try apply done_with_Ok in H as [x H].
  - unfold on_config in H. destruct (Provisioning.handle _ _ _ _ _ _) as [[[]|e] w1] eqn:E; [|done]. injection H as <-.
    apply Provisioning.command_step in E. by eapply governed_same.
  - by eapply governed_new.
  - by eapply governed_start.
  - by eapply governed_cancel.
  - by eapply governed_retry.
  - by apply governed_rollback in H.
  - apply on_db_Ok in H as (d & H & ->). unfold create_template in H. erewrite bind_step in H by (unfold gets; reflexivity).
    rewrite raise_if_bind in H. case_bool_decide; [done|]. erewrite bind_step in H by (unfold modify; reflexivity).
    injection H as _ <-. by eapply governed_same.
Qed.
Lemma run_governed now fresh j (w : world database outside) job w' : governed (db w) →
  run_provision_job now fresh j w = (Ok job, w') → governed (db w').
Proof.
  intros Hd H. apply run_fails in H as [[(g & Hg & Hj) Hc] Hst]; [|by apply gov_config].
  eapply governed_written; [exact Hd|exact Hg|exact Hj| |exact Hc]. intros x Hx.
  rewrite Hj, by_id_set_row, decide_True, Hx in Hst by (try done; intros y; by apply lineage_id). injection Hst as ->.
  unfold committed. set_solver.
Qed.
Lemma drain_governed draw n : ∀ i p f (w : world database outside), governed (db w) → governed (db (drain draw n i p f w).2).
Proof.
  induction n as [|n IH]; intros i p f w Hd; cbn [drain]; [done|]. destruct (rpop (ext w).2) as [[j q]|]; [|done].
  cbv zeta. destruct (draw i) as [now fresh]. unfold get_db_session.
  destruct (run_provision_job _ _ _ _) as [[job|e] w1] eqn:E.
  - apply IH. by apply run_governed in E.
  - destruct (is_engine_error e); [by apply IH|done].
Qed.
Lemma history_governed es (w : world database outside) : governed (db w) → governed (db (history es w)).
Proof.
  revert w. induction es as [|e es IH]; intros w Hd; [done|]. apply IH. destruct e as [c|draw]; cbn [react].
  - unfold get_db_session. destruct (handle c w) as [[[]|e] w1] eqn:E; [by eapply handle_governed|done].
  - by apply drain_governed.
Qed.

(** * Claims *)
(** Over any history of requests and ticks of the task, with the service as
    the application wires it, no provisioning job ever succeeds, nor is one ever committed as running: every job is
    pending, queued, failed or cancelled.  A run that returns at all has
    failed its job.  The configuration service stays consistent throughout. *)
Theorem no_provisioning_job_succeeds es (w : world database outside) : governed (db w) →
  (∀ x, x ∈ jobs (db (history es w)) → job_status x ∈ [PENDING; QUEUED; FAILED; CANCELLED])
  ∧ Provisioning.consistent (config (db (history es w)))
  ∧ ∀ now fresh j job w', run_provision_job now fresh j (history es w) = (Ok job, w') →
      job_status <$> by_id j (jobs (db w')) = Some FAILED.
Proof.
  intros Hd. pose proof (history_governed es w Hd) as Hg. split_and!; [apply (gov_status _ Hg)|apply Hg|].
  intros now fresh j job w' H. by apply run_fails in H as [_ H]; [|apply Hg].
Qed.

(** [retried d x n z]: [z] is the last of [n] retries, each of the one before,
    that began with [x]. *)
Inductive retried (d : database) (x : ProvisionJob) : nat → ProvisionJob → Prop :=
| retried_none : retried d x 0 x
| retried_more n y z : retried d x n y → z ∈ jobs d → retry_of_job_id z = Some (job_id y) → retried d x (S n) z.
(** C39: Retrying ends: over any history a chain of retries, each of the job
    before it, has at most [max_retries - retry_count] members beyond the job
    it began with, and all of them are for the same router. *)
Theorem retries_end es (w : world database outside) : governed (db w) →
  ∀ x n z, x ∈ jobs (db (history es w)) → retried (db (history es w)) x n z →
    job_router z = job_router x ∧ retry_count z = retry_count x + Z.of_nat n
    ∧ (n ≠ O → retry_count x + Z.of_nat n ≤ max_retries x).
Proof.
  intros Hd. pose proof (history_governed es w Hd) as Hg. set (d := db (history es w)) in *. intros x n z Hx Hch.
  enough (z ∈ jobs d ∧ max_retries z = max_retries x ∧ job_router z = job_router x ∧ retry_count z = retry_count x + Z.of_nat n
          ∧ (n ≠ O → retry_count x + Z.of_nat n ≤ max_retries x)) as (_ & _ & H) by exact H.
  induction Hch as [|n y z Hch (Hy & Hmax & Hr & Hn & _) Hz Hof]; [split_and!; first [done|lia]|].
  pose proof (gov_retries _ Hg z Hz) as Hre. unfold retries in Hre. rewrite Hof in Hre. destruct Hre as (y' & Hy' & Hc & Hm & Hrr & Hle).
  assert (y' = y) as ->.
  { apply by_id_Some in Hy' as [Hin Hid]. by apply (NoDup_map_eq row_id (jobs d)); [apply Hg|..]. }
  split_and!; [done|congruence..|lia|lia].
Qed.

Lemma react_tick (w : world database outside) draw : react w (Tick draw) = (drain_provision_queue draw w).2.
Proof. reflexivity. Qed.
Lemma history_cons e es (w : world database outside) : history (e :: es) w = history es (react w e).
Proof. reflexivity. Qed.
(** C40: The queue does not get stuck: a tick takes at most fifty jobs off it,
    at least one if there is any, and puts none on it, whatever becomes of the
    runs; so as many ticks as there are jobs leave it empty. *)
Theorem queue_is_drained draws (w : world database outside) :
  (∀ draw, ∃ taken, (ext w).2 = (ext (react w (Tick draw))).2 ++ taken ∧ (length taken ≤ 50)%nat
     ∧ (taken = [] → (ext w).2 = []))
  ∧ ((length (ext w).2 ≤ length draws)%nat → (ext (history (map Tick draws) w)).2 = []).
Proof.
  split.
  { intros draw. rewrite react_tick. destruct (tick_shrinks draw w) as (taken & H & Hl & Hne). exists taken. split_and!; [done..|].
    intros ->. destruct (decide ((ext w).2 = [])) as [E|E]; [done|]. by destruct (Hne E). }
  revert w. induction draws as [|draw draws IH]; intros w Hl; [apply length_zero_iff_nil, Nat.le_0_r; exact Hl|].
  cbn [map]. rewrite history_cons. apply IH. rewrite react_tick.
  destruct (tick_shrinks draw w) as (taken & H & _ & Hne). cbn [length] in Hl. rewrite H, length_app in Hl.
  destruct (decide ((ext w).2 = [])) as [E|E].
  - rewrite E in H. symmetry in H. apply app_eq_nil in H as [-> _]. apply Nat.le_0_l.
  - specialize (Hne E). destruct taken; [done|]. cbn [length] in Hl. lia.
Qed.
End engine.

(** * Examples *)
Module examples.
#[local] Existing Instance ascii_only.
#[local] Existing Instance Auth.examples.toy.
#[local] Existing Instance Ip.no_v6.
#[local] Existing Instances Provisioning.version_status_eq_dec Provisioning.job_status_eq_dec Provisioning.version_has_id.
(** A healthy device that remembers what was imported. *)
#[local] Instance remembering : Adapter (list (list N)) := {|
  discover := λ _ x, (Ok None, x);
  push_config := λ _ content x, (Ok tt, content :: x);
  verify_config := λ _ content x, (Ok (bool_decide (head x = Some content)), x);
  health_check := λ _ x, (Ok true, x);
|}.
Definition drawn (n : N) : datetime * (nat → uuid) := (1, λ i, (100 * N.succ_pos n + Pos.of_succ_nat i)%positive).
Definition draft : Provisioning.ConfigVersion := Provisioning.mk_version 40 1 None 1 (u "one") Provisioning.DRAFT None None false.
Definition d : database := mk_database (Provisioning.set_versions (λ _, [draft]) Provisioning.examples.d) [] [] [].
Definition w : world database (outside (dev:=list (list N))) := World d ([], []).
Lemma governed_d : governed d.
Proof.
  split; [|by apply (bool_decide_unpack _); vm_compute|by intros x Hx%not_elem_of_nil|by intros x Hx%not_elem_of_nil].
  split; try (apply (bool_decide_unpack _); by vm_compute).
  intros k. unfold select. cbn. unfold Provisioning.of_router. cbn. by case_bool_decide.
Qed.
Definition run (es : list event) : world database (outside (dev:=list (list N))) → world database (outside (dev:=list (list N))) :=
  history (λ _, true) None (λ _, ([], [])) 24 es.
Definition queued : list event := [Request (CreateJob 70 1 None None 2); Request (StartJob 70 None)].
Definition ticked (n : N) : event := Tick (λ i, drawn (100 * n + N.of_nat i)).
(** The device takes the configuration, and then the job that is already
    finished is started again: the tick ends with an exception nobody expects,
    the rows are those of before, and the job is queued but in no queue. *)
Lemma job_is_lost_after_the_push :
  let w' := run (queued ++ [ticked 1]) w in
  (drain_provision_queue (λ _, true) (λ i, drawn (N.of_nat i)) (run queued w)).1
    = Aborted (OfConfiguration Provisioning.InvalidProvisioningJobStatusTransitionError)
  ∧ ext w' = ([u "one"], []) ∧ job_status <$> by_id 70 (jobs (db w')) = Some QUEUED
  ∧ Provisioning.version_status <$> by_id 40 (Provisioning.versions (config (db w'))) = Some Provisioning.DRAFT.
Proof. by vm_compute. Qed.
(** A job that was cancelled while it was queued configures its router. *)
Lemma cancelled_job_is_run :
  let w' := run (queued ++ [Request (CancelJob 70 None); ticked 1]) w in
  (ext w').1 = [u "one"] ∧ job_status <$> by_id 70 (jobs (db w')) = Some CANCELLED.
Proof. by vm_compute. Qed.
(** The same failed job is retried as often as one likes. *)
Definition failing : list event :=
  [Request (Configure (1, Provisioning.Fleet (1, Router.Update 1 1 None
     {| Router.patch_name := None; Router.patch_model := None; Router.patch_mac := None; Router.patch_serial := None; Router.patch_routeros := None;
        Router.patch_management_ip := Some None; Router.patch_public_ip := None; Router.patch_username := None;
        Router.patch_secret := None |})))].
Lemma one_job_is_retried_again_and_again :
  let w' := run (failing ++ queued ++ [ticked 1; Request (RetryJob 71 70 None); Request (RetryJob 72 70 None); Request (RetryJob 73 70 None)]) w in
  map (λ x, (job_id x, job_status x, retry_count x)) (jobs (db w')) = [(70%positive, FAILED, 1); (71%positive, QUEUED, 2); (72%positive, QUEUED, 2); (73%positive, QUEUED, 2)]
  ∧ max_retries <$> by_id 70 (jobs (db w')) = Some 2.
Proof. by vm_compute. Qed.
(** The id is on the queue before the request commits: a tick in between does
    not find the job, and once it is there nobody looks for it again. *)
Lemma job_popped_before_its_commit_is_lost :
  let w0 := run (failing ++ queued ++ [ticked 1]) w in
  let requested := (retry_job 71 70 None w0).2 in
  let tick := drain_provision_queue (λ _, true) (λ i, drawn (N.of_nat i)) (World (db w0) (ext requested)) in
  tick.1 = Drained 1 1 ∧ (ext tick.2).2 = [] ∧ job_status <$> by_id 71 (jobs (db requested)) = Some QUEUED.
Proof. by vm_compute. Qed.
Lemma no_provisioning_job_succeeds_witness :
  map job_status (jobs (db (run (queued ++ [ticked 1]) w))) = [QUEUED]
  ∧ Provisioning.consistent (config (db (run (queued ++ [ticked 1]) w))).
Proof.
  split; [by vm_compute|].
  exact (proj1 (proj2 (no_provisioning_job_succeeds (λ _, true) None (λ _, ([], [])) 24 (queued ++ [ticked 1]) w governed_d))).
Defined.
Definition thrice : list event := failing ++ queued ++ [ticked 1; Request (RetryJob 71 70 None); ticked 2].
Lemma retries_end_witness :
  let d := db (history (λ _, true) None (λ _, ([], [])) 24 thrice w) in
  ∃ x z, retried d x 1 z ∧ retry_count z = 2 ∧ retry_count x + 1 ≤ max_retries x.
Proof.
  intros d. assert (∃ x z, by_id 70 (jobs d) = Some x ∧ by_id 71 (jobs d) = Some z ∧ retry_of_job_id z = Some (job_id x) ∧ retry_count z = 2)
    as (x & z & Hx & Hz & Hof & Hn) by (eexists _, _; by vm_compute).
  pose proof (retries_end (λ _, true) None (λ _, ([], [])) 24 thrice w governed_d x 1 z) as H. cbv zeta in H.
  change (db (history (λ _, true) None (λ _, ([], [])) 24 thrice w)) with d in H. clearbody d.
  apply by_id_Some in Hx as [Hx _]. apply by_id_Some in Hz as [Hz _].
  assert (retried d x 1 z) as Hr by (apply (retried_more _ _ O x); [constructor|exact Hz|exact Hof]).
  destruct (H Hx Hr) as (_ & _ & Hle). exists x, z. split; [exact Hr|]. split; [exact Hn|]. apply Hle. discriminate.
Defined.
Lemma queue_is_drained_witness :
  (ext (run queued w)).2 = [70%positive]
  ∧ (ext (history (λ _, true) None (λ _, ([], [])) 24 (map Tick [λ i, drawn (N.of_nat i)]) (run queued w))).2 = [].
Proof.
  assert ((ext (run queued w)).2 = [70%positive]) as Hq by by vm_compute. split; [exact Hq|].
  refine (proj2 (queue_is_drained (λ _, true) None (λ _, ([], [])) 24 [λ i, drawn (N.of_nat i)] (run queued w)) _).
  rewrite Hq. exact (Nat.le_refl 1).
Defined.
End examples.
End ProvisioningJobs.
